(* ===== verification/_CoqProject ===== *)
-Q . S2P
Prelude.v
Hoare.v
Fhtypes.v
List2.v
MemfhIdx.v
MemfhTree.v
MemfhPage.v
MemfhInv.v
MemfhWrite.v
Fcd.v
Json.v
JsonTool.v
JsonFile.v
Pqfh.v
PqfhSpec.v
Table.v
Kdb.v
Libpq.v
Replicator.v
ReplicatorSpec.v
Meta.v
DbRead.v
DbWrite.v
Sql.v
DbRows.v
DbSession.v
DbSpec.v
Cursor.v
SqlText.v
CursorSpec.v
CursorScan.v
DbServer.v
ReplicatorServer.v
CursorServer.v
Merge.v
Cmp.v
CmpIsam.v
CmpSpec.v
CmpTable.v
CmpServer.v
ReplicaFile.v
ChangeLog.v
ChangeLogSpec.v
ChangeLogServer.v
MetaSpec.v
MetaOpen.v
MetaClose.v
MetaTyped.v
Load.v
LoadSpec.v
Command.v
CommandSpec.v
MetaServer.v
CommandServer.v
JavaCall.v
Split.v
Cobolpost.v
ThreadApi.v
Terminal.v
TerminalSpec.v
TerminalWindow.v
TerminalCmd.v
ErrLog.v
Debug.v
Commit.v
Memfh.v
MemfhFile.v
MemfhCbl.v
MemfhSession.v
System.v
SystemSpec.v
SystemDual.v
SystemConnect.v
SystemSession.v
SystemScan.v
SystemMemory.v
SystemJson.v
SystemServer.v
MemoryServer.v
