(* ===== verification/Prelude.v ===== *)
(** * pqfh: a file handler for COBOL programs over PostgreSQL, ISAM, memory and JSON files

    A COBOL program does every file operation with one call, [pqfh(opcode, fcd)]: [fcd] is
    the file control block (name, record area, keys, status).  The library sends the call to
    the ISAM file handler of the COBOL runtime, to a table of PostgreSQL, to both, to a file
    in memory or to a JSON document, and answers with a status of two characters.  This
    development models that library (src/*.c, src/json, src/changelog) and proves that its
    parts do what COBOL files promise, or shows where they do not.

    ** How the parts fit

    - [Fhtypes], [Fcd]: the integers and the fields of the control block (src/fhtypes.c,
      src/pqfh.h).  A control block is a value; its record area is a field of it.  Where the C
      code keeps a pointer to the caller's block or shares its record area (cmp_table.c,
      load_table.c, the globals of command.c) the definitions thread the block explicitly.
    - [Pqfh], [PqfhSpec]: the dispatcher (src/pqfh.c).  [get_mode] and [choose_mode] decide the mode of a
      call; the stages of each operation ([do_open] .. [do_delete], [isam_stage],
      [mode_a_stage]) call the handlers.  The handlers are the class [Handlers], so that the
      theorems on modes A, W, M and F hold of any of them.
    - In-memory files (modes M and F): [MemfhIdx] holds the operations of the page index
      (src/memfh_idx.c), a B+ tree on a heap of pages; [MemfhTree] the shape of the tree as an
      invariant, [MemfhPage] what the loops do to one page, [MemfhInv] searches and scans,
      [MemfhWrite] insertion with its splits.  [Memfh] and [MemfhFile] are a file with an index
      for each key (src/memfh.c); [MemfhCbl] the COBOL operations (src/memfh_cbl.c), and
      [MemfhSession] the abstract file they implement from an open to a close.
    - JSON files: [List2] is the linked list (src/list2.c) on a heap of nodes; [Json] the lexer,
      parser and printer (src/json); [JsonFile] the operations of a file named [JSON:...].
    - Tables of the database: [Table] converts columns and records (src/pq2cob.c, op_write.c,
      validador.c); [Kdb] the keys and the SQL conditions (src/kdb.c); [Libpq] the client library
      as a class, the open tables and src/utils.c; [DbRead], [DbWrite] the operations
      (src/op_read_random.c, op_start.c, op_next_prev.c, op_write.c, op_rewrite.c,
      op_delete.c); [Meta] opening, closing, creating, removing and truncating (src/op_open.c,
      op_close.c, meta.c, cache.c, create_table.c, delete_file.c, copy_table.c).
    - Contracts of the server: [Sql] (statements on one table), [Cursor] (cursors), [MetaSpec]
      (catalog).  [DbRows], [DbSession] and [DbSpec] prove that the operations keep a session and behave as
      a file; [CursorSpec] and [CursorScan] the starts and scans; [MetaOpen], [MetaClose] the life of a
      session; [MetaTyped] the well-formedness of the tables.  [SqlText], [DbServer],
      [CursorServer] and [MetaServer] are a server in memory that keeps the three contracts by
      reading the texts of the statements back: the hypotheses are satisfiable, and whole
      sessions evaluate.
    - Tools over both stores: [Cmp] the comparisons (src/cmp_table.c, cmp_isam.c), [Merge] their
      specification, [CmpIsam] the contract of the ISAM file handler, [CmpSpec], [CmpTable] and
      [CmpServer] their correctness; [Load] and [LoadSpec] the load (src/load_table.c).
    - [Command] and [CommandSpec]: the commands written to the file pqfh (src/command.c), run with [CommandServer].
    - [Replicator], [ReplicatorSpec], [ReplicatorServer] and [ReplicaFile]: the copies of a
      table on another database (src/replicator.c).
    - [ChangeLog], [ChangeLogSpec] and [ChangeLogServer]: the trigger and the daemon that bring the
      changes of a table back to its ISAM file (src/changelog).
    - [Commit]: the thread that commits every second against the calls that begin, commit and roll
      back (src/pqfh.c), as a step relation of two threads: each call is the list of its effects on the
      transaction, those no counter counts and the commits of its own among them, and a statement the
      server refuses turns the next COMMIT into a rollback.
    - [System]: the whole handler: the dispatcher with the operations of the files above as its
      handlers, over one state that has the tables, the ISAM files, the JSON documents, the memory
      files and the globals of src/pqfh.c they share.  [SystemConnect] is its first call,
      which connects; [SystemSpec], [SystemSession] and [SystemDual] run requests and whole sessions
      through it, in one store and in two, [SystemScan] the starts and the reads along them, [SystemMemory]
      sessions on a file in memory, [SystemJson] on a JSON document; [SystemServer] and
      [MemoryServer] evaluate such runs.
    - Around the handler: [JavaCall] the calls of Java objects from COBOL (src/javacall.c), with the
      Java machine as a class; [Cobolpost] the SQL statements of COBOL programs
      (src/libcobolpost.c, libcobolpost_linux.c); [ThreadApi] the web services and their threads
      (src/call_api.c, thread_api.c); [Split] the tool that splits a file of records (src/split.c);
      [JsonTool] the tool that reads and prints a JSON file (src/json/json.c, load.c); [ErrLog] the logs
      of errors and the reports of signals, [Debug] the settings and the counters (src/pqfh.c).
    - The terminal: what this repository added to the emulator PuTTY it ships.
      [Terminal] the copy of the screen, the flag that tells whether the system is on it and the
      decimal point of the number under the cursor (src/putty/unix/ava.c, windows/ava.c),
      [TerminalSpec] their correctness, [TerminalWindow] the window that stays open while the system
      runs (unix/gtkwin.c), [TerminalCmd] the escape sequence by which the system shows a document on
      the user's machine (terminal.c).
    - This file: bytes, C strings and machine integers, the monad of the stateful code and its
      lemmas, the tactics [run_step] and [inv_bind].  [Hoare] has the rules for invariants of
      that monad and the hint database [keeps].

    ** Conventions

    Bytes are integers from 0 to 255, a buffer is a list of them, and [cstr] reads a C string
    out of a buffer.  Stateful code is a function of the monad [M S A := S → S * (fault + A)].
    A [fault] is [Exit] (the program exits), [Fault] (undefined behaviour: an access outside a
    buffer, a null pointer, a negative length), [Hang] (a loop or a lock that never ends) or
    [NoFuel].  The theorems show runs without faults under
    stated hypotheses on sizes and contents, which their comments name; the exceptions are stated as theorems too.  Integers of 16 and
    32 bits wrap ([u16], [s16], [s32]).  Each definition that models code names its file and
    lines.  The log files and the counters of time are not part of the state of a call: [ErrLog] and
    [Debug] model the functions that write them on a state of their own.  The log of the
    comparisons is their result and part of it.  Debug output is left out.

    Fuel bounds the loops that C does not bound: the steps along a cursor or a file (one more
    than the records is enough, as the theorems state), the descent of the index (the depth of
    its path), the parser of JSON (the number of tokens, [parse_total]), the turns of the
    daemons, which only end when a statement fails.

    ** What the theorems show

    - Index and files in memory: a write puts an item in key order through leaf and branch splits
      ([memfh_idx_write_correct]) in an index of fewer items than a capacity that depends on the length of the key, beyond
      which the path of a search can leave its array ([path_overflow]); a search finds it or its place, a scan visits the records in
      the order of any key without duplicates, which end the process ([memfh_scan_by_key], [memfh_load_scan]); write, read and rewrite
      implement a map; START answers with the leaf's first item ([memfh_start_correct]); the COBOL
      operations keep their
      table of open files ([memfh_cbl_table_ok]) and scan a file ([memfh_cbl_scan]).
    - Lists and JSON: append and remove implement sequences on the heap; the parser always
      ends; what is printed is read back ([tostring_roundtrip]), by the tool too ([json_tool]); a JSON
      file is read record by record ([json_scan]).
    - Tables: a record comes back from the database as it was sent, but for the first digit of its negative
      numbers ([record_roundtrip]); the
      condition of a key is the order of its columns ([getwhere_lexicographic]);
      WRITE, REWRITE, DELETE and READ refine a file of records ([db_file_refinement]); START and
      READ NEXT give the records of the start in order ([table_scan], and [system_scan] through the
      whole handler); OPEN makes a session and
      CLOSE ends it ([open_session], [close_session]); every reachable table is well typed
      ([tables_typed]), and a name of the catalog too long for its buffer is a fault ([long_name_overflows]).
    - Both stores: for any handlers that keep the contract of a file, in mode A a DELETE that the database refuses may
      leave another record in the ISAM file ([mode_a_delete]) and in mode W the ISAM file
      decides ([mode_w_isam_decides]); for the handlers of this library modes A and W keep both
      equal under the conditions of [system_dual]; comparison, repair and load leave the table
      equal to the file ([cmp_table_correct], [cmp_isam_correct], [load_table_correct]); commands do
      their own effect ([command_runs]).
    - Copies: an update is done on every copy ([replica_mirrors]) unless the places of the
      columns moved ([replica_stale_places]); the record of a copy is read past its end
      ([get_clones_overrun]); a turn of the synchronisation applies the log to the file
      ([sync_turn_correct]), for the last table only ([sync_last_only]).
    - The whole: a session in mode B through the dispatcher - open, requests, close - answers as
      an indexed file and touches no other part ([system_session]), from the first call of the
      program; in modes A and W a request does the same to the table and to the ISAM file, which
      stay equal ([system_dual]); in modes M and F the
      sessions of programs on a file in memory answer what an abstract file answers, whose records live
      beyond the session in mode M only and for which the WRITE of a key that exists ends the process
      ([system_memory]); starts and reads on a JSON document answer what is in it ([system_json]).
    - Around the handler: [trim] removes exactly the blanks at the ends ([trim_strips]); the objects
      of Java have numbers of their own ([java_objects]) that the calls do not find
      ([java_handles_lost]), and are read after the end freed them ([java_after_end]); the pieces of a split file have its records ([split_pieces]); a query of
      COBOL gives the lines of its rows, with the columns where the values before them end ([sql_lines]), and one
      after [limpa_consulta] frees what was freed before
      ([sql_freed_twice]); the text sent to a web service is JSON with the names and values of a plain
      record ([to_json_parses]) and another thing for the rest ([to_json_unescaped]); the threads
      share it byte by byte with those of other services, and with the stack after the return
      ([api_threads_race]); a day's log of errors holds what was reported that day
      ([error_logs_daily]); the tables whose calls are logged and the counters are those asked for
      ([log_table_listed], [counters_correct]).
    - Terminal: the flag of the system is what the two last lines of the screen show
      ([integral_shows]), and during the session the answer yes does not close the window while it is set ([window_stays]), nor, on
      Windows, if it was set when the user asked ([windows_close]); the moves of
      the cursor read only the screen ([ava_move_bounds]), and the decimal point is that of the number
      ([decimal_of_number]); a document sent in one read is shown ([exec_command]), one sent in two may
      be lost ([exec_split]).
    - Transactions: the counter, the mutex and the open transaction agree
      ([commit_invariant]); nothing of a transaction is committed early when the thread does not
      race ([transaction_isolated], [transaction_race]), but by the calls that commit themselves
      ([transaction_broken]); the threads come to rest with the pending updates committed, or lost as a
      whole when the server refused one ([comes_to_rest]); ROLLBACK through the command file stops for good
      ([rollback_command_deadlock]).

    ** What is not modelled

    - PostgreSQL, libpq and the ISAM file handler EXTFH are outside the repository: classes of
      their documented behaviour, each with an instance in memory.
    - src/putty is a vendored copy of PuTTY, most of the C code of the repository and no part of
      the file handler: only the additions of this repository to it are modelled (ava.c, the lines
      that call its functions, and the sequence of commands), without the calls of GTK and of the
      Windows interface themselves.
    - The connection of the change log's tools (dbconnect of src/changelog/dbutils.c); the part of [apply_changelog] after
      its endless loop; the bodies commented out in src/call_api.c; the branch of executa_sql of
      builds without PQFH; the test functions of src/memfh.c.
    - The Java and COBOL projects, the scripts and the test programs.
    - Memory that is leaked, and the addresses of buffers: allocation always succeeds; heaps are
      modelled where the code shares nodes (lists, pages, JSON elements). *)

From stdpp Require Import prelude gmap strings.
From Stdlib Require Import ZArith Lia Sorting.Sorted.

(** * Bytes and machine integers

    A [char] or [unsigned char] is a [Z]; a buffer is a [list Z].  Conversions
    to a C integer type are written out with [u8], [u16], [u32] and [s32]. *)

Declare Scope pqfh_scope.
Delimit Scope pqfh_scope with pq.
Local Open Scope Z_scope.

Abbreviation bytes := (list Z).

Definition is_byte (z : Z) : Prop := 0 <= z < 256.

Definition u8 (z : Z) : Z := z mod 2 ^ 8.
Definition u16 (z : Z) : Z := z mod 2 ^ 16.
Definition u32 (z : Z) : Z := z mod 2 ^ 32.
Definition s32 (z : Z) : Z :=
  let w := u32 z in if w <? 2 ^ 31 then w else w - 2 ^ 32.
Definition s16 (z : Z) : Z :=
  let w := u16 z in if w <? 2 ^ 15 then w else w - 2 ^ 16.

(** The bytes of a string literal, without its terminating NUL. *)
Fixpoint bs (s : string) : bytes :=
  match s with
  | EmptyString => []
  | String a s' => Z.of_N (Ascii.N_of_ascii a) :: bs s'
  end.

(** A character literal. *)
Definition ch (s : string) : Z := match bs s with c :: _ => c | [] => 0 end.

(** * The C library functions the sources use *)

Module CLib.

(** The C string stored in a buffer: the bytes before the first NUL. *)
Fixpoint cstr (b : bytes) : bytes :=
  match b with
  | [] => []
  | c :: b' => if c =? 0 then [] else c :: cstr b'
  end.

Definition strlen (b : bytes) : nat := length (cstr b).

(** Index of the first [c] in a string ([None] is the null pointer). *)
Fixpoint strchr (s : bytes) (c : Z) : option nat :=
  match s with
  | [] => None
  | x :: s' => if x =? c then Some 0%nat else S <$> strchr s' c
  end.

(** Index of the last [c] in a string. *)
Fixpoint strrchr (s : bytes) (c : Z) : option nat :=
  match s with
  | [] => None
  | x :: s' =>
      match strrchr s' c with
      | Some i => Some (S i)
      | None => if x =? c then Some 0%nat else None
      end
  end.

(** [if ((p = strchr(s, c)) != NULL) *p = 0;] *)
Definition cut (s : bytes) (c : Z) : bytes :=
  match strchr s c with Some i => take i s | None => s end.

(** [strrchr(s, '/') == NULL ? s : strrchr(s, '/') + 1] *)
Definition basename (s : bytes) : bytes :=
  match strrchr s (ch "/") with Some i => drop (S i) s | None => s end.

Definition prefixb (p s : bytes) : bool := bool_decide (take (length p) s = p).

(** Index of the first occurrence of [p] in [s]. *)
Fixpoint strstr (s p : bytes) : option nat :=
  if prefixb p s then Some 0%nat
  else match s with [] => None | _ :: s' => S <$> strstr s' p end.

(** Lexicographic comparison of byte sequences. *)
Fixpoint lex_cmp (a b : bytes) : comparison :=
  match a, b with
  | [], [] => Eq
  | [], _ :: _ => Lt
  | _ :: _, [] => Gt
  | x :: a', y :: b' => match x ?= y with Eq => lex_cmp a' b' | c => c end
  end.

(** [memcmp] returns an [int] of which only the sign is specified. *)
Definition memcmp (a b : bytes) (n : nat) : comparison :=
  lex_cmp (take n a) (take n b).

Definition memeq (a b : bytes) (n : nat) : bool :=
  match memcmp a b n with Eq => true | _ => false end.

Definition isdigit (c : Z) : bool := (48 <=? c) && (c <=? 57).

(** Decimal digits of a natural number (the [%d] conversion). *)
Fixpoint dec_digits (fuel : nat) (n : Z) (acc : bytes) : bytes :=
  match fuel with
  | O => acc
  | S fuel' =>
      let acc' := (48 + n mod 10) :: acc in
      if n <? 10 then acc' else dec_digits fuel' (n / 10) acc'
  end.

Definition fmt_d (n : Z) : bytes :=
  if n <? 0 then ch "-" :: dec_digits 20 (- n) [] else dec_digits 20 n [].

(** [atoi]: blanks, an optional sign, then the longest run of digits. *)
Fixpoint atoi_digits (s : bytes) (acc : Z) : Z :=
  match s with
  | c :: s' => if isdigit c then atoi_digits s' (acc * 10 + (c - 48)) else acc
  | [] => acc
  end.

Fixpoint skip_blanks (s : bytes) : bytes :=
  match s with
  | c :: s' => if (c =? 32) || ((9 <=? c) && (c <=? 13)) then skip_blanks s' else s
  | [] => []
  end.

Definition atoi (s : bytes) : Z :=
  match skip_blanks (cstr s) with
  | c :: s' =>
      if c =? ch "-" then - atoi_digits s' 0
      else if c =? ch "+" then atoi_digits s' 0
      else atoi_digits (c :: s') 0
  | [] => 0
  end.

(** [memcpy(dst + off, src, length src)] into a buffer. *)
Definition blit (dst : bytes) (off : nat) (src : bytes) : bytes :=
  take off dst ++ src ++ drop (off + length src) dst.

End CLib.
Export CLib.
#[global] Arguments memcmp : simpl never.

(** * State and error monad

    A C function over a state [S] either returns a value or stops the process:
    [Exit] is a call to [exit], [Fault] a null dereference or an access outside
    an object, [Hang] a call that never returns, [NoFuel] the end of the
    evaluation budget of a loop.  The state at that point is kept. *)

Inductive fault := Exit | Fault | Hang | NoFuel.

#[global] Instance fault_eq_dec : EqDecision fault.
Proof. solve_decision. Defined.

Definition M (S A : Type) : Type := S → S * (fault + A).

#[global] Instance M_ret {S} : MRet (M S) := λ A a s, (s, inr a).
#[global] Instance M_bind {S} : MBind (M S) := λ A B f m s,
  match m s with
  | (s', inl e) => (s', inl e)
  | (s', inr a) => f a s'
  end.

Definition stop {S A} (e : fault) : M S A := λ s, (s, inl e).
Definition gets {S A} (f : S → A) : M S A := λ s, (s, inr (f s)).
Definition modify {S} (f : S → S) : M S unit := λ s, (f s, inr tt).
Definition of_option {S A} (o : option A) : M S A :=
  match o with Some a => mret a | None => stop Fault end.
Definition guard_fault {S} (b : bool) : M S unit :=
  if b then mret tt else stop Fault.

(** * Lemmas on the monad *)

Lemma bind_ok {S A B} (m : M S A) (f : A → M S B) s s' a :
  m s = (s', inr a) → (m ≫= f) s = f a s'.
Proof. intros H. unfold mbind, M_bind. by rewrite H. Qed.

Lemma bind_same {S A B} (m : M S A) (f : A → M S B) s s' : m s = m s' → (m ≫= f) s = (m ≫= f) s'.
Proof. intros H. unfold mbind, M_bind. by rewrite H. Qed.

Lemma bind_err {S A B} (m : M S A) (f : A → M S B) s s' e :
  m s = (s', inl e) → (m ≫= f) s = (s', inl e).
Proof. intros H. unfold mbind, M_bind. by rewrite H. Qed.

Lemma bind_inv {S A B} (m : M S A) (f : A → M S B) s s' b :
  (m ≫= f) s = (s', inr b) → ∃ s1 a, m s = (s1, inr a) ∧ f a s1 = (s', inr b).
Proof.
  unfold mbind, M_bind. destruct (m s) as [s1 [e|a]]; [done|]. eauto.
Qed.

Lemma ret_bind {S A B} (x : A) (f : A → M S B) s : (mret x ≫= f) s = f x s.
Proof. done. Qed.

Lemma gets_run {S A} (f : S → A) s : gets f s = (s, inr (f s)).
Proof. done. Qed.

Lemma modify_run {S} (f : S → S) s : modify f s = (f s, inr tt).
Proof. done. Qed.

(** * Arithmetic of the machine types *)

Lemma u8_range z : is_byte (u8 z).
Proof. unfold is_byte, u8. pose proof (Z.mod_pos_bound z (2 ^ 8)); lia. Qed.

Lemma u8_id z : is_byte z → u8 z = z.
Proof. unfold is_byte, u8. intros. apply Z.mod_small. lia. Qed.

Lemma u16_id z : 0 <= z < 2 ^ 16 → u16 z = z.
Proof. apply Z.mod_small. Qed.

Lemma u32_id z : 0 <= z < 2 ^ 32 → u32 z = z.
Proof. apply Z.mod_small. Qed.

Lemma s32_id z : - 2 ^ 31 <= z < 2 ^ 31 → s32 z = z.
Proof.
  intros H. unfold s32, u32.
  destruct (decide (0 <= z)).
  - rewrite Z.mod_small by lia. destruct (Z.ltb_spec z (2 ^ 31)); lia.
  - replace (z mod 2 ^ 32) with (z + 2 ^ 32).
    + destruct (Z.ltb_spec (z + 2 ^ 32) (2 ^ 31)); lia.
    + apply (Z.mod_unique z (2 ^ 32) (-1)); lia.
Qed.

(** * Lexicographic order on byte strings *)

Definition lex_lt (a b : bytes) : Prop := lex_cmp a b = Lt.

Lemma lex_cmp_refl a : lex_cmp a a = Eq.
Proof. induction a as [|x a IH]; simpl; [done|]. by rewrite Z.compare_refl. Qed.

Lemma lex_cmp_eq a b : lex_cmp a b = Eq ↔ a = b.
Proof.
  split; [|intros ->; apply lex_cmp_refl].
  revert b; induction a as [|x a IH]; intros [|y b]; simpl; try done.
  destruct (Z.compare_spec x y); try done. intros H1. f_equal; auto.
Qed.

Lemma lex_cmp_antisym a b : lex_cmp b a = CompOpp (lex_cmp a b).
Proof.
  revert b; induction a as [|x a IH]; intros [|y b]; simpl; try done.
  rewrite (Z.compare_antisym x y). destruct (x ?= y); simpl; auto.
Qed.

Lemma lex_lt_trans a b c : lex_lt a b → lex_lt b c → lex_lt a c.
Proof.
  unfold lex_lt. revert b c.
  induction a as [|x a IH]; intros [|y b] [|z c]; simpl; try done.
  destruct (Z.compare_spec x y) as [->|Hxy|Hxy]; [|intros _|done].
  - destruct (y ?= z); eauto; done.
  - destruct (Z.compare_spec y z) as [->|Hyz|Hyz]; [intros _|intros _|done];
      destruct (Z.compare_spec x z); subst; try lia; done.
Qed.

#[global] Instance lex_lt_strict : StrictOrder lex_lt.
Proof.
  split.
  - intros a H. unfold lex_lt in H. by rewrite lex_cmp_refl in H.
  - intros a b c. apply lex_lt_trans.
Qed.

#[global] Instance lex_lt_dec : RelDecision lex_lt.
Proof. intros a b. unfold lex_lt. apply _. Defined.

Lemma lex_gt a b : lex_cmp a b = Gt ↔ lex_lt b a.
Proof.
  unfold lex_lt. rewrite (lex_cmp_antisym a b). destruct (lex_cmp a b); simpl; split; done.
Qed.

Lemma lex_not_lt a b : lex_cmp a b ≠ Lt ↔ a = b ∨ lex_lt b a.
Proof.
  destruct (lex_cmp a b) eqn:E.
  - apply lex_cmp_eq in E. subst. naive_solver.
  - split; [done|]. intros [->|H]; [by rewrite lex_cmp_refl in E|].
    exfalso. eapply (irreflexivity lex_lt a). by etrans.
  - apply lex_gt in E. naive_solver.
Qed.

Lemma lex_ge_trans a b c : lex_cmp a b ≠ Lt → lex_cmp b c ≠ Lt → lex_cmp a c ≠ Lt.
Proof.
  rewrite !lex_not_lt. intros [->|H1] [->|H2]; auto. right. by etrans.
Qed.

Lemma lex_lt_ge_trans a b c : lex_lt a b → lex_cmp c b ≠ Lt → lex_lt a c.
Proof. rewrite lex_not_lt. intros ? [->|?]; [done|]. by etrans. Qed.

Lemma memcmp_full a b n :
  length a = n → length b = n → memcmp a b n = lex_cmp a b.
Proof. intros <- Hb. unfold memcmp. rewrite !take_ge by lia. done. Qed.

Lemma blit_length record r : (length r ≤ length record)%nat → length (blit record 0 r) = length record.
Proof. intros. unfold blit. simpl. rewrite length_app, length_drop. lia. Qed.

(** * Lists *)

Lemma filter_all {A} (P : A → Prop) `{!∀ x, Decision (P x)} l : Forall P l → filter P l = l.
Proof. induction 1 as [|x l Hx _ IH]; [done|]. rewrite filter_cons, decide_True by done. by f_equal. Qed.

(** * Decimal text *)

Lemma cstr_id s : 0 ∉ s → cstr s = s.
Proof. induction s as [|c s IH]; [done|]. intros [Hc Hs]%not_elem_of_cons. cbn [cstr]. rewrite (proj2 (Z.eqb_neq c 0)) by congruence. by rewrite IH. Qed.

Lemma prefixb_app p s : prefixb p s = true ↔ ∃ r, s = p ++ r.
Proof.
  unfold prefixb. rewrite bool_decide_eq_true. split.
  - intros E. exists (drop (length p) s). by rewrite <-E at 1; rewrite take_drop.
  - intros [r ->]. apply take_app_length.
Qed.

Lemma strstr_spec s p : is_Some (strstr s p) ↔ ∃ a b, s = a ++ p ++ b.
Proof.
  induction s as [|c s IH]; cbn [strstr]; destruct (prefixb p _) eqn:E.
  1,3: split; [|by eexists]; intros _; apply prefixb_app in E as [r ->]; by exists [], r.
  - split; [by intros [? ?]|]. intros (a & b & Hs). symmetry in Hs. apply app_nil in Hs as [-> Hs]. apply app_nil in Hs as [-> ->]. done.
  - rewrite fmap_is_Some, IH. split.
    + intros (a & b & ->). by exists (c :: a), b.
    + intros ([|x a] & b & Hs); [exfalso; assert (prefixb p (c :: s) = true) as Hp by (apply prefixb_app; by exists b); congruence|].
      exists a, b. by injection Hs.
Qed.

Lemma isdigit_range c : isdigit c = true ↔ 48 <= c <= 57.
Proof. unfold isdigit. rewrite andb_true_iff, !Z.leb_le. lia. Qed.

(** * Automation shared by the components *)

Create HintDb pqfh.
Create Rewrite HintDb pqfh.
#[export] Hint Resolve u8_range lex_lt_trans : pqfh.
#[export] Hint Rewrite @gets_run @modify_run : pqfh.

(** Evaluate the head of a monadic computation whose result is a hypothesis. *)
Ltac run_step :=
  first [ erewrite bind_ok by first [ eassumption | reflexivity ]
        | erewrite bind_err by first [ eassumption | reflexivity ] ].

(** Split a successful run of a bind into its two parts. *)
Ltac inv_bind H :=
  let s := fresh "s" in let a := fresh "a" in let Hm := fresh "Hm" in
  apply bind_inv in H as (s & a & Hm & H).
