(* ===== verification/Hoare.v ===== *)
(** Partial correctness of the calls: what holds of the result and of the state when a call
    that started well returns. *)

From stdpp Require Import prelude.
From S2P Require Import Prelude.

Create HintDb keeps.

Section hoare.
Context {S : Type}.

Definition hoare {A} (P : S → Prop) (m : M S A) (Q : A → S → Prop) : Prop :=
  ∀ s s' a, P s → m s = (s', inr a) → Q a s'.

(** An invariant is kept, and the result is good. *)
Definition keeps {A} (I : S → Prop) (m : M S A) (R : A → Prop) : Prop := hoare I m (λ a s, I s ∧ R a).

Lemma hoare_bind {A B} (P : S → Prop) (m : M S A) (f : A → M S B) (R : A → S → Prop) (Q : B → S → Prop) :
  hoare P m R → (∀ a, hoare (R a) (f a) Q) → hoare P (m ≫= f) Q.
Proof. intros Hm Hf s s' b Hs (s1 & a & E1 & E2)%bind_inv. eapply Hf; [|exact E2]. by eapply Hm. Qed.

Lemma hoare_weaken {A} (P P' : S → Prop) (m : M S A) (Q : A → S → Prop) : hoare P' m Q → (∀ s, P s → P' s) → hoare P m Q.
Proof. intros H HP s s' a Hs. apply H. auto. Qed.

Lemma hoare_ret {A} (P : S → Prop) (a : A) (Q : A → S → Prop) : (∀ s, P s → Q a s) → hoare P (mret a) Q.
Proof. intros H s s' a' Hs [= <- <-]. auto. Qed.

Lemma hoare_gets {A} (P : S → Prop) (f : S → A) : hoare P (gets f) (λ _, P).
Proof. by intros s s' a Hs [= <- _]. Qed.

Lemma hoare_option {A} (P : S → Prop) (o : option A) : hoare P (of_option o) (λ a s, P s ∧ o = Some a).
Proof. intros s s' a Hs. destruct o; [|done]. by intros [= <- <-]. Qed.

Context (I : S → Prop).

Lemma keeps_ret {A} (a : A) (R : A → Prop) : R a → keeps I (mret a) R.
Proof. by intros H s s' a' Hs [= <- <-]. Qed.

Lemma keeps_bind {A B} (m : M S A) (f : A → M S B) (R : A → Prop) (Q : B → Prop) :
  keeps I m R → (∀ a, R a → keeps I (f a) Q) → keeps I (m ≫= f) Q.
Proof.
  intros Hm Hf s s' b Hs (s1 & a & E1 & E2)%bind_inv. destruct (Hm _ _ _ Hs E1) as [H1 Ha]. by apply (Hf a Ha s1).
Qed.

Lemma keeps_weaken {A} (m : M S A) (R R' : A → Prop) : keeps I m R → (∀ a, R a → R' a) → keeps I m R'.
Proof. intros H HR s s' a Hs E. destruct (H _ _ _ Hs E). auto. Qed.

Lemma keeps_stop {A} e (R : A → Prop) : keeps I (stop e) R.
Proof. by intros s s' a Hs E. Qed.

Lemma keeps_gets {A} (f : S → A) (R : A → Prop) : (∀ s, I s → R (f s)) → keeps I (gets f) R.
Proof. intros H s s' a Hs [= <- <-]. auto. Qed.

Lemma keeps_modify (f : S → S) : (∀ s, I s → I (f s)) → keeps I (modify f) (λ _, True).
Proof. intros H s s' a Hs [= <- <-]. auto. Qed.

Lemma keeps_option {A} (o : option A) (R : A → Prop) : (∀ a, o = Some a → R a) → keeps I (of_option o) R.
Proof. intros H. destruct o as [a|]; [by apply keeps_ret, H|apply keeps_stop]. Qed.

Lemma keeps_guard (b : bool) : keeps I (guard_fault b) (λ _, b = true).
Proof. destruct b; [by apply keeps_ret|apply keeps_stop]. Qed.

Lemma keeps_if {A} (b : bool) (m1 m2 : M S A) (R : A → Prop) :
  (b = true → keeps I m1 R) → (b = false → keeps I m2 R) → keeps I (if b then m1 else m2) R.
Proof. intros H1 H2. destruct b; auto. Qed.

End hoare.
