(* ===== verification/Fhtypes.v ===== *)
(** The big-endian integers of the file control block (src/fhtypes.c):
    readers and writers of 2- and 4-byte fields, their round trips and ranges. *)

From stdpp Require Import prelude gmap strings.
From S2P Require Import Prelude.
Local Open Scope Z_scope.

(** [s[i]] for an [unsigned char *] pointing into a buffer. *)
Definition byte_at (s : bytes) (i : nat) : Z := default 0 (s !! i).

(** src/fhtypes.c:1-3 getshort *)
Definition getshort (s : bytes) : Z :=
  u16 (byte_at s 1 + Z.shiftl (byte_at s 0) 8).

(** src/fhtypes.c:5-7 getint *)
Definition getint (s : bytes) : Z :=
  u32 (byte_at s 3 + Z.shiftl (byte_at s 2) 8 + Z.shiftl (byte_at s 1) 16
       + Z.shiftl (byte_at s 0) 24).

(** src/fhtypes.c:9-12 putshort *)
Definition putshort (n : Z) : bytes := [u8 (Z.shiftr n 8); u8 n].

(** src/fhtypes.c:14-19 putint *)
Definition putint (n : Z) : bytes :=
  [u8 (Z.shiftr n 24); u8 (Z.shiftr n 16); u8 (Z.shiftr n 8); u8 n].

(** Turn shifts and wraps into divisions by numerals and decide. *)
Ltac word_arith :=
  unfold u8, u16, u32, is_byte in *;
  rewrite ?Z.shiftl_mul_pow2, ?Z.shiftr_div_pow2 by lia;
  change (2 ^ 8) with 256 in *; change (2 ^ 16) with 65536 in *;
  change (2 ^ 24) with 16777216 in *; change (2 ^ 32) with 4294967296 in *;
  Z.to_euclidean_division_equations; lia.

Lemma getshort_put n rest : getshort (putshort n ++ rest) = u16 n.
Proof. unfold getshort, putshort, byte_at. simpl. word_arith. Qed.

Lemma getint_put n rest : getint (putint n ++ rest) = u32 n.
Proof. unfold getint, putint, byte_at. simpl. word_arith. Qed.

Lemma getshort_putshort n rest :
  0 <= n < 2 ^ 16 → getshort (putshort n ++ rest) = n.
Proof. intros. rewrite getshort_put. by apply u16_id. Qed.

Lemma getint_putint n rest : 0 <= n < 2 ^ 32 → getint (putint n ++ rest) = n.
Proof. intros. rewrite getint_put. by apply u32_id. Qed.

Lemma getshort_range s : 0 <= getshort s < 2 ^ 16.
Proof. apply Z.mod_pos_bound. lia. Qed.

Lemma getint_range s : 0 <= getint s < 2 ^ 32.
Proof. apply Z.mod_pos_bound. lia. Qed.

#[export] Hint Rewrite getshort_put getint_put : pqfh.

(** The 2- and 4-byte fields of the file control block round trip both
    ways: reading back what was written gives the value modulo the field's
    width, and well-formed bytes survive a read followed by a write. *)
Theorem field_roundtrip :
  (∀ n rest, getshort (putshort n ++ rest) = u16 n) ∧
  (∀ n rest, getint (putint n ++ rest) = u32 n) ∧
  (∀ a b, is_byte a → is_byte b → putshort (getshort [a; b]) = [a; b]) ∧
  (∀ a b c d, is_byte a → is_byte b → is_byte c → is_byte d →
    putint (getint [a; b; c; d]) = [a; b; c; d]).
Proof.
  split_and!; [apply getshort_put|apply getint_put| |]; intros;
    unfold getshort, getint, putshort, putint, byte_at; simpl;
    repeat f_equal; word_arith.
Qed.
