(* ===== verification/List2.v ===== *)
(** The doubly linked list of src/list2.c and src/list2.h, on an explicit heap
    of nodes.  [dll] relates the nodes to the sequence of buffers they hold; the
    theorems show that every operation implements the corresponding operation
    on sequences and leaves a well-formed list. *)

From stdpp Require Import prelude gmap strings.
From S2P Require Import Prelude.
Local Open Scope Z_scope.

(** Addresses are integers, 0 is NULL. *)
Abbreviation ptr := Z.

(** src/list2.h:4-9 list2_t *)
Record list2_t := mk_list2 {
  buf : bytes;
  size : Z;
  next : ptr;
  prior : ptr;
}.

(** The heap of list nodes; [brk] is the next address [malloc] returns. *)
Record heap := mk_heap { brk : ptr; nodes : gmap ptr list2_t }.

Definition load (p : ptr) : M heap list2_t :=
  nd ← gets (λ h, nodes h !! p); of_option nd.

Definition store (p : ptr) (f : list2_t → list2_t) : M heap unit :=
  nd ← load p; modify (λ h, mk_heap (brk h) (<[p := f nd]> (nodes h))).

Definition malloc_node (nd : list2_t) : M heap ptr :=
  p ← gets brk;
  modify (λ h, mk_heap (brk h + 1) (<[p := nd]> (nodes h)));;
  mret p.

Definition free_node (p : ptr) : M heap unit :=
  load p;; modify (λ h, mk_heap (brk h) (delete p (nodes h))).

Definition set_next (q : ptr) (nd : list2_t) : list2_t :=
  mk_list2 (buf nd) (size nd) q (prior nd).
Definition set_prior (q : ptr) (nd : list2_t) : list2_t :=
  mk_list2 (buf nd) (size nd) (next nd) q.

(** A loop over the list visits each node at most once: the number of nodes of
    the heap bounds its iterations. *)
Definition bound : M heap nat := gets (λ h, S (base.size (nodes h))).

Fixpoint first_loop (fuel : nat) (list : ptr) : M heap ptr :=
  match fuel with
  | O => stop NoFuel
  | S fuel' =>
      nd ← load list;
      if prior nd =? 0 then mret list else first_loop fuel' (prior nd)
  end.

(** src/list2.c:6-14 list2_first *)
Definition list2_first (list : ptr) : M heap ptr :=
  if list =? 0 then mret 0 else (n ← bound; first_loop n list).

Fixpoint last_loop (fuel : nat) (list : ptr) : M heap ptr :=
  match fuel with
  | O => stop NoFuel
  | S fuel' =>
      nd ← load list;
      if next nd =? 0 then mret list else last_loop fuel' (next nd)
  end.

(** src/list2.c:16-24 list2_last *)
Definition list2_last (list : ptr) : M heap ptr :=
  if list =? 0 then mret 0 else (n ← bound; last_loop n list).

(** src/list2.c:26-48 list2_append *)
Definition list2_append (list : ptr) (b : bytes) (sz : Z) : M heap ptr :=
  list ← list2_last list;
  let sz := if sz =? 0 then Z.of_nat (strlen b) + 1 else sz in
  item ← malloc_node (mk_list2 (take (Z.to_nat sz) b) sz 0 0);
  (if list =? 0 then mret tt
   else store list (set_next item);; store item (set_prior list));;
  mret item.

(** The recursive calls of [list2_remove] are on an item already unlinked. *)
Fixpoint remove_rec (fuel : nat) (item : ptr) : M heap ptr :=
  match fuel with
  | O => stop NoFuel
  | S fuel' =>
      nd ← load item;
      if (next nd =? 0) && (prior nd =? 0) then free_node item;; mret 0
      else if next nd =? 0 then
        store (prior nd) (set_next 0);;
        store item (set_prior 0);;
        remove_rec fuel' item;;
        mret (prior nd)
      else if prior nd =? 0 then
        store (next nd) (set_prior 0);;
        store item (set_next 0);;
        remove_rec fuel' item;;
        mret (next nd)
      else
        store (next nd) (set_prior (prior nd));;
        store (prior nd) (set_next (next nd));;
        store item (set_next 0);;
        store item (set_prior 0);;
        remove_rec fuel' item;;
        mret (next nd)
  end.

(** src/list2.c:50-84 list2_remove *)
Definition list2_remove (item : ptr) : M heap ptr := remove_rec 2 item.

Fixpoint free_loop (fuel : nat) (list : ptr) : M heap unit :=
  match fuel with
  | O => stop NoFuel
  | S fuel' =>
      if list =? 0 then mret tt
      else list ← list2_remove list; free_loop fuel' list
  end.

(** src/list2.c:86-92 list2_free *)
Definition list2_free (list : ptr) : M heap ptr :=
  list ← list2_first list;
  n ← bound;
  free_loop n list;;
  mret 0.

Fixpoint size_loop (fuel : nat) (p : ptr) (sz : Z) : M heap Z :=
  match fuel with
  | O => stop NoFuel
  | S fuel' =>
      if p =? 0 then mret sz else nd ← load p; size_loop fuel' (next nd) (sz + 1)
  end.

(** src/list2.c:94-102 list2_size *)
Definition list2_size (list : ptr) : M heap Z :=
  p ← list2_first list; n ← bound; size_loop n p 0.

Fixpoint get_loop (fuel : nat) (p : ptr) (j i : Z) : M heap ptr :=
  match fuel with
  | O => stop NoFuel
  | S fuel' =>
      if p =? 0 then mret 0
      else if j =? i then mret p
      else nd ← load p; get_loop fuel' (next nd) (j + 1) i
  end.

(** src/list2.c:104-114 list2_get *)
Definition list2_get (list : ptr) (i : Z) : M heap ptr :=
  p ← list2_first list; n ← bound; get_loop n p 0 i.

(** * The abstract list

    [dll h ps]: the addresses and buffers [ps], in order, are the nodes of a
    list of [h].  Distinct lists of the same heap are framed by [outside]. *)

Definition addr (ps : list (ptr * bytes)) (i : nat) : ptr :=
  default 0 (fst <$> ps !! i).

Definition addr_before (ps : list (ptr * bytes)) (i : nat) : ptr :=
  match i with O => 0 | S j => addr ps j end.

Definition node_at (ps : list (ptr * bytes)) (i : nat) (b : bytes) : list2_t :=
  mk_list2 b (Z.of_nat (length b)) (addr ps (S i)) (addr_before ps i).

Record dll (h : heap) (ps : list (ptr * bytes)) : Prop := {
  dll_nodup : NoDup (fst <$> ps);
  dll_range : Forall (λ x, 0 < fst x < brk h) ps;
  dll_nodes : ∀ i p b, ps !! i = Some (p, b) → nodes h !! p = Some (node_at ps i b);
  dll_fresh : ∀ p, brk h <= p → nodes h !! p = None;
  dll_brk : 0 < brk h;
}.

(** Nodes of [h] that are not in [ps] are the same in [h']. *)
Definition outside (ps : list (ptr * bytes)) (h h' : heap) : Prop :=
  ∀ p, p ∉ fst <$> ps → p < brk h → nodes h' !! p = nodes h !! p.

(** * Lemmas *)

Lemma addr_lookup ps i p b : ps !! i = Some (p, b) → addr ps i = p.
Proof. unfold addr. by intros ->. Qed.

Lemma addr_none ps i : (length ps <= i)%nat → addr ps i = 0.
Proof. intros H. unfold addr. by rewrite lookup_ge_None_2. Qed.

Lemma dll_ptr_pos h ps i p b : dll h ps → ps !! i = Some (p, b) → 0 < p < brk h.
Proof.
  intros Hd Hi. pose proof (dll_range _ _ Hd) as Hr. rewrite Forall_lookup in Hr.
  apply (Hr i (p, b) Hi).
Qed.

Lemma addr_zero h ps i : dll h ps → addr ps i = 0 ↔ (length ps <= i)%nat.
Proof.
  intros Hd. split; [|apply addr_none].
  intros H. destruct (ps !! i) as [[p b]|] eqn:E; [|by apply lookup_ge_None].
  apply (dll_ptr_pos _ _ _ _ _ Hd) in E as Hp. apply addr_lookup in E. lia.
Qed.

Lemma addr_inj h ps i j p b b' :
  dll h ps → ps !! i = Some (p, b) → ps !! j = Some (p, b') → i = j.
Proof.
  intros Hd Hi Hj. eapply (NoDup_lookup (fst <$> ps)); [apply Hd| |];
    rewrite list_lookup_fmap, ?Hi, ?Hj; done.
Qed.

Lemma load_node h ps i p b :
  dll h ps → ps !! i = Some (p, b) → load p h = (h, inr (node_at ps i b)).
Proof.
  intros Hd Hi. unfold load. erewrite bind_ok by apply gets_run.
  by rewrite (dll_nodes _ _ Hd i p b Hi).
Qed.

Lemma dll_bound h ps : dll h ps → (length ps <= base.size (nodes h))%nat.
Proof.
  intros Hd. rewrite <- size_dom. rewrite <- (length_fmap fst ps).
  rewrite <- (size_list_to_set (C:=gset ptr) (fst <$> ps)) by apply Hd.
  apply subseteq_size. intros p Hp.
  apply elem_of_list_to_set, list_elem_of_fmap in Hp as ([p' b] & -> & Hin).
  apply list_elem_of_lookup in Hin as [i Hi]. simpl.
  apply elem_of_dom. eexists. by eapply dll_nodes.
Qed.

Lemma first_loop_ok h ps fuel i p b :
  dll h ps → ps !! i = Some (p, b) → (i < fuel)%nat →
  first_loop fuel p h = (h, inr (addr ps 0)).
Proof.
  intros Hd. revert i p b. induction fuel as [|fuel IH]; intros i p b Hi Hf; [lia|].
  simpl. erewrite bind_ok by (eapply load_node; eauto). simpl.
  destruct i as [|i]; simpl; [by erewrite addr_lookup by eauto|].
  destruct (ps !! i) as [[q c]|] eqn:Eq;
    [|apply lookup_ge_None in Eq; apply lookup_lt_Some in Hi; lia].
  pose proof (dll_ptr_pos _ _ _ _ _ Hd Eq).
  erewrite addr_lookup by eauto. destruct (Z.eqb_spec q 0); [lia|].
  eapply IH; eauto. lia.
Qed.

Lemma last_loop_ok h ps fuel i p b :
  dll h ps → ps !! i = Some (p, b) → (length ps - i <= fuel)%nat →
  last_loop fuel p h = (h, inr (addr ps (length ps - 1))).
Proof.
  intros Hd. revert i p b.
  induction fuel as [|fuel IH]; intros i p b Hi Hf;
    pose proof (lookup_lt_Some _ _ _ Hi); [lia|].
  simpl. erewrite bind_ok by (eapply load_node; eauto). simpl.
  destruct (Z.eqb_spec (addr ps (S i)) 0) as [E|E].
  - apply (addr_zero _ _ _ Hd) in E. replace (length ps - 1)%nat with i by lia.
    by erewrite addr_lookup by eauto.
  - destruct (ps !! S i) as [[q c]|] eqn:Eq;
      [|apply lookup_ge_None in Eq; rewrite addr_none in E; lia].
    erewrite addr_lookup by eauto. eapply IH; eauto. lia.
Qed.

(** A handle on the list: NULL for the empty list, otherwise any of its nodes. *)
Definition handle (ps : list (ptr * bytes)) (p : ptr) : Prop :=
  (p = 0 ∧ ps = []) ∨ (∃ i b, ps !! i = Some (p, b)).

Lemma list2_first_run h ps p :
  dll h ps → handle ps p → list2_first p h = (h, inr (addr ps 0)).
Proof.
  intros Hd [[-> ->]|(i & b & Hi)]; [done|]. unfold list2_first.
  pose proof (dll_ptr_pos _ _ _ _ _ Hd Hi).
  destruct (Z.eqb_spec p 0); [lia|]. erewrite bind_ok by apply gets_run.
  eapply first_loop_ok; eauto.
  pose proof (dll_bound _ _ Hd). apply lookup_lt_Some in Hi. lia.
Qed.

Lemma list2_last_run h ps p :
  dll h ps → handle ps p → list2_last p h = (h, inr (addr ps (length ps - 1))).
Proof.
  intros Hd [[-> ->]|(i & b & Hi)]; [done|]. unfold list2_last.
  pose proof (dll_ptr_pos _ _ _ _ _ Hd Hi).
  destruct (Z.eqb_spec p 0); [lia|]. erewrite bind_ok by apply gets_run.
  eapply last_loop_ok; eauto. pose proof (dll_bound _ _ Hd). lia.
Qed.

Lemma store_run h p f nd :
  nodes h !! p = Some nd →
  store p f h = (mk_heap (brk h) (<[p := f nd]> (nodes h)), inr tt).
Proof.
  intros H. unfold store, load. erewrite bind_ok; [|erewrite bind_ok by apply gets_run; by rewrite H].
  done.
Qed.

Lemma free_node_run h p nd :
  nodes h !! p = Some nd →
  free_node p h = (mk_heap (brk h) (delete p (nodes h)), inr tt).
Proof.
  intros H. unfold free_node, load. erewrite bind_ok; [|erewrite bind_ok by apply gets_run; by rewrite H].
  done.
Qed.

(** ** Append *)

Lemma addr_app_old ps x i : (i < length ps)%nat → addr (ps ++ [x]) i = addr ps i.
Proof. intros H. unfold addr. by rewrite lookup_app_l. Qed.

Lemma addr_app_new ps x : addr (ps ++ [x]) (length ps) = fst x.
Proof. unfold addr. by rewrite lookup_app_r, Nat.sub_diag by lia. Qed.

Lemma node_at_app_mid ps x i b :
  (S i < length ps)%nat → node_at (ps ++ [x]) i b = node_at ps i b.
Proof.
  intros H. unfold node_at, addr_before.
  rewrite addr_app_old by lia. destruct i; [done|]. by rewrite addr_app_old by lia.
Qed.

Lemma node_at_app_last ps x i b :
  S i = length ps → node_at (ps ++ [x]) i b = set_next (fst x) (node_at ps i b).
Proof.
  intros H. unfold node_at, set_next, addr_before. simpl. rewrite H, addr_app_new.
  destruct i; [done|]. by rewrite addr_app_old by lia.
Qed.

Lemma node_at_app_new ps x b :
  node_at (ps ++ [x]) (length ps) b
  = mk_list2 b (Z.of_nat (length b)) 0 (addr_before ps (length ps)).
Proof.
  unfold node_at, addr_before. rewrite (addr_none _ (S (length ps))) by (rewrite length_app; simpl; lia).
  destruct (length ps) eqn:E; [done|]. by rewrite addr_app_old by lia.
Qed.

(** The well-formedness of [ps ++ [(brk h, b)]] once its nodes are in place. *)
Lemma dll_snoc h ps b m :
  dll h ps →
  (∀ i p c, ps !! i = Some (p, c) → m !! p = Some (node_at (ps ++ [(brk h, b)]) i c)) →
  m !! brk h = Some (node_at (ps ++ [(brk h, b)]) (length ps) b) →
  (∀ p, brk h < p → m !! p = None) →
  dll (mk_heap (brk h + 1) m) (ps ++ [(brk h, b)]).
Proof.
  intros Hd Hold Hnew Hfr. destruct Hd as [Hnd Hr Hn Hf Hb]. split; simpl.
  - rewrite fmap_app. apply NoDup_app. split_and!; [done| |apply NoDup_singleton].
    intros q Hq Hq'. apply list_elem_of_singleton in Hq'. simpl in Hq'. subst.
    apply list_elem_of_fmap in Hq as ([q c] & E & Hin). rewrite Forall_forall in Hr.
    specialize (Hr _ Hin). simpl in *. lia.
  - apply Forall_app. split; [|repeat constructor; simpl; lia].
    eapply Forall_impl; [done|]. simpl. lia.
  - intros i p c Hi. destruct (decide (i < length ps)%nat).
    + rewrite lookup_app_l in Hi by lia. auto.
    + apply lookup_app_Some in Hi as [Hi|[? Hi]]; [apply lookup_lt_Some in Hi; lia|].
      destruct (i - length ps)%nat eqn:E; [|done]. simpl in Hi.
      replace i with (length ps) by lia. by simplify_eq.
  - intros p Hp. apply Hfr. lia.
  - lia.
Qed.

Lemma append_run h ps p b sz :
  dll h ps → handle ps p → 0 < sz <= Z.of_nat (length b) →
  ∃ h', list2_append p b sz h = (h', inr (brk h)) ∧
        dll h' (ps ++ [(brk h, take (Z.to_nat sz) b)]) ∧ outside ps h h'.
Proof.
  intros Hd Hh Hs. unfold list2_append.
  erewrite bind_ok by (eapply list2_last_run; eauto).
  destruct (Z.eqb_spec sz 0); [lia|].
  set (b' := take (Z.to_nat sz) b).
  assert (Hlen : Z.of_nat (length b') = sz) by (subst b'; rewrite length_take; lia).
  erewrite bind_ok by reflexivity.
  destruct Hh as [[-> ->]|(i & c & Hi)].
  - simpl. eexists. split; [reflexivity|]. split.
    + apply (dll_snoc h []); [done|done| |].
      * simpl. rewrite lookup_insert_eq. unfold node_at. simpl. by rewrite Hlen.
      * intros q Hq. rewrite lookup_insert_ne by lia. apply Hd. lia.
    + intros q _ Hq. simpl. by rewrite lookup_insert_ne by lia.
  - destruct (ps !! (length ps - 1)%nat) as [[l lb]|] eqn:El;
      [|apply lookup_ge_None in El; apply lookup_lt_Some in Hi; lia].
    pose proof (dll_ptr_pos _ _ _ _ _ Hd El) as Hl.
    rewrite (addr_lookup _ _ _ _ El). destruct (Z.eqb_spec l 0); [lia|].
    assert (Hlast : S (length ps - 1) = length ps) by (apply lookup_lt_Some in El; lia).
    erewrite bind_ok; [|erewrite bind_ok by (apply store_run; simpl; rewrite lookup_insert_ne by lia;
                          eapply dll_nodes; eauto);
                        apply store_run; simpl; rewrite lookup_insert_ne by lia; apply lookup_insert_eq].
    eexists. split; [reflexivity|]. simpl. split.
    + apply dll_snoc; [done| | |].
      * intros j q d Hj. pose proof (dll_ptr_pos _ _ _ _ _ Hd Hj).
        rewrite lookup_insert_ne by lia.
        destruct (decide (j = length ps - 1)%nat) as [->|Hne].
        -- simplify_eq. rewrite lookup_insert_eq, node_at_app_last by lia. done.
        -- rewrite lookup_insert_ne by (intros ->; apply Hne; eapply addr_inj; eauto).
           rewrite lookup_insert_ne by lia. apply lookup_lt_Some in Hj as ?.
           rewrite node_at_app_mid by lia. by eapply dll_nodes.
      * rewrite lookup_insert_eq, node_at_app_new. unfold set_prior. simpl.
        rewrite Hlen. unfold addr_before. rewrite <- Hlast at 1.
        by rewrite (addr_lookup _ _ _ _ El).
      * intros q Hq. rewrite !lookup_insert_ne by lia. apply Hd. lia.
    + intros q Hq Hb. simpl. rewrite !lookup_insert_ne; [done| | |]; try lia.
      intros ->. apply Hq, list_elem_of_fmap. exists (q, lb). split; [done|].
      by eapply list_elem_of_lookup_2.
Qed.

(** ** Remove *)

Lemma addr_delete ps i k :
  addr (delete i ps) k = addr ps (if decide (k < i)%nat then k else S k).
Proof.
  unfold addr. case_decide.
  - by rewrite list_lookup_delete_lt.
  - by rewrite list_lookup_delete_ge by lia.
Qed.

(** The node at position [j] after position [i] is deleted. *)
Definition node_del (ps : list (ptr * bytes)) (i j : nat) (c : bytes) : list2_t :=
  mk_list2 c (Z.of_nat (length c))
    (if decide (S j = i) then addr ps (S i) else addr ps (S j))
    (if decide (j = S i) then addr_before ps i else addr_before ps j).

Lemma node_at_delete ps i j c :
  j ≠ i →
  node_at (delete i ps) (if decide (j < i)%nat then j else (j - 1)%nat) c = node_del ps i j c.
Proof.
  intros Hji. unfold node_at, node_del. f_equal; [rewrite addr_delete; repeat case_decide; f_equal; lia|].
  unfold addr_before. repeat case_decide; try lia; subst; try done.
  - destruct j; [done|]. rewrite addr_delete. case_decide; [done|lia].
  - replace (S i - 1)%nat with i by lia. destruct i; [done|].
    rewrite addr_delete. case_decide; [done|lia].
  - destruct j as [|j]; [lia|]. replace (S j - 1)%nat with j by lia.
    destruct j as [|j]; [lia|]. rewrite addr_delete. case_decide; [lia|done].
Qed.

Lemma dll_delete h ps i p b m :
  dll h ps → ps !! i = Some (p, b) →
  (∀ j q c, j ≠ i → ps !! j = Some (q, c) → m !! q = Some (node_del ps i j c)) →
  (∀ q, brk h <= q → m !! q = None) →
  dll (mk_heap (brk h) m) (delete i ps).
Proof.
  intros [Hnd Hr Hn Hf Hb] Hi Hm Hfr. split; simpl; [| | |done|done].
  - rewrite list_fmap_delete. eapply sublist_NoDup; [exact Hnd|apply sublist_delete].
  - by apply Forall_delete.
  - intros j q c Hj. destruct (decide (j < i)%nat) as [Hlt|Hge].
    + rewrite list_lookup_delete_lt in Hj by done. rewrite (Hm j q c) by (done || lia).
      rewrite <- node_at_delete by lia. by rewrite decide_True.
    + rewrite list_lookup_delete_ge in Hj by lia. rewrite (Hm (S j) q c) by (done || lia).
      rewrite <- node_at_delete by lia. rewrite decide_False by lia.
      do 2 f_equal. lia.
Qed.

(** An unlinked item is freed. *)
Lemma remove_detached_run fuel h p nd :
  nodes h !! p = Some nd → next nd = 0 → prior nd = 0 →
  remove_rec (S fuel) p h = (mk_heap (brk h) (delete p (nodes h)), inr 0).
Proof.
  intros Hp Hn Hq. simpl. unfold load.
  erewrite bind_ok; [|erewrite bind_ok by apply gets_run; by rewrite Hp].
  rewrite Hn, Hq. simpl. erewrite bind_ok by (eapply free_node_run; eauto). done.
Qed.

(** The address [list2_remove] returns: the next item, or else the prior one. *)
Definition after_remove (ps : list (ptr * bytes)) (i : nat) : ptr :=
  if decide (S i < length ps)%nat then addr ps (S i) else addr_before ps i.

Lemma dll_lookup_ne h ps i j p q b c :
  dll h ps → ps !! i = Some (p, b) → ps !! j = Some (q, c) → i ≠ j → p ≠ q.
Proof. intros Hd Hi Hj Hne ->. apply Hne. eapply addr_inj; eauto. Qed.

Lemma lookup_at h ps i : dll h ps → (i < length ps)%nat → ∃ b, ps !! i = Some (addr ps i, b).
Proof.
  intros _ H. destruct (ps !! i) as [[q b]|] eqn:E; [|apply lookup_ge_None in E; lia].
  exists b. by rewrite (addr_lookup _ _ _ _ E).
Qed.

Lemma addr_before_zero h ps i :
  dll h ps → (i <= length ps)%nat → addr_before ps i = 0 ↔ i = 0%nat.
Proof.
  intros Hd Hl. destruct i as [|i]; simpl; [done|].
  rewrite (addr_zero _ _ _ Hd). lia.
Qed.

Lemma in_addr (ps : list (ptr * bytes)) i p b : ps !! i = Some (p, b) → p ∈ fst <$> ps.
Proof.
  intros H. apply list_elem_of_fmap. exists (p, b). split; [done|].
  by eapply list_elem_of_lookup_2.
Qed.

Lemma notin_ne (ps : list (ptr * bytes)) i p b q : ps !! i = Some (p, b) → q ∉ fst <$> ps → p ≠ q.
Proof. intros H Hq ->. apply Hq. eapply in_addr; eauto. Qed.

(** Simplify lookups in a node map updated at addresses of [ps]. *)
Ltac upd_node :=
  repeat first
    [ rewrite lookup_delete_ne by (done || lia)
    | rewrite lookup_insert_eq
    | rewrite lookup_insert_ne by (done || lia) ].

(** Unfold [node_del] and decide its positions. *)
Ltac node_del_cases :=
  unfold node_del, node_at, set_next, set_prior; simpl;
  repeat case_decide; try lia; simplify_eq; try done.

(** What a removal of [p] does to the heap. *)
Definition removed (ps : list (ptr * bytes)) (p : ptr) (h h' : heap) : Prop :=
  outside ps h h' ∧ nodes h' !! p = None ∧ brk h' = brk h.

Section remove.
Context (h : heap) (ps : list (ptr * bytes)) (i : nat) (p : ptr) (b : bytes).
Hypothesis (Hd : dll h ps) (Hi : ps !! i = Some (p, b)).

Lemma remove_case_head c q :
  i = 0%nat → ps !! 1%nat = Some (q, c) →
  ∃ h', list2_remove p h = (h', inr q) ∧ dll h' (delete i ps) ∧ removed ps p h h'.
Proof.
  intros -> Hq. pose proof (dll_lookup_ne _ _ _ _ _ _ _ _ Hd Hi Hq ltac:(done)) as Hne.
  pose proof (dll_ptr_pos _ _ _ _ _ Hd Hq).
  unfold list2_remove. simpl. erewrite bind_ok by (eapply load_node; eauto). simpl.
  rewrite (addr_lookup _ _ _ _ Hq). destruct (Z.eqb_spec q 0); [lia|]. simpl.
  erewrite bind_ok by (eapply store_run, dll_nodes; eauto).
  erewrite bind_ok by (eapply store_run; simpl; upd_node; eapply dll_nodes; eauto).
  erewrite bind_ok by (eapply (remove_detached_run 0); simpl; [apply lookup_insert_eq|done|done]).
  eexists. split; [reflexivity|]. simpl. split.
  - eapply dll_delete; eauto.
    + intros j r d Hj Hr. pose proof (dll_lookup_ne _ _ _ _ _ _ _ _ Hd Hi Hr ltac:(lia)).
      upd_node. destruct (decide (j = 1%nat)) as [->|Hj1].
      * simplify_eq. upd_node. node_del_cases.
      * pose proof (dll_lookup_ne _ _ _ _ _ _ _ _ Hd Hq Hr ltac:(lia)). upd_node.
        rewrite (dll_nodes _ _ Hd _ _ _ Hr). node_del_cases.
    + intros r Hr. pose proof (dll_ptr_pos _ _ _ _ _ Hd Hi). upd_node. by apply Hd.
  - split_and!; simpl; [|apply lookup_delete_eq|done].
    intros r Hr _. pose proof (notin_ne _ _ _ _ _ Hi Hr). pose proof (notin_ne _ _ _ _ _ Hq Hr).
    simpl. upd_node. done.
Qed.

Lemma remove_case_last c q j :
  i = S j → S i = length ps → ps !! j = Some (q, c) →
  ∃ h', list2_remove p h = (h', inr q) ∧ dll h' (delete i ps) ∧ removed ps p h h'.
Proof.
  intros Hij Hl Hq. pose proof (dll_lookup_ne _ _ _ _ _ _ _ _ Hd Hi Hq ltac:(lia)) as Hne.
  pose proof (dll_ptr_pos _ _ _ _ _ Hd Hq).
  unfold list2_remove. simpl. erewrite bind_ok by (eapply load_node; eauto).
  unfold node_at. simpl. rewrite (addr_none _ (S i)) by lia. rewrite Hij. simpl.
  rewrite (addr_lookup _ _ _ _ Hq). destruct (Z.eqb_spec q 0); [lia|]. simpl.
  erewrite bind_ok by (eapply store_run, dll_nodes; eauto).
  erewrite bind_ok by (eapply store_run; simpl; upd_node; eapply dll_nodes; eauto).
  erewrite bind_ok.
  2:{ eapply (remove_detached_run 0); simpl; [apply lookup_insert_eq| |done].
      simpl. by rewrite (addr_none _ (S i)) by lia. }
  eexists. split; [reflexivity|]. simpl. split.
  - rewrite <- Hij. eapply dll_delete; eauto.
    + intros k r d Hk Hr. pose proof (dll_lookup_ne _ _ _ _ _ _ _ _ Hd Hi Hr ltac:(lia)).
      upd_node. apply lookup_lt_Some in Hr as ?. destruct (decide (k = j)) as [->|Hkj].
      * simplify_eq. upd_node. node_del_cases. by rewrite (addr_none _ (S (S j))) by lia.
      * pose proof (dll_lookup_ne _ _ _ _ _ _ _ _ Hd Hq Hr ltac:(lia)). upd_node.
        rewrite (dll_nodes _ _ Hd _ _ _ Hr). node_del_cases.
    + intros r Hr. pose proof (dll_ptr_pos _ _ _ _ _ Hd Hi). upd_node. by apply Hd.
  - split_and!; simpl; [|apply lookup_delete_eq|done].
    intros r Hr _. pose proof (notin_ne _ _ _ _ _ Hi Hr). pose proof (notin_ne _ _ _ _ _ Hq Hr).
    simpl. upd_node. done.
Qed.

Lemma remove_case_mid c q d r j :
  i = S j → ps !! j = Some (q, c) → ps !! S i = Some (r, d) →
  ∃ h', list2_remove p h = (h', inr r) ∧ dll h' (delete i ps) ∧ removed ps p h h'.
Proof.
  intros Hij Hq Hr. pose proof (dll_lookup_ne _ _ _ _ _ _ _ _ Hd Hi Hq ltac:(lia)).
  pose proof (dll_lookup_ne _ _ _ _ _ _ _ _ Hd Hi Hr ltac:(lia)).
  pose proof (dll_lookup_ne _ _ _ _ _ _ _ _ Hd Hq Hr ltac:(lia)).
  pose proof (dll_ptr_pos _ _ _ _ _ Hd Hq). pose proof (dll_ptr_pos _ _ _ _ _ Hd Hr).
  unfold list2_remove. simpl. erewrite bind_ok by (eapply load_node; eauto).
  unfold node_at. simpl. rewrite (addr_lookup _ _ _ _ Hr). rewrite Hij. simpl.
  rewrite (addr_lookup _ _ _ _ Hq).
  destruct (Z.eqb_spec q 0); [lia|]. destruct (Z.eqb_spec r 0); [lia|]. simpl.
  erewrite bind_ok by (eapply store_run, dll_nodes; eauto).
  erewrite bind_ok by (eapply store_run; simpl; upd_node; eapply dll_nodes; eauto).
  erewrite bind_ok by (eapply store_run; simpl; upd_node; eapply dll_nodes; eauto).
  erewrite bind_ok by (eapply store_run; simpl; upd_node; done).
  erewrite bind_ok by (eapply (remove_detached_run 0); simpl; [apply lookup_insert_eq|done|done]).
  eexists. split; [reflexivity|]. simpl. split.
  - rewrite <- Hij. eapply dll_delete; eauto.
    + intros k s e Hk Hs. pose proof (dll_lookup_ne _ _ _ _ _ _ _ _ Hd Hi Hs ltac:(lia)).
      upd_node. destruct (decide (k = j)) as [->|Hkj]; [|destruct (decide (k = S i)) as [->|Hki]].
      * simplify_eq. upd_node. node_del_cases. by rewrite (addr_lookup _ _ _ _ Hr).
      * simplify_eq. upd_node. node_del_cases. by rewrite (addr_lookup _ _ _ _ Hq).
      * pose proof (dll_lookup_ne _ _ _ _ _ _ _ _ Hd Hq Hs ltac:(lia)).
        pose proof (dll_lookup_ne _ _ _ _ _ _ _ _ Hd Hr Hs ltac:(lia)). upd_node.
        rewrite (dll_nodes _ _ Hd _ _ _ Hs). node_del_cases.
    + intros s Hs. pose proof (dll_ptr_pos _ _ _ _ _ Hd Hi). upd_node. by apply Hd.
  - split_and!; simpl; [|apply lookup_delete_eq|done].
    intros s Hs _. pose proof (notin_ne _ _ _ _ _ Hi Hs). pose proof (notin_ne _ _ _ _ _ Hq Hs).
    pose proof (notin_ne _ _ _ _ _ Hr Hs). simpl. upd_node. done.
Qed.

Lemma remove_case_single :
  length ps = 1%nat →
  ∃ h', list2_remove p h = (h', inr 0) ∧ dll h' (delete i ps) ∧ removed ps p h h'.
Proof.
  intros Hl. apply lookup_lt_Some in Hi as Hlt. assert (i = 0%nat) as -> by lia.
  unfold list2_remove. erewrite remove_detached_run;
    [|eapply dll_nodes; eauto|simpl; by rewrite addr_none by lia|done].
  eexists. split; [reflexivity|]. split.
  - eapply dll_delete; eauto.
    + intros j q c Hj Hq. apply lookup_lt_Some in Hq. lia.
    + intros q Hq. pose proof (dll_ptr_pos _ _ _ _ _ Hd Hi). upd_node. by apply Hd.
  - split_and!; simpl; [|apply lookup_delete_eq|done].
    intros q Hq _. pose proof (notin_ne _ _ _ _ _ Hi Hq). simpl. upd_node. done.
Qed.

Lemma remove_run :
  ∃ h', list2_remove p h = (h', inr (after_remove ps i)) ∧ dll h' (delete i ps) ∧ removed ps p h h'.
Proof.
  unfold after_remove. apply lookup_lt_Some in Hi as Hlt.
  assert (i = 0%nat ∨ ∃ j, i = S j) as [E|[j E]] by (destruct i; eauto); case_decide as Hn.
  - destruct (lookup_at _ _ _ Hd Hn) as [d Hr]. rewrite E in Hr. replace (S i) with 1%nat by lia. eapply remove_case_head; eauto.
  - assert (addr_before ps i = 0) as -> by (by rewrite E). apply remove_case_single. lia.
  - destruct (lookup_at _ _ _ Hd Hn) as [d Hr].
    destruct (lookup_at _ _ j Hd ltac:(lia)) as [c Hq]. eapply remove_case_mid; eauto.
  - destruct (lookup_at _ _ j Hd ltac:(lia)) as [c Hq].
    assert (addr_before ps i = addr ps j) as -> by (by rewrite E).
    eapply remove_case_last; eauto. lia.
Qed.

End remove.

(** ** Traversals *)

Lemma free_loop_ok fuel h ps :
  dll h ps → (length ps < fuel)%nat →
  ∃ h', free_loop fuel (addr ps 0) h = (h', inr tt) ∧ brk h' = brk h ∧
    ∀ p, nodes h' !! p = if decide (p ∈ fst <$> ps) then None else nodes h !! p.
Proof.
  revert h ps. induction fuel as [|fuel IH]; intros h ps Hd Hf; [lia|]. simpl.
  destruct ps as [|[p b] ps]; simpl; [by exists h|].
  unfold addr. simpl. pose proof (dll_ptr_pos _ _ 0%nat p b Hd eq_refl).
  destruct (Z.eqb_spec p 0); [lia|].
  destruct (remove_run h _ 0%nat p b Hd eq_refl) as (h1 & Hrun & Hd1 & Hout & Hp & Hb).
  erewrite bind_ok by apply Hrun. simpl in Hd1.
  assert (after_remove ((p, b) :: ps) 0 = addr ps 0) as ->.
  { unfold after_remove. simpl. case_decide; [done|].
    rewrite addr_none; [done|]. simpl in *. lia. }
  destruct (IH h1 ps Hd1 ltac:(simpl in *; lia)) as (h2 & Hrun2 & Hb2 & Hn2).
  exists h2. split_and!; [done|congruence|]. intros q. rewrite Hn2.
  destruct (decide (q ∈ fst <$> ps)) as [Hin|Hnin]; [by rewrite decide_True by set_solver|].
  destruct (decide (q = p)) as [->|Hqp]; [by rewrite decide_True by set_solver|].
  rewrite decide_False by set_solver. destruct (decide (q < brk h)).
  - apply Hout; [set_solver|done].
  - rewrite (dll_fresh _ _ Hd) by lia. apply (dll_fresh _ _ Hd1). lia.
Qed.

Lemma size_loop_ok h ps fuel i sz :
  dll h ps → (i <= length ps)%nat → (length ps - i < fuel)%nat →
  size_loop fuel (addr ps i) sz h = (h, inr (sz + Z.of_nat (length ps - i))).
Proof.
  intros Hd. revert i sz. induction fuel as [|fuel IH]; intros i sz Hi Hf; [lia|]. simpl.
  destruct (Z.eqb_spec (addr ps i) 0) as [E|E].
  - apply (addr_zero _ _ _ Hd) in E. replace (length ps - i)%nat with 0%nat by lia.
    by rewrite Z.add_0_r.
  - assert (i < length ps)%nat by (rewrite (addr_zero _ _ _ Hd) in E; lia).
    destruct (lookup_at _ _ i Hd ltac:(done)) as [b Hb].
    erewrite bind_ok by (eapply load_node; eauto). simpl. rewrite IH by lia. do 2 f_equal. lia.
Qed.

Lemma get_loop_ok h ps fuel j i :
  dll h ps → (j <= length ps)%nat → (length ps - j < fuel)%nat → Z.of_nat j <= i →
  get_loop fuel (addr ps j) (Z.of_nat j) i h = (h, inr (addr ps (Z.to_nat i))).
Proof.
  intros Hd. revert j. induction fuel as [|fuel IH]; intros j Hj Hf Hi; [lia|]. simpl.
  destruct (Z.eqb_spec (addr ps j) 0) as [E|E].
  - apply (addr_zero _ _ _ Hd) in E. by rewrite (addr_none _ (Z.to_nat i)) by lia.
  - destruct (Z.eqb_spec (Z.of_nat j) i) as [<-|Hne]; [by rewrite Nat2Z.id|].
    assert (j < length ps)%nat by (rewrite (addr_zero _ _ _ Hd) in E; lia).
    destruct (lookup_at _ _ j Hd ltac:(done)) as [b Hb].
    erewrite bind_ok by (eapply load_node; eauto). simpl.
    replace (Z.of_nat j + 1) with (Z.of_nat (S j)) by lia. apply IH; lia.
Qed.

Lemma size_run h ps p :
  dll h ps → handle ps p → list2_size p h = (h, inr (Z.of_nat (length ps))).
Proof.
  intros Hd Hh. unfold list2_size. erewrite bind_ok by (eapply list2_first_run; eauto).
  erewrite bind_ok by apply gets_run. pose proof (dll_bound _ _ Hd).
  rewrite (size_loop_ok _ ps) by (done || lia). do 2 f_equal. lia.
Qed.

Lemma get_run h ps p i :
  dll h ps → handle ps p → 0 <= i → list2_get p i h = (h, inr (addr ps (Z.to_nat i))).
Proof.
  intros Hd Hh Hi. unfold list2_get. erewrite bind_ok by (eapply list2_first_run; eauto).
  erewrite bind_ok by apply gets_run. pose proof (dll_bound _ _ Hd).
  apply (get_loop_ok _ ps _ 0); done || lia.
Qed.

#[export] Hint Resolve list2_first_run list2_last_run size_run get_run : pqfh.

(** * Properties *)

(** [list2_append] on any item of a list (or NULL for the empty list)
    terminates, puts a copy of the first [size] bytes at the end of the
    sequence, keeps the list well formed and touches no other list. *)
Theorem list2_append_refines h ps p b sz :
  dll h ps → handle ps p → 0 < sz <= Z.of_nat (length b) →
  ∃ h' q, list2_append p b sz h = (h', inr q) ∧
          dll h' (ps ++ [(q, take (Z.to_nat sz) b)]) ∧ outside ps h h'.
Proof.
  intros Hd Hh Hs. destruct (append_run h ps p b sz Hd Hh Hs) as (h' & ? & ? & ?). eauto.
Qed.

(** [list2_remove] of the item at position [i] terminates, leaves the
    sequence without that position well formed, frees the item, and returns the
    next item or, for the last one, the prior one (NULL when it was alone). *)
Theorem list2_remove_refines h ps i p b :
  dll h ps → ps !! i = Some (p, b) →
  ∃ h', list2_remove p h = (h', inr (after_remove ps i)) ∧
        dll h' (delete i ps) ∧ outside ps h h' ∧ nodes h' !! p = None.
Proof.
  intros Hd Hi. destruct (remove_run h ps i p b Hd Hi) as (h' & ? & ? & ? & ? & ?). eauto.
Qed.

(** [list2_free] on any item of a list terminates, frees every node of the
    list and no other node, and returns NULL. *)
Theorem list2_free_complete h ps p :
  dll h ps → handle ps p →
  ∃ h', list2_free p h = (h', inr 0) ∧
    ∀ q, nodes h' !! q = if decide (q ∈ fst <$> ps) then None else nodes h !! q.
Proof.
  intros Hd Hh. unfold list2_free. erewrite bind_ok by (eapply list2_first_run; eauto).
  erewrite bind_ok by apply gets_run. pose proof (dll_bound _ _ Hd).
  destruct (free_loop_ok (S (base.size (nodes h))) h ps Hd ltac:(lia)) as (h' & Hrun & _ & Hn).
  erewrite bind_ok by apply Hrun. eauto.
Qed.

(** The read-only traversals agree with the sequence: from any item,
    [list2_first] and [list2_last] return its ends, [list2_size] its length and
    [list2_get] the address at an index (NULL beyond the end). *)
Theorem list2_traversals h ps p :
  dll h ps → handle ps p →
  list2_first p h = (h, inr (addr ps 0)) ∧
  list2_last p h = (h, inr (addr ps (length ps - 1))) ∧
  list2_size p h = (h, inr (Z.of_nat (length ps))) ∧
  (∀ i, 0 <= i → list2_get p i h = (h, inr (addr ps (Z.to_nat i)))).
Proof. intros Hd Hh. split_and!; eauto with pqfh. Qed.

(** * Witnesses *)

(** A list of two items at addresses 1 and 2. *)
Definition example_heap : heap :=
  mk_heap 3 {[ 1 := mk_list2 [65; 0] 2 2 0; 2 := mk_list2 [66; 0] 2 0 1 ]}.
Definition example_ps : list (ptr * bytes) := [(1, [65; 0]); (2, [66; 0])].

Lemma example_dll : dll example_heap example_ps.
Proof.
  split; simpl.
  - repeat constructor; set_solver.
  - repeat constructor; simpl; lia.
  - intros [|[|[|i]]] p b Hi; simpl in Hi; simplify_eq; reflexivity.
  - intros p Hp. rewrite lookup_insert_ne by lia. by rewrite lookup_singleton_ne by lia.
  - lia.
Qed.

Lemma example_handle : handle example_ps 2.
Proof. right. by exists 1%nat, [66; 0]. Qed.

Lemma list2_append_refines_witness :
  ∃ h' q, list2_append 2 [67; 0] 2 example_heap = (h', inr q) ∧
          dll h' (example_ps ++ [(q, [67; 0])]) ∧ outside example_ps example_heap h'.
Proof.
  apply (list2_append_refines example_heap example_ps 2 [67; 0] 2 example_dll example_handle).
  simpl; lia.
Defined.

Lemma list2_remove_refines_witness :
  ∃ h', list2_remove 1 example_heap = (h', inr (after_remove example_ps 0)) ∧
        dll h' [(2, [66; 0])] ∧ outside example_ps example_heap h' ∧ nodes h' !! 1 = None.
Proof.
  apply (list2_remove_refines example_heap example_ps 0 1 [65; 0] example_dll). reflexivity.
Defined.

Lemma list2_free_complete_witness :
  ∃ h', list2_free 2 example_heap = (h', inr 0) ∧
    ∀ q, nodes h' !! q
         = if decide (q ∈ fst <$> example_ps) then None else nodes example_heap !! q.
Proof. apply (list2_free_complete example_heap example_ps 2 example_dll example_handle). Defined.

Lemma list2_traversals_witness :
  list2_first 2 example_heap = (example_heap, inr 1) ∧
  list2_last 2 example_heap = (example_heap, inr 2) ∧
  list2_size 2 example_heap = (example_heap, inr 2) ∧
  (∀ i, 0 <= i → list2_get 2 i example_heap
                 = (example_heap, inr (addr example_ps (Z.to_nat i)))).
Proof. apply (list2_traversals example_heap example_ps 2 example_dll example_handle). Defined.
