(* ===== verification/MemfhIdx.v ===== *)
(** The page index of the in-memory file handler (src/memfh_idx.c, src/memfh.h):
    a B+ tree of fixed-size pages with a search path per key, on an explicit heap
    of pages.  This file holds the operations; MemfhInv.v their invariant. *)

From stdpp Require Import prelude gmap strings.
From S2P Require Import Prelude.

(** Addresses are integers, 0 is NULL; the build is 32-bit, pointers take 4 bytes. *)
Abbreviation ptr := Z.
Definition PTRSZ : nat := 4.

(** src/memfh.h:4-10 constants *)
Definition MEMFH_PAGELEN : nat := 4096.
Definition MEMFH_MAX_KEYS : nat := 256.
Definition MEMFH_MAX_DEPTH : nat := 16.
Definition MEMFH_LEAF : Z := 0.
Definition MEMFH_BRANCH : Z := 1.

(** src/memfh.h:12-13 MEMFH_MAX_ITEMS *)
Definition MEMFH_MAX_ITEMS (keylen : nat) : nat :=
  (MEMFH_PAGELEN - 12) / (keylen + PTRSZ) - 1.

(** An item of a page: the key bytes followed by a pointer to a record or page. *)
Abbreviation slot := (bytes * ptr)%type.

(** src/memfh.h:28-35 memfh_idx_t : the items of [buf] written so far, in slot
    order; the first [idx_n] are in use.  The [keylen] of a page that [memfh_open]
    or [memfh_idx_create] allocates is unset (0 here) until the first write. *)
Record memfh_idx_t := mk_page {
  idx_tp : Z;
  idx_keylen : nat;
  idx_n : nat;
  idx_next : ptr;
  idx_buf : list slot;
}.

Definition set_n (n : nat) (p : memfh_idx_t) : memfh_idx_t :=
  mk_page (idx_tp p) (idx_keylen p) n (idx_next p) (idx_buf p).
Definition set_next (q : ptr) (p : memfh_idx_t) : memfh_idx_t :=
  mk_page (idx_tp p) (idx_keylen p) (idx_n p) q (idx_buf p).
Definition set_buf (b : list slot) (p : memfh_idx_t) : memfh_idx_t :=
  mk_page (idx_tp p) (idx_keylen p) (idx_n p) (idx_next p) b.

(** The part of the state the functions reach through [hdr] and [k]: the page
    heap, [hdr->idx[k]], [hdr->path[k]], [hdr->pos[k]], [hdr->depth[k]] and the
    global counters.  Unwritten array elements are absent from the maps. *)
Record ixst := mk_ix {
  brk : ptr;
  pages : gmap ptr memfh_idx_t;
  root : ptr;
  path : gmap nat ptr;
  pos : gmap nat nat;
  depth : nat;
  num_writes : Z;
  num_reads : Z;
}.

Definition load_page (p : ptr) : M ixst memfh_idx_t :=
  o ← gets (λ s, pages s !! p); of_option o.

Definition store_page (p : ptr) (pg : memfh_idx_t) : M ixst unit :=
  load_page p;;
  modify (λ s, mk_ix (brk s) (<[p := pg]> (pages s)) (root s) (path s) (pos s)
                     (depth s) (num_writes s) (num_reads s)).

Definition malloc_page (pg : memfh_idx_t) : M ixst ptr :=
  p ← gets brk;
  modify (λ s, mk_ix (brk s + 1) (<[p := pg]> (pages s)) (root s) (path s) (pos s)
                     (depth s) (num_writes s) (num_reads s));;
  mret p.

Definition set_root (p : ptr) : M ixst unit :=
  modify (λ s, mk_ix (brk s) (pages s) p (path s) (pos s) (depth s)
                     (num_writes s) (num_reads s)).

(** Writes to [path[k][d]] and [pos[k][d]] outside the arrays are faults. *)
Definition set_path (d : nat) (p : ptr) : M ixst unit :=
  guard_fault (d <? MEMFH_MAX_DEPTH)%nat;;
  modify (λ s, mk_ix (brk s) (pages s) (root s) (<[d := p]> (path s)) (pos s) (depth s)
                     (num_writes s) (num_reads s)).

Definition set_pos (d i : nat) : M ixst unit :=
  guard_fault (d <? MEMFH_MAX_DEPTH)%nat;;
  modify (λ s, mk_ix (brk s) (pages s) (root s) (path s) (<[d := i]> (pos s)) (depth s)
                     (num_writes s) (num_reads s)).

Definition set_depth (d : nat) : M ixst unit :=
  modify (λ s, mk_ix (brk s) (pages s) (root s) (path s) (pos s) d
                     (num_writes s) (num_reads s)).

Definition get_path (d : nat) : M ixst ptr := o ← gets (λ s, path s !! d); of_option o.
Definition get_pos (d : nat) : M ixst nat := o ← gets (λ s, pos s !! d); of_option o.

Definition count_read : M ixst unit :=
  modify (λ s, mk_ix (brk s) (pages s) (root s) (path s) (pos s) (depth s)
                     (num_writes s) (num_reads s + 1)).
Definition count_write : M ixst unit :=
  modify (λ s, mk_ix (brk s) (pages s) (root s) (path s) (pos s) (depth s)
                     (num_writes s + 1) (num_reads s)).

(** ** Items of a page *)

(** Slot [i] lies inside the 4084 bytes of [buf]. *)
Definition fits (kl i : nat) : bool :=
  ((i + 1) * (kl + PTRSZ) <=? MEMFH_PAGELEN - 12)%nat.

(** [memcpy] of a whole item to slot [i]. *)
Definition put_slot (kl : nat) (b : list slot) (i : nat) (s : slot) : option (list slot) :=
  if fits kl i then
    if (i <? length b)%nat then Some (<[i := s]> b)
    else if (i =? length b)%nat then Some (b ++ [s]) else None
  else None.

(** [for (i = n; i > pos; i--) slot[i] = slot[i-1]], [cnt = n - pos] moves. *)
Fixpoint shift_loop (kl : nat) (b : list slot) (i cnt : nat) : option (list slot) :=
  match cnt with
  | O => Some b
  | S cnt' =>
      s ← b !! (i - 1)%nat; b' ← put_slot kl b i s; shift_loop kl b' (i - 1) cnt'
  end.

(** Copy of [cnt] items from slot [i1] of a page to slot [i2] of a new one. *)
Fixpoint copy_loop (kl : nat) (src dst : list slot) (i1 i2 cnt : nat) : option (list slot) :=
  match cnt with
  | O => Some dst
  | S cnt' =>
      s ← src !! i1; dst' ← put_slot kl dst i2 s; copy_loop kl src dst' (S i1) (S i2) cnt'
  end.

(** The slot among [cnt] from [i] on whose pointer is [q]. *)
Fixpoint find_child (b : list slot) (q : ptr) (i cnt : nat) : option nat :=
  match cnt with
  | O => None
  | S cnt' =>
      match b !! i with
      | Some s => if bool_decide (snd s = q) then Some i else find_child b q (S i) cnt'
      | None => None
      end
  end.

(** ** Traversal *)

(** Every level writes [path[k][depth]], so no descent is longer than the array. *)
Definition max_fuel : nat := S MEMFH_MAX_DEPTH.

Fixpoint first_loop (fuel : nat) (idx : ptr) : M ixst unit :=
  match fuel with
  | O => stop NoFuel
  | S fuel' =>
      pg ← load_page idx;
      if bool_decide (idx_tp pg = MEMFH_BRANCH) then
        s ← of_option (idx_buf pg !! 0%nat);
        d ← gets depth;
        set_depth (d + 1);;
        set_path (d + 1) (snd s);;
        set_pos (d + 1) 0;;
        first_loop fuel' (snd s)
      else mret tt
  end.

(** src/memfh_idx.c:20-43 memfh_idx_first *)
Definition memfh_idx_first : M ixst bool :=
  idx ← gets root;
  pg ← load_page idx;
  if bool_decide (idx_n pg = 0%nat) then mret false
  else
    set_depth 0;; set_path 0 idx;; set_pos 0 0;;
    first_loop max_fuel idx;;
    count_read;;
    mret true.

(** src/memfh_idx.c:76-92 memfh_idx_next (the descent to a leaf) *)
Fixpoint next_descend (fuel : nat) (d : nat) (idx : ptr) : M ixst unit :=
  match fuel with
  | O => stop NoFuel
  | S fuel' =>
      pg ← load_page idx;
      set_depth (d + 1);;
      set_pos (d + 1) 0;;
      set_path (d + 1) idx;;
      if bool_decide (idx_tp pg = MEMFH_BRANCH) then
        s ← of_option (idx_buf pg !! 0%nat);
        next_descend fuel' (d + 1) (snd s)
      else count_read
  end.

(** src/memfh_idx.c:45-100 memfh_idx_next : the body of its [while (true)] returns
    on every path, so it runs once. *)
Definition memfh_idx_next (idx : ptr) : M ixst bool :=
  d ← gets depth;
  pg ← load_page idx;
  i ← get_pos d;
  if (i + 1 <? idx_n pg)%nat then set_pos d (i + 1);; count_read;; mret true
  else if bool_decide (d = 0%nat) then mret false
  else
    let d := (d - 1)%nat in
    set_depth d;;
    up ← get_path d;
    upg ← load_page up;
    i ← get_pos d;
    if (i <? idx_n upg)%nat then
      child ← (if bool_decide (i + 1 = idx_n upg)%nat then mret (idx_next upg)
               else s ← of_option (idx_buf upg !! (i + 1)%nat); mret (snd s));
      set_pos d (i + 1);;
      next_descend max_fuel d child;;
      mret true
    else mret false.

(** The item under the cursor: [memcpy] of the key and of the record pointer. *)
Definition current_item : M ixst slot :=
  d ← gets depth;
  idx ← get_path d;
  i ← get_pos d;
  pg ← load_page idx;
  s ← of_option (idx_buf pg !! i);
  mret (take (idx_keylen pg) (fst s), snd s).

Fixpoint list_loop (fuel : nat) : M ixst (list slot) :=
  match fuel with
  | O => stop NoFuel
  | S fuel' =>
      d ← gets depth;
      idx ← get_path d;
      more ← memfh_idx_next idx;
      if more : bool then
        r ← current_item;
        rs ← list_loop fuel';
        mret (r :: rs)
      else mret []
  end.

(** src/memfh_idx.c:170-197 memfh_idx_list_k (the items it prints) *)
Definition memfh_idx_list_k (fuel : nat) : M ixst (list slot) :=
  more ← memfh_idx_first;
  if more : bool then
    r ← current_item;
    rs ← list_loop fuel;
    mret (r :: rs)
  else mret [].

(** ** Search *)

Definition sign (c : comparison) : Z := match c with Lt => -1 | Eq => 0 | Gt => 1 end.

(** The scan of one page from item [i]: [ScanEq] and [ScanLt] are the returns
    inside the loop, [ScanEnd c] its end with the last comparison. *)
Inductive scan_result :=
  | ScanEq (i : nat)
  | ScanLt (i : nat) (child : ptr)
  | ScanEnd (c : comparison).

Fixpoint scan_loop (d : nat) (pg : memfh_idx_t) (key : bytes) (i cnt : nat)
    (c : comparison) : M ixst scan_result :=
  match cnt with
  | O => mret (ScanEnd c)
  | S cnt' =>
      s ← of_option (idx_buf pg !! i);
      match memcmp key (fst s) (idx_keylen pg) with
      | Eq =>
          set_pos d i;;
          if bool_decide (idx_tp pg = MEMFH_LEAF) then mret (ScanEq i)
          else scan_loop d pg key (S i) cnt' Eq
      | Lt => set_pos d i;; mret (ScanLt i (snd s))
      | Gt => scan_loop d pg key (S i) cnt' Gt
      end
  end.

(** src/memfh_idx.c:229-276 memfh_idx_search_page *)
Fixpoint memfh_idx_search_page (fuel : nat) (idx : ptr) (key : bytes) : M ixst Z :=
  match fuel with
  | O => stop NoFuel
  | S fuel' =>
      pg ← load_page idx;
      d ← gets depth;
      r ← scan_loop d pg key 0 (idx_n pg) Gt;
      match r with
      | ScanEq _ => mret 0%Z
      | ScanLt _ child =>
          if bool_decide (idx_tp pg = MEMFH_LEAF) then mret (-1)%Z
          else
            set_depth (d + 1);;
            set_path (d + 1) child;;
            memfh_idx_search_page fuel' child key
      | ScanEnd c =>
          set_pos d (idx_n pg);;
          if bool_decide (idx_tp pg = MEMFH_LEAF) then mret (sign c)
          else
            set_depth (d + 1);;
            set_pos (d + 1) 0;;
            set_path (d + 1) (idx_next pg);;
            memfh_idx_search_page fuel' (idx_next pg) key
      end
  end.

(** src/memfh_idx.c:278-293 memfh_idx_search *)
Definition memfh_idx_search (key : bytes) : M ixst Z :=
  idx ← gets root;
  set_path 0 idx;; set_pos 0 0;; set_depth 0;;
  memfh_idx_search_page max_fuel idx key.

(** ** Insertion *)

(** src/memfh_idx.c:295-347 memfh_idx_insert_parent (the new item in the parent) *)
Definition add_to_parent (parent idx1 idx2 : ptr) : M ixst unit :=
  pg ← load_page parent;
  let kl := idx_keylen pg in
  (if bool_decide (idx_next pg = idx1) then
     pg2 ← load_page idx2;
     s2 ← of_option (idx_buf pg2 !! 0%nat);
     b ← of_option (put_slot kl (idx_buf pg) (idx_n pg) (fst s2, idx1));
     store_page parent (set_next idx2 (set_buf b pg))
   else
     match find_child (idx_buf pg) idx1 0 (idx_n pg) with
     | None => mret tt
     | Some i =>
         pg2 ← load_page idx2;
         s2 ← of_option (idx_buf pg2 !! 0%nat);
         b ← of_option (shift_loop kl (idx_buf pg) (idx_n pg) (idx_n pg - i));
         b ← of_option (put_slot kl b i (fst s2, idx1));
         s ← of_option (b !! S i);
         b ← of_option (put_slot kl b (S i) (fst s, idx2));
         store_page parent (set_buf b pg)
     end);;
  pg ← load_page parent;
  store_page parent (set_n (idx_n pg + 1) pg).

(** src/memfh_idx.c:353-372 memfh_idx_insert_parent (the split of a branch) *)
Definition split_branch (idx1 : ptr) : M ixst ptr :=
  pg ← load_page idx1;
  let n1 := (idx_n pg / 2)%nat in
  let n2 := (idx_n pg - n1)%nat in
  b2 ← of_option (copy_loop (idx_keylen pg) (idx_buf pg) [] n1 0 n2);
  idx2 ← malloc_page (mk_page MEMFH_BRANCH (idx_keylen pg) n2 (idx_next pg) b2);
  store_page idx1 (set_next idx2 (set_n n1 pg));;
  mret idx2.

(** src/memfh_idx.c:448-460 memfh_idx_write (a new root over a split page) *)
Definition new_root (idx1 idx2 : ptr) : M ixst unit :=
  pg1 ← load_page idx1;
  pg2 ← load_page idx2;
  s2 ← of_option (idx_buf pg2 !! 0%nat);
  b ← of_option (put_slot (idx_keylen pg1) [] 0 (fst s2, idx1));
  parent ← malloc_page (mk_page MEMFH_BRANCH (idx_keylen pg1) 1 idx2 b);
  set_root parent.

(** src/memfh_idx.c:295-393 memfh_idx_insert_parent *)
Fixpoint memfh_idx_insert_parent (d : nat) (idx1 idx2 : ptr) : M ixst unit :=
  parent ← get_path d;
  add_to_parent parent idx1 idx2;;
  pg ← load_page parent;
  if (idx_n pg <? MEMFH_MAX_ITEMS (idx_keylen pg))%nat then mret tt
  else
    new ← split_branch parent;
    match d with
    | O => new_root parent new
    | S d' => memfh_idx_insert_parent d' parent new
    end.

(** src/memfh_idx.c:427-444 memfh_idx_write (the split of a leaf) *)
Definition split_leaf (idx : ptr) : M ixst ptr :=
  pg ← load_page idx;
  let n1 := (idx_n pg / 2)%nat in
  let n2 := (idx_n pg - n1)%nat in
  b2 ← of_option (copy_loop (idx_keylen pg) (idx_buf pg) [] n1 0 n2);
  idx2 ← malloc_page (mk_page MEMFH_LEAF (idx_keylen pg) n2 0 b2);
  store_page idx (set_n n1 pg);;
  mret idx2.

(** src/memfh_idx.c:405-420 memfh_idx_write (the new item in the leaf) *)
Definition add_to_leaf (idx : ptr) (i : nat) (key : bytes) (record : ptr) : M ixst unit :=
  pg ← load_page idx;
  let kl := idx_keylen pg in
  b ← (if (i <? idx_n pg)%nat
       then of_option (shift_loop kl (idx_buf pg) (idx_n pg) (idx_n pg - i))
       else mret (idx_buf pg));
  b ← of_option (put_slot kl b i (take kl key, record));
  store_page idx (set_n (idx_n pg + 1) (set_buf b pg)).

(** src/memfh_idx.c:395-466 memfh_idx_write *)
Definition memfh_idx_write (key : bytes) (record : ptr) : M ixst unit :=
  exists_ ← memfh_idx_search key;
  if bool_decide (exists_ = 0%Z) then stop Exit
  else
    count_write;;
    d ← gets depth;
    idx ← get_path d;
    i ← get_pos d;
    add_to_leaf idx i key record;;
    pg ← load_page idx;
    if (idx_n pg <? MEMFH_MAX_ITEMS (idx_keylen pg))%nat then mret tt
    else
      idx2 ← split_leaf idx;
      match d with
      | O => new_root idx idx2
      | S d' => memfh_idx_insert_parent d' idx idx2
      end.
