(* ===== verification/MemfhTree.v ===== *)
(** The shape of the page index of src/memfh_idx.c, as an invariant: leaves in a
    chain of adjacent key ranges, branch pages as separators and children.  A
    branch that splits is linked from its old page, so separators of different
    pages overlap; what holds is that a child after separator [k] leads every key
    from [k] on to the leaf that owns it.  MemfhInv.v shows that the code keeps
    this shape. *)

From stdpp Require Import prelude gmap strings sorting.
From S2P Require Import Prelude MemfhIdx.

(** ** Positions among separators *)

Abbreviation lge a b := (lex_cmp a b ≠ Lt).

(** The first separator greater than [κ]. *)
Fixpoint pick_ix (κ : bytes) (ks : list bytes) : nat :=
  match ks with
  | [] => 0
  | k :: ks' => match lex_cmp κ k with Lt => 0 | _ => S (pick_ix κ ks') end
  end.

Lemma pick_ix_spec κ ks j :
  pick_ix κ ks = j ↔
  (j ≤ length ks)%nat ∧ (∀ a k, (a < j)%nat → ks !! a = Some k → lge κ k) ∧
  (∀ k, ks !! j = Some k → lex_lt κ k).
Proof.
  revert j. induction ks as [|k ks IH]; intros j; simpl.
  - split; [intros <-; naive_solver lia|]. intros (? & _); lia.
  - assert (lex_cmp κ k = Lt ∨ lge κ k) as [E|E] by (destruct (lex_cmp κ k); naive_solver).
    + rewrite E. split.
      * intros <-. split_and!; [lia|lia|]. by intros k' [= <-].
      * intros (_ & H & _). destruct j; [done|]. by destruct (H 0%nat k ltac:(lia) eq_refl).
    + transitivity (S (pick_ix κ ks) = j); [by destruct (lex_cmp κ k)|].
      destruct j as [|j].
      * split; [done|]. intros (_ & _ & H). by destruct (E (H k eq_refl)).
      * transitivity (pick_ix κ ks = j); [split; congruence|]. rewrite IH. split.
        -- intros (? & H1 & H2). split_and!; [lia| |done].
           intros [|a] k' ? Hk; simpl in Hk; [congruence|]. apply (H1 a); [lia|done].
        -- intros (? & H1 & H2). split_and!; [lia| |done].
           intros a k' ? Hk. apply (H1 (S a)); [lia|done].
Qed.

Lemma pick_ix_le κ ks : (pick_ix κ ks ≤ length ks)%nat.
Proof. by destruct (proj1 (pick_ix_spec κ ks _) eq_refl). Qed.

Lemma pick_ix_before κ ks a k :
  (a < pick_ix κ ks)%nat → ks !! a = Some k → lge κ k.
Proof. destruct (proj1 (pick_ix_spec κ ks _) eq_refl) as (_ & H & _). eauto. Qed.

Lemma pick_ix_at κ ks k : ks !! pick_ix κ ks = Some k → lex_lt κ k.
Proof. destruct (proj1 (pick_ix_spec κ ks _) eq_refl) as (_ & _ & H). eauto. Qed.

(** ** Leaves *)

(** A leaf of the chain: its page, the bounds of the keys it owns (no lower
    bound for the first leaf, no upper bound for the last) and its items. *)
Record leaf := mk_leaf {
  l_ptr : ptr;
  l_lo : option bytes;
  l_hi : option bytes;
  l_items : list slot;
}.

Definition ge_lo (κ : bytes) (lo : option bytes) : Prop :=
  match lo with Some k => lge κ k | None => True end.
Definition lt_hi (κ : bytes) (hi : option bytes) : Prop :=
  match hi with Some k => lex_lt κ k | None => True end.
Definition owns (l : leaf) (κ : bytes) : Prop := ge_lo κ (l_lo l) ∧ lt_hi κ (l_hi l).

(** Keys of a list of items in strictly increasing order. *)
Definition keys_sorted (its : list slot) : Prop := StronglySorted lex_lt (fst <$> its).

Record leaf_ok (kl : nat) (l : leaf) : Prop := {
  lf_sorted : keys_sorted (l_items l);
  lf_len : Forall (λ s, length (fst s) = kl) (l_items l);
  lf_own : Forall (λ s, owns l (fst s)) (l_items l);
}.

(** Adjacent leaves share a bound; [lo] is the lower bound of the first. *)
Fixpoint linked (lo : option bytes) (ch : list leaf) : Prop :=
  match ch with
  | [] => False
  | l :: ch' =>
      l_lo l = lo ∧
      match ch' with
      | [] => l_hi l = None
      | _ => ∃ k, l_hi l = Some k ∧ (match lo with Some k0 => lex_lt k0 k | None => True end)
                  ∧ linked (Some k) ch'
      end
  end.

(** ** Branches *)

(** A branch page: separators and children, one child more than separators. *)
Abbreviation branch := (list bytes * list ptr)%type.

Section tree.
  Context (T : gmap ptr branch) (ch : list leaf).

(** The path a key takes from a page: the pages and positions down to its leaf. *)
Inductive route (κ : bytes) : ptr → list (ptr * nat) → leaf → Prop :=
  | route_leaf l : l ∈ ch → owns l κ → route κ (l_ptr l) [] l
  | route_branch p ks cs x π l :
      T !! p = Some (ks, cs) → cs !! pick_ix κ ks = Some x → route κ x π l →
      route κ p ((p, pick_ix κ ks) :: π) l.

(** [x] leads [κ] to the leaf that owns it. *)
Definition leads (x : ptr) (κ : bytes) : Prop := ∃ π l, route κ x π l.

Definition is_leaf (x : ptr) : Prop := ∃ l, l ∈ ch ∧ l_ptr l = x.

(** The leaf at the left end below a page. *)
Inductive leftmost : ptr → list ptr → leaf → Prop :=
  | leftmost_leaf l : l ∈ ch → leftmost (l_ptr l) [] l
  | leftmost_branch p ks cs x π l :
      T !! p = Some (ks, cs) → cs !! 0%nat = Some x → leftmost x π l →
      leftmost p (p :: π) l.

(** One branch page [p]; [later] holds of the branches its children may be. *)
Record branch_ok (kl : nat) (later : ptr → Prop) (ks : list bytes) (cs : list ptr) : Prop := {
  br_len : length cs = S (length ks);
  br_pos : (0 < length ks)%nat;
  br_klen : Forall (λ k, length k = kl) ks;
  br_nodup : NoDup cs;
  br_kids : ∀ x, x ∈ cs → is_leaf x ∨ later x;
  br_hi : ∀ j l, l ∈ ch → cs !! j = Some (l_ptr l) → l_hi l = ks !! j;
  br_lo : ∀ j l k, l ∈ ch → cs !! S j = Some (l_ptr l) → ks !! j = Some k → l_lo l = Some k;
  br_suffix : ∀ j x k κ, cs !! S j = Some x → ¬ is_leaf x → ks !! j = Some k →
    lge κ k → leads x κ;
  br_scan : ∀ j l x, l ∈ ch → cs !! j = Some (l_ptr l) → cs !! S j = Some x →
    ∃ π l', leftmost x π l' ∧ l_lo l' = l_hi l;
}.

(** [x] comes after [p] in [order]. *)
Definition later (order : list ptr) (p x : ptr) : Prop := [p; x] `sublist_of` order.

(** [order] lists the branch pages so that children come after their parents. *)
Record tree_ok (kl : nat) (order : list ptr) (root : ptr) : Prop := {
  t_linked : linked None ch;
  t_leaves : Forall (leaf_ok kl) ch;
  t_nodup : NoDup ((l_ptr <$> ch) ++ order);
  t_dom : ∀ p, p ∈ order ↔ is_Some (T !! p);
  t_root : match order with
           | [] => ∃ l, ch = [l] ∧ root = l_ptr l
           | r :: _ => root = r
           end;
  t_branch : ∀ p ks cs, T !! p = Some (ks, cs) → branch_ok kl (later order p) ks cs;
  t_parent : ∀ p p' ks cs ks' cs' x, T !! p = Some (ks, cs) → T !! p' = Some (ks', cs') →
    x ∈ cs → x ∈ cs' → is_leaf x → p = p';
  t_leads : ∀ κ, leads root κ;
  t_first : ∃ π l, leftmost root π l ∧ l_lo l = None;
}.

End tree.

(** ** Facts about the shape *)

Lemma later_split pre p rest x :
  NoDup (pre ++ p :: rest) → later (pre ++ p :: rest) p x → x ∈ rest.
Proof.
  intros Hnd Hl. unfold later in Hl. apply sublist_app_r in Hl as (k1 & k2 & E & H1 & H2).
  apply NoDup_app in Hnd as (_ & Hd & Hnd).
  destruct k1 as [|a k1]; simplify_eq/=.
  - apply sublist_cons_r in H2 as [H2|(? & [= <-] & H2)].
    + apply NoDup_cons in Hnd as [Hp _]. destruct Hp.
      eapply (elem_of_sublist [p; x]); [|done]. set_solver.
    + eapply (elem_of_sublist [x]); [|done]. set_solver.
  - destruct (Hd a); [eapply (elem_of_sublist (a :: k1)); [|done]; set_solver|set_solver].
Qed.

Lemma later_intro pre p rest x : x ∈ rest → later (pre ++ p :: rest) p x.
Proof.
  intros H. apply (sublist_app [] pre [p; x] (p :: rest)); [apply sublist_nil_l|].
  apply sublist_skip. by apply singleton_sublist_l.
Qed.

Lemma later_in order p x : later order p x → p ∈ order ∧ x ∈ order.
Proof. intros H. split; eapply elem_of_sublist; [|done| |done]; set_solver. Qed.

(** Induction on branch pages, children before parents. *)
Lemma order_ind (order : list ptr) (P : ptr → Prop) :
  NoDup order →
  (∀ p, p ∈ order → (∀ q, later order p q → P q) → P p) → ∀ p, p ∈ order → P p.
Proof.
  intros Hnd Hstep.
  assert (∀ suf pre, order = pre ++ suf → ∀ p, p ∈ suf → P p) as H.
  { induction suf as [|q suf IH]; intros pre Ho p Hp; [by apply not_elem_of_nil in Hp|].
    assert (∀ x, x ∈ suf → P x) as Hsuf.
    { apply (IH (pre ++ [q])). by rewrite Ho, <-app_assoc. }
    apply elem_of_cons in Hp as [->|Hp]; [|eauto]. apply Hstep; [set_solver|].
    intros x Hx. apply Hsuf. rewrite Ho in Hx, Hnd. by eapply later_split. }
  by apply (H order []).
Qed.

Section facts.
  Context {T : gmap ptr branch} {ch : list leaf} {kl : nat} {order : list ptr} {root : ptr}.
  Hypothesis (Hok : tree_ok T ch kl order root).

Lemma leaf_not_branch l : l ∈ ch → T !! l_ptr l = None.
Proof using Hok.
  intros Hl. destruct (T !! l_ptr l) eqn:E; [|done]. exfalso.
  pose proof (t_nodup _ _ _ _ _ Hok) as Hnd. apply NoDup_app in Hnd as (_ & Hd & _).
  apply (Hd (l_ptr l)); [by apply list_elem_of_fmap_2|]. apply (t_dom _ _ _ _ _ Hok). by eexists.
Qed.

Lemma leaf_inj l l' : l ∈ ch → l' ∈ ch → l_ptr l = l_ptr l' → l = l'.
Proof using Hok.
  intros Hl Hl' E. pose proof (t_nodup _ _ _ _ _ Hok) as Hnd.
  apply NoDup_app in Hnd as (Hnd & _ & _).
  apply list_elem_of_lookup in Hl as [i Hi]. apply list_elem_of_lookup in Hl' as [j Hj].
  assert (i = j) as ->; [|congruence].
  eapply NoDup_lookup; [exact Hnd| |]; rewrite list_lookup_fmap.
  - by rewrite Hi.
  - by rewrite Hj; simpl; rewrite E.
Qed.

Lemma branch_not_leaf p nd : T !! p = Some nd → ¬ is_leaf ch p.
Proof using Hok. intros Hp (l & Hl & <-). by rewrite leaf_not_branch in Hp. Qed.

Lemma order_nodup : NoDup order.
Proof using Hok. pose proof (t_nodup _ _ _ _ _ Hok) as H. by apply NoDup_app in H as (_ & _ & H). Qed.

Lemma order_branch p : p ∈ order → ∃ ks cs, T !! p = Some (ks, cs).
Proof using Hok. intros Ho. apply (t_dom _ _ _ _ _ Hok) in Ho as [[ks cs] ?]. eauto. Qed.

Lemma branch_split p nd : T !! p = Some nd → ∃ pre rest, order = pre ++ p :: rest.
Proof using Hok.
  intros Hp. assert (p ∈ order) as H by (apply (t_dom _ _ _ _ _ Hok); by eexists).
  by apply list_elem_of_split in H.
Qed.

Lemma later_branch p x : later order p x → ¬ is_leaf ch x.
Proof using Hok.
  intros H. apply later_in in H as [_ H]. apply order_branch in H as (ks & cs & H).
  by eapply branch_not_leaf.
Qed.

Lemma leads_leaf l κ : l ∈ ch → leads T ch (l_ptr l) κ ↔ owns l κ.
Proof using Hok.
  intros Hl. split.
  - intros (π & l' & H). inversion H as [l1 Hl1 Hown E|p ks cs x π' l1 Hp]; subst.
    + by rewrite (leaf_inj l l').
    + by rewrite leaf_not_branch in Hp.
  - intros Ho. exists [], l. by constructor.
Qed.

Lemma leads_branch p ks cs κ : T !! p = Some (ks, cs) →
  leads T ch p κ ↔ ∃ x, cs !! pick_ix κ ks = Some x ∧ leads T ch x κ.
Proof using Hok.
  intros Hp. split.
  - intros (π & l & H). inversion H as [l1 Hl1 Hown E|p' ks' cs' x π' l1 Hp' Hx Hr]; subst.
    + by rewrite leaf_not_branch in Hp.
    + simplify_eq. exists x. split; [done|]. by eexists _, _.
  - intros (x & Hx & π & l & Hr). eexists _, _. by econstructor.
Qed.

(** A child after separator [k] and before the next leads the keys between. *)
Lemma kid_leads p ks cs j x k κ :
  T !! p = Some (ks, cs) →
  cs !! S j = Some x → ks !! j = Some k → lge κ k →
  (∀ k', ks !! S j = Some k' → lex_lt κ k') → leads T ch x κ.
Proof using Hok.
  intros Hp Hx Hk Hge Hlt. pose proof (t_branch _ _ _ _ _ Hok _ _ _ Hp) as B.
  destruct (br_kids _ _ _ _ _ _ B x) as [(l & Hl & <-)|Hr].
  - by eapply list_elem_of_lookup_2.
  - apply leads_leaf; [done|]. split.
    + by erewrite (br_lo _ _ _ _ _ _ B).
    + rewrite (br_hi _ _ _ _ _ _ B _ _ Hl Hx). destruct (ks !! S j) eqn:E; simpl; auto.
  - eapply (br_suffix _ _ _ _ _ _ B); eauto using later_branch.
Qed.

(** A page leads every key from its first separator on. *)
Lemma leads_head p ks cs k κ :
  T !! p = Some (ks, cs) → ks !! 0%nat = Some k → lge κ k → leads T ch p κ.
Proof using Hok.
  intros Hp Hk Hge. pose proof (t_branch _ _ _ _ _ Hok _ _ _ Hp) as B.
  apply (leads_branch _ _ _ _ Hp).
  destruct (pick_ix κ ks) as [|j] eqn:E.
  { exfalso. apply Hge. eapply pick_ix_at. by rewrite E. }
  pose proof (pick_ix_le κ ks) as Hle. rewrite E in Hle.
  destruct (lookup_lt_is_Some_2 cs (S j)) as [x Hx]; [rewrite (br_len _ _ _ _ _ _ B); lia|].
  destruct (lookup_lt_is_Some_2 ks j) as [k' Hk']; [lia|].
  exists x. split; [done|]. eapply kid_leads; eauto.
  - eapply (pick_ix_before κ ks j); [lia|done].
  - intros k1 Hk1. eapply pick_ix_at. by rewrite E.
Qed.

Lemma leads_up p κ κ' : p ∈ order → leads T ch p κ → lge κ' κ → leads T ch p κ'.
Proof using Hok.
  intros Ho Hl Hge. revert p Ho Hl.
  refine (order_ind _ _ order_nodup _). intros p Ho IH Hl.
  destruct (order_branch _ Ho) as (ks & cs & Hp).
  pose proof (t_branch _ _ _ _ _ Hok _ _ _ Hp) as B.
  destruct (lookup_lt_is_Some_2 ks 0) as [k Hk]; [apply (br_pos _ _ _ _ _ _ B)|].
  destruct (decide (lex_cmp κ' k = Lt)) as [Hlt|?]; [|by eapply leads_head].
  assert (lex_lt κ k) as Hlt'.
  { destruct (decide (lex_cmp κ k = Lt)) as [|Hn]; [done|].
    destruct (lex_ge_trans _ _ _ Hge Hn); done. }
  assert (∀ q, lex_lt q k → pick_ix q ks = 0%nat) as H0.
  { intros q Hq. destruct ks; simplify_eq/=. unfold lex_lt in Hq. by rewrite Hq. }
  destruct (proj1 (leads_branch _ _ _ _ Hp) Hl) as (x & Hx & Hl1).
  apply (leads_branch _ _ _ _ Hp). rewrite H0 in * by done. exists x. split; [done|].
  destruct (br_kids _ _ _ _ _ _ B x) as [(l & Hl' & <-)|Hr]; [by eapply list_elem_of_lookup_2| |auto].
  apply leads_leaf in Hl1 as [Hlo _]; [|done]. apply leads_leaf; [done|]. split.
  - destruct (l_lo l); simpl in *; [|done]. by eapply lex_ge_trans.
  - rewrite (br_hi _ _ _ _ _ _ B _ _ Hl' Hx), Hk. done.
Qed.

End facts.

(** ** A leaf changes its items *)

Definition shape (l : leaf) : ptr * option bytes * option bytes := (l_ptr l, l_lo l, l_hi l).

Section reshape.
  Context {ch ch' : list leaf}.
  Hypothesis (Hsh : shape <$> ch = shape <$> ch').

Lemma shape_elem l : l ∈ ch → ∃ l', l' ∈ ch' ∧ shape l' = shape l.
Proof using Hsh.
  intros Hl. apply (list_elem_of_fmap_2 shape) in Hl. rewrite Hsh in Hl.
  apply list_elem_of_fmap in Hl as (l' & -> & Hl'). eauto.
Qed.

Lemma route_reshape T κ x π l :
  route T ch κ x π l → ∃ l', route T ch' κ x π l' ∧ shape l' = shape l.
Proof using Hsh.
  induction 1 as [l Hl Ho|p ks cs x π l Hp Hx _ (l' & Hr & E)].
  - destruct (shape_elem _ Hl) as (l' & Hl' & E). exists l'. split; [|done].
    injection E as E1 E2 E3. rewrite <-E1. constructor; [done|].
    unfold owns in *. by rewrite E2, E3.
  - exists l'. split; [|done]. by econstructor.
Qed.

Lemma leftmost_reshape T x π l :
  leftmost T ch x π l → ∃ l', leftmost T ch' x π l' ∧ shape l' = shape l.
Proof using Hsh.
  induction 1 as [l Hl|p ks cs x π l Hp Hx _ (l' & Hr & E)].
  - destruct (shape_elem _ Hl) as (l' & Hl' & E). exists l'. split; [|done].
    injection E as E1 E2 E3. rewrite <-E1. by constructor.
  - exists l'. split; [|done]. by econstructor.
Qed.

Lemma leads_reshape T x κ : leads T ch x κ → leads T ch' x κ.
Proof using Hsh.
  intros (π & l & Hr). destruct (route_reshape _ _ _ _ _ Hr) as (l' & ? & _). by eexists _, _.
Qed.

Lemma is_leaf_reshape x : is_leaf ch x → is_leaf ch' x.
Proof using Hsh.
  intros (l & Hl & <-). destruct (shape_elem _ Hl) as (l' & Hl' & [= E _ _]). by exists l'.
Qed.

End reshape.

Lemma linked_reshape ch ch' lo :
  shape <$> ch = shape <$> ch' → linked lo ch → linked lo ch'.
Proof.
  revert ch' lo. induction ch as [|l ch IH]; intros [|l' ch'] lo; try done.
  intros [= E1 E2 E3 E]. simpl. rewrite <-E2, <-E3. intros [? H]. split; [done|].
  destruct ch as [|l1 ch], ch' as [|l1' ch']; try done.
  destruct H as (k & ? & ? & H). exists k. split_and!; [done..|]. by apply IH.
Qed.

Lemma tree_ok_reshape T ch ch' kl order root :
  shape <$> ch = shape <$> ch' → Forall (leaf_ok kl) ch' →
  tree_ok T ch kl order root → tree_ok T ch' kl order root.
Proof.
  intros Hsh Hlf [Ht1 Ht2 Ht3 Ht4 Ht5 Ht6 Ht7 Ht8 Ht9].
  assert (l_ptr <$> ch = l_ptr <$> ch') as Hptr.
  { apply (f_equal (fmap (λ t : ptr * option bytes * option bytes, t.1.1))) in Hsh.
    by rewrite <-!list_fmap_compose in Hsh. }
  split.
  - by eapply linked_reshape.
  - done.
  - by rewrite <-Hptr.
  - done.
  - destruct order as [|r order]; [|done]. destruct Ht5 as (l & -> & ->).
    destruct ch' as [|l' [|? ?]]; try done. injection Hptr as E. by exists l'.
  - intros p ks cs Hp. destruct (Ht6 _ _ _ Hp) as [].
    split; try done.
    + intros x Hx. destruct (br_kids0 x Hx) as [?|?]; [left|by right]. by eapply is_leaf_reshape.
    + intros j l Hl Hj. destruct (shape_elem (eq_sym Hsh) _ Hl) as (l' & Hl' & [= E1 E2 E3]).
      rewrite <-E3. eapply br_hi0; [done|]. congruence.
    + intros j l k Hl Hj Hk. destruct (shape_elem (eq_sym Hsh) _ Hl) as (l' & Hl' & [= E1 E2 E3]).
      rewrite <-E2. eapply br_lo0; [done| |done]. congruence.
    + intros j x k κ ? Hnl ? ?. eapply leads_reshape, br_suffix0; eauto.
      intros ?. apply Hnl. by eapply is_leaf_reshape.
    + intros j l x Hl Hj Hx. destruct (shape_elem (eq_sym Hsh) _ Hl) as (l' & Hl' & [= E1 E2 E3]).
      destruct (br_scan0 j l' x Hl') as (π & l1 & Hm & E); [congruence|done|].
      destruct (leftmost_reshape Hsh _ _ _ _ Hm) as (l2 & Hm2 & [= F1 F2 F3]).
      exists π, l2. split; [done|]. congruence.
  - intros p p' ks cs ks' cs' x ? ? ? ? ?. eapply Ht7; eauto.
    by eapply (is_leaf_reshape (eq_sym Hsh)).
  - intros κ. eapply leads_reshape; eauto.
  - destruct Ht9 as (π & l & Hm & ?).
    destruct (leftmost_reshape Hsh _ _ _ _ Hm) as (l2 & Hm2 & [= F1 F2 F3]).
    exists π, l2. split; [done|]. congruence.
Qed.

(** ** Lemmas shared by the structural changes *)

Lemma pick_take κ ks n : pick_ix κ (take n ks) = n `min` pick_ix κ ks.
Proof.
  revert n. induction ks as [|k ks IH]; intros [|n]; simpl; try lia.
  destruct (lex_cmp κ k); rewrite ?IH; lia.
Qed.

Lemma pick_drop κ ks n : (n ≤ pick_ix κ ks)%nat → pick_ix κ (drop n ks) = (pick_ix κ ks - n)%nat.
Proof.
  revert n. induction ks as [|k ks IH]; intros [|n] Hn; simpl in *; try lia.
  destruct (lex_cmp κ k); [|lia|]; (rewrite IH by lia; lia).
Qed.

Lemma pick_app_lt κ A B C :
  (pick_ix κ (A ++ B) < length A)%nat → pick_ix κ (A ++ C) = pick_ix κ (A ++ B).
Proof.
  induction A as [|a A IH]; simpl; [lia|]. destruct (lex_cmp κ a); [|done|];
    (intros ?; rewrite IH by lia; done).
Qed.

Lemma pick_app_ge κ A B C :
  (length A ≤ pick_ix κ (A ++ B))%nat → pick_ix κ (A ++ C) = (length A + pick_ix κ C)%nat.
Proof.
  induction A as [|a A IH]; simpl; [done|]. destruct (lex_cmp κ a); [|lia|];
    (intros ?; rewrite IH by lia; done).
Qed.

Lemma leads_step T ch p ks cs x κ :
  T !! p = Some (ks, cs) → cs !! pick_ix κ ks = Some x → leads T ch x κ → leads T ch p κ.
Proof. intros ? ? (π & l & Hr). eexists _, _. by econstructor. Qed.

Lemma leads_own T ch l κ : l ∈ ch → owns l κ → leads T ch (l_ptr l) κ.
Proof. intros. exists [], l. by constructor. Qed.

Lemma leftmost_step T ch p ks cs x l :
  T !! p = Some (ks, cs) → cs !! 0%nat = Some x → (∃ π, leftmost T ch x π l) →
  ∃ π, leftmost T ch p π l.
Proof. intros ? ? (π & ?). eexists. by econstructor. Qed.

(** A page keeps its conditions when its children still lead the same keys. *)
Lemma branch_ok_mono T T' ch kl (L L' : ptr → Prop) ks cs :
  (∀ x κ, x ∈ cs → ¬ is_leaf ch x → leads T ch x κ → leads T' ch x κ) →
  (∀ x π l, leftmost T ch x π l → ∃ π', leftmost T' ch x π' l) →
  (∀ x, L x → L' x) →
  branch_ok T ch kl L ks cs → branch_ok T' ch kl L' ks cs.
Proof.
  intros H1 H2 H3 []. split; try done.
  - intros x Hx. destruct (br_kids0 x Hx); [by left|right; auto].
  - intros. eapply H1; eauto using list_elem_of_lookup_2.
  - intros j l x Hl Hj Hx. destruct (br_scan0 j l x Hl Hj Hx) as (π & l' & Hm & ?).
    destruct (H2 _ _ _ Hm) as (π' & ?). by exists π', l'.
Qed.

(** ** A branch splits *)

Section split_branch.
  Context {T : gmap ptr branch} {ch : list leaf} {kl : nat} {root : ptr}.
  Context {pre rest : list ptr} {p p5 : ptr} {ks : list bytes} {cs : list ptr} {n1 : nat}.
  Hypothesis (Hok : tree_ok T ch kl (pre ++ p :: rest) root).
  Hypothesis (Hp : T !! p = Some (ks, cs)).
  Hypothesis (Hn1 : (0 < n1 < length ks)%nat).
  Hypothesis (Hfr : p5 ∉ (l_ptr <$> ch) ++ pre ++ p :: rest).

Definition split_tree : gmap ptr branch :=
  <[p5 := (drop n1 ks, drop n1 cs)]> (<[p := (take n1 ks, take n1 cs ++ [p5])]> T).

Lemma split_page : branch_ok T ch kl (later (pre ++ p :: rest) p) ks cs.
Proof using Hok Hp. by eapply (t_branch _ _ _ _ _ Hok). Qed.

Lemma split_fresh_dom : T !! p5 = None.
Proof using Hok Hfr.
  destruct (T !! p5) eqn:E; [|done]. exfalso. apply Hfr. apply elem_of_app. right.
  apply (t_dom _ _ _ _ _ Hok). by eexists.
Qed.

Lemma split_p5_p : p5 ≠ p.
Proof using Hfr. clear -Hfr. set_solver. Qed.

Lemma split_at_p : split_tree !! p = Some (take n1 ks, take n1 cs ++ [p5]).
Proof using Hfr.
  unfold split_tree. pose proof split_p5_p.
  rewrite lookup_insert_ne by done. apply lookup_insert_eq.
Qed.

Lemma split_at_p5 : split_tree !! p5 = Some (drop n1 ks, drop n1 cs).
Proof. apply lookup_insert_eq. Qed.

Lemma split_other q : q ≠ p → q ≠ p5 → split_tree !! q = T !! q.
Proof. intros. unfold split_tree. by rewrite !lookup_insert_ne. Qed.

Lemma split_leads x κ : leads T ch x κ → leads split_tree ch x κ.
Proof using Hok Hp Hn1 Hfr.
  intros (π & l & Hr). induction Hr as [l Hl Ho|q ks' cs' x π l Hq Hx _ IH].
  - by apply leads_own.
  - destruct (decide (q = p)) as [->|Hne].
    + rewrite Hq in Hp. injection Hp as -> ->. 
      destruct (decide (pick_ix κ ks < n1)%nat).
      * eapply leads_step; [apply split_at_p| |exact IH].
        rewrite pick_take, Nat.min_r by lia. rewrite lookup_app_l, lookup_take_lt; [done|lia|].
        apply lookup_lt_Some in Hx. rewrite length_take. lia.
      * eapply (leads_step _ _ _ _ _ p5); [apply split_at_p| |].
        -- rewrite pick_take, Nat.min_l by lia. apply lookup_lt_Some in Hx.
           rewrite lookup_app_r; rewrite length_take, Nat.min_l by lia; [|lia].
           by rewrite Nat.sub_diag.
        -- eapply leads_step; [apply split_at_p5| |exact IH].
           rewrite pick_drop, lookup_drop by lia. rewrite <-Hx. f_equal. lia.
    + eapply leads_step; [|exact Hx|exact IH]. rewrite split_other; [done..|].
      intros ->. by rewrite split_fresh_dom in Hq.
Qed.

Lemma split_leftmost x π l : leftmost T ch x π l → ∃ π, leftmost split_tree ch x π l.
Proof using Hok Hp Hn1 Hfr.
  induction 1 as [l Hl|q ks' cs' x π l Hq Hx _ IH].
  - eexists. by constructor.
  - destruct (decide (q = p)) as [->|Hne].
    + rewrite Hq in Hp. injection Hp as -> ->.
      eapply leftmost_step; [apply split_at_p| |exact IH].
      apply lookup_lt_Some in Hx as ?. rewrite lookup_app_l, lookup_take_lt; [done|lia|].
      rewrite length_take. lia.
    + eapply leftmost_step; [|exact Hx|exact IH]. rewrite split_other; [done..|].
      intros ->. by rewrite split_fresh_dom in Hq.
Qed.

Lemma split_later q x :
  later (pre ++ p :: rest) q x → later (pre ++ p :: p5 :: rest) q x.
Proof.
  intros H. unfold later in *. etrans; [exact H|]. apply sublist_app; [done|].
  apply sublist_skip, sublist_cons. done.
Qed.

(** A child of the split page leads what it led before the split. *)
Lemma split_kid j x k κ :
  cs !! S j = Some x → ks !! j = Some k → lge κ k →
  (∀ k', ks !! S j = Some k' → lex_lt κ k') → leads split_tree ch x κ.
Proof using Hok Hp Hn1 Hfr. intros. by eapply split_leads, (kid_leads Hok). Qed.

Lemma split_new_leads k κ :
  ks !! (n1 - 1)%nat = Some k → lge κ k → leads split_tree ch p5 κ.
Proof using Hok Hp Hn1 Hfr.
  intros Hk Hge. pose proof (br_len _ _ _ _ _ _ split_page) as Hlen.
  set (j := pick_ix κ (drop n1 ks)).
  assert (j ≤ length ks - n1)%nat as Hj.
  { pose proof (pick_ix_le κ (drop n1 ks)) as H. by rewrite length_drop in H. }
  destruct (lookup_lt_is_Some_2 cs (n1 + j)) as [x Hx]; [lia|].
  destruct (lookup_lt_is_Some_2 ks (n1 + j - 1)) as [k' Hk']; [lia|].
  eapply leads_step; [apply split_at_p5| |].
  { rewrite lookup_drop. exact Hx. }
  eapply (split_kid (n1 + j - 1)).
  - replace (S (n1 + j - 1)) with (n1 + j)%nat by lia. exact Hx.
  - exact Hk'.
  - destruct (decide (j = 0%nat)) as [Hj0|Hj0].
    + rewrite Hj0, Nat.add_0_r in Hk'. congruence.
    + apply (pick_ix_before κ (drop n1 ks) (j - 1)); [subst j; lia|].
      rewrite lookup_drop. rewrite <-Hk'. f_equal. lia.
  - intros k1 Hk1. apply (pick_ix_at κ (drop n1 ks)). rewrite lookup_drop, <-Hk1. f_equal.
    subst j. lia.
Qed.

Lemma split_p_ok : branch_ok split_tree ch kl (later (pre ++ p :: p5 :: rest) p)
  (take n1 ks) (take n1 cs ++ [p5]).
Proof using Hok Hp Hn1 Hfr.
  destruct split_page as [Hlen Hpos Hkl Hnd Hkids Hhi Hlo Hsuf Hscan].
  assert (length (take n1 cs) = n1) as Htl by (rewrite length_take; lia).
  assert (¬ is_leaf ch p5) as Hp5.
  { intros (l & Hl & E). apply Hfr. apply elem_of_app. left. rewrite <-E. by apply list_elem_of_fmap_2. }
  assert (∀ j x, (take n1 cs ++ [p5]) !! j = Some x →
    (j < n1)%nat ∧ cs !! j = Some x ∧ take n1 ks !! j = ks !! j ∨ j = n1 ∧ x = p5) as Hinv.
  { intros j x Hj. destruct (decide (j < n1)%nat).
    - left. rewrite lookup_app_l, lookup_take_lt in Hj by lia.
      by rewrite lookup_take_lt by lia.
    - right. rewrite lookup_app_r, Htl in Hj by lia.
      destruct (j - n1)%nat eqn:E; simpl in Hj; [|done]. simplify_eq. split; [lia|done]. }
  assert (∀ j l, l ∈ ch → (take n1 cs ++ [p5]) !! j = Some (l_ptr l) →
    (j < n1)%nat ∧ cs !! j = Some (l_ptr l) ∧ take n1 ks !! j = ks !! j) as Hinvl.
  { intros j l Hl Hj. destruct (Hinv _ _ Hj) as [?|[_ E]]; [done|].
    destruct Hp5. by exists l. }
  split.
  - rewrite length_app, Htl, length_take. simpl. lia.
  - rewrite length_take. lia.
  - by apply Forall_take.
  - apply NoDup_app. split_and!; [by eapply sublist_NoDup; [|apply sublist_take]| |by apply NoDup_singleton].
    intros x Hx ->%list_elem_of_singleton. destruct (Hkids p5) as [?|H]; [|done|].
    + by eapply elem_of_sublist; [|apply sublist_take].
    + apply Hfr. apply later_in in H as [_ H]. set_solver.
  - intros x Hx. apply elem_of_app in Hx as [Hx| ->%list_elem_of_singleton].
    + destruct (Hkids x) as [?|H]; [by eapply elem_of_sublist; [|apply sublist_take]|by left|].
      right. by apply split_later.
    + right. apply later_intro. set_solver.
  - intros j l Hl Hj. destruct (Hinvl _ _ Hl Hj) as (? & Hj' & ->). auto.
  - intros j l k Hl Hj Hk. destruct (Hinvl _ _ Hl Hj) as (? & Hj' & _).
    rewrite lookup_take_lt in Hk by lia. eauto.
  - intros j x k κ Hj Hx Hk Hge. destruct (Hinv _ _ Hj) as [(? & Hj' & _)|[Hj' ->]].
    + rewrite lookup_take_lt in Hk by lia. eapply split_leads, Hsuf; eauto.
    + rewrite lookup_take_lt in Hk by lia. apply (split_new_leads k); [|done].
      rewrite <-Hk. f_equal. lia.
  - intros j l x Hl Hj Hx. destruct (Hinvl _ _ Hl Hj) as (Hjn & Hj' & _).
    destruct (Hinv _ _ Hx) as [(? & Hx' & _)|[Hx' ->]].
    + destruct (Hscan _ _ _ Hl Hj' Hx') as (π & l' & Hm & ?).
      destruct (split_leftmost _ _ _ Hm) as (π' & Hm'). by exists π', l'.
    + destruct (lookup_lt_is_Some_2 cs n1) as [y Hy]; [lia|].
      destruct (Hscan j l y) as (π & l' & Hm & ?); [done..|by rewrite Hx'|].
      destruct (leftmost_step split_tree ch p5 (drop n1 ks) (drop n1 cs) y l') as (π' & Hm').
      * apply split_at_p5.
      * rewrite lookup_drop, Nat.add_0_r. done.
      * eapply split_leftmost; eauto.
      * by exists π', l'.
Qed.

Lemma split_p5_ok : branch_ok split_tree ch kl (later (pre ++ p :: p5 :: rest) p5)
  (drop n1 ks) (drop n1 cs).
Proof using Hok Hp Hn1 Hfr.
  destruct split_page as [Hlen Hpos Hkl Hnd Hkids Hhi Hlo Hsuf Hscan].
  pose proof (order_nodup Hok) as Hond.
  split.
  - rewrite !length_drop. lia.
  - rewrite length_drop. lia.
  - by apply Forall_drop.
  - eapply sublist_NoDup; [exact Hnd|apply sublist_drop].
  - intros x Hx. destruct (Hkids x) as [?|H]; [by eapply elem_of_sublist; [|apply sublist_drop]|by left|].
    right. apply (later_split _ _ _ _ Hond) in H.
    replace (pre ++ p :: p5 :: rest) with ((pre ++ [p]) ++ p5 :: rest) by by rewrite <-app_assoc.
    by apply later_intro.
  - intros j l Hl Hj. rewrite lookup_drop in Hj. rewrite (Hhi _ _ Hl Hj). by rewrite lookup_drop.
  - intros j l k Hl Hj Hk. rewrite lookup_drop in Hj. rewrite lookup_drop in Hk. eapply Hlo; [done| |done].
    rewrite <-Hj. f_equal. lia.
  - intros j x k κ Hj Hx Hk Hge. rewrite lookup_drop in Hj. rewrite lookup_drop in Hk. eapply split_leads, Hsuf; eauto.
    rewrite <-Hj. f_equal. lia.
  - intros j l x Hl Hj Hx. rewrite lookup_drop in Hj. rewrite lookup_drop in Hx.
    destruct (Hscan (n1 + j)%nat l x) as (π & l' & Hm & ?); [done..| |].
    + rewrite <-Hx. f_equal. lia.
    + destruct (split_leftmost _ _ _ Hm) as (π' & Hm'). by exists π', l'.
Qed.

(** The tree keeps its shape when branch [p] splits at [n1] into [p] and [p5]. *)
Lemma split_ok : tree_ok split_tree ch kl (pre ++ p :: p5 :: rest) root.
Proof using Hok Hp Hn1 Hfr.
  pose proof split_p5_p as Hne.
  assert ((l_ptr <$> ch) ++ pre ++ p :: p5 :: rest ≡ₚ p5 :: (l_ptr <$> ch) ++ pre ++ p :: rest)
    as Hperm by solve_Permutation.
  assert (p5 ∉ (l_ptr <$> ch)) as Hfl by set_solver.
  assert (∀ x, is_leaf ch x → x ≠ p5) as Hlf.
  { intros x (l & Hl & <-) E. destruct Hfl. rewrite <-E. by apply list_elem_of_fmap_2. }
  split.
  - apply Hok.
  - apply Hok.
  - rewrite Hperm. apply NoDup_cons. split; [done|apply Hok].
  - intros q. destruct (decide (q = p5)) as [->|]; [rewrite split_at_p5; set_solver|].
    destruct (decide (q = p)) as [->|]; [rewrite split_at_p; set_solver|].
    rewrite split_other, <-(t_dom _ _ _ _ _ Hok) by done. set_solver.
  - pose proof (t_root _ _ _ _ _ Hok). by destruct pre.
  - intros q ks' cs' Hq. destruct (decide (q = p5)) as [->|].
    { rewrite split_at_p5 in Hq. simplify_eq. apply split_p5_ok. }
    destruct (decide (q = p)) as [->|].
    { rewrite split_at_p in Hq. simplify_eq. apply split_p_ok. }
    rewrite split_other in Hq by done.
    eapply branch_ok_mono; [| | |by eapply (t_branch _ _ _ _ _ Hok)];
      eauto using split_leads, split_leftmost, split_later.
  - assert (∀ q ks' cs' x, split_tree !! q = Some (ks', cs') → x ∈ cs' → is_leaf ch x →
      ∃ q0 ks0 cs0, T !! q0 = Some (ks0, cs0) ∧ x ∈ cs0 ∧
        (q0 = q ∧ q ≠ p ∨ q0 = p ∧ q = p ∧ x ∈ take n1 cs ∨ q0 = p ∧ q = p5 ∧ x ∈ drop n1 cs)) as Hback.
    { intros q ks' cs' x Hq Hx Hl. destruct (decide (q = p5)) as [->|].
      { rewrite split_at_p5 in Hq. simplify_eq. exists p, ks, cs.
        split_and!; [done| |auto]. by eapply elem_of_sublist; [|apply sublist_drop]. }
      destruct (decide (q = p)) as [->|].
      { rewrite split_at_p in Hq. simplify_eq. exists p, ks, cs.
        apply elem_of_app in Hx as [Hx| ->%list_elem_of_singleton]; [|by destruct (Hlf p5)].
        split_and!; [done| |auto]. by eapply elem_of_sublist; [|apply sublist_take]. }
      rewrite split_other in Hq by done. exists q, ks', cs'. split_and!; auto. }
    intros q q' ks' cs' ks'' cs'' x Hq Hq' Hx Hx' Hl.
    destruct (Hback _ _ _ _ Hq Hx Hl) as (a & ka & ca & Ha & Hxa & Da).
    destruct (Hback _ _ _ _ Hq' Hx' Hl) as (b & kb & cb & Hb & Hxb & Db).
    assert (a = b) as E by by eapply (t_parent _ _ _ _ _ Hok _ _ _ _ _ _ _ Ha Hb).
    assert (x ∈ take n1 cs → x ∈ drop n1 cs → False) as Hdis.
    { pose proof (br_nodup _ _ _ _ _ _ split_page) as Hnd. rewrite <-(take_drop n1 cs) in Hnd.
      apply NoDup_app in Hnd as (_ & Hnd & _). intros H1 H2. by apply (Hnd x). }
    naive_solver.
  - intros κ. apply split_leads, Hok.
  - destruct (t_first _ _ _ _ _ Hok) as (π & l & Hm & ?).
    destruct (split_leftmost _ _ _ Hm) as (π' & ?). by exists π', l.
Qed.

End split_branch.

(** ** A new child after an old one *)

Section insert_lookup.
  Context {X : Type}.
  Implicit Types A B : list X.

Lemma ins_kid A B x y z j :
  (A ++ x :: y :: B) !! j = Some z →
  (j ≤ length A)%nat ∧ (A ++ x :: B) !! j = Some z ∨
  j = S (length A) ∧ z = y ∨
  (S (length A) < j)%nat ∧ (A ++ x :: B) !! (j - 1)%nat = Some z.
Proof.
  intros H. destruct (decide (j < length A)%nat).
  { left. rewrite lookup_app_l in H by lia. rewrite lookup_app_l by lia. auto with lia. }
  rewrite lookup_app_r in H by lia. destruct (j - length A)%nat as [|[|m]] eqn:E; simplify_eq/=.
  - left. split; [lia|]. by rewrite lookup_app_r, E by lia.
  - right; left. split; [lia|done].
  - right; right. split; [lia|]. rewrite lookup_app_r by lia.
    by replace (j - 1 - length A)%nat with (S m) by lia.
Qed.

Lemma ins_old A B x y z j :
  (A ++ x :: B) !! j = Some z →
  (A ++ x :: y :: B) !! (if decide (j ≤ length A)%nat then j else S j) = Some z.
Proof.
  intros H. destruct (decide _).
  - destruct (decide (j < length A)%nat).
    + rewrite lookup_app_l in H by lia. by rewrite lookup_app_l by lia.
    + assert (j = length A) as -> by lia. by rewrite list_lookup_middle in *.
  - rewrite lookup_app_r in H by lia. rewrite lookup_app_r by lia.
    destruct (j - length A)%nat as [|m] eqn:E; [lia|].
    by replace (S j - length A)%nat with (S (S m)) by lia.
Qed.

Lemma sep_lt A B x j : (j < length A)%nat → (A ++ x :: B) !! j = (A ++ B) !! j.
Proof. intros. by rewrite !lookup_app_l by lia. Qed.

Lemma sep_gt A B x j : (length A < j)%nat → (A ++ x :: B) !! j = (A ++ B) !! (j - 1)%nat.
Proof.
  intros. rewrite !lookup_app_r by lia. destruct (j - length A)%nat as [|m] eqn:E; [lia|].
  simpl. f_equal. lia.
Qed.

Lemma ins_nodup A B x y : NoDup (A ++ x :: B) → y ∉ A ++ x :: B → NoDup (A ++ x :: y :: B).
Proof.
  intros. assert (A ++ x :: y :: B ≡ₚ y :: A ++ x :: B) as -> by solve_Permutation.
  by apply NoDup_cons.
Qed.

End insert_lookup.

Section insert_child.
  Context {T : gmap ptr branch} {ch : list leaf} {kl : nat} {order : list ptr} {root : ptr}.
  Context {gp p p5 : ptr} {KA KB ks5 : list bytes} {A B cs5 : list ptr} {k2 κ : bytes}.
  Hypothesis (Hok : tree_ok T ch kl order root).
  Hypothesis (Hgp : T !! gp = Some (KA ++ KB, A ++ p :: B)).
  Hypothesis (HA : length KA = length A).
  Hypothesis (Hlp : later order gp p).
  Hypothesis (Hlp5 : later order gp p5).
  Hypothesis (Hp5 : T !! p5 = Some (ks5, cs5)).
  Hypothesis (Hk2 : ks5 !! 0%nat = Some k2).
  Hypothesis (Hnew : p5 ∉ A ++ p :: B).
  Hypothesis (Hpick : pick_ix κ (KA ++ KB) = length A).
  Hypothesis (Hκ : leads T ch p κ).

Definition insert_tree : gmap ptr branch := <[gp := (KA ++ k2 :: KB, A ++ p :: p5 :: B)]> T.

Lemma ins_page : branch_ok T ch kl (later order gp) (KA ++ KB) (A ++ p :: B).
Proof using Hok Hgp. by eapply (t_branch _ _ _ _ _ Hok). Qed.

(** The split child leads every key from the new page's reach on that is not
    below an earlier separator. *)
Lemma ins_p_leads κ' :
  (length KA ≤ pick_ix κ' (KA ++ KB))%nat → leads T ch gp κ' → leads T ch p κ'.
Proof using Hok Hgp HA Hlp Hpick Hκ.
  clear Hnew. intros Hpk Hgpl.
  destruct (decide (length KA = 0%nat)) as [H0|H0].
  - destruct KA; [|done]. destruct A; [|done]. simpl in *.
    destruct KB as [|k KB']; simpl in *.
    + apply (leads_branch Hok _ _ _ _ Hgp) in Hgpl as (x & Hx & Hl). by simplify_eq/=.
    + destruct (lex_cmp κ' k) eqn:E.
      2: { apply (leads_branch Hok _ _ _ _ Hgp) in Hgpl as (x & Hx & Hl). simpl in Hx.
           rewrite E in Hx. by simplify_eq/=. }
      all: destruct (lex_cmp κ k) eqn:Eκ; try done;
        eapply (leads_up Hok); [by apply later_in in Hlp as []|done|];
        intros Hlt; apply lex_cmp_eq in E || apply lex_gt in E.
      * subst. apply (irreflexivity lex_lt κ). by etrans.
      * apply (irreflexivity lex_lt κ'). etrans; [exact Hlt|]. by etrans.
  - destruct (lookup_lt_is_Some_2 KA (length KA - 1)) as [k Hk]; [lia|].
    eapply (br_suffix _ _ _ _ _ _ ins_page (length KA - 1)).
    + replace (S (length KA - 1)) with (length A) by lia. by rewrite list_lookup_middle.
    + by eapply (later_branch Hok).
    + by apply lookup_app_l_Some.
    + eapply (pick_ix_before κ' (KA ++ KB) (length KA - 1)); [lia|]. by apply lookup_app_l_Some.
Qed.

Lemma ins_at : insert_tree !! gp = Some (KA ++ k2 :: KB, A ++ p :: p5 :: B).
Proof. apply lookup_insert_eq. Qed.

Lemma ins_other q : q ≠ gp → insert_tree !! q = T !! q.
Proof. intros. by apply lookup_insert_ne. Qed.

(** Every page still leads the keys it led. *)
Lemma ins_leads q κ' : q ∈ order → leads T ch q κ' → leads insert_tree ch q κ'.
Proof using Hok Hgp HA Hlp Hlp5 Hp5 Hk2 Hpick Hκ.
  clear Hnew. intros Ho Hl. revert q Ho Hl. refine (order_ind _ _ (order_nodup Hok) _).
  intros q Ho IH Hl. destruct (order_branch Hok _ Ho) as (ks & cs & Hq).
  pose proof (t_branch _ _ _ _ _ Hok _ _ _ Hq) as Bq.
  assert (∀ x, x ∈ cs → leads T ch x κ' → leads insert_tree ch x κ') as IHk.
  { intros x Hx Hlx. destruct (br_kids _ _ _ _ _ _ Bq x Hx) as [(l & Hll & <-)|?]; [|auto].
    apply (leads_leaf Hok) in Hlx; [|done]. by apply leads_own. }
  destruct (proj1 (leads_branch Hok _ _ _ _ Hq) Hl) as (x & Hx & Hlx).
  destruct (decide (q = gp)) as [->|Hne].
  2: { eapply leads_step; [by rewrite ins_other|exact Hx|].
       apply IHk; [|done]. by eapply list_elem_of_lookup_2. }
  pose proof Hgp as E. rewrite Hq in E. injection E as -> ->.
  destruct (decide (pick_ix κ' (KA ++ KB) < length KA)%nat) as [Hlt|Hge].
  - eapply leads_step; [apply ins_at| |apply IHk; [by eapply list_elem_of_lookup_2|exact Hlx]].
    rewrite (pick_app_lt κ' KA KB) by done. eapply (ins_old _ _ _ p5) in Hx.
    by rewrite decide_True in Hx by lia.
  - assert (pick_ix κ' (KA ++ KB) = length KA + pick_ix κ' KB)%nat as Epk
      by (eapply pick_app_ge; by apply not_lt in Hge).
    assert (leads T ch p κ') as Hpl by (apply ins_p_leads; [lia|done]).
    assert (pick_ix κ' (KA ++ k2 :: KB) = length KA + pick_ix κ' (k2 :: KB))%nat as Epk'
      by (eapply pick_app_ge; by apply not_lt in Hge).
    destruct (decide (lex_cmp κ' k2 = Lt)) as [Hlt2|Hge2].
    + eapply (leads_step _ _ _ _ _ p); [apply ins_at| |apply IHk; [set_solver|done]].
      rewrite Epk'. simpl. by rewrite Hlt2, Nat.add_0_r, HA, list_lookup_middle.
    + assert (pick_ix κ' (k2 :: KB) = S (pick_ix κ' KB)) as E2
        by (simpl; destruct (lex_cmp κ' k2); congruence).
      rewrite E2, HA in Epk'. rewrite HA in Epk.
      destruct (pick_ix κ' KB) as [|m] eqn:Em.
      * eapply (leads_step _ _ _ _ _ p5); [apply ins_at| |].
        -- rewrite Epk'. rewrite lookup_app_r by lia. by replace (length A + 1 - length A)%nat with 1%nat by lia.
        -- apply IH; [done|]. by eapply (leads_head Hok).
      * eapply leads_step; [apply ins_at| |apply IHk; [by eapply list_elem_of_lookup_2|exact Hlx]].
        rewrite Epk'. eapply (ins_old _ _ _ p5) in Hx. rewrite decide_False in Hx by lia.
        rewrite <-Hx. f_equal. lia.
Qed.

Lemma ins_leads_any x κ' : leads T ch x κ' → leads insert_tree ch x κ'.
Proof using Hok Hgp HA Hlp Hlp5 Hp5 Hk2 Hpick Hκ.
  clear Hnew. intros Hl. destruct (T !! x) as [nd|] eqn:E.
  - apply ins_leads; [|done]. apply (t_dom _ _ _ _ _ Hok). by eexists.
  - destruct Hl as (π & l & Hr). inversion Hr; simplify_eq. by apply leads_own.
Qed.

Lemma ins_leftmost x π l : leftmost T ch x π l → ∃ π', leftmost insert_tree ch x π' l.
Proof using Hok Hgp.
  clear -Hok Hgp. induction 1 as [l Hl|q ks' cs' x π l Hq Hx _ IH].
  - eexists. by constructor.
  - destruct (decide (q = gp)) as [->|Hne].
    + pose proof Hgp as E. rewrite Hq in E. injection E as -> ->.
      eapply leftmost_step; [apply ins_at| |exact IH].
      eapply (ins_old _ _ _ p5) in Hx. by rewrite decide_True in Hx by lia.
    + eapply leftmost_step; [by rewrite ins_other|exact Hx|exact IH].
Qed.

(** Positions of leaves among the new children are positions among the old. *)
Lemma ins_leaf_pos j l : l ∈ ch → (A ++ p :: p5 :: B) !! j = Some (l_ptr l) →
  (j < length A)%nat ∧ (A ++ p :: B) !! j = Some (l_ptr l) ∨
  (S (length A) < j)%nat ∧ (A ++ p :: B) !! (j - 1)%nat = Some (l_ptr l).
Proof using Hok Hlp Hlp5.
  clear -Hok Hlp Hlp5. intros Hl Hj.
  assert (∀ x, later order gp x → l_ptr l ≠ x) as Hn.
  { intros x Hx E. apply (later_branch Hok _ _ Hx). by exists l. }
  destruct (ins_kid _ _ _ _ _ _ Hj) as [[Hle Hj']|[[-> E]|[Hlt Hj']]].
  - left. split; [|done]. destruct (decide (j = length A)) as [->|]; [|lia].
    rewrite list_lookup_middle in Hj' by done. injection Hj' as E. by destruct (Hn p).
  - by destruct (Hn p5).
  - by right.
Qed.

Lemma ins_page_ok : branch_ok insert_tree ch kl (later order gp) (KA ++ k2 :: KB) (A ++ p :: p5 :: B).
Proof using Hok Hgp HA Hlp Hlp5 Hp5 Hk2 Hnew Hpick Hκ.
  destruct ins_page as [Hlen Hpos Hkl Hnd Hkids Hhi Hlo Hsuf Hscan].
  split.
  - rewrite length_app in *. simpl in *. rewrite length_app in *. simpl. lia.
  - rewrite length_app. simpl. lia.
  - apply Forall_app in Hkl as [HklA HklB]. apply Forall_app. split; [done|]. constructor; [|done].
    pose proof (br_klen _ _ _ _ _ _ (t_branch _ _ _ _ _ Hok _ _ _ Hp5)) as Hkl5.
    by eapply Forall_lookup_1 in Hkl5.
  - by apply ins_nodup.
  - intros x Hx. destruct (decide (x = p5)) as [->|]; [by right|]. apply Hkids. set_solver.
  - intros j l Hl Hj. destruct (ins_leaf_pos _ _ Hl Hj) as [[? Hj']|[? Hj']].
    + rewrite sep_lt by lia. by apply Hhi.
    + rewrite sep_gt by lia. by apply Hhi.
  - intros j l k Hl Hj Hk. destruct (ins_leaf_pos _ _ Hl Hj) as [[? Hj']|[? Hj']].
    + rewrite sep_lt in Hk by lia. by eapply Hlo.
    + rewrite sep_gt in Hk by lia. eapply (Hlo (j - 1)%nat); [done| |done].
      rewrite <-Hj'. f_equal. lia.
  - intros j x k κ' Hj Hx Hk Hge. apply ins_leads_any.
    destruct (ins_kid _ _ _ _ _ _ Hj) as [[Hle Hj']|[[E ->]|[Hlt Hj']]].
    + rewrite sep_lt in Hk by lia. by eapply Hsuf.
    + assert (j = length KA) as -> by lia. rewrite list_lookup_middle in Hk by done. simplify_eq.
      by eapply (leads_head Hok).
    + rewrite sep_gt in Hk by lia. eapply (Hsuf (j - 1)%nat); [|done..].
      rewrite <-Hj'. f_equal. lia.
  - intros j l x Hl Hj Hx.
    assert (∃ j', (A ++ p :: B) !! j' = Some (l_ptr l) ∧ (A ++ p :: B) !! S j' = Some x) as (j' & H1 & H2).
    { destruct (ins_leaf_pos _ _ Hl Hj) as [[? Hj']|[? Hj']];
        destruct (ins_kid _ _ _ _ _ _ Hx) as [[Hle Hx']|[[E ->]|[Hlt Hx']]]; try lia.
      - by exists j.
      - exists (j - 1)%nat. split; [done|]. rewrite <-Hx'. f_equal. lia. }
    destruct (Hscan _ _ _ Hl H1 H2) as (π & l' & Hm & ?).
    destruct (ins_leftmost _ _ _ Hm) as (π' & ?). by exists π', l'.
Qed.

(** The tree keeps its shape when the parent gets the new page [p5] after [p]. *)
Lemma ins_ok : tree_ok insert_tree ch kl order root.
Proof using Hok Hgp HA Hlp Hlp5 Hp5 Hk2 Hnew Hpick Hκ.
  split; try apply Hok.
  - intros q. rewrite (t_dom _ _ _ _ _ Hok). unfold insert_tree.
    destruct (decide (q = gp)) as [->|]; [|by rewrite lookup_insert_ne].
    rewrite lookup_insert_eq, Hgp. split; intros _; by eexists.
  - intros q ks cs Hq. destruct (decide (q = gp)) as [->|].
    { rewrite ins_at in Hq. simplify_eq. apply ins_page_ok. }
    rewrite ins_other in Hq by done.
    eapply branch_ok_mono; [| | |by eapply (t_branch _ _ _ _ _ Hok)];
      eauto using ins_leads_any, ins_leftmost.
  - assert (∀ q ks cs x, insert_tree !! q = Some (ks, cs) → x ∈ cs → is_leaf ch x →
      ∃ ks' cs', T !! q = Some (ks', cs') ∧ x ∈ cs') as Hback.
    { intros q ks cs x Hq Hx Hl. destruct (decide (q = gp)) as [->|].
      - rewrite ins_at in Hq. simplify_eq. eexists _, _. split; [done|].
        assert (x ≠ p5) by (intros ->; by eapply (later_branch Hok)). set_solver.
      - rewrite ins_other in Hq by done. eauto. }
    intros q q' ks cs ks' cs' x Hq Hq' Hx Hx' Hl.
    destruct (Hback _ _ _ _ Hq Hx Hl) as (? & ? & ? & ?).
    destruct (Hback _ _ _ _ Hq' Hx' Hl) as (? & ? & ? & ?).
    by eapply (t_parent _ _ _ _ _ Hok).
  - intros κ'. apply ins_leads_any, Hok.
  - destruct (t_first _ _ _ _ _ Hok) as (π & l & Hm & ?).
    destruct (ins_leftmost _ _ _ Hm) as (π' & ?). by exists π', l.
Qed.

End insert_child.

(** ** A new root over a split branch *)

Lemma route_weaken T T' ch κ x π l : T ⊆ T' → route T ch κ x π l → route T' ch κ x π l.
Proof.
  intros Hsub. induction 1 as [|p ks cs x π l Hp]; [by constructor|].
  econstructor; [|done..]. by eapply lookup_weaken.
Qed.

Lemma leads_weaken T T' ch x κ : T ⊆ T' → leads T ch x κ → leads T' ch x κ.
Proof. intros ? (π & l & ?). exists π, l. by eapply route_weaken. Qed.

Lemma leftmost_weaken T T' ch x π l : T ⊆ T' → leftmost T ch x π l → leftmost T' ch x π l.
Proof.
  intros Hsub. induction 1 as [|p ks cs x π l Hp]; [by constructor|].
  econstructor; [|done..]. by eapply lookup_weaken.
Qed.

Section new_root.
  Context {T : gmap ptr branch} {ch : list leaf} {kl : nat} {rest : list ptr}.
  Context {p p5 r : ptr} {ks5 : list bytes} {cs5 : list ptr} {k2 : bytes}.
  Hypothesis (Hok : tree_ok T ch kl (p :: rest) p).
  Hypothesis (Hin5 : p5 ∈ rest).
  Hypothesis (Hp5 : T !! p5 = Some (ks5, cs5)).
  Hypothesis (Hk2 : ks5 !! 0%nat = Some k2).
  Hypothesis (Hfr : r ∉ (l_ptr <$> ch) ++ p :: rest).

Lemma new_root_ok : tree_ok (<[r := ([k2], [p; p5])]> T) ch kl (r :: p :: rest) r.
Proof using Hok Hin5 Hp5 Hk2 Hfr.
  assert (T !! r = None) as Hr.
  { destruct (T !! r) eqn:E; [|done]. exfalso. apply Hfr. apply elem_of_app. right.
    apply (t_dom _ _ _ _ _ Hok). by eexists. }
  pose proof (insert_subseteq T r ([k2], [p; p5]) Hr) as Hsub.
  pose proof (order_nodup Hok) as Hnd. apply NoDup_cons in Hnd as [Hpr _].
  assert (∀ x, x ∈ p :: rest → ¬ is_leaf ch x) as Hbr.
  { intros x Hx. destruct (order_branch Hok x Hx) as (? & ? & ?). by eapply (branch_not_leaf Hok). }
  assert (∀ x, x ∈ [p; p5] → x ∈ p :: rest) as Hin by set_solver.
  assert (∀ j l, l ∈ ch → [p; p5] !! j = Some (l_ptr l) → False) as Hnl.
  { intros j l Hl Hj. apply list_elem_of_lookup_2 in Hj. apply (Hbr (l_ptr l)); [auto|]. by exists l. }
  assert (∀ κ, lge κ k2 → leads (<[r := ([k2], [p; p5])]> T) ch p5 κ) as H5.
  { intros κ Hge. eapply leads_weaken; [done|]. by eapply (leads_head Hok). }
  split; try apply Hok.
  - assert ((l_ptr <$> ch) ++ r :: p :: rest ≡ₚ r :: (l_ptr <$> ch) ++ p :: rest) as ->
      by solve_Permutation.
    apply NoDup_cons. split; [done|apply Hok].
  - intros q. destruct (decide (q = r)) as [->|].
    + rewrite lookup_insert_eq. set_solver.
    + rewrite lookup_insert_ne, <-(t_dom _ _ _ _ _ Hok) by done. set_solver.
  - done.
  - intros q ks cs Hq. destruct (decide (q = r)) as [->|].
    + rewrite lookup_insert_eq in Hq. simplify_eq. split; simpl.
      * done.
      * lia.
      * constructor; [|done].
        pose proof (br_klen _ _ _ _ _ _ (t_branch _ _ _ _ _ Hok _ _ _ Hp5)) as Hkl5.
        by eapply Forall_lookup_1 in Hkl5.
      * apply NoDup_cons. split; [set_solver|apply NoDup_singleton].
      * intros x Hx. right. apply (later_intro []). auto.
      * intros j l Hl Hj. by destruct (Hnl j l).
      * intros j l k Hl Hj. by destruct (Hnl (S j) l).
      * intros [|j] x k κ Hj _ Hk Hge; simplify_eq/=. auto.
      * intros j l x Hl Hj. by destruct (Hnl j l).
    + rewrite lookup_insert_ne in Hq by done.
      eapply branch_ok_mono; [| | |by eapply (t_branch _ _ _ _ _ Hok)].
      * intros. by eapply leads_weaken.
      * intros x π l ?. exists π. by eapply leftmost_weaken.
      * intros x Hx. by apply sublist_cons.
  - intros q q' ks cs ks' cs' x Hq Hq' Hx Hx' Hl.
    destruct (decide (q = r)) as [->|].
    { rewrite lookup_insert_eq in Hq. simplify_eq. by destruct (Hbr x); [auto|]. }
    destruct (decide (q' = r)) as [->|].
    { rewrite lookup_insert_eq in Hq'. simplify_eq. by destruct (Hbr x); [auto|]. }
    rewrite lookup_insert_ne in Hq, Hq' by done. by eapply (t_parent _ _ _ _ _ Hok).
  - intros κ. destruct (decide (lex_cmp κ k2 = Lt)) as [Hlt|Hge].
    + eapply (leads_step _ _ _ _ _ p); [apply lookup_insert_eq|simpl; by rewrite Hlt|].
      eapply leads_weaken; [done|]. apply Hok.
    + eapply (leads_step _ _ _ _ _ p5); [apply lookup_insert_eq| |auto].
      simpl. by destruct (lex_cmp κ k2).
  - destruct (t_first _ _ _ _ _ Hok) as (π & l & Hm & ?). exists (r :: π), l. split; [|done].
    econstructor; [apply lookup_insert_eq|done|]. by eapply leftmost_weaken.
Qed.

End new_root.

(** ** A leaf splits *)

Definition left_leaf (l : leaf) (k : bytes) (its : list slot) : leaf :=
  mk_leaf (l_ptr l) (l_lo l) (Some k) its.
Definition right_leaf (l : leaf) (k : bytes) (q : ptr) (its : list slot) : leaf :=
  mk_leaf q (Some k) (l_hi l) its.

(** [k] separates the range of [l]. *)
Definition cuts (l : leaf) (k : bytes) : Prop :=
  (match l_lo l with Some k0 => lex_lt k0 k | None => True end) ∧ lt_hi k (l_hi l).

Lemma linked_split lo C1 C2 l k q its1 its2 :
  cuts l k → linked lo (C1 ++ l :: C2) →
  linked lo (C1 ++ left_leaf l k its1 :: right_leaf l k q its2 :: C2).
Proof.
  intros [Hlo Hhi]. revert lo. induction C1 as [|c C1 IH]; intros lo.
  - simpl. intros [<- H]. split; [done|]. exists k. split_and!; [done..|]. simpl.
    destruct C2 as [|c2 C2]; [done|].
    destruct H as (k1 & E & _ & H). exists k1. rewrite E in *. done.
  - simpl. intros [? H]. split; [done|].
    destruct (C1 ++ l :: C2) as [|a L] eqn:E; [by destruct C1|].
    destruct H as (k1 & ? & ? & H).
    destruct (C1 ++ left_leaf l k its1 :: right_leaf l k q its2 :: C2) as [|b L'] eqn:E'; [by destruct C1|].
    exists k1. split_and!; [done..|]. by apply (IH (Some k1)).
Qed.

Section split_leaf.
  Context {T : gmap ptr branch} {kl : nat} {order : list ptr} {root : ptr}.
  Context {C1 C2 : list leaf} {l : leaf} {k : bytes} {q : ptr} {its1 its2 : list slot}.
Let ch := C1 ++ l :: C2.
Let l1 := left_leaf l k its1.
Let l2 := right_leaf l k q its2.
Let ch' := C1 ++ l1 :: l2 :: C2.
  Context {p : ptr} {KA KB : list bytes} {A B : list ptr}.
  Hypothesis (Hok : tree_ok T ch kl order root).
  Hypothesis (Hcut : cuts l k).
  Hypothesis (Hok1 : leaf_ok kl l1).
  Hypothesis (Hok2 : leaf_ok kl l2).
  Hypothesis (Hkl : length k = kl).
  Hypothesis (Hfr : q ∉ (l_ptr <$> ch) ++ order).
  Hypothesis (Hp : T !! p = Some (KA ++ KB, A ++ l_ptr l :: B)).
  Hypothesis (HA : length KA = length A).

Definition split_leaf_tree : gmap ptr branch := <[p := (KA ++ k :: KB, A ++ l_ptr l :: q :: B)]> T.

Lemma sl_page : branch_ok T ch kl (later order p) (KA ++ KB) (A ++ l_ptr l :: B).
Proof. by eapply (t_branch _ _ _ _ _ Hok). Qed.

Lemma sl_in : l ∈ ch.
Proof. subst ch. clear. set_solver. Qed.

Lemma sl_old l0 : l0 ∈ ch' → l0 = l1 ∨ l0 = l2 ∨ l0 ∈ ch ∧ l0 ≠ l.
Proof.
  clear -Hok. intros Hin. pose proof (t_nodup _ _ _ _ _ Hok) as Hnd.
  apply NoDup_app in Hnd as (Hnd & _ & _). subst ch ch'. rewrite fmap_app in Hnd. simpl in Hnd.
  rewrite elem_of_app, !elem_of_cons in Hin. rewrite elem_of_app, elem_of_cons.
  apply NoDup_app in Hnd as (_ & Hd & Hnd). apply NoDup_cons in Hnd as [Hn _].
  destruct Hin as [Hin|[->|[->|Hin]]]; [|by left|by right; left|]; right; right; (split; [by auto|]);
    intros ->; [apply (Hd (l_ptr l)); [|set_solver]|apply Hn]; by apply list_elem_of_fmap_2.
Qed.

Lemma sl_new l0 : l0 ∈ ch → l0 = l ∨ l0 ∈ ch'.
Proof. subst ch ch'. clear. set_solver. Qed.

Lemma sl_is_leaf x : is_leaf ch' x ↔ is_leaf ch x ∨ x = q.
Proof.
  clear. unfold is_leaf. subst ch ch' l1 l2. split.
  - intros (l0 & Hin & <-). rewrite elem_of_app, !elem_of_cons in Hin.
    destruct Hin as [?|[->|[->|?]]].
    + left. exists l0. set_solver.
    + left. exists l. set_solver.
    + by right.
    + left. exists l0. set_solver.
  - intros [(l0 & Hin & <-)| ->].
    + rewrite elem_of_app, elem_of_cons in Hin. destruct Hin as [?|[->|?]].
      * exists l0. set_solver.
      * exists (left_leaf l k its1). set_solver.
      * exists l0. set_solver.
    + exists (right_leaf l k q its2). set_solver.
Qed.

Lemma sl_q_kid r ks cs : T !! r = Some (ks, cs) → q ∉ cs.
Proof.
  intros Hr Hq. pose proof (t_branch _ _ _ _ _ Hok _ _ _ Hr) as Br.
  apply Hfr. destruct (br_kids _ _ _ _ _ _ Br q Hq) as [(l0 & Hl0 & <-)|H].
  - apply elem_of_app. left. by apply list_elem_of_fmap_2.
  - apply later_in in H as [_ H]. apply elem_of_app. by right.
Qed.

Lemma sl_at : split_leaf_tree !! p = Some (KA ++ k :: KB, A ++ l_ptr l :: q :: B).
Proof. apply lookup_insert_eq. Qed.

Lemma sl_other r : r ≠ p → split_leaf_tree !! r = T !! r.
Proof. intros. by apply lookup_insert_ne. Qed.

(** Only [p] has the split leaf among its children. *)
Lemma sl_unique r ks cs : T !! r = Some (ks, cs) → r ≠ p → l_ptr l ∉ cs.
Proof.
  intros Hr Hne Hin. apply Hne.
  eapply (t_parent _ _ _ _ _ Hok); [exact Hr|exact Hp|exact Hin|set_solver|].
  exists l. split; [apply sl_in|done].
Qed.

Lemma sl_leads r κ : r ∈ order → leads T ch r κ → leads split_leaf_tree ch' r κ.
Proof.
  revert r. intros r Ho Hl. revert r Ho Hl.
  refine (order_ind _ _ (order_nodup Hok) _). intros r Ho IH Hl.
  destruct (order_branch Hok _ Ho) as (ks & cs & Hr).
  pose proof (t_branch _ _ _ _ _ Hok _ _ _ Hr) as Br.
  assert (∀ x, x ∈ cs → x ≠ l_ptr l → leads T ch x κ → leads split_leaf_tree ch' x κ) as IHk.
  { intros x Hx Hne Hlx. destruct (br_kids _ _ _ _ _ _ Br x Hx) as [(l0 & Hl0 & <-)|?]; [|auto].
    apply (leads_leaf Hok) in Hlx; [|done]. apply leads_own; [|done].
    by destruct (sl_new _ Hl0) as [->|]. }
  destruct (proj1 (leads_branch Hok _ _ _ _ Hr) Hl) as (x & Hx & Hlx).
  assert (x ∈ cs) as Hxin by by eapply list_elem_of_lookup_2.
  destruct (decide (r = p)) as [->|Hne].
  2: { eapply leads_step; [by rewrite sl_other|exact Hx|]. apply IHk; [done| |done].
       intros ->. by eapply sl_unique. }
  pose proof Hp as E. rewrite Hr in E. injection E as -> ->.
  destruct (decide (pick_ix κ (KA ++ KB) = length A)) as [Eq|Hneq].
  - (* the key goes to the split leaf *)
    rewrite Eq, list_lookup_middle in Hx by done. injection Hx as <-.
    apply (leads_leaf Hok) in Hlx as [Hlo Hhi]; [|apply sl_in].
    assert (pick_ix κ (KA ++ k :: KB) = length A + pick_ix κ (k :: KB))%nat as Epk.
    { rewrite <-HA. eapply (pick_app_ge _ _ KB). lia. }
    assert (pick_ix κ (KA ++ KB) = length KA + pick_ix κ KB)%nat as Epk0
      by (eapply (pick_app_ge _ _ KB); lia).
    assert (pick_ix κ KB = 0)%nat as E0 by lia.
    destruct (decide (lex_cmp κ k = Lt)) as [Hlt|Hge].
    + eapply (leads_step _ _ _ _ _ (l_ptr l1)); [apply sl_at| |apply leads_own].
      * rewrite Epk. simpl. by rewrite Hlt, Nat.add_0_r, list_lookup_middle.
      * subst ch'. set_solver.
      * by split.
    + eapply (leads_step _ _ _ _ _ (l_ptr l2)); [apply sl_at| |apply leads_own].
      * rewrite Epk, lookup_app_r by lia. simpl. rewrite E0.
        replace (length A + _ - length A)%nat with 1%nat by (destruct (lex_cmp κ k); [lia|done|lia]).
        done.
      * subst ch'. set_solver.
      * by split.
  - assert (x ≠ l_ptr l) as Hxl.
    { intros ->. apply Hneq. eapply (NoDup_lookup (A ++ l_ptr l :: B)); [apply Br|exact Hx|].
      by rewrite list_lookup_middle. }
    eapply leads_step; [apply sl_at| |by apply IHk].
    apply (ins_old _ _ _ q) in Hx. rewrite <-Hx. f_equal.
    destruct (decide _) as [Hle|Hgt].
    + apply pick_app_lt. lia.
    + rewrite (pick_app_ge _ _ KB) by lia.
      assert (pick_ix κ (KA ++ KB) = length KA + pick_ix κ KB)%nat as Epk0
        by (eapply (pick_app_ge _ _ KB); lia).
      assert (lge κ k) as Hge.
      { destruct KB as [|k0 KB']; simpl in Epk0; [lia|].
        pose proof (br_hi _ _ _ _ _ _ Br (length A) l sl_in) as Hh.
        rewrite list_lookup_middle, <-HA, list_lookup_middle in Hh by done.
        destruct Hcut as [_ Hc]. rewrite (Hh eq_refl) in Hc. simpl in Hc.
        apply lex_not_lt. right. eapply (lex_lt_ge_trans _ k0); [done|].
        intros Hc'. rewrite Hc' in Epk0. lia. }
      simpl. destruct (lex_cmp κ k); [lia|done|lia].
Qed.

Lemma sl_leftmost x π l0 : leftmost T ch x π l0 →
  ∃ π' l0', leftmost split_leaf_tree ch' x π' l0' ∧ l_lo l0' = l_lo l0.
Proof.
  induction 1 as [l0 Hl|r ks' cs' x π l0 Hr Hx _ IH].
  - destruct (sl_new _ Hl) as [->|?].
    + exists [], l1. split; [|done]. apply (leftmost_leaf _ _ l1). subst ch'. set_solver.
    + exists [], l0. split; [|done]. by constructor.
  - destruct IH as (π' & l0' & Hm & E). exists (r :: π'), l0'. split; [|done].
    destruct (decide (r = p)) as [->|Hne].
    + pose proof Hp as E'. rewrite Hr in E'. injection E' as -> ->.
      econstructor; [apply sl_at| |exact Hm].
      apply (ins_old _ _ _ q) in Hx. by rewrite decide_True in Hx by lia.
    + econstructor; [by rewrite sl_other|exact Hx|exact Hm].
Qed.

Lemma sl_leads_kid r ks cs x κ :
  T !! r = Some (ks, cs) → x ∈ cs → ¬ is_leaf ch' x → leads T ch x κ → leads split_leaf_tree ch' x κ.
Proof.
  intros Hr Hx Hnl Hl. apply sl_leads; [|done].
  destruct (br_kids _ _ _ _ _ _ (t_branch _ _ _ _ _ Hok _ _ _ Hr) x Hx) as [?|H].
  - destruct Hnl. apply sl_is_leaf. by left.
  - by apply later_in in H as [_ H].
Qed.

Lemma sl_other_ok r ks cs : T !! r = Some (ks, cs) → r ≠ p →
  branch_ok split_leaf_tree ch' kl (later order r) ks cs.
Proof.
  intros Hr Hne. pose proof (t_branch _ _ _ _ _ Hok _ _ _ Hr) as Br.
  pose proof (sl_unique _ _ _ Hr Hne) as Hun. pose proof (sl_q_kid _ _ _ Hr) as Hq.
  assert (∀ j l0, l0 ∈ ch' → cs !! j = Some (l_ptr l0) → l0 ∈ ch) as Hin.
  { intros j l0 Hl0 Hj. apply list_elem_of_lookup_2 in Hj.
    by destruct (sl_old _ Hl0) as [->|[->|[? _]]]. }
  destruct Br as [Hlen Hpos Hkls Hnd Hkids Hhi Hlo Hsuf Hscan]. split; try done.
  - intros x Hx. destruct (Hkids x Hx) as [?|?]; [left|by right]. apply sl_is_leaf. by left.
  - intros j l0 Hl0 Hj. eapply Hhi; eauto.
  - intros j l0 k0 Hl0 Hj Hk0. eapply Hlo; eauto.
  - intros j x k0 κ Hj Hx Hk0 Hge. eapply sl_leads_kid; eauto using list_elem_of_lookup_2.
    eapply Hsuf; eauto. intros ?. apply Hx, sl_is_leaf. by left.
  - intros j l0 x Hl0 Hj Hx. destruct (Hscan j l0 x) as (π & l' & Hm & ?); eauto.
    destruct (sl_leftmost _ _ _ Hm) as (π' & l'' & ? & ?). exists π', l''. split; [done|congruence].
Qed.

(** The leaf at position [j] among the new children of [p]. *)
Lemma sl_leaf_pos j l0 : l0 ∈ ch' → (A ++ l_ptr l :: q :: B) !! j = Some (l_ptr l0) →
  (j < length A)%nat ∧ (A ++ l_ptr l :: B) !! j = Some (l_ptr l0) ∧ l0 ∈ ch ∨
  j = length A ∧ l0 = l1 ∨ j = S (length A) ∧ l0 = l2 ∨
  (S (length A) < j)%nat ∧ (A ++ l_ptr l :: B) !! (j - 1)%nat = Some (l_ptr l0) ∧ l0 ∈ ch.
Proof.
  intros Hl0 Hj. pose proof (br_nodup _ _ _ _ _ _ sl_page) as Hnd.
  pose proof (sl_q_kid _ _ _ Hp) as Hq.
  assert (∀ i, (A ++ l_ptr l :: B) !! i = Some (l_ptr l) → i = length A) as Hpos.
  { intros i Hi. eapply (NoDup_lookup _ _ _ _ Hnd Hi). by rewrite list_lookup_middle. }
  destruct (ins_kid _ _ _ _ _ _ Hj) as [[Hle Hj']|[[-> E]|[Hlt Hj']]];
    destruct (sl_old _ Hl0) as [->|[->|[Hch Hne]]].
  - right; left. auto.
  - destruct Hq. by eapply list_elem_of_lookup_2.
  - left. split; [|done]. destruct (decide (j = length A)) as [->|]; [|lia].
    rewrite list_lookup_middle in Hj' by done. injection Hj' as E.
    by destruct Hne, (leaf_inj Hok _ _ sl_in Hch E).
  - destruct Hq. rewrite <-E. simpl. set_solver.
  - right; right; left. auto.
  - exfalso. apply Hfr, elem_of_app. left. rewrite <-E. by apply list_elem_of_fmap_2.
  - apply Hpos in Hj'. lia.
  - destruct Hq. by eapply list_elem_of_lookup_2.
  - right; right; right. auto.
Qed.

Lemma sl_page_ok :
  branch_ok split_leaf_tree ch' kl (later order p) (KA ++ k :: KB) (A ++ l_ptr l :: q :: B).
Proof.
  destruct sl_page as [Hlen Hpos Hkls Hnd Hkids Hhi Hlo Hsuf Hscan].
  pose proof sl_in as Hl. pose proof (sl_q_kid _ _ _ Hp) as Hq.
  assert ((A ++ l_ptr l :: B) !! length A = Some (l_ptr l)) as HlA by by rewrite list_lookup_middle.
  split.
  - rewrite length_app in *. simpl in *. rewrite length_app in *. simpl. lia.
  - rewrite length_app. simpl. lia.
  - apply Forall_app in Hkls as [HklA HklB]. apply Forall_app. split; [done|]. by constructor.
  - by apply ins_nodup.
  - intros x Hx. rewrite sl_is_leaf. destruct (decide (x = q)) as [->|]; [by left; right|].
    destruct (Hkids x) as [?|?]; [|by left; left|by right]. set_solver.
  - intros j l0 Hl0 Hj. destruct (sl_leaf_pos _ _ Hl0 Hj) as [(? & Hj' & ?)|[[-> ->]|[[-> ->]|(? & Hj' & ?)]]].
    + rewrite sep_lt by lia. by apply Hhi.
    + by rewrite <-HA, list_lookup_middle.
    + rewrite sep_gt by lia. simpl. rewrite Nat.sub_0_r. by apply Hhi.
    + rewrite sep_gt by lia. by apply Hhi.
  - intros j l0 k0 Hl0 Hj Hk0.
    destruct (sl_leaf_pos _ _ Hl0 Hj) as [(? & Hj' & ?)|[[E ->]|[[E ->]|(? & Hj' & ?)]]].
    + rewrite sep_lt in Hk0 by lia. by eapply Hlo.
    + rewrite sep_lt in Hk0 by lia. simpl. eapply Hlo; [done| |done]. by rewrite E.
    + simpl. assert (j = length KA) as -> by lia. by rewrite list_lookup_middle in Hk0.
    + rewrite sep_gt in Hk0 by lia. eapply (Hlo (j - 1)%nat); [done| |done].
      rewrite <-Hj'. f_equal. lia.
  - intros j x k0 κ Hj Hx Hk0 Hge.
    assert (¬ is_leaf ch x) as Hx' by (intros ?; apply Hx, sl_is_leaf; by left).
    destruct (ins_kid _ _ _ _ _ _ Hj) as [[Hle Hj']|[[E ->]|[Hlt Hj']]].
    + rewrite sep_lt in Hk0 by lia. eapply sl_leads_kid; eauto using list_elem_of_lookup_2.
    + destruct Hx. apply sl_is_leaf. by right.
    + rewrite sep_gt in Hk0 by lia. eapply sl_leads_kid; eauto using list_elem_of_lookup_2.
      eapply (Hsuf (j - 1)%nat); [|done..]. rewrite <-Hj'. f_equal. lia.
  - intros j l0 x Hl0 Hj Hx.
    assert (l0 = l1 ∧ x = q ∨ ∃ j' l', l' ∈ ch ∧ l_hi l' = l_hi l0 ∧
      (A ++ l_ptr l :: B) !! j' = Some (l_ptr l') ∧ (A ++ l_ptr l :: B) !! S j' = Some x) as [[-> ->]|Hold].
    { destruct (sl_leaf_pos _ _ Hl0 Hj) as [(? & Hj' & ?)|[[-> ->]|[[-> ->]|(? & Hj' & ?)]]];
        destruct (ins_kid _ _ _ _ _ _ Hx) as [[Hle Hx']|[[E ->]|[Hlt Hx']]]; try lia.
      - right. by exists j, l0.
      - by left.
      - right. exists (length A), l. split_and!; try done.
      - right. exists (j - 1)%nat, l0. split_and!; try done. rewrite <-Hx'. f_equal. lia. }
    + exists [], l2. split; [|done]. apply (leftmost_leaf _ _ l2). subst ch'. set_solver.
    + destruct Hold as (j' & l' & Hl' & Ehi & H1 & H2).
      destruct (Hscan _ _ _ Hl' H1 H2) as (π & l3 & Hm & ?).
      destruct (sl_leftmost _ _ _ Hm) as (π' & l4 & ? & ?). exists π', l4. split; [done|congruence].
Qed.

(** The tree keeps its shape when a leaf splits at [k] and its parent gets the
    new leaf after the old one. *)
Lemma sl_ok : tree_ok split_leaf_tree ch' kl order root.
Proof.
  pose proof (t_branch _ _ _ _ _ Hok) as HB.
  assert (root ∈ order) as Hroot.
  { assert (p ∈ order) as Hpo by (apply (t_dom _ _ _ _ _ Hok); by eexists).
    pose proof (t_root _ _ _ _ _ Hok) as Hr.
    destruct order; [by apply not_elem_of_nil in Hpo|]. subst. set_solver. }
  split.
  - apply linked_split; [done|]. apply Hok.
  - pose proof (t_leaves _ _ _ _ _ Hok) as Hlv. subst ch ch'.
    rewrite Forall_app, Forall_cons in Hlv. rewrite Forall_app, !Forall_cons. naive_solver.
  - assert ((l_ptr <$> ch') ++ order ≡ₚ q :: (l_ptr <$> ch) ++ order) as ->.
    { subst ch ch'. rewrite !fmap_app. simpl. solve_Permutation. }
    apply NoDup_cons. split; [done|apply Hok].
  - intros r. rewrite (t_dom _ _ _ _ _ Hok). unfold split_leaf_tree.
    destruct (decide (r = p)) as [->|]; [|by rewrite lookup_insert_ne].
    rewrite lookup_insert_eq, Hp. split; intros _; by eexists.
  - pose proof (t_root _ _ _ _ _ Hok) as Hr. destruct order; [|done].
    by apply not_elem_of_nil in Hroot.
  - intros r ks cs Hr. destruct (decide (r = p)) as [->|].
    + rewrite sl_at in Hr. injection Hr as <- <-. apply sl_page_ok.
    + rewrite sl_other in Hr by done. by apply sl_other_ok.
  - assert (∀ r ks cs x, split_leaf_tree !! r = Some (ks, cs) → x ∈ cs →
      ∃ ks' cs', T !! r = Some (ks', cs') ∧ (x ∈ cs' ∨ x = q ∧ r = p)) as Hback.
    { intros r ks cs x Hr Hx. destruct (decide (r = p)) as [->|].
      - rewrite sl_at in Hr. simplify_eq. eexists _, _. split; [done|]. set_solver.
      - rewrite sl_other in Hr by done. eauto. }
    intros r r' ks cs ks' cs' x Hr Hr' Hx Hx' Hl.
    destruct (Hback _ _ _ _ Hr Hx) as (ka & ca & Ha & Da).
    destruct (Hback _ _ _ _ Hr' Hx') as (kb & cb & Hb & Db).
    pose proof (sl_q_kid _ _ _ Ha). pose proof (sl_q_kid _ _ _ Hb).
    destruct (decide (x = q)) as [->|]; [naive_solver|].
    apply sl_is_leaf in Hl as [Hl|?]; [|done].
    eapply (t_parent _ _ _ _ _ Hok _ _ _ _ _ _ x Ha Hb); naive_solver.
  - intros κ. apply sl_leads; [done|apply Hok].
  - destruct (t_first _ _ _ _ _ Hok) as (π & l0 & Hm & ?).
    destruct (sl_leftmost _ _ _ Hm) as (π' & l' & ? & ?). exists π', l'. split; [done|congruence].
Qed.

End split_leaf.

(** A leaf that is the root splits under a new branch [r]. *)
Lemma split_root_leaf_ok T kl l k q r its1 its2 :
  tree_ok T [l] kl [] (l_ptr l) → cuts l k →
  leaf_ok kl (left_leaf l k its1) → leaf_ok kl (right_leaf l k q its2) → length k = kl →
  NoDup [l_ptr l; q; r] →
  tree_ok (<[r := ([k], [l_ptr l; q])]> T) [left_leaf l k its1; right_leaf l k q its2] kl [r] r.
Proof.
  intros Hok Hcut H1 H2 Hkl Hnd. set (l1 := left_leaf l k its1). set (l2 := right_leaf l k q its2).
  set (T' := <[r := _]> T).
  destruct (t_linked _ _ _ _ _ Hok) as [Elo Ehi].
  assert (l1 ∈ [l1; l2]) as Hl1 by set_solver. assert (l2 ∈ [l1; l2]) as Hl2 by set_solver.
  assert (∀ x nd, T' !! x = Some nd → x = r ∧ nd = ([k], [l_ptr l; q])) as HT'.
  { intros x nd. destruct (decide (x = r)) as [->|].
    - unfold T'. rewrite lookup_insert_eq. naive_solver.
    - unfold T'. rewrite lookup_insert_ne by done. intros Hx.
      assert (x ∈ ([] : list ptr)) by (apply (t_dom _ _ _ _ _ Hok); by eexists). set_solver. }
  assert (T' !! r = Some ([k], [l_ptr l; q])) as Hr by apply lookup_insert_eq.
  apply NoDup_cons in Hnd as [Hn1 Hnd]. apply NoDup_cons in Hnd as [Hn2 Hnd].
  assert (l_ptr l ≠ q) as Hlq by set_solver.
  assert (∀ l0, l0 ∈ [l1; l2] → l0 = l1 ∨ l0 = l2) as Htwo by set_solver.
  split.
  - apply (linked_split None [] []); [done|apply Hok].
  - by apply Forall_cons; split; [|apply Forall_singleton].
  - simpl. apply NoDup_cons. split; [done|]. by apply NoDup_cons.
  - intros x. rewrite list_elem_of_singleton. split; [intros ->; by eexists|]. intros [nd Hx].
    by apply HT' in Hx as [-> _].
  - done.
  - intros x ks cs Hx. apply HT' in Hx as [-> E]. simplify_eq. split; simpl.
    + done.
    + lia.
    + by apply Forall_singleton.
    + apply NoDup_cons. split; [set_solver|apply NoDup_singleton].
    + intros x Hx. left. apply elem_of_cons in Hx as [->|Hx]; [by exists l1|].
      apply list_elem_of_singleton in Hx as ->. by exists l2.
    + intros [|[|j]] l0 Hl0 Hj; simpl in *; try done;
        destruct (Htwo _ Hl0) as [E|E]; rewrite E in *; simpl in *; congruence.
    + intros [|j] l0 k0 Hl0 Hj Hk0; simpl in *; try done.
      destruct (Htwo _ Hl0) as [E|E]; rewrite E in *; simpl in *; congruence.
    + intros [|j] x k0 κ Hj Hx; simpl in *; try done. destruct Hx. exists l2. by simplify_eq.
    + intros [|[|j]] l0 x Hl0 Hj Hx; simpl in *; try done. exists [], l2. injection Hx as <-.
      split; [by apply (leftmost_leaf _ _ l2)|].
      destruct (Htwo _ Hl0) as [E|E]; rewrite E in *; simpl in *; congruence.
  - intros x x' ks cs ks' cs' y Hx Hx'. apply HT' in Hx as [-> _]. by apply HT' in Hx' as [-> _].
  - intros κ. destruct (decide (lex_cmp κ k = Lt)) as [Hlt|Hge].
    + eapply (leads_step _ _ _ _ _ (l_ptr l1)); [exact Hr|simpl; by rewrite Hlt|].
      apply leads_own; [done|]. split; simpl; [by rewrite Elo|done].
    + eapply (leads_step _ _ _ _ _ (l_ptr l2)); [exact Hr|simpl; by destruct (lex_cmp κ k)|].
      apply leads_own; [done|]. split; simpl; [done|by rewrite Ehi].
  - exists [r], l1. split; [|done]. eapply leftmost_branch; [exact Hr|done|]. by apply (leftmost_leaf _ _ l1).
Qed.
