(* ===== verification/MemfhPage.v ===== *)
(** What each page operation of src/memfh_idx.c does to one page: the loops that
    move items, the insertion of an item, the copy of half a page.  A page is
    read as a leaf (its items) or as a branch (separators and children). *)

From stdpp Require Import prelude gmap strings sorting.
From S2P Require Import Prelude MemfhIdx MemfhTree.

(** ** Capacity *)

Section capacity.
  Context (kl : nat) (Hkl : (kl ≤ 256)%nat).

Lemma max_items_fits i : (i ≤ MEMFH_MAX_ITEMS kl)%nat → fits kl i = true.
Proof using Hkl.
  intros Hi. apply Nat.leb_le. unfold MEMFH_MAX_ITEMS, MEMFH_PAGELEN, PTRSZ in *.
  set (w := (kl + 4)%nat) in *. assert (0 < w)%nat by lia.
  pose proof (Nat.div_mod_eq (4096 - 12) w) as E.
  assert ((4096 - 12) / w ≠ 0)%nat. { intros E0. apply Nat.div_small_iff in E0; lia. }
  assert ((i + 1) * w ≤ ((4096 - 12) / w) * w)%nat by (apply Nat.mul_le_mono_r; lia).
  lia.
Qed.

Lemma max_items_pos : (2 ≤ MEMFH_MAX_ITEMS kl)%nat.
Proof using Hkl.
  unfold MEMFH_MAX_ITEMS, MEMFH_PAGELEN, PTRSZ.
  assert (14 ≤ (4096 - 12) / (kl + 4))%nat; [|lia].
  apply Nat.div_le_lower_bound; lia.
Qed.

End capacity.

(** ** Slots *)

Lemma put_slot_run kl b i s :
  fits kl i = true → (i ≤ length b)%nat →
  ∃ b', put_slot kl b i s = Some b' ∧ b' !! i = Some s ∧ (∀ j, j ≠ i → b' !! j = b !! j) ∧
    (length b ≤ length b')%nat.
Proof.
  intros Hf Hi. unfold put_slot. rewrite Hf. destruct (Nat.ltb_spec i (length b)).
  - eexists. split_and!; [done| | |].
    + by apply list_lookup_insert_eq.
    + intros. by apply list_lookup_insert_ne.
    + by rewrite length_insert.
  - rewrite (proj2 (Nat.eqb_eq i (length b))) by lia. eexists. split_and!; [done| | |].
    + rewrite lookup_app_r by lia. by rewrite (proj2 (Nat.sub_0_le i (length b))) by lia.
    + intros j Hj. destruct (decide (j < length b)%nat); [by rewrite lookup_app_l|].
      rewrite (lookup_ge_None_2 b) by lia. apply lookup_ge_None_2. rewrite length_app. simpl. lia.
    + rewrite length_app. lia.
Qed.

Lemma fits_mono kl i j : (j ≤ i)%nat → fits kl i = true → fits kl j = true.
Proof. unfold fits. rewrite !Nat.leb_le. intros ? H. etrans; [|exact H]. apply Nat.mul_le_mono_r. lia. Qed.

Lemma shift_loop_run kl b i cnt :
  fits kl i = true → (cnt ≤ i)%nat → (i ≤ length b)%nat →
  ∃ b', shift_loop kl b i cnt = Some b' ∧ (length b ≤ length b')%nat ∧
    (cnt ≠ 0%nat → (i < length b')%nat) ∧
    ∀ j, b' !! j = if decide (i - cnt < j ≤ i)%nat then b !! (j - 1)%nat else b !! j.
Proof.
  revert b i. induction cnt as [|cnt IH]; intros b i Hf Hc Hi; simpl.
  { eexists. split_and!; [done|done|done|]. intros j. by rewrite decide_False by lia. }
  destruct (lookup_lt_is_Some_2 b (i - 1)) as [s Hs]; [lia|]. rewrite Hs. simpl.
  destruct (put_slot_run kl b i s) as (b1 & E1 & Hat & Hne & Hl); [done..|]. rewrite E1. simpl.
  destruct (IH b1 (i - 1)%nat) as (b2 & E2 & Hl2 & _ & Hb2);
    [by eapply fits_mono; [|exact Hf]; lia|lia|lia|].
  exists b2. split_and!; [done|lia| |].
  { intros _. apply lookup_lt_Some in Hat. lia. }
  intros j. rewrite Hb2. destruct (decide (i - 1 - cnt < j ≤ i - 1)%nat).
  - rewrite decide_True by lia. apply Hne. lia.
  - destruct (decide (j = i)) as [->|].
    + rewrite decide_True by lia. by rewrite Hat.
    + rewrite decide_False by lia. by apply Hne.
Qed.

(** Making room at [i] and storing [s] there inserts [s] among the first [n]. *)
Lemma insert_slot_run kl b n i s :
  fits kl n = true → (i ≤ n)%nat → (n ≤ length b)%nat →
  ∃ b1 b2, shift_loop kl b n (n - i) = Some b1 ∧ put_slot kl b1 i s = Some b2 ∧
    (S n ≤ length b2)%nat ∧ take (S n) b2 = take i b ++ s :: drop i (take n b).
Proof.
  intros Hf Hi Hn.
  destruct (shift_loop_run kl b n (n - i)) as (b1 & E1 & Hl1 & Hl1' & Hb1); [done|lia|done|].
  destruct (put_slot_run kl b1 i s) as (b2 & E2 & Hat & Hne & Hl2);
    [by eapply fits_mono; [|exact Hf]|lia|].
  exists b1, b2. assert (S n ≤ length b2)%nat as HS.
  { destruct (decide (i = n)) as [->|]; [by apply lookup_lt_Some in Hat|]. lia. }
  split_and!; [done..|]. apply list_eq. intros j.
  destruct (decide (j < S n)%nat).
  2: { rewrite !lookup_ge_None_2; [done| |].
       - rewrite length_app, length_cons, length_drop, !length_take. lia.
       - rewrite length_take. lia. }
  rewrite lookup_take_lt by lia.
  destruct (decide (j < i)%nat).
  { rewrite lookup_app_l, lookup_take_lt by (rewrite ?length_take; lia).
    rewrite Hne, Hb1 by lia. by rewrite decide_False by lia. }
  rewrite lookup_app_r, length_take, Nat.min_l by (rewrite ?length_take; lia).
  destruct (j - i)%nat as [|m] eqn:Em; simpl.
  { by replace j with i by lia. }
  rewrite lookup_drop, lookup_take_lt by lia. rewrite Hne, Hb1 by lia.
  rewrite decide_True by lia. f_equal. lia.
Qed.

Lemma append_slot_run kl b n s :
  fits kl n = true → (n ≤ length b)%nat →
  ∃ b', put_slot kl b n s = Some b' ∧ (S n ≤ length b')%nat ∧ take (S n) b' = take n b ++ [s].
Proof.
  intros Hf Hn. destruct (insert_slot_run kl b n n s) as (b1 & b2 & E1 & E2 & ? & Et); [done..|].
  rewrite Nat.sub_diag in E1. simplify_eq/=. exists b2. split_and!; [done..|].
  by rewrite Et, drop_ge by (rewrite length_take; lia).
Qed.

Lemma copy_loop_run kl src dst i1 cnt :
  fits kl (length dst + cnt) = true → (i1 + cnt ≤ length src)%nat →
  copy_loop kl src dst i1 (length dst) cnt = Some (dst ++ take cnt (drop i1 src)).
Proof.
  revert dst i1. induction cnt as [|cnt IH]; intros dst i1 Hf Hl; simpl.
  { by rewrite app_nil_r. }
  destruct (lookup_lt_is_Some_2 src i1) as [s Hs]; [lia|]. rewrite Hs. simpl.
  assert (put_slot kl dst (length dst) s = Some (dst ++ [s])) as E.
  { unfold put_slot. rewrite (fits_mono kl (length dst + S cnt) (length dst)) by (done || lia).
    by rewrite Nat.ltb_irrefl, Nat.eqb_refl. }
  rewrite E. simpl. replace (S (length dst)) with (length (dst ++ [s])) by (rewrite length_app; simpl; lia).
  rewrite IH.
  - by rewrite (drop_S _ _ _ Hs), <-app_assoc.
  - by rewrite length_app, <-Nat.add_assoc.
  - lia.
Qed.

Lemma find_child_run b q i cnt j s :
  (i ≤ j < i + cnt)%nat → b !! j = Some s → snd s = q →
  (∀ j' s', (j' < j)%nat → b !! j' = Some s' → snd s' ≠ q) →
  find_child b q i cnt = Some j.
Proof.
  revert i. induction cnt as [|cnt IH]; intros i Hij Hj Hq Hb; simpl; [lia|].
  destruct (decide (i = j)) as [->|].
  - rewrite Hj. by rewrite bool_decide_true.
  - destruct (lookup_lt_is_Some_2 b i) as [s' Hs']; [apply lookup_lt_Some in Hj; lia|].
    rewrite Hs', bool_decide_false by (eapply Hb; [|done]; lia). apply IH; [lia|done..].
Qed.

(** ** Pages *)

Definition items (pg : memfh_idx_t) : list slot := take (idx_n pg) (idx_buf pg).

(** [pg] is a branch page with separators [ks] and children [cs]. *)
Record branch_page (kl : nat) (pg : memfh_idx_t) (ks : list bytes) (cs : list ptr) : Prop := {
  bp_tp : idx_tp pg = MEMFH_BRANCH;
  bp_keylen : idx_keylen pg = kl;
  bp_n : (idx_n pg ≤ length (idx_buf pg))%nat;
  bp_ks : ks = fst <$> items pg;
  bp_cs : cs = (snd <$> items pg) ++ [idx_next pg];
}.

(** [pg] is a leaf page with items [its]. *)
Record leaf_page (kl : nat) (pg : memfh_idx_t) (its : list slot) : Prop := {
  lp_tp : idx_tp pg = MEMFH_LEAF;
  lp_keylen : idx_keylen pg = kl;
  lp_n : (idx_n pg ≤ length (idx_buf pg))%nat;
  lp_items : its = items pg;
}.

Lemma length_items pg : (idx_n pg ≤ length (idx_buf pg))%nat → length (items pg) = idx_n pg.
Proof. intros. unfold items. rewrite length_take. lia. Qed.

Lemma branch_page_len kl pg ks cs : branch_page kl pg ks cs → length ks = idx_n pg.
Proof. intros [_ _ Hn -> _]. by rewrite length_fmap, length_items. Qed.

Lemma leaf_page_len kl pg its : leaf_page kl pg its → length its = idx_n pg.
Proof. intros [_ _ Hn ->]. by rewrite length_items. Qed.

(** ** Operations on the page heap *)

Definition with_pages (s : ixst) (P : gmap ptr memfh_idx_t) : ixst :=
  mk_ix (brk s) P (root s) (path s) (pos s) (depth s) (num_writes s) (num_reads s).
Definition with_new (s : ixst) (P : gmap ptr memfh_idx_t) : ixst :=
  mk_ix (brk s + 1)%Z P (root s) (path s) (pos s) (depth s) (num_writes s) (num_reads s).

Lemma load_page_run s p pg : pages s !! p = Some pg → load_page p s = (s, inr pg).
Proof. intros H. unfold load_page. erewrite bind_ok by apply gets_run. by rewrite H. Qed.

Lemma store_page_run s p pg pg' :
  pages s !! p = Some pg → store_page p pg' s = (with_pages s (<[p := pg']> (pages s)), inr tt).
Proof. intros H. unfold store_page. by erewrite bind_ok by by apply load_page_run. Qed.

Lemma malloc_page_run s pg :
  malloc_page pg s = (with_new s (<[brk s := pg]> (pages s)), inr (brk s)).
Proof. done. Qed.

Lemma of_option_run {S A} (s : S) (a : A) o : o = Some a → of_option o s = (s, inr a).
Proof. by intros ->. Qed.

Lemma add_to_leaf_run s idx pg kl its i key record :
  pages s !! idx = Some pg → leaf_page kl pg its → fits kl (length its) = true →
  (i ≤ length its)%nat →
  ∃ pg', add_to_leaf idx i key record s = (with_pages s (<[idx := pg']> (pages s)), inr tt) ∧
    leaf_page kl pg' (take i its ++ (take kl key, record) :: drop i its).
Proof.
  intros Hp Hlp Hf Hi. pose proof (leaf_page_len _ _ _ Hlp) as Hlen.
  destruct Hlp as [Htp Hkl Hn Hits]. rewrite Hlen in Hf, Hi.
  destruct (insert_slot_run kl (idx_buf pg) (idx_n pg) i (take kl key, record))
    as (b1 & b2 & E1 & E2 & Hl & Et); [done..|].
  set (pg' := set_n (idx_n pg + 1) (set_buf b2 pg)). exists pg'. split.
  - unfold add_to_leaf. erewrite bind_ok by by apply load_page_run. cbn zeta. rewrite Hkl.
    erewrite (bind_ok _ _ _ s b1).
    2: { destruct (Nat.ltb_spec i (idx_n pg)); [by apply of_option_run|].
         replace (idx_n pg - i)%nat with 0%nat in E1 by lia. by simplify_eq/=. }
    erewrite bind_ok by by apply of_option_run. by erewrite store_page_run.
  - split; [done|done|simpl; lia|]. unfold items. simpl. rewrite Nat.add_comm. simpl.
    unfold items in Hits. rewrite Et, Hits. f_equal. rewrite take_take. f_equal. lia.
Qed.

(** The position of a child in a branch page. *)
Lemma branch_child kl pg KA KB A B x :
  branch_page kl pg (KA ++ KB) (A ++ x :: B) → length KA = length A → NoDup (A ++ x :: B) →
  (length A < idx_n pg)%nat ∧ idx_next pg ≠ x ∧
    (∃ k, idx_buf pg !! length A = Some (k, x) ∧ KB = k :: drop 1 KB) ∧
    (∀ j s, (j < length A)%nat → idx_buf pg !! j = Some s → snd s ≠ x) ∨
  length A = idx_n pg ∧ idx_next pg = x ∧ B = [] ∧ KB = [].
Proof.
  intros Hb HA Hnd. pose proof (branch_page_len _ _ _ _ Hb) as Hks.
  destruct Hb as [_ _ Hn Hbk Hbc]. pose proof (length_items _ Hn) as Hli.
  assert ((A ++ x :: B) !! length A = Some x) as Hx by by rewrite list_lookup_middle.
  assert (∀ j, (A ++ x :: B) !! j = Some x → j = length A) as Huniq.
  { intros j Hj. by eapply NoDup_lookup. }
  assert (length (A ++ x :: B) = S (idx_n pg)) as Hlc.
  { rewrite Hbc, length_app, length_fmap, Hli. simpl. lia. }
  assert (∀ j, (j < idx_n pg)%nat → (A ++ x :: B) !! j = snd <$> idx_buf pg !! j) as Hlk.
  { intros j Hj. rewrite Hbc, lookup_app_l by (rewrite length_fmap; lia).
    rewrite list_lookup_fmap. unfold items. by rewrite lookup_take_lt. }
  assert ((A ++ x :: B) !! idx_n pg = Some (idx_next pg)) as Hlast.
  { rewrite Hbc, lookup_app_r by (rewrite length_fmap; lia). by rewrite length_fmap, Hli, Nat.sub_diag. }
  rewrite length_app in Hlc. simpl in Hlc.
  destruct (decide (length A = idx_n pg)) as [E|E].
  - right. rewrite E, Hlast in Hx. rewrite length_app in Hks. simplify_eq.
    split_and!; [done|done| |]; apply length_zero_iff_nil; lia.
  - left. assert (length A < idx_n pg)%nat as Hlt by lia. split_and!; [done| | |].
    + intros En. rewrite En in Hlast. apply Huniq in Hlast. lia.
    + rewrite Hlk in Hx by done. destruct (idx_buf pg !! length A) as [[k y]|] eqn:Eb; simplify_eq/=.
      exists k. split; [done|]. assert ((KA ++ KB) !! length A = Some k) as Hk.
      { rewrite Hbk, list_lookup_fmap. unfold items. by rewrite lookup_take_lt, Eb. }
      rewrite lookup_app_r, HA, Nat.sub_diag in Hk by lia. destruct KB; simplify_eq/=. done.
    + intros j s' Hj Hs' <-. assert ((A ++ snd s' :: B) !! j = Some (snd s')) as Hj'.
      { rewrite Hlk by lia. by rewrite Hs'. }
      apply Huniq in Hj'. lia.
Qed.

Lemma fmap_take_app {X Y} (f : X → Y) (l : list X) A B :
  f <$> l = A ++ B → f <$> take (length A) l = A ∧ f <$> drop (length A) l = B.
Proof.
  intros E. rewrite fmap_take, fmap_drop, E.
  by rewrite take_app_length, drop_app_length.
Qed.

(** Rewriting slot [i] of a list of items. *)
Lemma put_slot_take kl b n i s :
  fits kl i = true → (i < n)%nat → (n ≤ length b)%nat →
  ∃ b', put_slot kl b i s = Some b' ∧ (n ≤ length b')%nat ∧
    take n b' = take i b ++ s :: drop (S i) (take n b).
Proof.
  intros Hf Hi Hn. unfold put_slot. rewrite Hf, (proj2 (Nat.ltb_lt i (length b))) by lia.
  eexists. split_and!; [done|by rewrite length_insert|].
  rewrite take_insert_lt by lia. rewrite insert_take_drop by (rewrite length_take; lia).
  by rewrite take_take, Nat.min_l by lia.
Qed.

Lemma parent_append_page kl pg b KA A idx1 idx2 k2 :
  branch_page kl pg KA (A ++ [idx1]) → (S (idx_n pg) ≤ length b)%nat →
  take (S (idx_n pg)) b = items pg ++ [(k2, idx1)] →
  branch_page kl (set_n (idx_n pg + 1) (set_next idx2 (set_buf b pg))) (KA ++ [k2]) (A ++ [idx1; idx2]).
Proof.
  intros [Htp Hk Hn -> Hbc] Hl Ht. apply app_inj_2 in Hbc as [HA _]; [|done].
  split; [done|done|simpl; lia| |]; unfold items in *; simpl; rewrite Nat.add_comm; simpl;
    rewrite Ht, fmap_app; [done|]. by rewrite <-HA, <-app_assoc.
Qed.

Lemma parent_insert_page kl pg b KA KB A B idx1 idx2 k2 k :
  branch_page kl pg (KA ++ KB) (A ++ idx1 :: B) → length KA = length A →
  (length A < idx_n pg)%nat → items pg !! length A = Some (k, idx1) →
  (S (idx_n pg) ≤ length b)%nat →
  take (S (idx_n pg)) b =
    take (length A) (items pg) ++ (k2, idx1) :: (k, idx2) :: drop (S (length A)) (items pg) →
  branch_page kl (set_n (idx_n pg + 1) (set_buf b pg)) (KA ++ k2 :: KB) (A ++ idx1 :: idx2 :: B).
Proof.
  intros [Htp Hk Hn Hbk Hbc] HA Hlt Hat Hl Ht. set (its := items pg) in *.
  pose proof (length_items _ Hn) as Hli. fold its in Hli.
  destruct (fmap_take_app _ _ _ _ (eq_sym Hbk)) as [EKA EKB]. rewrite HA in EKA, EKB.
  assert (A = snd <$> take (length A) its ∧
    B = (snd <$> drop (S (length A)) its) ++ [idx_next pg]) as [EA EB].
  { assert (snd <$> its = take (idx_n pg) (A ++ idx1 :: B)) as E.
    { rewrite Hbc, take_app_le by (rewrite length_fmap; lia).
      by rewrite take_ge by (rewrite length_fmap; lia). }
    split.
    - rewrite fmap_take, E, take_take, Nat.min_l by lia. by rewrite take_app_length.
    - pose proof (f_equal (drop (S (length A))) Hbc) as E2.
      rewrite (drop_app_le (snd <$> its)) in E2 by (rewrite length_fmap; lia).
      rewrite drop_app_ge in E2 by lia.
      replace (S (length A) - length A)%nat with 1%nat in E2 by lia.
      rewrite fmap_drop. exact E2. }
  split; [done|done|simpl; lia| |]; unfold items at 1; simpl; rewrite Nat.add_comm; simpl;
    rewrite Ht, fmap_app, !fmap_cons; simpl.
  - rewrite EKA. f_equal. f_equal. rewrite <-EKB, (drop_S _ _ _ Hat). done.
  - rewrite <-EA, <-app_assoc. f_equal. simpl. by rewrite <-EB.
Qed.

Lemma take_drop_two {X} (b L R : list X) x y z n :
  take n b = L ++ x :: y :: R → ∀ i, length L = i →
  take (S i) b ++ z :: drop (S (S i)) (take n b) = L ++ x :: z :: R.
Proof.
  intros E i <-. assert (S (length L) < n)%nat as Hn.
  { pose proof (f_equal length E) as El. rewrite length_take, length_app in El. simpl in El. lia. }
  rewrite E. replace (take (S (length L)) b) with (take (S (length L)) (take n b)).
  2: { rewrite take_take. f_equal. lia. }
  rewrite E, take_app_ge, drop_app_ge by lia.
  replace (S (length L) - length L)%nat with 1%nat by lia.
  replace (S (S (length L)) - length L)%nat with 2%nat by lia. simpl.
  by rewrite <-app_assoc.
Qed.

Lemma add_to_parent_run s parent pg kl KA KB A B idx1 idx2 pg2 s2 :
  pages s !! parent = Some pg → branch_page kl pg (KA ++ KB) (A ++ idx1 :: B) →
  length KA = length A → NoDup (A ++ idx1 :: B) → fits kl (idx_n pg) = true →
  pages s !! idx2 = Some pg2 → idx_buf pg2 !! 0%nat = Some s2 →
  ∃ pg', add_to_parent parent idx1 idx2 s = (with_pages s (<[parent := pg']> (pages s)), inr tt) ∧
    branch_page kl pg' (KA ++ fst s2 :: KB) (A ++ idx1 :: idx2 :: B).
Proof.
  intros Hp Hb HA Hnd Hf Hp2 Hs2. pose proof Hb as [Htp Hk Hn _ _].
  unfold add_to_parent. erewrite bind_ok by by apply load_page_run. cbn zeta.
  destruct (branch_child _ _ _ _ _ _ _ Hb HA Hnd) as [(Hlt & Hne & (k & Hat & _) & Hfst)|(Hlt & Heq & -> & ->)].
  - destruct (insert_slot_run kl (idx_buf pg) (idx_n pg) (length A) (fst s2, idx1))
      as (b1 & b2 & E1 & E2 & Hl2 & Et2); [done|lia|done|].
    destruct (put_slot_take kl b2 (S (idx_n pg)) (S (length A)) (k, idx2)) as (b3 & E3 & Hl3 & Et3);
      [eapply fits_mono; [|exact Hf]; lia|lia|done|].
    assert (items pg !! length A = Some (k, idx1)) as Hit by (unfold items; by rewrite lookup_take_lt).
    assert (b2 !! S (length A) = Some (k, idx1)) as Hb2.
    { rewrite <-(lookup_take_lt b2 (S (idx_n pg))) by lia. rewrite Et2.
      rewrite lookup_app_r, length_take, Nat.min_l by (rewrite ?length_take; lia).
      replace (S (length A) - length A)%nat with 1%nat by lia. simpl.
      by rewrite lookup_drop, Nat.add_0_r. }
    exists (set_n (idx_n pg + 1) (set_buf b3 pg)). split.
    + rewrite bool_decide_false by done.
      erewrite bind_ok.
      2: { rewrite (find_child_run _ _ 0 (idx_n pg) (length A) (k, idx1)) by (done || lia).
           erewrite bind_ok by by apply load_page_run.
           erewrite bind_ok by by apply of_option_run.
           erewrite bind_ok by (rewrite Hk; by apply of_option_run).
           erewrite bind_ok by (rewrite Hk; by apply of_option_run).
           erewrite bind_ok by by apply of_option_run.
           erewrite bind_ok by (rewrite Hk; by apply of_option_run).
           by erewrite store_page_run. }
      erewrite bind_ok by (apply load_page_run; apply lookup_insert_eq).
      erewrite store_page_run by apply lookup_insert_eq. unfold with_pages. simpl.
      by rewrite insert_insert_eq.
    + eapply parent_insert_page; [done|done|done|exact Hit|done|]. rewrite Et3.
      assert (drop (length A) (take (idx_n pg) (idx_buf pg)) =
        (k, idx1) :: drop (S (length A)) (items pg)) as Ed by exact (drop_S _ _ _ Hit).
      rewrite Ed in Et2. assert (take (length A) (idx_buf pg) = take (length A) (items pg)) as Et0.
      { unfold items. by rewrite take_take, Nat.min_l by lia. }
      rewrite Et0 in Et2. apply (take_drop_two _ _ _ _ _ _ _ Et2).
      rewrite length_take, length_items by done. lia.
  - destruct (append_slot_run kl (idx_buf pg) (idx_n pg) (fst s2, idx1)) as (b' & E & Hl & Et);
      [done..|].
    exists (set_n (idx_n pg + 1) (set_next idx2 (set_buf b' pg))). split.
    + rewrite bool_decide_true by done.
      erewrite bind_ok.
      2: { erewrite bind_ok by by apply load_page_run.
           erewrite bind_ok by by apply of_option_run.
           erewrite bind_ok by (rewrite Hk; by apply of_option_run).
           by erewrite store_page_run. }
      erewrite bind_ok by (apply load_page_run; apply lookup_insert_eq).
      erewrite store_page_run by apply lookup_insert_eq. unfold with_pages. simpl.
      by rewrite insert_insert_eq.
    + rewrite app_nil_r in Hb. by eapply parent_append_page.
Qed.

Lemma copy_half kl pg n1 :
  fits kl (idx_n pg) = true → (idx_n pg ≤ length (idx_buf pg))%nat → (n1 ≤ idx_n pg)%nat →
  copy_loop kl (idx_buf pg) [] n1 0 (idx_n pg - n1) = Some (drop n1 (items pg)).
Proof.
  intros Hf Hn Hn1. pose proof (copy_loop_run kl (idx_buf pg) [] n1 (idx_n pg - n1)) as H.
  simpl in H. rewrite H; [|by eapply fits_mono; [|exact Hf]; lia|lia].
  f_equal. unfold items. rewrite skipn_firstn_comm. done.
Qed.

Lemma split_branch_run s idx1 pg kl ks cs :
  pages s !! idx1 = Some pg → branch_page kl pg ks cs → fits kl (idx_n pg) = true →
  (2 ≤ idx_n pg)%nat → pages s !! brk s = None →
  ∃ pg1 pg2, split_branch idx1 s =
      (with_new s (<[idx1 := pg1]> (<[brk s := pg2]> (pages s))), inr (brk s)) ∧
    let n1 := (length ks / 2)%nat in
    branch_page kl pg1 (take n1 ks) (take n1 cs ++ [brk s]) ∧
    branch_page kl pg2 (drop n1 ks) (drop n1 cs).
Proof.
  intros Hp Hb Hf H2 Hfr. pose proof (branch_page_len _ _ _ _ Hb) as Hlen.
  destruct Hb as [Htp Hk Hn Eks Ecs]. rewrite Hlen. cbn zeta.
  set (n1 := (idx_n pg / 2)%nat).
  assert (n1 < idx_n pg)%nat as Hn1 by (apply Nat.div_lt; lia).
  pose proof (length_items _ Hn) as Hli. assert (idx1 ≠ brk s) as Hne by congruence.
  set (pg2 := mk_page MEMFH_BRANCH kl (idx_n pg - n1) (idx_next pg) (drop n1 (items pg))).
  exists (set_next (brk s) (set_n n1 pg)), pg2. split_and!.
  - unfold split_branch. erewrite bind_ok by by apply load_page_run. cbn zeta. fold n1.
    erewrite bind_ok by (rewrite Hk; apply of_option_run; by apply copy_half; lia || done).
    erewrite bind_ok by apply malloc_page_run.
    erewrite bind_ok by (eapply store_page_run; simpl; by rewrite lookup_insert_ne).
    by rewrite Hk.
  - split; [done|done|simpl; lia| |]; unfold items in *; simpl.
    + by rewrite Eks, <-fmap_take, take_take, Nat.min_l by lia.
    + rewrite Ecs, take_app_le by (rewrite length_fmap; lia).
      by rewrite <-fmap_take, take_take, Nat.min_l by lia.
  - assert (take (idx_n pg - n1) (drop n1 (items pg)) = drop n1 (items pg)) as E.
    { apply take_ge. rewrite length_drop. lia. }
    split; [done|done|simpl; rewrite length_drop; lia| |]; unfold items at 1; simpl; rewrite E.
    + by rewrite Eks, fmap_drop.
    + by rewrite Ecs, drop_app_le, fmap_drop by (rewrite length_fmap; lia).
Qed.

Lemma split_leaf_run s idx pg kl its :
  pages s !! idx = Some pg → leaf_page kl pg its → fits kl (idx_n pg) = true →
  (2 ≤ idx_n pg)%nat → pages s !! brk s = None →
  ∃ pg1 pg2, split_leaf idx s =
      (with_new s (<[idx := pg1]> (<[brk s := pg2]> (pages s))), inr (brk s)) ∧
    let n1 := (length its / 2)%nat in
    leaf_page kl pg1 (take n1 its) ∧ leaf_page kl pg2 (drop n1 its).
Proof.
  intros Hp Hb Hf H2 Hfr. pose proof (leaf_page_len _ _ _ Hb) as Hlen.
  destruct Hb as [Htp Hk Hn Eits]. rewrite Hlen. cbn zeta.
  set (n1 := (idx_n pg / 2)%nat).
  assert (n1 < idx_n pg)%nat as Hn1 by (apply Nat.div_lt; lia).
  pose proof (length_items _ Hn) as Hli. assert (idx ≠ brk s) as Hne by congruence.
  set (pg2 := mk_page MEMFH_LEAF kl (idx_n pg - n1) 0 (drop n1 (items pg))).
  exists (set_n n1 pg), pg2. split_and!.
  - unfold split_leaf. erewrite bind_ok by by apply load_page_run. cbn zeta. fold n1.
    erewrite bind_ok by (rewrite Hk; apply of_option_run; by apply copy_half; lia || done).
    erewrite bind_ok by apply malloc_page_run.
    erewrite bind_ok by (eapply store_page_run; simpl; by rewrite lookup_insert_ne).
    by rewrite Hk.
  - split; [done|done|simpl; lia|]; unfold items in *; simpl.
    by rewrite Eits, take_take, Nat.min_l by lia.
  - split; [done|done|simpl; rewrite length_drop; lia|]. unfold items at 1. simpl.
    rewrite take_ge by (rewrite length_drop; lia). by rewrite Eits.
Qed.

Definition with_root (s : ixst) (r : ptr) : ixst :=
  mk_ix (brk s) (pages s) r (path s) (pos s) (depth s) (num_writes s) (num_reads s).

Lemma new_root_run s idx1 idx2 pg1 pg2 s2 kl :
  pages s !! idx1 = Some pg1 → idx_keylen pg1 = kl → (kl ≤ 256)%nat →
  pages s !! idx2 = Some pg2 → idx_buf pg2 !! 0%nat = Some s2 →
  ∃ pg, new_root idx1 idx2 s = (with_root (with_new s (<[brk s := pg]> (pages s))) (brk s), inr tt) ∧
    branch_page kl pg [fst s2] [idx1; idx2].
Proof.
  intros H1 Hk Hkl H2 Hs2.
  exists (mk_page MEMFH_BRANCH kl 1 idx2 [(fst s2, idx1)]). split.
  - unfold new_root. erewrite bind_ok by by apply load_page_run.
    erewrite bind_ok by by apply load_page_run.
    erewrite bind_ok by by apply of_option_run.
    erewrite (bind_ok _ _ _ _ [(fst s2, idx1)]).
    2: { apply of_option_run. unfold put_slot. rewrite Hk, max_items_fits; [done|done|lia]. }
    erewrite bind_ok by apply malloc_page_run. by rewrite Hk.
  - by split.
Qed.
