(* ===== verification/MemfhInv.v ===== *)
(** The page index of src/memfh_idx.c implements an ordered list of items: its
    invariant relates the page heap to a tree of MemfhTree.v, every operation
    keeps it, searches find the owner leaf, writes insert in key order and a scan
    visits the items in order. *)

From stdpp Require Import prelude gmap strings sorting.
From S2P Require Import Prelude MemfhIdx MemfhTree MemfhPage.

(** The items of all leaves, in key order. *)
Definition entries (ch : list leaf) : list slot := ch ≫= l_items.

(** The page heap holds the branches [T] and the leaves [ch]; every page but
    [full] has room for another item. *)
Record repr (kl : nat) (s : ixst) (T : gmap ptr branch) (ch : list leaf)
    (full : option ptr) : Prop := {
  r_branch : ∀ p ks cs, T !! p = Some (ks, cs) →
    ∃ pg, pages s !! p = Some pg ∧ branch_page kl pg ks cs ∧
      (idx_n pg < MEMFH_MAX_ITEMS kl ∨ idx_n pg = MEMFH_MAX_ITEMS kl ∧ full = Some p)%nat;
  r_leaf : ∀ l, l ∈ ch →
    ∃ pg, pages s !! l_ptr l = Some pg ∧ leaf_page kl pg (l_items l) ∧
      (idx_n pg < MEMFH_MAX_ITEMS kl)%nat;
  r_brk : ∀ p, (brk s ≤ p)%Z → pages s !! p = None;
}.

Record index_inv (kl : nat) (s : ixst) (T : gmap ptr branch) (ch : list leaf)
    (order : list ptr) (full : option ptr) : Prop := {
  i_kl : (kl ≤ 256)%nat;
  i_repr : repr kl s T ch full;
  i_tree : tree_ok T ch kl order (root s);
  i_nonempty : order = [] ∨ Forall (λ l, l_items l ≠ []) ch;
}.

(** ** Search *)

(** The number of items with a smaller key. *)
Fixpoint lower_ix {A} (κ : bytes) (its : list (bytes * A)) : nat :=
  match its with
  | [] => 0
  | s :: its' => match lex_cmp κ (fst s) with Gt => S (lower_ix κ its') | _ => 0 end
  end.

Definition has_key (κ : bytes) (its : list slot) : bool :=
  bool_decide (κ ∈ fst <$> its).

Definition with_cursor (s : ixst) (P : gmap nat ptr) (Q : gmap nat nat) (d : nat) : ixst :=
  mk_ix (brk s) (pages s) (root s) P Q d (num_writes s) (num_reads s).

Lemma set_path_run s d p :
  (d < 16)%nat → set_path d p s = (with_cursor s (<[d := p]> (path s)) (pos s) (depth s), inr tt).
Proof.
  intros Hd. unfold set_path. rewrite (proj2 (Nat.ltb_lt d MEMFH_MAX_DEPTH)) by exact Hd. done.
Qed.

Lemma set_pos_run s d i :
  (d < 16)%nat → set_pos d i s = (with_cursor s (path s) (<[d := i]> (pos s)) (depth s), inr tt).
Proof.
  intros Hd. unfold set_pos. rewrite (proj2 (Nat.ltb_lt d MEMFH_MAX_DEPTH)) by exact Hd. done.
Qed.

Lemma set_depth_run s d : set_depth d s = (with_cursor s (path s) (pos s) d, inr tt).
Proof. done. Qed.

(** The scan of a branch page stops at the first greater separator. *)
Lemma scan_branch s d pg kl ks cs key κ i c :
  branch_page kl pg ks cs → Forall (λ k, length k = kl) ks → take kl key = κ →
  (kl ≤ length key)%nat → (d < 16)%nat → (i ≤ length ks)%nat →
  ∃ Q r, scan_loop d pg key i (length ks - i) c s = (with_cursor s (path s) Q (depth s), inr r) ∧
    (∀ j, <[d := j]> Q = <[d := j]> (pos s)) ∧
    let j := (i + pick_ix κ (drop i ks))%nat in
    if decide (j < length ks)%nat
    then r = ScanLt j (default 0%Z (cs !! j)) ∧ Q = <[d := j]> (pos s)
    else ∃ c', r = ScanEnd c'.
Proof.
  intros Hb Hks Hκ Hlen Hd.
  remember (length ks - i)%nat as cnt eqn:Ecnt. revert s i c Ecnt.
  induction cnt as [|cnt IH]; intros s i c Ecnt Hi.
  { exists (pos s), (ScanEnd c). split_and!; [by destruct s|done|]. cbn zeta.
    rewrite drop_ge by lia. simpl. rewrite decide_False by lia. by eexists. }
  destruct (lookup_lt_is_Some_2 ks i) as [k Hk]; [lia|].
  pose proof Hb as [Htp Hkl Hn Eks Ecs]. pose proof (branch_page_len _ _ _ _ Hb) as Hln.
  assert (∃ y, idx_buf pg !! i = Some (k, y) ∧ cs !! i = Some y) as (y & Hbuf & Hy).
  { rewrite Eks, list_lookup_fmap in Hk. unfold items in Hk. rewrite lookup_take_lt in Hk by lia.
    destruct (idx_buf pg !! i) as [[k0 y]|] eqn:E; simplify_eq/=. exists y. split; [done|].
    rewrite lookup_app_l, list_lookup_fmap by (rewrite length_fmap, length_items; lia).
    unfold items. by rewrite lookup_take_lt, E by lia. }
  simpl scan_loop. erewrite bind_ok by by apply of_option_run. simpl fst.
  assert (length k = kl) as Hkk by (by eapply Forall_lookup_1 in Hks).
  assert (memcmp key k (idx_keylen pg) = lex_cmp κ k) as Hcmp.
  { rewrite Hkl, <-Hκ. unfold memcmp. by rewrite (take_ge k) by lia. }
  cbn [fst snd]. rewrite Hcmp. cbn zeta. rewrite (drop_S _ _ _ Hk). cbn [pick_ix].
  destruct (lex_cmp κ k) eqn:E.
  - rewrite (bind_ok _ _ _ _ _ (set_pos_run s d i Hd)), Htp, bool_decide_false by done.
    destruct (IH (with_cursor s (path s) (<[d:=i]> (pos s)) (depth s)) (S i) Eq) as (Q & r & Hr & HQ & HR);
      [lia|lia|]. exists Q, r. split_and!; [exact Hr| |].
    + intros j. rewrite HQ. simpl. by rewrite insert_insert_eq.
    + cbn zeta in HR. rewrite Nat.add_succ_r. simpl in HR. destruct (decide _); [|done].
      destruct HR as [-> ->]. split; [done|]. by rewrite insert_insert_eq.
  - rewrite (bind_ok _ _ _ _ _ (set_pos_run s d i Hd)).
    eexists _, _. split_and!; [done|intros j; by rewrite insert_insert_eq|].
    rewrite Nat.add_0_r, decide_True by lia. by rewrite Hy.
  - destruct (IH s (S i) Gt) as (Q & r & Hr & HQ & HR); [lia|lia|]. exists Q, r.
    split_and!; [exact Hr|exact HQ|]. cbn zeta in HR. by rewrite Nat.add_succ_r.
Qed.

(** The scan of a leaf page stops at the key or at the first greater one. *)
Lemma scan_leaf s d pg kl its key κ i :
  leaf_page kl pg its → Forall (λ s, length (fst s) = kl) its → take kl key = κ →
  (d < 16)%nat → (i ≤ length its)%nat →
  let j := (i + lower_ix κ (drop i its))%nat in
  ∃ Q r, scan_loop d pg key i (length its - i) Gt s = (with_cursor s (path s) Q (depth s), inr r) ∧
    match its !! j with
    | Some x => Q = <[d := j]> (pos s) ∧
        (if bool_decide (fst x = κ) then r = ScanEq j else r = ScanLt j (snd x))
    | None => r = ScanEnd Gt ∧ Q = pos s ∧ j = length its
    end.
Proof.
  intros Hlp Hits Hκ Hd. remember (length its - i)%nat as cnt eqn:Ecnt. revert i Ecnt.
  induction cnt as [|cnt IH]; intros i Ecnt Hi; cbn zeta.
  { exists (pos s), (ScanEnd Gt). split; [by destruct s|].
    rewrite drop_ge, Nat.add_0_r, lookup_ge_None_2 by lia. simpl. split_and!; [done|done|lia]. }
  destruct (lookup_lt_is_Some_2 its i) as [[k y] Hk]; [lia|].
  pose proof Hlp as [Htp Hkl Hn Eits]. pose proof (leaf_page_len _ _ _ Hlp) as Hln.
  assert (idx_buf pg !! i = Some (k, y)) as Hbuf.
  { rewrite Eits in Hk. unfold items in Hk. by rewrite lookup_take_lt in Hk by lia. }
  simpl scan_loop. erewrite bind_ok by by apply of_option_run. cbn [fst snd].
  assert (length k = kl) as Hkk by exact (Forall_lookup_1 _ _ _ _ Hits Hk).
  assert (memcmp key k (idx_keylen pg) = lex_cmp κ k) as Hcmp.
  { rewrite Hkl, <-Hκ. unfold memcmp. by rewrite (take_ge k) by lia. }
  rewrite Hcmp. rewrite (drop_S _ _ _ Hk). cbn [lower_ix fst].
  destruct (lex_cmp κ k) eqn:E.
  - rewrite (bind_ok _ _ _ _ _ (set_pos_run s d i Hd)), Htp, bool_decide_true by done.
    eexists _, _. split; [done|]. rewrite Nat.add_0_r, Hk. split; [done|].
    apply lex_cmp_eq in E. by rewrite bool_decide_true.
  - rewrite (bind_ok _ _ _ _ _ (set_pos_run s d i Hd)).
    eexists _, _. split; [done|]. rewrite Nat.add_0_r, Hk. split; [done|].
    rewrite bool_decide_false; [done|]. simpl. intros ->. by rewrite lex_cmp_refl in E.
  - destruct (IH (S i)) as (Q & r & Hr & HR); [lia|lia|]. exists Q, r.
    split; [exact Hr|]. by rewrite Nat.add_succ_r.
Qed.

Lemma lower_ix_le {A} κ (its : list (bytes * A)) : (lower_ix κ its ≤ length its)%nat.
Proof. induction its as [|s its IH]; simpl; [done|]. destruct (lex_cmp κ (fst s)); lia. Qed.

Lemma lower_ix_key κ its : keys_sorted its →
  has_key κ its = true ↔ ∃ x, its !! lower_ix κ its = Some x ∧ fst x = κ.
Proof.
  unfold has_key, keys_sorted. rewrite bool_decide_eq_true.
  induction its as [|s its IH]; simpl; intros Hs.
  { split; [by intros ?%not_elem_of_nil|by intros (? & ? & _)]. }
  inversion Hs as [|? ? Hs' Hall]; subst. rewrite elem_of_cons.
  destruct (lex_cmp κ (fst s)) eqn:E; simpl.
  - apply lex_cmp_eq in E. split; [|by left]. intros _. by exists s.
  - split.
    + intros [->|Hin]; [by rewrite lex_cmp_refl in E|]. exfalso.
      rewrite Forall_forall in Hall. apply (irreflexivity lex_lt κ). etrans; [exact E|]. auto.
    + intros (x & [= <-] & Hx). by left.
  - rewrite <-IH by done. split; [|by right]. intros [->|?]; [by rewrite lex_cmp_refl in E|done].
Qed.

(** [memfh_idx_search_page] returns 0, -1 or 1. *)
Definition search_result (κ : bytes) (its : list slot) : Z :=
  if has_key κ its then 0
  else if (lower_ix κ its <? length its)%nat then -1 else 1.

(** The cursor arrays hold the path [π] from level [d] and end at [l], [i]. *)
Definition cursor_at (P : gmap nat ptr) (Q : gmap nat nat) (d : nat) (π : list (ptr * nat))
    (x : ptr) (i : nat) : Prop :=
  (∀ j p a, π !! j = Some (p, a) → P !! (d + j)%nat = Some p ∧ Q !! (d + j)%nat = Some a) ∧
  P !! (d + length π)%nat = Some x ∧ Q !! (d + length π)%nat = Some i.

Lemma search_page_run kl s T ch order full key κ x π l fuel d :
  index_inv kl s T ch order full → take kl key = κ → (kl ≤ length key)%nat →
  route T ch κ x π l → (d + length π < 16)%nat → (length π < fuel)%nat →
  path s !! d = Some x → depth s = d →
  ∃ P Q, memfh_idx_search_page fuel x key s =
      (with_cursor s P Q (d + length π), inr (search_result κ (l_items l))) ∧
    cursor_at P Q d π (l_ptr l) (lower_ix κ (l_items l)) ∧
    ∀ j, (j < d)%nat → P !! j = path s !! j ∧ Q !! j = pos s !! j.
Proof.
  intros [Hkl [Hbr Hlf _] Htr _] Hκ Hlen Hr. revert s Hbr Hlf fuel d Htr.
  induction Hr as [l Hl Hown|p ks cs x π l Hp Hx Hr IH]; intros s Hbr Hlf fuel d Htr Hd Hfuel Hpath Hdep;
    (destruct fuel as [|fuel]; [lia|]); simpl memfh_idx_search_page; simpl length in *.
  - rewrite Nat.add_0_r in *. destruct (Hlf l Hl) as (pg & Hpg & Hlp & _).
    pose proof (t_leaves _ _ _ _ _ Htr) as Hlok. rewrite Forall_forall in Hlok.
    destruct (Hlok l Hl) as [Hsort Hlens Hownk]. pose proof Hlp as [Htp _ _ _].
    erewrite bind_ok by by apply load_page_run. rewrite (bind_ok _ _ _ _ _ (gets_run _ _)), Hdep.
    rewrite <-(leaf_page_len _ _ _ Hlp).
    destruct (scan_leaf s d pg kl (l_items l) key κ 0) as (Q & r & Hscan & HR); [done..|lia|].
    rewrite Nat.sub_0_r in Hscan. rewrite (bind_ok _ _ _ _ _ Hscan). rewrite drop_0, Nat.add_0_l in HR.
    pose proof (lower_ix_key κ (l_items l) Hsort) as Hkey. unfold search_result.
    assert (∀ i (Q : gmap nat nat), cursor_at (path s) (<[d := i]> Q) d [] (l_ptr l) i) as Hcur.
    { intros i Q0. split; [by intros j p a|]. simpl. rewrite Nat.add_0_r, lookup_insert_eq. done. }
    assert (∀ (i j : nat) (Q : gmap nat nat), (j < d)%nat → path s !! j = path s !! j ∧ <[d := i]> Q !! j = Q !! j) as Hpre.
    { intros. rewrite lookup_insert_ne by lia. done. }
    destruct (l_items l !! lower_ix κ (l_items l)) as [[k y]|] eqn:Eat.
    + destruct HR as [-> HR]. rewrite (proj2 (Nat.ltb_lt _ _)) by (by eapply lookup_lt_Some).
      destruct (bool_decide_reflect (k = κ)) as [Ek|Ek]; simpl in HR.
      * rewrite (bool_decide_true _ Ek) in HR. subst r.
        eexists _, _. split; [|split; [apply Hcur|auto]].
        rewrite (proj2 Hkey) by (by eexists). simpl. by rewrite Hdep.
      * rewrite (bool_decide_false _ Ek) in HR. subst r.
        rewrite Htp, bool_decide_true by done. eexists _, _. split; [|split; [apply Hcur|auto]].
        destruct (has_key κ (l_items l)); [|by rewrite Hdep].
        destruct (proj1 Hkey eq_refl) as (z & ? & ?). by simplify_eq/=.
    + destruct HR as (-> & -> & EL). rewrite (proj2 (Nat.ltb_ge _ _)) by lia.
      rewrite (bind_ok _ _ _ _ _ (set_pos_run _ d _ Hd)), Htp, bool_decide_true by done.
      eexists _, _. split; [|split; [rewrite EL; apply Hcur|auto]].
      destruct (has_key κ (l_items l)); [|by rewrite Hdep].
      destruct (proj1 Hkey eq_refl) as (z & ? & ?). by simplify_eq/=.
  - destruct (Hbr p ks cs Hp) as (pg & Hpg & Hbp & _). pose proof Hbp as [Htp Hk _ Eks Ecs].
    pose proof (t_branch _ _ _ _ _ Htr _ _ _ Hp) as Bp.
    erewrite bind_ok by by apply load_page_run. rewrite (bind_ok _ _ _ _ _ (gets_run _ _)), Hdep.
    pose proof (branch_page_len _ _ _ _ Hbp) as Hln. rewrite <-Hln.
    destruct (scan_branch s d pg kl ks cs key κ 0 Gt) as (Q & r & Hscan & HQ & HR);
      [done|apply Bp|done|done|lia|lia|].
    rewrite Nat.sub_0_r in Hscan. rewrite (bind_ok _ _ _ _ _ Hscan). cbn zeta in HR.
    rewrite drop_0, Nat.add_0_l in HR.
    pose proof (pick_ix_le κ ks) as Hple.
    assert (∃ s1 (a : nat) nx, a = pick_ix κ ks ∧ Some nx = cs !! a ∧
      path s1 = <[S d := nx]> (path s) ∧ (∀ j, (j ≤ d)%nat → pos s1 !! j = <[d := a]> (pos s) !! j) ∧
      depth s1 = S d ∧ s1 = with_cursor s (path s1) (pos s1) (S d) ∧
      (match r with
      | ScanEq _ => mret 0%Z
      | ScanLt _ child =>
          if bool_decide (idx_tp pg = MEMFH_LEAF) then mret (-1)%Z
          else set_depth (d + 1);; set_path (d + 1) child;; memfh_idx_search_page fuel child key
      | ScanEnd c =>
          set_pos d (length ks);;
          if bool_decide (idx_tp pg = MEMFH_LEAF) then mret (sign c)
          else
            set_depth (d + 1);; set_pos (d + 1) 0;; set_path (d + 1) (idx_next pg);;
            memfh_idx_search_page fuel (idx_next pg) key
      end) (with_cursor s (path s) Q (depth s)) = memfh_idx_search_page fuel nx key s1)
      as (s1 & a & nx & -> & Hnx & Hp1 & Hq1 & Hd1 & Hs1 & Hrun).
    { destruct (decide (pick_ix κ ks < length ks)%nat) as [Hlt|Hge].
      - destruct HR as [-> ->].
        exists (with_cursor s (<[S d := x]> (path s)) (<[d := pick_ix κ ks]> (pos s)) (S d)).
        exists (pick_ix κ ks), x. rewrite Hx. split_and!; try done.
        rewrite Htp, bool_decide_false by done.
        erewrite bind_ok by apply set_depth_run. erewrite bind_ok by (apply set_path_run; lia).
        simpl. by rewrite Nat.add_1_r.
      - destruct HR as [c' ->].
        exists (with_cursor s (<[S d := idx_next pg]> (path s)) (<[S d := 0%nat]> (<[d := pick_ix κ ks]> Q)) (S d)).
        exists (pick_ix κ ks), (idx_next pg). split_and!; [done| |done| |done|done|].
        + rewrite Ecs, lookup_app_r; rewrite length_fmap, length_items by apply Hbp; [|lia].
          by replace (pick_ix κ ks - idx_n pg)%nat with 0%nat by lia.
        + intros j Hj. simpl. rewrite lookup_insert_ne by lia. by rewrite HQ.
        + erewrite bind_ok by (apply set_pos_run; lia).
          rewrite Htp, bool_decide_false by done.
          erewrite bind_ok by apply set_depth_run. erewrite bind_ok by (apply set_pos_run; lia).
          erewrite bind_ok by (apply set_path_run; lia).
          simpl. rewrite Nat.add_1_r. by replace (pick_ix κ ks) with (length ks) by lia. }
    assert (nx = x) as -> by congruence. rewrite Hrun.
    destruct (IH s1) with (fuel := fuel) (d := S d) as (P & R & Hrun1 & Hcur & Hpre).
    + rewrite Hs1. done.
    + rewrite Hs1. done.
    + rewrite Hs1. done.
    + lia.
    + lia.
    + rewrite Hp1. by rewrite lookup_insert_eq.
    + done.
    + exists P, R. split_and!.
      * rewrite Hrun1, Hs1. unfold with_cursor. simpl. repeat f_equal. lia.
      * destruct Hcur as (H1 & H2 & H3). split_and!.
        -- intros [|j] q a Hj; simpl in Hj.
           ++ injection Hj as <- <-. rewrite Nat.add_0_r. destruct (Hpre d) as [E1 E2]; [lia|].
              rewrite E1, E2, Hp1, Hq1, lookup_insert_ne by lia. by rewrite lookup_insert_eq.
           ++ rewrite Nat.add_succ_r. by apply (H1 j q a).
        -- rewrite length_cons, Nat.add_succ_r. exact H2.
        -- rewrite length_cons, Nat.add_succ_r. exact H3.
      * intros j Hj. destruct (Hpre j) as [E1 E2]; [lia|].
        rewrite E1, E2, Hp1, Hq1, !lookup_insert_ne by lia. done.
Qed.

(** ** Paths from the root *)

(** [π] leads from page [x] to page [y], through child [a] of each page [p]. *)
Fixpoint descent (T : gmap ptr branch) (x : ptr) (π : list (ptr * nat)) (y : ptr) : Prop :=
  match π with
  | [] => x = y
  | (p, a) :: π' => x = p ∧ ∃ ks cs x', T !! p = Some (ks, cs) ∧ cs !! a = Some x' ∧ descent T x' π' y
  end.

Lemma route_descent T ch κ x π l : route T ch κ x π l → descent T x π (l_ptr l).
Proof. induction 1; simpl; [done|]. split; [done|]. eauto 10. Qed.

Lemma route_owns T ch κ x π l : route T ch κ x π l → l ∈ ch ∧ owns l κ.
Proof. by induction 1. Qed.

Section paths.
  Context {T : gmap ptr branch} {ch : list leaf} {kl : nat} {order : list ptr} {root : ptr}.
  Hypothesis (Hok : tree_ok T ch kl order root).

(** A descent passes each branch page once. *)
Lemma descent_length x π y : descent T x π y → (length π ≤ length order)%nat.
Proof using Hok.
  assert (∀ π x pre rest, order = pre ++ x :: rest → descent T x π y →
    (length π ≤ S (length rest))%nat) as H.
  { clear π x. induction π as [|[p a] π IH]; intros x pre rest Ho; simpl; [lia|].
    intros (<- & ks & cs & x' & Hx & Hx' & Hd).
    destruct π as [|[p' a'] π']; [simpl; lia|].
    destruct Hd as (<- & ks' & cs' & x'' & Hp' & Hd).
    destruct (br_kids _ _ _ _ _ _ (t_branch _ _ _ _ _ Hok _ _ _ Hx) x') as [Hl|Hlt].
    - by eapply list_elem_of_lookup_2.
    - by destruct (branch_not_leaf Hok _ _ Hp').
    - pose proof (order_nodup Hok) as Hnd. rewrite Ho in Hlt, Hnd.
      apply (later_split _ _ _ _ Hnd) in Hlt. apply list_elem_of_split in Hlt as (r1 & r2 & ->).
      assert (length ((x', a') :: π') ≤ S (length r2))%nat as HL.
      { apply (IH x' (pre ++ x :: r1)).
        - rewrite Ho, <-app_assoc. done.
        - simpl. eauto 10. }
      rewrite length_app in *. simpl in *. lia. }
  intros Hd. destruct π as [|[p a] π]; simpl; [lia|].
  destruct Hd as (<- & ks & cs & x' & Hx & Hd).
  destruct (branch_split Hok _ _ Hx) as (pre & rest & Ho).
  specialize (H ((x, a) :: π) x pre rest Ho). simpl in H. rewrite Ho, length_app. simpl.
  assert (S (length π) ≤ S (length rest))%nat; [|lia]. apply H. eauto 10.
Qed.

Lemma descent_app x π y : descent T x π y ↔
  ∀ π1 π2, π = π1 ++ π2 → ∃ z, descent T x π1 z ∧ descent T z π2 y.
Proof using.
  split.
  - revert x. induction π as [|[p a] π IH]; intros x Hd π1 π2 E.
    + symmetry in E. apply app_nil in E as [-> ->]. simpl in *. subst. by exists y.
    + destruct π1 as [|q π1]; simpl in E.
      * subst π2. exists x. done.
      * injection E as <- E. destruct Hd as (<- & ks & cs & x' & Hx & Hx' & Hd).
        destruct (IH _ Hd _ _ E) as (z & H1 & H2). exists z. simpl. split; [|done]. eauto 10.
  - intros H. destruct (H [] π eq_refl) as (z & Hz & ?). simpl in Hz. by subst.
Qed.

Lemma descent_snoc x π p a y ks cs :
  descent T x π p → T !! p = Some (ks, cs) → cs !! a = Some y → descent T x (π ++ [(p, a)]) y.
Proof using.
  revert x. induction π as [|[q b] π IH]; intros x; simpl.
  - intros -> Hp Ha. split; [done|]. eauto 10.
  - intros (<- & ks' & cs' & x' & ? & ? & Hd) Hp Ha. split; [done|]. exists ks', cs', x'. auto.
Qed.

End paths.

(** ** The index as an ordered list of items *)

(** Separators in the branch pages of [order]. *)
Definition nkeys (T : gmap ptr branch) (p : ptr) : nat :=
  match T !! p with Some (ks, _) => length ks | None => 0%nat end.
Fixpoint sumk (T : gmap ptr branch) (order : list ptr) : nat :=
  match order with [] => 0 | p :: order' => nkeys T p + sumk T order' end.

(** Pages are at least half full, but for the root, and every new page adds at most
    one separator; [δ] counts a page that its parent does not reference yet. *)
Record fill (h δ : nat) (T : gmap ptr branch) (ch : list leaf) (order : list ptr) : Prop := {
  f_leaf : order = [] ∨ Forall (λ l, h ≤ length (l_items l))%nat ch;
  f_branch : ∀ p ks cs, T !! p = Some (ks, cs) → p ∈ tail order → (h ≤ length ks)%nat;
  f_sum : order ≠ [] → (sumk T order + 2 + δ ≤ length ch + length order)%nat;
}.

Definition half (kl : nat) : nat := (MEMFH_MAX_ITEMS kl / 2)%nat.

Definition sized (kl : nat) (T : gmap ptr branch) (ch : list leaf) (order : list ptr) (nb : nat) : Prop :=
  length order = nb ∧ fill (half kl) 0 T ch order.

(** The state holds the items [its], in key order, in [nb] branch pages. *)
Definition is_index_nb (kl : nat) (s : ixst) (its : list slot) (nb : nat) : Prop :=
  ∃ T ch order, index_inv kl s T ch order None ∧ entries ch = its ∧ sized kl T ch order nb.

(** The cursor of [s] stands at position [i] of the items, which is position [a]
    of a leaf of [n] items. *)
Definition cursor_in (kl : nat) (s : ixst) (its : list slot) (nb i a n : nat) : Prop :=
  ∃ T C1 l C2 order π,
    index_inv kl s T (C1 ++ l :: C2) order None ∧ entries (C1 ++ l :: C2) = its ∧
    sized kl T (C1 ++ l :: C2) order nb ∧
    descent T (root s) π (l_ptr l) ∧ cursor_at (path s) (pos s) 0 π (l_ptr l) a ∧
    depth s = length π ∧ length (l_items l) = n ∧ i = (length (entries C1) + a)%nat.

Definition cursor_nb kl s its nb i : Prop := ∃ a n, cursor_in kl s its nb i a n ∧ (a ≤ n)%nat.
Definition on_item_nb kl s its nb i : Prop := ∃ a n, cursor_in kl s its nb i a n ∧ (a < n)%nat.

(** The abstract state of an index: its items, in key order. *)
Definition is_index (kl : nat) (s : ixst) (its : list slot) : Prop := ∃ nb, is_index_nb kl s its nb.

(** A cursor between items, possibly at the end of a leaf. *)
Definition cursor kl s its i : Prop := ∃ nb, cursor_nb kl s its nb i.

(** A cursor on item [i]. *)
Definition on_item kl s its i : Prop := ∃ nb, on_item_nb kl s its nb i.

(** The items an index holds without a search or scan overflowing the path array. *)
Definition capacity (kl : nat) : nat := (half kl * (15 * half kl - 13))%nat.

Lemma sumk_lower h T order :
  (∀ p, p ∈ order → ∃ ks cs, T !! p = Some (ks, cs) ∧ (h ≤ length ks)%nat) →
  (h * length order ≤ sumk T order)%nat.
Proof.
  induction order as [|p order IH]; intros H; simpl length; [lia|]. rewrite Nat.mul_succ_r.
  destruct (H p) as (ks & cs & Hp & Hh); [set_solver|]. simpl. unfold nkeys. rewrite Hp.
  assert (h * length order ≤ sumk T order)%nat; [|lia].
  apply IH. intros q Hq. apply H. set_solver.
Qed.

Lemma entries_lower h ch :
  Forall (λ l, h ≤ length (l_items l))%nat ch → (h * length ch ≤ length (entries ch))%nat.
Proof.
  induction 1 as [|l ch Hl _ IH]; simpl length; [lia|]. rewrite Nat.mul_succ_r.
  change (entries (l :: ch)) with (l_items l ++ entries ch). rewrite length_app. lia.
Qed.

Lemma half_ge kl : (kl ≤ 256)%nat → (7 ≤ half kl)%nat.
Proof.
  intros Hkl. unfold half. apply Nat.div_le_lower_bound; [done|].
  unfold MEMFH_MAX_ITEMS, MEMFH_PAGELEN, PTRSZ.
  assert (15 ≤ (4096 - 12) / (kl + 4))%nat; [|lia]. apply Nat.div_le_lower_bound; lia.
Qed.

Lemma capacity_nb kl s its nb :
  is_index_nb kl s its nb → (length its < capacity kl)%nat → (nb ≤ 15)%nat.
Proof.
  intros (T & ch & order & [Hkl _ Htr _] & <- & <- & [Hlf Hbr Hsum]) Hcap.
  pose proof (half_ge kl Hkl) as Hh. unfold capacity in Hcap. set (h := half kl) in *.
  destruct order as [|r order]; [simpl; lia|]. destruct Hlf as [?|Hlf]; [done|].
  pose proof (entries_lower _ _ Hlf) as Hent. specialize (Hsum ltac:(done)).
  assert (h * length order ≤ sumk T order)%nat as Hlow.
  { apply sumk_lower. intros p Hp. destruct (order_branch Htr p) as (ks & cs & HT); [set_solver|].
    exists ks, cs. split; [done|]. by apply (Hbr p ks cs). }
  destruct (order_branch Htr r) as (ks & cs & Hr); [set_solver|].
  pose proof (br_pos _ _ _ _ _ _ (t_branch _ _ _ _ _ Htr _ _ _ Hr)) as Hpos.
  assert (sumk T (r :: order) = length ks + sumk T order)%nat as Es.
  { simpl. unfold nkeys. by rewrite Hr. }
  rewrite Es in Hsum. simpl in Hsum. simpl length. clear -Hh Hcap Hent Hsum Hlow Hpos. nia.
Qed.

Lemma entries_app C1 C2 : entries (C1 ++ C2) = entries C1 ++ entries C2.
Proof. apply bind_app. Qed.

Lemma index_inv_cursor kl s T ch order full P Q d :
  index_inv kl s T ch order full → index_inv kl (with_cursor s P Q d) T ch order full.
Proof. intros [? [] ? ?]. split; [done|by split|done|done]. Qed.

(** An index is its pages: the cursor does not matter. *)
Lemma is_index_pages kl s s' its : pages s' = pages s → root s' = root s → brk s' = brk s → is_index kl s its → is_index kl s' its.
Proof.
  intros Hp Hr Hb (nb & T & ch & order & [Hkl [Hbr Hlf Hbk] Ht Hn] & Hits & Hs).
  exists nb, T, ch, order. split; [|done]. split; [done|split|by rewrite Hr|done]; by rewrite ?Hp, ?Hb.
Qed.

Lemma on_item_index kl s its nb i : on_item_nb kl s its nb i → is_index_nb kl s its nb.
Proof.
  intros (a & n & (T & C1 & l & C2 & order & π & Hinv & Hits & Hord & _) & _).
  by exists T, (C1 ++ l :: C2), order.
Qed.


(** *** Keys across leaves *)

Lemma linked_hi lo ch l :
  linked lo ch → l ∈ ch → match lo, l_hi l with Some k0, Some k => lex_lt k0 k | _, _ => True end.
Proof.
  revert lo. induction ch as [|c ch IH]; intros lo Hlk Hin; [done|].
  destruct Hlk as [Elo Hlk]. destruct ch as [|c' ch].
  { apply list_elem_of_singleton in Hin as ->. rewrite Hlk. by destruct lo. }
  destruct Hlk as (k & Ek & Hk & Hlk). apply elem_of_cons in Hin as [->|Hin].
  { rewrite Ek. done. }
  specialize (IH _ Hlk Hin). simpl in IH. destruct lo, (l_hi l); try done. by etrans.
Qed.

Lemma linked_lo lo ch l :
  linked lo ch → l ∈ ch → match lo with Some k0 =>
    ∃ k, l_lo l = Some k ∧ lge k k0 | None => True end.
Proof.
  revert lo. induction ch as [|c ch IH]; intros lo Hlk Hin; [done|].
  destruct Hlk as [Elo Hlk]. destruct lo as [k0|]; [|done].
  apply elem_of_cons in Hin as [->|Hin].
  { exists k0. split; [done|]. by rewrite lex_cmp_refl. }
  destruct ch as [|c' ch]; [by apply not_elem_of_nil in Hin|].
  destruct Hlk as (k & Ek & Hk & Hlk). destruct (IH _ Hlk Hin) as (k' & ? & Hge). exists k'.
  split; [done|]. apply lex_not_lt. right. by eapply lex_lt_ge_trans.
Qed.

Lemma linked_suffix lo C1 l C2 : linked lo (C1 ++ l :: C2) → linked (l_lo l) (l :: C2).
Proof.
  revert lo. induction C1 as [|c C1 IH]; intros lo.
  - intros [E H]. rewrite E. by split.
  - intros [_ H]. destruct (C1 ++ l :: C2) eqn:E; [by destruct C1|]. rewrite <-E in H.
    destruct H as (k & _ & _ & H). rewrite E in H. by eapply IH.
Qed.

(** A leaf before the owner of [κ] holds smaller keys, one after it greater. *)
Lemma owner_after lo C1 l C2 l' κ :
  linked lo (C1 ++ l :: C2) → owns l κ → l' ∈ C2 → ∀ κ', owns l' κ' → lex_lt κ κ'.
Proof.
  intros Hlk [_ Hhi] Hin κ' [Hlo' _]. apply linked_suffix in Hlk as [_ Hlk].
  destruct C2 as [|c C2]; [by apply not_elem_of_nil in Hin|].
  destruct Hlk as (k & Ek & _ & Hlk). rewrite Ek in Hhi. simpl in Hhi.
  destruct (linked_lo _ _ _ Hlk Hin) as (k' & Ek' & Hge). rewrite Ek' in Hlo'. simpl in Hlo'.
  eapply lex_lt_ge_trans; [exact Hhi|]. by eapply lex_ge_trans.
Qed.

Lemma owner_before lo C1 l C2 l' κ :
  linked lo (C1 ++ l :: C2) → owns l κ → l' ∈ C1 → ∀ κ', owns l' κ' → lex_lt κ' κ.
Proof.
  intros Hlk Hown Hin κ' Hown'. apply list_elem_of_split in Hin as (D1 & D2 & ->).
  rewrite <-app_assoc in Hlk. simpl in Hlk. eapply owner_after; [exact Hlk|done| |done]. set_solver.
Qed.

Lemma entries_keys kl ch x : Forall (leaf_ok kl) ch → x ∈ entries ch →
  ∃ l, l ∈ ch ∧ x ∈ l_items l ∧ owns l (fst x).
Proof.
  intros Hok. unfold entries. rewrite list_elem_of_bind.
  intros (l & Hx & Hl). exists l. split_and!; [done..|].
  rewrite Forall_forall in Hok. pose proof (lf_own _ _ (Hok l Hl)) as Ho.
  rewrite Forall_forall in Ho. auto.
Qed.

Lemma lower_ix_app_lt {X} κ (A B : list (bytes * X)) :
  (∀ x, x ∈ A → lex_lt (fst x) κ) → lower_ix κ (A ++ B) = (length A + lower_ix κ B)%nat.
Proof.
  induction A as [|x A IH]; intros H; simpl; [done|].
  rewrite (proj2 (lex_gt κ (fst x))) by (apply H; set_solver).
  rewrite IH; [done|]. intros y Hy. apply H. set_solver.
Qed.

Lemma lower_ix_app_gt {X} κ (A B : list (bytes * X)) :
  (∀ x, x ∈ B → lex_lt κ (fst x)) → lower_ix κ (A ++ B) = lower_ix κ A.
Proof.
  intros H. induction A as [|x A IH]; simpl.
  - destruct B as [|y B]; [done|]. simpl. assert (lex_lt κ (fst y)) as E by (apply H; set_solver).
    unfold lex_lt in E. by rewrite E.
  - by rewrite IH.
Qed.

(** The items before the owner leaf of [κ] have smaller keys, those after it
    greater ones. *)
Lemma owner_split kl T C1 l C2 order root κ :
  tree_ok T (C1 ++ l :: C2) kl order root → owns l κ →
  (∀ x, x ∈ entries C1 → lex_lt (fst x) κ) ∧ (∀ x, x ∈ entries C2 → lex_lt κ (fst x)).
Proof.
  intros Htr Hown. pose proof (t_leaves _ _ _ _ _ Htr) as Hlv.
  pose proof (t_linked _ _ _ _ _ Htr) as Hlk.
  apply Forall_app in Hlv as [H1 [_ H2]%Forall_cons].
  split; intros x Hx.
  - destruct (entries_keys _ _ _ H1 Hx) as (l' & Hl' & _ & Ho). by eapply owner_before.
  - destruct (entries_keys _ _ _ H2 Hx) as (l' & Hl' & _ & Ho). by eapply owner_after.
Qed.

Lemma owner_lower_ix kl T C1 l C2 order root κ :
  tree_ok T (C1 ++ l :: C2) kl order root → owns l κ →
  lower_ix κ (entries (C1 ++ l :: C2)) = (length (entries C1) + lower_ix κ (l_items l))%nat.
Proof.
  intros Htr Hown. destruct (owner_split _ _ _ _ _ _ _ _ Htr Hown) as [H1 H2].
  rewrite entries_app, lower_ix_app_lt by done. f_equal.
  change (entries (l :: C2)) with (l_items l ++ entries C2). by apply lower_ix_app_gt.
Qed.

Lemma owner_has_key kl T C1 l C2 order root κ :
  tree_ok T (C1 ++ l :: C2) kl order root → owns l κ →
  has_key κ (entries (C1 ++ l :: C2)) = has_key κ (l_items l).
Proof.
  intros Htr Hown. destruct (owner_split _ _ _ _ _ _ _ _ Htr Hown) as [H1 H2].
  apply bool_decide_ext. rewrite entries_app, fmap_app.
  change (entries (l :: C2)) with (l_items l ++ entries C2). rewrite fmap_app, !elem_of_app.
  split; [|tauto]. intros [(x & -> & Hx)%list_elem_of_fmap|[?|(x & -> & Hx)%list_elem_of_fmap]]; [|done|].
  - by destruct (irreflexivity lex_lt (fst x)); apply H1.
  - by destruct (irreflexivity lex_lt (fst x)); apply H2.
Qed.

Lemma search_run kl s T ch order full key :
  index_inv kl s T ch order full → (length order ≤ 15)%nat → (kl ≤ length key)%nat →
  let κ := take kl key in
  ∃ π l P Q, route T ch κ (root s) π l ∧
    memfh_idx_search key s =
      (with_cursor s P Q (length π), inr (search_result κ (l_items l))) ∧
    cursor_at P Q 0 π (l_ptr l) (lower_ix κ (l_items l)).
Proof.
  intros Hinv Hnb Hlen κ. pose proof (i_tree _ _ _ _ _ _ Hinv) as Htr.
  destruct (t_leads _ _ _ _ _ Htr κ) as (π & l & Hr).
  pose proof (descent_length Htr _ _ _ (route_descent _ _ _ _ _ _ Hr)) as Hπ.
  set (s1 := with_cursor s (<[0%nat := root s]> (path s)) (<[0%nat := 0%nat]> (pos s)) 0).
  destruct (search_page_run kl s1 T ch order full key κ (root s) π l max_fuel 0) as (P & Q & Hrun & Hcur & _);
    [by apply index_inv_cursor|done|done|done|lia|unfold max_fuel, MEMFH_MAX_DEPTH; lia| |done|].
  { apply lookup_insert_eq. }
  exists π, l, P, Q. split_and!; [done| |done].
  unfold memfh_idx_search. erewrite bind_ok by apply gets_run.
  erewrite bind_ok by (apply set_path_run; lia). erewrite bind_ok by (apply set_pos_run; lia).
  erewrite bind_ok by apply set_depth_run. exact Hrun.
Qed.

(** The result of a search is negative or zero exactly when its cursor is on an item. *)
Lemma search_cursor kl s its nb key :
  is_index_nb kl s its nb → (nb ≤ 15)%nat → (kl ≤ length key)%nat →
  ∃ s' r a n, memfh_idx_search key s = (s', inr r) ∧
    (r = 0%Z ↔ take kl key ∈ fst <$> its) ∧ pages s' = pages s ∧ root s' = root s ∧ brk s' = brk s ∧
    cursor_in kl s' its nb (lower_ix (take kl key) its) a n ∧ (a ≤ n)%nat ∧ ((r ≤ 0)%Z ↔ (a < n)%nat).
Proof.
  intros (T & ch & order & Hinv & Hits & Hord) Hnb Hlen.
  destruct (search_run _ _ _ _ _ _ _ Hinv ltac:(by destruct Hord as [-> _]) Hlen)
    as (π & l & P & Q & Hr & Hrun & Hcur).
  destruct (route_owns _ _ _ _ _ _ Hr) as [Hl Hown].
  pose proof (i_tree _ _ _ _ _ _ Hinv) as Htr.
  pose proof (t_leaves _ _ _ _ _ Htr) as Hlv. rewrite Forall_forall in Hlv.
  pose proof (lower_ix_key (take kl key) _ (lf_sorted _ _ (Hlv l Hl))) as Hkey.
  apply list_elem_of_split in Hl as (C1 & C2 & ->).
  pose proof (lower_ix_le (take kl key) (l_items l)) as Hle.
  eexists _, _, (lower_ix (take kl key) (l_items l)), (length (l_items l)).
  split; [exact Hrun|]. split; [|split; [done|split; [done|split; [done|split; [|split; [done|]]]]]].
  - rewrite <-Hits. transitivity (has_key (take kl key) (l_items l) = true).
    + unfold search_result. destruct (has_key _ _); [done|]. by destruct (_ <? _)%nat.
    + rewrite <-(owner_has_key _ _ _ _ _ _ _ _ Htr Hown). unfold has_key. apply bool_decide_eq_true.
  - exists T, C1, l, C2, order, π.
    split_and!; [by apply index_inv_cursor|done|done|by eapply route_descent|done|done|done|].
    rewrite <-Hits. by eapply owner_lower_ix.
  - unfold search_result. destruct (has_key (take kl key) (l_items l)) eqn:Eh.
    + destruct (proj1 Hkey eq_refl) as (x & Hx & _). apply lookup_lt_Some in Hx. lia.
    + destruct (Nat.ltb_spec (lower_ix (take kl key) (l_items l)) (length (l_items l))); lia.
Qed.

Lemma memfh_idx_search_correct_aux kl s its nb key :
  is_index_nb kl s its nb → (nb ≤ 15)%nat → (kl ≤ length key)%nat →
  ∃ s' r, memfh_idx_search key s = (s', inr r) ∧
    (r = 0%Z ↔ take kl key ∈ fst <$> its) ∧
    pages s' = pages s ∧ root s' = root s ∧
    if bool_decide (r ≤ 0)%Z then on_item_nb kl s' its nb (lower_ix (take kl key) its)
    else cursor_nb kl s' its nb (lower_ix (take kl key) its).
Proof.
  intros Hidx Hnb Hlen.
  destruct (search_cursor _ _ _ _ _ Hidx Hnb Hlen) as (s' & r & a & n & Hrun & Hr & Hp & Hrt & _ & Hc & Ha & Han).
  exists s', r. split; [done|]. split; [done|]. split; [done|]. split; [done|].
  destruct (bool_decide_reflect (r ≤ 0)%Z) as [E|E]; exists a, n; (split; [done|]); [by apply Han|done].
Qed.

(** A search of an index below its capacity returns (no fault, no endless
    descent), answers 0 exactly for the keys the index holds, leaves the index as it
    was, and leaves the cursor at the place of the key in order; a negative or zero
    answer means that the cursor is on an item. *)
Theorem memfh_idx_search_correct kl s its key :
  is_index kl s its → (length its < capacity kl)%nat → (kl ≤ length key)%nat →
  ∃ s' r, memfh_idx_search key s = (s', inr r) ∧
    (r = 0%Z ↔ take kl key ∈ fst <$> its) ∧
    pages s' = pages s ∧ root s' = root s ∧
    if bool_decide (r ≤ 0)%Z then on_item kl s' its (lower_ix (take kl key) its)
    else cursor kl s' its (lower_ix (take kl key) its).
Proof.
  intros [nb Hidx] Hcap Hlen. pose proof (capacity_nb _ _ _ _ Hidx Hcap) as Hnb.
  destruct (memfh_idx_search_correct_aux _ _ _ _ key Hidx Hnb Hlen) as (s' & r & H1 & H2 & H3 & H4 & Hc).
  exists s', r. split; [done|]. split; [done|]. split; [done|]. split; [done|].
  destruct (bool_decide_reflect (r ≤ 0)%Z); by exists nb.
Qed.

(** ** Scan *)

Lemma owner_unique lo ch l l' κ :
  linked lo ch → l ∈ ch → l' ∈ ch → owns l κ → owns l' κ → l = l'.
Proof.
  intros Hlk Hl Hl' Ho Ho'. apply list_elem_of_split in Hl as (C1 & C2 & ->).
  apply elem_of_app in Hl' as [Hl'|[->|Hl']%elem_of_cons]; [|done|];
    destruct (irreflexivity lex_lt κ).
  - by eapply owner_before.
  - by eapply owner_after.
Qed.

Lemma lo_owned lo ch l k : linked lo ch → l ∈ ch → l_lo l = Some k → owns l k.
Proof.
  intros Hlk Hl Elo. apply list_elem_of_split in Hl as (C1 & C2 & ->).
  apply linked_suffix in Hlk. rewrite Elo in Hlk.
  pose proof (linked_hi _ _ l Hlk ltac:(set_solver)) as Hhi. simpl in Hhi.
  split; [rewrite Elo; simpl; by rewrite lex_cmp_refl|by destruct (l_hi l)].
Qed.

(** The leaf whose lower bound is the upper bound of [l] follows [l]. *)
Lemma linked_next lo C1 l C2 l' k :
  linked lo (C1 ++ l :: C2) → l' ∈ C1 ++ l :: C2 → l_hi l = Some k → l_lo l' = Some k →
  ∃ C3, C2 = l' :: C3.
Proof.
  intros Hlk Hl' Ehi Elo. pose proof (linked_suffix _ _ _ _ Hlk) as [_ Hsuf].
  destruct C2 as [|c C3]; [congruence|]. exists C3. f_equal.
  destruct Hsuf as (k' & Ek' & _ & Hc). assert (k' = k) as -> by congruence.
  destruct Hc as [Ec _]. assert (c ∈ C1 ++ l :: c :: C3) as Hin by set_solver.
  eapply (owner_unique _ _ _ _ k); [exact Hlk|done|done|by eapply lo_owned|by eapply lo_owned].
Qed.

Lemma linked_last lo C1 l C2 : linked lo (C1 ++ l :: C2) → l_hi l = None → C2 = [].
Proof.
  intros Hlk Ehi. apply linked_suffix in Hlk as [_ Hlk]. destruct C2 as [|c C2]; [done|].
  destruct Hlk as (k & E & _). congruence.
Qed.

Definition zeros (π : list ptr) : list (ptr * nat) := (λ p, (p, 0%nat)) <$> π.

Lemma leftmost_descent T ch x π l : leftmost T ch x π l → descent T x (zeros π) (l_ptr l).
Proof. induction 1; simpl; [done|]. split; [done|]. eauto 10. Qed.

Lemma leftmost_in T ch x π l : leftmost T ch x π l → l ∈ ch.
Proof. by induction 1. Qed.

Lemma branch_first kl pg ks cs x :
  branch_page kl pg ks cs → (0 < length ks)%nat → cs !! 0%nat = Some x →
  ∃ k, idx_buf pg !! 0%nat = Some (k, x).
Proof.
  intros Hb Hpos Hx. pose proof (branch_page_len _ _ _ _ Hb) as Hl. destruct Hb as [_ _ Hn _ Ecs].
  rewrite Ecs, lookup_app_l, list_lookup_fmap in Hx by (rewrite length_fmap, length_items by done; lia).
  unfold items in Hx. rewrite lookup_take_lt in Hx by lia.
  destruct (idx_buf pg !! 0%nat) as [[k y]|]; simplify_eq/=. by exists k.
Qed.

Lemma first_loop_run kl T ch order full x π l fuel s d :
  leftmost T ch x π l → index_inv kl s T ch order full →
  (d + length π < 16)%nat → (length π < fuel)%nat → depth s = d →
  path s !! d = Some x → pos s !! d = Some 0%nat →
  ∃ P Q, first_loop fuel x s = (with_cursor s P Q (d + length π), inr tt) ∧
    cursor_at P Q d (zeros π) (l_ptr l) 0 ∧
    ∀ j, (j < d)%nat → P !! j = path s !! j ∧ Q !! j = pos s !! j.
Proof.
  intros Hm. revert s d fuel. induction Hm as [l Hl|p ks cs x π l Hp Hx Hm IH];
    intros s d fuel Hinv Hd Hfuel Hdep HP HQ; (destruct fuel as [|fuel]; [lia|]);
    simpl first_loop; simpl length in *.
  - destruct (r_leaf _ _ _ _ _ (i_repr _ _ _ _ _ _ Hinv) l Hl) as (pg & Hpg & Hlp & _).
    pose proof (lp_tp _ _ _ Hlp) as Htp. erewrite bind_ok by by apply load_page_run.
    rewrite Htp, bool_decide_false by done. exists (path s), (pos s).
    split_and!; [|split|]; [rewrite Nat.add_0_r, <-Hdep; by destruct s|done|by rewrite Nat.add_0_r|done].
  - destruct (r_branch _ _ _ _ _ (i_repr _ _ _ _ _ _ Hinv) _ _ _ Hp) as (pg & Hpg & Hbp & _).
    pose proof (t_branch _ _ _ _ _ (i_tree _ _ _ _ _ _ Hinv) _ _ _ Hp) as Bp.
    pose proof (bp_tp _ _ _ _ Hbp) as Htp.
    destruct (branch_first _ _ _ _ _ Hbp (br_pos _ _ _ _ _ _ Bp) Hx) as [k Hk].
    erewrite bind_ok by by apply load_page_run. rewrite Htp, bool_decide_true by done.
    erewrite bind_ok by by apply of_option_run. rewrite (bind_ok _ _ _ _ _ (gets_run _ _)), Hdep.
    erewrite bind_ok by apply set_depth_run. erewrite bind_ok by (apply set_path_run; lia).
    erewrite bind_ok by (apply set_pos_run; lia). cbn [fst snd]. rewrite Nat.add_1_r.
    destruct (IH (with_cursor s (<[S d := x]> (path s)) (<[S d := 0%nat]> (pos s)) (S d)) (S d) fuel)
      as (P & Q & Hrun & (H1 & H2 & H3) & Hpre);
      [by apply index_inv_cursor|lia|lia|done|apply lookup_insert_eq|apply lookup_insert_eq|].
    exists P, Q. split_and!.
    + etrans; [exact Hrun|]. unfold with_cursor. simpl. repeat f_equal. lia.
    + split_and!.
      * intros [|j] q a Hj; simpl in Hj.
        -- injection Hj as <- <-. rewrite Nat.add_0_r. destruct (Hpre d) as [E1 E2]; [lia|].
           rewrite E1, E2. simpl. by rewrite !lookup_insert_ne by lia.
        -- rewrite Nat.add_succ_r. by apply (H1 j q a).
      * unfold zeros. rewrite fmap_cons, length_cons, Nat.add_succ_r. exact H2.
      * unfold zeros. rewrite fmap_cons, length_cons, Nat.add_succ_r. exact H3.
    + intros j Hj. destruct (Hpre j) as [E1 E2]; [lia|]. rewrite E1, E2. simpl.
      by rewrite !lookup_insert_ne by lia.
Qed.

Lemma linked_first C1 l C2 : linked None (C1 ++ l :: C2) → l_lo l = None → C1 = [].
Proof.
  destruct C1 as [|c C1]; [done|]. intros [_ Hlk] Hlo.
  destruct (C1 ++ l :: C2) eqn:E; [by destruct C1|]. destruct Hlk as (k & _ & _ & Hlk).
  rewrite <-E in Hlk. destruct (linked_lo _ _ l Hlk) as (k' & Ek & _); [set_solver|congruence].
Qed.

Lemma index_nonempty kl s T ch order full l :
  index_inv kl s T ch order full → entries ch ≠ [] → l ∈ ch → l_items l ≠ [].
Proof.
  intros [_ _ Htr [->|Hne]] Hits Hl.
  - destruct (t_root _ _ _ _ _ Htr) as (l0 & -> & _). apply list_elem_of_singleton in Hl as ->.
    unfold entries in Hits. simpl in Hits. by rewrite app_nil_r in Hits.
  - rewrite Forall_forall in Hne. auto.
Qed.

Lemma root_page kl s T ch order :
  index_inv kl s T ch order None →
  ∃ pg, pages s !! root s = Some pg ∧ (idx_n pg = 0%nat ↔ entries ch = []).
Proof.
  intros [Hkl Hrep Htr Hne]. pose proof (t_root _ _ _ _ _ Htr) as Hroot.
  destruct order as [|r order].
  - destruct Hroot as (l & -> & ->).
    destruct (r_leaf _ _ _ _ _ Hrep l) as (pg & Hpg & Hlp & _); [set_solver|].
    exists pg. split; [done|]. rewrite <-(leaf_page_len _ _ _ Hlp). unfold entries. simpl.
    by rewrite app_nil_r, length_zero_iff_nil.
  - subst r. destruct (order_branch Htr (root s)) as (ks & cs & Hr); [set_solver|].
    destruct (r_branch _ _ _ _ _ Hrep _ _ _ Hr) as (pg & Hpg & Hbp & _).
    pose proof (br_pos _ _ _ _ _ _ (t_branch _ _ _ _ _ Htr _ _ _ Hr)) as Hpos.
    exists pg. split; [done|]. rewrite <-(branch_page_len _ _ _ _ Hbp). split; [lia|].
    destruct Hne as [?|Hne]; [done|]. pose proof (t_linked _ _ _ _ _ Htr) as Hlk.
    destruct ch as [|l ch]; [done|]. apply Forall_cons in Hne as [Hne _].
    unfold entries. simpl. intros [? _]%app_nil. done.
Qed.

Lemma memfh_idx_first_correct_aux kl s its nb :
  is_index_nb kl s its nb → (nb ≤ 15)%nat →
  ∃ s' b, memfh_idx_first s = (s', inr b) ∧ pages s' = pages s ∧ root s' = root s ∧
    if b : bool then on_item_nb kl s' its nb 0 else its = [] ∧ s' = s.
Proof.
  intros (T & ch & order & Hinv & Hits & [Hord Hfill]) Hnb. pose proof (i_tree _ _ _ _ _ _ Hinv) as Htr.
  destruct (root_page _ _ _ _ _ Hinv) as (pg & Hpg & Hn). unfold memfh_idx_first.
  erewrite bind_ok by apply gets_run. erewrite bind_ok by by apply load_page_run.
  destruct (bool_decide_reflect (idx_n pg = 0%nat)) as [E|E].
  { eexists _, false. split; [done|]. split; [done|]. split; [done|]. rewrite <-Hits. split; [by apply Hn|done]. }
  destruct (t_first _ _ _ _ _ Htr) as (π & l & Hm & Hlo).
  pose proof (descent_length Htr _ _ _ (leftmost_descent _ _ _ _ _ Hm)) as Hπ.
  unfold zeros in Hπ. rewrite length_fmap in Hπ.
  destruct (first_loop_run kl T ch order None (root s) π l max_fuel
    (with_cursor s (<[0%nat := root s]> (path s)) (<[0%nat := 0%nat]> (pos s)) 0) 0)
    as (P & Q & Hrun & Hcur & _);
    [done|by apply index_inv_cursor|lia|unfold max_fuel, MEMFH_MAX_DEPTH; lia|done
    |apply lookup_insert_eq|apply lookup_insert_eq|].
  erewrite bind_ok by apply set_depth_run. erewrite bind_ok by (apply set_path_run; lia).
  erewrite bind_ok by (apply set_pos_run; lia). rewrite (bind_ok _ _ _ _ _ Hrun).
  eexists _, true. split; [done|]. split_and!; [done..|].
  pose proof (leftmost_in _ _ _ _ _ Hm) as Hl.
  apply list_elem_of_split in Hl as (C1 & C2 & ->).
  assert (C1 = []) as -> by (eapply linked_first; [apply Htr|done]).
  exists 0%nat, (length (l_items l)). split.
  - exists T, [], l, C2, order, (zeros π). split_and!; try done.
    + destruct Hinv as [? [] ? ?]. split; [done|by split|done|done].
    + by eapply leftmost_descent.
    + simpl. unfold zeros. by rewrite length_fmap.
  - assert (l_items l ≠ []) as Hne.
    { eapply index_nonempty; [exact Hinv|tauto|clear; set_solver]. }
    destruct (l_items l); [done|]. simpl. lia.
Qed.

(** [memfh_idx_first] answers whether the index holds an item, and puts the
    cursor on the first one. *)
Theorem memfh_idx_first_correct kl s its :
  is_index kl s its → (length its < capacity kl)%nat →
  ∃ s' b, memfh_idx_first s = (s', inr b) ∧ pages s' = pages s ∧ root s' = root s ∧
    if b : bool then on_item kl s' its 0 else its = [] ∧ s' = s.
Proof.
  intros [nb Hidx] Hcap. pose proof (capacity_nb _ _ _ _ Hidx Hcap) as Hnb.
  destruct (memfh_idx_first_correct_aux _ _ _ _ Hidx Hnb) as (s' & b & ? & ? & ? & Hb).
  exists s', b. split; [done|]. split; [done|]. split; [done|]. destruct b; [by exists nb|done].
Qed.

(** *** The next item *)

Lemma next_descend_run kl T ch order full x π l fuel s d :
  leftmost T ch x π l → index_inv kl s T ch order full →
  (S d + length π < 16)%nat → (length π < fuel)%nat →
  ∃ P Q, next_descend fuel d x s =
      (mk_ix (brk s) (pages s) (root s) P Q (S d + length π) (num_writes s) (num_reads s + 1), inr tt) ∧
    cursor_at P Q (S d) (zeros π) (l_ptr l) 0 ∧
    ∀ j, (j ≤ d)%nat → P !! j = path s !! j ∧ Q !! j = pos s !! j.
Proof.
  intros Hm. revert s d fuel. induction Hm as [l Hl|p ks cs x π l Hp Hx Hm IH];
    intros s d fuel Hinv Hd Hfuel; (destruct fuel as [|fuel]; [lia|]);
    simpl next_descend; simpl length in *.
  - destruct (r_leaf _ _ _ _ _ (i_repr _ _ _ _ _ _ Hinv) l Hl) as (pg & Hpg & Hlp & _).
    pose proof (lp_tp _ _ _ Hlp) as Htp. erewrite bind_ok by by apply load_page_run.
    erewrite bind_ok by apply set_depth_run. erewrite bind_ok by (apply set_pos_run; lia).
    erewrite bind_ok by (apply set_path_run; lia).
    rewrite Htp, bool_decide_false by done. eexists _, _. split; [|split].
    + unfold count_read. rewrite modify_run. simpl. by rewrite Nat.add_1_r, Nat.add_0_r.
    + split; [by intros j p a|]. simpl. rewrite Nat.add_0_r, !lookup_insert_eq. done.
    + intros j Hj. simpl. rewrite !lookup_insert_ne by lia. done.
  - destruct (r_branch _ _ _ _ _ (i_repr _ _ _ _ _ _ Hinv) _ _ _ Hp) as (pg & Hpg & Hbp & _).
    pose proof (t_branch _ _ _ _ _ (i_tree _ _ _ _ _ _ Hinv) _ _ _ Hp) as Bp.
    pose proof (bp_tp _ _ _ _ Hbp) as Htp.
    destruct (branch_first _ _ _ _ _ Hbp (br_pos _ _ _ _ _ _ Bp) Hx) as [k Hk].
    erewrite bind_ok by by apply load_page_run.
    erewrite bind_ok by apply set_depth_run. erewrite bind_ok by (apply set_pos_run; lia).
    erewrite bind_ok by (apply set_path_run; lia).
    rewrite Htp, bool_decide_true by done. erewrite bind_ok by by apply of_option_run.
    cbn [fst snd]. rewrite Nat.add_1_r.
    destruct (IH (with_cursor s (<[S d := p]> (path s)) (<[S d := 0%nat]> (pos s)) (S d)) (S d) fuel)
      as (P & Q & Hrun & (H1 & H2 & H3) & Hpre); [by apply index_inv_cursor|lia|lia|].
    exists P, Q. split_and!.
    + etrans; [exact Hrun|]. simpl. repeat f_equal. lia.
    + split_and!.
      * intros [|j] q a Hj; simpl in Hj.
        -- injection Hj as <- <-. rewrite Nat.add_0_r. destruct (Hpre (S d)) as [E1 E2]; [lia|].
           rewrite E1, E2. simpl. by rewrite !lookup_insert_eq.
        -- rewrite Nat.add_succ_r. by apply (H1 j q a).
      * unfold zeros. rewrite fmap_cons, length_cons, Nat.add_succ_r. exact H2.
      * unfold zeros. rewrite fmap_cons, length_cons, Nat.add_succ_r. exact H3.
    + intros j Hj. destruct (Hpre j) as [E1 E2]; [lia|]. rewrite E1, E2. simpl.
      by rewrite !lookup_insert_ne by lia.
Qed.

Lemma cursor_at_update P Q π x a b :
  cursor_at P Q 0 π x a → cursor_at P (<[length π := b]> Q) 0 π x b.
Proof.
  intros (H1 & H2 & H3). split_and!; [|done|apply lookup_insert_eq].
  intros j p c Hj. destruct (H1 j p c Hj). simpl. split; [done|].
  rewrite lookup_insert_ne; [done|]. apply lookup_lt_Some in Hj. simpl. lia.
Qed.

(** Cursors that agree on the levels of [π1] extend to a longer path. *)
Lemma cursor_at_app P Q P' Q' π1 p b c π2 x y a :
  cursor_at P Q 0 (π1 ++ [(p, b)]) x a →
  cursor_at P' Q' (S (length π1)) π2 y 0 →
  (∀ j, (j ≤ length π1)%nat → P' !! j = P !! j ∧ Q' !! j = <[length π1 := c]> Q !! j) →
  cursor_at P' Q' 0 (π1 ++ (p, c) :: π2) y 0.
Proof.
  intros (H1 & _ & _) (K1 & K2 & K3) Hpre. split_and!.
  - intros j q e Hj. simpl. destruct (decide (j < length π1)%nat) as [Hlt|Hge].
    + rewrite lookup_app_l in Hj by done.
      destruct (H1 j q e) as [E1 E2]; [by rewrite lookup_app_l by done|].
      destruct (Hpre j) as [-> ->]; [lia|]. rewrite lookup_insert_ne by lia. done.
    + rewrite lookup_app_r in Hj by lia. destruct (j - length π1)%nat as [|m] eqn:Em; simpl in Hj.
      * injection Hj as <- <-. assert (j = length π1) as -> by lia.
        destruct (H1 (length π1) p b) as [E1 E2].
        { rewrite lookup_app_r, Nat.sub_diag by lia. done. }
        destruct (Hpre (length π1)) as [-> ->]; [lia|]. by rewrite lookup_insert_eq.
      * replace j with (S (length π1) + m)%nat by lia. by apply (K1 m q e).
  - simpl. rewrite length_app. simpl. rewrite Nat.add_succ_r. exact K2.
  - simpl. rewrite length_app. simpl. rewrite Nat.add_succ_r. exact K3.
Qed.

Lemma descent_join T x π1 z π2 y :
  descent T x π1 z → descent T z π2 y → descent T x (π1 ++ π2) y.
Proof.
  revert x. induction π1 as [|[p a] π1 IH]; intros x; simpl; [by intros ->|].
  intros (<- & ks & cs & x' & ? & ? & ?) ?. split; [done|]. exists ks, cs, x'. auto.
Qed.

Lemma root_leaf_single kl T C1 l C2 order root :
  tree_ok T (C1 ++ l :: C2) kl order root → root = l_ptr l → C2 = [].
Proof.
  intros Htr E. pose proof (t_root _ _ _ _ _ Htr) as Hroot. destruct order as [|r order].
  - destruct Hroot as (l0 & E0 & _). destruct C1 as [|c C1]; [by injection E0|].
    by destruct C1.
  - subst r. destruct (order_branch Htr root) as (ks & cs & Hr); [set_solver|].
    destruct (branch_not_leaf Htr _ _ Hr). exists l. split; [set_solver|done].
Qed.

(** The code reads the child after position [b] as [next] or as a slot. *)
Lemma next_child_run kl pg ks cs b x (s : ixst) :
  branch_page kl pg ks cs → (b < length ks)%nat → cs !! S b = Some x →
  (if bool_decide (b + 1 = length ks)%nat then mret (idx_next pg)
   else (r ← of_option (idx_buf pg !! (b + 1)%nat); mret (snd r)) : M ixst ptr) s = (s, inr x).
Proof.
  intros Hbp Hb Hx. pose proof (branch_page_len _ _ _ _ Hbp) as Hks. destruct Hbp as [_ _ Hn _ Ecs].
  pose proof (length_items _ Hn) as Hli. rewrite Nat.add_1_r, Ecs in *.
  destruct (bool_decide_reflect (S b = length ks)) as [E|E].
  - rewrite E, lookup_app_r in Hx by (rewrite length_fmap; lia).
    rewrite length_fmap, Hli, Hks, Nat.sub_diag in Hx. by simplify_eq/=.
  - rewrite lookup_app_l, list_lookup_fmap in Hx by (rewrite length_fmap; lia).
    unfold items in Hx. rewrite lookup_take_lt in Hx by lia.
    destruct (idx_buf pg !! S b) as [[k y]|]; [|done]. simpl in Hx. simplify_eq. done.
Qed.

Lemma memfh_idx_next_correct_aux kl s its nb i idx :
  on_item_nb kl s its nb i → (nb ≤ 15)%nat → path s !! depth s = Some idx →
  ∃ s' b, memfh_idx_next idx s = (s', inr b) ∧ pages s' = pages s ∧ root s' = root s ∧ brk s' = brk s ∧
    if b : bool then on_item_nb kl s' its nb (S i) else S i = length its.
Proof.
  intros (a & n & (T & C1 & l & C2 & order & π & Hinv & Hits & [Hord Hfill] & Hdesc & Hcur & Hdep & Hlen & Hi) & Han)
    Hnb Hidx.
  pose proof (i_tree _ _ _ _ _ _ Hinv) as Htr. pose proof (t_linked _ _ _ _ _ Htr) as Hlk.
  assert (l ∈ C1 ++ l :: C2) as Hl by set_solver.
  destruct (r_leaf _ _ _ _ _ (i_repr _ _ _ _ _ _ Hinv) l Hl) as (pg & Hpg & Hlp & _).
  pose proof Hcur as (Hc1 & Hc2 & Hc3). simpl in Hc2, Hc3.
  assert (idx = l_ptr l) as -> by congruence.
  pose proof (descent_length Htr _ _ _ Hdesc) as Hπ.
  assert (length its = length (entries C1) + n + length (entries C2))%nat as Hlits.
  { rewrite <-Hits, entries_app. change (entries (l :: C2)) with (l_items l ++ entries C2).
    rewrite !length_app. lia. }
  unfold memfh_idx_next. erewrite bind_ok by apply gets_run. erewrite bind_ok by by apply load_page_run.
  erewrite bind_ok by (unfold get_pos; erewrite bind_ok by apply gets_run;
    rewrite Hdep, Hc3; by apply of_option_run).
  rewrite <-(leaf_page_len _ _ _ Hlp), Hlen, Hdep.
  destruct (Nat.ltb_spec (a + 1) n) as [Hlt|Hge].
  { erewrite bind_ok by (apply set_pos_run; lia).
    eexists _, true. split; [done|]. split_and!; [done..|]. exists (S a), n. split; [|lia].
    exists T, C1, l, C2, order, π. split_and!; try done.
    - destruct Hinv as [? [] ? ?]. split; [done|by split|done|done].
    - rewrite Nat.add_1_r. by apply cursor_at_update with a.
    - lia. }
  assert (a = n - 1)%nat as -> by lia.
  destruct π as [|[p b] π1 _] using rev_ind.
  { (* the leaf is the root *)
    simpl in *. eexists _, false. do 4 (split; [done|]).
    rewrite (root_leaf_single _ _ _ _ _ _ _ Htr Hdesc) in Hlits. simpl in Hlits. lia. }
  destruct (proj1 (descent_app _ _ _) Hdesc π1 [(p, b)] eq_refl)
    as (z & Hd1 & -> & ks & cs & x0 & Hp & Hb & Ex0). simpl in Ex0. subst x0.
  destruct (r_branch _ _ _ _ _ (i_repr _ _ _ _ _ _ Hinv) _ _ _ Hp) as (upg & Hupg & Hbp & _).
  pose proof (t_branch _ _ _ _ _ Htr _ _ _ Hp) as Bp.
  pose proof (branch_page_len _ _ _ _ Hbp) as Hks. pose proof Hbp as [_ _ _ _ Ecs].
  assert (length (π1 ++ [(p, b)]) = S (length π1)) as HL by (rewrite length_app; simpl; lia).
  rewrite HL in *.
  destruct (Hc1 (length π1) p b) as [Hcp Hcb].
  { by rewrite lookup_app_r, Nat.sub_diag by lia. }
  rewrite bool_decide_false by done. cbv zeta.
  replace (S (length π1) - 1)%nat with (length π1) by (clear; lia).
  erewrite bind_ok by apply set_depth_run.
  erewrite bind_ok by (unfold get_path; erewrite bind_ok by apply gets_run; by apply of_option_run).
  erewrite bind_ok by by apply load_page_run.
  erewrite bind_ok by (unfold get_pos; erewrite bind_ok by apply gets_run; by apply of_option_run).
  rewrite <-Hks. destruct (Nat.ltb_spec b (length ks)) as [Hblt|Hbge].
  2: { eexists _, false. do 4 (split; [done|]).
       assert (l_hi l = None) as Ehi.
       { rewrite (br_hi _ _ _ _ _ _ Bp _ _ Hl Hb). by apply lookup_ge_None_2. }
       rewrite (linked_last _ _ _ _ Hlk Ehi) in Hlits. simpl in Hlits. lia. }
  destruct (lookup_lt_is_Some_2 cs (S b)) as [x Hx]; [rewrite (br_len _ _ _ _ _ _ Bp); lia|].
  erewrite (bind_ok _ _ _ _ x) by by eapply next_child_run.
  destruct (br_scan _ _ _ _ _ _ Bp b l x Hl Hb Hx) as (π2 & l' & Hm & Elo).
  destruct (lookup_lt_is_Some_2 ks b) as [k Hk]; [done|].
  assert (l_hi l = Some k) as Ehi by by rewrite (br_hi _ _ _ _ _ _ Bp _ _ Hl Hb).
  destruct (linked_next _ _ _ _ l' k Hlk) as (C3 & ->);
    [by eapply leftmost_in|done|congruence|].
  assert (descent T (root s) (π1 ++ (p, S b) :: zeros π2) (l_ptr l')) as Hdesc'.
  { apply (descent_join _ _ _ p); [done|]. simpl. split; [done|].
    exists ks, cs, x. split_and!; [done|done|by eapply leftmost_descent]. }
  pose proof (descent_length Htr _ _ _ Hdesc') as Hπ'.
  rewrite length_app in Hπ'. simpl in Hπ'. unfold zeros in Hπ'. rewrite length_fmap in Hπ'.
  assert (S (length π1) + length π2 ≤ 15)%nat as HB by (clear -Hπ' Hord Hnb; lia).
  erewrite bind_ok by (apply set_pos_run; clear -HB; lia).
  destruct (next_descend_run kl T (C1 ++ l :: l' :: C3) order None x π2 l' max_fuel
    (with_cursor (with_cursor s (path s) (pos s) (length π1)) (path s)
       (<[length π1 := S b]> (pos s)) (length π1)) (length π1)) as (P & Q & Hrun & Hcur' & Hpre);
    [done|by do 2 apply index_inv_cursor|clear -HB; lia
    |unfold max_fuel, MEMFH_MAX_DEPTH; clear -HB; lia|].
  replace (b + 1)%nat with (S b) by (clear; lia). rewrite (bind_ok _ _ _ _ _ Hrun).
  eexists _, true. do 4 (split; [done|]).
  exists 0%nat, (length (l_items l')). split.
  - exists T, (C1 ++ [l]), l', C3, order, (π1 ++ (p, S b) :: zeros π2).
    rewrite <-app_assoc. split_and!; try done.
    + destruct Hinv as [? [] ? ?]. split; [done|by split|done|done].
    + eapply cursor_at_app; [exact Hcur|exact Hcur'|exact Hpre].
    + simpl. rewrite length_app. simpl. unfold zeros. rewrite length_fmap. lia.
    + rewrite entries_app, length_app. unfold entries at 2. simpl. rewrite app_nil_r. lia.
  - assert (l_items l' ≠ []) as Hne.
    { eapply index_nonempty; [exact Hinv| |clear; set_solver].
      intros E. rewrite E in Hits. subst its. simpl in Hlits. lia. }
    destruct (l_items l'); [done|]. simpl. lia.
Qed.

(** [memfh_idx_next] on the page under the cursor moves the cursor to the
    next item in key order, across leaves, and answers false exactly when the
    cursor is on the last item. *)
Theorem memfh_idx_next_correct kl s its i idx :
  on_item kl s its i → (length its < capacity kl)%nat → path s !! depth s = Some idx →
  ∃ s' b, memfh_idx_next idx s = (s', inr b) ∧ pages s' = pages s ∧ root s' = root s ∧
    if b : bool then on_item kl s' its (S i) else S i = length its.
Proof.
  intros [nb Hon] Hcap Hidx. pose proof (capacity_nb _ _ _ _ (on_item_index _ _ _ _ _ Hon) Hcap) as Hnb.
  destruct (memfh_idx_next_correct_aux _ _ _ _ _ _ Hon Hnb Hidx) as (s' & b & ? & ? & ? & _ & Hb).
  exists s', b. split; [done|]. split; [done|]. split; [done|]. destruct b; [by exists nb|done].
Qed.

(** *** A whole scan *)

Lemma on_item_current kl s its nb i :
  on_item_nb kl s its nb i → ∃ x, current_item s = (s, inr x) ∧ its !! i = Some x.
Proof.
  intros (a & n & (T & C1 & l & C2 & order & π & Hinv & Hits & _ & _ & (_ & Hp & Hq) & Hdep & Hlen & Hi) & Han).
  assert (l ∈ C1 ++ l :: C2) as Hl by (clear; set_solver).
  destruct (r_leaf _ _ _ _ _ (i_repr _ _ _ _ _ _ Hinv) l Hl) as (pg & Hpg & Hlp & _).
  destruct (lookup_lt_is_Some_2 (l_items l) a) as [[k x] Hx]; [lia|].
  pose proof Hlp as [_ Hkl Hn Eits]. simpl in Hp, Hq.
  assert (idx_buf pg !! a = Some (k, x)) as Hbuf.
  { rewrite Eits in Hx. unfold items in Hx. apply lookup_take_Some in Hx. tauto. }
  exists (k, x). split.
  - unfold current_item. erewrite bind_ok by apply gets_run.
    erewrite bind_ok by (unfold get_path; erewrite bind_ok by apply gets_run;
      rewrite Hdep, Hp; by apply of_option_run).
    erewrite bind_ok by (unfold get_pos; erewrite bind_ok by apply gets_run;
      rewrite Hdep, Hq; by apply of_option_run).
    erewrite bind_ok by by apply load_page_run. erewrite bind_ok by by apply of_option_run.
    cbn [fst snd]. rewrite Hkl, take_ge; [done|].
    pose proof (t_leaves _ _ _ _ _ (i_tree _ _ _ _ _ _ Hinv)) as Hlv. rewrite Forall_forall in Hlv.
    pose proof (Forall_lookup_1 _ _ _ _ (lf_len _ _ (Hlv l Hl)) Hx) as Hk. simpl in Hk. lia.
  - rewrite <-Hits, entries_app, lookup_app_r by lia. subst i.
    rewrite Nat.add_comm, Nat.add_sub. change (entries (l :: C2)) with (l_items l ++ entries C2).
    rewrite lookup_app_l by lia. done.
Qed.

Lemma on_item_path kl s its nb i : on_item_nb kl s its nb i → ∃ idx, path s !! depth s = Some idx.
Proof.
  intros (a & n & (T & C1 & l & C2 & order & π & _ & _ & _ & _ & (_ & Hp & _) & Hdep & _) & _).
  exists (l_ptr l). by rewrite Hdep.
Qed.

Lemma list_loop_run kl its nb fuel s i :
  on_item_nb kl s its nb i → (nb ≤ 15)%nat → (length its ≤ fuel + i)%nat →
  ∃ s', list_loop fuel s = (s', inr (drop (S i) its)) ∧ pages s' = pages s ∧ root s' = root s.
Proof.
  intros Hon Hnb. revert s i Hon. induction fuel as [|fuel IH]; intros s i Hon Hfuel.
  { destruct (on_item_current _ _ _ _ _ Hon) as (x & _ & Hx). apply lookup_lt_Some in Hx. lia. }
  destruct (on_item_path _ _ _ _ _ Hon) as [idx Hidx].
  destruct (memfh_idx_next_correct_aux _ _ _ _ _ _ Hon Hnb Hidx) as (s1 & b & Hrun & Hpg & Hrt & _ & Hb).
  simpl list_loop. erewrite bind_ok by apply gets_run.
  erewrite bind_ok by (unfold get_path; erewrite bind_ok by apply gets_run;
    rewrite Hidx; by apply of_option_run).
  rewrite (bind_ok _ _ _ _ _ Hrun). destruct b.
  - destruct (on_item_current _ _ _ _ _ Hb) as (x & Hcx & Hx). rewrite (bind_ok _ _ _ _ _ Hcx).
    destruct (IH s1 (S i) Hb) as (s2 & Hloop & Hpg2 & Hrt2); [lia|].
    rewrite (bind_ok _ _ _ _ _ Hloop). exists s2. rewrite (drop_S its x (S i) Hx).
    split; [done|]. split; congruence.
  - exists s1. by rewrite Hb, drop_all.
Qed.

Lemma memfh_idx_list_k_aux kl s its nb fuel :
  is_index_nb kl s its nb → (nb ≤ 15)%nat → (length its ≤ fuel)%nat →
  ∃ s', memfh_idx_list_k fuel s = (s', inr its) ∧ pages s' = pages s ∧ root s' = root s.
Proof.
  intros Hidx Hnb Hfuel. unfold memfh_idx_list_k.
  destruct (memfh_idx_first_correct_aux _ _ _ _ Hidx Hnb) as (s1 & b & Hrun & Hpg & Hrt & Hb).
  rewrite (bind_ok _ _ _ _ _ Hrun). destruct b; [|destruct Hb as [-> ->]; eauto].
  destruct (on_item_current _ _ _ _ _ Hb) as (x & Hcx & Hx). rewrite (bind_ok _ _ _ _ _ Hcx).
  destruct (list_loop_run _ _ _ fuel _ _ Hb Hnb) as (s2 & Hloop & Hpg2 & Hrt2); [lia|].
  rewrite (bind_ok _ _ _ _ _ Hloop). exists s2. split; [|split; congruence].
  destruct its; simplify_eq/=. by rewrite drop_0.
Qed.

(** a scan with [memfh_idx_first] and [memfh_idx_next] returns every item of
    the index once, in key order, whatever the splits did to the branch pages. *)
Theorem memfh_idx_list_k_correct kl s its fuel :
  is_index kl s its → (length its < capacity kl)%nat → (length its ≤ fuel)%nat →
  ∃ s', memfh_idx_list_k fuel s = (s', inr its) ∧ pages s' = pages s ∧ root s' = root s.
Proof.
  intros [nb Hidx] Hcap Hfuel. pose proof (capacity_nb _ _ _ _ Hidx Hcap) as Hnb.
  by eapply memfh_idx_list_k_aux.
Qed.
