(* ===== verification/MemfhWrite.v ===== *)
(** Insertion into the page index of src/memfh_idx.c: a write puts the new item at
    its place in key order, through leaf splits, branch splits and new roots, and
    refuses a key the index already holds. *)

From stdpp Require Import prelude gmap strings sorting.
From S2P Require Import Prelude MemfhIdx MemfhTree MemfhPage MemfhInv.

(** ** Order of branch pages along a path *)

Lemma later_trans order a b c : NoDup order → later order a b → later order b c → later order a c.
Proof.
  intros Hnd Hab Hbc. destruct (later_in _ _ _ Hbc) as [Hb _]. destruct (later_in _ _ _ Hab) as [Ha _].
  apply list_elem_of_split in Hb as (pre & rest & ->).
  pose proof (later_split _ _ _ _ Hnd Hbc) as Hc.
  apply elem_of_app in Ha as [Ha|[->|Ha]%elem_of_cons].
  - apply list_elem_of_split in Ha as (p1 & p2 & ->). rewrite <-app_assoc. simpl.
    apply later_intro. set_solver.
  - done.
  - exfalso. apply list_elem_of_split in Ha as (r1 & r2 & ->).
    assert (pre ++ b :: r1 ++ a :: r2 = (pre ++ b :: r1) ++ a :: r2) as E by by rewrite <-app_assoc.
    rewrite E in Hab, Hnd. apply (later_split _ _ _ _ Hnd) in Hab.
    apply NoDup_app in Hnd as (_ & Hd & _). apply (Hd b); set_solver.
Qed.

Lemma later_irrefl order a : NoDup order → ¬ later order a a.
Proof.
  intros Hnd Ha. destruct (later_in _ _ _ Ha) as [Hin _].
  apply list_elem_of_split in Hin as (pre & rest & ->).
  pose proof (later_split _ _ _ _ Hnd Ha) as Hr.
  apply NoDup_app in Hnd as (_ & _ & [Hn _]%NoDup_cons). done.
Qed.

Section descents.
  Context {T : gmap ptr branch} {ch : list leaf} {kl : nat} {order : list ptr} {root : ptr}.
  Hypothesis (Hok : tree_ok T ch kl order root).

Lemma descent_later x π y q a :
  descent T x π y → y ∈ order → (q, a) ∈ π → later order q y.
Proof using Hok.
  intros Hd Hy. revert x q a Hd. induction π as [|[p b] π IH]; intros x q a Hd Hin.
  { by apply not_elem_of_nil in Hin. }
  destruct Hd as (<- & ks & cs & x' & Hx & Hx' & Hd).
  assert (later order x x') as Hl.
  { destruct (br_kids _ _ _ _ _ _ (t_branch _ _ _ _ _ Hok _ _ _ Hx) x') as [Hl|Hl];
      [by eapply list_elem_of_lookup_2| |done].
    exfalso. destruct π as [|[p c] π]; simpl in Hd.
    - subst y. destruct (order_branch Hok _ Hy) as (? & ? & ?). by eapply (branch_not_leaf Hok).
    - destruct Hd as (<- & ? & ? & ? & ? & _). by eapply (branch_not_leaf Hok). }
  apply elem_of_cons in Hin as [[= -> ->]|Hin]; [|by eapply IH].
  destruct π as [|[p c] π]; simpl in Hd; [by subst|].
  assert (x' = p) as <- by apply Hd.
  eapply later_trans; [by apply (order_nodup Hok)|exact Hl|]. eapply (IH x' x' c); [exact Hd|set_solver].
Qed.

End descents.

(** ** The way down to a branch page, as the search left it *)

Definition up_path (T : gmap ptr branch) (s : ixst) (κ : bytes) (d : nat) (g : ptr) : Prop :=
  ∃ π, length π = d ∧ descent T (root s) π g ∧ path s !! d = Some g ∧
    ∀ j q a, π !! j = Some (q, a) →
      path s !! j = Some q ∧ ∃ ks cs, T !! q = Some (ks, cs) ∧ a = pick_ix κ ks.

Lemma descent_leads T ch kl order root κ x π y :
  tree_ok T ch kl order root → descent T x π y → leads T ch x κ →
  (∀ q a, (q, a) ∈ π → ∃ ks cs, T !! q = Some (ks, cs) ∧ a = pick_ix κ ks) →
  leads T ch y κ.
Proof.
  intros Hok. revert x. induction π as [|[p b] π IH]; intros x Hd Hl Hpk.
  { simpl in Hd. by subst. }
  destruct Hd as (<- & ks & cs & x' & Hx & Hx' & Hd).
  destruct (Hpk x b) as (ks' & cs' & Hx2 & ->); [set_solver|]. simplify_eq.
  apply (leads_branch Hok _ _ _ _ Hx) in Hl as (z & Hz & Hl). simplify_eq.
  eapply IH; [exact Hd|done|]. intros q a Hin. apply Hpk. set_solver.
Qed.

Lemma up_path_leads kl s T ch order full κ d g :
  index_inv kl s T ch order full → up_path T s κ d g → leads T ch g κ.
Proof.
  intros Hinv (π & _ & Hd & _ & Hpk). pose proof (i_tree _ _ _ _ _ _ Hinv) as Htr.
  eapply (descent_leads _ _ _ _ _ _ _ _ _ Htr Hd); [apply Htr|].
  intros q a Hin. apply list_elem_of_lookup in Hin as [j Hj]. by apply Hpk in Hj as [_ ?].
Qed.

(** A change of pages that are not above [g] keeps the way down to [g]. *)
Lemma up_path_mono kl s s' T T' ch order full κ d g :
  index_inv kl s T ch order full → g ∈ order → root s' = root s → path s' = path s →
  (∀ q, later order q g → T' !! q = T !! q) →
  up_path T s κ d g → up_path T' s' κ d g.
Proof.
  intros Hinv Hg Hr Hpth HT (π & Hlen & Hd & Hp & Hpk).
  pose proof (i_tree _ _ _ _ _ _ Hinv) as Htr.
  assert (∀ q a, (q, a) ∈ π → T' !! q = T !! q) as HT'.
  { intros q a Hin. apply HT. by eapply (descent_later Htr). }
  exists π. rewrite Hr, Hpth. split_and!; [done| |done|].
  - clear Hlen Hp Hpk Hr. revert Hd. generalize (root s). intros x. revert x.
    induction π as [|[p b] π IH]; intros x Hd; [done|].
    destruct Hd as (<- & ks & cs & x' & Hx & Hx' & Hd). split; [done|]. exists ks, cs, x'.
    split_and!; [rewrite (HT' x b); [done|set_solver]|done|].
    apply IH; [|done]. intros q a Hin. apply (HT' q a). set_solver.
  - intros j q a Hj. destruct (Hpk j q a Hj) as [? (ks & cs & ? & ?)]. split; [done|].
    exists ks, cs. split; [|done]. rewrite (HT' q a); [done|]. by eapply list_elem_of_lookup_2.
Qed.

(** The parent of [g] on the way down. *)
Lemma up_path_parent T s κ d g :
  up_path T s κ (S d) g → ∃ gp ks cs, up_path T s κ d gp ∧ path s !! d = Some gp ∧
    T !! gp = Some (ks, cs) ∧ cs !! pick_ix κ ks = Some g.
Proof.
  intros (π & Hlen & Hd & _ & Hpk). destruct π as [|[gp a] π _] using rev_ind; [done|].
  rewrite length_app in Hlen. simpl in Hlen. assert (length π = d) as <- by lia.
  destruct (proj1 (descent_app _ _ _) Hd π [(gp, a)] eq_refl) as (z & Hd1 & -> & ks & cs & x & Hz & Hx & E).
  simpl in E. subst x. destruct (Hpk (length π) gp a) as [Hp (ks' & cs' & Hz' & ->)].
  { by rewrite lookup_app_r, Nat.sub_diag by lia. }
  simplify_eq. exists gp, ks, cs. split_and!; [|done|done|done].
  exists π. split_and!; [done|done|done|]. intros j q a Hj. apply Hpk.
  by apply lookup_app_l_Some.
Qed.

(** ** Freshness of the next address *)

Lemma fresh_brk kl s T ch order full :
  index_inv kl s T ch order full →
  pages s !! brk s = None ∧ brk s ∉ (l_ptr <$> ch) ++ order.
Proof.
  intros [_ [Hbr Hlf Hbrk] Htr _]. assert (pages s !! brk s = None) as Hn by (apply Hbrk; lia).
  split; [done|]. rewrite elem_of_app. intros [(l & E & Hl)%list_elem_of_fmap|Ho].
  - destruct (Hlf l Hl) as (pg & Hpg & _). congruence.
  - destruct (order_branch Htr _ Ho) as (ks & cs & Hp). destruct (Hbr _ _ _ Hp) as (pg & Hpg & _).
    congruence.
Qed.

Lemma kid_known kl s T ch order full p ks cs x :
  index_inv kl s T ch order full → T !! p = Some (ks, cs) → x ∈ cs →
  x ∈ (l_ptr <$> ch) ++ order.
Proof.
  intros Hinv Hp Hx. pose proof (i_tree _ _ _ _ _ _ Hinv) as Htr.
  apply elem_of_app.
  destruct (br_kids _ _ _ _ _ _ (t_branch _ _ _ _ _ Htr _ _ _ Hp) x Hx) as [(l & Hl & <-)|H].
  - left. by apply list_elem_of_fmap_2.
  - right. by apply later_in in H as [_ H].
Qed.

Lemma branch_head kl pg ks cs k :
  branch_page kl pg ks cs → ks !! 0%nat = Some k → ∃ x, idx_buf pg !! 0%nat = Some (k, x).
Proof.
  intros [_ _ Hn -> _] Hk. rewrite list_lookup_fmap in Hk. unfold items in Hk.
  destruct (take (idx_n pg) (idx_buf pg) !! 0%nat) as [[k0 x]|] eqn:E; [|done].
  apply lookup_take_Some in E as [E _]. simplify_eq/=. by exists x.
Qed.

(** ** How full the pages are *)

Lemma sumk_app T A B : sumk T (A ++ B) = (sumk T A + sumk T B)%nat.
Proof. induction A as [|p A IH]; simpl; [done|]. rewrite IH. lia. Qed.

Lemma sumk_insert_out T p nd order : p ∉ order → sumk (<[p := nd]> T) order = sumk T order.
Proof.
  induction order as [|q order IH]; intros Hn; simpl; [done|].
  apply not_elem_of_cons in Hn as [Hpq Hn]. unfold nkeys. by rewrite lookup_insert_ne, IH.
Qed.

Lemma fill_split h T ch pre g rest q ks cs cs1 cs2 n1 :
  fill h 0 T ch (pre ++ g :: rest) → T !! g = Some (ks, cs) → NoDup (pre ++ g :: rest) →
  q ∉ pre ++ g :: rest → (h ≤ n1)%nat → (h + n1 ≤ length ks)%nat →
  fill h 1 (<[q := (drop n1 ks, cs2)]> (<[g := (take n1 ks, cs1)]> T)) ch (pre ++ g :: q :: rest).
Proof.
  intros [Hlf Hbr Hsum] Hg Hnd Hq Hh1 Hh2.
  apply NoDup_app in Hnd as (_ & Hd & [Hgr _]%NoDup_cons).
  assert (g ∉ pre) as Hgp by (intros ?; apply (Hd g); [done|clear; set_solver]).
  assert ((q ∉ pre) ∧ q ≠ g ∧ (q ∉ rest)) as (Hq1 & Hq2 & Hq3) by (clear -Hq; set_solver).
  split.
  - right. by destruct Hlf as [E|?]; [destruct pre|].
  - intros p ks' cs' Hp Hin. destruct (decide (p = q)) as [->|Hpq].
    { rewrite lookup_insert_eq in Hp. simplify_eq. rewrite length_drop. lia. }
    rewrite lookup_insert_ne in Hp by done. destruct (decide (p = g)) as [->|Hpg].
    { rewrite lookup_insert_eq in Hp. simplify_eq. rewrite length_take. lia. }
    rewrite lookup_insert_ne in Hp by done. eapply Hbr; [exact Hp|].
    destruct pre; simpl in *; [clear -Hin Hpq; set_solver|clear -Hin Hpq Hpg; set_solver].
  - intros _. specialize (Hsum ltac:(by destruct pre)). rewrite sumk_app, !length_app in *. simpl in *.
    rewrite !sumk_insert_out by done. unfold nkeys in *. rewrite lookup_insert_eq.
    rewrite lookup_insert_ne, lookup_insert_eq by done. rewrite Hg in Hsum.
    rewrite length_take, length_drop. lia.
Qed.

Lemma fill_new_root h T ch g rest r k2 cs ksg csg :
  fill h 1 T ch (g :: rest) → T !! g = Some (ksg, csg) → (h ≤ length ksg)%nat →
  r ∉ g :: rest → fill h 0 (<[r := ([k2], cs)]> T) ch (r :: g :: rest).
Proof.
  intros [Hlf Hbr Hsum] Hg Hh Hr. apply not_elem_of_cons in Hr as [Hrg Hr]. split.
  - right. by destruct Hlf.
  - intros p ks' cs' Hp Hin. simpl in Hin. destruct (decide (p = r)) as [->|Hpr].
    { clear -Hin Hr Hrg. set_solver. }
    rewrite lookup_insert_ne in Hp by done. apply elem_of_cons in Hin as [->|Hin]; [by simplify_eq|].
    by eapply Hbr.
  - intros _. specialize (Hsum ltac:(done)). simpl in *. rewrite sumk_insert_out by done.
    unfold nkeys in *. rewrite lookup_insert_eq, lookup_insert_ne by done. simpl. lia.
Qed.

Lemma fill_insert h δ δ' T ch ch' order gp ks cs ks' cs' :
  fill h δ T ch order → T !! gp = Some (ks, cs) → gp ∈ order → NoDup order →
  length ks' = S (length ks) → Forall (λ l, h ≤ length (l_items l))%nat ch' →
  (length ch + 1 + δ' ≤ length ch' + δ)%nat → fill h δ' (<[gp := (ks', cs')]> T) ch' order.
Proof.
  intros [Hlf Hbr Hsum] Hg Hin Hnd Hks' Hch' Hlen. split; [by right| |].
  - intros p k c Hp Hpin. destruct (decide (p = gp)) as [->|Hpg].
    { rewrite lookup_insert_eq in Hp. simplify_eq. specialize (Hbr _ _ _ Hg Hpin). lia. }
    rewrite lookup_insert_ne in Hp by done. by eapply Hbr.
  - intros Hne. specialize (Hsum Hne). apply list_elem_of_split in Hin as (pre & rest & ->).
    apply NoDup_app in Hnd as (_ & Hd & [Hgr _]%NoDup_cons).
    assert (gp ∉ pre) as Hgp by (intros ?; apply (Hd gp); [done|clear; set_solver]).
    rewrite sumk_app in *. simpl in *. rewrite !sumk_insert_out by done. unfold nkeys in *.
    rewrite lookup_insert_eq. rewrite Hg in Hsum. rewrite Hks'. lia.
Qed.

Lemma fill_leaves h δ T ch order : fill h δ T ch order → order ≠ [] →
  Forall (λ l, h ≤ length (l_items l))%nat ch.
Proof. by intros [[?|?] _ _] ?. Qed.

(** ** The steps of an insertion on the invariant *)

Lemma half_bounds n : (2 ≤ n)%nat → (0 < n / 2 < n)%nat ∧ (n - n / 2 < n)%nat.
Proof.
  intros Hn. assert (n / 2 < n)%nat by (apply Nat.div_lt; lia).
  assert (0 < n / 2)%nat by (apply Nat.div_str_pos; lia). lia.
Qed.

Lemma split_branch_index kl s T ch pre rest g ks cs pg :
  index_inv kl s T ch (pre ++ g :: rest) (Some g) → T !! g = Some (ks, cs) →
  pages s !! g = Some pg → idx_n pg = MEMFH_MAX_ITEMS kl →
  let n1 := (length ks / 2)%nat in let q := brk s in
  ∃ s1, split_branch g s = (s1, inr q) ∧
    index_inv kl s1 (<[q := (drop n1 ks, drop n1 cs)]> (<[g := (take n1 ks, take n1 cs ++ [q])]> T))
      ch (pre ++ g :: q :: rest) None ∧
    root s1 = root s ∧ path s1 = path s.
Proof.
  intros Hinv Hg Hpg Hn n1 q. pose proof Hinv as [Hkl [Hbr Hlf Hbrk] Htr Hne].
  destruct (fresh_brk _ _ _ _ _ _ Hinv) as [Hfr Hnew]. fold q in Hfr, Hnew.
  destruct (Hbr _ _ _ Hg) as (pg' & Hpg' & Hbp & _). assert (pg' = pg) as -> by congruence.
  pose proof (max_items_pos kl Hkl) as Hmax. pose proof (branch_page_len _ _ _ _ Hbp) as Hks.
  destruct (split_branch_run s g pg kl ks cs) as (pg1 & pg2 & Hrun & Hb1 & Hb2);
    [done|done|by apply max_items_fits; [|lia]|lia|done|]. fold n1 q in Hrun, Hb1, Hb2.
  destruct (half_bounds (length ks)) as [Hn1 Hn2]; [lia|]. fold n1 in Hn1, Hn2.
  pose proof (branch_page_len _ _ _ _ Hb1) as Hl1. pose proof (branch_page_len _ _ _ _ Hb2) as Hl2.
  rewrite length_take in Hl1. rewrite length_drop in Hl2.
  assert (g ≠ q) as Hgq by congruence.
  eexists. split; [exact Hrun|]. split; [|done]. split; [done| | |].
  - split.
    + intros p ks' cs' Hp. simpl. destruct (decide (p = q)) as [->|Hpq].
      { rewrite lookup_insert_eq in Hp. simplify_eq. exists pg2.
        rewrite lookup_insert_ne, lookup_insert_eq by done. split_and!; [done|done|]. left. lia. }
      rewrite lookup_insert_ne in Hp by done. destruct (decide (p = g)) as [->|Hpg2].
      { rewrite lookup_insert_eq in Hp. simplify_eq. exists pg1.
        rewrite lookup_insert_eq. split_and!; [done|done|]. left. lia. }
      rewrite lookup_insert_ne in Hp by done. destruct (Hbr _ _ _ Hp) as (pg3 & ? & ? & Hn3).
      exists pg3. rewrite !lookup_insert_ne by done. split_and!; [done|done|]. left.
      destruct Hn3 as [?|[_ [= ?]]]; [done|congruence].
    + intros l Hl. destruct (Hlf l Hl) as (pg3 & ? & Hlp & ?). exists pg3. simpl.
      rewrite !lookup_insert_ne; [done| |].
      * intros E. apply Hnew, elem_of_app. left. rewrite E. by apply list_elem_of_fmap_2.
      * intros E. rewrite E in Hg. by rewrite (leaf_not_branch Htr l Hl) in Hg.
    + intros p Hp. simpl in *. rewrite !lookup_insert_ne; [apply Hbrk; lia|subst q; lia|].
      intros ->. rewrite Hbrk in Hpg by lia. done.
  - simpl. eapply split_ok; eauto.
  - right. destruct Hne as [E|?]; [by destruct pre|done].
Qed.

Lemma new_root_index kl s T ch g q rest ks2 cs2 k2 :
  index_inv kl s T ch (g :: rest) None → root s = g → q ∈ rest →
  T !! q = Some (ks2, cs2) → ks2 !! 0%nat = Some k2 →
  ∃ s1, new_root g q s = (s1, inr tt) ∧
    index_inv kl s1 (<[brk s := ([k2], [g; q])]> T) ch (brk s :: g :: rest) None.
Proof.
  intros Hinv Hroot Hq Hq2 Hk2. pose proof Hinv as [Hkl [Hbr Hlf Hbrk] Htr Hne].
  destruct (fresh_brk _ _ _ _ _ _ Hinv) as [Hfr Hnew].
  destruct (order_branch Htr g) as (ks & cs & Hg); [set_solver|].
  destruct (Hbr _ _ _ Hg) as (pg1 & Hpg1 & Hb1 & _). destruct (Hbr _ _ _ Hq2) as (pg2 & Hpg2 & Hb2 & _).
  destruct (branch_head _ _ _ _ _ Hb2 Hk2) as [x Hx].
  pose proof (bp_keylen _ _ _ _ Hb1) as Hk1. pose proof (max_items_pos kl Hkl) as Hmax.
  destruct (new_root_run s g q pg1 pg2 (k2, x) kl) as (pg & Hrun & Hb); [done..|].
  eexists. split; [exact Hrun|]. split; [done| | |].
  - split.
    + intros p ks' cs' Hp. simpl. destruct (decide (p = brk s)) as [->|Hne'].
      * rewrite lookup_insert_eq in Hp. simplify_eq. exists pg. rewrite lookup_insert_eq.
        split_and!; [done|done|]. left. rewrite <-(branch_page_len _ _ _ _ Hb). simpl. lia.
      * rewrite lookup_insert_ne in Hp by done. rewrite lookup_insert_ne by done. by apply Hbr.
    + intros l Hl. simpl. destruct (Hlf l Hl) as (pg3 & ? & ?). exists pg3.
      rewrite lookup_insert_ne; [done|]. intros E. congruence.
    + intros p Hp. simpl in *. rewrite lookup_insert_ne by lia. apply Hbrk. lia.
  - simpl. rewrite Hroot in Htr. eapply new_root_ok; eauto.
  - right. by destruct Hne.
Qed.

(** The new page [q], split off [g], is added to the parent [gp] of [g]. *)
Lemma add_to_parent_index kl s T ch order gp g q ks cs ks2 cs2 k2 κ :
  index_inv kl s T ch order None → T !! gp = Some (ks, cs) → cs !! pick_ix κ ks = Some g →
  later order gp g → later order gp q → T !! q = Some (ks2, cs2) → ks2 !! 0%nat = Some k2 →
  q ∉ cs → leads T ch g κ →
  ∃ s1 ks' cs', add_to_parent gp g q s = (s1, inr tt) ∧
    index_inv kl s1 (<[gp := (ks', cs')]> T) ch order (Some gp) ∧
    root s1 = root s ∧ path s1 = path s ∧ length ks' = S (length ks).
Proof.
  intros Hinv Hgp Hg Hlg Hlq Hq Hk2 Hnq Hleads. pose proof Hinv as [Hkl [Hbr Hlf Hbrk] Htr Hne].
  pose proof (t_branch _ _ _ _ _ Htr _ _ _ Hgp) as Bg. pose proof (pick_ix_le κ ks) as Hle.
  set (i := pick_ix κ ks) in *. set (A := take i cs). set (B := drop (S i) cs).
  set (KA := take i ks). set (KB := drop i ks).
  assert (cs = A ++ g :: B) as Ecs by (symmetry; by apply take_drop_middle).
  assert (ks = KA ++ KB) as Eks by (symmetry; apply take_drop).
  assert (length A = i) as HA.
  { subst A. rewrite length_take, (br_len _ _ _ _ _ _ Bg). lia. }
  assert (length KA = length A) as HKA by (rewrite HA; subst KA; rewrite length_take; lia).
  rewrite Ecs, Eks in Hgp. destruct (Hbr _ _ _ Hgp) as (pg & Hpg & Hbp & Hn).
  assert (idx_n pg < MEMFH_MAX_ITEMS kl)%nat as Hn' by (by destruct Hn as [?|[_ ?]]).
  destruct (Hbr _ _ _ Hq) as (pg2 & Hpg2 & Hb2 & _). destruct (branch_head _ _ _ _ _ Hb2 Hk2) as [x Hx].
  destruct (add_to_parent_run s gp pg kl KA KB A B g q pg2 (k2, x)) as (pg' & Hrun & Hb');
    [done|done|done|by rewrite <-Ecs; apply Bg|apply max_items_fits; [done|lia]|done|done|].
  simpl in Hb'. pose proof (branch_page_len _ _ _ _ Hb') as Hl'.
  pose proof (branch_page_len _ _ _ _ Hbp) as Hl. rewrite length_app in Hl, Hl'. simpl in Hl'.
  exists (with_pages s (<[gp := pg']> (pages s))), (KA ++ k2 :: KB), (A ++ g :: q :: B).
  split; [exact Hrun|]. split.
  2: { split_and!; [done|done|]. rewrite Eks, !length_app. simpl. lia. }
  split; [done| | |].
  - split.
    + intros p ks' cs' Hp. simpl. destruct (decide (p = gp)) as [->|Hne'].
      * rewrite lookup_insert_eq in Hp. simplify_eq. exists pg'. rewrite lookup_insert_eq.
        split_and!; [done|done|].
        destruct (decide (idx_n pg' < MEMFH_MAX_ITEMS kl)%nat); [by left|]. right. split; [lia|done].
      * rewrite lookup_insert_ne in Hp by done. rewrite lookup_insert_ne by done.
        destruct (Hbr _ _ _ Hp) as (pg3 & ? & ? & [?|[_ ?]]); [|done]. exists pg3. auto.
    + intros l Hl0. simpl. destruct (Hlf l Hl0) as (pg3 & ? & ?). exists pg3.
      rewrite lookup_insert_ne; [done|]. intros ->. by rewrite (leaf_not_branch Htr l Hl0) in Hgp.
    + intros p Hp. simpl in *. rewrite lookup_insert_ne; [by apply Hbrk|].
      intros ->. rewrite Hbrk in Hpg by done. done.
  - simpl. apply (ins_ok (gp := gp) (p := g) (p5 := q) (ks5 := ks2) (cs5 := cs2) (κ := κ) (root := root s));
      try done; by rewrite <-?Ecs, <-?Eks, ?HA.
  - done.
Qed.

(** ** Splits that climb to the root *)

(** The second half of [memfh_idx_insert_parent], after the new item is in. *)
Definition grow (d : nat) (parent : ptr) : M ixst unit :=
  pg ← load_page parent;
  if (idx_n pg <? MEMFH_MAX_ITEMS (idx_keylen pg))%nat then mret tt
  else
    new ← split_branch parent;
    match d with
    | O => new_root parent new
    | S d' => memfh_idx_insert_parent d' parent new
    end.

Lemma insert_parent_unfold d idx1 idx2 s parent s1 :
  path s !! d = Some parent → add_to_parent parent idx1 idx2 s = (s1, inr tt) →
  memfh_idx_insert_parent d idx1 idx2 s = grow d parent s1.
Proof.
  intros Hp Hadd. destruct d; simpl;
    (erewrite bind_ok by (unfold get_path; erewrite bind_ok by apply gets_run; rewrite Hp; by apply of_option_run));
    by rewrite (bind_ok _ _ _ _ _ Hadd).
Qed.

Lemma repr_not_full kl s T ch g pg :
  repr kl s T ch (Some g) → pages s !! g = Some pg → (idx_n pg < MEMFH_MAX_ITEMS kl)%nat →
  repr kl s T ch None.
Proof.
  intros [Hbr Hlf Hbrk] Hpg Hn. split; [|done|done].
  intros p ks cs Hp. destruct (Hbr p ks cs Hp) as (pg' & Hpg' & ? & [?|[? [= ->]]]); exists pg';
    split_and!; auto. assert (pg' = pg) as -> by congruence. lia.
Qed.

Lemma grow_run kl ch κ d : ∀ s T order g,
  index_inv kl s T ch order (Some g) → g ∈ order → up_path T s κ d g →
  fill (half kl) 0 T ch order →
  ∃ s' T' order', grow d g s = (s', inr tt) ∧ index_inv kl s' T' ch order' None ∧
    fill (half kl) 0 T' ch order'.
Proof.
  induction d as [|d IH]; intros s T order g Hinv Hg Hup Hfill;
    pose proof Hinv as [Hkl Hrep Htr Hne];
    destruct (order_branch Htr _ Hg) as (ks & cs & HTg);
    destruct (r_branch _ _ _ _ _ Hrep _ _ _ HTg) as (pg & Hpg & Hbp & Hn);
    unfold grow; erewrite bind_ok by (by apply load_page_run); rewrite (bp_keylen _ _ _ _ Hbp).
  all: destruct (Nat.ltb_spec (idx_n pg) (MEMFH_MAX_ITEMS kl)) as [Hlt|Hge];
    [exists s, T, order; split_and!; [done| |done]; split; [done|by eapply repr_not_full|done|done]|].
  all: assert (idx_n pg = MEMFH_MAX_ITEMS kl) as Hmax by lia;
    apply list_elem_of_split in Hg as (pre & rest & ->);
    destruct (split_branch_index _ _ _ _ _ _ _ _ _ _ Hinv HTg Hpg Hmax) as (s1 & Hsp & Hinv1 & Hr1 & Hp1);
    rewrite (bind_ok _ _ _ _ _ Hsp);
    set (n1 := (length ks / 2)%nat) in *; set (q := brk s) in *;
    pose proof (max_items_pos kl Hkl) as Hmp; pose proof (branch_page_len _ _ _ _ Hbp) as Hks;
    destruct (half_bounds (length ks)) as [Hn1 Hn2]; [lia|]; fold n1 in Hn1, Hn2;
    destruct (lookup_lt_is_Some_2 ks n1) as [k2 Hk2]; [lia|];
    assert (drop n1 ks !! 0%nat = Some k2) as Hk2' by (by rewrite lookup_drop, Nat.add_0_r);
    assert (n1 = half kl) as Hn1h by (subst n1; unfold half; by rewrite Hks, Hmax);
    destruct (fresh_brk _ _ _ _ _ _ Hinv) as [_ Hnew]; fold q in Hnew;
    assert (q ∉ pre ++ g :: rest) as Hqo by (intros ?; apply Hnew, elem_of_app; by right);
    assert (half kl + half kl ≤ length ks)%nat as Hhalf
      by (rewrite Hks, Hmax; unfold half; pose proof (Nat.div_mod_eq (MEMFH_MAX_ITEMS kl) 2); lia);
    pose proof (fill_split (half kl) T ch pre g rest q ks cs (take n1 cs ++ [q]) (drop n1 cs) n1
      Hfill HTg (order_nodup Htr) Hqo ltac:(lia) ltac:(lia)) as Hfill1.
  - destruct Hup as (π & Hπ & Hd & _). apply length_zero_iff_nil in Hπ as ->. simpl in Hd.
    assert (pre = []) as ->.
    { pose proof (t_root _ _ _ _ _ Htr) as Hroot. destruct pre as [|r pre]; [done|].
      simpl in Hroot. pose proof (order_nodup Htr) as Hnd. simpl in Hnd.
      apply NoDup_cons in Hnd as [Hnd _]. destruct Hnd. rewrite <-Hroot, Hd. set_solver. }
    destruct (new_root_index kl s1 _ ch g q (q :: rest) (drop n1 ks) (drop n1 cs) k2 Hinv1)
      as (s2 & Hrun & Hinv2); [congruence|clear; set_solver|apply lookup_insert_eq|done|].
    eexists _, _, _. split_and!; [exact Hrun|exact Hinv2|].
    destruct (fresh_brk _ _ _ _ _ _ Hinv1) as [_ Hnew1].
    eapply fill_new_root; [exact Hfill1| | |].
    + rewrite lookup_insert_ne by (intros E; apply Hqo; rewrite E; clear; set_solver). apply lookup_insert_eq.
    + rewrite length_take. lia.
    + intros ?. apply Hnew1, elem_of_app. by right.
  - destruct (up_path_parent _ _ _ _ _ Hup) as (gp & ksg & csg & Hupg & Hpathg & HTgp & Hkid).
    pose proof (order_nodup Htr) as Hnd. pose proof (order_nodup (i_tree _ _ _ _ _ _ Hinv1)) as Hnd1.
    assert (later (pre ++ g :: rest) gp g) as Hlg.
    { destruct (br_kids _ _ _ _ _ _ (t_branch _ _ _ _ _ Htr _ _ _ HTgp) g) as [Hl|Hl];
        [by eapply list_elem_of_lookup_2| |done]. by destruct (branch_not_leaf Htr _ _ HTg). }
    assert (gp ∈ pre ++ g :: rest) as Hgpin by by apply later_in in Hlg as [? _].
    assert (gp ≠ g) as Hgpg by (intros ->; exact (later_irrefl _ _ Hnd Hlg)).
    assert (gp ≠ q) as Hgpq by (intros ->; apply Hnew, elem_of_app; by right).
    assert (later (pre ++ g :: q :: rest) gp g) as Hlg1 by by apply split_later.
    assert (later (pre ++ g :: q :: rest) gp q) as Hlq1.
    { eapply later_trans; [done|exact Hlg1|]. apply later_intro. set_solver. }
    edestruct (add_to_parent_index kl s1 _ ch _ gp g q ksg csg (drop n1 ks) (drop n1 cs) k2 κ Hinv1)
      as (s2 & ks' & cs' & Hadd & Hinv2 & Hr2 & Hp2 & Hks2).
    + by rewrite !lookup_insert_ne.
    + done.
    + done.
    + done.
    + apply lookup_insert_eq.
    + done.
    + intros Hq. by apply Hnew, (kid_known _ _ _ _ _ _ _ _ _ _ Hinv HTgp).
    + eapply split_leads; eauto. by eapply up_path_leads.
    + erewrite insert_parent_unfold; [|by rewrite Hp1|exact Hadd].
      destruct (IH s2 _ _ gp Hinv2) as (s3 & T3 & order3 & Hrun & Hinv3 & Hfill3);
        [clear -Hgpin; set_solver| | |].
      * eapply (up_path_mono kl s s2 T); [exact Hinv|exact Hgpin|congruence|congruence| |exact Hupg].
        intros x Hx. destruct (later_in _ _ _ Hx) as [Hxin _].
        assert (x ≠ gp) by (intros ->; exact (later_irrefl _ _ Hnd Hx)).
        assert (x ≠ g).
        { intros ->. exact (later_irrefl _ _ Hnd (later_trans _ _ _ _ Hnd Hx Hlg)). }
        assert (x ≠ q) by (intros ->; apply Hnew, elem_of_app; by right).
        by rewrite !lookup_insert_ne.
      * eapply fill_insert; [exact Hfill1| |clear -Hgpin; set_solver|done|exact Hks2| |lia].
        -- rewrite !lookup_insert_ne by done. exact HTgp.
        -- eapply fill_leaves; [exact Hfill|]. by destruct pre.
      * exists s3, T3, order3. split_and!; [exact Hrun|done|done].
Qed.

(** ** The new item in its leaf *)

(** The items with [(κ, r)] at its place. *)
Definition ins_item {A} (κ : bytes) (r : A) (its : list (bytes * A)) : list (bytes * A) :=
  take (lower_ix κ its) its ++ (κ, r) :: drop (lower_ix κ its) its.

Lemma Forall_keys (P : bytes → Prop) (A : list slot) :
  Forall P (fst <$> A) ↔ ∀ x, x ∈ A → P (fst x).
Proof.
  rewrite Forall_forall. split; intros H.
  - intros x Hx. by apply H, list_elem_of_fmap_2.
  - intros k (x & -> & Hx)%list_elem_of_fmap. auto.
Qed.

Lemma keys_sorted_app A B :
  keys_sorted (A ++ B) ↔ keys_sorted A ∧ keys_sorted B ∧
    ∀ x y, x ∈ A → y ∈ B → lex_lt (fst x) (fst y).
Proof.
  unfold keys_sorted. rewrite fmap_app. induction A as [|a A IH]; simpl.
  { split; [|tauto]. intros ?. split_and!; [constructor|done|]. by intros x y ?%not_elem_of_nil. }
  split.
  - intros H. inversion H as [|? ? Hs Hall]; subst. apply IH in Hs as (H1 & H2 & H3).
    apply Forall_app in Hall as [HA HB]. rewrite Forall_keys in HB.
    split_and!; [by constructor|done|].
    intros x y [->|Hx]%elem_of_cons Hy; [by apply HB|by apply H3].
  - intros (H1 & H2 & H3). inversion H1 as [|? ? Hs Hall]; subst. constructor.
    + apply IH. split_and!; [done|done|]. intros x y Hx Hy. apply H3; [by right|done].
    + rewrite Forall_app. split; [done|]. rewrite Forall_keys. intros y Hy. apply H3; [by left|done].
Qed.

Lemma lower_ix_split κ (its : list slot) : keys_sorted its → κ ∉ fst <$> its →
  (∀ x, x ∈ take (lower_ix κ its) its → lex_lt (fst x) κ) ∧
  (∀ x, x ∈ drop (lower_ix κ its) its → lex_lt κ (fst x)).
Proof.
  induction its as [|a its IH]; simpl; intros Hs Hn.
  { by split; intros x ?%not_elem_of_nil. }
  inversion Hs as [|? ? Hs' Hall]; subst. rewrite not_elem_of_cons in Hn. destruct Hn as [Hne Hn].
  destruct (lex_cmp κ (fst a)) eqn:E.
  - by apply lex_cmp_eq in E.
  - split; [by intros x ?%not_elem_of_nil|]. simpl. intros x [->|Hx]%elem_of_cons; [done|].
    rewrite Forall_keys in Hall. etrans; [exact E|]. by apply Hall.
  - destruct (IH Hs' Hn) as [H1 H2]. simpl. split; [|done].
    intros x [->|Hx]%elem_of_cons; [by apply lex_gt|auto].
Qed.

Lemma ins_item_perm {A} κ (r : A) its : ins_item κ r its ≡ₚ (κ, r) :: its.
Proof. unfold ins_item. rewrite <-Permutation_middle. by rewrite take_drop. Qed.

Lemma ins_item_sorted κ (r : ptr) its :
  keys_sorted its → κ ∉ fst <$> its → keys_sorted (ins_item κ r its).
Proof.
  intros Hs Hn. destruct (lower_ix_split _ _ Hs Hn) as [H1 H2].
  rewrite <-(take_drop (lower_ix κ its) its) in Hs. apply keys_sorted_app in Hs as (Hs1 & Hs2 & H3).
  unfold ins_item. apply keys_sorted_app. split_and!; [done| |].
  - unfold keys_sorted. simpl. constructor; [done|]. by rewrite Forall_keys.
  - intros x y Hx [->|Hy]%elem_of_cons; simpl; auto.
Qed.

Lemma ins_item_app_lt κ (r : ptr) A B :
  (∀ x, x ∈ A → lex_lt (fst x) κ) → ins_item κ r (A ++ B) = A ++ ins_item κ r B.
Proof.
  intros H. unfold ins_item. rewrite lower_ix_app_lt by done.
  by rewrite take_app_add, drop_app_add, <-app_assoc.
Qed.

Lemma ins_item_app_gt κ (r : ptr) A B :
  (∀ x, x ∈ B → lex_lt κ (fst x)) → ins_item κ r (A ++ B) = ins_item κ r A ++ B.
Proof.
  intros H. unfold ins_item. rewrite lower_ix_app_gt by done. pose proof (lower_ix_le κ A).
  rewrite take_app_le, drop_app_le by done. by rewrite <-app_assoc.
Qed.

(** [l] with other items. *)
Definition with_items (l : leaf) (its : list slot) : leaf :=
  mk_leaf (l_ptr l) (l_lo l) (l_hi l) its.

Lemma ins_leaf_ok kl l κ r :
  leaf_ok kl l → owns l κ → length κ = kl → κ ∉ fst <$> l_items l →
  leaf_ok kl (with_items l (ins_item κ r (l_items l))).
Proof.
  intros [Hs Hl Ho] Hown Hlen Hn. split; simpl.
  - by apply ins_item_sorted.
  - by rewrite ins_item_perm, Forall_cons.
  - by rewrite ins_item_perm, Forall_cons.
Qed.

(** The two halves of a leaf. *)
Lemma halves_ok kl l n1 q k x :
  leaf_ok kl l → (0 < n1)%nat → l_items l !! n1 = Some (k, x) →
  cuts l k ∧ leaf_ok kl (left_leaf l k (take n1 (l_items l))) ∧
  leaf_ok kl (right_leaf l k q (drop n1 (l_items l))) ∧ length k = kl.
Proof.
  intros [Hs Hl Ho] Hn1 Hk. pose proof Hs as Hs'.
  rewrite <-(take_drop n1 (l_items l)) in Hs'. apply keys_sorted_app in Hs' as (Hs1 & Hs2 & H12).
  pose proof (Forall_lookup_1 _ _ _ _ Ho Hk) as [Hklo Hkhi]. simpl in Hklo, Hkhi.
  pose proof (Forall_lookup_1 _ _ _ _ Hl Hk) as Hkl. simpl in Hkl.
  assert ((k, x) ∈ drop n1 (l_items l)) as Hkin by (rewrite (drop_S _ _ _ Hk); set_solver).
  destruct (lookup_lt_is_Some_2 (l_items l) (n1 - 1)) as [y Hy].
  { apply lookup_lt_Some in Hk. lia. }
  assert (y ∈ take n1 (l_items l)) as Hyin.
  { apply (list_elem_of_lookup_2 _ (n1 - 1)%nat). rewrite lookup_take_lt by lia. exact Hy. }
  assert (lex_lt (fst y) k) as Hyk by (apply (H12 _ _ Hyin Hkin)).
  pose proof (Forall_lookup_1 _ _ _ _ Ho Hy) as [Hylo _].
  split_and!; [split| | |done].
  - destruct (l_lo l) as [k0|]; [|done]. simpl in Hylo.
    apply lex_not_lt in Hylo as [E|?]; [by rewrite <-E|by etrans].
  - done.
  - split; simpl; [done|by apply Forall_take|]. rewrite Forall_forall. intros z Hz. split; simpl.
    + rewrite Forall_forall in Ho. apply Ho. by eapply elem_of_sublist; [|apply sublist_take].
    + by apply (H12 _ _ Hz Hkin).
  - split; simpl; [done|by apply Forall_drop|]. rewrite Forall_forall. intros z Hz. split; simpl.
    + rewrite (drop_S _ _ _ Hk) in Hz, Hs2. unfold keys_sorted in Hs2. simpl in Hs2.
      inversion Hs2 as [|? ? _ Hall]; subst. rewrite Forall_keys in Hall.
      apply elem_of_cons in Hz as [->|Hz]; simpl; [by rewrite lex_cmp_refl|].
      apply lex_not_lt. right. by apply Hall.
    + rewrite Forall_forall in Ho. apply Ho. by eapply elem_of_sublist; [|apply sublist_drop].
Qed.

(** ** Leaf splits *)

(** [s4] is [s] with leaf [l] split in two pages, the second one not linked yet. *)
Record leaf_split (kl : nat) (s s4 : ixst) (l : leaf) (q : ptr) (its1 its2 : list slot) : Prop := {
  ls_brk : brk s4 = (brk s + 1)%Z;
  ls_q : q = brk s;
  ls_root : root s4 = root s;
  ls_pages : ∃ pg1 pg2, pages s4 = <[l_ptr l := pg1]> (<[q := pg2]> (pages s)) ∧
    leaf_page kl pg1 its1 ∧ leaf_page kl pg2 its2 ∧
    (idx_n pg1 < MEMFH_MAX_ITEMS kl)%nat ∧ (idx_n pg2 < MEMFH_MAX_ITEMS kl)%nat;
}.

Lemma leaf_head kl pg its k x :
  leaf_page kl pg its → its !! 0%nat = Some (k, x) → idx_buf pg !! 0%nat = Some (k, x).
Proof. intros [_ _ _ ->] Hk. unfold items in Hk. apply lookup_take_Some in Hk. tauto. Qed.

Lemma shape_middle C1 C2 l its :
  shape <$> (C1 ++ l :: C2) = shape <$> (C1 ++ with_items l its :: C2).
Proof. by rewrite !fmap_app. Qed.

Lemma fat_tree_ok T C1 C2 l its kl order root :
  tree_ok T (C1 ++ l :: C2) kl order root → leaf_ok kl (with_items l its) →
  tree_ok T (C1 ++ with_items l its :: C2) kl order root.
Proof.
  intros Htr Hlf. eapply tree_ok_reshape; [apply shape_middle| |exact Htr].
  pose proof (t_leaves _ _ _ _ _ Htr) as Hlv. apply Forall_app in Hlv as [H1 [_ H2]%Forall_cons].
  apply Forall_app. split; [done|]. by constructor.
Qed.

Section split.
  Context {kl : nat} {s s4 : ixst} {T : gmap ptr branch} {C1 C2 : list leaf} {l : leaf}.
  Context {order : list ptr} {q : ptr} {its : list slot} {n1 : nat} {k : bytes} {x : ptr}.
  Hypothesis (Hinv : index_inv kl s T (C1 ++ l :: C2) order None).
  Hypothesis (Hfat : leaf_ok kl (with_items l its)).
  Hypothesis (Hk : its !! n1 = Some (k, x)).
  Hypothesis (Hn1 : (0 < n1)%nat).
  Hypothesis (Hls : leaf_split kl s s4 l q (take n1 its) (drop n1 its)).

Let l1 := left_leaf l k (take n1 its).
Let l2 := right_leaf l k q (drop n1 its).

Lemma split_chain_nonempty :
  order = [] ∨ Forall (λ l, l_items l ≠ []) (C1 ++ l :: C2) →
  C1 ++ C2 = [] ∨ order ≠ [] → Forall (λ l, l_items l ≠ []) (C1 ++ l1 :: l2 :: C2).
Proof.
  intros Hne Hor. apply lookup_lt_Some in Hk as Hlt.
  assert (l_items l1 ≠ [] ∧ l_items l2 ≠ []) as [H1 H2].
  { simpl. rewrite <-!length_zero_iff_nil, length_take, length_drop. lia. }
  assert (Forall (λ l, l_items l ≠ []) (C1 ++ C2)) as Hall.
  { destruct Hor as [->|Ho]; [constructor|]. destruct Hne as [?|Hne]; [done|].
    apply Forall_app in Hne as [? [_ ?]%Forall_cons]. by apply Forall_app. }
  apply Forall_app in Hall as [??]. apply Forall_app. split; [done|]. by repeat constructor.
Qed.

(** Pages and leaves after the split. *)
Lemma split_leaf_pages l0 : l0 ∈ C1 ++ l1 :: l2 :: C2 →
  ∃ pg, pages s4 !! l_ptr l0 = Some pg ∧ leaf_page kl pg (l_items l0) ∧
    (idx_n pg < MEMFH_MAX_ITEMS kl)%nat.
Proof.
  destruct Hls as [_ Hq _ (pg1 & pg2 & Hpages & Hp1 & Hp2 & Hn & Hn')].
  destruct (fresh_brk _ _ _ _ _ _ Hinv) as [Hfr Hnew]. rewrite <-Hq in Hfr, Hnew.
  pose proof (i_tree _ _ _ _ _ _ Hinv) as Htr.
  assert (l ∈ C1 ++ l :: C2) as Hl by (clear; set_solver).
  assert (l_ptr l ≠ q) as Hlq.
  { intros E. apply Hnew, elem_of_app. left. rewrite <-E. by apply list_elem_of_fmap_2. }
  intros Hl0. rewrite Hpages.
  destruct (sl_old (k := k) (q := q) (its1 := take n1 its) (its2 := drop n1 its) Htr l0 Hl0)
    as [->|[->|[Hin Hne]]].
  - exists pg1. simpl. by rewrite lookup_insert_eq.
  - exists pg2. simpl. by rewrite lookup_insert_ne, lookup_insert_eq.
  - destruct (r_leaf _ _ _ _ _ (i_repr _ _ _ _ _ _ Hinv) l0 Hin) as (pg & Hpg & ?).
    exists pg. rewrite !lookup_insert_ne; [done| |].
    + intros E. congruence.
    + intros E. apply Hne. symmetry. by apply (leaf_inj Htr).
Qed.

Lemma split_brk p : (brk s4 ≤ p)%Z → pages s4 !! p = None.
Proof.
  destruct Hls as [Hb Hq _ (pg1 & pg2 & Hpages & _)]. intros Hp.
  pose proof (i_repr _ _ _ _ _ _ Hinv) as [_ Hlf Hbrk].
  destruct (Hlf l) as (pg & Hpg & _); [clear; set_solver|].
  rewrite Hpages, !lookup_insert_ne; [apply Hbrk; lia|lia|].
  intros <-. rewrite Hbrk in Hpg by lia. done.
Qed.

Lemma split_branch_pages p ks cs : T !! p = Some (ks, cs) →
  ∃ pg, pages s4 !! p = Some pg ∧ branch_page kl pg ks cs ∧ (idx_n pg < MEMFH_MAX_ITEMS kl)%nat.
Proof.
  destruct Hls as [_ Hq _ (pg1 & pg2 & Hpages & _)]. intros Hp.
  destruct (fresh_brk _ _ _ _ _ _ Hinv) as [Hfr _]. rewrite <-Hq in Hfr.
  pose proof (i_tree _ _ _ _ _ _ Hinv) as Htr.
  destruct (r_branch _ _ _ _ _ (i_repr _ _ _ _ _ _ Hinv) _ _ _ Hp) as (pg & Hpg & Hb & Hn).
  exists pg. rewrite Hpages, !lookup_insert_ne.
  - destruct Hn as [?|[_ ?]]; [|done]. auto.
  - intros E. congruence.
  - intros E. rewrite <-E in Hp. by rewrite (leaf_not_branch Htr l) in Hp by (clear; set_solver).
Qed.

(** The leaf had a parent [gp], which gets the new leaf. *)
Lemma split_leaf_parent gp ks cs i :
  T !! gp = Some (ks, cs) → cs !! i = Some (l_ptr l) →
  ∃ s5 ks' cs', add_to_parent gp (l_ptr l) q s4 = (s5, inr tt) ∧
    index_inv kl s5 (<[gp := (ks', cs')]> T) (C1 ++ l1 :: l2 :: C2) order (Some gp) ∧
    root s5 = root s4 ∧ path s5 = path s4 ∧ length ks' = S (length ks).
Proof.
  intros Hgp Hi. pose proof Hinv as [Hkl Hrep Htr Hne].
  pose proof (t_branch _ _ _ _ _ Htr _ _ _ Hgp) as Bg.
  pose proof Hls as [_ Hq Hroot (pg1 & pg2 & Hpages & Hp1 & Hp2 & _)].
  destruct (fresh_brk _ _ _ _ _ _ Hinv) as [_ Hnew]. rewrite <-Hq in Hnew.
  assert (i < length cs)%nat as Hilt by by eapply lookup_lt_Some.
  pose proof (br_len _ _ _ _ _ _ Bg) as Hlen.
  set (A := take i cs). set (B := drop (S i) cs). set (KA := take i ks). set (KB := drop i ks).
  assert (cs = A ++ l_ptr l :: B) as Ecs by (symmetry; by apply take_drop_middle).
  assert (ks = KA ++ KB) as Eks by (symmetry; apply take_drop).
  assert (length A = i) as HA by (subst A; rewrite length_take; lia).
  assert (length KA = length A) as HKA by (rewrite HA; subst KA; rewrite length_take; lia).
  rewrite Ecs, Eks in Hgp. destruct (split_branch_pages _ _ _ Hgp) as (pg & Hpg & Hbp & Hn).
  assert (drop n1 its !! 0%nat = Some (k, x)) as Hk' by by rewrite lookup_drop, Nat.add_0_r.
  assert (pages s4 !! q = Some pg2) as Hq2.
  { rewrite Hpages, lookup_insert_ne by
      (intros E; apply Hnew, elem_of_app; left; rewrite <-E; apply list_elem_of_fmap_2; clear; set_solver).
    by rewrite lookup_insert_eq. }
  destruct (add_to_parent_run s4 gp pg kl KA KB A B (l_ptr l) q pg2 (k, x)) as (pg' & Hrun & Hb');
    [done|done|done|by rewrite <-Ecs; apply Bg|apply max_items_fits; [done|lia]|done|by eapply leaf_head|].
  simpl in Hb'. pose proof (branch_page_len _ _ _ _ Hb') as Hl'.
  pose proof (branch_page_len _ _ _ _ Hbp) as Hl. rewrite length_app in Hl, Hl'. simpl in Hl'.
  destruct (halves_ok kl (with_items l its) n1 q k x Hfat Hn1 Hk) as (Hcut & Hok1 & Hok2 & Hkk).
  assert (order ≠ []) as Hor.
  { intros E. assert (gp ∈ order) as Hin by (apply (t_dom _ _ _ _ _ Htr); by eexists).
    rewrite E in Hin. by apply not_elem_of_nil in Hin. }
  exists (with_pages s4 (<[gp := pg']> (pages s4))), (KA ++ k :: KB), (A ++ l_ptr l :: q :: B).
  split; [exact Hrun|]. split.
  2: { split_and!; [done|done|]. rewrite Eks, !length_app. simpl. lia. }
  split; [done| | |].
  - split.
    + intros p ks' cs' Hp. simpl. destruct (decide (p = gp)) as [->|Hne'].
      * rewrite lookup_insert_eq in Hp. injection Hp as <- <-. exists pg'. rewrite lookup_insert_eq.
        split_and!; [done|done|].
        destruct (decide (idx_n pg' < MEMFH_MAX_ITEMS kl)%nat); [by left|]. right. split; [lia|done].
      * rewrite lookup_insert_ne in Hp by done. rewrite lookup_insert_ne by done.
        destruct (split_branch_pages _ _ _ Hp) as (pg3 & ? & ? & ?). exists pg3. auto.
    + intros l0 Hl0. simpl. destruct (split_leaf_pages l0 Hl0) as (pg3 & Hpg3 & Hlp3 & ?). exists pg3.
      rewrite lookup_insert_ne; [done|]. intros E.
      rewrite <-E in Hpg3. assert (pg3 = pg) as -> by congruence.
      pose proof (lp_tp _ _ _ Hlp3) as Etp. by rewrite (bp_tp _ _ _ _ Hbp) in Etp.
    + intros p Hp. simpl in *. rewrite lookup_insert_ne; [by apply split_brk|].
      intros ->. rewrite split_brk in Hpg by done. done.
  - simpl. rewrite Hroot.
    apply (sl_ok (l := with_items l its) (p := gp) (its1 := take n1 its) (its2 := drop n1 its));
      try done; [by apply fat_tree_ok|].
    replace (l_ptr <$> C1 ++ with_items l its :: C2) with (l_ptr <$> C1 ++ l :: C2) by by rewrite !fmap_app.
    done.
  - right. by apply split_chain_nonempty; [|right].
Qed.

(** The leaf was the root; a new root branch is put over the two leaves. *)
Lemma split_leaf_root :
  order = [] → root s = l_ptr l →
  ∃ s5 T', new_root (l_ptr l) q s4 = (s5, inr tt) ∧
    index_inv kl s5 T' (C1 ++ l1 :: l2 :: C2) [brk s4] None ∧
    (∀ h, (h ≤ n1)%nat → (h + n1 ≤ length its)%nat → fill h 0 T' (C1 ++ l1 :: l2 :: C2) [brk s4]).
Proof.
  intros Ho Hrl. pose proof Hinv as [Hkl Hrep Htr Hne].
  pose proof (t_root _ _ _ _ _ Htr) as Hch. rewrite Ho in Hch. destruct Hch as (l0 & Ech & _).
  assert (C1 = [] ∧ C2 = []) as [E1 E2].
  { clear -Ech. destruct C1 as [|c C1']; [by injection Ech as _ ->|]. by destruct C1'. }
  pose proof Hls as [Hb Hq Hroot (pg1 & pg2 & Hpages & Hp1 & Hp2 & _)].
  destruct (fresh_brk _ _ _ _ _ _ Hinv) as [_ Hnew]. rewrite <-Hq in Hnew.
  assert (l_ptr l ≠ q) as Hlq.
  { intros E. apply Hnew, elem_of_app. left. rewrite <-E. apply list_elem_of_fmap_2. clear; set_solver. }
  assert (drop n1 its !! 0%nat = Some (k, x)) as Hk' by by rewrite lookup_drop, Nat.add_0_r.
  pose proof (max_items_pos kl Hkl) as Hmax.
  destruct (new_root_run s4 (l_ptr l) q pg1 pg2 (k, x) kl) as (pg & Hrun & Hbp).
  - by rewrite Hpages, lookup_insert_eq.
  - apply Hp1.
  - done.
  - by rewrite Hpages, lookup_insert_ne, lookup_insert_eq.
  - by eapply leaf_head.
  - destruct (halves_ok kl (with_items l its) n1 q k x Hfat Hn1 Hk) as (Hcut & Hok1 & Hok2 & Hkk).
    assert (pages s4 !! brk s4 = None) as Hfr by (apply split_brk; lia).
    eexists _, (<[brk s4 := ([k], [l_ptr l; q])]> T). split; [exact Hrun|]. split.
    2: { intros h Hh1 Hh2. rewrite E1, E2. split.
         - right. apply Forall_cons. split; [simpl; rewrite length_take; lia|].
           apply Forall_singleton. simpl. rewrite length_drop. lia.
         - simpl. by intros p ks cs _ ?%not_elem_of_nil.
         - intros _. simpl. unfold nkeys. rewrite lookup_insert_eq. simpl. lia. }
    split; [done| | |].
    + split.
      * intros p ks cs Hp. simpl. destruct (decide (p = brk s4)) as [->|Hne'].
        -- rewrite lookup_insert_eq in Hp. injection Hp as <- <-. exists pg. rewrite lookup_insert_eq.
           split_and!; [done|done|]. left. rewrite <-(branch_page_len _ _ _ _ Hbp). simpl. lia.
        -- rewrite lookup_insert_ne in Hp by done.
           assert (p ∈ order) as Hin by (apply (t_dom _ _ _ _ _ Htr); by eexists).
           rewrite Ho in Hin. by apply not_elem_of_nil in Hin.
      * intros l3 Hl3. simpl. destruct (split_leaf_pages l3 Hl3) as (pg3 & Hpg3 & ?). exists pg3.
        rewrite lookup_insert_ne; [done|]. intros E. congruence.
      * intros p Hp. simpl in *. rewrite lookup_insert_ne by lia. apply split_brk. lia.
    + simpl. rewrite E1, E2.
      apply (split_root_leaf_ok T kl (with_items l its) k q (brk s4) (take n1 its) (drop n1 its));
        try done.
      * apply (fat_tree_ok T [] [] l its); [|done]. pose proof Htr as Htr0.
        by rewrite E1, E2, Ho, Hrl in Htr0.
      * assert (brk s4 ≠ q) as Hbq by lia.
        assert (brk s4 ≠ l_ptr l) as Hbl.
        { intros E. rewrite E, Hpages, lookup_insert_eq in Hfr. done. }
        simpl. clear -Hlq Hbq Hbl. apply NoDup_cons. split; [set_solver|].
        apply NoDup_cons. split; [set_solver|]. apply NoDup_singleton.
    + right. apply split_chain_nonempty; [done|]. left. by rewrite E1, E2.
Qed.

End split.

(** ** The write *)

Lemma route_picks T ch κ x π l : route T ch κ x π l →
  ∀ q a, (q, a) ∈ π → ∃ ks cs, T !! q = Some (ks, cs) ∧ a = pick_ix κ ks.
Proof.
  induction 1 as [|p ks cs x π l Hp Hx _ IH]; intros q a Hin; [by apply not_elem_of_nil in Hin|].
  apply elem_of_cons in Hin as [[= -> ->]|Hin]; eauto.
Qed.

Lemma index_inv_ext kl s s' T ch order full :
  index_inv kl s T ch order full → brk s' = brk s → pages s' = pages s → root s' = root s →
  index_inv kl s' T ch order full.
Proof.
  intros [? [] ? ?] Hb Hp Hr. split; [done| |by rewrite Hr|done].
  split; [by rewrite Hp|by rewrite Hp|]. by rewrite Hp, Hb.
Qed.

(** The new item fits: the leaf keeps its place in the chain. *)
Lemma write_fits kl s s' T C1 l C2 order its pg :
  index_inv kl s T (C1 ++ l :: C2) order None → leaf_ok kl (with_items l its) → its ≠ [] →
  leaf_page kl pg its → (length its < MEMFH_MAX_ITEMS kl)%nat →
  brk s' = brk s → root s' = root s → pages s' = <[l_ptr l := pg]> (pages s) →
  index_inv kl s' T (C1 ++ with_items l its :: C2) order None.
Proof.
  intros Hinv Hfat Hnil Hlp Hn Hb Hr Hp. pose proof Hinv as [Hkl [Hbr Hlf Hbrk] Htr Hne].
  assert (l ∈ C1 ++ l :: C2) as Hl by (clear; set_solver).
  split; [done| |rewrite Hr; by apply fat_tree_ok|].
  - split.
    + intros p ks cs HT. destruct (Hbr p ks cs HT) as (pg' & ? & ?). exists pg'.
      rewrite Hp, lookup_insert_ne; [done|]. intros E. rewrite <-E in HT.
      by rewrite (leaf_not_branch Htr l Hl) in HT.
    + intros l0 Hl0. rewrite Hp. destruct (decide (l_ptr l = l_ptr l0)) as [E|E].
      * assert (l0 = with_items l its) as ->.
        { apply (leaf_inj (fat_tree_ok _ _ _ _ _ _ _ _ Htr Hfat)); [done|clear; set_solver|done]. }
        exists pg. simpl. rewrite lookup_insert_eq, <-(leaf_page_len _ _ _ Hlp). done.
      * rewrite lookup_insert_ne by done. apply Hlf.
        apply elem_of_app in Hl0 as [?|[->|?]%elem_of_cons]; [clear -H; set_solver|done|clear -H; set_solver].
    + intros p Hp'. rewrite Hb in Hp'. rewrite Hp, lookup_insert_ne; [by apply Hbrk|].
      intros <-. destruct (Hlf l Hl) as (pg' & Hpg' & _). by rewrite Hbrk in Hpg' by done.
  - destruct Hne as [?|Hne]; [by left|right].
    apply Forall_app in Hne as [? [_ ?]%Forall_cons]. apply Forall_app. split; [done|]. by constructor.
Qed.

Lemma entries_ins kl T C1 l C2 order root κ r :
  tree_ok T (C1 ++ l :: C2) kl order root → owns l κ →
  ins_item κ r (entries (C1 ++ l :: C2)) =
    entries C1 ++ ins_item κ r (l_items l) ++ entries C2.
Proof.
  intros Htr Hown. destruct (owner_split _ _ _ _ _ _ _ _ Htr Hown) as [H1 H2].
  rewrite entries_app, ins_item_app_lt by done. f_equal.
  change (entries (l :: C2)) with (l_items l ++ entries C2). by apply ins_item_app_gt.
Qed.

(** [memfh_idx_write] after the new item is in the leaf. *)
Definition write_tail (π : list (ptr * nat)) (idx : ptr) : M ixst unit :=
  pg ← load_page idx;
  if (idx_n pg <? MEMFH_MAX_ITEMS (idx_keylen pg))%nat then mret tt
  else
    idx2 ← split_leaf idx;
    match length π with
    | O => new_root idx idx2
    | S d' => memfh_idx_insert_parent d' idx idx2
    end.

Lemma root_leaf_order T C1 l C2 kl order root :
  tree_ok T (C1 ++ l :: C2) kl order root → root = l_ptr l → order = [].
Proof.
  intros Htr E. pose proof (t_root _ _ _ _ _ Htr) as Hroot. destruct order as [|r order]; [done|].
  subst r. destruct (order_branch Htr root) as (ks & cs & Hr); [clear; set_solver|].
  destruct (branch_not_leaf Htr _ _ Hr). exists l. split; [clear; set_solver|done].
Qed.

Lemma write_tail_run kl s s3 T C1 l C2 order π its pg κ :
  index_inv kl s T (C1 ++ l :: C2) order None → leaf_ok kl (with_items l its) → its ≠ [] →
  leaf_page kl pg its → (length its ≤ MEMFH_MAX_ITEMS kl)%nat →
  brk s3 = brk s → root s3 = root s → pages s3 = <[l_ptr l := pg]> (pages s) →
  route T (C1 ++ l :: C2) κ (root s) π l →
  (∀ j q a, π !! j = Some (q, a) → path s3 !! j = Some q) →
  fill (half kl) 0 T (C1 ++ l :: C2) order → (length (l_items l) ≤ length its)%nat →
  ∃ s' T' ch' order', write_tail π (l_ptr l) s3 = (s', inr tt) ∧
    index_inv kl s' T' ch' order' None ∧ entries ch' = entries C1 ++ its ++ entries C2 ∧
    fill (half kl) 0 T' ch' order'.
Proof.
  intros Hinv Hfat Hnil Hlp Hn Hb Hr Hp Hroute Hpath Hfill Hgrow. pose proof Hinv as [Hkl Hrep Htr Hne].
  pose proof (leaf_page_len _ _ _ Hlp) as Hlen. pose proof (max_items_pos kl Hkl) as Hmax.
  assert (pages s3 !! l_ptr l = Some pg) as Hpg by (rewrite Hp; apply lookup_insert_eq).
  unfold write_tail. erewrite bind_ok by by apply load_page_run.
  rewrite (lp_keylen _ _ _ Hlp), <-Hlen. destruct (Nat.ltb_spec (length its) (MEMFH_MAX_ITEMS kl)).
  { exists s3, T, (C1 ++ with_items l its :: C2), order. split_and!; [done| | |].
    - by eapply write_fits.
    - by rewrite entries_app.
    - destruct Hfill as [Hfl Hfb Hfs]. split; [|done|by rewrite length_app in *].
      destruct Hfl as [?|Hfl]; [by left|right]. apply Forall_app in Hfl as [? [? ?]%Forall_cons].
      apply Forall_app. split; [done|]. apply Forall_cons. split; [simpl; lia|done]. }
  assert (pages s3 !! brk s3 = None) as Hfr.
  { destruct (fresh_brk _ _ _ _ _ _ Hinv) as [Hfr Hnew]. rewrite Hb, Hp, lookup_insert_ne; [done|].
    intros E. apply Hnew, elem_of_app. left. rewrite <-E. apply list_elem_of_fmap_2. clear; set_solver. }
  destruct (split_leaf_run s3 (l_ptr l) pg kl its) as (pg1 & pg2 & Hrun & Hp1 & Hp2);
    [done|done|rewrite <-Hlen; by apply max_items_fits|lia|done|].
  rewrite (bind_ok _ _ _ _ _ Hrun). set (n1 := (length its / 2)%nat) in *. set (q := brk s3) in *.
  destruct (half_bounds (length its)) as [Hn1 Hn2]; [lia|]. fold n1 in Hn1, Hn2.
  destruct (lookup_lt_is_Some_2 its n1) as [[k x] Hk]; [lia|].
  set (s4 := with_new s3 (<[l_ptr l := pg1]> (<[q := pg2]> (pages s3)))) in *.
  assert (leaf_split kl s s4 l q (take n1 its) (drop n1 its)) as Hls.
  { split; [simpl; lia|done|done|]. exists pg1, pg2. split_and!; [|done|done| |].
    - simpl. rewrite Hp, (insert_insert_ne _ q) by
        (intros E; rewrite E in Hfr; by rewrite Hfr in Hpg). by rewrite insert_insert_eq.
    - rewrite <-(leaf_page_len _ _ _ Hp1), length_take. lia.
    - rewrite <-(leaf_page_len _ _ _ Hp2), length_drop. lia. }
  assert (n1 = half kl ∧ half kl + n1 ≤ length its)%nat as [Hn1h Hhalf].
  { assert (length its = MEMFH_MAX_ITEMS kl) as E by lia. subst n1. unfold half. rewrite E.
    pose proof (Nat.div_mod_eq (MEMFH_MAX_ITEMS kl) 2). lia. }
  assert (entries (C1 ++ left_leaf l k (take n1 its) :: right_leaf l k q (drop n1 its) :: C2) =
    entries C1 ++ its ++ entries C2) as Hent.
  { rewrite entries_app. f_equal. unfold entries. simpl. by rewrite app_assoc, take_drop. }
  pose proof (route_descent _ _ _ _ _ _ Hroute) as Hdesc.
  destruct π as [|[gp b] π _] using rev_ind.
  - simpl in Hdesc. assert (order = []) as Ho by by eapply root_leaf_order.
    destruct (split_leaf_root Hinv Hfat Hk ltac:(lia) Hls Ho Hdesc) as (s5 & T' & Hroot & Hinv' & Hf').
    eexists _, _, _, _. split_and!; [exact Hroot|exact Hinv'|exact Hent|apply Hf'; lia].
  - destruct (proj1 (descent_app _ _ _) Hdesc π [(gp, b)] eq_refl)
      as (z & Hd1 & -> & ks & cs & x0 & Hgp & Hb0 & Ex0). simpl in Ex0. subst x0.
    assert (length (π ++ [(gp, b)]) = S (length π)) as HL by (rewrite length_app; simpl; lia).
    rewrite HL. destruct (split_leaf_parent Hinv Hfat Hk ltac:(lia) Hls gp ks cs b Hgp Hb0)
      as (s5 & ks' & cs' & Hadd & Hinv' & Hr5 & Hp5 & Hks5).
    assert (path s4 !! length π = Some gp) as Hgpath.
    { apply (Hpath _ gp b). by rewrite lookup_app_r, Nat.sub_diag by lia. }
    rewrite (insert_parent_unfold _ _ _ _ gp s5 Hgpath Hadd).
    assert (gp ∈ order) as Hgpo by (apply (t_dom _ _ _ _ _ Htr); by eexists).
    destruct (grow_run kl _ κ (length π) s5 _ order gp Hinv' Hgpo) as (s6 & T6 & order6 & Hg & Hinv6 & Hf6).
    + apply (up_path_mono kl (with_cursor s (path s3) (pos s3) (depth s3)) s5 T
        _ (C1 ++ l :: C2) order None); [by apply index_inv_cursor|done|by rewrite Hr5|by rewrite Hp5| |].
      * intros y Hy. rewrite lookup_insert_ne; [done|].
        intros ->. exact (later_irrefl _ _ (order_nodup Htr) Hy).
      * exists π. split_and!; [done|done|exact Hgpath|]. intros j y a Hj.
        assert ((π ++ [(gp, b)]) !! j = Some (y, a)) as Hj' by by apply lookup_app_l_Some.
        split; [by apply (Hpath _ _ a)|].
        apply (route_picks _ _ _ _ _ _ Hroute). by eapply list_elem_of_lookup_2.
    + eapply fill_insert; [exact Hfill|exact Hgp|done|apply (order_nodup Htr)|exact Hks5| |].
      * assert (order ≠ []) as Hno by (intros E; rewrite E in Hgpo; by apply not_elem_of_nil in Hgpo).
        pose proof (fill_leaves _ _ _ _ _ Hfill Hno) as Hfl.
        apply Forall_app in Hfl as [? [? ?]%Forall_cons]. apply Forall_app. split; [done|].
        apply Forall_cons. split; [simpl; rewrite length_take; lia|].
        apply Forall_cons. split; [simpl; rewrite length_drop; lia|done].
      * rewrite !length_app. simpl. lia.
    + eexists _, _, _, _. split_and!; [exact Hg|exact Hinv6|exact Hent|exact Hf6].
Qed.

Lemma memfh_idx_write_aux kl s its nb key r :
  is_index_nb kl s its nb → (nb ≤ 15)%nat → (kl ≤ length key)%nat → take kl key ∉ fst <$> its →
  ∃ s', memfh_idx_write key r s = (s', inr tt) ∧ is_index kl s' (ins_item (take kl key) r its).
Proof.
  intros (T & ch & order & Hinv & Hits & [Hord Hfill]) Hnb Hlen Hnew. subst nb.
  set (κ := take kl key) in *. assert (length κ = kl) as Hκ by (subst κ; rewrite length_take; lia).
  destruct (search_run _ _ _ _ _ _ _ Hinv Hnb Hlen) as (π & l & P & Q & Hroute & Hrun & Hcur).
  fold κ in Hroute, Hrun, Hcur. pose proof (i_tree _ _ _ _ _ _ Hinv) as Htr.
  destruct (route_owns _ _ _ _ _ _ Hroute) as [Hl Hown].
  pose proof (route_descent _ _ _ _ _ _ Hroute) as Hdesc.
  pose proof (descent_length Htr _ _ _ Hdesc) as Hπ.
  apply list_elem_of_split in Hl as (C1 & C2 & ->).
  pose proof (owner_has_key _ _ _ _ _ _ _ _ Htr Hown) as Hhas.
  rewrite <-Hits in Hnew. unfold has_key in Hhas.
  rewrite (bool_decide_false (κ ∈ _)) in Hhas by exact Hnew.
  symmetry in Hhas. apply bool_decide_eq_false in Hhas.
  set (its1 := ins_item κ r (l_items l)).
  assert (l ∈ C1 ++ l :: C2) as Hl by (clear; set_solver).
  pose proof (t_leaves _ _ _ _ _ Htr) as Hlv. rewrite Forall_forall in Hlv.
  pose proof (ins_leaf_ok _ _ κ r (Hlv l Hl) Hown Hκ Hhas) as Hfat. fold its1 in Hfat.
  destruct (r_leaf _ _ _ _ _ (i_repr _ _ _ _ _ _ Hinv) l Hl) as (pg & Hpg & Hlp & Hn).
  pose proof (i_kl _ _ _ _ _ _ Hinv) as Hkl. destruct Hcur as (Hcp & HcP & HcQ). simpl in HcP, HcQ.
  pose proof (entries_ins _ _ _ _ _ _ _ _ r Htr Hown) as Hent. rewrite Hits in Hent. fold its1 in Hent.
  assert (length its1 = S (length (l_items l))) as Hlen1.
  { subst its1. by rewrite (ins_item_perm κ r (l_items l)). }
  set (s2 := mk_ix (brk s) (pages s) (root s) P Q (length π) (num_writes s + 1) (num_reads s)).
  destruct (add_to_leaf_run s2 (l_ptr l) pg kl (l_items l) (lower_ix κ (l_items l)) key r)
    as (pg' & Hadd & Hlp'); [done|done| |apply lower_ix_le|].
  { rewrite (leaf_page_len _ _ _ Hlp). apply max_items_fits; [done|lia]. }
  change (leaf_page kl pg' its1) in Hlp'.
  set (s3 := with_pages s2 (<[l_ptr l := pg']> (pages s2))) in *.
  assert (pages s3 !! l_ptr l = Some pg') as Hpg3 by apply lookup_insert_eq.
  assert (memfh_idx_write key r s = write_tail π (l_ptr l) s3) as ->.
  { unfold memfh_idx_write. rewrite (bind_ok _ _ _ _ _ Hrun). rewrite bool_decide_false.
    2: { unfold search_result, has_key. rewrite bool_decide_false by done. by destruct (_ <? _)%nat. }
    erewrite bind_ok by done. erewrite bind_ok by apply gets_run.
    erewrite bind_ok by (unfold get_path; erewrite bind_ok by apply gets_run;
      cbn [depth path with_cursor]; rewrite HcP; by apply of_option_run).
    erewrite bind_ok by (unfold get_pos; erewrite bind_ok by apply gets_run;
      cbn [depth pos with_cursor]; rewrite HcQ; by apply of_option_run).
    cbn [depth with_cursor]. by rewrite (bind_ok _ _ _ _ _ Hadd). }
  assert (length its1 ≤ MEMFH_MAX_ITEMS kl)%nat as Hmax1
    by (rewrite Hlen1, (leaf_page_len _ _ _ Hlp); lia).
  assert (its1 ≠ []) as Hnil by (intros E; rewrite E in Hlen1; done).
  destruct (write_tail_run kl s s3 T C1 l C2 order π its1 pg' κ)
    as (s' & T' & ch' & order' & Htail & Hinv' & Hent' & Hfill'); try done.
  { intros j q a Hj. by destruct (Hcp j q a Hj). }
  { lia. }
  exists s'. split; [exact Htail|]. exists (length order'), T', ch', order'.
  split_and!; [done| |done]. by rewrite Hent', <-Hent.
Qed.

(** A key the index holds stops the program. *)
Lemma write_duplicate kl s its nb key r :
  is_index_nb kl s its nb → (nb ≤ 15)%nat → (kl ≤ length key)%nat → take kl key ∈ fst <$> its →
  ∃ s', memfh_idx_write key r s = (s', inl Exit) ∧ pages s' = pages s.
Proof.
  intros Hidx Hnb Hlen Hin.
  destruct (memfh_idx_search_correct_aux _ _ _ _ key Hidx Hnb Hlen) as (s' & r0 & Hrun & Hr & Hp & _).
  exists s'. split; [|done]. unfold memfh_idx_write. rewrite (bind_ok _ _ _ _ _ Hrun).
  by rewrite bool_decide_true by by apply Hr.
Qed.

Lemma entries_sorted kl lo ch :
  linked lo ch → Forall (leaf_ok kl) ch → keys_sorted (entries ch).
Proof.
  revert lo. induction ch as [|l ch IH]; intros lo Hlk Hok; [done|].
  apply Forall_cons in Hok as [Hl Hok].
  change (entries (l :: ch)) with (l_items l ++ entries ch). apply keys_sorted_app.
  split_and!; [apply Hl| |].
  - destruct Hlk as [_ Hlk]. destruct ch; [constructor|]. destruct Hlk as (k & _ & _ & Hlk). by eapply IH.
  - intros x y Hx Hy. destruct (entries_keys _ _ _ Hok Hy) as (l' & Hl' & _ & Ho).
    pose proof (lf_own _ _ Hl) as Hown. rewrite Forall_forall in Hown.
    by eapply (owner_after lo [] l ch); [exact Hlk|apply Hown| |].
Qed.

Lemma is_index_sorted kl s its nb : is_index_nb kl s its nb → keys_sorted its.
Proof.
  intros (T & ch & order & Hinv & <- & _). pose proof (i_tree _ _ _ _ _ _ Hinv) as Htr.
  by eapply entries_sorted; apply Htr.
Qed.

(** On the item of a key, the item under the cursor is that key's. *)
Lemma lower_ix_item (its : list slot) k r : keys_sorted its → (k, r) ∈ its → its !! lower_ix k its = Some (k, r).
Proof.
  induction its as [|[k' r'] its IH]; intros Hs Hin; [by apply not_elem_of_nil in Hin|].
  inversion Hs as [|? ? Hs' Hall]; subst. simpl. change (Forall (lex_lt k') (fst <$> its)) in Hall.
  rewrite Forall_keys in Hall. destruct (lex_cmp k k') eqn:E.
  - apply lex_cmp_eq in E as ->. apply elem_of_cons in Hin as [?|Hin]; [by simplify_eq|].
    destruct (irreflexivity lex_lt k'). by apply (Hall (k', r)).
  - exfalso. apply elem_of_cons in Hin as [?|Hin]; [simplify_eq; by rewrite lex_cmp_refl in E|].
    apply (irreflexivity lex_lt k). etrans; [exact E|]. by apply (Hall (k, r)).
  - apply elem_of_cons in Hin as [?|Hin]; [simplify_eq; by rewrite lex_cmp_refl in E|]. by apply IH.
Qed.

Lemma cursor_current kl s its nb k r :
  on_item_nb kl s its nb (lower_ix k its) → keys_sorted its → (k, r) ∈ its →
  current_item s = (s, inr (k, r)).
Proof.
  intros Hon Hs Hin. destruct (on_item_current _ _ _ _ _ Hon) as (x & Hx & Hl).
  rewrite (lower_ix_item _ _ _ Hs Hin) in Hl. by simplify_eq.
Qed.

(** A page that is the whole index: the state [memfh_open] leaves, or a file of
    fewer records than a page holds. *)
Lemma one_leaf_index kl s pg its :
  (kl ≤ 256)%nat → pages s = {[root s := pg]} → leaf_page kl pg its →
  keys_sorted its → Forall (λ x, length (fst x) = kl) its →
  (length its < MEMFH_MAX_ITEMS kl)%nat → (root s < brk s)%Z → is_index kl s its.
Proof.
  intros Hkl Hp Hlp Hs Hl Hn Hb. set (l := mk_leaf (root s) None None its).
  assert (∀ l0, l0 ∈ [l] → l0 = l) as Hone by set_solver.
  exists 0%nat, ∅, [l], []. split; [|split].
  2: { unfold entries. simpl. by rewrite app_nil_r. }
  2: { split; [done|]. split; [by left| |done]. intros p ks cs. by rewrite lookup_empty. }
  split; [done| | |by left].
  - split.
    + intros p ks cs. by rewrite lookup_empty.
    + intros l0 ->%Hone. exists pg. rewrite Hp, lookup_singleton_eq.
      rewrite <-(leaf_page_len _ _ _ Hlp). done.
    + intros p Hpb. rewrite Hp, lookup_singleton_ne by lia. done.
  - split; try done.
    + apply Forall_singleton. split; simpl; [done|done|]. by apply Forall_true.
    + simpl. apply NoDup_singleton.
    + intros p. rewrite lookup_empty. split; [by intros ?%not_elem_of_nil|by intros [? ?]].
    + by exists l.
    + intros κ. exists [], l. apply (route_leaf _ _ _ l); [set_solver|done].
    + exists [], l. split; [|done]. apply (leftmost_leaf _ _ l). set_solver.
Qed.

(** C1: In an index of fewer items than [capacity] - 644 with keys of 256 bytes, the longest,
    313,490 with keys of 10 - [memfh_idx_write] of a key the index does not hold puts the item at
    its place in key order and keeps every other item, through any splits of leaves,
    branches and root; it returns without a write outside a page or an array.  A key
    the index holds stops the program and leaves the pages as they were.  (Beyond the capacity
    the order of the writes decides: the array path has 16 places, which a search can exceed,
    see [path_overflow].) *)
Theorem memfh_idx_write_correct kl s its key r :
  is_index kl s its → (length its < capacity kl)%nat → (kl ≤ length key)%nat →
  if has_key (take kl key) its then
    ∃ s', memfh_idx_write key r s = (s', inl Exit) ∧ pages s' = pages s
  else
    ∃ s', memfh_idx_write key r s = (s', inr tt) ∧ is_index kl s' (ins_item (take kl key) r its).
Proof.
  intros [nb Hidx] Hcap Hlen. pose proof (capacity_nb _ _ _ _ Hidx Hcap) as Hnb.
  unfold has_key. destruct (bool_decide_reflect (take kl key ∈ fst <$> its)) as [Hin|Hin].
  - by eapply write_duplicate.
  - by eapply memfh_idx_write_aux.
Qed.

(** Writing a list of items one after the other. *)
Fixpoint write_all (l : list slot) : M ixst unit :=
  match l with
  | [] => mret tt
  | (key, r) :: l' => memfh_idx_write key r;; write_all l'
  end.

Definition ins_all (l : list slot) (its : list slot) : list slot :=
  fold_left (λ its x, ins_item (fst x) (snd x) its) l its.

Lemma ins_all_perm l its : ins_all l its ≡ₚ l ++ its.
Proof.
  revert its. induction l as [|[k r] l IH]; intros its; simpl; [done|].
  rewrite IH, (ins_item_perm k r its). by rewrite Permutation_middle.
Qed.

Lemma write_all_run kl l : ∀ s its,
  is_index kl s its → (length l + length its ≤ capacity kl)%nat →
  Forall (λ x, length (fst x) = kl) l → NoDup (fst <$> l ++ its) →
  ∃ s', write_all l s = (s', inr tt) ∧ is_index kl s' (ins_all l its).
Proof.
  induction l as [|[k r] l IH]; intros s its Hidx Hcap Hlen Hnd; simpl in *; [eauto|].
  apply Forall_cons in Hlen as [Hk Hlen]. simpl in Hk. apply NoDup_cons in Hnd as [Hn Hnd].
  rewrite fmap_app, not_elem_of_app in Hn. destruct Hn as [Hn1 Hn2].
  pose proof Hidx as [nb Hidx'].
  destruct (memfh_idx_write_aux kl s its nb k r Hidx') as (s1 & Hw & Hidx1).
  - apply (capacity_nb _ _ _ _ Hidx'). lia.
  - lia.
  - by rewrite take_ge by lia.
  - rewrite take_ge in Hidx1 by lia. rewrite (bind_ok _ _ _ _ _ Hw).
    apply IH; [done| |done|].
    + rewrite (ins_item_perm k r its). simpl. lia.
    + rewrite (ins_item_perm k r its), <-Permutation_middle. simpl.
      apply NoDup_cons. split; [|done]. rewrite fmap_app, not_elem_of_app. done.
Qed.

(** Records written one after the other under distinct keys, as many as
    [capacity], are all found by a search and a scan lists exactly them, in key
    order: 644 records for the longest keys. *)
Theorem memfh_load_scan kl s l :
  is_index kl s [] → (length l < capacity kl)%nat →
  Forall (λ x, length (fst x) = kl) l → NoDup (fst <$> l) →
  ∃ s', write_all l s = (s', inr tt) ∧
    (∀ k r, (k, r) ∈ l → ∃ s2, memfh_idx_search k s' = (s2, inr 0%Z) ∧
       snd (current_item s2) = inr (k, r)) ∧
    ∃ s3 its, memfh_idx_list_k (length l) s' = (s3, inr its) ∧ its ≡ₚ l ∧ keys_sorted its.
Proof.
  intros Hidx Hcap Hlen Hnd.
  destruct (write_all_run kl l s [] Hidx) as (s' & Hw & [nb Hidx']); [simpl; lia|done|by rewrite app_nil_r|].
  pose proof (ins_all_perm l []) as Hperm. rewrite app_nil_r in Hperm.
  set (its := ins_all l []) in *. assert (length its = length l) as Hli by (by rewrite Hperm).
  assert (nb ≤ 15)%nat as Hnb by (apply (capacity_nb _ _ _ _ Hidx'); lia).
  pose proof (is_index_sorted _ _ _ _ Hidx') as Hsort.
  exists s'. split; [done|]. split.
  - intros k r Hin. assert (length k = kl) as Hk.
    { rewrite Forall_forall in Hlen. by apply (Hlen (k, r)). }
    assert ((k, r) ∈ its) as Hin' by by rewrite Hperm.
    destruct (memfh_idx_search_correct_aux kl s' its nb k Hidx' Hnb) as (s2 & r0 & Hs & Hr & _ & _ & Hcur); [lia|].
    rewrite take_ge in Hr, Hcur by lia. exists s2.
    assert (r0 = 0%Z) as -> by (apply Hr; by apply (list_elem_of_fmap_2 fst) in Hin').
    split; [done|]. rewrite bool_decide_true in Hcur by done.
    by rewrite (cursor_current _ _ _ _ _ _ Hcur Hsort Hin').
  - destruct (memfh_idx_list_k_aux _ _ _ _ (length l) Hidx' Hnb) as (s3 & Hl & _); [lia|].
    by exists s3, its.
Qed.

(** ** Concrete instances *)

(** An index on 2-byte keys that holds "aa" and "cc". *)
Definition ix_example : ixst :=
  mk_ix 2 {[ 1%Z := mk_page MEMFH_LEAF 2 2 0 [(bs "aa", 10%Z); (bs "cc", 30%Z)] ]} 1 ∅ ∅ 0 0 0.

Definition ix_items : list slot := [(bs "aa", 10%Z); (bs "cc", 30%Z)].

Lemma ix_example_index : is_index 2 ix_example ix_items.
Proof.
  apply (one_leaf_index 2 ix_example (mk_page MEMFH_LEAF 2 2 0 ix_items)); try done.
  - lia.
  - unfold keys_sorted. repeat constructor.
  - repeat constructor.
  - unfold MEMFH_MAX_ITEMS. simpl. apply Nat.ltb_lt. by vm_compute.
Defined.

(** Keys of 256 bytes: 55 in descending order, then blocks of 50, each in descending order and
    after the one before it: a branch that splits gets its new sibling as its last child, so that
    the search for a key between them passes both. *)
Definition deep_key (t : bytes) : bytes := replicate 253 65%Z ++ t.
Definition deep_items : list slot :=
  ((λ i, (deep_key [2; 0; 55 - Z.of_nat i], 1)%Z) <$> seq 0 55) ++
  (b ← seq 0 14; (λ j, (deep_key [1; Z.of_nat b; 50 - Z.of_nat j], 1)%Z) <$> seq 0 50).
Definition deep_empty : ixst := mk_ix 256 {[ 1%Z := mk_page MEMFH_LEAF 256 0 0 [] ]} 1 ∅ ∅ 0 0 0.

(** The write of record 756 of a file loaded in that order, and a read there, go past the arrays
    path and pos. *)
Lemma path_overflow :
  let '(s, r) := write_all deep_items deep_empty in
  r = inr tt ∧ length deep_items = 755%nat ∧
  snd (memfh_idx_write (deep_key [1; 14; 50]%Z) 1%Z s) = inl Fault ∧
  snd (memfh_idx_search (deep_key [1; 14; 50]%Z) s) = inl Fault.
Proof. vm_compute. by split_and!. Qed.

Lemma ix_capacity : (length ix_items < capacity 2)%nat.
Proof. apply Nat.ltb_lt. by vm_compute. Defined.

Lemma memfh_idx_write_correct_witness :
  ∃ s', memfh_idx_write (bs "bb") 20 ix_example = (s', inr tt) ∧
    is_index 2 s' (ins_item (bs "bb") 20%Z ix_items).
Proof.
  apply (memfh_idx_write_correct 2 ix_example ix_items (bs "bb") 20);
    [apply ix_example_index|apply ix_capacity|simpl; lia].
Defined.

(** The state of a file just opened, on 2-byte keys. *)
Definition ix_empty : ixst :=
  mk_ix 2 {[ 1%Z := mk_page MEMFH_LEAF 2 0 0 [] ]} 1 ∅ ∅ 0 0 0.

Lemma ix_empty_index : is_index 2 ix_empty [].
Proof.
  apply (one_leaf_index 2 ix_empty (mk_page MEMFH_LEAF 2 0 0 [])); try done; [lia|constructor|].
  apply Nat.ltb_lt. by vm_compute.
Defined.

Lemma memfh_load_scan_witness :
  ∃ s', write_all [(bs "cc", 3%Z); (bs "aa", 1%Z); (bs "bb", 2%Z)] ix_empty = (s', inr tt) ∧
    ∃ s2, memfh_idx_search (bs "aa") s' = (s2, inr 0%Z) ∧ snd (current_item s2) = inr (bs "aa", 1%Z).
Proof.
  destruct (memfh_load_scan 2 ix_empty [(bs "cc", 3%Z); (bs "aa", 1%Z); (bs "bb", 2%Z)])
    as (s' & Hw & Hs & _).
  - apply ix_empty_index.
  - apply Nat.ltb_lt. by vm_compute.
  - by repeat constructor.
  - apply (bool_decide_unpack _). by vm_compute.
  - exists s'. split; [exact Hw|]. apply Hs. apply elem_of_cons. right. apply elem_of_cons. by left.
Defined.

Lemma memfh_idx_search_correct_witness :
  ∃ s' r, memfh_idx_search (bs "cc") ix_example = (s', inr r) ∧
    (r = 0%Z ↔ bs "cc" ∈ fst <$> ix_items) ∧
    pages s' = pages ix_example ∧ root s' = root ix_example ∧
    if bool_decide (r ≤ 0)%Z then on_item 2 s' ix_items 1 else cursor 2 s' ix_items 1.
Proof.
  apply (memfh_idx_search_correct 2 ix_example ix_items (bs "cc"));
    [apply ix_example_index|apply ix_capacity|simpl; lia].
Defined.

Lemma memfh_idx_first_correct_witness :
  ∃ s' b, memfh_idx_first ix_example = (s', inr b) ∧ pages s' = pages ix_example ∧
    root s' = root ix_example ∧ if b : bool then on_item 2 s' ix_items 0 else ix_items = [] ∧ s' = ix_example.
Proof. apply memfh_idx_first_correct; [apply ix_example_index|apply ix_capacity]. Defined.

(** The state with the cursor on the first item. *)
Definition ix_first : ixst :=
  mk_ix 2 (pages ix_example) 1 {[ 0%nat := 1%Z ]} {[ 0%nat := 0%nat ]} 0 0 1.

Lemma ix_first_on : on_item 2 ix_first ix_items 0.
Proof.
  destruct ix_example_index as [nb Hidx]. pose proof (capacity_nb _ _ _ _ Hidx ix_capacity) as Hnb.
  destruct (memfh_idx_first_correct_aux _ _ _ _ Hidx Hnb) as (s' & b & Hrun & _ & _ & Hb).
  assert (memfh_idx_first ix_example = (ix_first, inr true)) as E by by vm_compute.
  rewrite E in Hrun. injection Hrun as <- <-. by exists nb.
Qed.

Lemma memfh_idx_next_correct_witness :
  ∃ s' b, memfh_idx_next 1 ix_first = (s', inr b) ∧ pages s' = pages ix_first ∧ root s' = root ix_first ∧
    if b : bool then on_item 2 s' ix_items 1 else 1%nat = length ix_items.
Proof. apply memfh_idx_next_correct; [apply ix_first_on|apply ix_capacity|by vm_compute]. Defined.

Lemma memfh_idx_list_k_correct_witness :
  ∃ s', memfh_idx_list_k 2 ix_example = (s', inr ix_items) ∧ pages s' = pages ix_example ∧
    root s' = root ix_example.
Proof. apply (memfh_idx_list_k_correct 2 ix_example ix_items);
  [apply ix_example_index|apply ix_capacity|simpl; lia]. Defined.
