(* ===== verification/Fcd.v ===== *)
(** The file control block (src/pqfh.h): the structure a COBOL program passes to
    the file handler with every operation, the operation codes and the statuses. *)

From stdpp Require Import prelude gmap strings.
From S2P Require Import Prelude Fhtypes.
Local Open Scope Z_scope.

(** src/pqfh.h:110-142 fcd_t : multi-byte fields are their bytes; [record],
    [file_name] and [kdb] are the buffers the pointers refer to.  The fillers are
    left out. *)
Record fcd_t := mk_fcd {
  status : bytes;
  organization : Z;
  access_mode : Z;
  open_mode : Z;
  file_name_len : bytes;
  lock_mode : Z;
  json_ptr : bytes;
  rec_len : bytes;
  key_id : bytes;
  record : bytes;
  file_name : bytes;
  kdb : bytes;
  file_id : bytes;
  mode : Z;
  ignore_lock : Z;
  json_root : bytes;
  sign : Z;
  isam : Z;
}.

Definition set_status (v : bytes) (f : fcd_t) : fcd_t :=
  mk_fcd v (organization f) (access_mode f) (open_mode f) (file_name_len f) (lock_mode f) (json_ptr f)
    (rec_len f) (key_id f) (record f) (file_name f) (kdb f) (file_id f) (mode f) (ignore_lock f)
    (json_root f) (sign f) (isam f).
Definition set_open_mode (v : Z) (f : fcd_t) : fcd_t :=
  mk_fcd (status f) (organization f) (access_mode f) v (file_name_len f) (lock_mode f) (json_ptr f)
    (rec_len f) (key_id f) (record f) (file_name f) (kdb f) (file_id f) (mode f) (ignore_lock f)
    (json_root f) (sign f) (isam f).
Definition set_file_name_len (v : bytes) (f : fcd_t) : fcd_t :=
  mk_fcd (status f) (organization f) (access_mode f) (open_mode f) v (lock_mode f) (json_ptr f)
    (rec_len f) (key_id f) (record f) (file_name f) (kdb f) (file_id f) (mode f) (ignore_lock f)
    (json_root f) (sign f) (isam f).
Definition set_json_ptr (v : bytes) (f : fcd_t) : fcd_t :=
  mk_fcd (status f) (organization f) (access_mode f) (open_mode f) (file_name_len f) (lock_mode f) v
    (rec_len f) (key_id f) (record f) (file_name f) (kdb f) (file_id f) (mode f) (ignore_lock f)
    (json_root f) (sign f) (isam f).
Definition set_key_id (v : bytes) (f : fcd_t) : fcd_t :=
  mk_fcd (status f) (organization f) (access_mode f) (open_mode f) (file_name_len f) (lock_mode f) (json_ptr f)
    (rec_len f) v (record f) (file_name f) (kdb f) (file_id f) (mode f) (ignore_lock f)
    (json_root f) (sign f) (isam f).
Definition set_rec (v : bytes) (f : fcd_t) : fcd_t :=
  mk_fcd (status f) (organization f) (access_mode f) (open_mode f) (file_name_len f) (lock_mode f) (json_ptr f)
    (rec_len f) (key_id f) v (file_name f) (kdb f) (file_id f) (mode f) (ignore_lock f)
    (json_root f) (sign f) (isam f).
Definition set_file_id (v : bytes) (f : fcd_t) : fcd_t :=
  mk_fcd (status f) (organization f) (access_mode f) (open_mode f) (file_name_len f) (lock_mode f) (json_ptr f)
    (rec_len f) (key_id f) (record f) (file_name f) (kdb f) v (mode f) (ignore_lock f)
    (json_root f) (sign f) (isam f).
Definition set_mode (v : Z) (f : fcd_t) : fcd_t :=
  mk_fcd (status f) (organization f) (access_mode f) (open_mode f) (file_name_len f) (lock_mode f) (json_ptr f)
    (rec_len f) (key_id f) (record f) (file_name f) (kdb f) (file_id f) v (ignore_lock f)
    (json_root f) (sign f) (isam f).
Definition set_json_root (v : bytes) (f : fcd_t) : fcd_t :=
  mk_fcd (status f) (organization f) (access_mode f) (open_mode f) (file_name_len f) (lock_mode f) (json_ptr f)
    (rec_len f) (key_id f) (record f) (file_name f) (kdb f) (file_id f) (mode f) (ignore_lock f)
    v (sign f) (isam f).
Definition set_sign (v : Z) (f : fcd_t) : fcd_t :=
  mk_fcd (status f) (organization f) (access_mode f) (open_mode f) (file_name_len f) (lock_mode f) (json_ptr f)
    (rec_len f) (key_id f) (record f) (file_name f) (kdb f) (file_id f) (mode f) (ignore_lock f)
    (json_root f) v (isam f).
Definition set_isam (v : Z) (f : fcd_t) : fcd_t :=
  mk_fcd (status f) (organization f) (access_mode f) (open_mode f) (file_name_len f) (lock_mode f) (json_ptr f)
    (rec_len f) (key_id f) (record f) (file_name f) (kdb f) (file_id f) (mode f) (ignore_lock f)
    (json_root f) (sign f) v.
Definition set_file_name (v : bytes) (f : fcd_t) : fcd_t :=
  mk_fcd (status f) (organization f) (access_mode f) (open_mode f) (file_name_len f) (lock_mode f) (json_ptr f)
    (rec_len f) (key_id f) (record f) v (kdb f) (file_id f) (mode f) (ignore_lock f)
    (json_root f) (sign f) (isam f).
Definition set_ignore_lock (v : Z) (f : fcd_t) : fcd_t :=
  mk_fcd (status f) (organization f) (access_mode f) (open_mode f) (file_name_len f) (lock_mode f) (json_ptr f)
    (rec_len f) (key_id f) (record f) (file_name f) (kdb f) (file_id f) (mode f) v
    (json_root f) (sign f) (isam f).

(** src/pqfh.h:144-163 OP_OPEN_INPUT : the operations, by their code. *)
Definition OP_OPEN_INPUT : Z := 64000.
Definition OP_OPEN_OUTPUT : Z := 64001.
Definition OP_OPEN_IO : Z := 64002.
Definition OP_OPEN_EXTEND : Z := 64003.
Definition OP_WRITE : Z := 64243.
Definition OP_REWRITE : Z := 64244.
Definition OP_CLOSE : Z := 64128.
Definition OP_START_EQ : Z := 64233.
Definition OP_START_GT : Z := 64234.
Definition OP_START_GE : Z := 64235.
Definition OP_START_LT : Z := 64254.
Definition OP_START_LE : Z := 64255.
Definition OP_READ_NEXT : Z := 64245.
Definition OP_READ_PREVIOUS : Z := 64249.
Definition OP_READ_RANDOM : Z := 64246.
Definition OP_READ_LOCK : Z := 64218.
Definition OP_DELETE : Z := 64247.
Definition OP_DELETE_FILE : Z := 64248.
Definition OP_UNLOCK : Z := 64014.
Definition OP_COMMIT : Z := 64220.

(** src/pqfh.h:165-176 ST_OK : the two status characters. *)
Definition ST_OK : bytes := bs "00".
Definition ST_FILE_NOT_FOUND : bytes := bs "35".
Definition ST_EOF : bytes := bs "10".
Definition ST_REC_NOT_FOUND : bytes := bs "23".
Definition ST_DUPL_KEY : bytes := bs "22".
Definition ST_ERROR : bytes := bs "99".
Definition ST_ALREADY_OPENED : bytes := bs "41".
Definition ST_ALREADY_CLOSED : bytes := bs "42".
Definition ST_NOT_OPENED_READ : bytes := bs "47".
Definition ST_NOT_OPENED_WRITE : bytes := bs "48".
Definition ST_NOT_OPENED_UPDEL : bytes := bs "49".
Definition ST_LOCKED : bytes := bs "99".

(** src/pqfh.h:17-17 MAX_REC_LEN *)
Definition MAX_REC_LEN : Z := 19624.

(** [len] bytes of a buffer from [off]; reading outside it is a fault. *)
Definition sub_bytes (b : bytes) (off len : Z) : option bytes :=
  if (0 <=? off) && (0 <=? len) && (off + len <=? Z.of_nat (length b))
  then Some (take (Z.to_nat len) (drop (Z.to_nat off) b)) else None.

Lemma sub_bytes_length b off len r : sub_bytes b off len = Some r → Z.of_nat (length r) = len.
Proof.
  unfold sub_bytes. destruct (Z.leb_spec 0 off), (Z.leb_spec 0 len),
    (Z.leb_spec (off + len) (Z.of_nat (length b))); simpl; try done.
  intros [= <-]. rewrite length_take, length_drop. lia.
Qed.

(** [getshort(b + off)] and [getint(b + off)]. *)
Definition short_at (b : bytes) (off : Z) : option Z := getshort <$> sub_bytes b off 2.
Definition int_at (b : bytes) (off : Z) : option Z := getint <$> sub_bytes b off 4.

(** The ISAM file handler of the COBOL runtime, on files [W]: an operation and a control
    block.  It is not part of the program. *)
Class Extfh (W : Type) := { extfh : Z → fcd_t → M W fcd_t }.
