(* ===== verification/Json.v ===== *)
(** The JSON library (src/json/): the lexer, the parser and the printer.  JsonFile.v has
    the operations of a file named [JSON:...]. *)

From stdpp Require Import prelude gmap strings.
From S2P Require Import Prelude Fhtypes Fcd.
Local Open Scope Z_scope.

(** src/json/json.h:21-25 token_t : the line number only goes to error messages. *)
Record token_t := mk_tok { tok_tp : Z; tok_buf : bytes }.

(** src/json/json.h:27-32 jelement_t : a null [name] or [value] is [None]. *)
Inductive jelement := JE (name : option bytes) (tp : Z) (value : option bytes) (children : list jelement).

Definition je_name (e : jelement) := let '(JE n _ _ _) := e in n.
Definition je_tp (e : jelement) := let '(JE _ t _ _) := e in t.
Definition je_value (e : jelement) := let '(JE _ _ v _) := e in v.
Definition je_children (e : jelement) := let '(JE _ _ _ c) := e in c.

Definition TOK_SYMBOL : Z := ch "@".
Definition TOK_STRING : Z := ch "S".
Definition TOK_NUMBER : Z := ch "N".
Definition TOK_BOOL : Z := ch "B".
Definition TP_ARRAY : Z := ch "A".
Definition TP_OBJECT : Z := ch "O".
Definition QUOTE : Z := 34.

(** src/json/utils.c:12-14 isWhiteSpace *)
Definition isWhiteSpace (c : Z) : bool := (c =? 10) || (c =? 13) || (c =? 9) || (c =? 32).

(** src/json/utils.c:3-10 tab : a static buffer of 17 bytes. *)
Definition tab (n : nat) : option bytes := if (n <=? 16)%nat then Some (replicate n 9) else None.

(** ** The lexer *)

Definition is_symbol (c : Z) : bool := bool_decide (c ∈ bs "[]{},:").

(** src/json/lex.c:99-111 addToken : the list is passed by value, so a token added
    to an empty list is lost. *)
Definition addToken (toks : list token_t) (tp : Z) (buf : bytes) : list token_t :=
  match toks with [] => [] | _ => toks ++ [mk_tok tp buf] end.

(** The states of the lexer: between tokens (with characters still to skip), inside a
    string or a number (with its characters so far). *)
Inductive lex_state := ST_0 (skip : nat) | ST_STRING (buf : bytes) | ST_NUMBER (buf : bytes).

(** [strncmp(json + i, word, n)] is not zero: the text does not start with the word. *)
Definition differs (s word : bytes) : bool := negb (prefixb word s).

(** src/json/lex.c:31-76 lex (a character outside strings and numbers): [rest] is the
    text after it.  [strncmp] is not compared with zero, so any other text is taken
    for [true] and the word [true] for [false]. *)
Definition lex_0 (c : Z) (rest : bytes) (toks : list token_t) : option (lex_state * list token_t) :=
  if isWhiteSpace c then Some (ST_0 0, toks)
  else if is_symbol c then Some (ST_0 0, toks ++ [mk_tok TOK_SYMBOL [c]])
  else if c =? QUOTE then Some (ST_STRING [], toks)
  else if isdigit c then Some (ST_NUMBER [c], toks)
  else if differs (c :: rest) (bs "true") then Some (ST_0 3, toks ++ [mk_tok TOK_BOOL (bs "true")])
  else if differs (c :: rest) (bs "false") then Some (ST_0 4, toks ++ [mk_tok TOK_BOOL (bs "false")])
  else None.

(** src/json/lex.c:19-96 lex (the loop): [prev] is the character before; a number ends at the
    first other character, which is looked at again.  A token that the end of the text
    cuts is dropped; [None] is the exit. *)
Fixpoint lex_loop (json : bytes) (prev : Z) (st : lex_state) (toks : list token_t) : option (list token_t) :=
  match json with
  | [] => Some toks
  | c :: rest =>
      match st with
      | ST_0 (S skip) => lex_loop rest c (ST_0 skip) toks
      | ST_0 O => r ← lex_0 c rest toks; lex_loop rest c (fst r) (snd r)
      | ST_STRING buf =>
          if (c =? QUOTE) && negb (prev =? 92) then lex_loop rest c (ST_0 0) (addToken toks TOK_STRING buf)
          else lex_loop rest c (ST_STRING (buf ++ [c])) toks
      | ST_NUMBER buf =>
          if isdigit c || (c =? ch ".") then lex_loop rest c (ST_NUMBER (buf ++ [c])) toks
          else r ← lex_0 c rest (addToken toks TOK_NUMBER buf); lex_loop rest c (fst r) (snd r)
      end
  end.

(** src/json/lex.c:11-97 lex : only the text before the first NUL is read. *)
Definition lex (json : bytes) : option (list token_t) := lex_loop (cstr json) 0 (ST_0 0) [].

(** ** The parser: its state is the flag [ok] *)

Definition err : M bool unit := modify (λ _, false).

(** The first byte of the text of a token, zero when it is empty. *)
Definition first_of (t : token_t) : Z := byte_at (tok_buf t) 0.

(** The token after [ptr->next]; its absence is a null pointer. *)
Definition next_tok (toks : list token_t) : M bool (token_t * list token_t) :=
  match toks with [] => stop Fault | t :: rest => mret (t, rest) end.

(** src/json/parser.c:41-129 parse_array : the tokens after the array and its children;
    [parse_object] is lines 78-129. *)
Fixpoint parse_array (fuel : nat) (toks : list token_t) (children : list jelement)
  : M bool (list token_t * list jelement) :=
  match fuel with
  | O => stop NoFuel
  | S fuel' =>
      match toks with
      | [] => mret ([], children)
      | tok :: rest =>
          if first_of tok =? ch "]" then mret (rest, children)
          else if first_of tok =? ch "," then parse_array fuel' rest children
          else if first_of tok =? ch "{" then
            r ← parse_object fuel' rest [];
            parse_array fuel' (fst r) (children ++ [JE None TP_OBJECT None (snd r)])
          else parse_array fuel' rest (children ++ [JE None (tok_tp tok) (Some (tok_buf tok)) []])
      end
  end
with parse_object (fuel : nat) (toks : list token_t) (children : list jelement)
  : M bool (list token_t * list jelement) :=
  match fuel with
  | O => stop NoFuel
  | S fuel' =>
      match toks with
      | [] => mret ([], children)
      | tok :: rest =>
          if first_of tok =? ch "}" then mret (rest, children)
          else if first_of tok =? ch "," then parse_object fuel' rest children
          else
            (if tok_tp tok =? TOK_STRING then mret tt else err);;
            let name := Some (tok_buf tok) in
            p ← next_tok rest;
            (if bool_decide (tok_buf (fst p) = bs ":") then mret tt else err);;
            q ← next_tok (snd p);
            let '(v, rest) := q in
            if first_of v =? ch "[" then
              r ← parse_array fuel' rest [];
              parse_object fuel' (fst r) (children ++ [JE name TP_ARRAY None (snd r)])
            else if first_of v =? ch "{" then
              r ← parse_object fuel' rest [];
              parse_object fuel' (fst r) (children ++ [JE name TP_OBJECT None (snd r)])
            else parse_object fuel' rest (children ++ [JE name (tok_tp v) (Some (tok_buf v)) []])
      end
  end.

(** src/json/parser.c:22-39 parse (after the lexer): [root] starts as zeros; [false] also
    when there was no token. *)
Definition parse_toks (toks : list token_t) : M bool (bool * jelement) :=
  match toks with
  | [] => mret (false, JE None 0 None [])
  | tok :: rest =>
      modify (λ _, true);;
      root ← (if bool_decide (tok_buf tok = bs "[") then
                r ← parse_array (S (length rest)) rest []; mret (JE None TP_ARRAY None (snd r))
              else if bool_decide (tok_buf tok = bs "{") then
                r ← parse_object (S (length rest)) rest []; mret (JE None TP_OBJECT None (snd r))
              else err;; mret (JE None 0 None []));
      ok ← gets id;
      mret (ok, root)
  end.

(** src/json/parser.c:12-20 parse : the lexer, then the parser. *)
Definition parse (json : bytes) : fault + (bool * jelement) :=
  match lex json with
  | None => inl Exit
  | Some toks => snd (parse_toks toks true)
  end.

(** ** The printer *)

Definition quoted (s : bytes) : bytes := [QUOTE] ++ s ++ [QUOTE].

(** src/json/tostring.c:7-7 buf : a line is built in a static buffer. *)
Definition in_buf (line : bytes) : option bytes := if Z.of_nat (length line) <? 65537 then Some line else None.

(** The head of an array or object: its name, if any, and the bracket. *)
Definition head_line (level : nat) (name : option bytes) (bracket : Z) : option bytes :=
  t ← tab level;
  in_buf (t ++ match name with Some n => quoted n ++ bs ": " | None => [] end ++ [bracket]).

(** A member with a plain value; [text] is the value as it is written. *)
Definition value_line (level : nat) (name : option bytes) (text : bytes) (comma : Z) : option bytes :=
  t ← tab level;
  in_buf (t ++ match name with Some n => quoted n ++ bs ": " | None => [] end ++ text ++ [comma]).

(** The text of a plain value: strings between quotes. *)
Definition value_text (tp : Z) (value : bytes) : bytes :=
  if tp =? TOK_STRING then quoted value else value.

Definition is_plain (tp : Z) : bool := (tp =? TOK_STRING) || (tp =? TOK_NUMBER) || (tp =? TOK_BOOL).

(** src/json/tostring.c:19-41 appendObject (the members; with [arr], the elements of
    [appendArray]): a line for a plain value; [rec] gives the lines of an object or an
    array, an object inside an array two levels deeper.  [None] is a null name or
    value or a kind the program gives up on. *)
Fixpoint append_body (rec : bool → nat → Z → jelement → option (list bytes)) (arr : bool) (level : nat)
    (cs : list jelement) : option (list bytes) :=
  match cs with
  | [] => Some []
  | c :: cs' =>
      let sep := match cs' with [] => 32 | _ => ch "," end in
      ls ← (if is_plain (je_tp c) then
              v ← je_value c;
              n ← (if arr then Some None else n ← je_name c; Some (Some n));
              l ← value_line (S level) n (value_text (je_tp c) v) sep;
              Some [l]
            else if je_tp c =? TP_OBJECT then rec false (if arr then S (S level) else S level) sep c
            else if negb arr && (je_tp c =? TP_ARRAY) then rec true (S level) sep c
            else None);
      rest ← append_body rec arr level cs';
      Some (ls ++ rest)
  end.

(** src/json/tostring.c:11-82 appendObject (and [appendArray]): the lines of an object, or, with [arr],
    of an array; [None] also for a level the static buffer has no room for. *)
Fixpoint append_element (arr : bool) (level : nat) (comma : Z) (e : jelement) {struct e} : option (list bytes) :=
  let '(JE name _ _ children) := e in
  first ← head_line level name (if arr then ch "[" else ch "{");
  body ← append_body append_element arr level children;
  t ← tab level;
  Some ([first] ++ body ++ [t ++ [if arr then ch "]" else ch "}"; comma]]).

(** src/json/tostring.c:84-110 tostring *)
Definition tostring (root : jelement) : option bytes :=
  lines ← append_element (je_tp root =? TP_ARRAY) 0 32 root;
  Some (mjoin ((λ l, l ++ [10]) <$> lines)).

(** ** Round trip

    The documents the library writes and reads back: objects and arrays of strings,
    numbers and objects, arrays only as members of objects. *)

(** The contents of a string: no quote nor NUL, no backslash at the end, and a first
    byte that the parser does not take for a symbol in that place. *)
Definition good_text (bad : bytes) (s : bytes) : Prop :=
  (QUOTE ∉ s) ∧ (0 ∉ s) ∧ last s ≠ Some 92 ∧ (byte_at s 0 ∉ bad).

Definition good_number (s : bytes) : Prop :=
  ∃ d s', s = d :: s' ∧ isdigit d = true ∧ ∀ c, c ∈ s' → isdigit c = true ∨ c = ch ".".

Definition good_name (arr : bool) (n : option bytes) : Prop :=
  if arr then n = None else ∃ s, n = Some s ∧ good_text (bs "},") s.

Inductive good_children : bool → list jelement → Prop :=
  | good_nil arr : good_children arr []
  | good_string arr n v cs :
      good_name arr n → good_text (if arr then bs "],{" else bs "[{") v → good_children arr cs →
      good_children arr (JE n TOK_STRING (Some v) [] :: cs)
  | good_num arr n v cs :
      good_name arr n → good_number v → good_children arr cs →
      good_children arr (JE n TOK_NUMBER (Some v) [] :: cs)
  | good_obj arr n ks cs :
      good_name arr n → good_children false ks → good_children arr cs →
      good_children arr (JE n TP_OBJECT None ks :: cs)
  | good_arr n ks cs :
      good_name false n → good_children true ks → good_children false cs →
      good_children false (JE n TP_ARRAY None ks :: cs).

(** The tokens of a document. *)
Definition sym (c : string) : token_t := mk_tok TOK_SYMBOL (bs c).

Definition name_toks (n : option bytes) : list token_t :=
  match n with Some s => [mk_tok TOK_STRING s; sym ":"] | None => [] end.

Fixpoint body_toks (rec : jelement → list token_t) (cs : list jelement) : list token_t :=
  match cs with
  | [] => []
  | c :: cs' =>
      name_toks (je_name c) ++
      match je_value c with Some v => [mk_tok (je_tp c) v] | None => rec c end ++
      match cs' with [] => [] | _ => [sym ","] end ++ body_toks rec cs'
  end.

Fixpoint el_toks (e : jelement) : list token_t :=
  let '(JE _ tp _ children) := e in
  [sym (if tp =? TP_ARRAY then "[" else "{")] ++ body_toks el_toks children ++
  [sym (if tp =? TP_ARRAY then "]" else "}")].

(** The lexer between tokens does not look back. *)
Lemma lex_prev s p q k t : lex_loop s p (ST_0 k) t = lex_loop s q (ST_0 k) t.
Proof. destruct s; [done|]. by destruct k. Qed.

Lemma lex_ws c s p t : isWhiteSpace c = true → lex_loop (c :: s) p (ST_0 0) t = lex_loop s c (ST_0 0) t.
Proof. intros H. simpl. unfold lex_0. by rewrite H. Qed.

Lemma lex_tabs n s p t : lex_loop (replicate n 9 ++ s) p (ST_0 0) t = lex_loop s 9 (ST_0 0) t.
Proof.
  revert p. induction n as [|n IH]; intros p; [apply lex_prev|].
  cbn [replicate app]. rewrite lex_ws by done. apply IH.
Qed.

Lemma lex_sym c s p t :
  isWhiteSpace c = false → is_symbol c = true →
  lex_loop (c :: s) p (ST_0 0) t = lex_loop s c (ST_0 0) (t ++ [mk_tok TOK_SYMBOL [c]]).
Proof. intros Hw H. simpl. unfold lex_0. by rewrite Hw, H. Qed.

Lemma lex_in_string v s p buf t :
  (QUOTE ∉ v) → last (p :: v) ≠ Some 92 → t ≠ [] →
  lex_loop (v ++ QUOTE :: s) p (ST_STRING buf) t = lex_loop s QUOTE (ST_0 0) (t ++ [mk_tok TOK_STRING (buf ++ v)]).
Proof.
  revert p buf. induction v as [|c v IH]; intros p buf Hq Hl Ht.
  - simpl. destruct (Z.eqb_spec p 92) as [->|]; [by destruct Hl|]. simpl.
    rewrite app_nil_r. by destruct t.
  - apply not_elem_of_cons in Hq as [Hc Hq]. simpl.
    destruct (Z.eqb_spec c QUOTE); [congruence|]. simpl.
    rewrite IH; [by rewrite <-app_assoc|done| |done]. by destruct v.
Qed.

Lemma lex_quoted bad v s p t :
  good_text bad v → t ≠ [] →
  lex_loop (quoted v ++ s) p (ST_0 0) t = lex_loop s QUOTE (ST_0 0) (t ++ [mk_tok TOK_STRING v]).
Proof.
  intros (Hq & _ & Hl & _) Ht. unfold quoted. rewrite <-!app_assoc. simpl.
  rewrite (lex_in_string v s QUOTE []); try done. destruct v; [done|]. exact Hl.
Qed.

Lemma digit_class c : isdigit c = true → isWhiteSpace c = false ∧ is_symbol c = false ∧ (c =? QUOTE) = false.
Proof.
  intros H%isdigit_range. unfold isWhiteSpace, is_symbol, QUOTE.
  assert (c ∉ bs "[]{},:") as Hn.
  { simpl. rewrite !not_elem_of_cons. split_and!; try lia. apply not_elem_of_nil. }
  rewrite (bool_decide_false _ Hn), !(proj2 (Z.eqb_neq _ _)) by lia. done.
Qed.

Lemma lex_num_step x s p buf t :
  isdigit x || (x =? ch ".") = true → lex_loop (x :: s) p (ST_NUMBER buf) t = lex_loop s x (ST_NUMBER (buf ++ [x])) t.
Proof. intros H. simpl. by rewrite H. Qed.

Lemma lex_in_number v c s p buf t :
  (∀ c, c ∈ v → isdigit c = true ∨ c = ch ".") → isdigit c = false → c ≠ ch "." → t ≠ [] →
  lex_loop (v ++ c :: s) p (ST_NUMBER buf) t = lex_loop (c :: s) p (ST_0 0) (t ++ [mk_tok TOK_NUMBER (buf ++ v)]).
Proof.
  intros Hv Hc Hd Ht. revert p buf. induction v as [|x v IH]; intros p buf.
  - simpl. rewrite Hc, (proj2 (Z.eqb_neq _ _) Hd), app_nil_r. simpl. by destruct t.
  - assert (isdigit x || (x =? ch ".") = true) as Hx.
    { destruct (Hv x) as [->| ->]; [by left|done|apply orb_true_r]. }
    cbn [app]. rewrite lex_num_step by done.
    rewrite IH; [|intros y Hy; apply Hv; by right]. rewrite <-app_assoc. apply lex_prev.
Qed.

Lemma lex_digit d s p t :
  isdigit d = true → lex_loop (d :: s) p (ST_0 0) t = lex_loop s d (ST_NUMBER [d]) t.
Proof. intros Hd. destruct (digit_class d Hd) as (Hw & Hs & Hq). simpl. unfold lex_0. by rewrite Hw, Hs, Hq, Hd. Qed.

Lemma lex_number v c s p t :
  good_number v → isdigit c = false → c ≠ ch "." → t ≠ [] →
  lex_loop (v ++ c :: s) p (ST_0 0) t = lex_loop (c :: s) p (ST_0 0) (t ++ [mk_tok TOK_NUMBER v]).
Proof.
  intros (d & v' & -> & Hd & Hv) Hc Hdot Ht. cbn [app]. rewrite lex_digit by done.
  rewrite lex_in_number by done. apply lex_prev.
Qed.

Definition text_of (ls : list bytes) : bytes := mjoin ((λ l, l ++ [10]) <$> ls).

Lemma text_of_cons l ls s : text_of (l :: ls) ++ s = l ++ 10 :: text_of ls ++ s.
Proof. unfold text_of. simpl. by rewrite <-!app_assoc. Qed.

Lemma text_of_app l1 l2 s : text_of (l1 ++ l2) ++ s = text_of l1 ++ text_of l2 ++ s.
Proof. unfold text_of. by rewrite fmap_app, join_app, <-app_assoc. Qed.

(** The character after a value, and its token. *)
Definition sep_toks (sep : Z) : list token_t := if sep =? 32 then [] else [sym ","].

Lemma lex_sep sep s p t :
  sep = 32 ∨ sep = ch "," → lex_loop (sep :: s) p (ST_0 0) t = lex_loop s sep (ST_0 0) (t ++ sep_toks sep).
Proof.
  intros [->| ->]; [rewrite lex_ws by done; unfold sep_toks; simpl; by rewrite app_nil_r|].
  by rewrite lex_sym by done.
Qed.

Lemma tab_some n l : tab n = Some l → l = replicate n 9.
Proof. unfold tab. destruct (n <=? 16)%nat; [|done]. by intros [= <-]. Qed.

Lemma in_buf_some l m : in_buf l = Some m → l = m.
Proof. unfold in_buf. case_match; congruence. Qed.

Lemma lex_name n s p t :
  (n = None ∨ t ≠ [] ∧ good_name false n) →
  lex_loop (match n with Some n => quoted n ++ bs ": " | None => [] end ++ s) p (ST_0 0) t =
    lex_loop s p (ST_0 0) (t ++ name_toks n).
Proof.
  intros [->|[Ht (m & -> & Hm)]]; [simpl; by rewrite app_nil_r|].
  cbn [name_toks]. rewrite <-app_assoc, (lex_quoted _ _ _ _ _ Hm Ht). change (bs ": " ++ s) with (ch ":" :: 32 :: s).
  rewrite lex_sym, lex_ws by done. rewrite <-app_assoc. apply lex_prev.
Qed.

Lemma lex_head level n b line s p t :
  head_line level n b = Some line → (n = None ∨ t ≠ [] ∧ good_name false n) →
  isWhiteSpace b = false → is_symbol b = true →
  lex_loop (line ++ 10 :: s) p (ST_0 0) t = lex_loop s 10 (ST_0 0) (t ++ name_toks n ++ [mk_tok TOK_SYMBOL [b]]).
Proof.
  unfold head_line. destruct (tab level) as [l|] eqn:E; cbn [mbind option_bind]; [|done]. apply tab_some in E as ->.
  intros <-%in_buf_some Hn Hw Hb.
  rewrite <-!app_assoc, lex_tabs, lex_name by done. cbn [app].
  rewrite lex_sym, lex_ws by done. by rewrite <-app_assoc.
Qed.

(** A plain value and what follows it on its line. *)
Lemma lex_value tp v sep s p t bad :
  (tp = TOK_STRING ∧ good_text bad v) ∨ (tp = TOK_NUMBER ∧ good_number v) → sep = 32 ∨ sep = ch "," → t ≠ [] →
  lex_loop (value_text tp v ++ sep :: s) p (ST_0 0) t =
    lex_loop s sep (ST_0 0) (t ++ [mk_tok tp v] ++ sep_toks sep).
Proof.
  intros Hv Hsep Ht. destruct Hv as [[-> Hv]|[-> Hv]]; unfold value_text.
  - rewrite Z.eqb_refl, (lex_quoted _ _ _ _ _ Hv Ht), (lex_sep _ _ _ _ Hsep). by rewrite <-app_assoc.
  - change (TOK_NUMBER =? TOK_STRING) with false. cbv iota.
    rewrite lex_number; [|done|by destruct Hsep as [->| ->]|by destruct Hsep as [->| ->]|done].
    rewrite (lex_sep _ _ _ _ Hsep). by rewrite <-app_assoc.
Qed.

Lemma lex_value_line level n tp v sep line s p t bad :
  value_line level n (value_text tp v) sep = Some line →
  (n = None ∨ good_name false n) →
  (tp = TOK_STRING ∧ good_text bad v) ∨ (tp = TOK_NUMBER ∧ good_number v) → sep = 32 ∨ sep = ch "," → t ≠ [] →
  lex_loop (line ++ 10 :: s) p (ST_0 0) t =
    lex_loop s 10 (ST_0 0) (t ++ name_toks n ++ [mk_tok tp v] ++ sep_toks sep).
Proof.
  unfold value_line. destruct (tab level) as [l|] eqn:E; cbn [mbind option_bind]; [|done]. apply tab_some in E as ->.
  intros <-%in_buf_some Hn Hv Hsep Ht. rewrite <-!app_assoc, lex_tabs, lex_name by (destruct Hn; auto).
  rewrite (lex_value tp v sep (10 :: s) _ _ bad Hv Hsep) by (by destruct t).
  rewrite lex_ws by done. by rewrite <-!app_assoc.
Qed.

(** The separator after a member. *)
Definition sep_of {A} (cs : list A) : Z := match cs with [] => 32 | _ => ch "," end.

Lemma sep_of_cases {A} (cs : list A) : sep_of cs = 32 ∨ sep_of cs = ch ",".
Proof. destruct cs; auto. Qed.

Lemma sep_toks_of {A} (cs : list A) : sep_toks (sep_of cs) = match cs with [] => [] | _ => [sym ","] end.
Proof. by destruct cs. Qed.

(** The lines of an element, given how its members are read. *)
Lemma lex_element (arr : bool) level comma n tp v ks lines :
  (∀ level ls, append_body append_element arr level ks = Some ls → ∀ s p t, t ≠ [] →
     lex_loop (text_of ls ++ s) p (ST_0 0) t = lex_loop s 10 (ST_0 0) (t ++ body_toks el_toks ks)) →
  append_element arr level comma (JE n tp v ks) = Some lines → (tp =? TP_ARRAY) = arr →
  comma = 32 ∨ comma = ch "," → ∀ s p t, (n = None ∨ t ≠ [] ∧ good_name false n) →
  lex_loop (text_of lines ++ s) p (ST_0 0) t =
    lex_loop s 10 (ST_0 0) (t ++ name_toks n ++ el_toks (JE n tp v ks) ++ sep_toks comma).
Proof.
  intros IH Hl Htp Hcomma s p t Hn. cbn [append_element] in Hl.
  destruct (head_line _ _ _) as [first|] eqn:Eh; [|done]. cbn [mbind option_bind] in Hl.
  destruct (append_body _ _ _ _) as [body|] eqn:Eb; [|done]. cbn [mbind option_bind] in Hl.
  destruct (tab level) as [l|] eqn:Et; [|done]. injection Hl as <-. apply tab_some in Et as ->.
  cbn [app]. rewrite text_of_cons, text_of_app.
  rewrite (lex_head _ _ _ _ _ _ _ Eh Hn) by by destruct arr.
  rewrite (IH _ _ Eb) by by destruct t, n. rewrite text_of_cons, <-app_assoc, lex_tabs. cbn [app].
  rewrite lex_sym by by destruct arr. rewrite (lex_sep _ _ _ _ Hcomma), lex_ws by done.
  cbn [el_toks]. rewrite Htp. rewrite <-!app_assoc. by destruct arr.
Qed.

Definition nested_tp (arr : bool) : Z := if arr then TP_ARRAY else TP_OBJECT.

Lemma append_plain_inv (arr : bool) level n tp v cs ls :
  append_body append_element arr level (JE n tp (Some v) [] :: cs) = Some ls → is_plain tp = true → good_name arr n →
  ∃ n' line rest, ls = line :: rest ∧ value_line (S level) n' (value_text tp v) (sep_of cs) = Some line ∧
    append_body append_element arr level cs = Some rest ∧
    name_toks n' = name_toks n ∧ (n' = None ∨ good_name false n').
Proof.
  intros H Hp Hn. cbn [append_body] in H. fold (sep_of cs) in H.
  cbn [je_tp je_value je_name] in H. rewrite Hp in H. cbn [mbind option_bind] in H.
  destruct (if arr then _ else _) as [n'|] eqn:En; [|done]. cbn [mbind option_bind] in H.
  destruct (value_line _ _ _ _) as [line|] eqn:El; [|done]. cbn [mbind option_bind] in H.
  destruct (append_body _ _ _ cs) as [rest|] eqn:Er; [|done]. injection H as <-.
  exists n', line, rest. do 3 (split; [done|]).
  destruct arr; [injection En as <-; rewrite Hn; auto|].
  destruct Hn as (m & -> & Hm). injection En as <-. split; [done|]. right. by exists m.
Qed.

Lemma append_nested_inv (arr arr' : bool) level n ks cs ls :
  append_body append_element arr level (JE n (nested_tp arr') None ks :: cs) = Some ls → (arr && arr') = false →
  ∃ level' el rest, ls = el ++ rest ∧ append_element arr' level' (sep_of cs) (JE n (nested_tp arr') None ks) = Some el ∧
    append_body append_element arr level cs = Some rest.
Proof.
  intros H Ha. cbn [append_body] in H. fold (sep_of cs) in H. cbn [je_tp] in H.
  replace (is_plain (nested_tp arr')) with false in H by by destruct arr'.
  replace (nested_tp arr' =? TP_OBJECT) with (negb arr') in H by by destruct arr'.
  replace (nested_tp arr' =? TP_ARRAY) with arr' in H by by destruct arr'.
  assert (∃ level', append_element arr' level' (sep_of cs) (JE n (nested_tp arr') None ks) =
    (if negb arr' then append_element false (if arr then S (S level) else S level) (sep_of cs) (JE n (nested_tp arr') None ks)
     else if negb arr && arr' then append_element true (S level) (sep_of cs) (JE n (nested_tp arr') None ks) else None))
    as (level' & El).
  { destruct arr', arr; try done; eauto. }
  rewrite <-El in H. destruct (append_element _ _ _ _) as [el|] eqn:Ee; [|done]. cbn [mbind option_bind] in H.
  destruct (append_body _ _ _ cs) as [rest|] eqn:Er; [|done]. injection H as <-. eauto 10.
Qed.

(** Rule induction on the members, the plain values in one case. *)
Lemma good_children_cases (P : bool → list jelement → Prop) :
  (∀ arr, P arr []) →
  (∀ arr n tp v cs, good_name arr n →
     (tp = TOK_STRING ∧ good_text (if arr then bs "],{" else bs "[{") v) ∨ (tp = TOK_NUMBER ∧ good_number v) →
     P arr cs → P arr (JE n tp (Some v) [] :: cs)) →
  (∀ arr arr' n ks cs, (arr && arr') = false → good_name arr n → P arr' ks → P arr cs →
     P arr (JE n (nested_tp arr') None ks :: cs)) →
  ∀ arr cs, good_children arr cs → P arr cs.
Proof.
  intros H1 H2 H3. induction 1; [apply H1|apply H2; auto|apply H2; auto|apply (H3 arr false); auto; by rewrite andb_false_r|
    apply (H3 false true); auto].
Qed.

Lemma plain_of {tp v bad} :
  (tp = TOK_STRING ∧ good_text bad v) ∨ (tp = TOK_NUMBER ∧ good_number v) → is_plain tp = true.
Proof. by intros [[-> _]|[-> _]]. Qed.

Lemma lex_body arr cs : good_children arr cs → ∀ level ls, append_body append_element arr level cs = Some ls →
  ∀ s p t, t ≠ [] → lex_loop (text_of ls ++ s) p (ST_0 0) t = lex_loop s 10 (ST_0 0) (t ++ body_toks el_toks cs).
Proof.
  induction 1 as [arr|arr n tp v cs Hn Hv IH|arr arr' n ks cs Ha Hn IHk IH] using good_children_cases;
    intros level ls Hl s p t Ht.
  - injection Hl as <-. simpl. rewrite app_nil_r. apply lex_prev.
  - destruct (append_plain_inv _ _ _ _ _ _ _ Hl (plain_of Hv) Hn) as (n' & line & rest & -> & Evl & Er & Ename & Hn').
    rewrite text_of_cons, (lex_value_line _ _ _ _ _ _ _ _ _ _ Evl Hn' Hv (sep_of_cases cs) Ht).
    rewrite (IH _ _ Er) by by destruct t. cbn [body_toks je_name je_value je_tp].
    by rewrite Ename, sep_toks_of, <-!app_assoc.
  - destruct (append_nested_inv _ _ _ _ _ _ _ Hl Ha) as (level' & el & rest & -> & He & Er).
    rewrite text_of_app. rewrite (lex_element arr' _ _ _ _ _ _ _ IHk He) by
      first [by destruct arr' | apply sep_of_cases | destruct arr; [by left|by right]].
    rewrite (IH _ _ Er) by by destruct t. cbn [body_toks je_name je_value].
    by rewrite sep_toks_of, <-!app_assoc.
Qed.

(** ** Reading back the tokens of a document *)

Definition parse_kind (arr : bool) := if arr then parse_array else parse_object.
Definition close_tok (arr : bool) : token_t := sym (if arr then "]" else "}").

Lemma first_of_good bad s tp x : good_text bad s → x ∈ bad → (first_of (mk_tok tp s) =? x) = false.
Proof. intros (_ & _ & _ & H) Hx. apply Z.eqb_neq. unfold first_of. simpl. congruence. Qed.

Lemma first_of_number s tp x : good_number s → isdigit x = false → (first_of (mk_tok tp s) =? x) = false.
Proof.
  intros (d & s' & -> & Hd & _) Hx. apply Z.eqb_neq. unfold first_of. simpl. intros <-.
  unfold byte_at in Hx. simpl in Hx. congruence.
Qed.

(** The first byte of the token of a plain value is none of the symbols looked for. *)
Lemma first_of_plain tp v bad x :
  (tp = TOK_STRING ∧ good_text bad v) ∨ (tp = TOK_NUMBER ∧ good_number v) → x ∈ bad → isdigit x = false →
  (first_of (mk_tok tp v) =? x) = false.
Proof. intros [[-> H]|[-> H]] ??; [eapply first_of_good|eapply first_of_number]; eauto. Qed.

(** The parser reads the members [cs] up to the closing bracket. *)
Definition reads (arr : bool) (cs : list jelement) (toks : list token_t) : Prop := ∀ fuel rest acc ok,
  (length (toks ++ close_tok arr :: rest) < fuel)%nat →
  parse_kind arr fuel (toks ++ close_tok arr :: rest) acc ok = (ok, inr (rest, acc ++ cs)).

(** The separator of two members is skipped. *)
Lemma reads_sep arr cs :
  reads arr cs (body_toks el_toks cs) →
  reads arr cs ((match cs with [] => [] | _ => [sym ","] end) ++ body_toks el_toks cs).
Proof.
  intros H. destruct cs as [|c cs]; [exact H|]. intros [|fuel] rest acc ok Hf; [lia|].
  rewrite <-app_assoc in *. cbn [app length] in Hf. cbn [app].
  transitivity (parse_kind arr fuel (body_toks el_toks (c :: cs) ++ close_tok arr :: rest) acc ok);
    [by destruct arr|]. apply H. simpl in *. lia.
Qed.

Lemma reads_nil arr : reads arr [] [].
Proof. intros [|fuel] rest acc ok Hf; [simpl in Hf; lia|]. rewrite app_nil_r. by destruct arr. Qed.

(** The parser at a member of an object: its name and colon. *)
Lemma parse_name m fuel v rest acc ok :
  good_text (bs "},") m →
  parse_object (S fuel) (name_toks (Some m) ++ v :: rest) acc ok =
    (if first_of v =? ch "[" then
       r ← parse_array fuel rest [];
       parse_object fuel (fst r) (acc ++ [JE (Some m) TP_ARRAY None (snd r)])
     else if first_of v =? ch "{" then
       r ← parse_object fuel rest [];
       parse_object fuel (fst r) (acc ++ [JE (Some m) TP_OBJECT None (snd r)])
     else parse_object fuel rest (acc ++ [JE (Some m) (tok_tp v) (Some (tok_buf v)) []])) ok.
Proof.
  intros Hm. cbn [parse_object name_toks app].
  rewrite !(first_of_good _ _ _ _ Hm) by (simpl; set_solver). reflexivity.
Qed.

Lemma reads_plain arr n tp v cs :
  good_name arr n →
  (tp = TOK_STRING ∧ good_text (if arr then bs "],{" else bs "[{") v) ∨ (tp = TOK_NUMBER ∧ good_number v) →
  reads arr cs (body_toks el_toks cs) →
  reads arr (JE n tp (Some v) [] :: cs) (body_toks el_toks (JE n tp (Some v) [] :: cs)).
Proof.
  intros Hn Hv H%reads_sep fuel rest acc ok Hf. cbn [body_toks je_name je_value je_tp] in *.
  rewrite <-!app_assoc in *. rewrite app_assoc in *.
  destruct fuel as [|fuel]; [lia|].
  destruct arr.
  - cbn [good_name] in Hn. subst n. cbn [name_toks app parse_kind parse_array].
    rewrite !(first_of_plain _ _ _ _ Hv) by first [done | simpl; set_solver].
    rewrite (app_assoc _ _ (_ :: rest)). etrans; [apply (H fuel)|].
    + rewrite <-app_assoc. simpl in *. lia.
    + by rewrite <-app_assoc.
  - destruct Hn as (m & -> & Hm). rewrite <-app_assoc. cbn [parse_kind app].
    rewrite (parse_name _ _ _ _ _ _ Hm).
    rewrite !(first_of_plain _ _ _ _ Hv) by first [done | simpl; set_solver].
    rewrite (app_assoc _ _ (_ :: rest)). etrans; [apply (H fuel)|].
    + rewrite <-app_assoc. simpl in *. lia.
    + by rewrite <-app_assoc.
Qed.

Lemma reads_nested (arr arr' : bool) n ks cs :
  (arr && arr') = false → good_name arr n →
  reads arr' ks (body_toks el_toks ks) → reads arr cs (body_toks el_toks cs) →
  let e := JE n (nested_tp arr') None ks in
  reads arr (e :: cs) (body_toks el_toks (e :: cs)).
Proof.
  intros Ha Hn Hk H%reads_sep e fuel rest acc ok Hf. unfold e in *.
  cbn [body_toks je_name je_value je_tp el_toks] in *.
  replace (nested_tp arr' =? TP_ARRAY) with arr' in * by by destruct arr'.
  rewrite <-!app_assoc in *. cbn [app] in *. fold (close_tok arr') in *.
  destruct fuel as [|fuel]; [lia|].
  assert (length (body_toks el_toks ks ++ close_tok arr' ::
    (match cs with [] => [] | _ => [sym ","] end ++ body_toks el_toks cs) ++ close_tok arr :: rest) < fuel)%nat as Hf1.
  { clear - Hf. repeat rewrite ?length_app, ?length_cons in *. lia. }
  specialize (Hk _ _ [] ok Hf1). rewrite <-!app_assoc in Hk. cbn [app] in Hk.
  assert (length ((match cs with [] => [] | _ => [sym ","] end ++ body_toks el_toks cs) ++ close_tok arr :: rest)
    < fuel)%nat as Hf2.
  { rewrite length_app in Hf1. simpl in Hf1. lia. }
  pose proof (H fuel rest (acc ++ [JE n (nested_tp arr') None ks]) ok Hf2) as H2.
  rewrite <-!app_assoc in H2. cbn [app] in H2.
  destruct arr.
  - destruct arr'; [done|]. cbn [good_name] in Hn. subst n. cbn [name_toks app parse_kind parse_array].
    change (first_of (sym "{") =? ch "]") with false. change (first_of (sym "{") =? ch ",") with false.
    change (first_of (sym "{") =? ch "{") with true. cbv iota.
    rewrite (bind_ok _ _ _ _ _ Hk). exact H2.
  - destruct Hn as (m & -> & Hm). cbn [parse_kind].
    rewrite (parse_name _ _ _ _ _ _ Hm). destruct arr'.
    + change (first_of (sym "[") =? ch "[") with true. cbv iota. rewrite (bind_ok _ _ _ _ _ Hk). exact H2.
    + change (first_of (sym "{") =? ch "[") with false. change (first_of (sym "{") =? ch "{") with true. cbv iota.
      rewrite (bind_ok _ _ _ _ _ Hk). exact H2.
Qed.

Lemma parse_body arr cs : good_children arr cs → reads arr cs (body_toks el_toks cs).
Proof.
  induction 1 using good_children_cases; [apply reads_nil|by apply reads_plain|by apply reads_nested].
Qed.

(** ** The text of a document has no NUL *)

Lemma no_nul_app (a b : bytes) : 0 ∉ a → 0 ∉ b → 0 ∉ a ++ b.
Proof. rewrite not_elem_of_app. done. Qed.

Lemma good_text_no_nul bad s : good_text bad s → 0 ∉ quoted s.
Proof. intros (_ & H & _). unfold quoted. repeat apply no_nul_app; [set_solver|done|set_solver]. Qed.

Lemma good_number_no_nul s : good_number s → 0 ∉ s.
Proof.
  intros (d & s' & -> & Hd & Hs) [H|H]%elem_of_cons; [by subst d|]. destruct (Hs _ H); done.
Qed.

Definition name_text (n : option bytes) : bytes := match n with Some n => quoted n ++ bs ": " | None => [] end.

Lemma good_name_no_nul arr n : good_name arr n → 0 ∉ name_text n.
Proof.
  destruct arr; [intros ->; set_solver|]. intros (m & -> & Hm).
  apply no_nul_app; [by eapply good_text_no_nul|set_solver].
Qed.

Lemma tabs_no_nul n : 0 ∉ replicate n 9.
Proof. by intros [? _]%elem_of_replicate. Qed.

Lemma line_no_nul level a b line :
  (t ← tab level; in_buf (t ++ a ++ b)) = Some line → 0 ∉ a → 0 ∉ b → 0 ∉ line.
Proof.
  destruct (tab level) as [l|] eqn:E; cbn [mbind option_bind]; [|done]. apply tab_some in E as ->.
  intros <-%in_buf_some Ha Hb. apply no_nul_app; [apply tabs_no_nul|by apply no_nul_app].
Qed.

Definition no_nul (ls : list bytes) : Prop := ∀ l, l ∈ ls → 0 ∉ l.

Lemma no_nul_lines l1 l2 : no_nul l1 → no_nul l2 → no_nul (l1 ++ l2).
Proof. intros H1 H2 l [?|?]%elem_of_app; auto. Qed.

Lemma no_nul_line l : 0 ∉ l → no_nul [l].
Proof. by intros H m ->%list_elem_of_singleton. Qed.

Lemma sep_no_nul {A} (cs : list A) : 0 ≠ sep_of cs.
Proof. by destruct cs. Qed.

Lemma element_no_nul arr level comma n tp v ks ls :
  (∀ level ls, append_body append_element arr level ks = Some ls → no_nul ls) →
  append_element arr level comma (JE n tp v ks) = Some ls → 0 ∉ name_text n → 0 ≠ comma → no_nul ls.
Proof.
  intros IH H Hn Hc. cbn [append_element] in H.
  destruct (head_line _ _ _) as [first|] eqn:Eh; [|done]. cbn [mbind option_bind] in H.
  destruct (append_body _ _ _ _) as [body|] eqn:Eb; [|done]. cbn [mbind option_bind] in H.
  destruct (tab level) as [l|] eqn:Et; [|done]. injection H as <-. apply tab_some in Et as ->.
  apply (no_nul_lines [first]); [apply no_nul_line|apply no_nul_lines; [eauto|apply no_nul_line]].
  - apply (line_no_nul _ _ _ _ Eh Hn). destruct arr; set_solver.
  - apply no_nul_app; [apply tabs_no_nul|]. destruct arr; set_solver.
Qed.

Lemma body_no_nul arr cs : good_children arr cs → ∀ level ls,
  append_body append_element arr level cs = Some ls → no_nul ls.
Proof.
  induction 1 as [arr|arr n tp v cs Hn Hv IH|arr arr' n ks cs Ha Hn IHk IH] using good_children_cases; intros level ls Hl.
  - injection Hl as <-. by intros l ?%elem_of_nil.
  - destruct (append_plain_inv _ _ _ _ _ _ _ Hl (plain_of Hv) Hn) as (n' & line & rest & -> & Evl & Er & _ & Hn').
    apply (no_nul_lines [line]); [apply no_nul_line|by eapply IH]. apply (line_no_nul _ _ _ _ Evl).
    + destruct Hn' as [->|Hn']; [set_solver|]. by apply (good_name_no_nul false).
    + apply no_nul_app; [|pose proof (sep_no_nul cs); set_solver].
      destruct Hv as [[-> Hv]|[-> Hv]]; [by eapply good_text_no_nul|by apply good_number_no_nul].
  - destruct (append_nested_inv _ _ _ _ _ _ _ Hl Ha) as (level' & el & rest & -> & He & Er).
    apply no_nul_lines; [|by eapply IH].
    apply (element_no_nul _ _ _ _ _ _ _ _ IHk He); [by apply (good_name_no_nul arr)|apply sep_no_nul].
Qed.

Lemma text_no_nul ls : no_nul ls → 0 ∉ text_of ls.
Proof.
  intros H. induction ls as [|l ls IH]; [set_solver|]. unfold text_of. simpl.
  apply no_nul_app; [apply no_nul_app; [apply H; set_solver|set_solver]|].
  apply IH. intros m Hm. apply H. by right.
Qed.

(** ** Totality *)

Lemma lex_0_some c rest toks : ∃ r, lex_0 c rest toks = Some r.
Proof.
  unfold lex_0. destruct (isWhiteSpace c); [eauto|]. destruct (is_symbol c); [eauto|].
  destruct (c =? QUOTE); [eauto|]. destruct (isdigit c); [eauto|].
  destruct (differs (c :: rest) (bs "true")) eqn:E; [eauto|].
  assert (differs (c :: rest) (bs "false") = true) as ->; [|eauto].
  unfold differs, prefixb in *. apply negb_false_iff, bool_decide_eq_true in E.
  apply negb_true_iff, bool_decide_eq_false. change (c :: take 3 rest = bs "true") in E.
  change (c :: take 4 rest ≠ bs "false"). injection E as -> _. intros H. by apply (f_equal head) in H.
Qed.

Lemma lex_loop_some json prev st toks : ∃ r, lex_loop json prev st toks = Some r.
Proof.
  revert prev st toks. induction json as [|c rest IH]; intros prev st toks; simpl; [eauto|].
  destruct st as [[|k]|buf|buf]; [|apply IH| |].
  - destruct (lex_0_some c rest toks) as [r ->]. apply IH.
  - case_match; apply IH.
  - case_match; [apply IH|]. destruct (lex_0_some c rest (addToken toks TOK_NUMBER buf)) as [r ->]. apply IH.
Qed.

(** A run that ends, leaving no more than [n] tokens, or stops at a null pointer. *)
Definition ends (n : nat) (r : bool * (fault + list token_t * list jelement)) : Prop :=
  match snd r with inl e => e = Fault | inr (rest, _) => (length rest <= n)%nat end.

Lemma ends_bind n n' (m : M bool (list token_t * list jelement)) f s :
  ends n (m s) → (∀ s rest cs, (length rest <= n)%nat → ends n' (f (rest, cs) s)) → ends n' ((m ≫= f) s).
Proof.
  unfold ends, mbind, M_bind. destruct (m s) as [s' [e|[rest cs]]]; simpl; [done|]. intros H1 H2. by apply H2.
Qed.

Lemma ends_le n n' r : ends n r → (n <= n')%nat → ends n' r.
Proof. unfold ends. destruct r as [? [|[]]]; simpl; [done|lia]. Qed.

Lemma parse_ends fuel : ∀ arr toks acc ok,
  (length toks < fuel)%nat → ends (length toks) (parse_kind arr fuel toks acc ok).
Proof.
  induction fuel as [|fuel IH]; [lia|]. intros arr toks acc ok Hf.
  assert (∀ arr' toks' acc' ok', (length toks' < length toks)%nat →
    ends (length toks) (parse_kind arr' fuel toks' acc' ok')) as IHs.
  { intros. eapply ends_le; [apply IH; lia|lia]. }
  assert (∀ arr' toks' acc' ok' g, (length toks' < length toks)%nat →
    ends (length toks) ((r ← parse_kind arr' fuel toks' []; parse_kind arr fuel (fst r) (acc' ++ [g (snd r)])) ok')) as IHb.
  { intros arr' toks' acc' ok' g Ht. eapply ends_bind; [apply (IH arr' toks'); lia|].
    intros s rest cs Hr. apply (IHs arr). simpl. lia. }
  destruct toks as [|tok rest]; [destruct arr; apply Nat.le_refl|]. cbn [length] in *.
  destruct arr; cbn [parse_kind parse_array parse_object].
  - case_match; [unfold ends; simpl; lia|]. case_match; [apply (IHs true); lia|].
    case_match; [apply (IHb false _ _ _ (JE None TP_OBJECT None)); lia|apply (IHs true); lia].
  - case_match; [unfold ends; simpl; lia|]. case_match; [apply (IHs false); lia|].
    destruct (tok_tp tok =? TOK_STRING);
      (destruct rest as [|c [|v rest]]; [reflexivity|cbv [mbind M_bind mret M_ret next_tok err modify fst snd]; case_bool_decide; reflexivity|]);
      destruct (bool_decide (tok_buf c = bs ":")) eqn:E; cbn [length] in *;
      cbv [mbind M_bind mret M_ret next_tok err modify fst snd]; rewrite E;
      (case_match; [apply (IHb true _ _ _ (JE _ TP_ARRAY None)); lia|]);
      (case_match; [apply (IHb false _ _ _ (JE _ TP_OBJECT None)); lia|]); apply (IHs false); lia.
Qed.

(** C24: parsing ends on every text, JSON or not: the lexer accepts any text (its exit is
    never reached) and the parser returns a tree and its verdict, or stops at the null
    pointer after the last token; it never loops. *)
Theorem parse_total json : parse json = inl Fault ∨ ∃ ok root, parse json = inr (ok, root).
Proof.
  unfold parse, lex. destruct (lex_loop_some (cstr json) 0 (ST_0 0) []) as [toks ->].
  destruct toks as [|tok rest]; [right; by do 2 eexists|]. unfold parse_toks.
  pose proof (parse_ends (S (length rest)) true rest [] true ltac:(lia)) as Ha.
  pose proof (parse_ends (S (length rest)) false rest [] true ltac:(lia)) as Ho.
  cbv [mbind M_bind mret M_ret modify gets err]. unfold parse_kind in *.
  destruct (bool_decide _); [|destruct (bool_decide _)]; [| |eauto].
  - destruct (parse_array _ _ _ _) as [s [e|[r cs]]]; [left; unfold ends in Ha; simpl in *; congruence|eauto].
  - destruct (parse_object _ _ _ _) as [s [e|[r cs]]]; [left; unfold ends in Ho; simpl in *; congruence|eauto].
Qed.

(** A text whose tokens are those of a document is parsed to it. *)
Lemma parse_lexed arr cs text : good_children arr cs → 0 ∉ text →
  lex_loop text 0 (ST_0 0) [] = Some (el_toks (JE None (nested_tp arr) None cs)) →
  parse text = inr (true, JE None (nested_tp arr) None cs).
Proof.
  intros Hcs Hnul Hlex. assert ((nested_tp arr =? TP_ARRAY) = arr) as Htp by by destruct arr.
  unfold parse, lex. rewrite (cstr_id _ Hnul), Hlex. cbn [el_toks app]. rewrite Htp. fold (close_tok arr).
  pose proof (parse_body arr cs Hcs (S (length (body_toks el_toks cs ++ [close_tok arr]))) [] [] true
    ltac:(lia)) as Hp.
  unfold parse_toks. rewrite (bind_ok _ _ _ _ _ (modify_run _ _)).
  erewrite bind_ok; [reflexivity|]. destruct arr; cbn [parse_kind] in Hp.
  - change (bool_decide (_ = bs "[")) with true. cbv iota. by rewrite (bind_ok _ _ _ _ _ Hp).
  - change (bool_decide (_ = bs "[")) with false. change (bool_decide (_ = bs "{")) with true.
    cbv iota. by rewrite (bind_ok _ _ _ _ _ Hp).
Qed.

(** A printed text has no NUL, and its tokens are those of the document. *)
Lemma printed arr cs text :
  good_children arr cs → tostring (JE None (nested_tp arr) None cs) = Some text →
  0 ∉ text ∧ parse text = inr (true, JE None (nested_tp arr) None cs).
Proof.
  intros Hcs Ht. unfold tostring in Ht. cbn [je_tp] in Ht.
  assert ((nested_tp arr =? TP_ARRAY) = arr) as Htp by by destruct arr. rewrite Htp in Ht.
  destruct (append_element _ _ _ _) as [ls|] eqn:El; [|done]. injection Ht as <-. fold (text_of ls).
  assert (0 ∉ text_of ls) as Hnul.
  { apply text_no_nul. apply (element_no_nul _ _ _ _ _ _ _ _ (body_no_nul arr cs Hcs) El); [set_solver|done]. }
  split; [done|]. apply parse_lexed; [done|done|]. rewrite <-(app_nil_r (text_of ls)).
  rewrite (lex_element arr _ _ _ _ _ _ _ (lex_body arr cs Hcs) El Htp (or_introl eq_refl)) by by left.
  change (sep_toks 32) with (@nil token_t). cbn [lex_loop name_toks app]. by rewrite app_nil_r.
Qed.

(** C22: printing a document and parsing the text gives the document back, without an
    error: for objects and arrays of strings, numbers and objects, arrays as members of
    objects, with texts that hold no quote nor NUL and do not start with the brackets
    the parser looks for. *)
Theorem tostring_roundtrip arr cs text :
  good_children arr cs → tostring (JE None (nested_tp arr) None cs) = Some text →
  parse text = inr (true, JE None (nested_tp arr) None cs).
Proof. intros Hcs Ht. by apply (printed arr cs text). Qed.

(** A document of the kind the tests parse. *)
Definition ex_doc : list jelement :=
  [JE (Some (bs "name")) TOK_STRING (Some (bs "Ana")) [];
   JE (Some (bs "items")) TP_ARRAY None
     [JE None TP_OBJECT None [JE (Some (bs "price")) TOK_NUMBER (Some (bs "10.5")) []];
      JE None TOK_STRING (Some (bs "x")) []]].

Lemma ex_doc_good : good_children false ex_doc.
Proof.
  assert (∀ bad s, bool_decide (QUOTE ∉ s) && bool_decide (0 ∉ s) && bool_decide (last s ≠ Some 92) &&
    bool_decide (byte_at s 0 ∉ bad) = true → good_text bad s) as Ht.
  { intros bad s. rewrite !andb_true_iff, !bool_decide_eq_true. unfold good_text. tauto. }
  assert (∀ s, bool_decide (QUOTE ∉ s) && bool_decide (0 ∉ s) && bool_decide (last s ≠ Some 92) &&
    bool_decide (byte_at s 0 ∉ bs "},") = true → good_name false (Some s)) as Hn by (intros s H; exists s; auto).
  unfold ex_doc. apply good_string; [by apply Hn|by apply Ht|]. apply good_arr; [by apply Hn| |constructor].
  apply good_obj; [done| |].
  - apply good_num; [by apply Hn| |constructor]. exists (ch "1"), (bs "0.5"). split; [done|]. split; [done|].
    intros c Hc. simpl in Hc. set_unfold. naive_solver.
  - apply good_string; [done|by apply Ht|constructor].
Qed.

Lemma tostring_roundtrip_witness :
  ∃ text, tostring (JE None TP_OBJECT None ex_doc) = Some text ∧ parse text = inr (true, JE None TP_OBJECT None ex_doc).
Proof. eexists. split; [reflexivity|]. apply (tostring_roundtrip false); [apply ex_doc_good|reflexivity]. Defined.
