(* ===== verification/JsonTool.v ===== *)
(** The command that prints a JSON file back (src/json/json.c, src/json/load.c). *)

From stdpp Require Import prelude strings.
From S2P Require Import Prelude Json.
Local Open Scope Z_scope.

(** ** The program *)

(** A file: the size [stat] tells, and the bytes [fread] finds, fewer when the file was cut
    in between; [fopen] may fail. *)
Record jfile := mk_jfile { jf_size : Z; jf_bytes : option bytes }.

(** src/json/load.c:23-27 load (the loop): [fread] gives what is left up to [remaining]. *)
Fixpoint fread_loop (fuel : nat) (data buf : bytes) (remaining : Z) : fault + bytes :=
  match fuel with
  | O => inl NoFuel
  | S fuel' =>
      if 0 <? remaining then
        let got := take (Z.to_nat remaining) data in
        fread_loop fuel' (drop (Z.to_nat remaining) data) (buf ++ got) (remaining - Z.of_nat (length got))
      else inr buf
  end.

(** src/json/load.c:7-31 load : the bytes before the NUL it adds; a size that is not an [int] gives
    a buffer that is not there. *)
Definition load (fuel : nat) (file : option jfile) : fault + option bytes :=
  match file with
  | None => inr None
  | Some f =>
      match jf_bytes f with
      | None => inr None
      | Some data =>
          let remaining := s32 (jf_size f) in
          if remaining <? 0 then inl Fault
          else match fread_loop fuel data [] remaining with inl e => inl e | inr b => inr (Some b) end
      end
  end.

(** src/json/json.c:7-30 main : what it prints on the standard output, with the status. The result
    of [load] is not looked at: without a file the pointer parsed is not set. *)
Definition main (fuel : nat) (argc : Z) (file : option jfile) : fault + (Z * bytes) :=
  if negb (argc =? 2) && negb (argc =? 3) then inr (-1, [])
  else
    match load fuel file with
    | inl e => inl e
    | inr None => inl Fault
    | inr (Some json) =>
        match parse json with
        | inl e => inl e
        | inr (_, root) => match tostring root with Some text => inr (0, cstr text ++ [10]) | None => inl Fault end
        end
    end.

(** ** Loading *)

Lemma load_all f data fuel : jf_bytes f = Some data → jf_size f = Z.of_nat (length data) → jf_size f < 2 ^ 31 → (2 <= fuel)%nat →
  load fuel (Some f) = inr (Some data).
Proof.
  intros Hd Hsz Hs Hf. unfold load. rewrite Hd, s32_id by lia. destruct (Z.ltb_spec (jf_size f) 0); [lia|]. destruct fuel as [|[|fuel]]; [lia..|].
  rewrite Hsz. cbn [fread_loop]. rewrite Nat2Z.id, firstn_all.
  destruct (Z.ltb_spec 0 (Z.of_nat (length data))); [|by destruct data; [|simpl in *; lia]]. by rewrite Z.sub_diag.
Qed.

(** A file that has fewer bytes than it is asked for. *)
Lemma load_short fuel data buf remaining : Z.of_nat (length data) < remaining → fread_loop fuel data buf remaining = inl NoFuel.
Proof.
  revert data buf remaining. induction fuel as [|fuel IH]; intros data buf remaining Hr; [done|]. cbn [fread_loop].
  rewrite (proj2 (Z.ltb_lt 0 remaining)) by lia. apply IH. rewrite length_drop, length_take. lia.
Qed.

(** Reading a file gives its bytes, in two steps of the loop at most; a file cut after its size
    was asked for is read for ever. *)
Theorem load_reads f data : jf_bytes f = Some data → 0 <= jf_size f < 2 ^ 31 →
  (jf_size f = Z.of_nat (length data) → ∀ fuel, (2 <= fuel)%nat → load fuel (Some f) = inr (Some data)) ∧
  (Z.of_nat (length data) < jf_size f → ∀ fuel, load fuel (Some f) = inl NoFuel).
Proof.
  intros Hd Hs. split; [intros Hsz fuel Hf; by apply load_all; [..|lia|]|].
  intros Hlt fuel. unfold load. rewrite Hd, s32_id by lia. destruct (Z.ltb_spec (jf_size f) 0); [lia|]. by rewrite load_short.
Qed.

(** C23: The command prints a file it has printed before as it is: for a document of the kind the
    library reads back, the text it prints is the text of the file. *)
Theorem json_tool arr cs text f fuel argc : good_children arr cs → tostring (JE None (nested_tp arr) None cs) = Some text →
  jf_bytes f = Some text → jf_size f = Z.of_nat (length text) → jf_size f < 2 ^ 31 → argc = 2 ∨ argc = 3 → (2 <= fuel)%nat →
  main fuel argc (Some f) = inr (0, text ++ [10]).
Proof.
  intros Hcs Ht Hb Hsz H31 Hargc Hfuel. unfold main.
  assert (negb (argc =? 2) && negb (argc =? 3) = false) as -> by (by destruct Hargc as [->| ->]).
  rewrite (load_all f text fuel Hb Hsz H31 Hfuel). destruct (printed arr cs text Hcs Ht) as [H0 ->].
  rewrite Ht. by rewrite (cstr_id text H0).
Qed.

(** ** A file *)

Definition ex_text : bytes := default [] (tostring (JE None TP_OBJECT None ex_doc)).
Definition ex_file : jfile := mk_jfile (Z.of_nat (length ex_text)) (Some ex_text).

Lemma load_reads_witness : load 2 (Some ex_file) = inr (Some ex_text).
Proof. apply (load_reads ex_file ex_text); [done|by vm_compute|done|lia]. Defined.

Lemma json_tool_witness : main 2 2 (Some ex_file) = inr (0, ex_text ++ [10]).
Proof. apply (json_tool false ex_doc); [apply ex_doc_good|by vm_compute|done|done|by vm_compute|by left|lia]. Defined.
