(* ===== verification/JsonFile.v ===== *)
(** The operations of a file named [JSON:...] (src/op_json.c, src/json_*.c): the parsed
    document lives on the heap, the file control block holds the address of its root,
    the address of the current element and the index of the next child. *)

From stdpp Require Import prelude gmap strings.
From S2P Require Import Prelude Fhtypes Fcd Json.
Local Open Scope Z_scope.

(** An element on the heap; [jn_children] are the addresses the list holds. *)
Record jnode := mk_jnode {
  jn_name : option bytes;
  jn_tp : Z;
  jn_value : option bytes;
  jn_children : list Z;
}.

(** [brk] is the next address [malloc] gives. *)
Record jheap := mk_jheap { jnodes : gmap Z jnode; brk : Z }.

Fixpoint je_size (e : jelement) : Z :=
  let '(JE _ _ _ cs) := e in 1 + foldr (λ c n, je_size c + n) 0 cs.

Definition jmalloc : M jheap Z := λ h, (mk_jheap (jnodes h) (brk h + 1), inr (brk h)).
Definition jset (a : Z) (n : jnode) : M jheap unit := modify (λ h, mk_jheap (<[a:=n]> (jnodes h)) (brk h)).
Definition jget (a : Z) : M jheap jnode := h ← gets jnodes; of_option (h !! a).

(** The elements of [cs] placed one after the other. *)
Fixpoint place_all (f : jelement → M jheap Z) (cs : list jelement) : M jheap (list Z) :=
  match cs with
  | [] => mret []
  | c :: cs' => a ← f c; l ← place_all f cs'; mret (a :: l)
  end.

(** The document the parser builds, on the heap: the address of its root. *)
Fixpoint place (e : jelement) : M jheap Z :=
  let '(JE n tp v cs) := e in
  a ← jmalloc;
  l ← place_all place cs;
  jset a (mk_jnode n tp v l);;
  mret a.

(** The current element and the index of its next child. *)
Definition put_ptr (a idx : Z) (p : bytes) : bytes := blit (blit p 0 (putint a)) 4 (putshort idx).
Definition ptr_element (p : bytes) : Z := getint p.
Definition ptr_index (p : bytes) : Z := s16 (getshort (drop 4 p)).

Section files.
(** The text of a file, if it can be read (src/json/load.c). *)
Context (text_of_file : bytes → option bytes).

(** src/json_open.c:8-45 json_open *)
Definition json_open (filename : bytes) (fcd : fcd_t) : M jheap fcd_t :=
  match text_of_file filename with
  | None => mret (set_status ST_ERROR fcd)
  | Some json =>
      match parse json with
      | inl e => stop e
      | inr (false, _) => mret (set_status ST_ERROR fcd)
      | inr (true, tree) =>
          root ← place tree;
          mret (set_status ST_OK (set_json_ptr (put_ptr root 0 (json_ptr fcd)) (set_json_root (putint root) fcd)))
      end
  end.

(** The first child with the name [key]. *)
Fixpoint find_named (key : bytes) (l : list Z) : M jheap (option Z) :=
  match l with
  | [] => mret None
  | a :: l' => nd ← jget a; if bool_decide (jn_name nd = Some key) then mret (Some a) else find_named key l'
  end.

(** The text before the first [c] and, if there is one, the text after it. *)
Definition split_at (s : bytes) (c : Z) : bytes * option bytes :=
  match strchr s c with Some i => (take i s, Some (drop (S i) s)) | None => (s, None) end.

(** The loop of [json_start]: [None] is the return with status 23. *)
Fixpoint start_loop (fuel : nat) (key : bytes) (root : Z) : M jheap (option Z) :=
  match fuel with
  | O => stop NoFuel
  | S fuel' =>
      let '(name, more) := split_at key (ch ":") in
      found ← (match name with
               | [] => mret (Some root)
               | _ => nd ← jget root; find_named name (jn_children nd)
               end);
      match found, more with
      | None, _ => mret None
      | Some root, None => mret (Some root)
      | Some root, Some key => start_loop fuel' key root
      end
  end.

(** src/json_start.c:8-56 json_start *)
Definition json_start (fcd : fcd_t) : M jheap fcd_t :=
  let reclen := s16 (getshort (rec_len fcd)) in
  guard_fault (reclen <=? MAX_REC_LEN);;
  rec ← of_option (sub_bytes (record fcd) 0 reclen);
  let key := cut (cstr rec) 32 in
  found ← start_loop (S (length key)) key (getint (json_root fcd));
  mret (match found with
        | None => set_status ST_REC_NOT_FOUND fcd
        | Some a => set_json_ptr (put_ptr a 0 (json_ptr fcd)) (set_status ST_OK fcd)
        end).

(** [memcpy(record + off, b, length b)]: writing outside the record is a fault. *)
Definition poke (off : nat) (b : bytes) (rec : bytes) : option bytes :=
  if (off + length b <=? length rec)%nat then Some (blit rec off b) else None.

(** The record a child is delivered in: its type at 100, its name at 101 and its value
    at 151. *)
Definition deliver (nd : jnode) (rec : bytes) : option bytes :=
  rec ← poke 100 [jn_tp nd] rec;
  rec ← poke 101 (replicate 50 32) rec;
  rec ← poke 101 (default (bs "NULL") (jn_name nd)) rec;
  rec ← poke 151 (replicate 250 32) rec;
  poke 151 (default (bs "NULL") (jn_value nd)) rec.

(** src/json_next.c:8-53 json_next : a negative index ends the loop at once. *)
Definition json_next (fcd : fcd_t) : M jheap fcd_t :=
  parent ← jget (ptr_element (json_ptr fcd));
  let idx := ptr_index (json_ptr fcd) in
  match (if idx <? 0 then None else jn_children parent !! Z.to_nat idx) with
  | None => mret (set_status ST_EOF fcd)
  | Some a =>
      nd ← jget a;
      rec ← of_option (deliver nd (record fcd));
      mret (set_rec rec (set_status ST_OK
        (set_json_ptr (put_ptr (ptr_element (json_ptr fcd)) (idx + 1) (json_ptr fcd)) fcd)))
  end.

(** src/json_close.c:8-16 json_close : only the root is freed; the elements below it
    are lost. *)
Definition json_close (fcd : fcd_t) : M jheap fcd_t :=
  let root := getint (json_root fcd) in
  (if root =? 0 then mret tt
   else jget root;; modify (λ h, mk_jheap (delete root (jnodes h)) (brk h)));;
  mret fcd.

(** src/op_json.c:9-28 op_json : the other operations leave the status as it was. *)
Definition op_json (filename : bytes) (opcode : Z) (fcd : fcd_t) : M jheap fcd_t :=
  let filename := cut filename 32 in
  if opcode =? OP_OPEN_INPUT then json_open filename fcd
  else if opcode =? OP_START_EQ then json_start fcd
  else if opcode =? OP_READ_NEXT then json_next fcd
  else if opcode =? OP_CLOSE then json_close fcd
  else mret fcd.

End files.

(** ** The document on the heap *)

Definition reprs (R : jelement → Z → Prop) : list jelement → list Z → Prop :=
  fix go cs l := match cs, l with
  | [], [] => True
  | c :: cs', a :: l' => R c a ∧ go cs' l'
  | _, _ => False
  end.

(** [e] is on the heap at the address [a]. *)
Fixpoint repr (h : gmap Z jnode) (e : jelement) (a : Z) : Prop :=
  let '(JE n tp v cs) := e in
  0 < a < 2 ^ 32 ∧ ∃ l, h !! a = Some (mk_jnode n tp v l) ∧ reprs (repr h) cs l.

(** Every address in use is below [brk]. *)
Definition jheap_ok (h : jheap) : Prop := 0 < brk h ∧ ∀ a, is_Some (jnodes h !! a) → a < brk h.

Lemma reprs_lookup R cs l i c :
  reprs R cs l → cs !! i = Some c → ∃ a, l !! i = Some a ∧ R c a.
Proof.
  revert l i. induction cs as [|c' cs IH]; intros [|a l] [|i]; try done.
  - intros [H _] [= ->]. eauto.
  - intros [_ H]. apply (IH _ _ H).
Qed.

Lemma reprs_length R cs l : reprs R cs l → length cs = length l.
Proof.
  revert l. induction cs as [|c cs IH]; intros [|a l]; try done. intros [_ H]. simpl. f_equal. auto.
Qed.

Lemma reprs_impl (R R' : jelement → Z → Prop) cs l :
  (∀ c a, R c a → R' c a) → reprs R cs l → reprs R' cs l.
Proof.
  intros HR. revert l. induction cs as [|c cs IH]; intros [|a l]; try done. intros [H1 H2]. split; auto.
Qed.

(** What [h] holds is also in [h']. *)
Lemma repr_mono (h h' : gmap Z jnode) : h ⊆ h' → ∀ e a, repr h e a → repr h' e a.
Proof.
  intros Hh. fix IH 1. intros [n tp v cs] a [Ha (l & Hl & Hcs)]. split; [done|]. exists l.
  split; [by eapply lookup_weaken|]. clear Hl. revert l Hcs.
  induction cs as [|c cs IHcs]; intros [|b l]; try done. intros [H1 H2]. split; auto.
Qed.

Lemma jmalloc_run h : jmalloc h = (mk_jheap (jnodes h) (brk h + 1), inr (brk h)).
Proof. done. Qed.

Lemma je_size_pos e : 1 <= je_size e.
Proof.
  revert e. fix IH 1. intros [n tp v cs]. simpl.
  enough (0 <= foldr (λ c n, je_size c + n) 0 cs) by lia.
  induction cs as [|c cs IHcs]; simpl; [done|]. specialize (IH c). lia.
Qed.

(** A placed element: only fresh addresses are written. *)
Definition placed (h h' : jheap) : Prop :=
  jnodes h ⊆ jnodes h' ∧ jheap_ok h' ∧ brk h <= brk h' ∧
  (∀ a, is_Some (jnodes h' !! a) → is_Some (jnodes h !! a) ∨ brk h <= a).

Lemma placed_trans h1 h2 h3 : placed h1 h2 → placed h2 h3 → placed h1 h3.
Proof.
  intros (A1 & A2 & A3 & A4) (B1 & B2 & B3 & B4). split; [by etrans|]. split; [done|]. split; [lia|].
  intros a Ha. destruct (B4 a Ha) as [?|?]; [auto|right; lia].
Qed.

Lemma placed_refl h : jheap_ok h → placed h h.
Proof. intros. split; [done|]. split; [done|]. split; [lia|]. auto. Qed.

Definition places (e : jelement) : Prop := ∀ h,
  jheap_ok h → brk h + je_size e <= 2 ^ 32 →
  ∃ h', place e h = (h', inr (brk h)) ∧ placed h h' ∧ repr (jnodes h') e (brk h) ∧ brk h' = brk h + je_size e.

Lemma place_all_run cs : Forall places cs → ∀ h,
  jheap_ok h → brk h + foldr (λ c n, je_size c + n) 0 cs <= 2 ^ 32 →
  ∃ h' l, place_all place cs h = (h', inr l) ∧ placed h h' ∧ reprs (repr (jnodes h')) cs l ∧
    brk h' = brk h + foldr (λ c n, je_size c + n) 0 cs.
Proof.
  induction 1 as [|c cs Hc _ IH]; intros h Hh Hb.
  - exists h, []. split; [done|]. split; [by apply placed_refl|]. split; [done|]. simpl. lia.
  - cbn [foldr place_all] in *.
    assert (0 <= foldr (λ c n, je_size c + n) 0 cs) as Hpos.
    { clear. induction cs as [|c cs IH]; simpl; [done|]. pose proof (je_size_pos c). lia. }
    destruct (Hc h Hh ltac:(lia)) as (h1 & E1 & P1 & R1 & B1).
    destruct (IH h1 ltac:(apply P1) ltac:(lia)) as (h2 & l & E2 & P2 & R2 & B2).
    exists h2, (brk h :: l). rewrite (bind_ok _ _ _ _ _ E1), (bind_ok _ _ _ _ _ E2).
    split; [done|]. split; [by eapply placed_trans|]. split; [|lia].
    split; [|done]. eapply repr_mono; [apply P2|done].
Qed.

Lemma place_run e : places e.
Proof.
  revert e. fix IH 1. intros [n tp v cs] h Hh Hb. cbn [place].
  assert (Forall places cs) as Hcs by (clear Hb; induction cs as [|c cs IHcs]; constructor; [apply IH|apply IHcs]).
  rewrite (bind_ok _ _ _ _ _ (jmalloc_run h)).
  set (h0 := mk_jheap (jnodes h) (brk h + 1)).
  assert (placed h h0) as P0.
  { split; [done|]. split; [|split; [simpl; lia|auto]]. destruct Hh as [? Hh]. split; [simpl; lia|].
    intros a Ha. specialize (Hh a Ha). simpl. lia. }
  change (brk h + (1 + foldr (λ c n, je_size c + n) 0 cs) <= 2 ^ 32) in Hb.
  assert (brk h0 + foldr (λ c n, je_size c + n) 0 cs <= 2 ^ 32) as Hb0 by (unfold h0; cbn [brk]; lia).
  destruct (place_all_run cs Hcs h0 ltac:(apply P0) Hb0) as (h1 & l & E1 & P1 & R1 & B1).
  rewrite (bind_ok _ _ _ _ _ E1). unfold jset. rewrite (bind_ok _ _ _ _ _ (modify_run _ _)).
  eexists. split; [done|].
  assert (jnodes h1 !! brk h = None) as Hfree.
  { apply eq_None_not_Some. intros Hs. destruct P1 as (_ & _ & _ & P1).
    destruct (P1 _ Hs) as [H|H]; [|simpl in H; lia]. destruct Hh as [_ Hh]. specialize (Hh _ H). lia. }
  pose proof (placed_trans _ _ _ P0 P1) as (Q1 & [Q2 Q2'] & Q3 & Q4).
  assert (jnodes h1 ⊆ <[brk h:=mk_jnode n tp v l]> (jnodes h1)) as Hsub by by apply insert_subseteq.
  assert (brk h < brk h1) as Hlt by (destruct P1 as (_ & _ & P1 & _); simpl in P1; lia).
  simpl in B1. split_and!.
  - split; [by etrans|]. split; [|split; [simpl; lia|]].
    + split; [simpl; lia|]. simpl. intros a. destruct (decide (a = brk h)) as [->|]; [lia|].
      rewrite lookup_insert_ne by done. apply Q2'.
    + simpl. intros a. destruct (decide (a = brk h)) as [->|]; [right; lia|].
      rewrite lookup_insert_ne by done. apply Q4.
  - cbn [repr]. destruct Hh. split; [lia|]. exists l. split; [apply lookup_insert_eq|].
    eapply reprs_impl; [|exact R1]. by apply repr_mono.
  - change (brk h1 = brk h + (1 + foldr (λ c n, je_size c + n) 0 cs)). lia.
Qed.

(** ** Specification: paths in a document *)

(** The names of a path, separated by colons. *)
Fixpoint parts (s : bytes) : list bytes :=
  match s with
  | [] => [[]]
  | c :: s' => if c =? ch ":" then [] :: parts s'
               else match parts s' with p :: ps => (c :: p) :: ps | [] => [[c]] end
  end.

Definition find_child (key : bytes) (cs : list jelement) : option jelement :=
  head (filter (λ c, je_name c = Some key) cs).

(** The element a path leads to; an empty name stays where it is. *)
Fixpoint find_path (keys : list bytes) (e : jelement) : option jelement :=
  match keys with
  | [] => Some e
  | [] :: ks => find_path ks e
  | k :: ks => c ← find_child k (je_children e); find_path ks c
  end.

(** The path a START takes from the record. *)
Definition path_of (fcd : fcd_t) : option (list bytes) :=
  if s16 (getshort (rec_len fcd)) <=? MAX_REC_LEN then
    rec ← sub_bytes (record fcd) 0 (s16 (getshort (rec_len fcd))); Some (parts (cut (cstr rec) 32))
  else None.

Definition deliver_el (c : jelement) (rec : bytes) : option bytes :=
  deliver (mk_jnode (je_name c) (je_tp c) (je_value c) []) rec.

(** The records of the children, one after the other. *)
Fixpoint deliver_all (cs : list jelement) (rec : bytes) : option (list bytes) :=
  match cs with
  | [] => Some []
  | c :: cs' => rec ← deliver_el c rec; l ← deliver_all cs' rec; Some (rec :: l)
  end.

Lemma parts_split s :
  match split_at s (ch ":") with
  | (n, None) => parts s = [n]
  | (n, Some m) => parts s = n :: parts m ∧ (length m < length s)%nat
  end.
Proof.
  unfold split_at. induction s as [|c s IH]; [done|]. simpl. destruct (c =? ch ":"); simpl; [by rewrite drop_0; auto|].
  destruct (strchr s (ch ":")) as [i|]; simpl in *.
  - destruct IH as [-> IH]. split; [done|lia].
  - by rewrite IH.
Qed.

Lemma jget_run h a nd : jnodes h !! a = Some nd → jget a h = (h, inr nd).
Proof. intros H. unfold jget. erewrite bind_ok by apply gets_run. by rewrite H. Qed.

Lemma repr_get (h : jheap) e a :
  repr (jnodes h) e a → 0 < a < 2 ^ 32 ∧
  ∃ l, jget a h = (h, inr (mk_jnode (je_name e) (je_tp e) (je_value e) l)) ∧ reprs (repr (jnodes h)) (je_children e) l.
Proof. destruct e as [n tp v cs]. intros [Ha (l & Hl & Hcs)]. split; [done|]. exists l. split; [by apply jget_run|done]. Qed.

Lemma find_named_run h key cs l :
  reprs (repr (jnodes h)) cs l →
  ∃ oa, find_named key l h = (h, inr oa) ∧
    match find_child key cs with
    | Some c => ∃ a, oa = Some a ∧ repr (jnodes h) c a
    | None => oa = None
    end.
Proof.
  unfold find_child. revert l. induction cs as [|c cs IH]; intros [|a l]; try done; [by exists None|].
  intros [Hc Hcs]. cbn [find_named]. destruct (repr_get _ _ _ Hc) as (_ & l' & Hg & _).
  rewrite (bind_ok _ _ _ _ _ Hg). cbn [jn_name]. rewrite filter_cons.
  destruct (decide (je_name c = Some key)) as [E|E].
  - rewrite bool_decide_true by done. simpl. eexists. split; [done|]. eauto.
  - rewrite bool_decide_false by done. apply (IH l Hcs).
Qed.

Lemma start_loop_run h fuel : ∀ key e a,
  repr (jnodes h) e a → (length key < fuel)%nat →
  ∃ oa, start_loop fuel key a h = (h, inr oa) ∧
    match find_path (parts key) e with
    | Some c => ∃ a', oa = Some a' ∧ repr (jnodes h) c a'
    | None => oa = None
    end.
Proof.
  induction fuel as [|fuel IH]; [lia|]. intros key e a He Hf. cbn [start_loop].
  pose proof (parts_split key) as Hp. destruct (split_at key (ch ":")) as [name more].
  set (found := match name with [] => mret (Some a) | _ => _ end).
  assert (∃ oa, found h = (h, inr oa) ∧
    match (match name with [] => Some e | _ => find_child name (je_children e) end) with
    | Some c => ∃ a', oa = Some a' ∧ repr (jnodes h) c a'
    | None => oa = None
    end) as (oa & E & Hoa).
  { unfold found. destruct name as [|x name]; [eexists; split; [done|]; eauto|].
    destruct (repr_get _ _ _ He) as (_ & l & Hg & Hl). rewrite (bind_ok _ _ _ _ _ Hg). by apply find_named_run. }
  rewrite (bind_ok _ _ _ _ _ E).
  assert (∀ ks, find_path (name :: ks) e =
    match name with [] => Some e | _ => find_child name (je_children e) end ≫= find_path ks) as Hfp.
  { intros ks. by destruct name. }
  destruct more as [m|].
  - destruct Hp as [-> Hm]. rewrite Hfp.
    destruct (match name with [] => _ | _ => _ end) as [c|]; [|by subst oa; exists None].
    destruct Hoa as (a' & -> & Hc). cbn [mbind option_bind]. apply IH; [done|lia].
  - rewrite Hp, Hfp. destruct (match name with [] => _ | _ => _ end) as [c|]; [|by subst oa; exists None].
    destruct Hoa as (a' & -> & Hc). cbn [mbind option_bind find_path]. eexists. split; [done|]. eauto.
Qed.

Lemma put_ptr_eq a idx p :
  length p = 8%nat → put_ptr a idx p = putint a ++ putshort idx ++ drop 6 p.
Proof. intros Hp. unfold put_ptr, blit. do 9 (destruct p as [|? p]; try done). Qed.

Lemma put_ptr_get a idx p :
  length p = 8%nat → 0 < a < 2 ^ 32 → 0 <= idx < 2 ^ 15 →
  length (put_ptr a idx p) = 8%nat ∧ ptr_element (put_ptr a idx p) = a ∧ ptr_index (put_ptr a idx p) = idx.
Proof.
  intros Hp Ha Hi. rewrite put_ptr_eq by done. split_and!.
  - rewrite length_app, length_app, length_drop, Hp. done.
  - unfold ptr_element. apply getint_putint. lia.
  - unfold ptr_index. change (drop 4 (putint a ++ putshort idx ++ drop 6 p)) with (putshort idx ++ drop 6 p).
    rewrite getshort_putshort by lia. unfold s16. rewrite u16_id by lia.
    destruct (Z.ltb_spec idx (2 ^ 15)); lia.
Qed.

(** READ NEXT until the status says the end. *)
Fixpoint next_all (fuel : nat) (fcd : fcd_t) : M jheap (list bytes * fcd_t) :=
  match fuel with
  | O => stop NoFuel
  | S fuel' =>
      fcd ← json_next fcd;
      if bool_decide (status fcd = ST_EOF) then mret ([], fcd)
      else r ← next_all fuel' fcd; mret (record fcd :: fst r, snd r)
  end.

(** The file control block is at the child [i] of the element [e]. *)
Definition at_child (h : jheap) (e : jelement) (i : nat) (fcd : fcd_t) : Prop :=
  length (json_ptr fcd) = 8%nat ∧ repr (jnodes h) e (ptr_element (json_ptr fcd)) ∧
  ptr_index (json_ptr fcd) = Z.of_nat i.

Lemma json_next_eof h e fcd :
  at_child h e (length (je_children e)) fcd → json_next fcd h = (h, inr (set_status ST_EOF fcd)).
Proof.
  intros (_ & He & Hi). unfold json_next. destruct (repr_get _ _ _ He) as (_ & l & Hg & Hl).
  rewrite (bind_ok _ _ _ _ _ Hg), Hi. cbn [jn_children].
  replace (Z.of_nat _ <? 0) with false by (symmetry; apply Z.ltb_ge; lia).
  by rewrite Nat2Z.id, (reprs_length _ _ _ Hl), lookup_ge_None_2.
Qed.

Lemma json_next_child h e i c rec fcd :
  at_child h e i fcd → je_children e !! i = Some c → Z.of_nat i + 1 < 2 ^ 15 →
  deliver_el c (record fcd) = Some rec →
  ∃ fcd', json_next fcd h = (h, inr fcd') ∧ at_child h e (S i) fcd' ∧ record fcd' = rec ∧ status fcd' = ST_OK.
Proof.
  intros (Hp & He & Hi) Hc Hb Hd. unfold json_next. destruct (repr_get _ _ _ He) as (Ha & l & Hg & Hl).
  rewrite (bind_ok _ _ _ _ _ Hg), Hi. cbn [jn_children].
  replace (Z.of_nat i <? 0) with false by (symmetry; apply Z.ltb_ge; lia). rewrite Nat2Z.id.
  destruct (reprs_lookup _ _ _ _ _ Hl Hc) as (a & -> & Hca).
  destruct (repr_get _ _ _ Hca) as (_ & l' & Hg' & _). rewrite (bind_ok _ _ _ _ _ Hg').
  change (deliver (mk_jnode (je_name c) (je_tp c) (je_value c) l') (record fcd)) with (deliver_el c (record fcd)).
  rewrite Hd. eexists. split; [done|].
  destruct (put_ptr_get (ptr_element (json_ptr fcd)) (Z.of_nat i + 1) (json_ptr fcd) Hp Ha ltac:(lia)) as (H1 & H2 & H3).
  split; [|done]. unfold at_child. cbn [json_ptr set_rec set_status set_json_ptr]. rewrite H2, H3.
  split; [done|]. split; [done|]. lia.
Qed.

Lemma json_next_all_run h e cs : ∀ i fcd areas,
  drop i (je_children e) = cs → (i <= length (je_children e))%nat → at_child h e i fcd →
  Z.of_nat (length (je_children e)) < 2 ^ 15 →
  deliver_all cs (record fcd) = Some areas →
  ∃ fcd', next_all (S (length cs)) fcd h = (h, inr (areas, fcd')) ∧ status fcd' = ST_EOF.
Proof.
  induction cs as [|c cs IH]; intros i fcd areas Hcs Hle Hat Hb Hd.
  - injection Hd as <-. apply (f_equal length) in Hcs. rewrite length_drop in Hcs. simpl in Hcs.
    assert (i = length (je_children e)) as -> by lia.
    cbn [next_all length]. rewrite (bind_ok _ _ _ _ _ (json_next_eof _ _ _ Hat)). eexists. by split.
  - cbn [deliver_all] in Hd. destruct (deliver_el c (record fcd)) as [rec|] eqn:E1; [|done]. cbn [mbind option_bind] in Hd.
    destruct (deliver_all cs rec) as [l|] eqn:E2; [|done]. injection Hd as <-.
    assert (je_children e !! i = Some c) as Hc.
    { rewrite <-(Nat.add_0_r i), <-lookup_drop, Hcs. done. }
    pose proof (lookup_lt_Some _ _ _ Hc).
    destruct (json_next_child _ _ _ _ _ _ Hat Hc ltac:(lia) E1) as (fcd1 & En & Hat1 & <- & Hst).
    destruct (IH (S i) fcd1 l) as (fcd' & Er & Hs); [|lia|done|done|done|].
    { apply (drop_S _ _ _) in Hc. rewrite Hc in Hcs. congruence. }
    exists fcd'. split; [|done]. cbn [length]. cbn [next_all]. rewrite (bind_ok _ _ _ _ _ En), Hst.
    rewrite bool_decide_false by done. cbn [next_all] in Er. rewrite (bind_ok _ _ _ _ _ Er). done.
Qed.

Lemma json_start_run h tree fcd keys :
  length (json_ptr fcd) = 8%nat → repr (jnodes h) tree (getint (json_root fcd)) → path_of fcd = Some keys →
  ∃ fcd', json_start fcd h = (h, inr fcd') ∧ record fcd' = record fcd ∧
    match find_path keys tree with
    | Some e => status fcd' = ST_OK ∧ at_child h e 0 fcd'
    | None => fcd' = set_status ST_REC_NOT_FOUND fcd
    end.
Proof.
  intros Hp Ht Hk. unfold path_of in Hk. unfold json_start.
  destruct (_ <=? MAX_REC_LEN); [|done]. destruct (sub_bytes _ _ _) as [rec|]; [|done].
  cbn [mbind option_bind] in Hk. injection Hk as <-. cbn [guard_fault of_option].
  do 2 rewrite (bind_ok _ _ h h _ eq_refl).
  destruct (start_loop_run h (S (length (cut (cstr rec) 32))) _ _ _ Ht (Nat.lt_succ_diag_r _)) as (oa & E & Hoa).
  rewrite (bind_ok _ _ _ _ _ E). destruct (find_path _ tree) as [e|].
  - destruct Hoa as (a & -> & He). eexists. split; [done|]. split; [done|]. split; [done|].
    destruct (repr_get _ _ _ He) as (Ha & _).
    destruct (put_ptr_get a 0 (json_ptr fcd) Hp Ha ltac:(lia)) as (H1 & H2 & H3).
    unfold at_child. cbn [json_ptr set_json_ptr]. rewrite H2, H3. done.
  - subst oa. eexists. done.
Qed.

Lemma json_open_run files h filename fcd text tree :
  files filename = Some text → parse text = inr (true, tree) → jheap_ok h → brk h + je_size tree <= 2 ^ 32 →
  length (json_ptr fcd) = 8%nat →
  ∃ h' fcd', json_open files filename fcd h = (h', inr fcd') ∧ status fcd' = ST_OK ∧ record fcd' = record fcd ∧
    rec_len fcd' = rec_len fcd ∧
    repr (jnodes h') tree (getint (json_root fcd')) ∧ at_child h' tree 0 fcd' ∧ jheap_ok h' ∧ jnodes h ⊆ jnodes h' ∧ getint (json_root fcd') = brk h.
Proof.
  intros Hf Hpt Hh Hb Hp. unfold json_open. rewrite Hf, Hpt.
  destruct (place_run tree h Hh Hb) as (h' & E & (P1 & P2 & P3 & P4) & HR & HB).
  rewrite (bind_ok _ _ _ _ _ E). eexists _, _. split; [done|].
  assert (0 < brk h < 2 ^ 32) as Ha by (destruct Hh; pose proof (je_size_pos tree); lia).
  destruct (put_ptr_get (brk h) 0 (json_ptr fcd) Hp Ha ltac:(lia)) as (H1 & H2 & H3).
  unfold at_child. cbn [json_root json_ptr set_json_ptr set_json_root set_status status record rec_len].
  pose proof (getint_putint (brk h) [] ltac:(lia)) as Hr. rewrite app_nil_r in Hr. rewrite Hr, H2, H3. done.
Qed.

(** A JSON file read through the file handler: OPEN INPUT parses the document onto
    the heap, START moves to the element the path in the record names, and READ NEXT
    delivers that element's children in the order of the document, each in its own
    record, and then status 10. *)
Theorem json_scan files h filename text tree fcd keys e areas :
  files (cut filename 32) = Some text → parse text = inr (true, tree) →
  jheap_ok h → brk h + je_size tree <= 2 ^ 32 → length (json_ptr fcd) = 8%nat →
  path_of fcd = Some keys → find_path keys tree = Some e → Z.of_nat (length (je_children e)) < 2 ^ 15 →
  deliver_all (je_children e) (record fcd) = Some areas →
  ∃ h' fcd',
    (fcd ← op_json files filename OP_OPEN_INPUT fcd; fcd ← op_json files filename OP_START_EQ fcd;
     next_all (S (length (je_children e))) fcd) h = (h', inr (areas, fcd')) ∧
    status fcd' = ST_EOF.
Proof.
  intros Hf Hpt Hh Hb Hp Hk Hfind Hlen Hd.
  destruct (json_open_run files h _ fcd text tree Hf Hpt Hh Hb Hp)
    as (h' & f1 & E1 & _ & Hr1 & Hl1 & HR & (Hp1 & _) & _ & _).
  assert (path_of f1 = Some keys) as Hk1 by (unfold path_of in *; by rewrite Hr1, Hl1).
  destruct (json_start_run h' tree f1 keys Hp1 HR Hk1) as (f2 & E2 & Hr2 & Hm). rewrite Hfind in Hm. destruct Hm as [_ Hat].
  destruct (json_next_all_run h' e (je_children e) 0 f2 areas) as (f3 & E3 & Hs);
    [done|lia|done|done|by rewrite Hr2, Hr1|].
  exists h', f3. split; [|done]. change (op_json files filename OP_OPEN_INPUT fcd) with (json_open files (cut filename 32) fcd).
  rewrite (bind_ok _ _ _ _ _ E1). change (op_json files filename OP_START_EQ f1) with (json_start f1).
  by rewrite (bind_ok _ _ _ _ _ E2).
Qed.

(** START on a path that leads to no element gives status 23 and leaves the current
    element where it was. *)
Theorem json_start_not_found files h filename tree fcd keys :
  length (json_ptr fcd) = 8%nat → repr (jnodes h) tree (getint (json_root fcd)) →
  path_of fcd = Some keys → find_path keys tree = None →
  op_json files filename OP_START_EQ fcd h = (h, inr (set_status ST_REC_NOT_FOUND fcd)).
Proof.
  intros Hp Ht Hk Hn. destruct (json_start_run h tree fcd keys Hp Ht Hk) as (f & E & _ & Hm). rewrite Hn in Hm.
  subst f. exact E.
Qed.

Definition ex_text : bytes := default [] (tostring (JE None TP_OBJECT None ex_doc)).
Definition ex_files (f : bytes) : option bytes := if bool_decide (f = bs "doc.json") then Some ex_text else None.
Definition ex_fcd (key : string) : fcd_t :=
  mk_fcd (bs "00") 0 0 128 (putshort 18) 0 (replicate 8 0) (putshort 450) (putshort 0)
    (bs key ++ replicate (450 - length (bs key)) 32) (bs "JSON:doc.json") [] (replicate 4 0) 0 0 (replicate 4 0) 0 0.
Definition ex_heap : jheap := mk_jheap ∅ 4096.

Lemma ex_heap_ok : jheap_ok ex_heap.
Proof. split; [done|]. intros a [? H]. unfold ex_heap in H. cbn [jnodes] in H. by rewrite lookup_empty in H. Qed.

Lemma json_scan_witness : ∃ h' fcd' areas,
  (fcd ← op_json ex_files (bs "doc.json ") OP_OPEN_INPUT (ex_fcd "items"); fcd ← op_json ex_files (bs "doc.json ") OP_START_EQ fcd;
   next_all 3 fcd) ex_heap = (h', inr (areas, fcd')) ∧ status fcd' = ST_EOF ∧ length areas = 2%nat.
Proof.
  edestruct (json_scan ex_files ex_heap (bs "doc.json ") ex_text (JE None TP_OBJECT None ex_doc) (ex_fcd "items"))
    as (h' & fcd' & E & Hs).
  - reflexivity.
  - vm_compute. reflexivity.
  - apply ex_heap_ok.
  - done.
  - reflexivity.
  - vm_compute. reflexivity.
  - reflexivity.
  - done.
  - vm_compute. reflexivity.
  - exists h', fcd'. eexists. split; [exact E|]. split; [exact Hs|]. reflexivity.
Defined.

Lemma json_start_not_found_witness :
  ∃ h fcd, op_json ex_files (bs "doc.json ") OP_START_EQ fcd h = (h, inr (set_status ST_REC_NOT_FOUND fcd)).
Proof.
  destruct (json_open_run ex_files ex_heap (bs "doc.json") (ex_fcd "item") ex_text (JE None TP_OBJECT None ex_doc))
    as (h' & f & _ & _ & Hr & Hl & HR & (Hp & _) & _); [done|by vm_compute|apply ex_heap_ok|done|done|].
  exists h', f. eapply (json_start_not_found ex_files h' (bs "doc.json ") (JE None TP_OBJECT None ex_doc) f [bs "item"]);
    [done|done| |reflexivity].
  unfold path_of. rewrite Hr, Hl. by vm_compute.
Defined.
