(* ===== verification/Pqfh.v ===== *)
(** The dispatcher (src/pqfh.c): the mode of operation of a call, and how each
    operation is sent to the ISAM file handler, to the database or to both.  The
    handlers are an interface; the file handler [EXTFH] is not part of the program. *)

From stdpp Require Import prelude gmap strings.
From S2P Require Import Prelude Fhtypes Fcd.
Local Open Scope Z_scope.

(** ** Modes and filters *)

(** src/pqfh.c:214-227 is_stlog *)
Definition is_stlog (stlog : list bytes) (st : bytes) : bool :=
  (byte_at st 0 =? ch "9") ||
  existsb (λ aux, (byte_at aux 0 =? byte_at st 0) && (byte_at aux 1 =? byte_at st 1)) stlog.

(** The second line of the mode file: two-character statuses separated by blanks,
    up to the next line feed; [lf] tells whether the first one was seen. *)
Fixpoint parse_stlog (s : bytes) (lf : bool) (st : bytes) (stlog : list bytes) : list bytes :=
  match s with
  | [] => stlog
  | c :: s' =>
      let done := if (length st =? 2)%nat then stlog ++ [st] else stlog in
      if c =? 10 then (if lf then done else parse_stlog s' true st stlog)
      else if negb lf then parse_stlog s' lf st stlog
      else if c =? 32 then parse_stlog s' lf [] done
      else parse_stlog s' lf (if (length st <? 2)%nat then st ++ [c] else st) stlog
  end.

(** The globals of pqfh.c the dispatcher reads; [executed], the counters and the
    times only go to the log. *)
Record globals := mk_gl {
  g_mode : Z;
  g_table_mode : Z;
  g_stlog : list bytes;
  g_force_partial : bool;
  g_lock_manual : bool;
  g_conn : bool;
  g_fatal : bool;
  g_replica : bool;
  g_locked : bool;
}.

(** src/pqfh.c:229-294 get_mode : the mode the file [.pqfh] asks for; the statuses
    are added to the list at every call. *)
Definition get_mode (file : option bytes) (g : globals) : globals :=
  let mk md stlog fp lm :=
    mk_gl md (g_table_mode g) stlog fp lm (g_conn g) (g_fatal g) (g_replica g) (g_locked g) in
  match file with
  | None => mk (ch "I") (g_stlog g) (g_force_partial g) (g_lock_manual g)
  | Some s =>
      let md := default (ch "I") (head s) in
      let stlog := parse_stlog (tail s) false [] (g_stlog g) in
      if md =? ch "a" then mk (ch "A") stlog true true
      else if md =? ch "b" then mk (ch "B") stlog true false
      else if md =? ch "L" then mk (ch "W") stlog (g_force_partial g) (g_lock_manual g)
      else mk md stlog (g_force_partial g) (g_lock_manual g)
  end.

(** src/pqfh.c:175-183 log_table : [dbg_tables] is a list between commas. *)
Definition log_table (dbg_tables : option bytes) (filename : bytes) : bool :=
  match dbg_tables with
  | None => true
  | Some tabs =>
      let f := cstr filename in
      match f with
      | [] => true
      | c :: _ =>
          if c =? 32 then true
          else match strstr tabs (bs "," ++ basename f ++ bs ",") with Some _ => true | None => false end
      end
  end.

(** src/pqfh.c:164-173 log_fcd *)
Definition log_fcd (dbg_tables : option bytes) (fcd : fcd_t) : option bool :=
  match dbg_tables with
  | None => Some true
  | Some _ =>
      let fnlen := getshort (file_name_len fcd) in
      if fnlen =? 0 then Some true
      else f ← sub_bytes (file_name fcd) 0 fnlen; Some (log_table dbg_tables f)
  end.

(** ** The handlers *)

Record sys (W : Type) := mk_sys { gl : globals; world : W }.
Arguments mk_sys {W} _ _.
Arguments gl {W} _.
Arguments world {W} _.

(** What the dispatcher calls: the ISAM file handler, the JSON and memory files, and
    the operations on the database. *)
Class Handlers (W : Type) := {
  h_pqfh_file : W → option bytes;
  EXTFH : Z → fcd_t → M (sys W) fcd_t;
  h_json : bytes → Z → fcd_t → M (sys W) fcd_t;
  h_memfh : Z → Z → fcd_t → bytes → M (sys W) fcd_t;
  h_connect : M (sys W) unit;
  h_commit : M (sys W) unit;
  h_replica_commit : M (sys W) unit;
  h_open : fcd_t → Z → M (sys W) (fcd_t * bool);
  h_close : fcd_t → M (sys W) (fcd_t * bool);
  h_start : fcd_t → bytes → M (sys W) fcd_t;
  h_next_prev : fcd_t → Z → M (sys W) fcd_t;
  h_read_random : fcd_t → bool → M (sys W) fcd_t;
  h_unlock : fcd_t → M (sys W) fcd_t;
  h_rewrite : fcd_t → M (sys W) (fcd_t * bool);
  h_write : fcd_t → M (sys W) (fcd_t * bool);
  h_delete : fcd_t → M (sys W) fcd_t;
  h_delete_file : fcd_t → M (sys W) fcd_t;
}.

Section dispatcher.
Context {W : Type} `{!Handlers W}.

Definition get_g {A} (f : globals → A) : M (sys W) A := gets (λ s, f (gl s)).
Definition set_g (f : globals → globals) : M (sys W) unit := modify (λ s, mk_sys (f (gl s)) (world s)).

Definition is_mode (c : string) : M (sys W) bool := md ← get_g g_mode; mret (md =? ch c).
Definition put_mode (md : Z) (g : globals) : globals :=
  mk_gl md (g_table_mode g) (g_stlog g) (g_force_partial g) (g_lock_manual g) (g_conn g)
    (g_fatal g) (g_replica g) (g_locked g).
Definition put_table_mode (md : Z) (g : globals) : globals :=
  mk_gl (g_mode g) md (g_stlog g) (g_force_partial g) (g_lock_manual g) (g_conn g)
    (g_fatal g) (g_replica g) (g_locked g).
Definition put_locked (b : bool) (g : globals) : globals :=
  mk_gl (g_mode g) (g_table_mode g) (g_stlog g) (g_force_partial g) (g_lock_manual g)
    (g_conn g) (g_fatal g) (g_replica g) b.

(** [!memcmp(fcd->status, ST_OK, 2)] *)
Definition st_ok (fcd : fcd_t) : bool := memeq (status fcd) ST_OK 2.

(** [memcpy(fcd->record, buf, reclen)] *)
Definition put_record (buf : bytes) (reclen : nat) (fcd : fcd_t) : M (sys W) fcd_t :=
  guard_fault ((reclen <=? length buf) && (reclen <=? length (record fcd)))%nat;;
  mret (set_rec (blit (record fcd) 0 (take reclen buf)) fcd).

(** [memcpy(buf, fcd->record, reclen)] *)
Definition save_record (reclen : nat) (fcd : fcd_t) : M (sys W) bytes :=
  guard_fault (reclen <=? length (record fcd))%nat;;
  mret (take reclen (record fcd)).

(** src/pqfh.c:932-1002 pqfh (the four opens) *)
Definition do_open (op : Z) (st : bytes) (open_mode : Z) (fcd : fcd_t) : M (sys W) fcd_t :=
  w ← is_mode "W";
  if negb (op =? OP_OPEN_IO) && w then mret (set_isam (ch "S") fcd)
  else
    let fcd := if w : bool then set_open_mode 128 fcd else fcd in
    r ← h_open fcd op;
    w ← is_mode "W";
    if w : bool then mret (set_status st (set_open_mode open_mode (fst r)))
    else if (snd r : bool) then mret (fst r)
    else
      let fcd := fst r in
      if isam fcd =? ch "S" then EXTFH op fcd
      else
        b ← is_mode "B";
        if b : bool then mret fcd
        else if st_ok fcd then
          fcd ← EXTFH op (set_open_mode 128 fcd);
          if st_ok fcd then mret fcd
          else
            let st := status fcd in
            r ← h_close fcd;
            mret (set_status st (fst r))
        else mret fcd.

(** src/pqfh.c:1004-1039 pqfh (close) *)
Definition do_close (op : Z) (st : bytes) (open_mode : Z) (fcd : fcd_t) : M (sys W) fcd_t :=
  w ← is_mode "W";
  let fcd := if w : bool then set_open_mode 2 fcd else fcd in
  r ← h_close fcd;
  w ← is_mode "W";
  if w : bool then mret (set_status st (set_open_mode open_mode (fst r)))
  else if (snd r : bool) then mret (fst r)
  else
    b ← is_mode "B";
    if b : bool then mret (fst r)
    else EXTFH op (set_open_mode open_mode (fst r)).

(** src/pqfh.c:1041-1139 pqfh (starts, reads and unlock): the database serves them,
    except in mode W, where the ISAM file already did. *)
Definition do_read (op : Z) (fcd : fcd_t) : M (sys W) fcd_t :=
  w ← is_mode "W";
  if w : bool then mret fcd
  else if op =? OP_START_GT then h_start fcd (bs ">")
  else if op =? OP_START_GE then h_start fcd (bs ">=")
  else if op =? OP_START_LT then h_start fcd (bs "<")
  else if op =? OP_START_LE then h_start fcd (bs "<=")
  else if op =? OP_START_EQ then h_start fcd (bs "=")
  else if op =? OP_READ_NEXT then h_next_prev fcd (ch "n")
  else if op =? OP_READ_PREVIOUS then h_next_prev fcd (ch "p")
  else if op =? OP_READ_LOCK then h_read_random fcd true
  else if op =? OP_UNLOCK then h_unlock fcd
  else h_read_random fcd false.

Definition replica_end (fcd : fcd_t) : M (sys W) fcd_t :=
  r ← get_g g_replica;
  (if r : bool then h_replica_commit else mret tt);;
  mret fcd.

(** src/pqfh.c:1141-1178 pqfh (rewrite): when the database refuses it the previous
    record, [undo], is written back to the ISAM file. *)
Definition do_rewrite (op : Z) (st : bytes) (undo : option bytes) (reclen : nat) (fcd : fcd_t) : M (sys W) fcd_t :=
  r ← h_rewrite fcd;
  let fcd := fst r in
  w ← is_mode "W";
  if w : bool then mret (set_status st fcd)
  else
    b ← is_mode "B";
    if negb b && (negb (snd r) || negb (st_ok fcd)) then
      record ← save_record reclen fcd;
      let st := status fcd in
      u ← of_option undo;
      fcd ← put_record u reclen fcd;
      fcd ← EXTFH op fcd;
      fcd ← put_record record reclen fcd;
      mret (set_status st fcd)
    else replica_end fcd.

(** src/pqfh.c:1181-1220 pqfh (write): when the database refuses it the record is
    deleted from the ISAM file. *)
Definition do_write (st : bytes) (fcd : fcd_t) : M (sys W) fcd_t :=
  r ← h_write fcd;
  let fcd := fst r in
  w ← is_mode "W";
  if w : bool then mret (set_status st fcd)
  else if (snd r : bool) then mret fcd
  else
    b ← is_mode "B";
    if negb b && negb (st_ok fcd) then
      let st := status fcd in
      fcd ← EXTFH OP_DELETE fcd;
      mret (set_status st fcd)
    else replica_end fcd.

(** src/pqfh.c:1227-1264 pqfh (delete): when the database refuses it the record in
    the area is written to the ISAM file. *)
Definition do_delete (st : bytes) (reclen : nat) (fcd : fcd_t) : M (sys W) fcd_t :=
  fcd ← h_delete fcd;
  w ← is_mode "W";
  if w : bool then mret (set_status st fcd)
  else
    b ← is_mode "B";
    if negb b && negb (st_ok fcd) then
      record ← save_record reclen fcd;
      let st := status fcd in
      fcd ← EXTFH OP_WRITE fcd;
      fcd ← put_record record reclen fcd;
      mret (set_status st fcd)
    else replica_end fcd.

Definition is_open (op : Z) : bool :=
  (op =? OP_OPEN_INPUT) || (op =? OP_OPEN_OUTPUT) || (op =? OP_OPEN_EXTEND) || (op =? OP_OPEN_IO).
Definition is_read (op : Z) : bool :=
  bool_decide (op ∈ [OP_START_GT; OP_START_GE; OP_START_LT; OP_START_LE; OP_START_EQ; OP_READ_NEXT;
                     OP_READ_PREVIOUS; OP_READ_LOCK; OP_UNLOCK; OP_READ_RANDOM]).

(** src/pqfh.c:928-1272 pqfh (the switch) *)
Definition do_op (op : Z) (undo : option bytes) (reclen : nat) (fcd : fcd_t) : M (sys W) fcd_t :=
  let st := take 2 (status fcd) in
  let om := open_mode fcd in
  if is_open op then do_open op st om fcd
  else if op =? OP_CLOSE then do_close op st om fcd
  else if is_read op then do_read op fcd
  else if op =? OP_REWRITE then do_rewrite op st undo reclen fcd
  else if op =? OP_WRITE then do_write st fcd
  else if op =? OP_DELETE_FILE then h_delete_file fcd
  else if op =? OP_DELETE then do_delete st reclen fcd
  else mret fcd.

Definition not_pqfh (filename : bytes) : bool := negb (bool_decide (cstr filename = bs "pqfh")).

(** src/pqfh.c:783-858 pqfh (the ISAM file handler first): the second component tells
    that the operation ends there. *)
Definition isam_stage (op salva_isam : Z) (filename : bytes) (fcd : fcd_t) : M (sys W) (fcd_t * bool) :=
  i ← is_mode "I"; w ← is_mode "W";
  if (i || w || (isam fcd =? ch "S")) && negb (memeq filename (bs "pqfh") 4) then
    fcd ← EXTFH op fcd;
    (if op =? OP_UNLOCK then h_commit else mret tt);;
    w ← is_mode "W";
    if negb w then mret (fcd, true)
    else if negb (memeq (status fcd) ST_OK 1) then
      mret (if salva_isam =? 0 then fcd else set_isam salva_isam fcd, true)
    else mret (fcd, (isam fcd =? ch "S") && not_pqfh filename)
  else mret (fcd, w && (isam fcd =? ch "S") && not_pqfh filename).

(** src/pqfh.c:860-921 pqfh (mode A, updates): the ISAM file first, with the record it
    had before; the last component tells that the operation ends there. *)
Definition mode_a_stage (op : Z) (reclen : nat) (filename : bytes) (fcd : fcd_t)
  : M (sys W) (fcd_t * option bytes * bool) :=
  a ← is_mode "A";
  if (a : bool) && negb (isam fcd =? ch "S") && not_pqfh filename &&
     ((op =? OP_WRITE) || (op =? OP_REWRITE) || (op =? OP_DELETE)) then
    p ← (if op =? OP_WRITE then mret (fcd, None, false)
         else
           record ← save_record reclen fcd;
           fcd ← EXTFH OP_READ_RANDOM fcd;
           if negb (st_ok fcd) then fcd ← put_record record reclen fcd; mret (fcd, None, true)
           else
             undo ← save_record reclen fcd;
             fcd ← put_record record reclen fcd;
             mret (fcd, Some undo, false));
    let '(fcd, undo, fin) := p in
    if fin : bool then mret (fcd, undo, true)
    else
      fcd ← EXTFH op fcd;
      mret (fcd, undo, negb (st_ok fcd))
  else mret (fcd, None, false).

(** src/pqfh.c:650-659 pqfh (the name of the file and the mode of the call); the
    name is copied before its length is limited. *)
Definition call_name (fcd : fcd_t) : option (fcd_t * bytes) :=
  let fnlen := s16 (getshort (file_name_len fcd)) in
  filename ← sub_bytes (file_name fcd) 0 fnlen;
  if fnlen <=? 4096 then
    if 256 <? fnlen then Some (set_file_name_len (putshort 256) fcd, take 256 filename)
    else Some (fcd, filename)
  else None.

(** src/pqfh.c:668-677 pqfh (the mode of an open) *)
Definition choose_mode (op : Z) (fcd : fcd_t) : M (sys W) fcd_t :=
  tm ← get_g g_table_mode;
  let fcd := if (OP_OPEN_INPUT <=? op) && (op <=? OP_OPEN_EXTEND) && (open_mode fcd =? 128)
             then set_isam 0 (set_mode tm fcd) else fcd in
  set_g (put_table_mode 0);;
  (if negb (mode fcd =? 0) && bool_decide (mode fcd ∈ bs "ABWIMF") then set_g (put_mode (mode fcd)) else mret tt);;
  mret fcd.

(** src/pqfh.c:640-782 pqfh : one call of the file handler. *)
Definition pqfh (op : Z) (fcd : fcd_t) : M (sys W) fcd_t :=
  file ← gets (λ s, h_pqfh_file (world s));
  set_g (get_mode file);;
  n ← of_option (call_name fcd);
  let '(fcd, filename) := n in
  if (5 <? length filename)%nat && memeq filename (bs "JSON:") 5 then h_json (drop 5 filename) op fcd
  else
    fcd ← choose_mode op fcd;
    md ← get_g g_mode;
    if (md =? ch "M") || (md =? ch "F") then h_memfh md op fcd filename
    else
      let salva_isam := if (md =? ch "W") && (op =? OP_OPEN_IO) then isam fcd else 0 in
      let fcd := if (md =? ch "W") && (op =? OP_OPEN_IO) then set_isam 0 fcd else fcd in
      c ← get_g g_conn;
      (if negb c && negb (md =? ch "I") then h_connect else mret tt);;
      let reclen := Z.to_nat (s16 (getshort (rec_len fcd))) in
      (if negb (md =? ch "I") && (op =? OP_COMMIT) then h_commit else mret tt);;
      p ← isam_stage op salva_isam filename fcd;
      let '(fcd, fin) := p in
      if fin : bool then mret fcd
      else
        q ← mode_a_stage op reclen filename fcd;
        let '(fcd, undo, fin) := q in
        if fin : bool then mret fcd
        else
          f ← get_g g_fatal;
          if f : bool then stop Exit
          else
            l ← get_g g_locked;
            if l : bool then stop Hang
            else
              set_g (put_locked true);;
              fcd ← do_op op undo reclen fcd;
              set_g (put_locked false);;
              mret fcd.

End dispatcher.
