(* ===== verification/PqfhSpec.v ===== *)
(** What the dispatcher guarantees about the two stores, for any handlers that keep the contract of
    a file stated here: in mode A a WRITE or REWRITE is done in both the ISAM file and the database or
    in none, and a DELETE but for the record it may put back; in mode W the ISAM file decides.  [SystemDual] has the
    same for the handlers of this library, with the conditions they need. *)

From stdpp Require Import prelude gmap strings.
From S2P Require Import Prelude Fhtypes Fcd Pqfh.
Local Open Scope Z_scope.

(** The files as maps from primary key to record, and what is relied on of the
    handlers for one file with records of [n] bytes. *)
Section stores.
Context {W : Type} `{!Handlers W}.
Context (isam_of db_of : W → gmap bytes bytes) (key : bytes → bytes) (n : nat).

(** The record in the area. *)
Definition rec_of (fcd : fcd_t) : bytes := take n (record fcd).

(** What stays in a control block whose file stays open. *)
Definition same_call (fcd fcd' : fcd_t) : Prop :=
  isam fcd' = isam fcd ∧ rec_len fcd' = rec_len fcd ∧ length (record fcd') = length (record fcd) ∧
  length (status fcd') = 2%nat.

(** The effect of an update on a store. *)
Definition upd (op : Z) (r : bytes) (m : gmap bytes bytes) : gmap bytes bytes :=
  if op =? OP_DELETE then delete (key r) m else <[key r := r]> m.

(** Whether a store accepts the update. *)
Definition accepts (op : Z) (r : bytes) (m : gmap bytes bytes) : bool :=
  if op =? OP_WRITE then bool_decide (m !! key r = None) else bool_decide (is_Some (m !! key r)).

Definition is_update (op : Z) : bool := (op =? OP_WRITE) || (op =? OP_REWRITE) || (op =? OP_DELETE).

(** Every record is under its key and has the length of the file. *)
Definition wf_store (m : gmap bytes bytes) : Prop := ∀ k r, m !! k = Some r → key r = k ∧ length r = n.

(** The ISAM file handler: an update is done and gives status 00, or gives another
    status, of another class, and changes nothing; a read gives the record of the key. *)
Class IsamFile : Prop := {
  ext_update op fcd s : is_update op = true → (n ≤ length (record fcd))%nat →
    ∃ s' fcd', EXTFH op fcd s = (s', inr fcd') ∧ same_call fcd fcd' ∧ gl s' = gl s ∧
      db_of (world s') = db_of (world s) ∧ rec_of fcd' = rec_of fcd ∧
      st_ok fcd' = accepts op (rec_of fcd) (isam_of (world s)) ∧ memeq (status fcd') ST_OK 1 = st_ok fcd' ∧
      isam_of (world s') = if st_ok fcd' then upd op (rec_of fcd) (isam_of (world s)) else isam_of (world s);
  ext_read fcd s : (n ≤ length (record fcd))%nat → wf_store (isam_of (world s)) →
    ∃ s' fcd', EXTFH OP_READ_RANDOM fcd s = (s', inr fcd') ∧ same_call fcd fcd' ∧ gl s' = gl s ∧
      db_of (world s') = db_of (world s) ∧ isam_of (world s') = isam_of (world s) ∧
      match isam_of (world s) !! key (rec_of fcd) with
      | Some r => st_ok fcd' = true ∧ rec_of fcd' = r
      | None => st_ok fcd' = false
      end;
}.

(** The database operations: done with status 00, or refused with another status and
    nothing changed; a refused write keeps the key in the area (it may have read the
    record that is there), a refused delete leaves in the area the record it read or
    what the program had there. *)
Class DbFile : Prop := {
  db_write fcd s : (n ≤ length (record fcd))%nat →
    ∃ s' fcd', h_write fcd s = (s', inr (fcd', false)) ∧ same_call fcd fcd' ∧ gl s' = gl s ∧
      isam_of (world s') = isam_of (world s) ∧ key (rec_of fcd') = key (rec_of fcd) ∧
      db_of (world s') = if st_ok fcd' then upd OP_WRITE (rec_of fcd) (db_of (world s)) else db_of (world s);
  db_rewrite fcd s : (n ≤ length (record fcd))%nat →
    ∃ s' fcd' ret, h_rewrite fcd s = (s', inr (fcd', ret)) ∧ same_call fcd fcd' ∧ gl s' = gl s ∧
      isam_of (world s') = isam_of (world s) ∧ (st_ok fcd' = true → ret = true) ∧
      db_of (world s') = if st_ok fcd' then upd OP_REWRITE (rec_of fcd) (db_of (world s)) else db_of (world s);
  db_delete fcd s : (n ≤ length (record fcd))%nat →
    ∃ s' fcd', h_delete fcd s = (s', inr fcd') ∧ same_call fcd fcd' ∧ gl s' = gl s ∧
      isam_of (world s') = isam_of (world s) ∧
      (st_ok fcd' = false → rec_of fcd' = rec_of fcd ∨ db_of (world s) !! key (rec_of fcd) = Some (rec_of fcd')) ∧
      db_of (world s') = if st_ok fcd' then upd OP_DELETE (rec_of fcd) (db_of (world s)) else db_of (world s);
}.

(** The mode of a call: that of the control block or else that of the file [.pqfh]. *)
Definition call_mode (fcd : fcd_t) (s : sys W) : Z :=
  if mode fcd =? 0 then g_mode (get_mode (h_pqfh_file (world s)) (gl s)) else mode fcd.

(** A call on an open database file, connected, with no fatal error pending. *)
Record call (md : string) (fcd : fcd_t) (s : sys W) (filename : bytes) : Prop := {
  ca_name : call_name fcd = Some (fcd, filename);
  ca_json : memeq filename (bs "JSON:") 5 = false;
  ca_pqfh : not_pqfh filename = true ∧ memeq filename (bs "pqfh") 4 = false;
  ca_mode : call_mode fcd s = ch md;
  ca_isam : isam fcd ≠ ch "S";
  ca_conn : g_conn (gl s) = true;
  ca_fatal : g_fatal (gl s) = false;
  ca_locked : g_locked (gl s) = false;
  ca_replica : g_replica (gl s) = false;
  ca_len : Z.to_nat (s16 (getshort (rec_len fcd))) = n;
  ca_rec : (n ≤ length (record fcd))%nat;
  ca_st : length (status fcd) = 2%nat;
}.

(** The globals once the mode of the call is chosen. *)
Definition chosen (md : string) (s : sys W) : sys W :=
  mk_sys (put_mode (ch md) (put_table_mode 0 (get_mode (h_pqfh_file (world s)) (gl s)))) (world s).

Lemma chosen_flags md s :
  g_mode (gl (chosen md s)) = ch md ∧ g_fatal (gl (chosen md s)) = g_fatal (gl s) ∧
  g_locked (gl (chosen md s)) = g_locked (gl s) ∧ g_replica (gl (chosen md s)) = g_replica (gl s).
Proof. unfold chosen, get_mode. destruct (h_pqfh_file (world s)); simpl; repeat case_match; done. Qed.

Lemma chosen_conn md s : g_conn (gl (chosen md s)) = g_conn (gl s).
Proof. unfold chosen, get_mode. destruct (h_pqfh_file (world s)); simpl; repeat case_match; done. Qed.

Lemma is_update_cases op : is_update op = true → op = OP_WRITE ∨ op = OP_REWRITE ∨ op = OP_DELETE.
Proof. unfold is_update. rewrite !orb_true_iff, !Z.eqb_eq. tauto. Qed.

Lemma is_mode_run c (s : sys W) : is_mode c s = (s, inr (g_mode (gl s) =? ch c)).
Proof. done. Qed.

(** Neither an open nor a commit. *)
Definition plain_op (op : Z) : bool := negb ((OP_OPEN_INPUT <=? op) && (op <=? OP_OPEN_EXTEND)) && negb (op =? OP_COMMIT).

Lemma update_plain op : is_update op = true → plain_op op = true.
Proof. by intros [->|[->| ->]]%is_update_cases. Qed.

(** The operation, with the mutex held. *)
Definition bracket (op : Z) (undo : option bytes) (fcd : fcd_t) : M (sys W) fcd_t :=
  f ← get_g g_fatal;
  if f : bool then stop Exit
  else
    l ← get_g g_locked;
    if l : bool then stop Hang
    else
      set_g (put_locked true);;
      fcd ← do_op op undo n fcd;
      set_g (put_locked false);;
      mret fcd.

(** The stages of a call whose mode is chosen. *)
Definition stages (op : Z) (filename : bytes) (fcd : fcd_t) : M (sys W) fcd_t :=
  p ← isam_stage op 0 filename fcd;
  let '(fcd, fin) := p in
  if fin : bool then mret fcd
  else
    q ← mode_a_stage op n filename fcd;
    let '(fcd, undo, fin) := q in
    if fin : bool then mret fcd else bracket op undo fcd.

(** A call in mode [A], [B] or [W] from the choice of the mode to the stage of the ISAM file:
    the first one connects. *)
Lemma pqfh_entry md op fcd fcd1 s filename :
  md = "A"%string ∨ md = "B"%string ∨ md = "W"%string → call_name fcd = Some (fcd, filename) →
  memeq filename (bs "JSON:") 5 = false → op ≠ OP_COMMIT → md ≠ "W"%string ∨ op ≠ OP_OPEN_IO →
  Z.to_nat (s16 (getshort (rec_len fcd1))) = n →
  choose_mode op fcd (mk_sys (get_mode (h_pqfh_file (world s)) (gl s)) (world s)) = (chosen md s, inr fcd1) →
  pqfh op fcd s =
    ((if negb (g_conn (gl s)) then h_connect else mret tt);; stages op filename fcd1) (chosen md s).
Proof.
  intros Hmd Hname Hjson Hcom Hio Hlen Hch. unfold pqfh.
  rewrite (bind_ok _ _ _ _ _ (gets_run _ s)). erewrite bind_ok by apply modify_run.
  rewrite Hname. erewrite bind_ok by done. cbv beta iota. rewrite Hjson, andb_false_r.
  rewrite (bind_ok _ _ _ _ _ Hch), (bind_ok (get_g g_mode) _ (chosen md s) _ _ eq_refl). cbv beta zeta.
  destruct (chosen_flags md s) as (-> & _).
  assert ((ch md =? ch "W") && (op =? OP_OPEN_IO) = false) as ->.
  { destruct Hio as [Hio|Hio]; [|by rewrite (proj2 (Z.eqb_neq _ _) Hio), andb_false_r]. by destruct Hmd as [->|[->| ->]]. }
  rewrite (proj2 (Z.eqb_neq _ _) Hcom), !andb_false_r. cbv iota. rewrite Hlen.
  assert ((ch md =? ch "M") || (ch md =? ch "F") = false) as -> by (by destruct Hmd as [->|[->| ->]]).
  rewrite (bind_ok (get_g g_conn) _ (chosen md s) _ _ eq_refl). rewrite chosen_conn.
  assert ((ch md =? ch "I") = false) as -> by (by destruct Hmd as [->|[->| ->]]). by rewrite andb_true_r.
Qed.

Lemma pqfh_chosen md op fcd fcd1 s filename :
  md = "A"%string ∨ md = "B"%string ∨ md = "W"%string → call_name fcd = Some (fcd, filename) →
  memeq filename (bs "JSON:") 5 = false → op ≠ OP_COMMIT → md ≠ "W"%string ∨ op ≠ OP_OPEN_IO → g_conn (gl s) = true →
  Z.to_nat (s16 (getshort (rec_len fcd1))) = n →
  choose_mode op fcd (mk_sys (get_mode (h_pqfh_file (world s)) (gl s)) (world s)) = (chosen md s, inr fcd1) →
  pqfh op fcd s =
    stages op filename fcd1 (chosen md s).
Proof. intros Hmd Hname Hjson Hcom Hio Hconn Hlen Hch. etrans; [by apply pqfh_entry|]. by rewrite Hconn. Qed.

(** The mode is that of the call. *)
Lemma mode_chosen md fcd (s : sys W) : md = "A"%string ∨ md = "B"%string ∨ md = "W"%string → call_mode fcd s = ch md →
  (set_g (put_table_mode 0);;
   (if negb (mode fcd =? 0) && bool_decide (mode fcd ∈ bs "ABWIMF") then set_g (put_mode (mode fcd)) else mret tt);;
   mret fcd) (mk_sys (get_mode (h_pqfh_file (world s)) (gl s)) (world s)) = (chosen md s, inr fcd).
Proof.
  intros Hmd Hm. erewrite bind_ok by apply modify_run. unfold call_mode in Hm. destruct (mode fcd =? 0) eqn:E; cbn [negb andb].
  - unfold chosen. rewrite <-Hm. rewrite (bind_ok (mret tt) _ _ _ _ eq_refl). by destruct (get_mode _ _).
  - rewrite Hm. destruct Hmd as [->|[->| ->]]; done.
Qed.

Lemma pqfh_prologue md op fcd s filename :
  md = "A"%string ∨ md = "B"%string ∨ md = "W"%string → call md fcd s filename → plain_op op = true →
  pqfh op fcd s =
    stages op filename fcd (chosen md s).
Proof.
  intros Hmd [Hname Hjson Hpq Hmode Hisam Hconn Hfatal Hlock Hrep Hlen Hrec Hst] [Hran%negb_true_iff Hcom%negb_true_iff]%andb_true_iff.
  apply pqfh_chosen; try done; [by apply Z.eqb_neq|right; by intros ->|].
  unfold choose_mode. erewrite bind_ok by done. rewrite Hran. by apply mode_chosen.
Qed.

Lemma isam_stage_skip md op fcd filename (s : sys W) :
  md = "A"%string ∨ md = "B"%string → g_mode (gl s) = ch md → isam fcd ≠ ch "S" →
  isam_stage op 0 filename fcd s = (s, inr (fcd, false)).
Proof.
  intros Hmd Hg Hi. unfold isam_stage. rewrite !(bind_ok _ _ _ _ _ (is_mode_run _ _)), Hg.
  rewrite (proj2 (Z.eqb_neq _ _) Hi). by destruct Hmd as [->| ->].
Qed.

(** Taking and releasing the mutex does not touch the stores. *)
Lemma bracket_run op undo fcd (s : sys W) s2 fcd2 :
  g_fatal (gl s) = false → g_locked (gl s) = false →
  do_op op undo n fcd (mk_sys (put_locked true (gl s)) (world s)) = (s2, inr fcd2) →
  bracket op undo fcd s = (mk_sys (put_locked false (gl s2)) (world s2), inr fcd2).
Proof.
  intros Hf Hl Hrun. unfold bracket. rewrite (bind_ok (get_g g_fatal) _ s _ _ eq_refl), Hf.
  rewrite (bind_ok (get_g g_locked) _ s _ _ eq_refl), Hl.
  erewrite bind_ok by apply modify_run. rewrite (bind_ok _ _ _ _ _ Hrun). done.
Qed.

Lemma put_record_run buf fcd (s : sys W) :
  (n ≤ length buf)%nat → (n ≤ length (record fcd))%nat →
  put_record buf n fcd s = (s, inr (set_rec (blit (record fcd) 0 (take n buf)) fcd)).
Proof. intros Hb Hr. unfold put_record, guard_fault. by rewrite !(proj2 (Nat.leb_le _ _)) by done. Qed.

Lemma save_record_run fcd (s : sys W) :
  (n ≤ length (record fcd))%nat → save_record n fcd s = (s, inr (rec_of fcd)).
Proof. intros Hr. unfold save_record, guard_fault. by rewrite (proj2 (Nat.leb_le _ _)) by done. Qed.

Lemma put_rec_of buf fcd :
  (n ≤ length buf)%nat → (n ≤ length (record fcd))%nat →
  let fcd' := set_rec (blit (record fcd) 0 (take n buf)) fcd in
  rec_of fcd' = take n buf ∧ length (record fcd') = length (record fcd) ∧ status fcd' = status fcd ∧ isam fcd' = isam fcd.
Proof.
  intros Hb Hr. simpl. unfold rec_of, blit. simpl.
  rewrite take_app_length' by (rewrite length_take; lia). split; [done|]. split; [|done].
  rewrite length_app, length_take, length_drop. lia.
Qed.

Lemma st_ok_status fcd fcd' : status fcd' = status fcd → st_ok fcd' = st_ok fcd.
Proof. unfold st_ok. by intros ->. Qed.

Lemma upd_insert op r m : (op =? OP_DELETE) = false → upd op r m = <[key r := r]> m.
Proof. unfold upd. by intros ->. Qed.

Lemma upd_delete_insert r r' m : key r' = key r → m !! key r = None → upd OP_DELETE r' (upd OP_WRITE r m) = m.
Proof.
  intros Hk Hm. unfold upd. rewrite Z.eqb_refl. change (OP_WRITE =? OP_DELETE) with false. cbv iota.
  rewrite Hk. by apply delete_insert_id.
Qed.

Context `{!IsamFile} `{!DbFile}.

(** One store is the other. *)
Definition in_sync (s : sys W) : Prop := isam_of (world s) = db_of (world s).

(** After the ISAM file took the update, [do_op] runs with the mutex held. *)
Definition held (s : sys W) : sys W := mk_sys (put_locked true (gl s)) (world s).

Lemma mode_a_pre op fcd (s : sys W) filename :
  call "A" fcd s filename → is_update op = true →
  (g_mode (gl (chosen "A" s)) =? ch "A") && negb (isam fcd =? ch "S") && not_pqfh filename &&
    ((op =? OP_WRITE) || (op =? OP_REWRITE) || (op =? OP_DELETE)) = true.
Proof.
  intros [_ _ [Hpq _] _ Hi _ _ _ _ _ _ _] Hop.
  destruct (chosen_flags "A" s) as (-> & _). rewrite (proj2 (Z.eqb_neq _ _) Hi), Hpq.
  unfold is_update in Hop. by rewrite Hop.
Qed.

Lemma mode_a_write fcd (s : sys W) filename :
  call "A" fcd s filename →
  mode_a_stage OP_WRITE n filename fcd (chosen "A" s) =
    (fcd ← EXTFH OP_WRITE fcd; mret (fcd, None, negb (st_ok fcd))) (chosen "A" s).
Proof.
  intros Hc. pose proof (mode_a_pre OP_WRITE fcd s filename Hc eq_refl) as Hpre.
  unfold mode_a_stage. rewrite (bind_ok _ _ _ _ _ (is_mode_run _ _)). rewrite Hpre. done.
Qed.

Lemma do_write_a fcd (s : sys W) :
  g_mode (gl s) = ch "A" → g_replica (gl s) = false → (n ≤ length (record fcd))%nat →
  isam_of (world s) !! key (rec_of fcd) = Some (rec_of fcd) →
  ∃ s2 fcd2, do_op OP_WRITE None n fcd s = (s2, inr fcd2) ∧ gl s2 = gl s ∧
    if st_ok fcd2
    then isam_of (world s2) = isam_of (world s) ∧ db_of (world s2) = upd OP_WRITE (rec_of fcd) (db_of (world s))
    else isam_of (world s2) = delete (key (rec_of fcd)) (isam_of (world s)) ∧ db_of (world s2) = db_of (world s).
Proof.
  intros Hm Hrep Hlen Hin.
  destruct (db_write fcd s Hlen) as (s1 & fcd1 & Hw & (Hi1 & Hrl1 & Hlr1 & Hst1) & Hg1 & Hi & Hk & Hdb).
  change (do_op OP_WRITE None n fcd) with (do_write (take 2 (status fcd)) fcd). unfold do_write.
  rewrite (bind_ok _ _ _ _ _ Hw). cbn [fst snd]. rewrite !(bind_ok _ _ _ _ _ (is_mode_run _ _)), Hg1, Hm.
  change (ch "A" =? ch "W") with false. cbv iota.
  rewrite (bind_ok _ _ _ _ _ (is_mode_run _ _)), Hg1, Hm. change (ch "A" =? ch "B") with false. cbn [negb andb].
  destruct (st_ok fcd1) eqn:Eok; cbn [negb].
  - exists s1, fcd1. rewrite Eok. split; [|by split]. unfold replica_end.
    rewrite (bind_ok (get_g g_replica) _ s1 _ _ eq_refl), Hg1, Hrep. done.
  - destruct (ext_update OP_DELETE fcd1 s1 eq_refl) as (s2 & fcd2 & Hx & _ & Hg2 & Hd2 & Hr2 & Hacc & _ & Hi2); [lia|].
    rewrite (bind_ok _ _ _ _ _ Hx). eexists s2, _. split; [done|]. split; [congruence|].
    rewrite (st_ok_status fcd1) by done. rewrite Eok. split; [|congruence].
    rewrite Hi2, Hacc. unfold accepts. change (OP_DELETE =? OP_WRITE) with false. cbv iota.
    rewrite Hi, Hk, Hin, bool_decide_true by done. unfold upd. rewrite Z.eqb_refl. by rewrite Hk.
Qed.

Lemma dual_write fcd (s : sys W) filename :
  call "A" fcd s filename → in_sync s →
  ∃ s' fcd', pqfh OP_WRITE fcd s = (s', inr fcd') ∧ in_sync s' ∧
    isam_of (world s') = if st_ok fcd' then upd OP_WRITE (rec_of fcd) (isam_of (world s)) else isam_of (world s).
Proof.
  intros Hc Hsync. pose proof Hc as [_ _ _ _ Hisam _ Hfatal Hlock Hrep _ Hrec _].
  destruct (chosen_flags "A" s) as (Hm & Hf & Hl & Hr).
  rewrite (pqfh_prologue "A" OP_WRITE fcd s filename (or_introl eq_refl) Hc eq_refl). unfold stages.
  rewrite (bind_ok _ _ _ _ _ (isam_stage_skip "A" _ _ _ _ (or_introl eq_refl) Hm Hisam)). cbv beta iota.
  destruct (ext_update OP_WRITE fcd (chosen "A" s) eq_refl Hrec) as
    (s1 & fcd1 & Hx & (Hi1 & Hrl1 & Hlr1 & Hst1) & Hg1 & Hd1 & Hr1 & Hacc & _ & His1).
  pose proof (mode_a_write fcd s filename Hc) as Hma. rewrite (bind_ok _ _ _ _ _ Hx) in Hma.
  rewrite (bind_ok _ _ _ _ _ Hma). cbv beta iota. change (world (chosen "A" s)) with (world s) in *.
  destruct (st_ok fcd1) eqn:Eok; cbn [negb].
  - unfold accepts in Hacc. change (OP_WRITE =? OP_WRITE) with true in Hacc. cbv iota in Hacc.
    symmetry in Hacc. apply bool_decide_eq_true in Hacc.
    destruct (do_write_a fcd1 (held s1)) as (s2 & fcd2 & Hop & Hg2 & Hres).
    { simpl. by rewrite Hg1. } { simpl. by rewrite Hg1, Hr. } { lia. }
    { simpl. rewrite His1, Hr1. unfold upd. apply lookup_insert_eq. }
    eexists _, fcd2. split; [eapply bracket_run; [by rewrite Hg1, Hf|by rewrite Hg1, Hl|exact Hop]|].
    unfold in_sync. cbn [world]. simpl in Hres. rewrite Hd1, His1, Hr1 in Hres.
    destruct (st_ok fcd2); destruct Hres as [-> ->]; rewrite <-Hsync; [done|].
    unfold upd. change (OP_WRITE =? OP_DELETE) with false. cbv iota. by rewrite delete_insert_id.
  - exists s1, fcd1. rewrite Eok. split; [done|]. unfold in_sync. by rewrite Hd1, His1.
Qed.

(** Mode [A] reads the previous record before a rewrite or a delete. *)
Lemma mode_a_read op fcd (s : sys W) filename :
  op = OP_REWRITE ∨ op = OP_DELETE → call "A" fcd s filename → wf_store (isam_of (world s)) →
  ∃ s1 fcd1, gl s1 = gl (chosen "A" s) ∧ isam_of (world s1) = isam_of (world s) ∧
    db_of (world s1) = db_of (world s) ∧ (n ≤ length (record fcd1))%nat ∧
    match isam_of (world s) !! key (rec_of fcd) with
    | None => mode_a_stage op n filename fcd (chosen "A" s) = (s1, inr (fcd1, None, true)) ∧ st_ok fcd1 = false
    | Some r0 => rec_of fcd1 = rec_of fcd ∧
        mode_a_stage op n filename fcd (chosen "A" s) =
          (fcd ← EXTFH op fcd1; mret (fcd, Some r0, negb (st_ok fcd))) s1
    end.
Proof.
  intros Hop Hc Hwf. assert (is_update op = true) as Hupd by by destruct Hop as [->| ->].
  pose proof (mode_a_pre op fcd s filename Hc Hupd) as Hpre. pose proof (ca_rec _ _ _ _ Hc) as Hrec.
  assert ((op =? OP_WRITE) = false) as Hnw by by destruct Hop as [->| ->].
  destruct (ext_read fcd (chosen "A" s) Hrec Hwf) as (s1 & fcd1 & Hx & (_ & _ & Hlr & _) & Hg & Hd & Hi & Hcase).
  assert (n ≤ length (rec_of fcd))%nat as Hlb by (unfold rec_of; rewrite length_take; lia).
  destruct (put_rec_of (rec_of fcd) fcd1 Hlb ltac:(lia)) as (Hput & Hlput & Hstput & _).
  assert (take n (rec_of fcd) = rec_of fcd) as Htake by (unfold rec_of; by rewrite take_take, Nat.min_id).
  set (fcd2 := set_rec (blit (record fcd1) 0 (take n (rec_of fcd))) fcd1) in *.
  exists s1, fcd2. split; [done|]. split; [done|]. split; [done|]. split; [lia|].
  unfold mode_a_stage. rewrite (bind_ok _ _ _ _ _ (is_mode_run _ _)). rewrite Hpre, Hnw.
  change (world (chosen "A" s)) with (world s) in *.
  destruct (isam_of (world s) !! key (rec_of fcd)) as [r0|].
  - destruct Hcase as [Hok Hr0]. split; [congruence|]. unfold mbind at 1, M_bind at 1.
    rewrite (bind_ok _ _ _ _ _ (save_record_run _ _ Hrec)), (bind_ok _ _ _ _ _ Hx), Hok. cbn [negb].
    rewrite (bind_ok _ _ _ _ _ (save_record_run fcd1 s1 ltac:(lia))), Hr0.
    rewrite (bind_ok _ _ _ _ _ (put_record_run _ fcd1 s1 Hlb ltac:(lia))). done.
  - split; [|by rewrite (st_ok_status fcd1)]. unfold mbind at 1, M_bind at 1.
    rewrite (bind_ok _ _ _ _ _ (save_record_run _ _ Hrec)), (bind_ok _ _ _ _ _ Hx), Hcase. cbn [negb].
    rewrite (bind_ok _ _ _ _ _ (put_record_run _ fcd1 s1 Hlb ltac:(lia))). done.
Qed.

Lemma do_rewrite_a fcd (s : sys W) r0 :
  g_mode (gl s) = ch "A" → g_replica (gl s) = false → (n ≤ length (record fcd))%nat →
  is_Some (isam_of (world s) !! key r0) → length r0 = n →
  ∃ s2 fcd2, do_op OP_REWRITE (Some r0) n fcd s = (s2, inr fcd2) ∧ gl s2 = gl s ∧
    if st_ok fcd2
    then isam_of (world s2) = isam_of (world s) ∧ db_of (world s2) = upd OP_REWRITE (rec_of fcd) (db_of (world s))
    else isam_of (world s2) = <[key r0 := r0]> (isam_of (world s)) ∧ db_of (world s2) = db_of (world s).
Proof.
  intros Hm Hrep Hlen Hin Hl0.
  destruct (db_rewrite fcd s Hlen) as (s1 & fcd1 & ret & Hw & (Hi1 & Hrl1 & Hlr1 & Hst1) & Hg1 & Hi & Hret & Hdb).
  change (do_op OP_REWRITE (Some r0) n fcd) with (do_rewrite OP_REWRITE (take 2 (status fcd)) (Some r0) n fcd).
  unfold do_rewrite. rewrite (bind_ok _ _ _ _ _ Hw). cbn [fst snd].
  rewrite (bind_ok _ _ _ _ _ (is_mode_run _ _)), Hg1, Hm. change (ch "A" =? ch "W") with false. cbv iota.
  rewrite (bind_ok _ _ _ _ _ (is_mode_run _ _)), Hg1, Hm. change (ch "A" =? ch "B") with false. cbn [negb andb].
  destruct (st_ok fcd1) eqn:Eok.
  - rewrite Hret by done. cbn [negb orb]. exists s1, fcd1. rewrite Eok. split; [|by split]. unfold replica_end.
    rewrite (bind_ok (get_g g_replica) _ s1 _ _ eq_refl), Hg1, Hrep. done.
  - rewrite orb_true_r. rewrite (bind_ok _ _ _ _ _ (save_record_run fcd1 s1 ltac:(lia))).
    erewrite (bind_ok (of_option (Some r0))) by done.
    rewrite (bind_ok _ _ _ _ _ (put_record_run r0 fcd1 s1 ltac:(lia) ltac:(lia))).
    destruct (put_rec_of r0 fcd1 ltac:(lia) ltac:(lia)) as (Hput & Hlput & _).
    rewrite (take_ge r0) in * by lia. set (fcd2 := set_rec (blit (record fcd1) 0 r0) fcd1) in *.
    destruct (ext_update OP_REWRITE fcd2 s1 eq_refl) as
      (s2 & fcd3 & Hx & (_ & _ & Hlr3 & _) & Hg2 & Hd2 & Hr2 & Hacc & _ & Hi2); [lia|].
    rewrite (bind_ok _ _ _ _ _ Hx).
    assert (n ≤ length (rec_of fcd1))%nat as Hlb by (unfold rec_of; rewrite length_take; lia).
    rewrite (bind_ok _ _ _ _ _ (put_record_run _ fcd3 s2 Hlb ltac:(lia))).
    eexists s2, _. split; [done|]. split; [congruence|].
    rewrite (st_ok_status fcd1) by done. rewrite Eok. split; [|congruence].
    rewrite Hi2, Hacc. unfold accepts. change (OP_REWRITE =? OP_WRITE) with false. cbv iota.
    rewrite Hput, Hi, bool_decide_true by done. unfold upd. done.
Qed.

Lemma dual_rewrite fcd (s : sys W) filename :
  call "A" fcd s filename → in_sync s → wf_store (isam_of (world s)) →
  ∃ s' fcd', pqfh OP_REWRITE fcd s = (s', inr fcd') ∧ in_sync s' ∧
    isam_of (world s') = if st_ok fcd' then upd OP_REWRITE (rec_of fcd) (isam_of (world s)) else isam_of (world s).
Proof.
  intros Hc Hsync Hwf. pose proof Hc as [_ _ _ _ Hisam _ Hfatal Hlock Hrep _ Hrec _].
  destruct (chosen_flags "A" s) as (Hm & Hf & Hl & Hr).
  rewrite (pqfh_prologue "A" OP_REWRITE fcd s filename (or_introl eq_refl) Hc eq_refl). unfold stages.
  rewrite (bind_ok _ _ _ _ _ (isam_stage_skip "A" _ _ _ _ (or_introl eq_refl) Hm Hisam)). cbv beta iota.
  destruct (mode_a_read OP_REWRITE fcd s filename (or_introl eq_refl) Hc Hwf) as
    (s1 & fcd1 & Hg1 & Hi1 & Hd1 & Hl1 & Hcase).
  destruct (isam_of (world s) !! key (rec_of fcd)) as [r0|] eqn:E.
  2:{ destruct Hcase as [Hma Hno]. rewrite (bind_ok _ _ _ _ _ Hma). exists s1, fcd1. rewrite Hno.
      split; [done|]. unfold in_sync. by rewrite Hi1, Hd1. }
  destruct Hcase as [Hr1 Hma]. destruct (Hwf _ _ E) as [Hk0 Hl0].
  destruct (ext_update OP_REWRITE fcd1 s1 eq_refl Hl1) as
    (s2 & fcd2 & Hx & (_ & _ & Hlr2 & _) & Hg2 & Hd2 & Hr2 & Hacc & _ & His2).
  rewrite (bind_ok _ _ _ _ _ Hx) in Hma. rewrite (bind_ok _ _ _ _ _ Hma). cbv beta iota.
  unfold accepts in Hacc. change (OP_REWRITE =? OP_WRITE) with false in Hacc. cbv iota in Hacc.
  rewrite Hr1, Hi1, bool_decide_true in Hacc by by eexists. rewrite Hacc in *. cbn [negb].
  destruct (do_rewrite_a fcd2 (held s2) r0) as (s3 & fcd3 & Hop & Hg3 & Hres).
  { simpl. by rewrite Hg2, Hg1. } { simpl. by rewrite Hg2, Hg1, Hr. } { lia. }
  { simpl. rewrite His2, Hr1, Hk0, upd_insert, lookup_insert_eq by done. by eexists. } { done. }
  eexists _, fcd3. split; [eapply bracket_run; [by rewrite Hg2, Hg1, Hf|by rewrite Hg2, Hg1, Hl|exact Hop]|].
  unfold in_sync. cbn [world]. simpl in Hres. rewrite His2, Hd2, Hd1, Hi1, Hr2, Hr1 in Hres.
  destruct (st_ok fcd3); destruct Hres as [-> ->]; rewrite <-Hsync; [done|].
  rewrite upd_insert by done. rewrite Hk0, insert_insert_eq, insert_id by done. done.
Qed.

Lemma do_delete_a fcd (s : sys W) :
  g_mode (gl s) = ch "A" → g_replica (gl s) = false → (n ≤ length (record fcd))%nat →
  isam_of (world s) !! key (rec_of fcd) = None →
  (∀ r, db_of (world s) !! key (rec_of fcd) = Some r → key r = key (rec_of fcd)) →
  ∃ s2 fcd2 area, do_op OP_DELETE None n fcd s = (s2, inr fcd2) ∧ gl s2 = gl s ∧
    if st_ok fcd2
    then isam_of (world s2) = isam_of (world s) ∧ db_of (world s2) = upd OP_DELETE (rec_of fcd) (db_of (world s))
    else isam_of (world s2) = <[key (rec_of fcd) := area]> (isam_of (world s)) ∧ db_of (world s2) = db_of (world s) ∧
      (area = rec_of fcd ∨ db_of (world s) !! key (rec_of fcd) = Some area).
Proof.
  intros Hm Hrep Hlen Hno Hdk.
  destruct (db_delete fcd s Hlen) as (s1 & fcd1 & Hw & (Hi1 & Hrl1 & Hlr1 & Hst1) & Hg1 & Hi & Harea & Hdb).
  change (do_op OP_DELETE None n fcd) with (do_delete (take 2 (status fcd)) n fcd).
  unfold do_delete. rewrite (bind_ok _ _ _ _ _ Hw).
  rewrite (bind_ok _ _ _ _ _ (is_mode_run _ _)), Hg1, Hm. change (ch "A" =? ch "W") with false. cbv iota.
  rewrite (bind_ok _ _ _ _ _ (is_mode_run _ _)), Hg1, Hm. change (ch "A" =? ch "B") with false. cbn [negb andb].
  destruct (st_ok fcd1) eqn:Eok; cbn [negb].
  - exists s1, fcd1, []. rewrite Eok. split; [|by split]. unfold replica_end.
    rewrite (bind_ok (get_g g_replica) _ s1 _ _ eq_refl), Hg1, Hrep. done.
  - specialize (Harea eq_refl).
    assert (key (rec_of fcd1) = key (rec_of fcd)) as Hk by (destruct Harea as [->|?]; auto).
    rewrite (bind_ok _ _ _ _ _ (save_record_run fcd1 s1 ltac:(lia))).
    destruct (ext_update OP_WRITE fcd1 s1 eq_refl) as
      (s2 & fcd2 & Hx & (_ & _ & Hlr2 & _) & Hg2 & Hd2 & Hr2 & Hacc & _ & Hi2); [lia|].
    rewrite (bind_ok _ _ _ _ _ Hx).
    assert (n ≤ length (rec_of fcd1))%nat as Hlb by (unfold rec_of; rewrite length_take; lia).
    rewrite (bind_ok _ _ _ _ _ (put_record_run _ fcd2 s2 Hlb ltac:(lia))).
    eexists s2, _, (rec_of fcd1). split; [done|]. split; [congruence|].
    rewrite (st_ok_status fcd1) by done. rewrite Eok. split; [|by split; [congruence|]].
    rewrite Hi2, Hacc. unfold accepts. change (OP_WRITE =? OP_WRITE) with true. cbv iota.
    rewrite Hi, Hk, bool_decide_true by done. rewrite upd_insert by done. by rewrite Hk.
Qed.

Lemma dual_delete fcd (s : sys W) filename :
  call "A" fcd s filename → in_sync s → wf_store (isam_of (world s)) →
  ∃ s' fcd', pqfh OP_DELETE fcd s = (s', inr fcd') ∧
    if st_ok fcd' then in_sync s' ∧ isam_of (world s') = upd OP_DELETE (rec_of fcd) (isam_of (world s))
    else db_of (world s') = db_of (world s) ∧
      (isam_of (world s') = isam_of (world s) ∨
       isam_of (world s') = <[key (rec_of fcd) := rec_of fcd]> (isam_of (world s))).
Proof.
  intros Hc Hsync Hwf. pose proof Hc as [_ _ _ _ Hisam _ Hfatal Hlock Hrep _ Hrec _].
  destruct (chosen_flags "A" s) as (Hm & Hf & Hl & Hr).
  rewrite (pqfh_prologue "A" OP_DELETE fcd s filename (or_introl eq_refl) Hc eq_refl). unfold stages.
  rewrite (bind_ok _ _ _ _ _ (isam_stage_skip "A" _ _ _ _ (or_introl eq_refl) Hm Hisam)). cbv beta iota.
  destruct (mode_a_read OP_DELETE fcd s filename (or_intror eq_refl) Hc Hwf) as
    (s1 & fcd1 & Hg1 & Hi1 & Hd1 & Hl1 & Hcase).
  destruct (isam_of (world s) !! key (rec_of fcd)) as [r0|] eqn:E.
  2:{ destruct Hcase as [Hma Hno]. rewrite (bind_ok _ _ _ _ _ Hma). exists s1, fcd1. rewrite Hno. auto. }
  destruct Hcase as [Hr1 Hma]. destruct (Hwf _ _ E) as [Hk0 Hl0].
  destruct (ext_update OP_DELETE fcd1 s1 eq_refl Hl1) as
    (s2 & fcd2 & Hx & (_ & _ & Hlr2 & _) & Hg2 & Hd2 & Hr2 & Hacc & _ & His2).
  rewrite (bind_ok _ _ _ _ _ Hx) in Hma. rewrite (bind_ok _ _ _ _ _ Hma). cbv beta iota.
  unfold accepts in Hacc. change (OP_DELETE =? OP_WRITE) with false in Hacc. cbv iota in Hacc.
  rewrite Hr1, Hi1, bool_decide_true in Hacc by by eexists. rewrite Hacc in *. cbn [negb].
  unfold upd at 1 in His2. rewrite Z.eqb_refl, Hr1, Hi1 in His2.
  destruct (do_delete_a fcd2 (held s2)) as (s3 & fcd3 & area & Hop & Hg3 & Hres).
  { simpl. by rewrite Hg2, Hg1. } { simpl. by rewrite Hg2, Hg1, Hr. } { lia. }
  { simpl. rewrite His2, Hr2, Hr1. apply lookup_delete_eq. }
  { simpl. rewrite Hd2, Hd1, Hr2, Hr1, <-Hsync, E. congruence. }
  eexists _, fcd3. split.
  { eapply bracket_run; [by rewrite Hg2, Hg1, Hf|by rewrite Hg2, Hg1, Hl|exact Hop]. }
  cbn [world]. simpl in Hres. rewrite His2, Hd2, Hd1, Hr2, Hr1, <-Hsync in Hres.
  unfold in_sync. cbn [world]. destruct (st_ok fcd3).
  - destruct Hres as [-> ->]. unfold upd. by rewrite Z.eqb_refl.
  - destruct Hres as (-> & -> & Harea). split; [done|]. rewrite insert_delete_eq.
    destruct Harea as [->|Harea]; [by right|left]. rewrite E in Harea. injection Harea as <-. by apply insert_id.
Qed.

(** Mode [W]: the ISAM file first; the database follows when it accepts. *)
Lemma isam_stage_w op fcd filename (s : sys W) :
  g_mode (gl s) = ch "W" → isam fcd ≠ ch "S" → memeq filename (bs "pqfh") 4 = false →
  is_update op = true → (n ≤ length (record fcd))%nat →
  ∃ s1 fcd1, isam_stage op 0 filename fcd s = (s1, inr (fcd1, negb (accepts op (rec_of fcd) (isam_of (world s))))) ∧
    same_call fcd fcd1 ∧ gl s1 = gl s ∧ rec_of fcd1 = rec_of fcd ∧ db_of (world s1) = db_of (world s) ∧
    st_ok fcd1 = accepts op (rec_of fcd) (isam_of (world s)) ∧
    isam_of (world s1) = if accepts op (rec_of fcd) (isam_of (world s)) then upd op (rec_of fcd) (isam_of (world s))
                         else isam_of (world s).
Proof.
  intros Hg Hi Hpq Hop Hrec.
  destruct (ext_update op fcd s Hop Hrec) as (s1 & fcd1 & Hx & Hsame & Hg1 & Hd1 & Hr1 & Hacc & Hst & Hi1).
  exists s1, fcd1. rewrite <-Hacc. split; [|by split_and!; try apply Hsame].
  unfold isam_stage. rewrite (bind_ok _ _ _ _ _ (is_mode_run "I" s)), (bind_ok _ _ _ _ _ (is_mode_run "W" s)), Hg, Hpq.
  change (ch "W" =? ch "I") with false. change (ch "W" =? ch "W") with true. cbn [orb andb negb].
  rewrite (bind_ok _ _ _ _ _ Hx).
  assert ((op =? OP_UNLOCK) = false) as -> by (by destruct (is_update_cases op Hop) as [->|[->| ->]]).
  erewrite (bind_ok (mret ())) by done. rewrite (bind_ok _ _ _ _ _ (is_mode_run _ _)), Hg1, Hg.
  change (ch "W" =? ch "W") with true. cbn [negb]. rewrite Hst.
  destruct Hsame as (Hi' & _). destruct (st_ok fcd1); cbn [negb]; [|done].
  rewrite Hi', (proj2 (Z.eqb_neq _ _) Hi). done.
Qed.

Lemma do_op_w op fcd (s : sys W) :
  g_mode (gl s) = ch "W" → is_update op = true → (n ≤ length (record fcd))%nat →
  ∃ s2 fcd2, do_op op None n fcd s = (s2, inr (set_status (take 2 (status fcd)) fcd2)) ∧ gl s2 = gl s ∧
    isam_of (world s2) = isam_of (world s) ∧
    (db_of (world s2) = db_of (world s) ∨ db_of (world s2) = upd op (rec_of fcd) (db_of (world s))).
Proof.
  intros Hm Hop Hrec. destruct (is_update_cases op Hop) as [->|[->| ->]].
  - destruct (db_write fcd s Hrec) as (s1 & fcd1 & Hw & _ & Hg1 & Hi & _ & Hdb).
    change (do_op OP_WRITE None n fcd) with (do_write (take 2 (status fcd)) fcd). unfold do_write.
    rewrite (bind_ok _ _ _ _ _ Hw). rewrite (bind_ok _ _ _ _ _ (is_mode_run _ _)), Hg1, Hm.
    exists s1, fcd1. split_and!; try done. rewrite Hdb. destruct (st_ok fcd1); auto.
  - destruct (db_rewrite fcd s Hrec) as (s1 & fcd1 & ret & Hw & _ & Hg1 & Hi & _ & Hdb).
    change (do_op OP_REWRITE None n fcd) with (do_rewrite OP_REWRITE (take 2 (status fcd)) None n fcd).
    unfold do_rewrite. rewrite (bind_ok _ _ _ _ _ Hw). rewrite (bind_ok _ _ _ _ _ (is_mode_run _ _)), Hg1, Hm.
    exists s1, fcd1. split_and!; try done. rewrite Hdb. destruct (st_ok fcd1); auto.
  - destruct (db_delete fcd s Hrec) as (s1 & fcd1 & Hw & _ & Hg1 & Hi & _ & Hdb).
    change (do_op OP_DELETE None n fcd) with (do_delete (take 2 (status fcd)) n fcd).
    unfold do_delete. rewrite (bind_ok _ _ _ _ _ Hw). rewrite (bind_ok _ _ _ _ _ (is_mode_run _ _)), Hg1, Hm.
    exists s1, fcd1. split_and!; try done. rewrite Hdb. destruct (st_ok fcd1); auto.
Qed.

Lemma mode_w_decides op fcd (s : sys W) filename :
  call "W" fcd s filename → is_update op = true →
  ∃ s' fcd', pqfh op fcd s = (s', inr fcd') ∧
    st_ok fcd' = accepts op (rec_of fcd) (isam_of (world s)) ∧
    if st_ok fcd'
    then isam_of (world s') = upd op (rec_of fcd) (isam_of (world s)) ∧
         (db_of (world s') = db_of (world s) ∨ db_of (world s') = upd op (rec_of fcd) (db_of (world s)))
    else isam_of (world s') = isam_of (world s) ∧ db_of (world s') = db_of (world s).
Proof.
  intros Hc Hop. pose proof Hc as [_ _ [_ Hpq] _ Hisam _ Hfatal Hlock _ _ Hrec _].
  destruct (chosen_flags "W" s) as (Hm & Hf & Hl & Hr).
  rewrite (pqfh_prologue "W" op fcd s filename ltac:(tauto) Hc (update_plain _ Hop)). unfold stages.
  destruct (isam_stage_w op fcd filename (chosen "W" s) Hm Hisam Hpq Hop Hrec) as
    (s1 & fcd1 & Hst & (Hi1 & _ & Hlr1 & Hls) & Hg1 & Hr1 & Hd1 & Hok & His1).
  rewrite (bind_ok _ _ _ _ _ Hst). cbv beta iota. change (world (chosen "W" s)) with (world s) in *.
  destruct (accepts op (rec_of fcd) (isam_of (world s))) eqn:Eacc; cbn [negb].
  2:{ exists s1, fcd1. split; [done|]. split; [done|]. by rewrite Hok. }
  assert (mode_a_stage op n filename fcd1 s1 = (s1, inr (fcd1, None, false))) as Hma.
  { unfold mode_a_stage. rewrite (bind_ok _ _ _ _ _ (is_mode_run _ _)), Hg1, Hm. done. }
  rewrite (bind_ok _ _ _ _ _ Hma). cbv beta iota.
  destruct (do_op_w op fcd1 (held s1)) as (s2 & fcd2 & Hrun & Hg2 & Hi2 & Hd2);
    [by rewrite <-Hm, <-Hg1|done|lia|].
  assert (st_ok (set_status (take 2 (status fcd1)) fcd2) = true) as Hok2.
  { unfold st_ok in *. simpl. by rewrite take_ge by lia. }
  eexists _, _. split.
  { eapply bracket_run; [by rewrite Hg1, Hf|by rewrite Hg1, Hl|exact Hrun]. }
  rewrite Hok2. split; [done|]. cbn [world]. simpl in Hi2, Hd2. rewrite Hi2, His1. split; [done|].
  by rewrite Hr1, Hd1 in Hd2.
Qed.

(** Mode [A], delete: done in both stores with status 00; when the database
    refuses it, the ISAM file gets a record back under the key, either the one it had
    or, if the database could not read its record, the contents of the program's area,
    which need not be the record that was there. *)
Theorem mode_a_delete fcd (s : sys W) filename :
  call "A" fcd s filename → in_sync s → wf_store (isam_of (world s)) →
  ∃ s' fcd', pqfh OP_DELETE fcd s = (s', inr fcd') ∧
    if st_ok fcd' then in_sync s' ∧ isam_of (world s') = upd OP_DELETE (rec_of fcd) (isam_of (world s))
    else db_of (world s') = db_of (world s) ∧
      (isam_of (world s') = isam_of (world s) ∨
       isam_of (world s') = <[key (rec_of fcd) := rec_of fcd]> (isam_of (world s))).
Proof. apply dual_delete. Qed.

(** Mode [W]: the ISAM file decides the status and its contents whatever the
    database answers; an update it refuses does not reach the database. *)
Theorem mode_w_isam_decides op fcd (s : sys W) filename :
  call "W" fcd s filename → is_update op = true →
  ∃ s' fcd', pqfh op fcd s = (s', inr fcd') ∧
    st_ok fcd' = accepts op (rec_of fcd) (isam_of (world s)) ∧
    if st_ok fcd'
    then isam_of (world s') = upd op (rec_of fcd) (isam_of (world s)) ∧
         (db_of (world s') = db_of (world s) ∨ db_of (world s') = upd op (rec_of fcd) (db_of (world s)))
    else isam_of (world s') = isam_of (world s) ∧ db_of (world s') = db_of (world s).
Proof. apply mode_w_decides. Qed.
End stores.

(** ** A concrete system: two maps of four-byte records, their key the first two bytes *)

Record toy := mk_toy { t_isam : gmap bytes bytes; t_db : gmap bytes bytes; t_refuse : bool }.

Definition toy_key (r : bytes) : bytes := take 2 r.

Definition toy_result (ok : bool) : bytes := if ok then ST_OK else ST_REC_NOT_FOUND.

Definition toy_ext (op : Z) (fcd : fcd_t) : M (sys toy) fcd_t := λ s,
  let w := world s in
  let r := take 4 (record fcd) in
  if is_update op then
    let ok := accepts toy_key op r (t_isam w) in
    (mk_sys (gl s) (mk_toy (if ok then upd toy_key op r (t_isam w) else t_isam w) (t_db w) (t_refuse w)),
     inr (set_status (toy_result ok) fcd))
  else match t_isam w !! toy_key r with
       | Some r' => (s, inr (set_status ST_OK (set_rec (blit (record fcd) 0 r') fcd)))
       | None => (s, inr (set_status ST_REC_NOT_FOUND fcd))
       end.

(** The database does what it is asked, or refuses everything. *)
Definition toy_db (op : Z) (fcd : fcd_t) : M (sys toy) fcd_t := λ s,
  let w := world s in
  if t_refuse w then (s, inr (set_status ST_REC_NOT_FOUND fcd))
  else (mk_sys (gl s) (mk_toy (t_isam w) (upd toy_key op (take 4 (record fcd)) (t_db w)) false),
        inr (set_status ST_OK fcd)).

#[export] Instance toy_handlers : Handlers toy := {|
  h_pqfh_file := λ _, Some (bs "A");
  EXTFH := toy_ext;
  h_json := λ _ _ fcd, mret fcd;
  h_memfh := λ _ _ fcd _, mret fcd;
  h_connect := mret tt;
  h_commit := mret tt;
  h_replica_commit := mret tt;
  h_open := λ fcd _, mret (fcd, false);
  h_close := λ fcd, mret (fcd, false);
  h_start := λ fcd _, mret fcd;
  h_next_prev := λ fcd _, mret fcd;
  h_read_random := λ fcd _, mret fcd;
  h_unlock := λ fcd, mret fcd;
  h_rewrite := λ fcd, fcd ← toy_db OP_REWRITE fcd; mret (fcd, true);
  h_write := λ fcd, fcd ← toy_db OP_WRITE fcd; mret (fcd, false);
  h_delete := toy_db OP_DELETE;
  h_delete_file := λ fcd, mret fcd;
|}.

Lemma toy_st_ok ok fcd : st_ok (set_status (toy_result ok) fcd) = ok.
Proof. by destruct ok. Qed.

Lemma same_call_status st fcd : length st = 2%nat → same_call fcd (set_status st fcd).
Proof. by intros. Qed.

#[export] Instance toy_isam : IsamFile t_isam t_db toy_key 4.
Proof.
  split.
  - intros op fcd s Hop Hlen. unfold EXTFH. simpl. unfold toy_ext. rewrite Hop.
    eexists _, _. split; [done|]. split; [apply same_call_status; by destruct (accepts _ _ _ _)|].
    rewrite toy_st_ok. split_and!; try done. by destruct (accepts _ _ _ _).
  - intros fcd s Hlen Hwf. unfold EXTFH. simpl. unfold toy_ext.
    change (is_update OP_READ_RANDOM) with false. cbv iota. unfold rec_of.
    destruct (t_isam (world s) !! toy_key (take 4 (record fcd))) as [r|] eqn:E.
    + destruct (Hwf _ _ E) as [_ Hl]. eexists _, _. split; [done|]. split.
      { split_and!; try done. apply blit_length. lia. }
      split_and!; try done. simpl. unfold blit. simpl. by rewrite <-Hl, take_app_length.
    + eexists _, _. split; [done|]. split; [by apply same_call_status|]. done.
Qed.

Lemma toy_db_run op fcd (s : sys toy) :
  ∃ s' fcd', toy_db op fcd s = (s', inr fcd') ∧ same_call fcd fcd' ∧ gl s' = gl s ∧
    t_isam (world s') = t_isam (world s) ∧ rec_of 4 fcd' = rec_of 4 fcd ∧
    t_db (world s') = if st_ok fcd' then upd toy_key op (rec_of 4 fcd) (t_db (world s)) else t_db (world s).
Proof.
  unfold toy_db. destruct (t_refuse (world s)); eexists _, _; (split; [done|]);
    (split; [by apply same_call_status|]); done.
Qed.

#[export] Instance toy_dbfile : DbFile t_isam t_db toy_key 4.
Proof.
  split; intros fcd s Hlen.
  - destruct (toy_db_run OP_WRITE fcd s) as (s' & fcd' & Hrun & Hsame & Hg & Hi & Hr & Hd).
    exists s', fcd'. unfold h_write. simpl. rewrite (bind_ok _ _ _ _ _ Hrun).
    split_and!; try done; try apply Hsame. by rewrite Hr.
  - destruct (toy_db_run OP_REWRITE fcd s) as (s' & fcd' & Hrun & Hsame & Hg & Hi & Hr & Hd).
    exists s', fcd', true. unfold h_rewrite. simpl. rewrite (bind_ok _ _ _ _ _ Hrun).
    split_and!; try done; apply Hsame.
  - destruct (toy_db_run OP_DELETE fcd s) as (s' & fcd' & Hrun & Hsame & Hg & Hi & Hr & Hd).
    exists s', fcd'. unfold h_delete. simpl. split; [done|]. split; [done|]. split; [done|]. split; [done|].
    split; [intros _; by left|done].
Qed.

Definition ex_call (md : string) (rec : bytes) : fcd_t :=
  mk_fcd (bs "00") 0 0 0 (putshort 7) 0 (replicate 8 0) (putshort 4) (putshort 0) rec (bs "totitem")
    [] (putint 0) (ch md) 0 (replicate 4 0) 0 0.

Definition ex_gl : globals := mk_gl (ch "A") 0 [] false true true false false false.

Definition ex_sys (m : gmap bytes bytes) (refuse : bool) : sys toy := mk_sys ex_gl (mk_toy m m refuse).

Lemma ex_call_ok md rec m b : (ch md =? 0) = false → length rec = 4%nat → call 4 md (ex_call md rec) (ex_sys m b) (bs "totitem").
Proof.
  intros Hm Hl. split; try done; [|simpl; by rewrite Hl]. unfold call_mode. change (mode (ex_call md rec)) with (ch md). by rewrite Hm.
Qed.

Lemma ex_wf k r : length r = 4%nat → toy_key r = k → wf_store toy_key 4 {[ k := r ]}.
Proof. by intros Hl <- k' r' [<- <-]%lookup_singleton_Some. Qed.

(** The database refuses the delete: the ISAM file gets the program's area. *)
Lemma mode_a_delete_witness :
  ∃ s' fcd', pqfh OP_DELETE (ex_call "A" (bs "k1..")) (ex_sys {[ bs "k1" := bs "k1aa" ]} true) = (s', inr fcd') ∧
    t_isam (world s') !! bs "k1" = Some (bs "k1..") ∧ t_db (world s') = {[ bs "k1" := bs "k1aa" ]}.
Proof.
  destruct (mode_a_delete t_isam t_db toy_key 4 (ex_call "A" (bs "k1.."))
    (ex_sys {[ bs "k1" := bs "k1aa" ]} true) (bs "totitem")) as (s' & fcd' & Hrun & Hres).
  - by apply ex_call_ok.
  - done.
  - by apply ex_wf.
  - exists s', fcd'. split; [exact Hrun|].
    assert ((s', inr fcd') = pqfh OP_DELETE (ex_call "A" (bs "k1..")) (ex_sys {[ bs "k1" := bs "k1aa" ]} true))
      as E by by rewrite Hrun. vm_compute in E. injection E as -> ->. split; [by vm_compute|]. apply Hres.
Defined.

Lemma mode_w_isam_decides_witness :
  ∃ s' fcd', pqfh OP_WRITE (ex_call "W" (bs "k2cc")) (ex_sys {[ bs "k1" := bs "k1aa" ]} true) = (s', inr fcd') ∧
    st_ok fcd' = true.
Proof.
  destruct (mode_w_isam_decides t_isam t_db toy_key 4 OP_WRITE (ex_call "W" (bs "k2cc"))
    (ex_sys {[ bs "k1" := bs "k1aa" ]} true) (bs "totitem")) as (s' & fcd' & Hrun & Hok & _).
  - by apply ex_call_ok.
  - done.
  - exists s', fcd'. split; [exact Hrun|]. rewrite Hok. by vm_compute.
Defined.
