(* ===== verification/Table.v ===== *)
(** The metadata of a table (src/pqfh.h) and the conversion of its columns between
    the COBOL record and the text the database exchanges (src/pq2cob.c, the
    parameters of src/op_write.c, src/validador.c). *)

From stdpp Require Import prelude gmap strings.
From S2P Require Import Prelude Fhtypes Fcd.
Local Open Scope Z_scope.

(** src/pqfh.h:74-82 column_t : [tp] is the character ['n'] for a number. *)
Record column_t := mk_col {
  col_name : bytes;
  col_tp : Z;
  col_len : nat;
  col_dec : nat;
  col_offset : nat;
  col_pk : bool;
  col_p : nat;
}.

(** src/pqfh.h:84-91 _key_t : [columns] holds pointers into the column list of the
    table, here the positions of the columns in it. *)
Record key_t := mk_key {
  k_id : nat;
  k_len : Z;
  k_ncomps : Z;
  k_columns : list nat;
}.

Definition is_num (c : column_t) : bool := col_tp c =? ch "n".

(** [memcpy(buf, record + off, len)] inside the record. *)
Definition rec_bytes (record : bytes) (off len : nat) : option bytes :=
  if (off + len <=? length record)%nat then Some (take len (drop off record)) else None.

(** ** From the database to the record *)

(** [memset(record + off, '0', n)]; a negative length runs out of memory. *)
Definition zeros (n : nat) : bytes := replicate n 48.

(** Set the sign bit of the last byte of a field. *)
Definition sign_last (f : bytes) : bytes :=
  match last f with
  | Some b => take (length f - 1) f ++ [Z.lor b 64]
  | None => f
  end.

(** src/pq2cob.c:23-49 pq2cob (one column): the bytes of the field for the text
    [PQgetvalue] returned; [None] when a length would be negative. *)
Definition field_of_text (c : column_t) (aux : bytes) : option bytes :=
  let neg := match aux with b :: _ => b =? ch "-" | [] => false end in
  let p := if neg then drop 1 aux else aux in
  let len := length p in
  if is_num c then
    f ← (if (col_dec c =? 0)%nat then
           if (len <=? col_len c)%nat then Some (zeros (col_len c - len) ++ p) else None
         else
           if (len <=? col_len c + 1)%nat && (col_dec c + 1 <=? len)%nat then
             Some (zeros (col_len c + 1 - len) ++ take (len - col_dec c - 1) p ++ drop (len - col_dec c) p)
           else None);
    Some (if neg then sign_last f else f)
  else
    if (length aux <=? col_len c)%nat then Some (aux ++ replicate (col_len c - length aux) 32) else None.

(** src/pq2cob.c:14-54 pq2cob : the fields one after the other over the record. *)
Fixpoint pq2cob_loop (cols : list column_t) (row : list bytes) (record : bytes) (offset : nat) : option bytes :=
  match cols with
  | [] => Some record
  | c :: cols' =>
      v ← head row;
      f ← field_of_text c (cstr v);
      if (offset + length f <=? length record)%nat then
        pq2cob_loop cols' (tail row) (blit record offset f) (offset + col_len c)
      else None
  end.

Definition pq2cob (cols : list column_t) (row : list bytes) (record : bytes) : option bytes :=
  pq2cob_loop cols row record 0.

(** ** From the record to the database *)

(** [b &= ~0x40] *)
Definition clear_sign (b : Z) : Z := Z.land b (Z.lnot 64).

(** [(fcd->record[col->offset + col->len - 1] & 0x40) == 0x40] *)
Definition is_negative (f : bytes) : bool :=
  match last f with Some b => Z.land b 64 =? 64 | None => false end.

(** src/op_write.c:143-165 op_write (the text of one parameter): the bytes of the
    field, a decimal point before the decimals, a minus sign over the first byte. *)
Definition text_of_field (c : column_t) (f : bytes) : bytes :=
  if is_num c then
    let b := if (0 <? col_dec c)%nat
             then take (col_len c - col_dec c) f ++ [ch "."] ++ drop (col_len c - col_dec c) f
             else f in
    if is_negative f then
      let b := <[0%nat := if (1 <? col_len c)%nat then ch "-" else ch "0"]> b in
      alter clear_sign (if (0 <? col_dec c)%nat then col_len c else col_len c - 1)%nat b
    else b
  else f.

(** ** Validation of numbers *)

(** src/validador.c:45-64 valida_numero (the scan): the characters up to the first one
    that is refused, if any. *)
Fixpoint numero_ok (real sinal decimal : bool) (s : bytes) : bool :=
  match s with
  | [] => true
  | c :: s' =>
      if isdigit c then numero_ok real sinal decimal s'
      else if negb sinal && ((c =? ch "-") || (c =? ch "+")) then numero_ok real true decimal s'
      else if negb decimal && (c =? ch ".") && real then numero_ok real sinal true s'
      else false
  end.

(** [strchr("0123456789-.", *p) == NULL] *)
Definition numero_char (c : Z) : bool := bool_decide (c ∈ bs "0123456789-.").

(** Whether a column of that name is part of some key. *)
Definition em_chave (cols : list column_t) (keys : list key_t) (coluna : bytes) : bool :=
  existsb (λ k, existsb (λ i, match cols !! i with
                              | Some c => bool_decide (col_name c = coluna)
                              | None => false
                              end) (k_columns k)) keys.

(** src/validador.c:43-94 valida_numero : the new contents, whether it was accepted,
    the error text to append to [erros], and whether it is fatal. *)
Record numero_result := mk_numero {
  nr_text : bytes;
  nr_ok : bool;
  nr_erro : option bytes;
  nr_fatal : bool;
}.

Definition valida_numero (cols : list column_t) (keys : list key_t) (coluna conteudo : bytes) (real : bool)
  : numero_result :=
  let s := match cstr conteudo with [] => bs "0" | s => s end in
  if numero_ok real false false s then mk_numero s true None false
  else
    let erro := coluna ++ bs " [" ++ s ++ bs "]" in
    if em_chave cols keys coluna then mk_numero s false (Some erro) true
    else mk_numero ((λ c, if numero_char c then c else ch "0") <$> s) false (Some erro) false.

(** ** Round trip of a record through the database

    The database gives back the value it received, in its own spelling: leading
    zeros of a number and trailing blanks of a text may differ. *)

Definition dec_chars (c : column_t) : nat := if (col_dec c =? 0)%nat then 0 else S (col_dec c).

(** The string [t'] spells the value of [t] in column [c] and fits in it. *)
Definition same_value (c : column_t) (t t' : bytes) : Prop :=
  (0 ∉ t') ∧ if is_num c then
    ∃ sg z z' ip dp, (sg = [] ∨ sg = bs "-") ∧ (∀ x, x ∈ ip → isdigit x = true) ∧
      t = sg ++ zeros z ++ ip ++ dp ∧ t' = sg ++ zeros z' ++ ip ++ dp ∧
      length dp = dec_chars c ∧ (z' + length ip + col_dec c ≤ col_len c)%nat
  else
    ∃ x n n', t = x ++ replicate n 32 ∧ t' = x ++ replicate n' 32 ∧ (length t' ≤ col_len c)%nat.

(** A field of a program: decimal digits with the sign on the last one; a text without NUL. *)
Definition digits_field (c : column_t) (f : bytes) : Prop :=
  length f = col_len c ∧
  if is_num c then
    (col_dec c < col_len c)%nat ∧
    ∃ ds b, (∀ x, x ∈ ds → isdigit x = true) ∧ isdigit b = true ∧ (f = ds ++ [b] ∨ f = ds ++ [Z.lor b 64])
  else 0 ∉ f.

(** The fields that survive: a negative number has a zero where the program puts the minus sign,
    and is not zero. *)
Definition wf_field (c : column_t) (f : bytes) : Prop :=
  length f = col_len c ∧
  if is_num c then
    (col_dec c < col_len c)%nat ∧
    ∃ ds b, (∀ x, x ∈ ds → isdigit x = true) ∧ isdigit b = true ∧
      (f = ds ++ [b] ∨ f = ds ++ [Z.lor b 64] ∧ head ds = Some 48 ∧ ∃ x, x ∈ ds ++ [b] ∧ x ≠ 48)
  else 0 ∉ f.

Lemma digit_cases b : isdigit b = true →
  b = 48 ∨ b = 49 ∨ b = 50 ∨ b = 51 ∨ b = 52 ∨ b = 53 ∨ b = 54 ∨ b = 55 ∨ b = 56 ∨ b = 57.
Proof. intros H%isdigit_range. lia. Qed.

Lemma digit_sign b : isdigit b = true →
  Z.land b 64 = 0 ∧ Z.land (Z.lor b 64) 64 = 64 ∧ clear_sign (Z.lor b 64) = b ∧ Z.lor b 64 ≠ 0 ∧ b ≠ ch "-" ∧ b ≠ 0.
Proof. intros H. destruct (digit_cases b H) as [->|[->|[->|[->|[->|[->|[->|[->|[->| ->]]]]]]]]]; done. Qed.

Lemma last_snoc_opt {A} (l : list A) x : last (l ++ [x]) = Some x.
Proof. apply last_snoc. Qed.

(** The digits of a field with its decimal point, without the sign. *)
Definition pointed (c : column_t) (ds : bytes) : bytes :=
  if (0 <? col_dec c)%nat
  then take (col_len c - col_dec c) ds ++ [ch "."] ++ drop (col_len c - col_dec c) ds else ds.

Lemma text_of_positive c ds b :
  is_num c = true → isdigit b = true → text_of_field c (ds ++ [b]) = pointed c (ds ++ [b]).
Proof.
  intros Hn Hb. unfold text_of_field, is_negative. rewrite Hn, last_snoc.
  destruct (digit_sign b Hb) as (-> & _). done.
Qed.

(** The field of a number spelled with any number of leading zeros. *)
Lemma field_of_number c sg z' ip dp :
  is_num c = true → length dp = dec_chars c → (z' + length ip + col_dec c ≤ col_len c)%nat →
  (sg = [] ∨ sg = bs "-") → (sg = [] → head (zeros z' ++ ip ++ dp) ≠ Some (ch "-")) →
  field_of_text c (sg ++ zeros z' ++ ip ++ dp) =
    Some ((if bool_decide (sg = []) then id else sign_last)
            (zeros (col_len c - length ip - col_dec c) ++ ip ++ drop 1 dp)).
Proof.
  intros Hn Hdp Hle Hsg Hhd. set (q := zeros z' ++ ip ++ dp) in *. unfold field_of_text. cbv zeta. rewrite Hn.
  assert (length q = z' + length ip + dec_chars c)%nat as Hq.
  { unfold q, zeros. rewrite !length_app, length_replicate. lia. }
  assert ((match sg ++ q with b :: _ => b =? ch "-" | [] => false end) = negb (bool_decide (sg = []))) as ->.
  { destruct Hsg as [->| ->]; [|done]. specialize (Hhd eq_refl). destruct q as [|x q']; [done|]. simpl in *.
    destruct (Z.eqb_spec x (ch "-")) as [->|]; [by destruct Hhd|done]. }
  assert ((if negb (bool_decide (sg = [])) then drop 1 (sg ++ q) else sg ++ q) = q) as -> by by destruct Hsg as [->| ->].
  unfold dec_chars in *. destruct (Nat.eqb_spec (col_dec c) 0) as [H0|H0].
  - rewrite (proj2 (Nat.leb_le (length q) (col_len c))) by lia. simpl.
    apply length_zero_iff_nil in Hdp. subst dp. rewrite app_nil_r in *.
    assert (zeros (col_len c - length q) ++ q = zeros (col_len c - length ip - col_dec c) ++ ip) as ->.
    { rewrite Hq. unfold q, zeros. rewrite app_assoc, <-replicate_add.
      f_equal; [f_equal; lia|by rewrite ?app_nil_r]. }
    destruct Hsg as [->| ->]; simpl; by rewrite ?app_nil_r.
  - rewrite (proj2 (Nat.leb_le (length q) (col_len c + 1))), (proj2 (Nat.leb_le (col_dec c + 1) (length q))) by lia.
    simpl andb. cbv iota. cbn [mbind option_bind].
    assert (take (length q - col_dec c - 1) q = zeros z' ++ ip) as ->.
    { unfold q at 2. rewrite app_assoc, take_app_length'; [done|]. rewrite Hq, length_app. unfold zeros.
      rewrite length_replicate. lia. }
    assert (drop (length q - col_dec c) q = drop 1 dp) as ->.
    { unfold q at 2. rewrite app_assoc, drop_app_ge; rewrite ?length_app; unfold zeros; rewrite ?length_replicate; [|lia].
      f_equal. lia. }
    assert (zeros (col_len c + 1 - length q) ++ (zeros z' ++ ip) ++ drop 1 dp =
            zeros (col_len c - length ip - col_dec c) ++ ip ++ drop 1 dp) as ->.
    { unfold zeros. rewrite <-app_assoc, app_assoc, <-replicate_add. f_equal. f_equal. lia. }
    by destruct Hsg as [->| ->].
Qed.

Lemma sign_last_snoc ds b : sign_last (ds ++ [b]) = ds ++ [Z.lor b 64].
Proof.
  unfold sign_last. rewrite last_snoc, length_app. simpl.
  replace (length ds + 1 - 1)%nat with (length ds) by lia. by rewrite take_app_length.
Qed.

Lemma clear_minus : clear_sign (ch "-") = ch "-".
Proof. done. Qed.

(** The text of a negative field [0 ds' b]: the zero becomes the minus sign. *)
Lemma text_of_negative c ds b :
  is_num c = true → isdigit b = true → length (48 :: ds ++ [b]) = col_len c → (col_dec c < col_len c)%nat →
  text_of_field c (48 :: ds ++ [Z.lor b 64]) = bs "-" ++ drop 1 (pointed c (48 :: ds ++ [b])).
Proof.
  intros Hn Hb Hlen Hdec. destruct (digit_sign b Hb) as (_ & H64 & Hclr & _).
  unfold text_of_field, is_negative. rewrite Hn.
  replace (last (48 :: ds ++ [Z.lor b 64])) with (Some (Z.lor b 64)) by by rewrite app_comm_cons, last_snoc.
  rewrite H64. cbn [Z.eqb Pos.eqb]. cbv zeta. simpl in Hlen. rewrite length_app in Hlen. simpl in Hlen.
  rewrite (proj2 (Nat.ltb_lt 1 (col_len c))) by lia. unfold pointed.
  destruct (Nat.ltb_spec 0 (col_dec c)) as [Hd|Hd].
  - remember (col_len c - col_dec c)%nat as k eqn:Ek. destruct k as [|k]; [lia|]. simpl.
    assert (∀ y, drop k (ds ++ [y]) = drop k ds ++ [y]) as Hdrop.
    { intros y. rewrite drop_app_le by lia. done. }
    assert (∀ y, take k (ds ++ [y]) = take k ds) as Htake by (intros y; by rewrite take_app_le by lia).
    rewrite !Hdrop, !Htake. destruct (col_len c) as [|n] eqn:En; [lia|]. simpl.
    rewrite !app_comm_cons, !app_assoc.
    set (u := take k ds ++ (46 :: drop k ds)).
    assert (length u = n) as Hu.
    { unfold u. rewrite length_app, length_take. simpl. rewrite length_drop. lia. }
    f_equal. rewrite <-Hu. change (alter clear_sign (length u) (u ++ [Z.lor b 64]) = u ++ [b]).
    rewrite alter_app_r_alt by lia. rewrite Nat.sub_diag. simpl. by rewrite Hclr.
  - simpl. destruct (col_len c - 1)%nat as [|n] eqn:En; [lia|]. simpl. f_equal.
    replace n with (length ds) by lia.
    change (alter clear_sign (length ds) (ds ++ [Z.lor b 64]) = ds ++ [b]). rewrite alter_app_r_alt by lia.
    rewrite Nat.sub_diag. simpl. by rewrite Hclr.
Qed.

(** The two halves of a pointed number. *)
Definition int_part (c : column_t) (g : bytes) : bytes := take (col_len c - col_dec c) g.
Definition dec_part (c : column_t) (g : bytes) : bytes :=
  if (col_dec c =? 0)%nat then [] else ch "." :: drop (col_len c - col_dec c) g.

Lemma pointed_parts c g : length g = col_len c →
  pointed c g = int_part c g ++ dec_part c g ∧ length (dec_part c g) = dec_chars c ∨ (col_len c < col_dec c)%nat.
Proof.
  intros Hl. unfold pointed, int_part, dec_part, dec_chars.
  destruct (Nat.ltb_spec 0 (col_dec c)), (Nat.eqb_spec (col_dec c) 0); try lia.
  - destruct (decide (col_len c < col_dec c)%nat); [by right|left]. split; [done|].
    simpl. rewrite length_drop. lia.
  - left. rewrite take_ge, app_nil_r by lia. done.
Qed.

Lemma parts_join c g : length g = col_len c → int_part c g ++ drop 1 (dec_part c g) = g.
Proof.
  intros Hl. unfold int_part, dec_part. destruct (Nat.eqb_spec (col_dec c) 0) as [->|].
  - rewrite app_nil_r, take_ge; [done|lia].
  - cbn [drop]. rewrite drop_0. apply take_drop.
Qed.

Lemma int_part_length c g : length g = col_len c → length (int_part c g) = (col_len c - col_dec c)%nat.
Proof. intros H. unfold int_part. rewrite length_take. lia. Qed.

Lemma zeros_length n : length (zeros n) = n.
Proof. apply length_replicate. Qed.

(** A field of digits comes back from any spelling of its text. *)
Lemma positive_back c g t' :
  is_num c = true → length g = col_len c → (col_dec c < col_len c)%nat → (∀ x, x ∈ g → isdigit x = true) →
  same_value c (pointed c g) t' → field_of_text c t' = Some g.
Proof.
  intros Hn Hl Hdec Hg Hsame. unfold same_value in Hsame. rewrite Hn in Hsame.
  destruct Hsame as (_ & sg & z & z' & ip & dp & Hsg & Hip & Ht & -> & Hdp & Hle).
  destruct (pointed_parts c g Hl) as [[Hp Hdl]|]; [|lia]. rewrite Hp in Ht.
  rewrite !app_assoc in Ht. apply app_inj_2 in Ht as [Hint <-]; [|congruence].
  assert (sg = []) as ->.
  { destruct Hsg as [| ->]; [done|]. assert (ch "-" ∈ g) as H%Hg; [|done].
    rewrite <-(parts_join c g Hl). apply elem_of_app. left. rewrite Hint. by left. }
  simpl in Hint. rewrite field_of_number; try done.
  - rewrite bool_decide_true by done. unfold id. f_equal.
    pose proof (int_part_length c g Hl) as Hil. rewrite Hint, length_app, zeros_length in Hil.
    etrans; [|by apply (parts_join c)]. rewrite Hint, app_assoc.
    do 2 f_equal. unfold zeros. f_equal. lia.
  - intros _ Hh. destruct z' as [|z']; [|done]. simpl in Hh. destruct ip as [|x ip]; simpl in Hh.
    + unfold dec_part in Hh. by destruct (col_dec c =? 0)%nat.
    + injection Hh as ->. by pose proof (Hip (ch "-") ltac:(by left)).
Qed.

Lemma negative_back c ds b t' :
  is_num c = true → length (48 :: ds ++ [b]) = col_len c → (col_dec c < col_len c)%nat →
  isdigit b = true → same_value c (text_of_field c (48 :: ds ++ [Z.lor b 64])) t' →
  field_of_text c t' = Some (48 :: ds ++ [Z.lor b 64]).
Proof.
  intros Hn Hl Hdec Hb Hsame. rewrite text_of_negative in Hsame by done.
  set (g := 48 :: ds ++ [b]) in *. unfold same_value in Hsame. rewrite Hn in Hsame.
  destruct Hsame as (_ & sg & z & z' & ip & dp & Hsg & Hip & Ht & -> & Hdp & Hle).
  destruct (pointed_parts c g Hl) as [[Hp Hdl]|]; [|lia]. rewrite Hp in Ht.
  pose proof (int_part_length c g Hl) as Hil.
  assert (int_part c g = 48 :: drop 1 (int_part c g)) as Hint.
  { unfold int_part. destruct (col_len c - col_dec c)%nat as [|k] eqn:E; [lia|]. done. }
  rewrite Hint in Ht, Hil. simpl in Hil. cbn [drop app] in Ht. rewrite ?drop_0 in Ht. change (bs "-") with [ch "-"] in *. cbn [app] in Ht.
  rewrite app_comm_cons, !app_assoc in Ht. apply app_inj_2 in Ht as [Heq <-]; [|congruence].
  assert (sg = [ch "-"]) as ->.
  { destruct Hsg as [->|]; [|done]. destruct z; [|done]. destruct ip as [|x ip]; [done|].
    injection Heq as <- _. by pose proof (Hip (ch "-") ltac:(by left)). }
  injection Heq as Heq. rewrite field_of_number by (done || by right).
  f_equal. change (sign_last (zeros (col_len c - length ip - col_dec c) ++ ip ++ drop 1 (dec_part c g)) = 48 :: ds ++ [Z.lor b 64]).
  assert (zeros (col_len c - length ip - col_dec c) ++ ip ++ drop 1 (dec_part c g) = g) as ->.
  { etrans; [|by apply (parts_join c)]. rewrite app_assoc, Hint, Heq.
    rewrite Heq, length_app, zeros_length in Hil.
    change (48 :: zeros z ++ ip) with (zeros (S z) ++ ip). do 2 f_equal. unfold zeros. f_equal. lia. }
  apply (sign_last_snoc (48 :: ds)).
Qed.

Lemma text_back c f t' :
  is_num c = false → length f = col_len c → same_value c f t' → field_of_text c t' = Some f.
Proof.
  intros Hn Hl Hsame. unfold same_value in Hsame. rewrite Hn in Hsame.
  destruct Hsame as (_ & x & n & n' & -> & -> & Hle). unfold field_of_text. cbv zeta. rewrite Hn.
  rewrite (proj2 (Nat.leb_le _ _) Hle). f_equal. rewrite !length_app, !length_replicate in *.
  rewrite <-app_assoc, <-replicate_add. do 2 f_equal. lia.
Qed.

Lemma field_back c f t' :
  wf_field c f → same_value c (text_of_field c f) t' → field_of_text c (cstr t') = Some f.
Proof.
  intros [Hl Hwf] Hsame. rewrite cstr_id by apply Hsame. destruct (is_num c) eqn:Hn.
  - destruct Hwf as (Hdec & ds & b & Hds & Hb & [->|(-> & Hhd & _)]).
    + rewrite text_of_positive in Hsame by done. apply positive_back; try done.
      intros x. rewrite elem_of_app, list_elem_of_singleton. intros [?| ->]; auto.
    + destruct ds as [|d ds]; [done|]. injection Hhd as ->. rewrite <-app_comm_cons in *.
      apply negative_back; try done. simpl in *. by rewrite length_app in *.
  - apply text_back; try done. unfold text_of_field in Hsame. by rewrite Hn in Hsame.
Qed.

(** The columns fill the record from [o] on without gaps. *)
Fixpoint layout_ok (cols : list column_t) (o : nat) : Prop :=
  match cols with
  | [] => True
  | c :: cols' => col_offset c = o ∧ layout_ok cols' (o + col_len c)
  end.

Definition cols_len (cols : list column_t) : nat := sum_list_with col_len cols.

Definition field_at (record : bytes) (c : column_t) : bytes :=
  take (col_len c) (drop (col_offset c) record).

(** The texts of a record, as a write sends them. *)
Definition row_of (cols : list column_t) (record : bytes) : list bytes :=
  (λ c, text_of_field c (field_at record c)) <$> cols.

(** The fields [F c] of the columns, for a row of texts that give them. *)
Lemma pq2cob_loop_fields (F : column_t → bytes) cols : ∀ o row r,
  layout_ok cols o → (o + cols_len cols ≤ length r)%nat →
  Forall2 (λ c t', field_of_text c (cstr t') = Some (F c) ∧ length (F c) = col_len c) cols row →
  pq2cob_loop cols row r o = Some (take o r ++ mjoin (F <$> cols) ++ drop (o + cols_len cols) r).
Proof.
  unfold cols_len. induction cols as [|c cols IH]; intros o row r Hlay Hr Hrow.
  - simpl in *. by rewrite Nat.add_0_r, take_drop.
  - destruct Hlay as [Ho Hlay]. simpl in *. inversion Hrow as [|? t' ? row' [Hf Hfl] Hrow']; subst. simpl.
    rewrite Hf. simpl. rewrite Hfl, (proj2 (Nat.leb_le _ _)) by lia.
    assert (length (blit r (col_offset c) (F c)) = length r) as Hr'.
    { unfold blit. rewrite !length_app, length_take, length_drop, Hfl. lia. }
    change (mjoin (F <$> c :: cols)) with (F c ++ mjoin (F <$> cols)).
    rewrite (IH _ _ (blit r (col_offset c) (F c)) Hlay) by (done || lia). unfold blit. rewrite !app_assoc. f_equal. f_equal.
    + f_equal. rewrite take_app_length'; [done|]. rewrite length_app, length_take, Hfl. lia.
    + rewrite drop_app_ge; rewrite length_app, length_take, Hfl; [|lia]. rewrite drop_drop. f_equal. lia.
Qed.

Lemma fields_join cols record : ∀ o, layout_ok cols o → (o + cols_len cols ≤ length record)%nat →
  mjoin (field_at record <$> cols) = take (cols_len cols) (drop o record).
Proof.
  unfold cols_len. induction cols as [|c cols IH]; intros o Hlay Hl; [done|]. destruct Hlay as [Ho Hlay]. subst o.
  change (mjoin (field_at record <$> c :: cols)) with (field_at record c ++ mjoin (field_at record <$> cols)). cbn [sum_list_with] in *.
  rewrite (IH (col_offset c + col_len c)%nat Hlay) by lia. unfold field_at. by rewrite <-drop_drop, take_take_drop.
Qed.

Lemma pq2cob_loop_back cols record : ∀ o row r,
  layout_ok cols o → (o + cols_len cols ≤ length record)%nat → (o + cols_len cols ≤ length r)%nat →
  take o r = take o record →
  Forall (λ c, wf_field c (field_at record c)) cols →
  Forall2 (λ c t', same_value c (text_of_field c (field_at record c)) t') cols row →
  pq2cob_loop cols row r o =
    Some (take (o + cols_len cols) record ++ drop (o + cols_len cols) r).
Proof.
  intros o row r Hlay Hrec Hr Htake Hwf Hrow. rewrite (pq2cob_loop_fields (field_at record)); [|done|done|].
  - rewrite (fields_join _ _ o), Htake, app_assoc, take_take_drop by done. done.
  - clear - Hwf Hrow. induction Hrow as [|c t' cols row H _ IH]; [constructor|]. apply Forall_cons in Hwf as [Hc Hwf].
    constructor; [|by apply IH]. split; [by apply field_back|apply Hc].
Qed.

(** *** What comes back of any field *)

(** The server's text of a number: there is no negative zero. *)
Definition server_text (c : column_t) (t : bytes) : bytes :=
  match t with
  | x :: t' => if is_num c && (x =? ch "-") && forallb (λ y, (y =? 48) || (y =? ch ".")) t' then 48 :: t' else t
  | [] => t
  end.

(** The field a program reads after it wrote [f]: of a negative number the first digit is lost,
    and the sign too when the others are zeros. *)
Definition returned (c : column_t) (f : bytes) : bytes :=
  if is_num c && is_negative f then
    let g := 48 :: drop 1 (alter clear_sign (length f - 1)%nat f) in
    if forallb (λ y, y =? 48) g then g else sign_last g
  else f.

Lemma is_negative_snoc ds b : is_negative (ds ++ [b]) = (Z.land b 64 =? 64).
Proof. unfold is_negative. by rewrite last_snoc. Qed.

(** The sign takes the place of the first digit. *)
Lemma negative_text c d ds b : is_num c = true → isdigit b = true → length (d :: ds ++ [b]) = col_len c → (col_dec c < col_len c)%nat →
  text_of_field c (d :: ds ++ [Z.lor b 64]) = text_of_field c (48 :: ds ++ [Z.lor b 64]).
Proof.
  intros Hn Hb Hl Hdec. destruct (digit_sign b Hb) as (_ & H64 & _). unfold text_of_field.
  rewrite Hn, !app_comm_cons, !is_negative_snoc, H64. cbn [Z.eqb Pos.eqb]. cbv zeta.
  destruct (0 <? col_dec c)%nat; [|done]. by destruct (col_len c - col_dec c)%nat eqn:E; [lia|].
Qed.

Lemma pointed_zero c g : is_num c = true → length g = col_len c → (col_dec c < col_len c)%nat →
  forallb (λ y, (y =? 48) || (y =? ch ".")) (drop 1 (pointed c (48 :: drop 1 g))) = forallb (λ y, (y =? 48) || (y =? ch ".")) (drop 1 g).
Proof.
  intros Hn Hl Hd. unfold pointed. destruct (0 <? col_dec c)%nat; [|done].
  destruct (col_len c - col_dec c)%nat as [|k] eqn:E; [lia|]. change (drop (S k) (48 :: drop 1 g)) with (drop k (drop 1 g)).
  change (drop 1 (take (S k) (48 :: drop 1 g) ++ ?x ++ ?y)) with (take k (drop 1 g) ++ x ++ y).
  rewrite forallb_app. cbn [forallb app].
  rewrite orb_true_r, andb_true_l, <-forallb_app, take_drop. done.
Qed.

Lemma digits_zero g : (∀ x, x ∈ g → isdigit x = true) → forallb (λ y, (y =? 48) || (y =? ch ".")) g = forallb (λ y, y =? 48) g.
Proof.
  induction g as [|x g IH]; intros Hg; [done|]. cbn [forallb]. rewrite IH by (intros; apply Hg; by right).
  pose proof (Hg x ltac:(by left)) as Hx. f_equal. destruct (x =? 48); [done|]. destruct (Z.eqb_spec x (ch ".")) as [->|]; [done|done].
Qed.

Lemma returned_length c f : digits_field c f → length (returned c f) = col_len c.
Proof.
  intros [Hl Hf]. unfold returned. destruct (is_num c) eqn:Hn; cbn [andb]; [|done]. destruct (is_negative f); [|done].
  assert (0 < length f)%nat as Hp by (destruct Hf; lia). cbv zeta. set (g := 48 :: drop 1 _).
  assert (length g = col_len c) as Hg by (unfold g; cbn [length]; rewrite length_drop, length_alter; lia).
  destruct (forallb _ g); [done|]. destruct (exists_last (l:=g)) as (l & x & E); [by unfold g|]. rewrite E in *. rewrite sign_last_snoc. rewrite length_app in *. simpl in *. lia.
Qed.

Lemma returned_back c f t' : digits_field c f → same_value c (server_text c (text_of_field c f)) t' →
  field_of_text c (cstr t') = Some (returned c f).
Proof.
  intros [Hl Hf] Hsame. rewrite cstr_id by apply Hsame. unfold returned. destruct (is_num c) eqn:Hn; cbn [andb].
  2:{ apply text_back; try done. unfold text_of_field in Hsame. rewrite Hn in Hsame. unfold server_text in Hsame. rewrite Hn in Hsame. by destruct f. }
  destruct Hf as (Hdec & ds & b & Hds & Hb & [->| ->]); destruct (digit_sign b Hb) as (H0 & H64 & Hclr & _).
  - rewrite is_negative_snoc, H0. change (0 =? 64) with false. cbv iota.
    assert (∀ x, x ∈ ds ++ [b] → isdigit x = true) as Hg by (intros x; rewrite elem_of_app, list_elem_of_singleton; intros [?| ->]; auto).
    apply positive_back; try done. rewrite text_of_positive in Hsame by done. revert Hsame. unfold server_text.
    destruct (pointed c (ds ++ [b])) as [|x t] eqn:E; [done|]. destruct (Z.eqb_spec x (ch "-")) as [->|]; [|by rewrite andb_false_r].
    exfalso. assert (ch "-" ∈ ds ++ [b]) as H%Hg; [|done]. unfold pointed in E. destruct (0 <? col_dec c)%nat.
    + destruct (col_len c - col_dec c)%nat eqn:Ek; [lia|]. destruct (ds ++ [b]); [simpl in Hl; lia|]. injection E as -> _. by left.
    + rewrite E. by left.
  - rewrite is_negative_snoc, H64. change (64 =? 64) with true. cbv iota zeta.
    assert (alter clear_sign (length (ds ++ [Z.lor b 64]) - 1)%nat (ds ++ [Z.lor b 64]) = ds ++ [b]) as ->.
    { rewrite length_app. simpl. rewrite Nat.add_sub, alter_app_r_alt, Nat.sub_diag by lia. simpl. by rewrite Hclr. }
    destruct ds as [|d ds].
    + simpl in *. assert (text_of_field c [Z.lor b 64] = [48]) as Et.
      { unfold text_of_field, is_negative. rewrite Hn. simpl. rewrite H64, <-Hl. simpl. assert (col_dec c = 0%nat) as -> by lia. done. }
      rewrite Et in Hsame. apply positive_back; try done; [intros x ->%list_elem_of_singleton; done|].
      unfold server_text in Hsame. rewrite andb_false_r in Hsame. unfold pointed. by assert (col_dec c = 0%nat) as -> by lia.
    + assert (length (48 :: ds ++ [b]) = col_len c) as Hl2 by (simpl in *; rewrite length_app in *; simpl in *; lia).
      rewrite <-app_comm_cons in *. rewrite negative_text in Hsame by done. cbn [drop] in *. rewrite !drop_0 in *.
      assert (∀ x, x ∈ ds ++ [b] → isdigit x = true) as Hg.
      { intros x. rewrite elem_of_app, list_elem_of_singleton. intros [?| ->]; [apply Hds; by right|done]. }
      pose proof (digits_zero _ Hg) as Ez. pose proof (pointed_zero c (48 :: ds ++ [b]) Hn Hl2 Hdec) as Ep. cbn [drop] in Ep. rewrite !drop_0, Ez in Ep.
      cbn [forallb]. change (48 =? 48) with true. rewrite andb_true_l.
      assert (∃ t, pointed c (48 :: ds ++ [b]) = 48 :: t) as [t Et].
      { unfold pointed. destruct (0 <? col_dec c)%nat; [|by eexists]. destruct (col_len c - col_dec c)%nat eqn:Ek; [lia|]. by eexists. }
      rewrite Et in Ep. cbn [drop] in Ep. rewrite drop_0 in Ep. pose proof Hsame as Hs2.
      rewrite text_of_negative, Et in Hs2 by done. change (bs "-") with [ch "-"] in Hs2. cbn [drop app] in Hs2. rewrite drop_0 in Hs2.
      unfold server_text in Hs2. rewrite Hn, Z.eqb_refl, Ep in Hs2. cbn [andb] in Hs2.
      destruct (forallb (λ y, y =? 48) (ds ++ [b])) eqn:Eall.
      * apply positive_back; try done; [|by rewrite Et]. intros x [->|Hx]%elem_of_cons; [done|by apply Hg].
      * change (48 :: ds ++ [b]) with ((48 :: ds) ++ [b]). rewrite sign_last_snoc. apply negative_back; try done.
        rewrite text_of_negative, Et by done. change (bs "-") with [ch "-"]. cbn [drop app]. by rewrite drop_0.
Qed.

(** A field that survives is what comes back. *)
Lemma returned_id c f : wf_field c f → returned c f = f ∧ server_text c (text_of_field c f) = text_of_field c f ∧ digits_field c f.
Proof.
  intros [Hl Hf]. unfold returned, digits_field. destruct (is_num c) eqn:Hn; cbn [andb].
  2:{ split; [done|]. split; [|done]. unfold server_text. rewrite Hn. by destruct (text_of_field c f). }
  destruct Hf as (Hdec & ds & b & Hds & Hb & [->|(-> & Hhd & x & Hx & Hne)]); destruct (digit_sign b Hb) as (H0 & H64 & Hclr & _).
  - rewrite is_negative_snoc, H0. change (0 =? 64) with false. cbv iota. split; [done|]. split; [|split; [done|split; [done|]; exists ds, b; by split_and!; [..|left]]].
    rewrite text_of_positive by done. unfold server_text. destruct (pointed c (ds ++ [b])) as [|y t] eqn:E; [done|].
    destruct (Z.eqb_spec y (ch "-")) as [->|]; [|by rewrite andb_false_r]. exfalso.
    assert (ch "-" ∈ ds ++ [b]) as [H%Hds|H%list_elem_of_singleton]%elem_of_app; [|done|by subst b].
    unfold pointed in E. destruct (0 <? col_dec c)%nat; [|rewrite E; by left].
    destruct (col_len c - col_dec c)%nat eqn:Ek; [lia|]. destruct (ds ++ [b]); [simpl in Hl; lia|]. injection E as -> _. by left.
  - rewrite is_negative_snoc, H64. change (64 =? 64) with true. cbv iota zeta. destruct ds as [|d ds]; [done|]. injection Hhd as ->.
    assert (alter clear_sign (length ((48 :: ds)%Z ++ [Z.lor b 64]) - 1)%nat ((48 :: ds) ++ [Z.lor b 64]) = (48 :: ds) ++ [b]) as ->.
    { rewrite length_app. simpl length. rewrite Nat.add_sub, alter_app_r_alt by (simpl; lia). rewrite Nat.sub_diag. simpl. by rewrite Hclr. }
    cbn [app drop] in *. rewrite !drop_0.
    assert (forallb (λ y, y =? 48) (ds ++ [b]) = false) as Hz.
    { apply not_true_iff_false. intros Hall. apply elem_of_cons in Hx as [->|Hx]; [done|]. rewrite forallb_forall in Hall.
      apply Hne, Z.eqb_eq, Hall. by apply list_elem_of_In. }
    assert (length (48 :: ds ++ [b]) = col_len c) as Hl2 by (simpl in *; rewrite length_app in *; simpl in *; lia).
    assert (∀ x, x ∈ ds ++ [b] → isdigit x = true) as Hg.
    { intros y. rewrite elem_of_app, list_elem_of_singleton. intros [?| ->]; [apply Hds; by right|done]. }
    cbn [forallb]. rewrite Hz, andb_false_r. split; [change (48 :: ds ++ [b]) with ((48 :: ds) ++ [b]); by rewrite sign_last_snoc|].
    split; [|split; [done|split; [done|]; exists (48 :: ds), b; by split_and!; [..|right]]].
    rewrite text_of_negative by done. pose proof (pointed_zero c (48 :: ds ++ [b]) Hn Hl2 Hdec) as Ep. cbn [drop] in Ep. rewrite !drop_0, (digits_zero _ Hg), Hz in Ep.
    change (bs "-") with [ch "-"]. cbn [app]. unfold server_text. by rewrite Ep, andb_false_r.
Qed.

(** C21: A record goes to the database and comes back. Whatever digits and signs its fields have, the
    fields [pq2cob] stores for the texts of a write - with the leading zeros or trailing blanks
    the database spells them with, which knows no negative zero - are those of the record,
    but for the negative numbers: their first digit comes back as zero, because the program writes the
    minus sign over it (op_write.c), and a number that has no other digit but zeros loses its
    sign. So a record of texts, unsigned numbers and negative numbers that begin with a zero and
    are not zero comes back as it was, byte for byte. *)
Theorem record_roundtrip cols record r row :
  layout_ok cols 0 → length record = cols_len cols → length r = cols_len cols →
  Forall (λ c, digits_field c (field_at record c)) cols →
  Forall2 (λ c t', same_value c (server_text c (text_of_field c (field_at record c))) t') cols row →
  pq2cob cols row r = Some (mjoin ((λ c, returned c (field_at record c)) <$> cols)) ∧
  (Forall (λ c, wf_field c (field_at record c)) cols → pq2cob cols row r = Some record).
Proof.
  intros Hlay Hl Hr Hd Hrow. unfold pq2cob.
  assert (pq2cob_loop cols row r 0 = Some (mjoin ((λ c, returned c (field_at record c)) <$> cols))) as E.
  { rewrite (pq2cob_loop_fields (λ c, returned c (field_at record c))); [|done|lia|].
    - rewrite drop_ge, app_nil_r by (simpl; lia). done.
    - clear - Hd Hrow. induction Hrow as [|c t' cols row H _ IH]; [constructor|]. apply Forall_cons in Hd as [Hc Hd].
      constructor; [|by apply IH]. pose proof (returned_back _ _ _ Hc H) as E. split; [done|]. by apply returned_length. }
  split; [done|]. intros Hwf. rewrite E. f_equal.
  assert (((λ c, returned c (field_at record c)) <$> cols) = (field_at record <$> cols)) as ->.
  { apply list_fmap_ext. intros i c Hc. apply (Forall_lookup_1 _ _ _ _ Hwf) in Hc. by destruct (returned_id _ _ Hc). }
  rewrite (fields_join _ _ 0) by (done || lia). rewrite drop_0, take_ge by lia. done.
Qed.

(** A five-digit number with two decimals and a three-character text. *)
Definition ex_cols : list column_t :=
  [mk_col (bs "valor") (ch "n") 5 2 0 false 0; mk_col (bs "nome") (ch "c") 3 0 5 false 0].

(** -912.34 and [ab]: the database gets and gives [-12.34] and [ab]. *)
Lemma record_roundtrip_witness :
  pq2cob ex_cols [bs "-12.34"; bs "ab"] (replicate 8 0) = Some (bs "0123tab ").
Proof.
  apply (record_roundtrip ex_cols (bs "9123tab ")).
  - done.
  - done.
  - done.
  - constructor; [|constructor; [|constructor]]; (split; [done|]); simpl.
    + split; [lia|]. exists (bs "9123"), (ch "4"). split; [|split; [done|by right]].
      intros x. simpl. rewrite !elem_of_cons, elem_of_nil. intros [->|[->|[->|[->|[]]]]]; done.
    + simpl. set_solver.
  - constructor; [|constructor; [|constructor]]; (split; [simpl; set_solver|]).
    + exists (bs "-"), 0%nat, 0%nat, (bs "12"), (bs ".34"). split; [by right|].
      split; [|split_and!; [by vm_compute|by vm_compute|done|simpl; lia]].
      intros x. simpl. rewrite !elem_of_cons, elem_of_nil. intros [->|[->|[]]]; done.
    + exists (bs "ab"), 1%nat, 0%nat. split_and!; [done|done|simpl; lia].
Defined.

(** A number as long as its column does not survive when it is negative: the
    minus sign takes the place of its first digit. *)
Theorem negative_digit_lost c d ds b :
  is_num c = true → col_dec c = 0%nat → col_len c = S (S (length ds)) → isdigit b = true →
  text_of_field c (d :: ds ++ [Z.lor b 64]) = bs "-" ++ ds ++ [b].
Proof.
  intros Hn Hd Hl Hb. assert (length (48 :: ds ++ [b]) = col_len c) as Hg by (simpl; rewrite length_app; simpl; lia).
  assert (text_of_field c (d :: ds ++ [Z.lor b 64]) = text_of_field c (48 :: ds ++ [Z.lor b 64])) as ->.
  { destruct (digit_sign b Hb) as (_ & H64 & _). unfold text_of_field, is_negative.
    rewrite Hn, Hd, Hl, !app_comm_cons, !last_snoc, H64. done. }
  rewrite text_of_negative by (done || lia). unfold pointed. by rewrite Hd.
Qed.

Lemma negative_digit_lost_witness :
  text_of_field (mk_col (bs "saldo") (ch "n") 3 0 0 false 0) (bs "12s") = bs "-23".
Proof. apply (negative_digit_lost (mk_col (bs "saldo") (ch "n") 3 0 0 false 0) (ch "1") (bs "2") (ch "3")); done. Defined.
