(* ===== verification/Kdb.v ===== *)
(** The key definition block of a table and the SQL conditions built from a key
    (src/kdb.c): which columns each key has, its value in a record, the condition and
    the order of a start, and the conditions of the prepared statements. *)

From stdpp Require Import prelude gmap strings.
From S2P Require Import Prelude Fhtypes Fcd Table.
Local Open Scope Z_scope.

(** src/pqfh.h:15-20 MAX_COMPS : limits of the arrays. *)
Definition MAX_KEY_LEN : nat := 256.
Definition MAX_NAME_LEN : nat := 50.
Definition MAX_COMPS : nat := 32.

(** ** The keys of a table *)

(** The components of key [k]: an [unsigned short] offset and an [int] length. *)
Fixpoint comp_areas (kdb : bytes) (cdaoffset : Z) (c n : nat) : option (list (Z * Z)) :=
  match n with
  | O => Some []
  | S n' =>
      let cda := cdaoffset + Z.of_nat c * 10 in
      offset ← int_at kdb (cda + 2);
      len ← int_at kdb (cda + 6);
      rest ← comp_areas kdb cdaoffset (S c) n';
      Some ((u16 offset, s32 len) :: rest)
  end.

Definition key_comps (kdb : bytes) (k : nat) : option (list (Z * Z)) :=
  let kda := 14 + Z.of_nat k * 16 in
  ncomps ← short_at kdb kda;
  cdaoffset ← short_at kdb (kda + 2);
  comp_areas kdb cdaoffset 0 (Z.to_nat ncomps).

(** Position of the first column at an offset. *)
Fixpoint find_col (cols : list column_t) (offset : Z) : option nat :=
  match cols with
  | [] => None
  | c :: cols' => if Z.of_nat (col_offset c) =? offset then Some 0%nat else S <$> find_col cols' offset
  end.

(** [while (len > 0)]: the columns from position [i] on that cover [len] bytes; past
    the last column the program reads a null pointer, unless [stop_at_end]. *)
Fixpoint span (stop_at_end : bool) (cols : list column_t) (i : nat) (len : Z) : option (list nat) :=
  if 0 <? len then
    match cols with
    | [] => if stop_at_end then Some [] else None
    | c :: cols' =>
        rest ← span stop_at_end cols' (S i) (len - Z.of_nat (col_len c));
        Some (i :: rest)
    end
  else Some [].

(** src/kdb.c:57-83 getkeys (a key of one component): its columns and how many
    leading columns of the table the loop went over. *)
Definition simple_key (cols : list column_t) (comp : Z * Z) : option (list nat * nat) :=
  let '(offset, len) := comp in
  match find_col cols offset with
  | Some i => ixs ← span false (drop i cols) i len; Some (ixs, (i + Nat.max 1 (length ixs))%nat)
  | None => Some ([], length cols)
  end.

(** src/kdb.c:87-118 getkeys (a component of a split key) *)
Definition split_comp (cols : list column_t) (comp : Z * Z) : option (list nat) :=
  let '(offset, len) := comp in
  match find_col cols offset with
  | Some i =>
      c ← cols !! i;
      rest ← span true (drop (S i) cols) (S i) (len - Z.of_nat (col_len c));
      Some (i :: rest)
  | None => Some []
  end.

Definition set_pk (b : bool) (c : column_t) : column_t :=
  mk_col (col_name c) (col_tp c) (col_len c) (col_dec c) (col_offset c) b (col_p c).
Definition set_p (p : nat) (c : column_t) : column_t :=
  mk_col (col_name c) (col_tp c) (col_len c) (col_dec c) (col_offset c) (col_pk c) p.

(** Mark the columns at some positions as part of the primary key. *)
Definition mark_pk (p : nat → bool) (cols : list column_t) : list column_t :=
  imap (λ i c, if p i then set_pk true c else c) cols.

(** src/kdb.c:45-121 getkeys (the body of the loop over the keys) *)
Definition getkey (cols : list column_t) (k : nat) (comps : list (Z * Z)) : option (list column_t * key_t) :=
  let len := foldr Z.add 0 (snd <$> comps) in
  match comps with
  | [comp] =>
      r ← simple_key cols comp;
      let '(ixs, seen) := r in
      if (length ixs <=? MAX_COMPS)%nat then
        Some (if (k =? 0)%nat then mark_pk (λ i, (i <? seen)%nat) cols else cols,
              mk_key k len 1 ixs)
      else None
  | _ =>
      ixss ← mapM (split_comp cols) comps;
      let ixs := mjoin ixss in
      if (length ixs <=? MAX_COMPS)%nat then
        Some (if (k =? 0)%nat then mark_pk (λ i, bool_decide (i ∈ ixs)) cols else cols,
              mk_key k len (Z.of_nat (length comps)) ixs)
      else None
  end.

Fixpoint getkeys_loop (kdb : bytes) (cols : list column_t) (k n : nat) : option (list column_t * list key_t) :=
  match n with
  | O => Some (cols, [])
  | S n' =>
      comps ← key_comps kdb k;
      r ← getkey cols k comps;
      rest ← getkeys_loop kdb (fst r) (S k) n';
      Some (fst rest, snd r :: snd rest)
  end.

(** src/kdb.c:30-133 getkeys : the columns with their [pk] flags and the keys. *)
Definition getkeys (kdb : bytes) (cols : list column_t) : option (list column_t * list key_t) :=
  nkeys ← short_at kdb 6;
  getkeys_loop kdb cols 0 (Z.to_nat nkeys).

(** src/kdb.c:340-362 getkbuf : the value of a key in the record, in a buffer of 257
    bytes; for an unknown key the length is not initialised. *)
Definition key_bytes (cols : list column_t) (record : bytes) (ixs : list nat) : option bytes :=
  bss ← mapM (λ i, c ← cols !! i; rec_bytes record (col_offset c) (col_len c)) ixs;
  let b := mjoin bss in
  if (length b <=? MAX_KEY_LEN)%nat then Some b else None.

Definition getkbuf (cols : list column_t) (keys : list key_t) (keyid : nat) (record : bytes) : option bytes :=
  key ← keys !! keyid;
  key_bytes cols record (k_columns key).

(** ** The condition of a start *)

(** src/kdb.c:13-28 escape : without a quote the text itself; with one the loop
    never meets its end and runs out of the buffer. *)
Definition escape (buf : bytes) : option bytes :=
  match strchr buf 39 with None => Some buf | Some _ => None end.

(** src/kdb.c:148-157 adiciona_comp (the text of the value of a column) *)
Definition comp_text (c : column_t) (record : bytes) : option bytes :=
  buf ← rec_bytes record (col_offset c) (col_len c);
  let dot := (if is_num c && (0 <? col_dec c) then 1 else 0)%nat in
  if (col_len c + dot <=? 256)%nat && (col_dec c <=? col_len c)%nat then
    Some (cstr (if is_num c && (byte_at buf 0 =? 0) then zeros (col_len c)
                else if is_num c && (0 <? col_dec c)%nat then pointed c buf
                else buf))
  else None.

(** The value as the condition spells it: a text goes between quotes. *)
Definition literal (c : column_t) (buf : bytes) : option bytes :=
  if is_num c then Some buf else e ← escape buf; Some ([39] ++ e ++ [39]).

(** A [sprintf] into [char aux[257]]. *)
Definition fit_aux (s : bytes) : option bytes := if (length s <=? 256)%nat then Some s else None.

Definition op_first (op : bytes) : Z := default 0 (head op).

(** [strcat(order, ","); strcat(order, name)] *)
Definition order_more (cols : list column_t) (ixs : list nat) (order : bytes) : option bytes :=
  cs ← mapM (λ i, cols !! i) ixs;
  Some (order ++ mjoin ((λ c, bs "," ++ col_name c) <$> cs)).

(** src/kdb.c:135-223 adiciona_comp : the condition and the order after the columns
    from [c] on; [rest] is [key.columns] from [c] on. *)
Fixpoint adiciona_comp (cols : list column_t) (ixs : list nat) (partial_key : nat) (partial_weak : bool)
    (record _op : bytes) (c : nat) (rest : list nat) (wh order : bytes) : option (bytes * bytes) :=
  match rest with
  | [] => None
  | i :: rest' =>
      let op := if (0 <? partial_key)%nat then bs "=" else _op in
      col ← cols !! i;
      buf ← comp_text col record;
      lit ← literal col buf;
      let name := col_name col in
      let last := if (0 <? partial_key)%nat then Z.of_nat partial_key - 1
                  else Z.of_nat (length ixs) - 1 - (if partial_weak then 1 else 0) in
      let desc := if op_first op =? ch "<" then bs " desc" else [] in
      if Z.of_nat c =? last then
        aux ← fit_aux (name ++ bs " " ++ op ++ bs " " ++ lit);
        order1 ← (if (0 <? partial_key)%nat then order_more cols (drop (partial_key + 1) ixs) (order ++ name ++ desc)
                  else Some (order ++ name ++ desc));
        order2 ← (if partial_weak then
                    j ← ixs !! (if (0 <? partial_key)%nat then S (Nat.max (partial_key + 1) (length ixs)) else S c);
                    order_more cols [j] order1
                  else Some order1);
        Some (wh ++ aux, order2)
      else if negb (op_first op =? ch ">") && negb (op_first op =? ch "<") then
        aux ← fit_aux (name ++ bs " " ++ op ++ bs " " ++ lit ++ bs " and ");
        adiciona_comp cols ixs partial_key partial_weak record op (S c) rest'
          (wh ++ aux) (order ++ name ++ bs ",")
      else
        aux ← fit_aux (name ++ bs " " ++ [op_first op] ++ bs " " ++ lit ++ bs " or ( " ++
                       name ++ bs " = " ++ lit ++ bs " and ( ");
        r ← adiciona_comp cols ixs partial_key partial_weak record op (S c) rest'
              (wh ++ aux) (order ++ name ++ desc ++ bs ",");
        Some (fst r ++ bs " ) ) ", snd r)
  end.

(** src/kdb.c:225-245 getwhere : [partial] is [table->partial_key]. *)
Definition getwhere (name : bytes) (cols : list column_t) (keys : list key_t) (partial : nat)
    (force_partial partial_weak : bool) (record : bytes) (keyid : nat) (op : bytes) : option (bytes * bytes) :=
  match keys !! keyid with
  | None => Some ([], [])
  | Some key =>
      let partial_key := if force_partial && memeq name (bs "intori") 6 && (keyid =? 1)%nat then 2%nat
                         else partial in
      adiciona_comp cols (k_columns key) partial_key partial_weak record op 0 (k_columns key) [] []
  end.

(** ** The conditions of the prepared statements *)

(** src/kdb.c:249-296 adiciona_comp_prepared : the condition, the list of parameters
    (copies of the columns, each with its position) and the table's columns. *)
Fixpoint adiciona_comp_prepared (cols : list column_t) (ncols : nat) (partial_weak : bool)
    (c seq : nat) (rest : list nat) (wh : bytes) (prms : list column_t)
  : option (bytes * list column_t * list column_t) :=
  match rest with
  | [] => None
  | i :: rest' =>
      col ← cols !! i;
      let col := set_p seq col in
      let cols := <[i := col]> cols in
      let last := Z.of_nat ncols - 1 - (if partial_weak then 1 else 0) in
      let text := col_name col ++ bs " = $" ++ fmt_d (Z.of_nat (S seq)) in
      if Z.of_nat c =? last then
        aux ← fit_aux text;
        Some (wh ++ aux, prms ++ [col], cols)
      else
        aux ← fit_aux (text ++ bs " and ");
        adiciona_comp_prepared cols ncols partial_weak (S c) (S seq) rest' (wh ++ aux) (prms ++ [col])
  end.

(** src/kdb.c:298-336 getwhere_prepared : the list of parameters it replaces is
    returned; without that key the condition is empty. *)
Definition getwhere_prepared (cols : list column_t) (keys : list key_t) (partial_weak : bool)
    (keyid ini : nat) : option (bytes * list column_t * list column_t) :=
  match keys !! keyid with
  | None => Some ([], [], cols)
  | Some key =>
      adiciona_comp_prepared cols (length (k_columns key)) partial_weak 0 ini (k_columns key) [] []
  end.

(** ** What the condition of a start means *)

(** The shape of the condition: columns are named by their place in the key. *)
Inductive where_t :=
  | WCmp (c : nat) (op : bytes) (t : bytes * bytes)
  | WAnd (c : nat) (op : bytes) (t : bytes * bytes) (w : where_t)
  | WOr (c : nat) (o : Z) (t : bytes * bytes) (w : where_t).

(** Its text. *)
Fixpoint render (w : where_t) : bytes :=
  match w with
  | WCmp _ op (n, l) => n ++ bs " " ++ op ++ bs " " ++ l
  | WAnd _ op (n, l) w' => (n ++ bs " " ++ op ++ bs " " ++ l ++ bs " and ") ++ render w'
  | WOr _ o (n, l) w' =>
      (n ++ bs " " ++ [o] ++ bs " " ++ l ++ bs " or ( " ++ n ++ bs " = " ++ l ++ bs " and ( ") ++
      render w' ++ bs " ) ) "
  end.

(** Whether [x op y] holds, given how [x] compares with [y]. *)
Definition holds (op : bytes) (r : comparison) : bool :=
  match r with
  | Gt => bool_decide (ch ">" ∈ op)
  | Lt => bool_decide (ch "<" ∈ op)
  | Eq => bool_decide (ch "=" ∈ op)
  end.

(** Its value on a row, given how the row's columns compare with the record's. *)
Fixpoint eval (cmp : nat → comparison) (w : where_t) : bool :=
  match w with
  | WCmp c op _ => holds op (cmp c)
  | WAnd c op _ w' => holds op (cmp c) && eval cmp w'
  | WOr c o _ w' => holds [o] (cmp c) || holds (bs "=") (cmp c) && eval cmp w'
  end.

(** Lexicographic comparison: the first column that differs decides. *)
Fixpoint lexc (cs : list comparison) : comparison :=
  match cs with [] => Eq | Eq :: cs' => lexc cs' | c :: _ => c end.

Definition start_ops : list bytes := [bs ">"; bs ">="; bs "<"; bs "<="; bs "="].

Fixpoint clause (op : bytes) (c : nat) (t : bytes * bytes) (ts : list (bytes * bytes)) : where_t :=
  match ts with
  | [] => WCmp c op t
  | t' :: ts' =>
      if negb (op_first op =? ch ">") && negb (op_first op =? ch "<") then WAnd c op t (clause op (S c) t' ts')
      else WOr c (op_first op) t (clause op (S c) t' ts')
  end.

Lemma clause_eval cmp op ts : op ∈ start_ops → ∀ c t,
  eval cmp (clause op c t ts) = holds op (lexc (cmp <$> seq c (S (length ts)))).
Proof.
  intros Hop. induction ts as [|t' ts IH]; intros c t.
  - simpl. by destruct (cmp c).
  - unfold start_ops in Hop. rewrite !elem_of_cons, elem_of_nil in Hop.
    change (seq c (S (length (t' :: ts)))) with (c :: seq (S c) (S (length ts))). rewrite fmap_cons.
    destruct Hop as [->|[->|[->|[->|[->|[]]]]]]; cbn [clause op_first]; simpl negb; simpl andb; cbv iota;
      cbn [eval]; rewrite IH; cbn [lexc]; by destruct (cmp c).
Qed.

(** The column name and value text of a key column. *)
Definition term (cols : list column_t) (record : bytes) (i : nat) : option (bytes * bytes) :=
  col ← cols !! i;
  buf ← comp_text col record;
  lit ← literal col buf;
  Some (col_name col, lit).

Definition short_term (t : bytes * bytes) : Prop := (length (fst t) + length (snd t) ≤ 118)%nat.

(** The text of the order: the columns of the key, descending for a start below. *)
Fixpoint order_text (op : bytes) (names : list bytes) : bytes :=
  let desc := if op_first op =? ch "<" then bs " desc" else [] in
  match names with
  | [] => []
  | [n] => n ++ desc
  | n :: names' => n ++ desc ++ bs "," ++ order_text op names'
  end.

Lemma order_text_cons op n n' ns :
  order_text op (n :: n' :: ns) =
    n ++ (if op_first op =? ch "<" then bs " desc" else []) ++ bs "," ++ order_text op (n' :: ns).
Proof. done. Qed.

Lemma fit_aux_some s : (length s ≤ 256)%nat → fit_aux s = Some s.
Proof. intros H. unfold fit_aux. by rewrite (proj2 (Nat.leb_le _ _) H). Qed.

Lemma term_some cols record i t :
  term cols record i = Some t → ∃ col buf, cols !! i = Some col ∧ comp_text col record = Some buf ∧
    literal col buf = Some (snd t) ∧ fst t = col_name col.
Proof.
  unfold term. destruct (cols !! i) as [col|]; simpl; [|done].
  destruct (comp_text col record) as [buf|] eqn:E; simpl; [|done].
  destruct (literal col buf) as [l|] eqn:El; simpl; [|done]. intros [= <-]. by exists col, buf.
Qed.

Lemma op_short op : op ∈ start_ops → (length op ≤ 2)%nat.
Proof.
  unfold start_ops. rewrite !elem_of_cons, elem_of_nil.
  intros [->|[->|[->|[->|[->|[]]]]]]; simpl; lia.
Qed.

Lemma op_plain op : op ∈ start_ops →
  negb (op_first op =? ch ">") && negb (op_first op =? ch "<") = true → (op_first op =? ch "<") = false.
Proof. destruct (op_first op =? ch "<"); [|done]. by rewrite andb_false_r. Qed.

(** Lengths of concatenated texts. *)
Ltac len_lia := repeat progress (simpl; rewrite ?length_app); lia.

(** The condition from column [c] on, for all the columns of the key. *)
Lemma adiciona_comp_run cols ixs record op : op ∈ start_ops → ∀ rest c wh order ts t,
  length ixs = (c + length rest)%nat → mapM (term cols record) rest = Some (t :: ts) →
  Forall short_term (t :: ts) →
  adiciona_comp cols ixs 0 false record op c rest wh order =
    Some (wh ++ render (clause op c t ts), order ++ order_text op (fst <$> t :: ts)).
Proof.
  intros Hop. pose proof (op_short op Hop) as Hol.
  induction rest as [|i rest IH]; intros c wh order ts t Hl Ht Hs; [done|].
  cbn [mapM] in Ht. destruct (term cols record i) as [t0|] eqn:E; simpl in Ht; [|done].
  destruct (mapM _ rest) as [ts'|] eqn:Er; simpl in Ht; [|done].
  injection Ht as -> ->. apply Forall_cons in Hs as [Hs0 Hs].
  destruct (term_some _ _ _ _ E) as (col & buf & Hc & Hb & Hlit & Hn).
  destruct t as [n l]. unfold short_term in Hs0. cbn [fst snd] in *. subst n.
  cbn [adiciona_comp]. rewrite Hc. cbn [mbind option_bind]. rewrite Hb. cbn [mbind option_bind].
  rewrite Hlit. cbn [mbind option_bind]. change (0 <? 0)%nat with false. cbv iota zeta.
  destruct ts as [|t' ts].
  - assert (rest = []) as -> by (apply length_mapM in Er; by destruct rest). simpl in Hl.
    rewrite (proj2 (Z.eqb_eq _ _)) by lia. by rewrite fit_aux_some by len_lia.
  - assert (length rest ≠ 0)%nat as Hr by (apply length_mapM in Er; simpl in Er; lia).
    rewrite (proj2 (Z.eqb_neq _ _)) by (cbn [length] in Hl; lia). cbn [clause]. rewrite !fmap_cons, order_text_cons.
    cbn [length] in Hl. destruct (negb _ && negb _) eqn:Eop;
      rewrite fit_aux_some by len_lia; cbn [mbind option_bind];
      rewrite (IH (S c) _ _ ts t') by (done || lia); cbn [mbind option_bind fst snd render].
    + rewrite (op_plain _ Hop Eop), <-?app_assoc. done.
    + rewrite <-?app_assoc. done.
Qed.

(** ** The value of a key *)

(** Offsets and lengths of the columns; the functions above only look at these. *)
Definition geo (cols : list column_t) : list (nat * nat) := (λ c, (col_offset c, col_len c)) <$> cols.

Lemma geo_mark p cols : geo (mark_pk p cols) = geo cols.
Proof.
  unfold geo, mark_pk. apply list_eq. intros i. rewrite !list_lookup_fmap, list_lookup_imap.
  destruct (cols !! i); simpl; [|done]. by destruct (p i).
Qed.

Lemma geo_getkey cols k comps cols' key :
  getkey cols k comps = Some (cols', key) → geo cols' = geo cols.
Proof.
  unfold getkey. destruct comps as [|comp [|comp' comps]].
  - simpl. intros [= <- <-]. destruct (k =? 0)%nat; [apply geo_mark|done].
  - destruct (simple_key cols comp) as [[ixs seen]|]; simpl; [|done].
    destruct (length ixs <=? MAX_COMPS)%nat; [|done]. intros [= <- <-].
    destruct (k =? 0)%nat; [apply geo_mark|done].
  - destruct (mapM _ _) as [ixss|]; simpl; [|done].
    destruct (length _ <=? MAX_COMPS)%nat; [|done]. intros [= <- <-].
    destruct (k =? 0)%nat; [apply geo_mark|done].
Qed.

Lemma geo_layout cols cols' o : geo cols = geo cols' → layout_ok cols o → layout_ok cols' o.
Proof.
  revert cols' o. induction cols as [|c cols IH]; intros [|c' cols'] o; try done.
  intros [= E1 E2 H] [Ho Hl]. split; [congruence|]. rewrite <-E2. by apply IH.
Qed.

Lemma geo_length cols cols' : geo cols = geo cols' → length cols = length cols'.
Proof. intros H%(f_equal length). unfold geo in H. by rewrite !length_fmap in H. Qed.

Lemma geo_bytes cols cols' record ixs : geo cols = geo cols' → key_bytes cols record ixs = key_bytes cols' record ixs.
Proof.
  intros H. unfold key_bytes. f_equal. apply mapM_ext. intros i.
  assert ((λ c, (col_offset c, col_len c)) <$> cols !! i = (λ c, (col_offset c, col_len c)) <$> cols' !! i) as E.
  { rewrite <-!list_lookup_fmap. by f_equal. }
  destruct (cols !! i), (cols' !! i); simpl in *; try done. by injection E as -> ->.
Qed.

(** The columns from [i] on whose first [n] are the bytes [len] from [offset]. *)
Definition covers (cols : list column_t) (comp : Z * Z) (i n : nat) : Prop :=
  (0 < n)%nat ∧ (i + n ≤ length cols)%nat ∧
  fst comp = Z.of_nat (cols_len (take i cols)) ∧ snd comp = Z.of_nat (cols_len (take n (drop i cols))).

Definition aligned (cols : list column_t) (comp : Z * Z) : Prop := ∃ i n, covers cols comp i n.

Definition wide (cols : list column_t) : Prop := Forall (λ c, (0 < col_len c)%nat) cols.

Lemma layout_offset cols o i c :
  layout_ok cols o → cols !! i = Some c → col_offset c = (o + cols_len (take i cols))%nat.
Proof.
  revert o i. induction cols as [|c0 cols IH]; intros o i; [done|]. intros [Ho Hl].
  destruct i as [|i]; simpl; [intros [= <-]; unfold cols_len; simpl; lia|].
  intros Hi. rewrite (IH _ _ Hl Hi). unfold cols_len. simpl. lia.
Qed.

Lemma find_col_at cols o i :
  layout_ok cols o → wide cols → (i < length cols)%nat →
  find_col cols (Z.of_nat (o + cols_len (take i cols))) = Some i.
Proof.
  revert o i. induction cols as [|c cols IH]; intros o i; simpl; [lia|]. intros [Ho Hl] Hw Hi.
  apply Forall_cons in Hw as [Hc Hw]. destruct i as [|i].
  - unfold cols_len. simpl. rewrite (proj2 (Z.eqb_eq _ _)) by lia. done.
  - unfold cols_len. simpl. rewrite (proj2 (Z.eqb_neq _ _)) by lia.
    replace (o + (col_len c + sum_list_with col_len (take i cols)))%nat
      with (o + col_len c + cols_len (take i cols))%nat by (unfold cols_len; lia).
    rewrite IH by (done || lia). done.
Qed.

Lemma span_at e cols i n :
  wide cols → (n ≤ length cols)%nat → span e cols i (Z.of_nat (cols_len (take n cols))) = Some (seq i n).
Proof.
  revert i n. induction cols as [|c cols IH]; intros i n Hw Hn.
  - destruct n; [done|simpl in Hn; lia].
  - apply Forall_cons in Hw as [Hc Hw]. destruct n as [|n]; [done|]. cbn [span take].
    unfold cols_len. cbn [sum_list_with]. rewrite (proj2 (Z.ltb_lt _ _)) by lia.
    replace (Z.of_nat (col_len c + sum_list_with col_len (take n cols)) - Z.of_nat (col_len c))
      with (Z.of_nat (cols_len (take n cols))) by (unfold cols_len; lia).
    rewrite IH; [done|done|]. simpl in Hn. lia.
Qed.

Lemma simple_key_at cols comp i n :
  layout_ok cols 0 → wide cols → covers cols comp i n →
  ∃ seen, simple_key cols comp = Some (seq i n, seen).
Proof.
  intros Hl Hw (Hn & Hle & Ho & Hlen). destruct comp as [offset len]. simpl in *. subst.
  pose proof (find_col_at cols 0 i Hl Hw ltac:(lia)) as Hf. cbn [Nat.add] in Hf. rewrite Hf. simpl.
  rewrite span_at; [by eexists| |].
  - by apply Forall_drop.
  - rewrite length_drop. lia.
Qed.

Lemma split_comp_at cols comp i n :
  layout_ok cols 0 → wide cols → covers cols comp i n → split_comp cols comp = Some (seq i n).
Proof.
  intros Hl Hw (Hn & Hle & Ho & Hlen). destruct comp as [offset len]. simpl in *. subst.
  pose proof (find_col_at cols 0 i Hl Hw ltac:(lia)) as Hf. cbn [Nat.add] in Hf. rewrite Hf. simpl.
  destruct (lookup_lt_is_Some_2 cols i) as [c Hc]; [lia|]. rewrite Hc. simpl.
  rewrite (drop_S _ _ _ Hc). destruct n as [|n]; [lia|]. cbn [take]. unfold cols_len. cbn [sum_list_with].
  replace (Z.of_nat (col_len c + sum_list_with col_len (take n (drop (S i) cols))) - Z.of_nat (col_len c))
    with (Z.of_nat (cols_len (take n (drop (S i) cols)))) by (unfold cols_len; lia).
  rewrite span_at; [done| |].
  - by apply Forall_drop.
  - rewrite length_drop. lia.
Qed.

Lemma rec_bytes_some record off len :
  (off + len ≤ length record)%nat → rec_bytes record off len = Some (take len (drop off record)).
Proof. intros H. unfold rec_bytes. by rewrite (proj2 (Nat.leb_le _ _) H). Qed.

(** The bytes of consecutive columns are consecutive bytes of the record. *)
Lemma seq_bytes cols record i n :
  layout_ok cols 0 → (i + n ≤ length cols)%nat → (cols_len cols ≤ length record)%nat →
  ∃ bss, mapM (λ i, c ← cols !! i; rec_bytes record (col_offset c) (col_len c)) (seq i n) = Some bss ∧
    mjoin bss = take (cols_len (take n (drop i cols))) (drop (cols_len (take i cols)) record).
Proof.
  intros Hl. revert i. induction n as [|n IH]; intros i Hle Hrec.
  - exists []. split; [done|]. by rewrite take_0.
  - destruct (lookup_lt_is_Some_2 cols i) as [c Hc]; [lia|].
    destruct (IH (S i)) as (bss & Hm & Hj); [lia|done|].
    assert (cols_len (take (S i) cols) = cols_len (take i cols) + col_len c)%nat as HS.
    { rewrite (take_S_r _ _ _ Hc). unfold cols_len. rewrite sum_list_with_app. simpl. lia. }
    assert (cols_len cols = cols_len (take (S i) cols) + cols_len (drop (S i) cols))%nat as Htot.
    { unfold cols_len. rewrite <-sum_list_with_app. by rewrite take_drop. }
    exists (take (col_len c) (drop (cols_len (take i cols)) record) :: bss). split.
    + cbn [seq mapM]. rewrite Hc. cbn [mbind option_bind].
      rewrite (layout_offset _ _ _ _ Hl Hc), Nat.add_0_l.
      rewrite rec_bytes_some by lia. cbn [mbind option_bind]. by rewrite Hm.
    + rewrite (drop_S _ _ _ Hc). cbn [take].
      change (cols_len (c :: take n (drop (S i) cols))) with (col_len c + cols_len (take n (drop (S i) cols)))%nat.
      change (mjoin (take (col_len c) (drop (cols_len (take i cols)) record) :: bss)) with
        (take (col_len c) (drop (cols_len (take i cols)) record) ++ mjoin bss). rewrite Hj, HS, <-drop_drop.
      set (q := drop (cols_len (take i cols)) record). set (m := cols_len (take n (drop (S i) cols))).
      rewrite <-(take_drop (col_len c) (take (col_len c + m) q)).
      rewrite take_take, Nat.min_l by lia. f_equal. by rewrite take_drop_commute.
Qed.

(** The columns [ixss] of the components of a key, and the limits of the program. *)
Definition key_layout (cols : list column_t) (comps : list (Z * Z)) (ixss : list (list nat)) : Prop :=
  Forall2 (λ comp ixs, ∃ i n, covers cols comp i n ∧ ixs = seq i n) comps ixss ∧
  (length (mjoin ixss) ≤ MAX_COMPS)%nat ∧ foldr Z.add 0 (snd <$> comps) ≤ Z.of_nat MAX_KEY_LEN.

Definition aligned_key (cols : list column_t) (comps : list (Z * Z)) : Prop :=
  ∃ ixss, key_layout cols comps ixss.

(** The bytes of a component, as the definition of the key says. *)
Definition comp_val (record : bytes) (comp : Z * Z) : bytes :=
  take (Z.to_nat (snd comp)) (drop (Z.to_nat (fst comp)) record).

Lemma geo_cols_len cols cols' : geo cols = geo cols' → cols_len cols = cols_len cols'.
Proof.
  revert cols'. induction cols as [|c cols IH]; intros [|c' cols']; try done.
  intros [= E1 E2 H]. unfold cols_len in *. simpl. rewrite E2. f_equal. by apply IH.
Qed.

Lemma geo_take cols cols' n : geo cols = geo cols' → geo (take n cols) = geo (take n cols').
Proof. intros H. unfold geo in *. by rewrite !fmap_take, H. Qed.

Lemma geo_drop cols cols' n : geo cols = geo cols' → geo (drop n cols) = geo (drop n cols').
Proof. intros H. unfold geo in *. by rewrite !fmap_drop, H. Qed.

Lemma geo_covers cols cols' comp i n : geo cols = geo cols' → covers cols comp i n → covers cols' comp i n.
Proof.
  intros H (Hn & Hle & Ho & Hl). rewrite (geo_length _ _ H) in Hle.
  rewrite (geo_cols_len _ _ (geo_take _ _ i H)) in Ho.
  rewrite (geo_cols_len _ _ (geo_take _ _ n (geo_drop _ _ i H))) in Hl. done.
Qed.

Lemma geo_aligned cols cols' comps : geo cols = geo cols' → aligned_key cols comps → aligned_key cols' comps.
Proof.
  intros H (ixss & Hall & Hr). exists ixss. split; [|done].
  eapply Forall2_impl; [exact Hall|]. intros comp ixs (i & n & Hc & ->).
  exists i, n. split; [by eapply geo_covers|done].
Qed.

Lemma geo_wide cols cols' : geo cols = geo cols' → wide cols → wide cols'.
Proof.
  revert cols'. induction cols as [|c cols IH]; intros [|c' cols']; try done.
  intros [= E1 E2 H] [Hc Hw]%Forall_cons. apply Forall_cons. split; [by rewrite <-E2|]. by apply IH.
Qed.

Lemma split_comps_at cols comps ixss :
  layout_ok cols 0 → wide cols →
  Forall2 (λ comp ixs, ∃ i n, covers cols comp i n ∧ ixs = seq i n) comps ixss →
  mapM (split_comp cols) comps = Some ixss.
Proof.
  intros Hl Hw H. apply mapM_Some_2. eapply Forall2_impl; [exact H|].
  intros comp ixs (i & n & Hc & ->). by apply split_comp_at.
Qed.

Lemma getkey_at cols k comps ixss :
  layout_ok cols 0 → wide cols → key_layout cols comps ixss →
  ∃ cols' key, getkey cols k comps = Some (cols', key) ∧ k_columns key = mjoin ixss.
Proof.
  intros Hl Hw (Hall & Hmax & Hlen). unfold getkey. destruct comps as [|comp [|comp' comps]].
  - inversion Hall; subst. by eexists _, _.
  - inversion Hall as [|? ixs ? ? (i & n & Hc & ->) Hnil]; subst. inversion Hnil; subst.
    destruct (simple_key_at cols comp i n Hl Hw Hc) as [seen ->].
    change (mjoin [seq i n]) with (seq i n ++ []) in *. rewrite app_nil_r in *. cbn [mbind option_bind].
    rewrite (proj2 (Nat.leb_le _ _) Hmax). by eexists _, _.
  - rewrite (split_comps_at _ _ _ Hl Hw Hall). cbn [mbind option_bind].
    rewrite (proj2 (Nat.leb_le _ _) Hmax). by eexists _, _.
Qed.

Lemma mapM_app_some {A B} (f : A → option B) l1 l2 k1 k2 :
  mapM f l1 = Some k1 → mapM f l2 = Some k2 → mapM f (l1 ++ l2) = Some (k1 ++ k2).
Proof.
  intros H1%mapM_Some H2%mapM_Some. apply mapM_Some. by apply Forall2_app.
Qed.

Lemma comps_bytes cols record comps ixss :
  layout_ok cols 0 → (cols_len cols ≤ length record)%nat →
  Forall2 (λ comp ixs, ∃ i n, covers cols comp i n ∧ ixs = seq i n) comps ixss →
  ∃ bss, mapM (λ i, c ← cols !! i; rec_bytes record (col_offset c) (col_len c)) (mjoin ixss) = Some bss ∧
    mjoin bss = mjoin (comp_val record <$> comps) ∧
    Z.of_nat (length (mjoin (comp_val record <$> comps))) ≤ foldr Z.add 0 (snd <$> comps).
Proof.
  intros Hl Hrec. induction 1 as [|comp ixs comps ixss (i & n & (Hn & Hle & Ho & Hlen) & ->) _ IH].
  - by exists [].
  - destruct IH as (bss & Hm & Hj & Hz). destruct (seq_bytes cols record i n Hl Hle Hrec) as (bs1 & Hm1 & Hj1).
    exists (bs1 ++ bss). split; [exact (mapM_app_some _ _ _ _ _ Hm1 Hm)|].
    rewrite join_app, Hj, Hj1, !fmap_cons.
    change (mjoin (comp_val record comp :: (comp_val record <$> comps))) with
      (comp_val record comp ++ mjoin (comp_val record <$> comps)).
    assert (comp_val record comp = take (cols_len (take n (drop i cols))) (drop (cols_len (take i cols)) record))
      as -> by (unfold comp_val; by rewrite Ho, Hlen, !Nat2Z.id).
    split; [done|]. rewrite length_app, length_take. simpl. rewrite Hlen. lia.
Qed.

Lemma key_bytes_at cols record comps ixss :
  layout_ok cols 0 → (cols_len cols ≤ length record)%nat → key_layout cols comps ixss →
  key_bytes cols record (mjoin ixss) = Some (mjoin (comp_val record <$> comps)).
Proof.
  intros Hl Hrec (Hall & _ & Hlen). destruct (comps_bytes _ _ _ _ Hl Hrec Hall) as (bss & Hm & Hj & Hz).
  unfold key_bytes. rewrite Hm. cbn [mbind option_bind]. rewrite Hj.
  by rewrite (proj2 (Nat.leb_le _ _)) by lia.
Qed.

Lemma getkeys_loop_at kdb cols0 record : layout_ok cols0 0 → wide cols0 → (cols_len cols0 ≤ length record)%nat →
  ∀ n k cols, geo cols = geo cols0 →
  (∀ j, (k ≤ j < k + n)%nat → ∃ comps, key_comps kdb j = Some comps ∧ aligned_key cols0 comps) →
  ∃ cols' keys, getkeys_loop kdb cols k n = Some (cols', keys) ∧ geo cols' = geo cols0 ∧ length keys = n ∧
    ∀ j comps key, keys !! j = Some key → key_comps kdb (k + j) = Some comps →
      key_bytes cols0 record (k_columns key) = Some (mjoin (comp_val record <$> comps)).
Proof.
  intros Hl Hw Hrec. induction n as [|n IH]; intros k cols Hg Hall.
  - exists cols, []. by split_and!.
  - destruct (Hall k) as (comps & Hc & Hal); [lia|]. cbn [getkeys_loop]. rewrite Hc. cbn [mbind option_bind].
    destruct Hal as [ixss Hal].
    destruct (getkey_at cols k comps ixss) as (cols1 & key & Hk & Hkc).
    { by eapply geo_layout. } { by eapply geo_wide. }
    { destruct Hal as [H Hr]. split; [|done]. eapply Forall2_impl; [exact H|].
      intros comp ixs (i & m & Hcov & ->). exists i, m. split; [by eapply geo_covers|done]. }
    rewrite Hk. cbn [mbind option_bind fst snd].
    destruct (IH (S k) cols1) as (cols' & keys & Hrest & Hg' & Hlen & Hkeys).
    { by rewrite (geo_getkey _ _ _ _ _ Hk). } { intros j Hj. apply Hall. lia. }
    rewrite Hrest. cbn [mbind option_bind fst snd]. exists cols', (key :: keys).
    split; [done|]. split; [done|]. split; [simpl; by rewrite Hlen|].
    intros [|j] comps' key' Hj Hc'.
    + rewrite Nat.add_0_r, Hc in Hc'. injection Hc' as <-. injection Hj as <-. rewrite Hkc.
      by apply key_bytes_at.
    + apply (Hkeys j); [done|]. by rewrite Nat.add_succ_comm.
Qed.

(** ** The properties *)

(** When the components of the keys fall on columns of the table, [getkeys]
    finds every key, and the value [getkbuf] takes from a record, column by column, is
    the one the key definition block describes, component by component. *)
Theorem getkbuf_is_key kdb cols record nk :
  short_at kdb 6 = Some nk → layout_ok cols 0 → wide cols → (cols_len cols ≤ length record)%nat →
  (∀ k, (k < Z.to_nat nk)%nat → ∃ comps, key_comps kdb k = Some comps ∧ aligned_key cols comps) →
  ∃ cols' keys, getkeys kdb cols = Some (cols', keys) ∧ geo cols' = geo cols ∧ length keys = Z.to_nat nk ∧
    ∀ k comps, (k < Z.to_nat nk)%nat → key_comps kdb k = Some comps →
      getkbuf cols' keys k record = Some (mjoin (comp_val record <$> comps)).
Proof.
  intros Hnk Hl Hw Hrec Hall. unfold getkeys. rewrite Hnk. cbn [mbind option_bind].
  destruct (getkeys_loop_at kdb cols record Hl Hw Hrec (Z.to_nat nk) 0 cols eq_refl) as
    (cols' & keys & Hrun & Hg & Hlen & Hkeys).
  { intros j Hj. apply Hall. lia. }
  exists cols', keys. split_and!; try done. intros k comps Hk Hc. unfold getkbuf.
  destruct (lookup_lt_is_Some_2 keys k) as [key Hkey]; [lia|]. rewrite Hkey. cbn [mbind option_bind].
  rewrite (geo_bytes _ _ record _ Hg). by apply (Hkeys k).
Qed.

(** C12: The condition of a start holds for the rows whose key compares with the
    key of the record as the operator says, column by column in the order of the key
    (lexicographically), and the order by clause names the same columns, descending
    for a start below. *)
Theorem getwhere_lexicographic name cols keys record keyid op key t ts :
  op ∈ start_ops → keys !! keyid = Some key →
  mapM (term cols record) (k_columns key) = Some (t :: ts) → Forall short_term (t :: ts) →
  ∃ w, getwhere name cols keys 0 false false record keyid op =
      Some (render w, order_text op (fst <$> t :: ts)) ∧
    ∀ cmp, eval cmp w = holds op (lexc (cmp <$> seq 0 (length (k_columns key)))).
Proof.
  intros Hop Hk Ht Hs. exists (clause op 0 t ts). split.
  - unfold getwhere. rewrite Hk. cbn [andb]. cbv zeta iota.
    by rewrite (adiciona_comp_run _ _ _ _ Hop (k_columns key) 0 [] [] ts t eq_refl Ht Hs).
  - intros cmp. rewrite (clause_eval _ _ _ Hop). apply length_mapM in Ht. by rewrite Ht.
Qed.

(** ** Prepared conditions *)

(** [a = $1 and b = $2 ...], the parameters numbered after [ini]. *)
Fixpoint eq_text (ini : nat) (names : list bytes) : bytes :=
  match names with
  | [] => []
  | [n] => n ++ bs " = $" ++ fmt_d (Z.of_nat (S ini))
  | n :: names' => n ++ bs " = $" ++ fmt_d (Z.of_nat (S ini)) ++ bs " and " ++ eq_text (S ini) names'
  end.

Lemma dec_digits_length fuel n acc : (length (dec_digits fuel n acc) ≤ fuel + length acc)%nat.
Proof.
  revert n acc. induction fuel as [|fuel IH]; intros n acc; [done|]. cbn [dec_digits].
  destruct (n <? 10); simpl; [lia|]. etrans; [apply IH|]. simpl. lia.
Qed.

Lemma fmt_d_length n : (length (fmt_d n) ≤ 21)%nat.
Proof.
  unfold fmt_d. destruct (n <? 0); cbn [length].
  - pose proof (dec_digits_length 20 (- n) []). cbn [length] in *. lia.
  - pose proof (dec_digits_length 20 n []). cbn [length] in *. lia.
Qed.

Lemma set_p_twice p q c : set_p p (set_p q c) = set_p p c.
Proof. done. Qed.

Lemma geo_set_p cols i c p : cols !! i = Some c → geo (<[i := set_p p c]> cols) = geo cols.
Proof.
  intros Hc. unfold geo. rewrite list_fmap_insert. simpl. apply list_insert_id.
  by rewrite list_lookup_fmap, Hc.
Qed.

(** The columns of [ixs], with parameter positions from [seq] on. *)
Definition numbered (cs : list column_t) (seq : nat) : list column_t := imap (λ j c, set_p (seq + j) c) cs.

Lemma numbered_cons c cs seq : numbered (c :: cs) seq = set_p seq c :: numbered cs (S seq).
Proof.
  unfold numbered. simpl. rewrite Nat.add_0_r. f_equal. apply imap_ext. intros j x _. simpl.
  by rewrite Nat.add_succ_r.
Qed.

(** Two column lists that differ in the parameter positions only. *)
Definition same_cols (cols cols' : list column_t) : Prop := set_p 0 <$> cols = set_p 0 <$> cols'.

Lemma same_cols_lookup cols cols' i c :
  same_cols cols cols' → cols !! i = Some c → ∃ c', cols' !! i = Some c' ∧ ∀ p, set_p p c' = set_p p c.
Proof.
  intros H Hc. assert ((set_p 0 <$> cols) !! i = (set_p 0 <$> cols') !! i) as E by by rewrite H.
  rewrite !list_lookup_fmap, Hc in E. destruct (cols' !! i) as [c'|]; [|done]. exists c'. split; [done|].
  intros p. apply (inj Some (set_p 0 c) (set_p 0 c')) in E.
  by rewrite <-(set_p_twice p 0 c), <-(set_p_twice p 0 c'), E.
Qed.

Lemma same_cols_insert cols cols' i c p :
  same_cols cols cols' → cols' !! i = Some c → same_cols cols (<[i := set_p p c]> cols').
Proof.
  unfold same_cols. intros H Hc. rewrite list_fmap_insert, set_p_twice, list_insert_id; [done|].
  by rewrite list_lookup_fmap, Hc.
Qed.

Lemma adiciona_prepared_run cols0 ncols : ∀ rest c seq wh prms cols col cs,
  ncols = (c + length rest)%nat → same_cols cols0 cols →
  mapM (λ i, cols0 !! i) rest = Some (col :: cs) →
  Forall (λ c, (length (col_name c) ≤ MAX_NAME_LEN)%nat) (col :: cs) →
  ∃ cols', adiciona_comp_prepared cols ncols false c seq rest wh prms =
      Some (wh ++ eq_text seq (col_name <$> col :: cs), prms ++ numbered (col :: cs) seq, cols') ∧
    same_cols cols0 cols'.
Proof.
  induction rest as [|i rest IH]; intros c seq wh prms cols col cs Hl Hsame Hm Hnames; [done|].
  cbn [mapM] in Hm. destruct (cols0 !! i) as [col0|] eqn:E; simpl in Hm; [|done].
  destruct (mapM _ rest) as [cs'|] eqn:Er; simpl in Hm; [|done]. injection Hm as -> ->.
  apply Forall_cons in Hnames as [Hn Hnames].
  destruct (same_cols_lookup _ _ _ _ Hsame E) as (col' & Hc' & Hp).
  cbn [adiciona_comp_prepared]. rewrite Hc'. cbn [mbind option_bind]. cbv zeta. rewrite (Hp seq).
  change (col_name (set_p seq col)) with (col_name col). rewrite Z.sub_0_r.
  pose proof (fmt_d_length (Z.of_nat (S seq))) as Hf.
  pose proof (same_cols_insert _ _ _ _ seq Hsame Hc') as Hsame'. rewrite (Hp seq) in Hsame'.
  rewrite numbered_cons. cbn [length] in Hl. pose proof (length_mapM _ _ _ Er) as Hlen.
  unfold MAX_NAME_LEN in Hn. destruct cs as [|col2 cs].
  - destruct rest; [|done]. simpl in Hl. rewrite (proj2 (Z.eqb_eq _ _)) by lia.
    rewrite fit_aux_some by len_lia. by eexists.
  - assert (length rest ≠ 0)%nat by (simpl in Hlen; lia).
    rewrite (proj2 (Z.eqb_neq _ _)) by lia. rewrite fit_aux_some by len_lia. cbn [mbind option_bind].
    destruct (IH (S c) (S seq) (wh ++ (col_name col ++ bs " = $" ++ fmt_d (Z.of_nat (S seq))) ++ bs " and ")
      (prms ++ [set_p seq col]) _ col2 cs ltac:(lia) Hsame' eq_refl Hnames) as (cols' & Hrun & Hs).
    exists cols'. split; [|done]. rewrite Hrun, !fmap_cons. cbn [eq_text]. rewrite <-?app_assoc. done.
Qed.

(** The condition of a prepared statement compares the columns of the key, in
    order, with parameters numbered after [ini], and the parameter list it leaves has
    those columns with those positions: the values a program sends in the order of
    the list go to the right placeholders. *)
Theorem getwhere_prepared_correct cols keys keyid ini key col cs :
  keys !! keyid = Some key → mapM (λ i, cols !! i) (k_columns key) = Some (col :: cs) →
  Forall (λ c, (length (col_name c) ≤ MAX_NAME_LEN)%nat) (col :: cs) →
  ∃ cols', getwhere_prepared cols keys false keyid ini =
      Some (eq_text ini (col_name <$> col :: cs), numbered (col :: cs) ini, cols') ∧
    same_cols cols cols' ∧ ∀ j c, numbered (col :: cs) ini !! j = Some c → col_p c = (ini + j)%nat.
Proof.
  intros Hk Hm Hn. unfold getwhere_prepared. rewrite Hk.
  destruct (adiciona_prepared_run cols (length (k_columns key)) (k_columns key) 0 ini [] [] cols col cs)
    as (cols' & Hrun & Hs); [done|done|done|done|].
  exists cols'. split; [exact Hrun|]. split; [exact Hs|]. intros j c. unfold numbered.
  rewrite list_lookup_imap. destruct ((col :: cs) !! j); simpl; [|done]. by intros [= <-].
Qed.

(** For a primary key of one component that starts after the first column,
    [getkeys] marks every column before it as part of the key too: a rewrite never
    updates them. *)
Theorem pk_overmarked cols comp cols' key i :
  getkey cols 0 [comp] = Some (cols', key) → find_col cols (fst comp) = Some i →
  ∀ j c, (j ≤ i)%nat → cols' !! j = Some c → col_pk c = true.
Proof.
  unfold getkey, simple_key. destruct comp as [offset len]. intros H Hf j c Hj Hc. simpl fst in Hf.
  rewrite Hf in H. cbn [mbind option_bind] in H. destruct (span _ _ _ _) as [ixs|]; [|done].
  cbn [mbind option_bind] in H. destruct (length ixs <=? MAX_COMPS)%nat; [|done]. injection H as <- _.
  unfold mark_pk in Hc. rewrite list_lookup_imap in Hc. destruct (cols !! j); [|done].
  simpl in Hc. rewrite (proj2 (Nat.ltb_lt _ _)) in Hc by lia. by injection Hc as <-.
Qed.

(** ** Concrete instances *)

(** Three columns; a key on the last two (a split key) and one on the second. *)
Definition ex_kcols : list column_t :=
  [mk_col (bs "valor") (ch "n") 2 0 0 false 0; mk_col (bs "nome") (ch "c") 2 0 2 false 0;
   mk_col (bs "data") (ch "n") 2 0 4 false 0].

Definition ex_kkdb : bytes :=
  replicate 6 0 ++ putshort 2 ++ replicate 6 0 ++
  (putshort 2 ++ putshort 46 ++ replicate 12 0) ++ (putshort 1 ++ putshort 66 ++ replicate 12 0) ++
  ([0; 0] ++ putint 2 ++ putint 2) ++ ([0; 0] ++ putint 4 ++ putint 2) ++ ([0; 0] ++ putint 2 ++ putint 2).

Definition ex_key : key_t := mk_key 0 4 2 [1; 2]%nat.

Lemma getkbuf_is_key_witness :
  ∃ cols' keys, getkeys ex_kkdb ex_kcols = Some (cols', keys) ∧
    getkbuf cols' keys 0 (bs "11ab22") = Some (bs "ab22") ∧ getkbuf cols' keys 1 (bs "11ab22") = Some (bs "ab").
Proof.
  destruct (getkbuf_is_key ex_kkdb ex_kcols (bs "11ab22") 2) as (cols' & keys & Hrun & _ & _ & Hk).
  - done.
  - done.
  - repeat constructor.
  - apply Nat.leb_le. by vm_compute.
  - intros [|[|k]] Hk; [| |simpl in Hk; lia].
    + exists [(2, 2); (4, 2)]. split; [by vm_compute|]. exists [[1]; [2]]%nat. split; [|split; [apply Nat.leb_le|apply Z.leb_le]; by vm_compute].
      constructor; [exists 1%nat, 1%nat|constructor; [exists 2%nat, 1%nat|constructor]]; (split; [|done]);
        (split; [lia|]); (split; [simpl; lia|]); by vm_compute.
    + exists [(2, 2)]. split; [by vm_compute|]. exists [[1]]%nat. split; [|split; [apply Nat.leb_le|apply Z.leb_le]; by vm_compute].
      constructor; [exists 1%nat, 1%nat|constructor]; (split; [|done]);
        (split; [lia|]); (split; [simpl; lia|]); by vm_compute.
  - exists cols', keys. split; [exact Hrun|]. split.
    + exact (Hk 0%nat [(2, 2); (4, 2)] ltac:(simpl; lia) ltac:(by vm_compute)).
    + exact (Hk 1%nat [(2, 2)] ltac:(simpl; lia) ltac:(by vm_compute)).
Defined.

(** [nome > 'ab' or ( nome = 'ab' and ( data >= 22 ) ) ], ordered by [nome,data]. *)
Lemma getwhere_lexicographic_witness :
  ∃ w, getwhere (bs "tabela") ex_kcols [ex_key] 0 false false (bs "11ab22") 0 (bs ">=") =
      Some (render w, bs "nome,data") ∧
    ∀ cmp, eval cmp w = holds (bs ">=") (lexc [cmp 0%nat; cmp 1%nat]).
Proof.
  destruct (getwhere_lexicographic (bs "tabela") ex_kcols [ex_key] (bs "11ab22") 0 (bs ">=") ex_key
    (bs "nome", bs "'ab'") [(bs "data", bs "22")]) as (w & Hrun & Hw).
  - unfold start_ops. rewrite !elem_of_cons. by right; left.
  - done.
  - by vm_compute.
  - repeat constructor; apply Nat.leb_le; by vm_compute.
  - exists w. split; [exact Hrun|exact Hw].
Defined.

Lemma getwhere_prepared_correct_witness :
  ∃ cols' prms, getwhere_prepared ex_kcols [ex_key] false 0 1 = Some (bs "nome = $2 and data = $3", prms, cols').
Proof.
  destruct (getwhere_prepared_correct ex_kcols [ex_key] 0 1 ex_key
    (mk_col (bs "nome") (ch "c") 2 0 2 false 0) [mk_col (bs "data") (ch "n") 2 0 4 false 0]) as (cols' & Hrun & _).
  - done.
  - done.
  - repeat constructor; apply Nat.leb_le; by vm_compute.
  - eexists cols', _. exact Hrun.
Defined.

Lemma pk_overmarked_witness :
  ∃ cols' key c, getkey ex_kcols 0 [(2, 2)] = Some (cols', key) ∧ cols' !! 0%nat = Some c ∧ col_pk c = true.
Proof.
  eexists _, _, _. split; [by vm_compute|]. split; [done|].
  by eapply (pk_overmarked ex_kcols (2, 2) _ _ 1 eq_refl eq_refl 0%nat); [lia|].
Defined.
