(* ===== verification/Libpq.v ===== *)
(** The database side of the file handler: the client library as an interface, the
    open tables (src/pqfh.h), the globals the operations share, and the statements that
    prepare and close things (src/utils.c). *)

From stdpp Require Import prelude gmap strings.
From S2P Require Import Prelude Fhtypes Fcd Table Kdb.
Local Open Scope Z_scope.

(** ** The client library *)

Inductive pg_status := PGRES_COMMAND_OK | PGRES_TUPLES_OK | PGRES_ERROR.

#[global] Instance pg_status_eq_dec : EqDecision pg_status.
Proof. solve_decision. Defined.

(** A result: its status and its rows of texts. *)
Record pgresult := mk_res { rs_status : pg_status; rs_rows : list (list bytes) }.

(** The calls of libpq the program makes; [D] is the connection with the server behind
    it.  The parameter texts of [PQexecPrepared] are C strings. *)
Class Libpq (D : Type) := {
  PQexec : bytes → D → D * pgresult;
  PQprepare : bytes → bytes → nat → D → D * pgresult;
  PQexecPrepared : bytes → list bytes → D → D * pgresult;
}.

(** ** Open tables *)

Definition MAX_KEYS : nat := 16.

(** src/pqfh.h:65-72 clone_t : a column of the table on the replica; the key is S or N. *)
Record clone_t := mk_clone {
  k_schema : bytes;
  k_name : bytes;
  k_col1 : bytes;
  k_col2 : bytes;
  k_key : Z;
  k_concat : Z;
}.

(** src/pqfh.h:23-63 table_t : one open file.  The buffers of the parameters are local to
    the operations, the web service fields and the advisory lock, which the build never
    takes, are left out. *)
Record table_t := mk_table {
  t_name : bytes;
  t_convertida : bool;
  t_schema : bytes;
  t_dictname : bytes;
  t_columns : list column_t;
  t_keys : list key_t;
  t_read_prepared : list bool;
  t_upd_prepared : bool;
  t_ins_prepared : bool;
  t_del_prepared : bool;
  t_restart : Z;
  t_key_next : Z;
  t_buf_next : bytes;
  t_rec_next : bytes;
  t_key_prev : Z;
  t_buf_prev : bytes;
  t_rec_prev : bytes;
  t_prms_random : list (list column_t);
  t_prms_rewrite : list column_t;
  t_prms_delete : list column_t;
  t_clones : list clone_t;
  t_cursor : bool;
  t_timestamp : bytes;
  t_oid : Z;
  t_first : bool;
  t_partial_key : nat;
}.

Definition set_t_name (v : bytes) (r : table_t) : table_t :=
  mk_table v (t_convertida r) (t_schema r) (t_dictname r) (t_columns r) (t_keys r) (t_read_prepared r)
    (t_upd_prepared r) (t_ins_prepared r) (t_del_prepared r) (t_restart r) (t_key_next r) (t_buf_next r)
    (t_rec_next r) (t_key_prev r) (t_buf_prev r) (t_rec_prev r) (t_prms_random r) (t_prms_rewrite r)
    (t_prms_delete r) (t_clones r) (t_cursor r) (t_timestamp r) (t_oid r) (t_first r) (t_partial_key r).
Definition set_t_convertida (v : bool) (r : table_t) : table_t :=
  mk_table (t_name r) v (t_schema r) (t_dictname r) (t_columns r) (t_keys r) (t_read_prepared r)
    (t_upd_prepared r) (t_ins_prepared r) (t_del_prepared r) (t_restart r) (t_key_next r) (t_buf_next r)
    (t_rec_next r) (t_key_prev r) (t_buf_prev r) (t_rec_prev r) (t_prms_random r) (t_prms_rewrite r)
    (t_prms_delete r) (t_clones r) (t_cursor r) (t_timestamp r) (t_oid r) (t_first r) (t_partial_key r).
Definition set_t_schema (v : bytes) (r : table_t) : table_t :=
  mk_table (t_name r) (t_convertida r) v (t_dictname r) (t_columns r) (t_keys r) (t_read_prepared r)
    (t_upd_prepared r) (t_ins_prepared r) (t_del_prepared r) (t_restart r) (t_key_next r) (t_buf_next r)
    (t_rec_next r) (t_key_prev r) (t_buf_prev r) (t_rec_prev r) (t_prms_random r) (t_prms_rewrite r)
    (t_prms_delete r) (t_clones r) (t_cursor r) (t_timestamp r) (t_oid r) (t_first r) (t_partial_key r).
Definition set_t_dictname (v : bytes) (r : table_t) : table_t :=
  mk_table (t_name r) (t_convertida r) (t_schema r) v (t_columns r) (t_keys r) (t_read_prepared r)
    (t_upd_prepared r) (t_ins_prepared r) (t_del_prepared r) (t_restart r) (t_key_next r) (t_buf_next r)
    (t_rec_next r) (t_key_prev r) (t_buf_prev r) (t_rec_prev r) (t_prms_random r) (t_prms_rewrite r)
    (t_prms_delete r) (t_clones r) (t_cursor r) (t_timestamp r) (t_oid r) (t_first r) (t_partial_key r).
Definition set_t_columns (v : list column_t) (r : table_t) : table_t :=
  mk_table (t_name r) (t_convertida r) (t_schema r) (t_dictname r) v (t_keys r) (t_read_prepared r)
    (t_upd_prepared r) (t_ins_prepared r) (t_del_prepared r) (t_restart r) (t_key_next r) (t_buf_next r)
    (t_rec_next r) (t_key_prev r) (t_buf_prev r) (t_rec_prev r) (t_prms_random r) (t_prms_rewrite r)
    (t_prms_delete r) (t_clones r) (t_cursor r) (t_timestamp r) (t_oid r) (t_first r) (t_partial_key r).
Definition set_t_keys (v : list key_t) (r : table_t) : table_t :=
  mk_table (t_name r) (t_convertida r) (t_schema r) (t_dictname r) (t_columns r) v (t_read_prepared r)
    (t_upd_prepared r) (t_ins_prepared r) (t_del_prepared r) (t_restart r) (t_key_next r) (t_buf_next r)
    (t_rec_next r) (t_key_prev r) (t_buf_prev r) (t_rec_prev r) (t_prms_random r) (t_prms_rewrite r)
    (t_prms_delete r) (t_clones r) (t_cursor r) (t_timestamp r) (t_oid r) (t_first r) (t_partial_key r).
Definition set_t_read_prepared (v : list bool) (r : table_t) : table_t :=
  mk_table (t_name r) (t_convertida r) (t_schema r) (t_dictname r) (t_columns r) (t_keys r) v (t_upd_prepared r)
    (t_ins_prepared r) (t_del_prepared r) (t_restart r) (t_key_next r) (t_buf_next r) (t_rec_next r)
    (t_key_prev r) (t_buf_prev r) (t_rec_prev r) (t_prms_random r) (t_prms_rewrite r) (t_prms_delete r)
    (t_clones r) (t_cursor r) (t_timestamp r) (t_oid r) (t_first r) (t_partial_key r).
Definition set_t_upd_prepared (v : bool) (r : table_t) : table_t :=
  mk_table (t_name r) (t_convertida r) (t_schema r) (t_dictname r) (t_columns r) (t_keys r) (t_read_prepared r)
    v (t_ins_prepared r) (t_del_prepared r) (t_restart r) (t_key_next r) (t_buf_next r) (t_rec_next r)
    (t_key_prev r) (t_buf_prev r) (t_rec_prev r) (t_prms_random r) (t_prms_rewrite r) (t_prms_delete r)
    (t_clones r) (t_cursor r) (t_timestamp r) (t_oid r) (t_first r) (t_partial_key r).
Definition set_t_ins_prepared (v : bool) (r : table_t) : table_t :=
  mk_table (t_name r) (t_convertida r) (t_schema r) (t_dictname r) (t_columns r) (t_keys r) (t_read_prepared r)
    (t_upd_prepared r) v (t_del_prepared r) (t_restart r) (t_key_next r) (t_buf_next r) (t_rec_next r)
    (t_key_prev r) (t_buf_prev r) (t_rec_prev r) (t_prms_random r) (t_prms_rewrite r) (t_prms_delete r)
    (t_clones r) (t_cursor r) (t_timestamp r) (t_oid r) (t_first r) (t_partial_key r).
Definition set_t_del_prepared (v : bool) (r : table_t) : table_t :=
  mk_table (t_name r) (t_convertida r) (t_schema r) (t_dictname r) (t_columns r) (t_keys r) (t_read_prepared r)
    (t_upd_prepared r) (t_ins_prepared r) v (t_restart r) (t_key_next r) (t_buf_next r) (t_rec_next r)
    (t_key_prev r) (t_buf_prev r) (t_rec_prev r) (t_prms_random r) (t_prms_rewrite r) (t_prms_delete r)
    (t_clones r) (t_cursor r) (t_timestamp r) (t_oid r) (t_first r) (t_partial_key r).
Definition set_t_restart (v : Z) (r : table_t) : table_t :=
  mk_table (t_name r) (t_convertida r) (t_schema r) (t_dictname r) (t_columns r) (t_keys r) (t_read_prepared r)
    (t_upd_prepared r) (t_ins_prepared r) (t_del_prepared r) v (t_key_next r) (t_buf_next r) (t_rec_next r)
    (t_key_prev r) (t_buf_prev r) (t_rec_prev r) (t_prms_random r) (t_prms_rewrite r) (t_prms_delete r)
    (t_clones r) (t_cursor r) (t_timestamp r) (t_oid r) (t_first r) (t_partial_key r).
Definition set_t_key_next (v : Z) (r : table_t) : table_t :=
  mk_table (t_name r) (t_convertida r) (t_schema r) (t_dictname r) (t_columns r) (t_keys r) (t_read_prepared r)
    (t_upd_prepared r) (t_ins_prepared r) (t_del_prepared r) (t_restart r) v (t_buf_next r) (t_rec_next r)
    (t_key_prev r) (t_buf_prev r) (t_rec_prev r) (t_prms_random r) (t_prms_rewrite r) (t_prms_delete r)
    (t_clones r) (t_cursor r) (t_timestamp r) (t_oid r) (t_first r) (t_partial_key r).
Definition set_t_buf_next (v : bytes) (r : table_t) : table_t :=
  mk_table (t_name r) (t_convertida r) (t_schema r) (t_dictname r) (t_columns r) (t_keys r) (t_read_prepared r)
    (t_upd_prepared r) (t_ins_prepared r) (t_del_prepared r) (t_restart r) (t_key_next r) v (t_rec_next r)
    (t_key_prev r) (t_buf_prev r) (t_rec_prev r) (t_prms_random r) (t_prms_rewrite r) (t_prms_delete r)
    (t_clones r) (t_cursor r) (t_timestamp r) (t_oid r) (t_first r) (t_partial_key r).
Definition set_t_rec_next (v : bytes) (r : table_t) : table_t :=
  mk_table (t_name r) (t_convertida r) (t_schema r) (t_dictname r) (t_columns r) (t_keys r) (t_read_prepared r)
    (t_upd_prepared r) (t_ins_prepared r) (t_del_prepared r) (t_restart r) (t_key_next r) (t_buf_next r) v
    (t_key_prev r) (t_buf_prev r) (t_rec_prev r) (t_prms_random r) (t_prms_rewrite r) (t_prms_delete r)
    (t_clones r) (t_cursor r) (t_timestamp r) (t_oid r) (t_first r) (t_partial_key r).
Definition set_t_key_prev (v : Z) (r : table_t) : table_t :=
  mk_table (t_name r) (t_convertida r) (t_schema r) (t_dictname r) (t_columns r) (t_keys r) (t_read_prepared r)
    (t_upd_prepared r) (t_ins_prepared r) (t_del_prepared r) (t_restart r) (t_key_next r) (t_buf_next r)
    (t_rec_next r) v (t_buf_prev r) (t_rec_prev r) (t_prms_random r) (t_prms_rewrite r) (t_prms_delete r)
    (t_clones r) (t_cursor r) (t_timestamp r) (t_oid r) (t_first r) (t_partial_key r).
Definition set_t_buf_prev (v : bytes) (r : table_t) : table_t :=
  mk_table (t_name r) (t_convertida r) (t_schema r) (t_dictname r) (t_columns r) (t_keys r) (t_read_prepared r)
    (t_upd_prepared r) (t_ins_prepared r) (t_del_prepared r) (t_restart r) (t_key_next r) (t_buf_next r)
    (t_rec_next r) (t_key_prev r) v (t_rec_prev r) (t_prms_random r) (t_prms_rewrite r) (t_prms_delete r)
    (t_clones r) (t_cursor r) (t_timestamp r) (t_oid r) (t_first r) (t_partial_key r).
Definition set_t_rec_prev (v : bytes) (r : table_t) : table_t :=
  mk_table (t_name r) (t_convertida r) (t_schema r) (t_dictname r) (t_columns r) (t_keys r) (t_read_prepared r)
    (t_upd_prepared r) (t_ins_prepared r) (t_del_prepared r) (t_restart r) (t_key_next r) (t_buf_next r)
    (t_rec_next r) (t_key_prev r) (t_buf_prev r) v (t_prms_random r) (t_prms_rewrite r) (t_prms_delete r)
    (t_clones r) (t_cursor r) (t_timestamp r) (t_oid r) (t_first r) (t_partial_key r).
Definition set_t_prms_random (v : list (list column_t)) (r : table_t) : table_t :=
  mk_table (t_name r) (t_convertida r) (t_schema r) (t_dictname r) (t_columns r) (t_keys r) (t_read_prepared r)
    (t_upd_prepared r) (t_ins_prepared r) (t_del_prepared r) (t_restart r) (t_key_next r) (t_buf_next r)
    (t_rec_next r) (t_key_prev r) (t_buf_prev r) (t_rec_prev r) v (t_prms_rewrite r) (t_prms_delete r)
    (t_clones r) (t_cursor r) (t_timestamp r) (t_oid r) (t_first r) (t_partial_key r).
Definition set_t_prms_rewrite (v : list column_t) (r : table_t) : table_t :=
  mk_table (t_name r) (t_convertida r) (t_schema r) (t_dictname r) (t_columns r) (t_keys r) (t_read_prepared r)
    (t_upd_prepared r) (t_ins_prepared r) (t_del_prepared r) (t_restart r) (t_key_next r) (t_buf_next r)
    (t_rec_next r) (t_key_prev r) (t_buf_prev r) (t_rec_prev r) (t_prms_random r) v (t_prms_delete r)
    (t_clones r) (t_cursor r) (t_timestamp r) (t_oid r) (t_first r) (t_partial_key r).
Definition set_t_prms_delete (v : list column_t) (r : table_t) : table_t :=
  mk_table (t_name r) (t_convertida r) (t_schema r) (t_dictname r) (t_columns r) (t_keys r) (t_read_prepared r)
    (t_upd_prepared r) (t_ins_prepared r) (t_del_prepared r) (t_restart r) (t_key_next r) (t_buf_next r)
    (t_rec_next r) (t_key_prev r) (t_buf_prev r) (t_rec_prev r) (t_prms_random r) (t_prms_rewrite r) v
    (t_clones r) (t_cursor r) (t_timestamp r) (t_oid r) (t_first r) (t_partial_key r).
Definition set_t_clones (v : list clone_t) (r : table_t) : table_t :=
  mk_table (t_name r) (t_convertida r) (t_schema r) (t_dictname r) (t_columns r) (t_keys r) (t_read_prepared r)
    (t_upd_prepared r) (t_ins_prepared r) (t_del_prepared r) (t_restart r) (t_key_next r) (t_buf_next r)
    (t_rec_next r) (t_key_prev r) (t_buf_prev r) (t_rec_prev r) (t_prms_random r) (t_prms_rewrite r)
    (t_prms_delete r) v (t_cursor r) (t_timestamp r) (t_oid r) (t_first r) (t_partial_key r).
Definition set_t_cursor (v : bool) (r : table_t) : table_t :=
  mk_table (t_name r) (t_convertida r) (t_schema r) (t_dictname r) (t_columns r) (t_keys r) (t_read_prepared r)
    (t_upd_prepared r) (t_ins_prepared r) (t_del_prepared r) (t_restart r) (t_key_next r) (t_buf_next r)
    (t_rec_next r) (t_key_prev r) (t_buf_prev r) (t_rec_prev r) (t_prms_random r) (t_prms_rewrite r)
    (t_prms_delete r) (t_clones r) v (t_timestamp r) (t_oid r) (t_first r) (t_partial_key r).
Definition set_t_timestamp (v : bytes) (r : table_t) : table_t :=
  mk_table (t_name r) (t_convertida r) (t_schema r) (t_dictname r) (t_columns r) (t_keys r) (t_read_prepared r)
    (t_upd_prepared r) (t_ins_prepared r) (t_del_prepared r) (t_restart r) (t_key_next r) (t_buf_next r)
    (t_rec_next r) (t_key_prev r) (t_buf_prev r) (t_rec_prev r) (t_prms_random r) (t_prms_rewrite r)
    (t_prms_delete r) (t_clones r) (t_cursor r) v (t_oid r) (t_first r) (t_partial_key r).
Definition set_t_oid (v : Z) (r : table_t) : table_t :=
  mk_table (t_name r) (t_convertida r) (t_schema r) (t_dictname r) (t_columns r) (t_keys r) (t_read_prepared r)
    (t_upd_prepared r) (t_ins_prepared r) (t_del_prepared r) (t_restart r) (t_key_next r) (t_buf_next r)
    (t_rec_next r) (t_key_prev r) (t_buf_prev r) (t_rec_prev r) (t_prms_random r) (t_prms_rewrite r)
    (t_prms_delete r) (t_clones r) (t_cursor r) (t_timestamp r) v (t_first r) (t_partial_key r).
Definition set_t_first (v : bool) (r : table_t) : table_t :=
  mk_table (t_name r) (t_convertida r) (t_schema r) (t_dictname r) (t_columns r) (t_keys r) (t_read_prepared r)
    (t_upd_prepared r) (t_ins_prepared r) (t_del_prepared r) (t_restart r) (t_key_next r) (t_buf_next r)
    (t_rec_next r) (t_key_prev r) (t_buf_prev r) (t_rec_prev r) (t_prms_random r) (t_prms_rewrite r)
    (t_prms_delete r) (t_clones r) (t_cursor r) (t_timestamp r) (t_oid r) v (t_partial_key r).
Definition set_t_partial_key (v : nat) (r : table_t) : table_t :=
  mk_table (t_name r) (t_convertida r) (t_schema r) (t_dictname r) (t_columns r) (t_keys r) (t_read_prepared r)
    (t_upd_prepared r) (t_ins_prepared r) (t_del_prepared r) (t_restart r) (t_key_next r) (t_buf_next r)
    (t_rec_next r) (t_key_prev r) (t_buf_prev r) (t_rec_prev r) (t_prms_random r) (t_prms_rewrite r)
    (t_prms_delete r) (t_clones r) (t_cursor r) (t_timestamp r) (t_oid r) (t_first r) v.


(** The globals of src/pqfh.c, src/utils.c, src/op_start.c, src/validador.c and
    src/cache.c that the operations read or write. *)
Record globals_db := mk_gdb {
  d_mode : Z;
  d_fatal : bool;
  d_erros : list bytes;
  d_weak : list bytes;
  d_partial_weak : bool;
  d_eof_start : bool;
  d_force_partial : bool;
  d_pending : Z;
  d_ncomps : nat;
  d_usecache : bool;
  d_cache : list table_t;
  d_in_transaction : bool;
  d_lock : bool;
  d_table_mode : Z;
  d_lock_manual : bool;
  d_stack : list bytes;
}.

Definition set_d_mode (v : Z) (r : globals_db) : globals_db :=
  mk_gdb v (d_fatal r) (d_erros r) (d_weak r) (d_partial_weak r) (d_eof_start r) (d_force_partial r)
    (d_pending r) (d_ncomps r) (d_usecache r) (d_cache r) (d_in_transaction r) (d_lock r) (d_table_mode r)
    (d_lock_manual r) (d_stack r).
Definition set_d_fatal (v : bool) (r : globals_db) : globals_db :=
  mk_gdb (d_mode r) v (d_erros r) (d_weak r) (d_partial_weak r) (d_eof_start r) (d_force_partial r)
    (d_pending r) (d_ncomps r) (d_usecache r) (d_cache r) (d_in_transaction r) (d_lock r) (d_table_mode r)
    (d_lock_manual r) (d_stack r).
Definition set_d_erros (v : list bytes) (r : globals_db) : globals_db :=
  mk_gdb (d_mode r) (d_fatal r) v (d_weak r) (d_partial_weak r) (d_eof_start r) (d_force_partial r)
    (d_pending r) (d_ncomps r) (d_usecache r) (d_cache r) (d_in_transaction r) (d_lock r) (d_table_mode r)
    (d_lock_manual r) (d_stack r).
Definition set_d_weak (v : list bytes) (r : globals_db) : globals_db :=
  mk_gdb (d_mode r) (d_fatal r) (d_erros r) v (d_partial_weak r) (d_eof_start r) (d_force_partial r)
    (d_pending r) (d_ncomps r) (d_usecache r) (d_cache r) (d_in_transaction r) (d_lock r) (d_table_mode r)
    (d_lock_manual r) (d_stack r).
Definition set_d_partial_weak (v : bool) (r : globals_db) : globals_db :=
  mk_gdb (d_mode r) (d_fatal r) (d_erros r) (d_weak r) v (d_eof_start r) (d_force_partial r) (d_pending r)
    (d_ncomps r) (d_usecache r) (d_cache r) (d_in_transaction r) (d_lock r) (d_table_mode r) (d_lock_manual r)
    (d_stack r).
Definition set_d_eof_start (v : bool) (r : globals_db) : globals_db :=
  mk_gdb (d_mode r) (d_fatal r) (d_erros r) (d_weak r) (d_partial_weak r) v (d_force_partial r) (d_pending r)
    (d_ncomps r) (d_usecache r) (d_cache r) (d_in_transaction r) (d_lock r) (d_table_mode r) (d_lock_manual r)
    (d_stack r).
Definition set_d_force_partial (v : bool) (r : globals_db) : globals_db :=
  mk_gdb (d_mode r) (d_fatal r) (d_erros r) (d_weak r) (d_partial_weak r) (d_eof_start r) v (d_pending r)
    (d_ncomps r) (d_usecache r) (d_cache r) (d_in_transaction r) (d_lock r) (d_table_mode r) (d_lock_manual r)
    (d_stack r).
Definition set_d_pending (v : Z) (r : globals_db) : globals_db :=
  mk_gdb (d_mode r) (d_fatal r) (d_erros r) (d_weak r) (d_partial_weak r) (d_eof_start r) (d_force_partial r) v
    (d_ncomps r) (d_usecache r) (d_cache r) (d_in_transaction r) (d_lock r) (d_table_mode r) (d_lock_manual r)
    (d_stack r).
Definition set_d_ncomps (v : nat) (r : globals_db) : globals_db :=
  mk_gdb (d_mode r) (d_fatal r) (d_erros r) (d_weak r) (d_partial_weak r) (d_eof_start r) (d_force_partial r)
    (d_pending r) v (d_usecache r) (d_cache r) (d_in_transaction r) (d_lock r) (d_table_mode r)
    (d_lock_manual r) (d_stack r).
Definition set_d_usecache (v : bool) (r : globals_db) : globals_db :=
  mk_gdb (d_mode r) (d_fatal r) (d_erros r) (d_weak r) (d_partial_weak r) (d_eof_start r) (d_force_partial r)
    (d_pending r) (d_ncomps r) v (d_cache r) (d_in_transaction r) (d_lock r) (d_table_mode r) (d_lock_manual r)
    (d_stack r).
Definition set_d_cache (v : list table_t) (r : globals_db) : globals_db :=
  mk_gdb (d_mode r) (d_fatal r) (d_erros r) (d_weak r) (d_partial_weak r) (d_eof_start r) (d_force_partial r)
    (d_pending r) (d_ncomps r) (d_usecache r) v (d_in_transaction r) (d_lock r) (d_table_mode r)
    (d_lock_manual r) (d_stack r).
Definition set_d_in_transaction (v : bool) (r : globals_db) : globals_db :=
  mk_gdb (d_mode r) (d_fatal r) (d_erros r) (d_weak r) (d_partial_weak r) (d_eof_start r) (d_force_partial r)
    (d_pending r) (d_ncomps r) (d_usecache r) (d_cache r) v (d_lock r) (d_table_mode r) (d_lock_manual r)
    (d_stack r).
Definition set_d_lock (v : bool) (r : globals_db) : globals_db :=
  mk_gdb (d_mode r) (d_fatal r) (d_erros r) (d_weak r) (d_partial_weak r) (d_eof_start r) (d_force_partial r)
    (d_pending r) (d_ncomps r) (d_usecache r) (d_cache r) (d_in_transaction r) v (d_table_mode r)
    (d_lock_manual r) (d_stack r).
Definition set_d_table_mode (v : Z) (r : globals_db) : globals_db :=
  mk_gdb (d_mode r) (d_fatal r) (d_erros r) (d_weak r) (d_partial_weak r) (d_eof_start r) (d_force_partial r)
    (d_pending r) (d_ncomps r) (d_usecache r) (d_cache r) (d_in_transaction r) (d_lock r) v (d_lock_manual r)
    (d_stack r).
Definition set_d_lock_manual (v : bool) (r : globals_db) : globals_db :=
  mk_gdb (d_mode r) (d_fatal r) (d_erros r) (d_weak r) (d_partial_weak r) (d_eof_start r) (d_force_partial r)
    (d_pending r) (d_ncomps r) (d_usecache r) (d_cache r) (d_in_transaction r) (d_lock r) (d_table_mode r) v
    (d_stack r).
Definition set_d_stack (v : list bytes) (r : globals_db) : globals_db :=
  mk_gdb (d_mode r) (d_fatal r) (d_erros r) (d_weak r) (d_partial_weak r) (d_eof_start r) (d_force_partial r)
    (d_pending r) (d_ncomps r) (d_usecache r) (d_cache r) (d_in_transaction r) (d_lock r) (d_table_mode r)
    (d_lock_manual r) v.


(** [tabs] are the tables allocated, by address. *)
Record dbs (D : Type) := mk_dbs { conn : D; gdb : globals_db; tabs : gmap Z table_t; tabs_brk : Z }.
Arguments mk_dbs {D} _ _ _ _.
Arguments conn {D} _.
Arguments gdb {D} _.
Arguments tabs {D} _.
Arguments tabs_brk {D} _.

Definition ST_OPEN_CLOSED : Z := 128.

Section ops.
Context {D : Type} `{!Libpq D}.

Definition pq (f : D → D * pgresult) : M (dbs D) pgresult := λ s,
  let '(d, r) := f (conn s) in (mk_dbs d (gdb s) (tabs s) (tabs_brk s), inr r).

Definition getd {A} (f : globals_db → A) : M (dbs D) A := gets (λ s, f (gdb s)).
Definition setd (f : globals_db → globals_db) : M (dbs D) unit :=
  modify (λ s, mk_dbs (conn s) (f (gdb s)) (tabs s) (tabs_brk s)).

(** The table behind a file identifier; an address with no table is a wild pointer. *)
Definition tab_at (a : Z) : M (dbs D) table_t := m ← gets tabs; of_option (m !! a).
Definition on_tab (a : Z) (f : table_t → table_t) : M (dbs D) unit :=
  t ← tab_at a; modify (λ s, mk_dbs (conn s) (gdb s) (<[a:=f t]> (tabs s)) (tabs_brk s)).

(** A [sprintf] into a buffer of [n + 1] bytes. *)
Definition fit (n : Z) (s : bytes) : M (dbs D) bytes :=
  if Z.of_nat (length s) <=? n then mret s else stop Fault.

Definition is_command_ok (r : pgresult) : bool := bool_decide (rs_status r = PGRES_COMMAND_OK).

(** [PQresultStatus(res) != PGRES_TUPLES_OK || PQntuples(res) == 0] is [None]. *)
Definition first_tuple (r : pgresult) : option (list bytes) :=
  match rs_status r with PGRES_TUPLES_OK => head (rs_rows r) | _ => None end.

(** The names of the prepared statements of a table. *)
Definition stmt_name (t : table_t) (suffix : bytes) : bytes :=
  t_name t ++ bs "_" ++ t_timestamp t ++ bs "_" ++ suffix.
Definition cursor_name (t : table_t) : bytes := bs "cursor_" ++ t_name t ++ bs "_" ++ t_timestamp t.

(** A statement whose failure only goes to the log. *)
Definition exec_logged (sql : bytes) : M (dbs D) unit :=
  sql ← fit MAX_REC_LEN sql; pq (PQexec sql);; mret tt.

(** src/utils.c:24-37 deallocate (the reads): the keys from [k] on. *)
Fixpoint deallocate_reads (a : Z) (n k : nat) : M (dbs D) unit :=
  match n with
  | O => mret tt
  | S n' =>
      t ← tab_at a;
      (if default false (t_read_prepared t !! k) then
         on_tab a (set_t_read_prepared (<[k:=false]> (t_read_prepared t)));;
         exec_logged (bs "deallocate " ++ stmt_name t (fmt_d (Z.of_nat k)))
       else mret tt);;
      deallocate_reads a n' (S k)
  end.

(** src/utils.c:19-77 deallocate *)
Definition deallocate (a : Z) : M (dbs D) unit :=
  deallocate_reads a MAX_KEYS 0;;
  t ← tab_at a;
  (if t_ins_prepared t then
     on_tab a (set_t_ins_prepared false);; exec_logged (bs "deallocate " ++ stmt_name t (bs "ins"))
   else mret tt);;
  (if t_upd_prepared t then
     on_tab a (set_t_upd_prepared false);; exec_logged (bs "deallocate " ++ stmt_name t (bs "upd"))
   else mret tt);;
  (if t_del_prepared t then
     on_tab a (set_t_del_prepared false);; exec_logged (bs "deallocate " ++ stmt_name t (bs "del"))
   else mret tt).

(** src/utils.c:79-97 close_cursor *)
Definition close_cursor (a : Z) : M (dbs D) unit :=
  t ← tab_at a;
  if negb (t_cursor t) then mret tt
  else on_tab a (set_t_cursor false);; exec_logged (bs "close " ++ cursor_name t).

(** src/pqfh.c:1361-1372 is_weak *)
Definition is_weak (name : bytes) : M (dbs D) bool := w ← getd d_weak; mret (bool_decide (name ∈ w)).

(** src/pqfh.c:69-83 commit *)
Definition commit : M (dbs D) unit :=
  pq (PQexec (bs "COMMIT"));; pq (PQexec (bs "BEGIN"));; setd (set_d_pending 0).

(** ** The parameters of the prepared statements *)

(** src/op_read_random.c:131-146 op_read_random (one key parameter): a number that starts
    with a NUL is zero, one with decimals gets its point. *)
Definition key_param (c : column_t) (record : bytes) : option bytes :=
  f ← rec_bytes record (col_offset c) (col_len c);
  let dot := (if is_num c && (0 <? col_dec c) then 1 else 0)%nat in
  if (col_len c + dot <=? 256)%nat && (col_dec c <=? col_len c)%nat then
    Some (if is_num c && (byte_at f 0 =? 0) then bs "0"
          else if is_num c && (0 <? col_dec c)%nat then pointed c f
          else f)
  else None.

(** src/op_rewrite.c:200-205 op_rewrite (one key parameter): the bytes of the field, a
    number with decimals without its point. *)
Definition plain_param (c : column_t) (record : bytes) : option bytes :=
  f ← rec_bytes record (col_offset c) (col_len c);
  if (col_len c <=? 256)%nat then Some f else None.

(** src/op_write.c:143-165 op_write (one parameter) *)
Definition field_param (c : column_t) (record : bytes) : option bytes :=
  f ← rec_bytes record (col_offset c) (col_len c);
  let dot := (if is_num c && (0 <? col_dec c) then 1 else 0)%nat in
  if (col_len c + dot <=? 256)%nat && (col_dec c <=? col_len c)%nat && (negb (is_num c) || (0 <? col_len c)%nat)
  then Some (text_of_field c f) else None.

(** src/validador.c:43-94 valida_numero (its effects): the error goes to the list, an
    error in a key column is fatal. *)
Definition validate (t : table_t) (c : column_t) (buf : bytes) : M (dbs D) bytes :=
  let r := valida_numero (t_columns t) (t_keys t) (col_name c) buf (0 <? col_dec c)%nat in
  match nr_erro r with
  | None => mret (nr_text r)
  | Some e =>
      e ← fit 256 e;
      setd (λ g, set_d_erros (d_erros g ++ [e]) g);;
      (if nr_fatal r then setd (set_d_fatal true) else mret tt);;
      mret (nr_text r)
  end.

(** The texts of the parameters [prms], each a copy of a column. *)
Fixpoint set_params (param : column_t → bytes → option bytes) (t : table_t) (prms : list column_t) (record : bytes)
  : M (dbs D) (list bytes) :=
  match prms with
  | [] => mret []
  | c :: prms' =>
      b ← of_option (param c record);
      v ← (if is_num c then validate t c b else mret (cstr b));
      vs ← set_params param t prms' record;
      mret (v :: vs)
  end.

(** Whether the log of errors can be opened. *)
Context (log_ok : bool).

(** src/validador.c:11-41 valida_comando : with errors to report, a fatal one ends the
    process. *)
Definition valida_comando : M (dbs D) unit :=
  es ← getd d_erros;
  match es with
  | [] => mret tt
  | _ =>
      if log_ok then
        setd (set_d_erros []);;
        f ← getd d_fatal;
        if f : bool then stop Exit else mret tt
      else mret tt
  end.

End ops.
