(* ===== verification/Replicator.v ===== *)
(** Copying the updates of a table to another database (src/replicator.c): which columns go
    where is in an ISAM file, and every update of the table becomes one statement for each
    table it is copied to, on a connection of its own. *)

From stdpp Require Import prelude gmap strings.
From S2P Require Import Prelude Fhtypes Fcd Table Kdb Libpq.
Local Open Scope Z_scope.

(** ** The clones of a table *)

(** A name in a record: [MAX_NAME_LEN] bytes up to a NUL or a blank. *)
Definition clone_name (rec : bytes) (pos : Z) : option bytes :=
  b ← sub_bytes rec pos (Z.of_nat MAX_NAME_LEN); Some (cut (cstr b) 32).

(** src/replicator.c:89-113 get_clones (one record) *)
Definition clone_of (rec : bytes) : option clone_t :=
  let n := Z.of_nat MAX_NAME_LEN in
  let pos := n + 3 in
  col1 ← clone_name rec pos;
  schema ← clone_name rec (pos + n);
  name ← clone_name rec (pos + 2 * n);
  col2 ← clone_name rec (pos + 3 * n);
  key ← sub_bytes rec (pos + 4 * n) 1;
  concat ← sub_bytes rec (pos + 4 * n + 1) 1;
  Some (mk_clone schema name col1 col2 (byte_at key 0) (byte_at concat 0)).

(** src/replicator.c:32-50 get_clones (the control block): one key, the first 33 bytes. *)
Definition replica_kdb : bytes :=
  blit (blit (blit (blit (blit (blit (replicate 40 0) 0 (putshort 40)) 6 (putshort 1)) 14 (putshort 1)) 16 (putshort 30))
    32 (putint 0)) 36 (putint 33).
Definition replica_fcd (name : bytes) : fcd_t :=
  mk_fcd [0; 0] 2 132 128 (putshort (Z.of_nat (length name))) 0 (replicate 8 0) (putshort 155) (putshort 0)
    (replicate 156 0) name replica_kdb (putint 0) 0 0 (replicate 4 0) 0 0.

Section clones.
Context {W : Type} `{!Extfh W}.

(** The files, and the control block once it is set up. *)
Notation rs := (W * option fcd_t)%type.

Definition on_rep {A} (m : M W A) : M rs A := λ s, let (w, r) := m (fst s) in ((w, snd s), r).
Definition keep_fcd (f : fcd_t) : M rs unit := modify (λ s, (fst s, Some f)).

(** src/replicator.c:78-119 get_clones (the loop) : every record from the start on, whatever
    its table. *)
Fixpoint clones_loop (fuel : nat) (f : fcd_t) (clones : list clone_t) : M rs (list clone_t) :=
  match fuel with
  | O => stop NoFuel
  | S fuel' =>
      f ← on_rep (extfh OP_READ_NEXT f);
      keep_fcd f;;
      if negb (memeq (status f) ST_OK 2) then mret clones
      else
        c ← of_option (clone_of (record f));
        clones_loop fuel' f (clones ++ [c])
  end.

(** src/replicator.c:11-122 get_clones : [replica] is the name of the file when there is a
    connection to copy the updates on. *)
Definition get_clones (replica : option bytes) (fuel : nat) (tabname : bytes) : M rs (list clone_t) :=
  match replica with
  | None => mret []
  | Some name =>
      o ← gets snd;
      f ← (match o with
           | Some f => mret f
           | None =>
               f ← on_rep (extfh OP_OPEN_INPUT (replica_fcd name));
               mret (if memeq (status f) ST_OK 2 then set_open_mode 0 f else f)
           end);
      keep_fcd f;;
      if open_mode f =? 128 then mret []
      else
        guard_fault (length tabname <=? 156)%nat;;
        f ← on_rep (extfh OP_START_GE (set_rec (blit (replicate 156 0) 0 tabname) f));
        keep_fcd f;;
        clones_loop fuel f []
  end.

End clones.

(** ** The statements *)

(** The texts of a list with a separator. *)
Fixpoint join (sep : bytes) (l : list bytes) : bytes :=
  match l with
  | [] => []
  | [x] => x
  | x :: l' => x ++ sep ++ join sep l'
  end.

(** src/replicator.c:153-165 write_clone (a value): the text in the buffer of the column,
    between quotes when it is not a number; nothing when the table has no such column.  A
    buffer the update has not set is out of the model. *)
Definition clone_value (t : table_t) (bufs : list bytes) (c : clone_t) : option bytes :=
  match head (filter (λ col, col_name col = k_col1 c) (t_columns t)) with
  | None => Some []
  | Some col =>
      b ← bufs !! col_p col;
      let q := if is_num col then [] else bs "'" in
      Some (q ++ b ++ q)
  end.

(** The columns of the same table on the replica. *)
Definition clones_at (clone : clone_t) (clones : list clone_t) : list clone_t := filter (λ c, k_name c = k_name clone) clones.

(** [col2=value], one for each column. *)
Definition clone_sets (t : table_t) (bufs : list bytes) (l : list clone_t) : option (list bytes) :=
  mapM (λ c, v ← clone_value t bufs c; Some (k_col2 c ++ bs "=" ++ v)) l.

Definition clone_table (clone : clone_t) : bytes := k_schema clone ++ bs "." ++ k_name clone.

(** src/replicator.c:132-169 write_clone (the statement) *)
Definition write_text (t : table_t) (bufs : list bytes) (clones : list clone_t) (clone : clone_t) : option bytes :=
  let l := clones_at clone clones in
  vs ← mapM (clone_value t bufs) l;
  Some (bs "insert into " ++ clone_table clone ++ bs "(" ++ join (bs ", ") (k_col2 <$> l) ++ bs ") values (" ++
    join (bs ", ") vs ++ bs ")").

(** src/replicator.c:197-249 rewrite_clone (the statement) *)
Definition rewrite_text (t : table_t) (bufs : list bytes) (clones : list clone_t) (clone : clone_t) : option bytes :=
  let l := clones_at clone clones in
  sets ← clone_sets t bufs (filter (λ c, k_key c = ch "N") l);
  keys ← clone_sets t bufs (filter (λ c, k_key c = ch "S") l);
  Some (bs "update " ++ clone_table clone ++ bs " set " ++ join (bs ", ") sets ++ bs " where " ++ join (bs " and ") keys).

(** src/replicator.c:277-302 delete_clone (the statement) *)
Definition delete_text (t : table_t) (bufs : list bytes) (clones : list clone_t) (clone : clone_t) : option bytes :=
  keys ← clone_sets t bufs (filter (λ c, k_key c = ch "S") (clones_at clone clones));
  Some (bs "delete from " ++ clone_table clone ++ bs " where " ++ join (bs " and ") keys).

Section statements.
Context {D : Type} `{!Libpq D}.

(** src/replicator.c:171-187 write_clone (the execution), the same in the other two: a
    statement that fails ends the process. *)
Definition exec_clone (sql : option bytes) : M D unit :=
  sql ← of_option sql;
  guard_fault (Z.of_nat (length sql) <=? MAX_REC_LEN);;
  res ← (λ d, let (d', r) := PQexec sql d in (d', inr r));
  if bool_decide (rs_status res = PGRES_COMMAND_OK) then mret tt else stop Exit.

(** src/replicator.c:124-187 write_clone *)
Definition write_clone (t : table_t) (bufs : list bytes) (clone : clone_t) (clones : list clone_t) : M D unit :=
  exec_clone (write_text t bufs clones clone).

(** src/replicator.c:189-267 rewrite_clone *)
Definition rewrite_clone (t : table_t) (bufs : list bytes) (clone : clone_t) (clones : list clone_t) : M D unit :=
  exec_clone (rewrite_text t bufs clones clone).

(** src/replicator.c:269-320 delete_clone *)
Definition delete_clone (t : table_t) (bufs : list bytes) (clone : clone_t) (clones : list clone_t) : M D unit :=
  exec_clone (delete_text t bufs clones clone).

(** src/replicator.c:326-336 replica_write (the loop), the same in the other two: a table is
    done when the name changes. *)
Fixpoint each_clone (f : clone_t → M D unit) (last : option clone_t) (l : list clone_t) : M D unit :=
  match l with
  | [] => match last with Some c => f c | None => mret tt end
  | clone :: l' =>
      (match last with
       | Some c => if bool_decide (k_name c = k_name clone) then mret tt else f c
       | None => mret tt
       end);;
      each_clone f (Some clone) l'
  end.

(** src/replicator.c:322-337 replica_write *)
Definition replica_write (t : table_t) (bufs : list bytes) : M D unit :=
  each_clone (λ c, write_clone t bufs c (t_clones t)) None (t_clones t).

(** src/replicator.c:339-354 replica_rewrite *)
Definition replica_rewrite (t : table_t) (bufs : list bytes) : M D unit :=
  each_clone (λ c, rewrite_clone t bufs c (t_clones t)) None (t_clones t).

(** src/replicator.c:356-371 replica_delete *)
Definition replica_delete (t : table_t) (bufs : list bytes) : M D unit :=
  each_clone (λ c, delete_clone t bufs c (t_clones t)) None (t_clones t).

(** The call of an update: [i]nsert, [u]pdate or [d]elete. *)
Definition replica_call (cmd : Z) (t : table_t) (bufs : list bytes) : M D unit :=
  if cmd =? ch "i" then replica_write t bufs
  else if cmd =? ch "u" then replica_rewrite t bufs
  else replica_delete t bufs.

End statements.
