(* ===== verification/ReplicatorSpec.v ===== *)
(** The copies of a table on the other database: with a server that runs inserts, updates
    and deletes, every update of the table does the same to each of its copies. *)

From stdpp Require Import prelude gmap strings.
From S2P Require Import Prelude Fhtypes Fcd Table Kdb Libpq Replicator.
Local Open Scope Z_scope.

(** ** The server of the copies *)

(** A value in a statement: a number, or a text between quotes. *)
Abbreviation literal := (bool * bytes)%type.

Definition lit_text (v : literal) : bytes := let q := if v.1 then [] else bs "'" in q ++ v.2 ++ q.

Definition numeric (x : Z) : bool := isdigit x || (x =? ch ".") || (x =? ch "-").

(** A text has no quote: the program does not double them. *)
Definition lit_ok (v : literal) : Prop :=
  if v.1 then v.2 ≠ [] ∧ Forall (λ x, numeric x = true) v.2 else 39 ∉ v.2 ∧ 0 ∉ v.2.

Definition name_char (x : Z) : bool := negb (bool_decide (x ∈ [0; 32; 40; 41; 44; 61])).
Definition name_ok (n : bytes) : Prop := n ≠ [] ∧ Forall (λ x, name_char x = true) n.

(** The statements: the columns with their values, and those of the condition. *)
Inductive change :=
  | Ins (vs : list (bytes * literal))
  | Upd (sets keys : list (bytes * literal))
  | Del (keys : list (bytes * literal)).

Definition assign (kv : bytes * literal) : bytes := kv.1 ++ bs "=" ++ lit_text kv.2.

Definition change_text (table : bytes) (g : change) : bytes :=
  match g with
  | Ins vs => bs "insert into " ++ table ++ bs "(" ++ join (bs ", ") (fst <$> vs) ++ bs ") values (" ++
      join (bs ", ") (lit_text ∘ snd <$> vs) ++ bs ")"
  | Upd sets keys => bs "update " ++ table ++ bs " set " ++ join (bs ", ") (assign <$> sets) ++ bs " where " ++
      join (bs " and ") (assign <$> keys)
  | Del keys => bs "delete from " ++ table ++ bs " where " ++ join (bs " and ") (assign <$> keys)
  end.

Definition pair_ok (kv : bytes * literal) : Prop := name_ok kv.1 ∧ lit_ok kv.2.
Definition change_ok (g : change) : Prop :=
  match g with
  | Ins vs => vs ≠ [] ∧ Forall pair_ok vs
  | Upd sets keys => sets ≠ [] ∧ keys ≠ [] ∧ Forall pair_ok sets ∧ Forall pair_ok keys
  | Del keys => keys ≠ [] ∧ Forall pair_ok keys
  end.

Section rows.
(** What a column of a table stores for a value. *)
Context (canon : bytes → bytes → literal → bytes).

Definition vals (table : bytes) (vs : list (bytes * literal)) : gmap bytes bytes :=
  list_to_map ((λ kv, (kv.1, canon table kv.1 kv.2)) <$> vs).

Definition row_match (table : bytes) (keys : list (bytes * literal)) (row : gmap bytes bytes) : Prop :=
  Forall (λ kv, row !! kv.1 = Some (canon table kv.1 kv.2)) keys.

#[global] Instance row_match_dec table keys row : Decision (row_match table keys row).
Proof. unfold row_match. apply _. Defined.

Definition apply_change (table : bytes) (g : change) (rows : list (gmap bytes bytes)) : list (gmap bytes bytes) :=
  match g with
  | Ins vs => vals table vs :: rows
  | Upd sets keys => (λ row, if decide (row_match table keys row) then vals table sets ∪ row else row) <$> rows
  | Del keys => filter (λ row, ¬ row_match table keys row) rows
  end.

End rows.

(** The tables of the server have the columns named and no constraint a change breaks. *)
Class PgReplica (D : Type) `{!Libpq D} := {
  rp_rows : D → bytes → list (gmap bytes bytes);
  rp_canon : bytes → bytes → literal → bytes;
  rp_exec d table g : name_ok table → change_ok g →
    ∃ d', PQexec (change_text table g) d = (d', mk_res PGRES_COMMAND_OK []) ∧
      ∀ t, rp_rows d' t = if decide (t = table) then apply_change rp_canon table g (rp_rows d t) else rp_rows d t;
}.

(** ** Which table gets a statement *)

(** The last column of each table: the one the statement is written for. *)
Fixpoint targets (last : option clone_t) (l : list clone_t) : list clone_t :=
  match l with
  | [] => match last with Some c => [c] | None => [] end
  | clone :: l' =>
      (match last with
       | Some c => if bool_decide (k_name c = k_name clone) then [] else [c]
       | None => []
       end) ++ targets (Some clone) l'
  end.

Section replica.
Context {D : Type} `{!Libpq D, !PgReplica D}.

Fixpoint run_all (f : clone_t → M D unit) (l : list clone_t) : M D unit :=
  match l with [] => mret tt | c :: l' => f c;; run_all f l' end.

Lemma each_clone_run f last l d : each_clone f last l d = run_all f (targets last l) d.
Proof.
  revert last d. induction l as [|c l IH]; intros last d; cbn [each_clone targets].
  - destruct last as [c|]; [|done]. cbn [run_all]. unfold mbind, M_bind. by destruct (f c d) as [d' [e|[]]].
  - destruct last as [c'|]; [|apply IH]. destruct (bool_decide _); [apply IH|]. cbn [app run_all].
    unfold mbind, M_bind. destruct (f c' d) as [d' [e|[]]]; [done|apply IH].
Qed.

Lemma exec_change table g d : name_ok table → change_ok g → Z.of_nat (length (change_text table g)) <= MAX_REC_LEN →
  ∃ d', exec_clone (Some (change_text table g)) d = (d', inr tt) ∧
    ∀ t, rp_rows d' t = if decide (t = table) then apply_change rp_canon table g (rp_rows d t) else rp_rows d t.
Proof.
  intros Ht Hg Hl. destruct (rp_exec d table g Ht Hg) as (d' & E & Hd). exists d'. split; [|done].
  unfold exec_clone. cbn [of_option]. rewrite (bind_ok _ _ d d _ eq_refl). rewrite (proj2 (Z.leb_le _ _) Hl). cbn [guard_fault].
  rewrite (bind_ok _ _ d d _ eq_refl). erewrite bind_ok by (cbv beta; rewrite E; reflexivity). done.
Qed.

(** ** The copies *)

Context (t : table_t) {K : Type} `{!EqDecision K} (pk : bytes → K).
Notation clones := (t_clones t).

(** The column of the table a clone copies, and the value a record has in it. *)
Definition clone_col (c : clone_t) : option column_t := head (filter (λ col, col_name col = k_col1 c) (t_columns t)).
Definition clone_lit (r : bytes) (c : clone_t) : literal :=
  match clone_col c with Some col => (is_num col, text_of_field col (field_at r col)) | None => (true, []) end.
Definition clone_pair (r : bytes) (c : clone_t) : bytes * literal := (k_col2 c, clone_lit r c).

(** The buffer of a column has its text. *)
Definition sent (bufs : list bytes) (r : bytes) (c : clone_t) : Prop :=
  ∃ col, clone_col c = Some col ∧ bufs !! col_p col = Some (text_of_field col (field_at r col)).

Definition is_key (c : clone_t) : Prop := k_key c = ch "S".
Definition keys_at (c : clone_t) : list clone_t := filter is_key (clones_at c clones).
Definition sets_at (c : clone_t) : list clone_t := filter (λ x, k_key x = ch "N") (clones_at c clones).

(** The row of a record in the copy [c]. *)
Definition image (c : clone_t) (r : bytes) : gmap bytes bytes :=
  vals rp_canon (clone_table c) (clone_pair r <$> clones_at c clones).

(** The columns of each copy stand together in the file of replicas and have distinct
    names; some are the key, the others are not. *)
Record clones_ok : Prop := {
  co_tables : NoDup (clone_table <$> targets None clones);
  co_names c : c ∈ targets None clones → name_ok (clone_table c) ∧ NoDup (k_col2 <$> clones_at c clones);
  co_keys c : c ∈ targets None clones → keys_at c ≠ [] ∧ sets_at c ≠ [] ∧
    Forall (λ x, is_key x ∨ k_key x = ch "N") (clones_at c clones);
}.

(** The values of a record can be sent, in statements that fit their buffer. *)
Record sendable (r : bytes) : Prop := {
  sd_pairs c : c ∈ targets None clones → Forall pair_ok (clone_pair r <$> clones_at c clones);
  sd_fits c g : c ∈ targets None clones →
    g ∈ [Ins (clone_pair r <$> clones_at c clones); Upd (clone_pair r <$> sets_at c) (clone_pair r <$> keys_at c); Del (clone_pair r <$> keys_at c)] →
    Z.of_nat (length (change_text (clone_table c) g)) <= MAX_REC_LEN;
}.

(** The copies hold the records [recs]. *)
Definition mirrors (d : D) (recs : list bytes) : Prop :=
  ∀ c, c ∈ targets None clones → rp_rows d (clone_table c) = image c <$> recs.

(** What the copy [c] stores of a record in the column of [x]. *)
Definition stored (c : clone_t) (r : bytes) (x : clone_t) : bytes := rp_canon (clone_table c) (k_col2 x) (clone_lit r x).

(** The key of a copy tells the same records apart as the primary key. *)
Definition same_keys (r : bytes) (recs : list bytes) : Prop :=
  ∀ c x, c ∈ targets None clones → x ∈ recs →
    Forall (λ y, stored c x y = stored c r y) (keys_at c) ↔
    pk x = pk r.

Lemma clone_value_sent bufs r c : sent bufs r c → clone_value t bufs c = Some (lit_text (clone_lit r c)).
Proof.
  intros (col & Hc & Hb). unfold clone_value, clone_lit. fold (clone_col c). rewrite Hc, Hb. cbn [mbind option_bind].
  unfold lit_text. by destruct (is_num col).
Qed.

Lemma clone_values_sent bufs r l : Forall (sent bufs r) l → mapM (clone_value t bufs) l = Some (lit_text ∘ snd <$> (clone_pair r <$> l)).
Proof.
  induction 1 as [|c l Hc _ IH]; [done|]. cbn [mapM]. rewrite (clone_value_sent _ _ _ Hc). cbn [mbind option_bind]. by rewrite IH.
Qed.

Lemma clone_sets_sent bufs r l : Forall (sent bufs r) l → clone_sets t bufs l = Some (assign <$> (clone_pair r <$> l)).
Proof.
  unfold clone_sets. induction 1 as [|c l Hc _ IH]; [done|]. cbn [mapM]. rewrite (clone_value_sent _ _ _ Hc). cbn [mbind option_bind]. by rewrite IH.
Qed.

(** One statement for each copy takes all of them from some records to others. *)
Lemma run_all_mirrors (f : clone_t → M D unit) (g : clone_t → change) l recs recs' d :
  (∀ c d, c ∈ l → ∃ d', f c d = (d', inr tt) ∧
    ∀ tb, rp_rows d' tb = if decide (tb = clone_table c) then apply_change rp_canon (clone_table c) (g c) (rp_rows d tb) else rp_rows d tb) →
  NoDup (clone_table <$> l) →
  (∀ c, c ∈ l → apply_change rp_canon (clone_table c) (g c) (image c <$> recs) = image c <$> recs') →
  (∀ c, c ∈ l → rp_rows d (clone_table c) = image c <$> recs) →
  ∃ d', run_all f l d = (d', inr tt) ∧ (∀ c, c ∈ l → rp_rows d' (clone_table c) = image c <$> recs') ∧
    ∀ tb, tb ∉ clone_table <$> l → rp_rows d' tb = rp_rows d tb.
Proof.
  intros Hf Hnd Hap. revert d. induction l as [|c l IH]; intros d Hd; [exists d; split; [done|]; split; [by intros c ?%elem_of_nil|done]|].
  rewrite fmap_cons in Hnd. apply NoDup_cons in Hnd as [Hn Hnd]. destruct (Hf c d ltac:(by left)) as (d1 & E1 & H1).
  destruct (IH (λ x dx Hx, Hf x dx (list_elem_of_further x c l Hx)) Hnd (λ x Hx, Hap x (list_elem_of_further x c l Hx)) d1) as (d2 & E2 & H2 & K2).
  { intros x Hx. rewrite H1, decide_False; [apply Hd; by right|]. intros E. apply Hn. rewrite <-E. by apply list_elem_of_fmap_2. }
  exists d2. cbn [run_all]. rewrite (bind_ok _ _ _ _ _ E1). split; [done|]. split.
  - intros x [->|Hx]%elem_of_cons; [|by apply H2]. rewrite K2 by done. rewrite H1, decide_True by done. rewrite Hd by by left. apply Hap. by left.
  - intros tb Htb. rewrite fmap_cons in Htb. apply not_elem_of_cons in Htb as [Hne Htb]. rewrite K2 by done. rewrite H1. by rewrite decide_False.
Qed.

Lemma vals_lookup c r l k :
  vals rp_canon (clone_table c) (clone_pair r <$> l) !! k = stored c r <$> head (filter (λ x, k_col2 x = k) l).
Proof.
  unfold vals. rewrite <-list_fmap_compose. induction l as [|x l IH]; [done|]. rewrite fmap_cons, filter_cons.
  change (compose _ _ x) with (k_col2 x, stored c r x). rewrite list_to_map_cons.
  destruct (decide (k_col2 x = k)) as [<-|Hne]; [apply lookup_insert_eq|by rewrite lookup_insert_ne].
Qed.

Lemma head_col l x : NoDup (k_col2 <$> l) → x ∈ l → head (filter (λ y, k_col2 y = k_col2 x) l) = Some x.
Proof.
  induction l as [|y l IH]; [by intros _ ?%elem_of_nil|]. rewrite fmap_cons, filter_cons. intros [Hn Hnd]%NoDup_cons [->|Hx]%elem_of_cons.
  - by rewrite decide_True.
  - rewrite decide_False; [by apply IH|]. intros E. apply Hn. rewrite E. by apply list_elem_of_fmap_2.
Qed.

Section one.
Context (Hok : clones_ok) (c : clone_t) (Hc : c ∈ targets None clones).

Lemma keys_in x : x ∈ keys_at c → x ∈ clones_at c clones.
Proof. by intros [_ ?]%list_elem_of_filter. Qed.

Lemma image_lookup r x : x ∈ clones_at c clones → image c r !! k_col2 x = Some (stored c r x).
Proof. intros Hx. unfold image. rewrite vals_lookup, (head_col _ x); [done|apply (co_names Hok c Hc)|done]. Qed.

Lemma match_image r x : row_match rp_canon (clone_table c) (clone_pair r <$> keys_at c) (image c x) ↔
  Forall (λ y, stored c x y = stored c r y) (keys_at c).
Proof.
  unfold row_match. rewrite Forall_fmap, !Forall_forall.
  assert (∀ y, y ∈ keys_at c → image c x !! k_col2 y = Some (stored c r y) ↔ stored c x y = stored c r y) as H.
  { intros y Hy. rewrite image_lookup by by apply keys_in. split; [by intros [= E]|by intros ->]. }
  split; intros Hall y Hy; apply H; try done; by apply Hall.
Qed.

(** The columns that are set take a row with the same key to the row of the record. *)
Lemma update_image r x : Forall (λ y, stored c x y = stored c r y) (keys_at c) →
  vals rp_canon (clone_table c) (clone_pair r <$> sets_at c) ∪ image c x = image c r.
Proof.
  intros Hk. destruct (co_keys Hok c Hc) as (_ & _ & Hall). rewrite Forall_forall in Hk, Hall.
  apply map_eq. intros k. destruct (head (filter (λ y, k_col2 y = k) (sets_at c))) as [y|] eqn:Ey.
  - apply head_Some_elem_of in Ey as Hy. apply list_elem_of_filter in Hy as [<- [_ Hy]%list_elem_of_filter].
    rewrite image_lookup by done. apply lookup_union_Some_l. by rewrite vals_lookup, Ey.
  - rewrite lookup_union_r by by rewrite vals_lookup, Ey. unfold image. rewrite !vals_lookup.
    destruct (head (filter (λ y, k_col2 y = k) (clones_at c clones))) as [y|] eqn:Ez; [|done]. cbn. f_equal.
    apply head_Some_elem_of in Ez as Hy. apply list_elem_of_filter in Hy as [Hyk Hy].
    apply Hk. apply list_elem_of_filter. split; [|done]. destruct (Hall y Hy) as [?|Hn]; [done|]. exfalso.
    destruct (filter _ (sets_at c)) as [|z l] eqn:Ef; [|done]. eapply filter_nil_not_elem_of; [exact Ef|exact Hyk|]. by apply list_elem_of_filter.
Qed.

Lemma update_images r recs : same_keys r recs →
  apply_change rp_canon (clone_table c) (Upd (clone_pair r <$> sets_at c) (clone_pair r <$> keys_at c)) (image c <$> recs) =
  image c <$> ((λ x, if decide (pk x = pk r) then r else x) <$> recs).
Proof.
  intros Hs. cbn [apply_change]. rewrite <-!list_fmap_compose. apply list_fmap_ext. intros i x Hx%list_elem_of_lookup_2. unfold compose.
  specialize (Hs c x Hc Hx).  destruct (decide (pk x = pk r)) as [E|E].
  - rewrite decide_True by by apply match_image, Hs. by apply update_image, Hs.
  - by rewrite decide_False by by rewrite match_image, Hs.
Qed.

Lemma delete_images r recs : same_keys r recs →
  apply_change rp_canon (clone_table c) (Del (clone_pair r <$> keys_at c)) (image c <$> recs) =
  image c <$> filter (λ x, pk x ≠ pk r) recs.
Proof.
  intros Hs. cbn [apply_change]. induction recs as [|x recs IH]; [done|]. rewrite fmap_cons, !filter_cons.
  specialize (Hs c x Hc ltac:(by left)) as Hx. rewrite <-match_image in Hx.
  assert (same_keys r recs) as Hs' by (intros c' y Hc' Hy; apply Hs; [done|by right]).
  destruct (decide (¬ row_match _ _ _ _)), (decide (pk x ≠ pk r)); [rewrite fmap_cons; f_equal; by apply IH|tauto|tauto|by apply IH].
Qed.

End one.

(** The buffers have the texts of the columns the statement takes. *)
Definition sends (cmd : Z) (bufs : list bytes) (r : bytes) : Prop :=
  ∀ c x, c ∈ targets None clones → x ∈ clones_at c clones → cmd ≠ ch "d" ∨ is_key x → sent bufs r x.

(** The records after an update of the table. *)
Definition updated (cmd : Z) (r : bytes) (recs : list bytes) : list bytes :=
  if cmd =? ch "i" then r :: recs
  else if cmd =? ch "u" then (λ x, if decide (pk x = pk r) then r else x) <$> recs
  else filter (λ x, pk x ≠ pk r) recs.

(** C17: Every update of a table with copies does the same to each of its copies: when they
    hold the records of the table, and the buffers have the texts of the record, they hold
    the records after the write, the rewrite or the delete; nothing else changes on the
    server of the copies. *)
Theorem replica_mirrors cmd bufs r recs d : clones_ok → cmd ∈ [ch "i"; ch "u"; ch "d"] → sendable r → sends cmd bufs r →
  same_keys r recs → mirrors d recs →
  ∃ d', replica_call cmd t bufs d = (d', inr tt) ∧ mirrors d' (updated cmd r recs) ∧
    ∀ tb, tb ∉ clone_table <$> targets None clones → rp_rows d' tb = rp_rows d tb.
Proof.
  intros Hok Hcmd [Hp Hfit] Hs Hkeys Hm.
  assert (∀ c, c ∈ targets None clones → Forall pair_ok (clone_pair r <$> keys_at c) ∧ Forall pair_ok (clone_pair r <$> sets_at c)) as Hp2.
  { intros c Hc. specialize (Hp c Hc). rewrite Forall_fmap in Hp. rewrite !Forall_fmap. rewrite Forall_forall in Hp.
    split; apply Forall_forall; intros x [_ Hx]%list_elem_of_filter; auto. }
  assert (∀ f g, (∀ c, c ∈ targets None clones → (f c : M D unit) = exec_clone (Some (change_text (clone_table c) (g c))) ∧ change_ok (g c) ∧
      Z.of_nat (length (change_text (clone_table c) (g c))) <= MAX_REC_LEN ∧
      apply_change rp_canon (clone_table c) (g c) (image c <$> recs) = image c <$> updated cmd r recs) →
    ∃ d', each_clone f None clones d = (d', inr tt) ∧ mirrors d' (updated cmd r recs) ∧
      ∀ tb, tb ∉ clone_table <$> targets None clones → rp_rows d' tb = rp_rows d tb) as Hgo.
  { intros f g Hf. rewrite each_clone_run. apply (run_all_mirrors f g _ recs); [|apply Hok|by intros c Hc; apply Hf|done].
    intros c d0 Hc. destruct (Hf c Hc) as (-> & Hg & Hl & _). apply exec_change; [by apply (co_names Hok)|done|done]. }
  unfold replica_call, updated in *. rewrite !elem_of_cons, elem_of_nil in Hcmd. destruct Hcmd as [->|[->|[->|[]]]].
  - apply (Hgo _ (λ c, Ins (clone_pair r <$> clones_at c clones))). intros c Hc. split; [|split; [|split; [|done]]].
    + unfold write_clone, write_text. cbv zeta. rewrite (clone_values_sent bufs r); [|apply Forall_forall; intros x Hx; by apply (Hs c x); [| |left]].
      cbn [mbind option_bind change_text]. by rewrite <-!list_fmap_compose.
    + split; [|by apply Hp]. destruct (co_keys Hok c Hc) as (Hk & _). unfold keys_at in Hk. by destruct (clones_at c clones).
    + apply Hfit; [done|]. by left.
  - apply (Hgo _ (λ c, Upd (clone_pair r <$> sets_at c) (clone_pair r <$> keys_at c))). intros c Hc. split; [|split; [|split]].
    + unfold rewrite_clone, rewrite_text. cbv zeta. fold (sets_at c) (keys_at c).
      rewrite !(clone_sets_sent bufs r); [done| |]; apply Forall_forall; intros x [_ Hx]%list_elem_of_filter; by apply (Hs c x); [| |left].
    + destruct (co_keys Hok c Hc) as (Hk & Hn & _). split; [by destruct (sets_at c)|]. split; [by destruct (keys_at c)|]. by split; apply Hp2.
    + apply Hfit; [done|]. right; by left.
    + by apply update_images.
  - apply (Hgo _ (λ c, Del (clone_pair r <$> keys_at c))). intros c Hc. split; [|split; [|split]].
    + unfold delete_clone, delete_text. fold (keys_at c).
      rewrite (clone_sets_sent bufs r); [done|]. apply Forall_forall; intros x [Hx1 Hx]%list_elem_of_filter. apply (Hs c x); [done|done|by right].
    + destruct (co_keys Hok c Hc) as (Hk & _). split; [by destruct (keys_at c)|]. by apply Hp2.
    + apply Hfit; [done|]. right; right; by left.
    + by apply delete_images.
Qed.

End replica.
