(* ===== verification/Meta.v ===== *)
(** Opening and closing a table (src/op_open.c, src/op_close.c, src/meta.c): its columns,
    keys and schema from the catalog of the server or from the cache (src/cache.c), whether
    the dictionary says it is in the database, and its creation, removal and truncation
    (src/create_table.c, src/delete_file.c, src/copy_table.c). *)

From stdpp Require Import prelude gmap strings.
From S2P Require Import Prelude Fhtypes Fcd Table Kdb Libpq Replicator.
Local Open Scope Z_scope.

(** The environment of the process: [e_force] is PQFH_FORCE_BD, [e_force_bd] the flag it
    sets with another value, the names of the two dictionary files, the name of the file of
    replicas when there is a connection to replicate on.  The web services ([api]) are not configured. *)
Record env_t := mk_env {
  e_force : bool;
  e_force_bd : bool;
  e_dict : bytes;
  e_prefixes : bytes;
  e_replica : option bytes;
}.

(** The database side, the ISAM files, the control blocks of the dictionary files and of
    the file of replicas once they are set up. *)
Record mst (D W : Type) := mk_ms {
  m_db : dbs D;
  m_isam : W;
  m_fcd01 : option fcd_t;
  m_fcd02 : option fcd_t;
  m_replica : option fcd_t;
}.
Arguments mk_ms {D W} _ _ _ _ _.
Arguments m_db {D W} _.
Arguments m_isam {D W} _.
Arguments m_fcd01 {D W} _.
Arguments m_fcd02 {D W} _.
Arguments m_replica {D W} _.

(** ** The cache: the entries in the order they were put, the pointer at the last. *)

Definition with_name (name : bytes) (t : table_t) : bool := bool_decide (t_name t = name).

(** src/cache.c:10-54 cache_get : the last entry of the name. *)
Definition cache_get (cache : list table_t) (name : bytes) : option table_t :=
  head (filter (λ t, with_name name t) (rev cache)).

(** What an entry keeps of a table; the other fields are not read. *)
Definition cache_entry (t : table_t) : table_t :=
  mk_table (t_name t) (t_convertida t) (t_schema t) (t_dictname t) (t_columns t) (t_keys t)
    (replicate MAX_KEYS false) false false false 0 0 [] [] 0 [] [] (replicate MAX_KEYS []) [] [] [] false [] (t_oid t) false 0.

(** src/cache.c:57-94 cache_put : the positions of the columns of a key are found by their
    addresses. *)
Definition cache_put (cache : list table_t) (t : table_t) : list table_t := cache ++ [cache_entry t].

(** The first entry of a name is taken out. *)
Fixpoint drop_name (name : bytes) (l : list table_t) : list table_t :=
  match l with [] => [] | t :: l' => if with_name name t then l' else t :: drop_name name l' end.

(** src/cache.c:97-109 cache_remove : the last entry of the name goes. *)
Definition cache_remove (cache : list table_t) (name : bytes) : list table_t := rev (drop_name name (rev cache)).

(** ** The dictionary *)

(** The key definition block of a dictionary file: the components of its two keys. *)
Definition dict_kdb (c0 c1 c2 : Z * Z) : bytes :=
  let put off b s := blit s off b in
  let comp off (c : Z * Z) s := put (off + 6)%nat (putint (snd c)) (put (off + 2)%nat (putint (fst c)) s) in
  comp 66%nat c2 (comp 56%nat c1 (comp 46%nat c0
    (put 32%nat (putshort 56) (put 30%nat (putshort 2) (put 16%nat (putshort 46) (put 14%nat (putshort 1)
      (put 6%nat (putshort 2) (put 0%nat (putshort 76) (replicate 76 0))))))))).

Definition dict_fcd (name kdb : bytes) : fcd_t :=
  mk_fcd [0; 0] 2 132 128 (putshort (Z.of_nat (length name))) 0 (replicate 8 0) (putshort 256) (putshort 0)
    (replicate 256 0) name kdb (putint 0) 0 0 (replicate 4 0) 0 0.

(** [memset(record, 0, 256); memcpy(record, name, strlen(name))] *)
Definition dict_key (name : bytes) : bytes := blit (replicate 256 0) 0 name.

(** src/meta.c:413-432 nome_dicionario (the prefix): digits of the second to fourth
    characters become blanks from the end, a longer prefix stops at a digit. *)
Fixpoint blank_digits (i : nat) (s : bytes) : bytes :=
  match i with
  | O => s
  | S i' => if isdigit (byte_at s i) then blank_digits i' (<[i:=32]> s) else s
  end.
Fixpoint until_digit (s : bytes) : bytes :=
  match s with [] => [] | c :: s' => if isdigit c then [] else c :: until_digit s' end.
Definition prefixo (tabela : bytes) : option bytes :=
  if (length tabela <? 4)%nat then None
  else
    let s := blank_digits 3 tabela in
    Some (if byte_at s 3 =? 32 then take 4 s else take 4 s ++ until_digit (drop 4 s)).

(** ** The catalog *)

Definition columns_sql (name : bytes) : bytes :=
  bs "declare cursor_columns cursor for  " ++ [10] ++
  bs "select column_name,data_type,character_maximum_length,numeric_precision,numeric_scale" ++ [10] ++
  bs "    from information_schema.columns" ++ [10] ++ bs "    where table_name = '" ++ name ++ bs "'" ++ [10] ++
  bs "    order by ordinal_position".
Definition oid_sql (name : bytes) : bytes := bs "SELECT oid FROM pg_class where relname='" ++ name ++ bs "'".
Definition schema_sql (name : bytes) : bytes :=
  bs "declare cursor_tables cursor for  " ++ [10] ++ bs "select table_schema" ++ [10] ++
  bs "    from information_schema.tables" ++ [10] ++ bs "    where table_name = '" ++ name ++ bs "'".

(** src/meta.c:110-131 table_info (one column): [None] for a type that is not supported. *)
Definition catalog_column (row : list bytes) (offset : nat) : option column_t :=
  let at_ i := default [] (row !! i) in
  if bool_decide (at_ 1%nat = bs "numeric") then
    Some (mk_col (at_ 0%nat) (ch "n") (Z.to_nat (atoi (at_ 3%nat))) (Z.to_nat (atoi (at_ 4%nat))) offset false 0)
  else if bool_decide (at_ 1%nat = bs "character") || bool_decide (at_ 1%nat = bs "character varying") then
    Some (mk_col (at_ 0%nat) (ch "s") (Z.to_nat (atoi (at_ 2%nat))) 0 offset false 0)
  else None.

Section meta.
Context {D : Type} `{!Libpq D} {W : Type} `{!Extfh W} (env : env_t) (fuel : nat).
Notation ms := (mst D W).

Definition on_db {A} (m : M (dbs D) A) : M ms A := λ s,
  let (x, r) := m (m_db s) in (mk_ms x (m_isam s) (m_fcd01 s) (m_fcd02 s) (m_replica s), r).
Definition on_files {A} (m : M W A) : M ms A := λ s,
  let (w, r) := m (m_isam s) in (mk_ms (m_db s) w (m_fcd01 s) (m_fcd02 s) (m_replica s), r).
Definition set_fcd01 (f : fcd_t) : M ms unit := modify (λ s, mk_ms (m_db s) (m_isam s) (Some f) (m_fcd02 s) (m_replica s)).
Definition set_fcd02 (f : fcd_t) : M ms unit := modify (λ s, mk_ms (m_db s) (m_isam s) (m_fcd01 s) (Some f) (m_replica s)).

(** The control block of a dictionary file, set up and opened at its first use. *)
Definition dict_open (f : option fcd_t) (name kdb : bytes) : M ms fcd_t :=
  match f with
  | Some f => mret f
  | None => on_files (extfh OP_OPEN_INPUT (dict_fcd name kdb))
  end.

(** The record a start not less than [key] and a read find. *)
Definition dict_seek (key : bytes) (f : fcd_t) : M ms fcd_t :=
  guard_fault (length key <=? 256)%nat;;
  f ← on_files (extfh OP_START_GE (set_rec (dict_key key) f));
  on_files (extfh OP_READ_NEXT f).

(** [status == "00" && !memcmp(record, key, strlen(key))] *)
Definition dict_found (key : bytes) (f : fcd_t) : bool :=
  memeq (status f) ST_OK 2 && memeq (record f) key (length key).

(** src/meta.c:271-339 tabela_convertida *)
Definition tabela_convertida (tabela : bytes) : M ms bool :=
  if e_force env then mret true
  else
    f ← gets m_fcd01;
    f ← dict_open f (e_dict env) (dict_kdb (0, 26) (20, 6) (0, 20));
    set_fcd01 f;;
    f ← dict_seek tabela f;
    set_fcd01 f;;
    mret (dict_found tabela f && (byte_at (record f) 26 =? ch "S")).

(** src/meta.c:359-458 nome_dicionario : the name in the dictionary and whether it has one
    of its own. *)
Definition nome_dicionario (tabela : bytes) : M ms (bytes * bool) :=
  if e_force env then mret (tabela, false)
  else
    f ← gets m_fcd02;
    f ← dict_open f (e_prefixes env) (dict_kdb (0, 10) (10, 20) (0, 10));
    set_fcd02 f;;
    guard_fault (length tabela <=? 32)%nat;;
    match prefixo tabela with
    | None => mret (tabela, false)
    | Some p =>
        f ← dict_seek p (set_key_id (putshort 0) f);
        set_fcd02 f;;
        if dict_found p f then mret (cut (cstr (take 20 (drop 10 (record f)))) (ch " "), true)
        else mret (tabela, false)
    end.

(** src/meta.c:201-242 get_schema *)
Definition get_schema (table : bytes) : M (dbs D) bytes :=
  if e_force_bd env then mret (bs "public")
  else
    sql ← fit MAX_REC_LEN (schema_sql table);
    res ← pq (PQexec sql);
    if negb (is_command_ok res) then mret []
    else
      res ← pq (PQexec (bs "fetch next in cursor_tables"));
      schema ← (match first_tuple res with None => mret [] | Some row => fit 32 (default [] (head row)) end);
      pq (PQexec (bs "CLOSE cursor_tables"));;
      mret schema.

(** src/meta.c:101-144 table_info (the columns): those that start inside the record are kept;
    the process ends at a type it does not know. *)
Fixpoint read_columns (n : nat) (reclen : Z) (offset : nat) : M (dbs D) (list column_t) :=
  match n with
  | O => stop NoFuel
  | S n' =>
      res ← pq (PQexec (bs "fetch next in cursor_columns"));
      match first_tuple res with
      | None => mret []
      | Some row =>
          guard_fault ((length (default [] (row !! 0%nat)) <=? MAX_NAME_LEN) && (length (default [] (row !! 1%nat)) <=? 32) &&
            (length (default [] (row !! 2%nat)) <=? 32) && (length (default [] (row !! 3%nat)) <=? 32) &&
            (length (default [] (row !! 4%nat)) <=? 32))%nat;;
          match catalog_column row offset with
          | None => stop Exit
          | Some c =>
              rest ← read_columns n' reclen (offset + col_len c);
              mret (if Z.of_nat offset <? reclen then c :: rest else rest)
          end
      end
  end.

(** src/meta.c:72-147 table_info (from the catalog): [None] when the cursor fails. *)
Definition catalog_columns (name : bytes) (reclen : Z) : M (dbs D) (option (Z * list column_t)) :=
  sql ← fit MAX_REC_LEN (oid_sql name);
  res ← pq (PQexec sql);
  let oid := match first_tuple res with None => 0 | Some row => atoi (default [] (head row)) end in
  sql ← fit MAX_REC_LEN (columns_sql name);
  res ← pq (PQexec sql);
  if negb (is_command_ok res) then mret None
  else
    cols ← read_columns fuel reclen 0;
    pq (PQexec (bs "CLOSE cursor_columns"));;
    mret (Some (oid, cols)).

(** The columns a table is replicated to. *)
Definition clones_of (name : bytes) : M ms (list clone_t) := λ s,
  let '(x, r) := get_clones (e_replica env) fuel name (m_isam s, m_replica s) in
  (mk_ms (m_db s) (fst x) (m_fcd01 s) (m_fcd02 s) (snd x), r).

Definition put_cache (t : table_t) : M (dbs D) unit :=
  u ← getd d_usecache;
  if u : bool then setd (λ g, set_d_cache (cache_put (d_cache g) t) g) else mret tt.

(** src/meta.c:20-199 table_info : the table with what was found, the control block and
    whether the table is in the database. *)
Definition table_info (t : table_t) (fcd : fcd_t) : M ms (table_t * fcd_t * bool) :=
  u ← on_db (getd d_usecache);
  cache ← on_db (getd d_cache);
  let tabcache := if u : bool then cache_get cache (t_name t) else None in
  let reclen := getshort (rec_len fcd) in
  match tabcache with
  | Some tc =>
      let t := set_t_convertida (t_convertida tc) (set_t_dictname (t_dictname tc) t) in
      if negb (t_convertida t) then mret (t, set_isam (ch "S") fcd, false)
      else
        let t := set_t_columns (t_columns tc) (set_t_oid (t_oid tc) t) in
        match t_columns tc with
        | [] => mret (t, fcd, false)
        | _ =>
            let t := set_t_schema (t_schema tc) (set_t_keys (t_keys t ++ t_keys tc) t) in
            clones ← clones_of (t_name t);
            mret (set_t_clones clones t, fcd, true)
        end
  | None =>
      d ← nome_dicionario (t_name t);
      let t := set_t_dictname (fst d) t in
      c ← tabela_convertida (t_dictname t);
      let t := set_t_convertida c t in
      if negb c then mret (t, set_isam (ch "S") fcd, false)
      else
        r ← on_db (catalog_columns (t_name t) reclen);
        match r with
        | None => mret (set_t_columns [] t, fcd, false)
        | Some (oid, []) =>
            let t := set_t_columns [] (set_t_oid oid t) in
            on_db (put_cache t);;
            mret (t, fcd, false)
        | Some (oid, cols) =>
            k ← of_option (getkeys (kdb fcd) cols);
            let t := set_t_keys (t_keys t ++ snd k) (set_t_columns (fst k) (set_t_oid oid t)) in
            schema ← on_db (get_schema (t_name t));
            clones ← clones_of (t_name t);
            let t := set_t_clones clones (set_t_schema schema t) in
            on_db (put_cache t);;
            mret (t, fcd, true)
        end
  end.

(** The file name of a control block without its directories. *)
Definition file_basename (fcd : fcd_t) : M ms bytes :=
  let fnlen := getshort (file_name_len fcd) in
  guard_fault (fnlen <=? 256);;
  f ← of_option (sub_bytes (file_name fcd) 0 fnlen);
  mret (basename (cut (cstr f) (ch " "))).

(** A table as [malloc] and the assignments leave it; the fields they do not set are not
    read before they are written. *)
Definition new_table (name ts : bytes) (partial : nat) : table_t :=
  mk_table name false [] [] [] [] (replicate MAX_KEYS false) false false false 0 (-1) [] [] (-1) [] []
    (replicate MAX_KEYS []) [] [] [] false ts 0 false partial.

(** [malloc] of a table, and [free_tab]. *)
Definition alloc_tab (t : table_t) : M (dbs D) Z := λ s,
  (mk_dbs (conn s) (gdb s) (<[tabs_brk s := t]> (tabs s)) (tabs_brk s + 1), inr (tabs_brk s)).

(** src/meta.c:460-482 free_tab *)
Definition free_tab (a : Z) : M (dbs D) unit := modify (λ s, mk_dbs (conn s) (gdb s) (delete a (tabs s)) (tabs_brk s)).

(** src/copy_table.c:61-84 truncate_table *)
Definition truncate_table (tabname : bytes) : M (dbs D) unit :=
  let tabname := basename tabname in
  schema ← get_schema tabname;
  sql ← fit 256 (bs "truncate table " ++ schema ++ bs "." ++ tabname);
  pq (PQexec sql);;
  mret tt.

(** src/copy_table.c:9-59 copy_table *)
Definition copy_table (source dest : bytes) : M (dbs D) unit :=
  let source := basename source in
  let dest := basename dest in
  schema ← get_schema dest;
  ok ← (match schema with
        | [] => mret true
        | _ => sql ← fit 256 (bs "drop table " ++ schema ++ bs "." ++ dest); res ← pq (PQexec sql); mret (is_command_ok res)
        end);
  if negb ok then mret tt
  else
    schema ← get_schema source;
    match schema with
    | [] => mret tt
    | _ =>
        sql ← fit 256 (bs "create table " ++ schema ++ bs "." ++ dest ++ bs " as select * from " ++ schema ++ bs "." ++ source);
        res ← pq (PQexec sql);
        if is_command_ok res then setd (λ g, set_d_pending (d_pending g + 1) g);; commit else mret tt
    end.

(** src/create_table.c:66-74 create_table (the table name in an index definition): every
    occurrence of the dictionary name is replaced, those the new name brings in too; the
    text goes through a buffer of 257 bytes. *)
Fixpoint rename_index (n : nat) (dict name indexdef : bytes) : M (dbs D) bytes :=
  match n with
  | O => stop NoFuel
  | S n' =>
      match strstr indexdef dict with
      | None => mret indexdef
      | Some i => aux ← fit 256 (take i indexdef ++ name ++ drop (i + length dict) indexdef); rename_index n' dict name aux
      end
  end.

(** src/create_table.c:55-65 create_table (the index name): the first occurrence gets the
    name of the table. *)
Definition rename_indexname (indexname name indexdef : bytes) : M (dbs D) bytes :=
  match strstr indexdef indexname with
  | None => mret indexdef
  | Some i => fit 256 (take i indexdef ++ indexname ++ bs "_" ++ name ++ drop (i + length indexname) indexdef)
  end.

(** src/create_table.c:44-93 create_table (the indexes): a failed command clears its result
    twice. *)
Fixpoint create_indexes (n : nat) (dict name : bytes) : M (dbs D) unit :=
  match n with
  | O => stop NoFuel
  | S n' =>
      res ← pq (PQexec (bs "fetch next in cursor_indexes"));
      match first_tuple res with
      | None => mret tt
      | Some row =>
          indexname ← fit 256 (default [] (row !! 0%nat));
          indexdef ← fit 256 (default [] (row !! 1%nat));
          indexdef ← rename_indexname indexname name indexdef;
          indexdef ← rename_index fuel dict name indexdef;
          res ← pq (PQexec indexdef);
          guard_fault (is_command_ok res);;
          create_indexes n' dict name
      end
  end.

(** src/create_table.c:8-108 create_table : the file is left open for input only. *)
Definition create_table (t : table_t) (fcd : fcd_t) : M (dbs D) fcd_t :=
  setd (λ g, set_d_cache (cache_remove (d_cache g) (t_name t)) g);;
  schema ← get_schema (t_dictname t);
  sql ← fit 256 (bs "create table " ++ schema ++ bs "." ++ t_name t ++ bs "() INHERITS (" ++ schema ++ bs "." ++
                 t_dictname t ++ bs ") WITH (OIDS=false)");
  res ← pq (PQexec sql);
  if negb (is_command_ok res) then mret fcd
  else
    sql ← fit 256 (bs "declare cursor_indexes cursor for" ++ [10] ++
                   bs "  select indexname,indexdef from pg_indexes where tablename='" ++ t_dictname t ++ bs "'");
    res ← pq (PQexec sql);
    if negb (is_command_ok res) then mret fcd
    else
      create_indexes fuel (t_dictname t) (t_name t);;
      res ← pq (PQexec (bs "CLOSE cursor_indexes"));
      guard_fault (is_command_ok res);;
      res ← pq (PQexec (bs "COMMIT"));
      guard_fault (is_command_ok res);;
      pq (PQexec (bs "BEGIN"));;
      mret (set_status ST_OK (set_open_mode 0 fcd)).

(** src/op_open.c:12-119 op_open : the second component is true for the file of commands;
    [ts] is the time of the call. *)
Definition op_open (ts : bytes) (fcd : fcd_t) (opcode : Z) : M ms (fcd_t * bool) :=
  name ← file_basename fcd;
  if negb (open_mode fcd =? ST_OPEN_CLOSED) then mret (set_status ST_ALREADY_OPENED fcd, false)
  else
    guard_fault (length name <=? MAX_NAME_LEN)%nat;;
    partial ← on_db (getd d_ncomps);
    let t := new_table name ts partial in
    a ← on_db (alloc_tab t);
    on_db (setd (set_d_ncomps 0));;
    let fcd := set_file_id (putint a) fcd in
    if bool_decide (name = bs "pqfh") then mret (set_status ST_OK (set_open_mode (u8 (opcode - 64000)) fcd), true)
    else
      r ← table_info t fcd;
      let '(t, fcd, found) := r in
      on_db (on_tab a (λ _, t));;
      r ← (if found : bool then
             (if opcode =? OP_OPEN_OUTPUT then on_db (truncate_table (t_name t)) else mret tt);;
             mret (t, set_status ST_OK (set_open_mode (u8 (opcode - 64000)) fcd))
           else
             let fcd := set_status ST_FILE_NOT_FOUND fcd in
             if negb (isam fcd =? ch "S") && negb (opcode =? OP_OPEN_INPUT) && negb (bool_decide (t_name t = t_dictname t)) then
               fcd ← on_db (create_table t fcd);
               r ← table_info t fcd;
               on_db (on_tab a (λ _, fst (fst r)));;
               mret (fst r)
             else mret (t, fcd));
      let '(t, fcd) := r in
      if isam fcd =? ch "S" then on_db (free_tab a);; mret (fcd, false)
      else mret (set_sign (ch "P") fcd, false).

(** src/op_open.c:121-123 set_partial *)
Definition set_partial (n : nat) : M (dbs D) unit := setd (set_d_ncomps n).

(** The first entry of a name leaves the list of weak tables. *)
Fixpoint drop_first (name : bytes) (l : list bytes) : list bytes :=
  match l with [] => [] | x :: l' => if bool_decide (x = name) then l' else x :: drop_first name l' end.

(** src/op_close.c:8-80 op_close : the second component is true for the file of commands. *)
Definition op_close (fcd : fcd_t) : M (dbs D) (fcd_t * bool) :=
  guard_fault (getshort (file_name_len fcd) <=? 256);;
  of_option (sub_bytes (file_name fcd) 0 (getshort (file_name_len fcd)));;
  if open_mode fcd =? ST_OPEN_CLOSED then mret (set_status ST_ALREADY_CLOSED fcd, false)
  else
    let a := getint (file_id fcd) in
    t ← tab_at a;
    let closed := set_status ST_OK (set_open_mode ST_OPEN_CLOSED fcd) in
    if bool_decide (t_name t = bs "pqfh") then free_tab a;; mret (closed, true)
    else
      weak ← is_weak (t_name t);
      (if weak : bool then setd (λ g, set_d_weak (drop_first (t_name t) (d_weak g)) g) else mret tt);;
      (if sign fcd =? ch "P" then deallocate a else mret tt);;
      close_cursor a;;
      (if sign fcd =? ch "P" then free_tab a else mret tt);;
      mret (closed, false).

(** src/delete_file.c:9-90 op_delete_file : the cache keeps its entry. *)
Definition op_delete_file (ts : bytes) (fcd : fcd_t) : M ms fcd_t :=
  name ← file_basename fcd;
  let fcd := set_status ST_ERROR fcd in
  if negb (open_mode fcd =? ST_OPEN_CLOSED) then mret fcd
  else
    guard_fault (length name <=? MAX_NAME_LEN)%nat;;
    r ← table_info (new_table name ts 0) fcd;
    let '(t, fcd, found) := r in
    ok ← (if found : bool then
            sql ← on_db (fit 256 (bs "drop table " ++ t_schema t ++ bs "." ++ t_name t));
            res ← on_db (pq (PQexec sql));
            (if is_command_ok res then on_db (setd (λ g, set_d_pending (d_pending g + 1) g);; commit);; mret true
             else mret false)
          else mret true);
    mret (if ok : bool then set_status ST_OK fcd else fcd).

End meta.
