(* ===== verification/DbRead.v ===== *)
(** Reading a table of the database (src/op_read_random.c, src/op_start.c,
    src/op_next_prev.c): random reads through prepared statements, starts that declare
    a cursor, and the reads along it. *)

From stdpp Require Import prelude gmap strings.
From S2P Require Import Prelude Fhtypes Fcd Table Kdb Libpq.
Local Open Scope Z_scope.

Section read.
Context {D : Type} `{!Libpq D} (log_ok : bool).

(** [!memcmp(fcd->status, ST_OK, 2)] *)
Definition is_ok (fcd : fcd_t) : bool := memeq (status fcd) ST_OK 2.

(** src/op_read_random.c:73-124 op_read_random (the preparation): the build ignores locks;
    the statement of a key is prepared once, and its parameters are kept. *)
Definition read_prepare (a : Z) (keyid : nat) : M (dbs D) unit :=
  t ← tab_at a;
  p ← of_option (t_read_prepared t !! keyid);
  if p : bool then mret tt
  else
    pw ← getd d_partial_weak;
    r ← of_option (getwhere_prepared (t_columns t) (t_keys t) pw keyid 0);
    let '(wh, prms, cols) := r in
    on_tab a (λ t, set_t_columns cols (set_t_prms_random (<[keyid:=prms]> (t_prms_random t)) t));;
    sql ← fit MAX_REC_LEN (bs "select * from " ++ t_schema t ++ bs "." ++ t_name t ++ bs " where " ++ wh);
    name ← fit 64 (stmt_name t (fmt_d (Z.of_nat keyid)));
    res ← pq (PQprepare name sql (length prms));
    if is_command_ok res then on_tab a (λ t, set_t_read_prepared (<[keyid:=true]> (t_read_prepared t)) t)
    else stop Exit.

(** src/op_read_random.c:66-71 op_read_random (the key goes to the log only): a known
    key must fit the buffer. *)
Definition log_key (t : table_t) (keyid : nat) (record : bytes) : M (dbs D) unit :=
  match t_keys t !! keyid with
  | None => mret tt
  | Some k => of_option (key_bytes (t_columns t) record (k_columns k));; mret tt
  end.

(** src/op_read_random.c:15-182 op_read_random : [with_lock] is ignored by the build. *)
Definition op_read_random (fcd : fcd_t) : M (dbs D) fcd_t :=
  if open_mode fcd =? ST_OPEN_CLOSED then mret (set_status ST_NOT_OPENED_READ fcd)
  else
    let a := getint (file_id fcd) in
    let keyid := Z.to_nat (getshort (key_id fcd)) in
    t ← tab_at a;
    log_key t keyid (record fcd);;
    read_prepare a keyid;;
    setd (set_d_fatal false);;
    t ← tab_at a;
    prms ← of_option (t_prms_random t !! keyid);
    values ← set_params key_param t prms (record fcd);
    valida_comando log_ok;;
    res ← pq (PQexecPrepared (stmt_name t (fmt_d (Z.of_nat keyid))) values);
    match first_tuple res with
    | None => mret (set_status ST_REC_NOT_FOUND fcd)
    | Some row =>
        pw ← getd d_partial_weak;
        fcd ← (if pw : bool then mret fcd
               else rec ← of_option (pq2cob (t_columns t) row (record fcd)); mret (set_rec rec fcd));
        mret (set_status ST_OK fcd)
    end.

(** The buffers of the last record read in each direction.  The key goes through a C
    string: of a key with a NUL only the bytes before it are determined, and kept. *)
Definition keep_next (kbuf rec : bytes) (t : table_t) : table_t :=
  set_t_rec_next (blit (t_rec_next t) 0 (rec ++ [0])) (set_t_buf_next (blit (t_buf_next t) 0 (kbuf ++ [0])) t).
Definition keep_prev (kbuf rec : bytes) (t : table_t) : table_t :=
  set_t_rec_prev (blit (t_rec_prev t) 0 (rec ++ [0])) (set_t_buf_prev (blit (t_buf_prev t) 0 (kbuf ++ [0])) t).

(** src/op_next_prev.c:87-138 op_next_prev (the fetch): the record and its key are kept
    for the next start. *)
Definition fetch (a : Z) (dir : Z) (fcd : fcd_t) : M (dbs D) fcd_t :=
  t ← tab_at a;
  let reclen := getshort (rec_len fcd) in
  sql ← fit 256 (bs "fetch next in " ++ cursor_name t);
  res ← pq (PQexec sql);
  match first_tuple res with
  | None => mret (set_status ST_EOF fcd)
  | Some row =>
      rec ← of_option (pq2cob (t_columns t) row (record fcd));
      let fcd := set_status ST_OK (set_rec rec fcd) in
      kbuf ← of_option (getkbuf (t_columns t) (t_keys t) (Z.to_nat (getshort (key_id fcd))) (record fcd));
      guard_fault (reclen <=? MAX_REC_LEN);;
      kept ← of_option (sub_bytes (record fcd) 0 reclen);
      on_tab a (if dir =? ch "n" then keep_next (cstr kbuf) kept else keep_prev (cstr kbuf) kept);;
      mret fcd
  end.

(** src/op_next_prev.c:10-139 op_next_prev *)
Definition op_next_prev (fcd : fcd_t) (dir : Z) : M (dbs D) fcd_t :=
  if open_mode fcd =? ST_OPEN_CLOSED then mret (set_status ST_NOT_OPENED_READ fcd)
  else
    let a := getint (file_id fcd) in
    let reclen := getshort (rec_len fcd) in
    t ← tab_at a;
    if t_first t then on_tab a (set_t_first false);; mret (set_status ST_OK fcd)
    else
      eof ← getd d_eof_start;
      if eof : bool then mret (set_status ST_EOF fcd)
      else if t_restart t =? dir then
        kept ← of_option (sub_bytes (if dir =? ch "n" then t_rec_next t else t_rec_prev t) 0 reclen);
        guard_fault (length kept <=? length (record fcd))%nat;;
        on_tab a (set_t_restart 0);;
        mret (set_status ST_OK (set_rec (blit (record fcd) 0 kept) fcd))
      else
        on_tab a (set_t_restart 0);;
        fetch a dir fcd.

(** The key goes through [strcpy]: the bytes after a NUL are not determined.  The key of a
    row has no NUL, so that comparing with it stops there. *)
Definition determined (kbuf : bytes) : bytes := take (length kbuf) (cstr kbuf ++ [0]).

(** src/op_start.c:55-72 op_start (the last record read had this key): the cursor goes on. *)
Definition same_start (t : table_t) (op : bytes) (keyid : Z) (kbuf : bytes) : bool :=
  (negb (op_first op =? ch "<") && (keyid =? t_key_next t) && memeq kbuf (t_buf_next t) (length kbuf)) ||
  ((op_first op =? ch "<") && (keyid =? t_key_prev t) && memeq kbuf (t_buf_prev t) (length kbuf)).

(** src/op_start.c:92-119 op_start (the cursor) *)
Definition declare_cursor (a : Z) (fcd : fcd_t) (op : bytes) : M (dbs D) unit :=
  let keyid := Z.to_nat (getshort (key_id fcd)) in
  close_cursor a;;
  on_tab a (set_t_cursor true);;
  t ← tab_at a;
  weak ← is_weak (t_name t);
  force ← getd d_force_partial;
  wo ← of_option (getwhere (t_name t) (t_columns t) (t_keys t) (t_partial_key t) force weak (record fcd) keyid
                    (if weak : bool then bs "=" else op));
  order ← fit 256 (snd wo);
  sql ← fit MAX_REC_LEN (bs "declare " ++ cursor_name t ++ bs " cursor with hold for" ++ [10] ++ bs "  select * from " ++
          t_schema t ++ bs "." ++ t_name t ++ [10] ++ bs "    where " ++ fst wo ++ bs " order by " ++ order);
  res ← pq (PQexec sql);
  if is_command_ok res then mret tt else stop Exit.

(** src/op_start.c:128-141 op_start (the first record): it is read and then delivered by
    the next read. *)
Definition start_first (a : Z) (fcd : fcd_t) (op : bytes) : M (dbs D) fcd_t :=
  let keyid := getshort (key_id fcd) in
  let up := negb (op_first op =? ch "<") in
  on_tab a (set_t_first false);;
  on_tab a (if up then set_t_key_next (s16 keyid) else set_t_key_prev (s16 keyid));;
  fcd ← op_next_prev fcd (if up then ch "n" else ch "p");
  on_tab a (set_t_first true);;
  if memeq (status fcd) ST_EOF 2 then on_tab a (set_t_first false);; mret (set_status ST_REC_NOT_FOUND fcd)
  else mret fcd.

(** src/op_start.c:73-90 op_start (a weak entity): whether some record has the partial
    key. *)
Definition weak_probe (fcd : fcd_t) : M (dbs D) (fcd_t * bool) :=
  setd (set_d_partial_weak true);;
  fcd ← op_read_random fcd;
  let found := is_ok fcd in
  (if found then mret tt else setd (set_d_eof_start true));;
  setd (set_d_partial_weak false);;
  mret (if found then fcd else set_status ST_REC_NOT_FOUND fcd, found).

(** src/op_start.c:12-146 op_start *)
Definition op_start (fcd : fcd_t) (op : bytes) : M (dbs D) fcd_t :=
  if open_mode fcd =? ST_OPEN_CLOSED then mret (set_status ST_NOT_OPENED_READ fcd)
  else
    let a := getint (file_id fcd) in
    let keyid := getshort (key_id fcd) in
    t ← tab_at a;
    setd (set_d_eof_start false);;
    kbuf ← of_option (getkbuf (t_columns t) (t_keys t) (Z.to_nat keyid) (record fcd));
    if same_start t op keyid (determined kbuf) then
      (if byte_at op 1 =? ch "=" then on_tab a (set_t_restart (if op_first op =? ch ">" then ch "n" else ch "p"))
       else mret tt);;
      mret (set_status ST_OK fcd)
    else
      weak ← is_weak (t_name t);
      p ← (if weak : bool then weak_probe fcd else mret (fcd, true));
      let '(fcd, found) := p in
      if negb found then mret fcd
      else declare_cursor a fcd op;; start_first a fcd op.

End read.
