(* ===== verification/DbWrite.v ===== *)
(** Updating a table of the database (src/op_write.c, src/op_rewrite.c,
    src/op_delete.c): every update first reads the record by its key. *)

From stdpp Require Import prelude gmap strings.
From S2P Require Import Prelude Fhtypes Fcd Table Kdb Libpq DbRead.
Local Open Scope Z_scope.

(** The calls to other parts: the replication of an update with the texts of its parameters
    (src/replicator.c, on a connection of its own) and the commands written to the file [pqfh]. *)
Class DbCalls (D : Type) := {
  replica : Z → table_t → list bytes → M (dbs D) unit;
  command_call : fcd_t → M (dbs D) fcd_t;
}.

Section write.
Context {D : Type} `{!Libpq D} `{!DbCalls D} (log_ok : bool).

(** The texts of a list between commas. *)
Fixpoint commas (l : list bytes) : bytes :=
  match l with
  | [] => []
  | [x] => x
  | x :: l' => x ++ bs "," ++ commas l'
  end.

(** [$1], ... the placeholders from [i + 1] on. *)
Definition placeholders (i n : nat) : list bytes := (λ j, bs "$" ++ fmt_d (Z.of_nat (S j))) <$> seq i n.

(** src/op_write.c:84-110 op_write (the statement) *)
Definition insert_text (t : table_t) : bytes :=
  bs "insert into " ++ t_schema t ++ bs "." ++ t_name t ++ bs " (" ++ commas (col_name <$> t_columns t) ++
  bs ")" ++ [10] ++ bs "values (" ++ commas (placeholders 0 (length (t_columns t))) ++ bs ")".

(** src/op_write.c:79-121 op_write (the preparation): the flag is set before the call. *)
Definition write_prepare (a : Z) : M (dbs D) unit :=
  t ← tab_at a;
  if t_ins_prepared t then mret tt
  else
    sql ← fit MAX_REC_LEN (insert_text t);
    on_tab a (set_t_ins_prepared true);;
    name ← fit 64 (stmt_name t (bs "ins"));
    res ← pq (PQprepare name sql (length (t_columns t)));
    if is_command_ok res then mret tt else stop Exit.

(** src/op_write.c:129-132 op_write ([col->p = p]) *)
Definition number_cols (cols : list column_t) : list column_t := imap (λ i c, set_p i c) cols.

(** src/op_write.c:175-203 op_write (the execution): [err] is the status of a failure. *)
Definition run_update (cmd : Z) (a : Z) (suffix : bytes) (values : list bytes) (err : bytes) (fcd : fcd_t)
  : M (dbs D) fcd_t :=
  t ← tab_at a;
  res ← pq (PQexecPrepared (stmt_name t suffix) values);
  fcd ← (if is_command_ok res then
           (match t_clones t with [] => mret tt | _ => replica cmd t values end);;
           mret (set_status ST_OK fcd)
         else mret (set_status err fcd));
  setd (λ g, set_d_pending (d_pending g + 1) g);;
  mret fcd.

(** src/op_write.c:14-212 op_write : the second component is true for a command.  When
    the key exists the record area keeps the record read. *)
Definition op_write (fcd : fcd_t) : M (dbs D) (fcd_t * bool) :=
  if memeq (file_name fcd) (bs "pqfh") 4 then fcd ← command_call fcd; mret (fcd, true)
  else if open_mode fcd =? ST_OPEN_CLOSED then mret (set_status ST_NOT_OPENED_WRITE fcd, false)
  else
    let a := getint (file_id fcd) in
    tab_at a;;
    let keyid := getshort (key_id fcd) in
    fcd ← op_read_random log_ok (set_key_id (putshort 0) fcd);
    if is_ok fcd then mret (set_key_id (putshort keyid) (set_status ST_DUPL_KEY fcd), false)
    else
      write_prepare a;;
      setd (set_d_fatal false);;
      on_tab a (λ t, set_t_columns (number_cols (t_columns t)) t);;
      t ← tab_at a;
      values ← set_params field_param t (t_columns t) (record fcd);
      valida_comando log_ok;;
      fcd ← run_update (ch "i") a (bs "ins") values ST_ERROR fcd;
      mret (set_key_id (putshort keyid) fcd, false).

(** src/op_rewrite.c:105-123 op_rewrite (the columns of the statement): those outside the
    primary key, numbered from [p] on. *)
Fixpoint set_clauses (cols : list column_t) (p : nat) : bytes * nat :=
  match cols with
  | [] => ([], p)
  | c :: cols' =>
      if col_pk c then set_clauses cols' p
      else
        let r := set_clauses cols' (S p) in
        ((if (p =? 0)%nat then bs "  set " else bs "     ,") ++
         col_name c ++ bs "=$" ++ fmt_d (Z.of_nat (S p)) ++ [10] ++ fst r, snd r)
  end.

(** [col->p = p] for the columns outside the primary key. *)
Fixpoint number_sets (cols : list column_t) (p : nat) : list column_t :=
  match cols with
  | [] => []
  | c :: cols' => if col_pk c then c :: number_sets cols' p else set_p p c :: number_sets cols' (S p)
  end.

(** src/op_rewrite.c:100-142 op_rewrite (the preparation) *)
Definition rewrite_prepare (a : Z) : M (dbs D) unit :=
  t ← tab_at a;
  if t_upd_prepared t then mret tt
  else
    let sets := set_clauses (t_columns t) 0 in
    pw ← getd d_partial_weak;
    r ← of_option (getwhere_prepared (number_sets (t_columns t) 0) (t_keys t) pw 0 (snd sets));
    let '(wh, prms, cols) := r in
    on_tab a (λ t, set_t_columns cols (set_t_prms_rewrite prms t));;
    sql ← fit MAX_REC_LEN (bs "update " ++ t_schema t ++ bs "." ++ t_name t ++ [10] ++ fst sets ++ bs "where " ++ wh);
    on_tab a (set_t_upd_prepared true);;
    name ← fit 64 (stmt_name t (bs "upd"));
    res ← pq (PQprepare name sql (snd sets + length prms));
    if is_command_ok res then mret tt else stop Exit.

(** src/op_rewrite.c:148-212 op_rewrite (the parameters): the columns outside the primary
    key, then those of the condition. *)
Definition rewrite_values (t : table_t) (rec : bytes) : M (dbs D) (list bytes) :=
  values ← set_params field_param t (filter (λ c, col_pk c = false) (t_columns t)) rec;
  keys ← set_params plain_param t (t_prms_rewrite t) rec;
  valida_comando log_ok;;
  mret (values ++ keys).

(** A start no longer matches the last record read. *)
Definition forget_reads (t : table_t) : table_t :=
  set_t_key_prev (-1) (set_t_key_next (-1) (set_t_restart 0 t)).

(** src/op_rewrite.c:15-264 op_rewrite : the second component is false when the record was
    not found; a record that did not change is not written. *)
Definition op_rewrite (fcd : fcd_t) : M (dbs D) (fcd_t * bool) :=
  if open_mode fcd =? ST_OPEN_CLOSED then mret (set_status ST_NOT_OPENED_UPDEL fcd, false)
  else
    let a := getint (file_id fcd) in
    on_tab a forget_reads;;
    let reclen := getshort (rec_len fcd) in
    guard_fault (reclen <=? MAX_REC_LEN);;
    rec ← of_option (sub_bytes (record fcd) 0 reclen);
    let keyid := getshort (key_id fcd) in
    fcd ← op_read_random log_ok (set_key_id (putshort 0) fcd);
    if negb (is_ok fcd) then mret (set_key_id (putshort keyid) fcd, false)
    else if memeq rec (record fcd) (Z.to_nat reclen) then
      mret (set_key_id (putshort keyid) (set_status ST_OK fcd), true)
    else
      let fcd := set_rec (blit (record fcd) 0 rec) fcd in
      t ← tab_at a;
      log_key t 0 (record fcd);;
      rewrite_prepare a;;
      setd (set_d_fatal false);;
      t ← tab_at a;
      values ← rewrite_values t (record fcd);
      fcd ← run_update (ch "u") a (bs "upd") values ST_REC_NOT_FOUND fcd;
      mret (set_key_id (putshort keyid) fcd, true).

(** src/op_delete.c:70-91 op_delete (the preparation) *)
Definition delete_prepare (a : Z) : M (dbs D) unit :=
  t ← tab_at a;
  if t_del_prepared t then mret tt
  else
    pw ← getd d_partial_weak;
    r ← of_option (getwhere_prepared (t_columns t) (t_keys t) pw 0 0);
    let '(wh, prms, cols) := r in
    on_tab a (λ t, set_t_columns cols (set_t_prms_delete prms t));;
    sql ← fit MAX_REC_LEN (bs "delete from " ++ t_schema t ++ bs "." ++ t_name t ++ [10] ++ bs "where " ++ wh);
    on_tab a (set_t_del_prepared true);;
    name ← fit 64 (stmt_name t (bs "del"));
    res ← pq (PQprepare name sql (length prms));
    if is_command_ok res then mret tt else stop Exit.

(** src/op_delete.c:97-123 op_delete (the parameters) *)
Definition delete_values (t : table_t) (rec : bytes) : M (dbs D) (list bytes) :=
  values ← set_params key_param t (t_prms_delete t) rec;
  valida_comando log_ok;;
  mret values.

(** src/op_delete.c:13-159 op_delete : the record is read by the current key and deleted by
    the primary key it has. *)
Definition op_delete (fcd : fcd_t) : M (dbs D) fcd_t :=
  if open_mode fcd =? ST_OPEN_CLOSED then mret (set_status ST_NOT_OPENED_UPDEL fcd)
  else
    let a := getint (file_id fcd) in
    on_tab a forget_reads;;
    fcd ← op_read_random log_ok fcd;
    if negb (is_ok fcd) then mret (set_status ST_REC_NOT_FOUND fcd)
    else
      t ← tab_at a;
      log_key t 0 (record fcd);;
      delete_prepare a;;
      setd (set_d_fatal false);;
      t ← tab_at a;
      values ← delete_values t (record fcd);
      run_update (ch "d") a (bs "del") values ST_REC_NOT_FOUND fcd.

End write.
