(* ===== verification/Sql.v ===== *)
(** The statements the operations prepare on one table, with their texts, and what the
    program relies on in the server: each statement does on the rows of the table what
    SQL says.  The server itself is not part of the program. *)

From stdpp Require Import prelude gmap strings.
From S2P Require Import Prelude Fhtypes Fcd Table Kdb Libpq DbWrite.
Local Open Scope Z_scope.

(** A statement; columns are positions in the table.  [SSelect] and [SDelete] compare
    columns with the parameters, [SUpdate] sets columns to the first parameters and
    compares others with the rest. *)
Inductive stmt :=
  | SSelect (conds : list nat)
  | SInsert
  | SUpdate (sets conds : list nat)
  | SDelete (conds : list nat).

#[global] Instance stmt_eq_dec : EqDecision stmt.
Proof. solve_decision. Defined.

(** The names of some columns. *)
Definition names (cols : list column_t) (ixs : list nat) : list bytes :=
  omap (λ i, col_name <$> cols !! i) ixs.

(** The assignments of an update, the parameters numbered from [p] on. *)
Fixpoint set_text (ns : list bytes) (p : nat) : bytes :=
  match ns with
  | [] => []
  | n :: ns' => (if (p =? 0)%nat then bs "  set " else bs "     ,") ++
                n ++ bs "=$" ++ fmt_d (Z.of_nat (S p)) ++ [10] ++ set_text ns' (S p)
  end.

Definition stmt_text (schema name : bytes) (cols : list column_t) (q : stmt) : bytes :=
  let tab := schema ++ bs "." ++ name in
  match q with
  | SSelect conds => bs "select * from " ++ tab ++ bs " where " ++ eq_text 0 (names cols conds)
  | SInsert => bs "insert into " ++ tab ++ bs " (" ++ commas (col_name <$> cols) ++ bs ")" ++ [10] ++
      bs "values (" ++ commas (placeholders 0 (length cols)) ++ bs ")"
  | SUpdate sets conds => bs "update " ++ tab ++ [10] ++ set_text (names cols sets) 0 ++ bs "where " ++
      eq_text (length sets) (names cols conds)
  | SDelete conds => bs "delete from " ++ tab ++ [10] ++ bs "where " ++ eq_text 0 (names cols conds)
  end.

Definition nparams (cols : list column_t) (q : stmt) : nat :=
  match q with
  | SSelect conds | SDelete conds => length conds
  | SInsert => length cols
  | SUpdate sets conds => length sets + length conds
  end.

(** The columns an update sets: those outside the primary key. *)
Definition set_cols (cols : list column_t) : list nat :=
  filter (λ i, col_pk <$> cols !! i = Some false) (seq 0 (length cols)).

(** The statements SQL has: something to compare, to insert and to set. *)
Definition stmt_wf (cols : list column_t) (q : stmt) : Prop :=
  match q with
  | SSelect conds | SDelete conds => conds ≠ []
  | SInsert => cols ≠ []
  | SUpdate sets conds => sets ≠ [] ∧ conds ≠ []
  end.

Definition pk_ixs (keys : list key_t) : list nat := default [] (k_columns <$> head keys).

(** The statements the operations use on a file. *)
Definition file_stmts (cols : list column_t) (keys : list key_t) : list stmt :=
  (SSelect ∘ k_columns <$> keys) ++ [SInsert; SUpdate (set_cols cols) (pk_ixs keys); SDelete (pk_ixs keys)].

(** A row has the values [vs] in the columns [ixs]. *)
Definition matches (ixs : list nat) (vs : list bytes) (row : list bytes) : Prop :=
  mapM (λ i, row !! i) ixs = Some vs.

#[global] Instance matches_dec ixs vs row : Decision (matches ixs vs row).
Proof. unfold matches. apply _. Defined.

(** A row with the columns [ixs] set to [vs]. *)
Definition set_row (ixs : list nat) (vs : list bytes) (row : list bytes) : list bytes :=
  imap (λ i x, match list_find (eq i) ixs with Some (j, _) => default x (vs !! j) | None => x end) row.

(** What the server promises about the table [schema.name], whose columns are [cols]:
    [canon] is how it spells a value it was given, [None] when it refuses the text.
    [pg_cursor] is the rows a cursor has still to give; these statements leave them as they
    are. *)
Class PgTable (D : Type) `{!Libpq D} (schema name : bytes) (cols : list column_t) (keys : list key_t) := {
  pg_prepared : D → bytes → option stmt;
  pg_free : D → bytes → Prop;
  pg_rows : D → list (list bytes);
  pg_cursor : D → bytes → option (list (list bytes));
  canon : column_t → bytes → option bytes;

  (** A number or a text keeps its value: leading zeros and trailing blanks may go. ([wf_field]
      leaves out the negative zero, whose sign the server drops.) *)
  canon_spells c f : c ∈ cols → wf_field c f →
    ∃ t', canon c (text_of_field c f) = Some t' ∧ same_value c (text_of_field c f) t';

  (** A new name gets the statement; the others keep theirs. *)
  pg_prepare d n q : pg_free d n → q ∈ file_stmts cols keys → stmt_wf cols q →
    ∃ d', PQprepare n (stmt_text schema name cols q) (nparams cols q) d = (d', mk_res PGRES_COMMAND_OK []) ∧
      pg_prepared d' n = Some q ∧
      (∀ m, m ≠ n → pg_prepared d' m = pg_prepared d m ∧ (pg_free d m → pg_free d' m)) ∧
      pg_rows d' = pg_rows d ∧ (∀ m, pg_cursor d' m = pg_cursor d m);

  (** The statements: they do not change what is prepared. *)
  pg_select d n conds cs ts vs : pg_prepared d n = Some (SSelect conds) →
    mapM (λ i, cols !! i) conds = Some cs → Forall2 (λ ct v, canon ct.1 ct.2 = Some v) (zip cs ts) vs →
    length ts = length cs →
    ∃ d' rows, PQexecPrepared n ts d = (d', mk_res PGRES_TUPLES_OK rows) ∧
      rows ≡ₚ filter (matches conds vs) (pg_rows d) ∧
      pg_rows d' = pg_rows d ∧ (∀ m, pg_prepared d' m = pg_prepared d m ∧ (pg_free d m → pg_free d' m) ∧ pg_cursor d' m = pg_cursor d m);
  pg_insert d n ts row : pg_prepared d n = Some SInsert →
    Forall2 (λ ct v, canon ct.1 ct.2 = Some v) (zip cols ts) row → length ts = length cols →
    (∀ r v, r ∈ pg_rows d → mapM (λ i, row !! i) (pk_ixs keys) = Some v → ¬ matches (pk_ixs keys) v r) →
    ∃ d', PQexecPrepared n ts d = (d', mk_res PGRES_COMMAND_OK []) ∧
      pg_rows d' ≡ₚ row :: pg_rows d ∧ (∀ m, pg_prepared d' m = pg_prepared d m ∧ (pg_free d m → pg_free d' m) ∧ pg_cursor d' m = pg_cursor d m);
  pg_update d n sets conds cs ks ts us vs ws : pg_prepared d n = Some (SUpdate sets conds) →
    (∀ i, i ∈ sets → i ∉ pk_ixs keys) → mapM (λ i, cols !! i) sets = Some cs → mapM (λ i, cols !! i) conds = Some ks →
    Forall2 (λ ct v, canon ct.1 ct.2 = Some v) (zip cs ts) vs → length ts = length cs →
    Forall2 (λ ct v, canon ct.1 ct.2 = Some v) (zip ks us) ws → length us = length ks →
    ∃ d', PQexecPrepared n (ts ++ us) d = (d', mk_res PGRES_COMMAND_OK []) ∧
      pg_rows d' ≡ₚ (λ r, if decide (matches conds ws r) then set_row sets vs r else r) <$> pg_rows d ∧
      (∀ m, pg_prepared d' m = pg_prepared d m ∧ (pg_free d m → pg_free d' m) ∧ pg_cursor d' m = pg_cursor d m);
  pg_delete d n conds cs ts vs : pg_prepared d n = Some (SDelete conds) →
    mapM (λ i, cols !! i) conds = Some cs → Forall2 (λ ct v, canon ct.1 ct.2 = Some v) (zip cs ts) vs →
    length ts = length cs →
    ∃ d', PQexecPrepared n ts d = (d', mk_res PGRES_COMMAND_OK []) ∧
      pg_rows d' ≡ₚ filter (λ r, ¬ matches conds vs r) (pg_rows d) ∧
      (∀ m, pg_prepared d' m = pg_prepared d m ∧ (pg_free d m → pg_free d' m) ∧ pg_cursor d' m = pg_cursor d m);
}.
