(* ===== verification/DbRows.v ===== *)
(** Records and rows: the texts the operations send for a well-formed record pass the
    validation unchanged, the row the server stores determines the record, and comparing
    rows with the texts of a key compares the records' keys. *)

From stdpp Require Import prelude gmap strings.
From S2P Require Import Prelude Fhtypes Fcd Table Kdb Libpq DbRead DbWrite Sql.
Local Open Scope Z_scope.

(** ** Columns that differ in the parameter positions *)

Lemma set_p_of c c' : set_p 0 c' = set_p 0 c → c' = set_p (col_p c') c.
Proof. destruct c, c'. unfold set_p. simpl. congruence. Qed.

Lemma same_cols_length cols cols' : same_cols cols cols' → length cols' = length cols.
Proof. intros H%(f_equal length). by rewrite !length_fmap in H. Qed.

Lemma same_cols_geo cols cols' : same_cols cols cols' → geo cols' = geo cols.
Proof.
  intros H. assert (∀ l, geo (set_p 0 <$> l) = geo l) as Hg.
  { intros l. unfold geo. by rewrite <-list_fmap_compose. }
  by rewrite <-(Hg cols), <-(Hg cols'), H.
Qed.

Lemma same_cols_pq2cob cols cols' row rec : same_cols cols cols' → pq2cob cols' row rec = pq2cob cols row rec.
Proof.
  unfold pq2cob, same_cols. intros H. generalize 0%nat as o. revert cols' row rec H.
  induction cols as [|c cols IH]; intros [|c' cols'] row rec H o; try done.
  injection H as H1 H2 H3 H4 H5 H6 H7. cbn [pq2cob_loop]. destruct (head row) as [v|]; [|done].
  cbn [mbind option_bind].
  assert (field_of_text c' (cstr v) = field_of_text c (cstr v)) as ->.
  { unfold field_of_text, is_num. by rewrite H2, H3, H4. }
  destruct (field_of_text c (cstr v)); [|done]. cbn [mbind option_bind]. rewrite <-H3.
  destruct (_ <=? _)%nat; [|done]. by apply IH.
Qed.

(** ** The texts of a record *)

Lemma digits_ok real sinal decimal s s' :
  (∀ x, x ∈ s → isdigit x = true) → numero_ok real sinal decimal (s ++ s') = numero_ok real sinal decimal s'.
Proof.
  induction s as [|c s IH]; [done|]. intros H. simpl. rewrite (H c) by by left.
  apply IH. intros x Hx. apply H. by right.
Qed.

Lemma digits_all_ok real sinal decimal s : (∀ x, x ∈ s → isdigit x = true) → numero_ok real sinal decimal s = true.
Proof. intros H. rewrite <-(app_nil_r s), digits_ok by done. done. Qed.

(** Digits with the decimal point of the column. *)
Lemma pointed_ok c sinal g :
  (∀ x, x ∈ g → isdigit x = true) → numero_ok (0 <? col_dec c)%nat sinal false (pointed c g) = true.
Proof.
  intros H. unfold pointed. destruct (0 <? col_dec c)%nat; [|by apply digits_all_ok].
  assert (∀ x n, x ∈ take n g → isdigit x = true) as Ht.
  { intros x n Hx. apply H. rewrite <-(take_drop n g). apply elem_of_app. by left. }
  assert (∀ x n, x ∈ drop n g → isdigit x = true) as Hd.
  { intros x n Hx. apply H. rewrite <-(take_drop n g). apply elem_of_app. by right. }
  rewrite digits_ok by eauto. simpl. rewrite andb_false_r. cbn. apply digits_all_ok. eauto.
Qed.

Lemma digits_no_nul (s : bytes) : (∀ x, x ∈ s → isdigit x = true) → 0 ∉ s.
Proof. intros H Hx. by specialize (H _ Hx). Qed.

Lemma pointed_elem c g x : x ∈ pointed c g → x ∈ g ∨ x = ch ".".
Proof.
  unfold pointed. destruct (0 <? col_dec c)%nat; [|by left].
  rewrite !elem_of_app, list_elem_of_singleton. intros [H|[->|H]]; [left|by right|left];
    rewrite <-(take_drop (col_len c - col_dec c) g), elem_of_app; auto.
Qed.

Lemma pointed_head c x g : (col_dec c < col_len c)%nat → pointed c (x :: g) = x :: drop 1 (pointed c (x :: g)).
Proof.
  intros H. unfold pointed. destruct (0 <? col_dec c)%nat; [|simpl; by rewrite drop_0].
  destruct (col_len c - col_dec c)%nat as [|n] eqn:E; [lia|]. done.
Qed.

(** The text of a well-formed number passes the validation. *)
Lemma number_text c f : wf_field c f → is_num c = true →
  numero_ok (0 <? col_dec c)%nat false false (text_of_field c f) = true ∧ text_of_field c f ≠ [] ∧ 0 ∉ text_of_field c f.
Proof.
  intros [Hl Hwf] Hn. rewrite Hn in Hwf. destruct Hwf as (Hdec & ds & b & Hds & Hb & Hf).
  assert (∀ x, x ∈ ds ++ [b] → isdigit x = true) as Hg.
  { intros x. rewrite elem_of_app, list_elem_of_singleton. intros [?| ->]; auto. }
  assert (0 ∉ pointed c (ds ++ [b])) as Hnul.
  { intros [H|H]%pointed_elem; [by specialize (Hg _ H)|done]. }
  assert (∃ x g, ds ++ [b] = x :: g) as (x & g & Hx) by (destruct ds; simpl; eauto).
  destruct Hf as [->|(-> & Hhd & _)].
  - rewrite text_of_positive by done. split; [by apply pointed_ok|]. split; [|done].
    rewrite Hx, pointed_head by done. done.
  - destruct ds as [|d ds]; [done|]. injection Hhd as ->. rewrite <-app_comm_cons in *.
    assert (length (48 :: ds ++ [b]) = col_len c) as Hlen by (simpl in *; by rewrite length_app in *).
    rewrite text_of_negative by done.
    pose proof (pointed_ok c true _ Hg) as Hok. rewrite pointed_head in Hok by done.
    split; [|split; [done|]].
    + change (numero_ok (0 <? col_dec c)%nat false false (bs "-" ++ drop 1 (pointed c (48 :: ds ++ [b]))))
        with (numero_ok (0 <? col_dec c)%nat true false (drop 1 (pointed c (48 :: ds ++ [b])))). exact Hok.
    + intros [H|H]%elem_of_app; [by apply list_elem_of_singleton in H|].
      apply Hnul. rewrite pointed_head by done. by right.
Qed.

Lemma field_text_no_nul c f : wf_field c f → 0 ∉ text_of_field c f.
Proof.
  intros Hwf. destruct (is_num c) eqn:Hn; [by apply number_text|].
  destruct Hwf as [_ Hwf]. rewrite Hn in Hwf. unfold text_of_field. by rewrite Hn.
Qed.

Section params.
Context {D : Type} `{!Libpq D}.

(** A well-formed field goes out as its text, without an error. *)
Lemma validate_run (t : table_t) c f (s : dbs D) :
  wf_field c f → is_num c = true → validate t c (text_of_field c f) s = (s, inr (text_of_field c f)).
Proof.
  intros Hwf Hn. destruct (number_text c f Hwf Hn) as (Hok & Hne & Hnul). unfold validate, valida_numero.
  rewrite cstr_id by done.
  assert ((match text_of_field c f with [] => bs "0" | s => s end) = text_of_field c f) as ->
    by by destruct (text_of_field c f).
  rewrite Hok. done.
Qed.

(** [param] gives the text of every column of [cs]. *)
Definition gives_text (param : column_t → bytes → option bytes) (r : bytes) (c : column_t) : Prop :=
  wf_field c (field_at r c) ∧ param c r = Some (text_of_field c (field_at r c)).

Definition texts (cs : list column_t) (r : bytes) : list bytes := (λ c, text_of_field c (field_at r c)) <$> cs.

Lemma set_params_run param t r cs prms (s : dbs D) :
  (∀ p c, param (set_p p c) = param c) → set_p 0 <$> prms = set_p 0 <$> cs → Forall (gives_text param r) cs →
  set_params param t prms r s = (s, inr (texts cs r)).
Proof.
  intros Hp. revert prms. induction cs as [|c cs IH]; intros [|c' prms] H Hcs; try done.
  rewrite !fmap_cons in H. apply Forall_cons in Hcs as [[Hwf Hc] Hcs].
  assert (set_p 0 c' = set_p 0 c ∧ set_p 0 <$> prms = set_p 0 <$> cs) as [H1 H2] by (split; congruence).
  apply set_p_of in H1. rewrite H1. cbn [set_params]. rewrite Hp, Hc. rewrite (bind_ok _ _ s s _ eq_refl).
  change (is_num (set_p (col_p c') c)) with (is_num c).
  assert ((if is_num c then validate t (set_p (col_p c') c) (text_of_field c (field_at r c))
           else mret (cstr (text_of_field c (field_at r c)))) s = (s, inr (text_of_field c (field_at r c)))) as E.
  { destruct (is_num c) eqn:Hn; [by apply (validate_run t (set_p (col_p c') c))|].
    rewrite cstr_id by by apply field_text_no_nul. done. }
  rewrite (bind_ok _ _ _ _ _ E), (bind_ok _ _ _ _ _ (IH _ H2 Hcs)). done.
Qed.

End params.

(** ** The columns of a record *)

Lemma rec_bytes_field cols i c r :
  layout_ok cols 0 → cols !! i = Some c → (cols_len cols ≤ length r)%nat →
  rec_bytes r (col_offset c) (col_len c) = Some (field_at r c).
Proof.
  intros Hl Hc Hr. pose proof (layout_offset cols 0 i c Hl Hc) as Ho. unfold rec_bytes.
  pose proof (take_drop_middle cols i c Hc) as Hm.
  assert (col_offset c + col_len c ≤ cols_len cols)%nat.
  { apply (f_equal (sum_list_with col_len)) in Hm. rewrite sum_list_with_app in Hm. simpl in Hm.
    rewrite Ho. unfold cols_len in *. lia. }
  by rewrite (proj2 (Nat.leb_le _ _)) by lia.
Qed.

Section rows.
Context {D : Type} `{!Libpq D} {schema name : bytes} {cols : list column_t} {keys : list key_t}.
Context `{!PgTable D schema name cols keys}.

(** What the server keeps of the columns [cs] of a record, and its row. *)
Definition img (cs : list column_t) (r : bytes) : list bytes :=
  (λ c, default [] (canon c (text_of_field c (field_at r c)))) <$> cs.
Definition row_img (r : bytes) : list bytes := img cols r.

Definition wf_cols (cs : list column_t) (r : bytes) : Prop := Forall (λ c, c ∈ cols ∧ wf_field c (field_at r c)) cs.

(** The fields of some columns. *)
Definition fields (cs : list column_t) (r : bytes) : list bytes := field_at r <$> cs.

Lemma canon_some c f : c ∈ cols → wf_field c f →
  canon c (text_of_field c f) = Some (default [] (canon c (text_of_field c f))).
Proof. intros Hc Hf. destruct (canon_spells c f Hc Hf) as (t' & -> & _). done. Qed.

Lemma canon_texts cs r : wf_cols cs r →
  Forall2 (λ ct v, canon ct.1 ct.2 = Some v) (zip cs (texts cs r)) (img cs r).
Proof.
  induction 1 as [|c cs [Hc Hf] _ IH]; [constructor|]. constructor; [by apply canon_some|done].
Qed.

Lemma canon_inj c f f' : c ∈ cols → wf_field c f → wf_field c f' →
  default [] (canon c (text_of_field c f)) = default [] (canon c (text_of_field c f')) → f = f'.
Proof.
  intros Hc Hf Hf' H. destruct (canon_spells c f Hc Hf) as (t & E & Ht).
  destruct (canon_spells c f' Hc Hf') as (t' & E' & Ht'). rewrite E, E' in H. simpl in H. subst t'.
  pose proof (field_back _ _ _ Hf Ht) as H1. pose proof (field_back _ _ _ Hf' Ht') as H2. congruence.
Qed.

Lemma img_inj cs r r' : wf_cols cs r → wf_cols cs r' → img cs r = img cs r' ↔ fields cs r = fields cs r'.
Proof.
  intros H1 H2. split.
  - unfold img, fields. induction cs as [|c cs IH]; [done|]. apply Forall_cons in H1 as [[Hc Hf] H1].
    apply Forall_cons in H2 as [[_ Hf'] H2]. rewrite !fmap_cons. intros E.
    f_equal; [|apply IH; [done|done|congruence]]. apply (canon_inj c); [done|done|done|congruence].
  - unfold img, fields. induction cs as [|c cs IH]; [done|]. apply Forall_cons in H1 as [_ H1].
    apply Forall_cons in H2 as [_ H2]. rewrite !fmap_cons. intros E.
    assert (field_at r c = field_at r' c) as -> by congruence. f_equal. apply IH; [done|done|congruence].
Qed.

Lemma row_img_lookup r i :
  row_img r !! i = (λ c, default [] (canon c (text_of_field c (field_at r c)))) <$> cols !! i.
Proof. apply list_lookup_fmap. Qed.

Lemma mapM_img ixs cs r : mapM (λ i, cols !! i) ixs = Some cs → mapM (λ i, row_img r !! i) ixs = Some (img cs r).
Proof.
  revert cs. induction ixs as [|i ixs IH]; intros cs H; [by injection H as <-|]. cbn [mapM] in *.
  destruct (cols !! i) as [c|] eqn:Ec; [|done]. cbn [mbind option_bind] in H.
  destruct (mapM _ ixs) as [cs'|] eqn:Es; [|done]. injection H as <-.
  rewrite row_img_lookup, Ec. cbn [fmap option_fmap option_map mbind option_bind].
  rewrite (IH _ eq_refl). done.
Qed.

Lemma matches_img ixs cs r r' : mapM (λ i, cols !! i) ixs = Some cs → wf_cols cs r → wf_cols cs r' →
  matches ixs (img cs r) (row_img r') ↔ fields cs r' = fields cs r.
Proof.
  intros Hm H1 H2. unfold matches. rewrite (mapM_img _ _ _ Hm), <-(img_inj cs r' r) by done. split; congruence.
Qed.

(** Selecting by a key among the rows of some records. *)
Lemma filter_img ixs cs r recs : mapM (λ i, cols !! i) ixs = Some cs → wf_cols cs r → Forall (wf_cols cs) recs →
  filter (matches ixs (img cs r)) (row_img <$> recs) = row_img <$> filter (λ r', fields cs r' = fields cs r) recs.
Proof.
  intros Hm Hr. induction 1 as [|r' recs Hr' _ IH]; [done|]. rewrite fmap_cons, !filter_cons.
  pose proof (matches_img ixs cs r r' Hm Hr Hr') as Hi.
  destruct (decide (matches _ _ _)), (decide (fields _ _ = _)); [|tauto|tauto|]; rewrite ?fmap_cons; by rewrite IH.
Qed.

Lemma filter_not_img ixs cs r recs : mapM (λ i, cols !! i) ixs = Some cs → wf_cols cs r → Forall (wf_cols cs) recs →
  filter (λ x, ¬ matches ixs (img cs r) x) (row_img <$> recs) =
    row_img <$> filter (λ r', fields cs r' ≠ fields cs r) recs.
Proof.
  intros Hm Hr. induction 1 as [|r' recs Hr' _ IH]; [done|]. rewrite fmap_cons, !filter_cons.
  pose proof (matches_img ixs cs r r' Hm Hr Hr') as Hi.
  destruct (decide (¬ matches _ _ _)), (decide (fields _ _ ≠ _)); [|tauto|tauto|]; rewrite ?fmap_cons; by rewrite IH.
Qed.

(** A row comes back as its record. *)
Lemma row_back r area : layout_ok cols 0 → length r = cols_len cols → length area = cols_len cols → wf_cols cols r →
  pq2cob cols (row_img r) area = Some r.
Proof.
  intros Hl Hr Ha Hwf. unfold pq2cob. rewrite (pq2cob_loop_back cols r); [|done|lia|lia|done| |].
  - simpl. rewrite take_ge, drop_ge by lia. by rewrite app_nil_r.
  - eapply Forall_impl; [exact Hwf|]. by intros c [_ ?].
  - unfold row_img, img. apply Forall2_fmap_r, Forall_Forall2_diag. eapply Forall_impl; [exact Hwf|].
    intros c [Hc Hf]. destruct (canon_spells c _ Hc Hf) as (t' & E & Ht). unfold compose. by rewrite E.
Qed.

(** An update of the columns [sets] turns the row of [r] into the row of [r'] when the two
    records agree on the other columns. *)
Lemma set_row_img sets cs r r' : mapM (λ i, cols !! i) sets = Some cs →
  (∀ i c, cols !! i = Some c → i ∉ sets → field_at r c = field_at r' c) →
  set_row sets (img cs r') (row_img r) = row_img r'.
Proof.
  intros Hm Hag. unfold set_row. apply list_eq. intros i. rewrite list_lookup_imap.
  rewrite !row_img_lookup.
  destruct (cols !! i) as [c|] eqn:Ec; [|done]. cbn [fmap option_fmap option_map].
  destruct (list_find (eq i) sets) as [[j x]|] eqn:Ef.
  - apply list_find_Some in Ef as (Hj & -> & _).
    assert (img cs r' !! j = Some (default [] (canon c (text_of_field c (field_at r' c))))) as ->; [|done].
    unfold img. rewrite list_lookup_fmap.
    assert (cs !! j = Some c) as ->; [|done].
    apply mapM_Some in Hm. destruct (Forall2_lookup_l _ _ _ _ _ Hm Hj) as (c' & -> & E). congruence.
  - apply list_find_None in Ef. rewrite (Hag i c Ec); [done|]. intros Hin.
    rewrite Forall_forall in Ef. by eapply Ef.
Qed.

End rows.
