(* ===== verification/DbSession.v ===== *)
(** The session of an open table: its prepared statements agree with the flags of the
    table, through the preparation of each statement (src/op_read_random.c,
    src/op_write.c, src/op_rewrite.c, src/op_delete.c). *)

From stdpp Require Import prelude gmap strings.
From S2P Require Import Prelude Fhtypes Fcd Table Kdb Libpq DbRead DbWrite Sql DbRows.
Local Open Scope Z_scope.

Section runs.
Context {D : Type} `{!Libpq D}.

Lemma tab_at_run (s : dbs D) a t : tabs s !! a = Some t → tab_at a s = (s, inr t).
Proof. intros H. unfold tab_at. erewrite bind_ok by apply gets_run. by rewrite H. Qed.

Lemma on_tab_run (s : dbs D) a t f : tabs s !! a = Some t →
  on_tab a f s = (mk_dbs (conn s) (gdb s) (<[a:=f t]> (tabs s)) (tabs_brk s), inr tt).
Proof. intros H. unfold on_tab. by rewrite (bind_ok _ _ _ _ _ (tab_at_run _ _ _ H)). Qed.

Lemma setd_run f (s : dbs D) : setd f s = (mk_dbs (conn s) (f (gdb s)) (tabs s) (tabs_brk s), inr tt).
Proof. done. Qed.

Lemma getd_run {A} (f : globals_db → A) (s : dbs D) : getd f s = (s, inr (f (gdb s))).
Proof. done. Qed.

Lemma pq_run f (s : dbs D) d r : f (conn s) = (d, r) → pq f s = (mk_dbs d (gdb s) (tabs s) (tabs_brk s), inr r).
Proof. intros H. unfold pq. by rewrite H. Qed.

Lemma fit_run n b (s : dbs D) : Z.of_nat (length b) <= n → fit n b s = (s, inr b).
Proof. intros H. unfold fit. by rewrite (proj2 (Z.leb_le _ _) H). Qed.

End runs.

(** ** The names of the statements *)

Lemma fmt_key k : (k < MAX_KEYS)%nat →
  fmt_d (Z.of_nat k) ≠ bs "ins" ∧ fmt_d (Z.of_nat k) ≠ bs "upd" ∧ fmt_d (Z.of_nat k) ≠ bs "del" ∧
  (length (fmt_d (Z.of_nat k)) ≤ 2)%nat.
Proof.
  intros Hk. assert (forallb (λ k, bool_decide (fmt_d (Z.of_nat k) ≠ bs "ins" ∧ fmt_d (Z.of_nat k) ≠ bs "upd" ∧
    fmt_d (Z.of_nat k) ≠ bs "del" ∧ (length (fmt_d (Z.of_nat k)) ≤ 2)%nat)) (seq 0 MAX_KEYS) = true) as H by by vm_compute.
  rewrite forallb_forall in H. specialize (H k). rewrite bool_decide_eq_true in H. apply H, in_seq. lia.
Qed.

Lemma fmt_key_inj k k' : (k < MAX_KEYS)%nat → (k' < MAX_KEYS)%nat →
  fmt_d (Z.of_nat k) = fmt_d (Z.of_nat k') → k = k'.
Proof.
  intros Hk Hk' E. assert (forallb (λ k, forallb (λ k', (k =? k')%nat || negb (bool_decide (fmt_d (Z.of_nat k) = fmt_d (Z.of_nat k'))))
    (seq 0 MAX_KEYS)) (seq 0 MAX_KEYS) = true) as H by by vm_compute.
  rewrite forallb_forall in H. specialize (H k (proj2 (in_seq MAX_KEYS 0 k) ltac:(lia))).
  rewrite forallb_forall in H. specialize (H k' (proj2 (in_seq MAX_KEYS 0 k') ltac:(lia))).
  rewrite bool_decide_true in H by done. rewrite orb_false_r in H. by apply Nat.eqb_eq in H.
Qed.

(** ** Parameter lists *)

Lemma numbered_strip cs n : set_p 0 <$> numbered cs n = set_p 0 <$> cs.
Proof. unfold numbered. apply list_eq. intros i. rewrite !list_lookup_fmap, list_lookup_imap. by destruct (cs !! i). Qed.

Lemma number_cols_same cols cols' : same_cols cols cols' → same_cols cols (number_cols cols').
Proof.
  intros H. unfold same_cols, number_cols. rewrite H. apply list_eq. intros i.
  rewrite !list_lookup_fmap, list_lookup_imap. by destruct (cols' !! i).
Qed.

Lemma number_sets_same cols cols' p : same_cols cols cols' → same_cols cols (number_sets cols' p).
Proof.
  intros H. unfold same_cols in *. rewrite H. clear H. revert p. induction cols' as [|c cs IH]; intros p; [done|].
  cbn [number_sets]. destruct (col_pk c); rewrite !fmap_cons; by rewrite <-IH.
Qed.

Lemma names_cols cols ixs cs : mapM (λ i, cols !! i) ixs = Some cs → names cols ixs = col_name <$> cs.
Proof.
  revert cs. induction ixs as [|i ixs IH]; intros cs H; [by injection H as <-|]. cbn [mapM] in H.
  destruct (cols !! i) as [c|] eqn:Ec; [|done]. cbn [mbind option_bind] in H.
  destruct (mapM _ ixs) as [cs'|] eqn:Es; [|done]. injection H as <-.
  unfold names in *. cbn [omap list_omap]. rewrite Ec. cbn [fmap option_fmap option_map]. by rewrite (IH _ eq_refl).
Qed.

(** ** The columns outside the primary key *)

Definition nonpk (cols : list column_t) : list column_t := filter (λ c, col_pk c = false) cols.

Lemma set_cols_from pre cols :
  mapM (λ i, (pre ++ cols) !! i)
    (filter (λ i, col_pk <$> (pre ++ cols) !! i = Some false) (seq (length pre) (length cols))) = Some (nonpk cols).
Proof.
  revert pre. induction cols as [|c cols IH]; intros pre; [done|].
  cbn [length seq]. rewrite filter_cons, list_lookup_middle by done. unfold nonpk. rewrite filter_cons.
  specialize (IH (pre ++ [c])). rewrite length_app in IH. cbn [length] in IH.
  rewrite Nat.add_1_r, <-app_assoc in IH. cbn [app] in IH. cbn [fmap option_fmap option_map].
  destruct (col_pk c) eqn:E.
  - rewrite decide_False by congruence. rewrite decide_False by congruence. exact IH.
  - rewrite decide_True by done. rewrite decide_True by done. cbn [mapM].
    rewrite list_lookup_middle by done. cbn [mbind option_bind]. by rewrite IH.
Qed.

Lemma set_cols_run cols : mapM (λ i, cols !! i) (set_cols cols) = Some (nonpk cols).
Proof. apply (set_cols_from [] cols). Qed.

Lemma nonpk_same cols cols' : same_cols cols cols' → set_p 0 <$> nonpk cols' = set_p 0 <$> nonpk cols.
Proof.
  unfold same_cols, nonpk. revert cols'. induction cols as [|c cols IH]; intros [|c' cols'] H; try done.
  rewrite !fmap_cons in H. assert (set_p 0 c = set_p 0 c' ∧ set_p 0 <$> cols = set_p 0 <$> cols') as [H1 H2] by (split; congruence).
  rewrite !filter_cons. assert (col_pk c' = col_pk c) as -> by (injection H1; congruence).
  destruct (decide _); [|by apply IH]. rewrite !fmap_cons, H1. f_equal. by apply IH.
Qed.

Lemma set_clauses_text cols p :
  set_clauses cols p = (set_text (col_name <$> nonpk cols) p, (p + length (nonpk cols))%nat).
Proof.
  revert p. induction cols as [|c cols IH]; intros p; [simpl; by rewrite Nat.add_0_r|].
  cbn [set_clauses]. unfold nonpk. rewrite filter_cons. destruct (col_pk c) eqn:E.
  - rewrite decide_False by congruence. apply IH.
  - rewrite decide_True by done. rewrite IH. cbn [fst snd fmap list_fmap set_text length].
    rewrite Nat.add_succ_r. done.
Qed.

Lemma same_names (cols cols' : list column_t) : set_p 0 <$> cols = set_p 0 <$> cols' → col_name <$> cols' = col_name <$> cols.
Proof.
  intros H. assert (∀ l : list column_t, col_name <$> l = col_name <$> (set_p 0 <$> l)) as Hn.
  { intros l. by rewrite <-list_fmap_compose. }
  by rewrite (Hn cols), (Hn cols'), H.
Qed.

Section file.
Context {D : Type} `{!Libpq D} {schema name : bytes} {cols : list column_t} {keys : list key_t}.
Context `{!PgTable D schema name cols keys} (ts : bytes).

(** The columns at some positions. *)
Definition cols_at (ixs : list nat) : list column_t := default [] (mapM (λ i, cols !! i) ixs).

(** The files the operations are for: the columns fill the record, every key has columns
    and fits the buffers, and the names and statements fit theirs. *)
Record file_wf : Prop := {
  fw_layout : layout_ok cols 0;
  fw_cols : Forall (λ c, (length (col_name c) ≤ MAX_NAME_LEN)%nat ∧ (0 < col_len c ≤ 255)%nat ∧ (col_dec c ≤ col_len c)%nat) cols;
  fw_len : Z.of_nat (cols_len cols) <= MAX_REC_LEN;
  fw_nkeys : (0 < length keys ≤ MAX_KEYS)%nat;
  fw_key key : key ∈ keys → k_columns key ≠ [] ∧ (∀ i, i ∈ k_columns key → (i < length cols)%nat) ∧
    (cols_len (cols_at (k_columns key)) ≤ MAX_KEY_LEN)%nat;
  fw_pk i c : cols !! i = Some c → col_pk c = true ↔ i ∈ pk_ixs keys;
  fw_set : set_cols cols ≠ [];
  fw_texts q : q ∈ file_stmts cols keys → Z.of_nat (length (stmt_text schema name cols q)) <= MAX_REC_LEN;
  fw_name : (length name + length ts ≤ 59)%nat;
}.

Definition sname (suffix : bytes) : bytes := name ++ bs "_" ++ ts ++ bs "_" ++ suffix.

(** A statement is prepared, or its name is free. *)
Definition slot (d : D) (b : bool) (n : bytes) (q : stmt) : Prop :=
  if b then pg_prepared d n = Some q else pg_free d n.

(** The table agrees with the session. *)
Record tab_ok (d : D) (t : table_t) : Prop := {
  to_schema : t_schema t = schema;
  to_name : t_name t = name;
  to_ts : t_timestamp t = ts;
  to_cols : same_cols cols (t_columns t);
  to_keys : t_keys t = keys;
  to_clones : t_clones t = [];
  to_nread : length (t_read_prepared t) = MAX_KEYS;
  to_nprms : length (t_prms_random t) = MAX_KEYS;
  to_read k key b : keys !! k = Some key → t_read_prepared t !! k = Some b →
    slot d b (sname (fmt_d (Z.of_nat k))) (SSelect (k_columns key)) ∧
    (b = true → ∃ prms, t_prms_random t !! k = Some prms ∧ set_p 0 <$> prms = set_p 0 <$> cols_at (k_columns key));
  to_ins : slot d (t_ins_prepared t) (sname (bs "ins")) SInsert;
  to_upd : slot d (t_upd_prepared t) (sname (bs "upd")) (SUpdate (set_cols cols) (pk_ixs keys)) ∧
    (t_upd_prepared t = true → set_p 0 <$> t_prms_rewrite t = set_p 0 <$> cols_at (pk_ixs keys));
  to_del : slot d (t_del_prepared t) (sname (bs "del")) (SDelete (pk_ixs keys)) ∧
    (t_del_prepared t = true → set_p 0 <$> t_prms_delete t = set_p 0 <$> cols_at (pk_ixs keys));
  to_over k : keys !! k = None → t_read_prepared t !! k ≠ Some true;
}.

(** The statements of [d'] are those of [d], with [n] prepared. *)
Definition kept (d d' : D) (ns : list bytes) : Prop :=
  ∀ m, m ∉ ns → pg_prepared d' m = pg_prepared d m ∧ (pg_free d m → pg_free d' m).

Lemma sname_inj x y : sname x = sname y → x = y.
Proof. unfold sname. intros H. do 4 apply app_inv_head in H. done. Qed.

Lemma slot_kept d d' b n q ns : kept d d' ns → n ∉ ns → slot d b n q → slot d' b n q.
Proof. intros H Hn. destruct (H n Hn) as [H1 H2]. unfold slot. destruct b; [by rewrite H1|done]. Qed.

Lemma tab_ok_kept d d' t : kept d d' [] → tab_ok d t → tab_ok d' t.
Proof.
  intros H [? ? ? ? ? ? ? ? Hr Hi [Hu Hu'] [Hd Hd'] ?]. split; try done.
  - intros k key b Hk Hb. destruct (Hr k key b Hk Hb). split; [|done]. by eapply slot_kept; [|apply not_elem_of_nil|].
  - by eapply slot_kept; [|apply not_elem_of_nil|].
  - split; [|done]. by eapply slot_kept; [|apply not_elem_of_nil|].
  - split; [|done]. by eapply slot_kept; [|apply not_elem_of_nil|].
Qed.

(** The file in a state of the program: the table at an address, with no error pending. *)
Definition sess_ok (s : dbs D) (a : Z) (t : table_t) : Prop :=
  tabs s !! a = Some t ∧ tab_ok (conn s) t ∧ d_partial_weak (gdb s) = false ∧ d_erros (gdb s) = [].

(** What the reads along a cursor depend on is left as it was. *)
Definition scan_same (t t' : table_t) : Prop :=
  t_first t' = t_first t ∧ t_cursor t' = t_cursor t ∧ t_partial_key t' = t_partial_key t ∧
  (t_restart t = 0 → t_restart t' = 0).
(** The globals an operation shares with the dispatcher; the flag of a fatal error may be cleared. *)
Definition shared (g : globals_db) : Z * Z * bool * bool := (d_mode g, d_table_mode g, d_lock g, d_lock_manual g).
Definition gdb_same (g g' : globals_db) : Prop :=
  d_eof_start g' = d_eof_start g ∧ d_weak g' = d_weak g ∧ d_force_partial g' = d_force_partial g ∧ shared g' = shared g ∧
  (d_fatal g = false → d_fatal g' = false).
Definition frame (a : Z) (s s' : dbs D) : Prop :=
  (∀ m, pg_cursor (conn s') m = pg_cursor (conn s) m) ∧ gdb_same (gdb s) (gdb s') ∧
  ∃ t t', tabs s !! a = Some t ∧ tabs s' !! a = Some t' ∧ scan_same t t'.

Lemma frame_refl a (s : dbs D) t : tabs s !! a = Some t → frame a s s.
Proof. intros H. split; [done|]. split; [done|]. by exists t, t. Qed.

Lemma frame_trans a (s1 s2 s3 : dbs D) : frame a s1 s2 → frame a s2 s3 → frame a s1 s3.
Proof.
  intros (C1 & (G1 & G2 & G3 & G4 & G5) & t1 & t2 & T1 & T2 & (A1 & A2 & A3 & A4)) (C2 & (K1 & K2 & K3 & K4 & K5) & t2' & t3 & T2' & T3 & (B1 & B2 & B3 & B4)).
  assert (t2' = t2) as -> by congruence. split; [intros m; by rewrite C2|]. split; [split_and!; try congruence; auto|].
  exists t1, t3. split_and!; try congruence. split_and!; try congruence. auto.
Qed.

Lemma frame_to a (s s' : dbs D) t t' : tabs s !! a = Some t → tabs s' !! a = Some t' → scan_same t t' →
  gdb_same (gdb s) (gdb s') → (∀ m, pg_cursor (conn s') m = pg_cursor (conn s) m) → frame a s s'.
Proof. intros Ha Ha' Ht Hg Hc. split; [done|]. split; [done|]. by exists t, t'. Qed.

Context (Hwf : file_wf).

Lemma key_cols_run key : key ∈ keys →
  ∃ c cs, mapM (λ i, cols !! i) (k_columns key) = Some (c :: cs) ∧ cols_at (k_columns key) = c :: cs ∧
    Forall (λ c, (length (col_name c) ≤ MAX_NAME_LEN)%nat) (c :: cs) ∧ Forall (λ c, c ∈ cols) (c :: cs).
Proof.
  intros Hk. destruct (fw_key Hwf key Hk) as (Hne & Hin & _). unfold cols_at.
  assert (∃ cs, mapM (λ i, cols !! i) (k_columns key) = Some cs ∧ Forall (λ c, c ∈ cols) cs) as (cs & Hm & Hcs).
  { clear Hne. induction (k_columns key) as [|i ixs IH]; [by exists []|].
    destruct (lookup_lt_is_Some_2 cols i) as [c Hc]; [apply Hin; by left|].
    destruct IH as (cs & Hm & Hcs); [intros j Hj; apply Hin; by right|].
    exists (c :: cs). cbn [mapM]. rewrite Hc. cbn [mbind option_bind]. rewrite Hm. split; [done|].
    constructor; [by eapply list_elem_of_lookup_2|done]. }
  rewrite Hm. destruct cs as [|c cs].
  { apply length_mapM in Hm. by destruct (k_columns key). }
  exists c, cs. split; [done|]. split; [done|]. split; [|done]. eapply Forall_impl; [exact Hcs|].
  intros x Hx. pose proof (fw_cols Hwf) as Hc. rewrite Forall_forall in Hc. by apply Hc.
Qed.

Lemma pk_ixs_key key : keys !! 0%nat = Some key → pk_ixs keys = k_columns key.
Proof. unfold pk_ixs. destruct keys; [done|]. by intros [= ->]. Qed.

Lemma pk_key : ∃ key, keys !! 0%nat = Some key ∧ key ∈ keys ∧ pk_ixs keys = k_columns key.
Proof.
  pose proof (fw_nkeys Hwf). destruct (lookup_lt_is_Some_2 keys 0) as [key Hk]; [lia|].
  exists key. split; [done|]. split; [by eapply list_elem_of_lookup_2|by apply pk_ixs_key].
Qed.

Lemma stmt_name_eq d t suffix : tab_ok d t → stmt_name t suffix = sname suffix.
Proof. intros H. unfold stmt_name, sname. by rewrite (to_name _ _ H), (to_ts _ _ H). Qed.

Lemma sname_fits suffix (s : dbs D) : (length suffix ≤ 3)%nat → fit 64 (sname suffix) s = (s, inr (sname suffix)).
Proof. intros H. apply fit_run. pose proof (fw_name Hwf). unfold sname. rewrite !length_app. simpl. lia. Qed.

(** ** The preparation of a statement *)

(** A statement for a free name: the others keep their places. *)
Lemma prepare_run suffix q (s : dbs D) : pg_free (conn s) (sname suffix) → q ∈ file_stmts cols keys → stmt_wf cols q →
  ∃ d', pq (PQprepare (sname suffix) (stmt_text schema name cols q) (nparams cols q)) s =
      (mk_dbs d' (gdb s) (tabs s) (tabs_brk s), inr (mk_res PGRES_COMMAND_OK [])) ∧
    pg_prepared d' (sname suffix) = Some q ∧ kept (conn s) d' [sname suffix] ∧ pg_rows d' = pg_rows (conn s) ∧
    (∀ m, pg_cursor d' m = pg_cursor (conn s) m).
Proof.
  intros Hf Hq Hw. destruct (pg_prepare _ _ _ Hf Hq Hw) as (d' & E & Hp & Hk & Hr & Hc). exists d'.
  split; [by apply pq_run|]. split; [done|]. split; [|done]. intros m Hm. apply Hk.
  intros ->. apply Hm. by left.
Qed.

Lemma other_sname x y : x ≠ y → sname x ∉ [sname y].
Proof. intros H [E|E]%elem_of_cons; [by apply sname_inj in E|by apply elem_of_nil in E]. Qed.

Lemma select_in key : key ∈ keys → SSelect (k_columns key) ∈ file_stmts cols keys.
Proof. intros H. unfold file_stmts. apply elem_of_app. left. by apply (list_elem_of_fmap_2 (SSelect ∘ k_columns)). Qed.

Lemma keys_bound k key : keys !! k = Some key → (k < MAX_KEYS)%nat ∧ key ∈ keys.
Proof.
  intros H. pose proof (fw_nkeys Hwf). split; [apply lookup_lt_Some in H; lia|by eapply list_elem_of_lookup_2].
Qed.

(** The condition on a key, and the parameters it leaves. *)
Lemma key_where_run cols' keyid key ini : same_cols cols cols' → keys !! keyid = Some key →
  ∃ cols'' prms, getwhere_prepared cols' keys false keyid ini =
      Some (eq_text ini (names cols (k_columns key)), prms, cols'') ∧
    same_cols cols cols'' ∧ set_p 0 <$> prms = set_p 0 <$> cols_at (k_columns key) ∧
    length prms = length (k_columns key).
Proof.
  intros Hs Hk. destruct (keys_bound _ _ Hk) as [_ Hin].
  destruct (key_cols_run key Hin) as (c & cs & Hm & -> & Hn & _).
  unfold getwhere_prepared. rewrite Hk.
  destruct (adiciona_prepared_run cols (length (k_columns key)) (k_columns key) 0 ini [] [] cols' c cs)
    as (cols'' & E & Hs'); [done|done|done|done|].
  exists cols'', (numbered (c :: cs) ini). rewrite (names_cols _ _ _ Hm). split; [exact E|]. split; [done|].
  split; [apply numbered_strip|]. apply length_mapM in Hm. unfold numbered. by rewrite length_imap.
Qed.

Lemma tab_ok_read d d' t k key cols' prms : tab_ok d t → keys !! k = Some key →
  kept d d' [sname (fmt_d (Z.of_nat k))] →
  pg_prepared d' (sname (fmt_d (Z.of_nat k))) = Some (SSelect (k_columns key)) → same_cols cols cols' →
  set_p 0 <$> prms = set_p 0 <$> cols_at (k_columns key) →
  tab_ok d' (set_t_read_prepared (<[k:=true]> (t_read_prepared t))
    (set_t_columns cols' (set_t_prms_random (<[k:=prms]> (t_prms_random t)) t))).
Proof.
  intros Ht Hk Hkept Hp Hs Hprms. destruct (keys_bound _ _ Hk) as [Hb _].
  destruct (fmt_key k Hb) as (H1 & H2 & H3 & _).
  split; try apply Ht; cbn [t_columns t_read_prepared t_prms_random t_ins_prepared t_upd_prepared t_del_prepared
      t_prms_rewrite t_prms_delete set_t_read_prepared set_t_columns set_t_prms_random]; rewrite ?length_insert; try apply Ht.
  - done.
  - intros k' key' b Hk' Hb'. destruct (keys_bound _ _ Hk') as [Hlt _].
    destruct (decide (k' = k)) as [->|Hne].
    + rewrite list_lookup_insert_eq in Hb' by (rewrite (to_nread _ _ Ht); done). injection Hb' as <-.
      replace key' with key by congruence. split; [done|]. intros _. exists prms. split; [|done].
      apply list_lookup_insert_eq. by rewrite (to_nprms _ _ Ht).
    + rewrite list_lookup_insert_ne in Hb' by done. rewrite list_lookup_insert_ne by done.
      destruct (to_read _ _ Ht _ _ _ Hk' Hb') as [Hsl Hpr]. split; [|done].
      eapply slot_kept; [done| |done]. apply other_sname. intros E. by apply fmt_key_inj in E.
  - eapply slot_kept; [done| |apply Ht]. by apply other_sname.
  - split; [|apply Ht]. eapply slot_kept; [done| |apply Ht]. by apply other_sname.
  - split; [|apply Ht]. eapply slot_kept; [done| |apply Ht]. by apply other_sname.
  - intros k' Hk'. rewrite list_lookup_insert_ne by congruence. by apply Ht.
Qed.

(** The slots of the other statements keep their places when one is prepared. *)
Lemma reads_kept d d' t suffix : tab_ok d t → kept d d' [sname suffix] →
  (∀ k, (k < MAX_KEYS)%nat → fmt_d (Z.of_nat k) ≠ suffix) →
  ∀ k key b, keys !! k = Some key → t_read_prepared t !! k = Some b →
    slot d' b (sname (fmt_d (Z.of_nat k))) (SSelect (k_columns key)) ∧
    (b = true → ∃ prms, t_prms_random t !! k = Some prms ∧ set_p 0 <$> prms = set_p 0 <$> cols_at (k_columns key)).
Proof.
  intros Ht Hkept Hne k key b Hk Hb. destruct (to_read _ _ Ht _ _ _ Hk Hb) as [Hsl Hpr]. split; [|done].
  eapply slot_kept; [done| |done]. apply other_sname, Hne. by eapply keys_bound.
Qed.

(** The read of a key is prepared, once. *)
Lemma read_prepare_run (s : dbs D) a t k key : sess_ok s a t → keys !! k = Some key →
  ∃ s' t', read_prepare a k s = (s', inr tt) ∧ sess_ok s' a t' ∧ pg_rows (conn s') = pg_rows (conn s) ∧
    t_read_prepared t' !! k = Some true ∧ frame a s s'.
Proof.
  intros (Ha & Ht & Hw & He) Hk. destruct (keys_bound _ _ Hk) as [Hb Hin].
  unfold read_prepare. rewrite (bind_ok _ _ _ _ _ (tab_at_run _ _ _ Ha)).
  destruct (lookup_lt_is_Some_2 (t_read_prepared t) k) as [b Hp]; [by rewrite (to_nread _ _ Ht)|].
  destruct (to_read _ _ Ht _ _ _ Hk Hp) as [Hsl Hpr]. rewrite Hp. cbn [of_option].
  rewrite (bind_ok _ _ s s b eq_refl). destruct b; [exists s, t; split_and!; try done; by eapply frame_refl|].
  rewrite (bind_ok _ _ _ _ _ (getd_run _ _)), Hw, (to_keys _ _ Ht).
  destruct (key_where_run (t_columns t) k key 0 (to_cols _ _ Ht) Hk) as (cols' & prms & -> & Hs & Hprms & Hlen).
  cbn [of_option]. rewrite (bind_ok _ _ s s _ eq_refl). cbv beta iota zeta.
  rewrite (bind_ok _ _ _ _ _ (on_tab_run _ _ _ _ Ha)). cbv beta.
  assert (bs "select * from " ++ t_schema t ++ bs "." ++ t_name t ++ bs " where " ++ eq_text 0 (names cols (k_columns key))
    = stmt_text schema name cols (SSelect (k_columns key))) as ->.
  { rewrite (to_schema _ _ Ht), (to_name _ _ Ht). unfold stmt_text. by rewrite <-!app_assoc. }
  pose proof (select_in key Hin) as Hq. rewrite (bind_ok _ _ _ _ _ (fit_run _ _ _ (fw_texts Hwf _ Hq))).
  rewrite (stmt_name_eq _ _ _ Ht), (bind_ok _ _ _ _ _ (sname_fits (fmt_d (Z.of_nat k)) _ ltac:(pose proof (fmt_key k Hb); lia))).
  destruct (prepare_run (fmt_d (Z.of_nat k)) _ (mk_dbs (conn s) (gdb s)
    (<[a:=set_t_columns cols' (set_t_prms_random (<[k:=prms]> (t_prms_random t)) t)]> (tabs s)) (tabs_brk s)) Hsl Hq
    (proj1 (fw_key Hwf key Hin))) as (d' & E & Hd & Hkept & Hrows & Hcur).
  cbn [nparams] in E. rewrite <-Hlen in E. rewrite (bind_ok _ _ _ _ _ E). change (is_command_ok _) with true. cbv iota.
  erewrite on_tab_run by apply lookup_insert_eq. eexists _, _. split; [done|]. split; [|split; [done|]].
  - split; [apply lookup_insert_eq|]. split; [|done]. apply (tab_ok_read (conn s) d' t k key cols' prms); done.
  - cbn [t_read_prepared set_t_read_prepared set_t_columns set_t_prms_random]. split.
    + apply list_lookup_insert_eq. by rewrite (to_nread _ _ Ht).
    + by eapply frame_to; [done|apply lookup_insert_eq| | |].
Qed.

Lemma nonpk_length_same cols' : same_cols cols cols' → length (nonpk cols') = length (nonpk cols).
Proof. intros H%nonpk_same%(f_equal length). by rewrite !length_fmap in H. Qed.

(** The insert is prepared, once. *)
Lemma write_prepare_run (s : dbs D) a t : sess_ok s a t →
  ∃ s' t', write_prepare a s = (s', inr tt) ∧ sess_ok s' a t' ∧ pg_rows (conn s') = pg_rows (conn s) ∧
    t_ins_prepared t' = true ∧ frame a s s'.
Proof.
  intros (Ha & Ht & Hw & He). unfold write_prepare. rewrite (bind_ok _ _ _ _ _ (tab_at_run _ _ _ Ha)).
  pose proof (to_ins _ _ Ht) as Hsl. destruct (t_ins_prepared t) eqn:Hp; [exists s, t; split_and!; try done; by eapply frame_refl|].
  assert (insert_text t = stmt_text schema name cols SInsert) as ->.
  { unfold insert_text, stmt_text. rewrite (to_schema _ _ Ht), (to_name _ _ Ht).
    rewrite (same_names _ _ (to_cols _ _ Ht)), (same_cols_length _ _ (to_cols _ _ Ht)). by rewrite <-!app_assoc. }
  assert (SInsert ∈ file_stmts cols keys) as Hq by (unfold file_stmts; set_solver).
  rewrite (bind_ok _ _ _ _ _ (fit_run _ _ _ (fw_texts Hwf _ Hq))).
  rewrite (bind_ok _ _ _ _ _ (on_tab_run _ _ _ _ Ha)), (stmt_name_eq _ _ _ Ht).
  rewrite (bind_ok _ _ _ _ _ (sname_fits (bs "ins") _ ltac:(done))).
  assert (cols ≠ []) as Hne by (intros E; apply (fw_set Hwf); unfold set_cols; by rewrite E).
  destruct (prepare_run (bs "ins") _ (mk_dbs (conn s) (gdb s) (<[a:=set_t_ins_prepared true t]> (tabs s)) (tabs_brk s))
    Hsl Hq Hne) as (d' & E & Hd & Hkept & Hrows & Hcur).
  cbn [nparams] in E. rewrite (same_cols_length _ _ (to_cols _ _ Ht)), (bind_ok _ _ _ _ _ E).
  change (is_command_ok _) with true. cbv iota. eexists _, (set_t_ins_prepared true t).
  split; [done|]. split; [|split; [done|split; [done|]]; by eapply frame_to; [done|apply lookup_insert_eq| | |]].
  split; [apply lookup_insert_eq|]. split; [|done].
  split; try apply Ht.
  - apply (reads_kept _ _ _ _ Ht Hkept). intros k Hk. by apply fmt_key.
  - done.
  - split; [|apply Ht]. eapply slot_kept; [done|by apply other_sname|apply Ht].
  - split; [|apply Ht]. eapply slot_kept; [done|by apply other_sname|apply Ht].
Qed.

(** The update is prepared, once; its parameters are the columns outside the primary key,
    then the key. *)
Lemma rewrite_prepare_run (s : dbs D) a t : sess_ok s a t →
  ∃ s' t', rewrite_prepare a s = (s', inr tt) ∧ sess_ok s' a t' ∧ pg_rows (conn s') = pg_rows (conn s) ∧
    t_upd_prepared t' = true ∧ frame a s s'.
Proof.
  intros (Ha & Ht & Hw & He). unfold rewrite_prepare. rewrite (bind_ok _ _ _ _ _ (tab_at_run _ _ _ Ha)).
  destruct (to_upd _ _ Ht) as [Hsl Hpr]. destruct (t_upd_prepared t) eqn:Hp; [exists s, t; split_and!; try done; by eapply frame_refl|]. cbv zeta.
  rewrite (bind_ok _ _ _ _ _ (getd_run _ _)), Hw, (to_keys _ _ Ht).
  destruct pk_key as (key & Hk & Hin & Hpk). rewrite set_clauses_text. cbn [fst snd].
  destruct (key_where_run (number_sets (t_columns t) 0) 0 key (0 + length (nonpk (t_columns t)))
    (number_sets_same _ _ _ (to_cols _ _ Ht)) Hk) as (cols' & prms & -> & Hs & Hprms & Hlen).
  cbn [of_option]. rewrite (bind_ok _ _ s s _ eq_refl). cbv beta iota zeta.
  rewrite (bind_ok _ _ _ _ _ (on_tab_run _ _ _ _ Ha)). cbv beta.
  pose proof (set_cols_run cols) as Hset. pose proof (length_mapM _ _ _ Hset) as Hsetlen.
  rewrite (nonpk_length_same _ (to_cols _ _ Ht)), <-Hsetlen.
  rewrite (same_names (nonpk cols) (nonpk (t_columns t)) (eq_sym (nonpk_same _ _ (to_cols _ _ Ht)))).
  assert (bs "update " ++ t_schema t ++ bs "." ++ t_name t ++ [10] ++ set_text (col_name <$> nonpk cols) 0 ++ bs "where " ++
    eq_text (0 + length (set_cols cols)) (names cols (k_columns key))
    = stmt_text schema name cols (SUpdate (set_cols cols) (pk_ixs keys))) as ->.
  { rewrite (to_schema _ _ Ht), (to_name _ _ Ht), Hpk. unfold stmt_text. rewrite (names_cols _ _ _ Hset).
    by rewrite <-!app_assoc. }
  assert (SUpdate (set_cols cols) (pk_ixs keys) ∈ file_stmts cols keys) as Hq by (unfold file_stmts; set_solver).
  rewrite (bind_ok _ _ _ _ _ (fit_run _ _ _ (fw_texts Hwf _ Hq))).
  erewrite bind_ok by (apply on_tab_run, lookup_insert_eq).
  rewrite (stmt_name_eq _ _ _ Ht), (bind_ok _ _ _ _ _ (sname_fits (bs "upd") _ ltac:(done))).
  assert (stmt_wf cols (SUpdate (set_cols cols) (pk_ixs keys))) as Hsw.
  { split; [apply (fw_set Hwf)|]. rewrite Hpk. apply (fw_key Hwf key Hin). }
  set (t1 := set_t_upd_prepared true _). set (s1 := mk_dbs _ _ _ _).
  destruct (prepare_run (bs "upd") _ s1 Hsl Hq Hsw) as (d' & E & Hd & Hkept & Hrows & Hcur).
  cbn [nparams] in E. rewrite Hpk, <-Hlen in E. rewrite Hpk, (bind_ok _ _ _ _ _ E).
  change (is_command_ok _) with true. cbv iota. eexists _, t1.
  split; [done|]. split; [|split; [done|split; [done|]]; by eapply frame_to; [done|apply lookup_insert_eq| | |]].
  split; [apply lookup_insert_eq|]. split; [|done].
  split; try apply Ht.
  - exact Hs.
  - apply (reads_kept _ _ _ _ Ht Hkept). intros k' Hk'. by apply fmt_key.
  - eapply slot_kept; [done|by apply other_sname|apply Ht].
  - split; [exact Hd|]. intros _. rewrite Hpk. exact Hprms.
  - split; [|apply Ht]. eapply slot_kept; [done|by apply other_sname|apply Ht].
Qed.

(** The delete is prepared, once. *)
Lemma delete_prepare_run (s : dbs D) a t : sess_ok s a t →
  ∃ s' t', delete_prepare a s = (s', inr tt) ∧ sess_ok s' a t' ∧ pg_rows (conn s') = pg_rows (conn s) ∧
    t_del_prepared t' = true ∧ frame a s s'.
Proof.
  intros (Ha & Ht & Hw & He). unfold delete_prepare. rewrite (bind_ok _ _ _ _ _ (tab_at_run _ _ _ Ha)).
  destruct (to_del _ _ Ht) as [Hsl Hpr]. destruct (t_del_prepared t) eqn:Hp; [exists s, t; split_and!; try done; by eapply frame_refl|].
  rewrite (bind_ok _ _ _ _ _ (getd_run _ _)), Hw, (to_keys _ _ Ht).
  destruct pk_key as (key & Hk & Hin & Hpk).
  destruct (key_where_run (t_columns t) 0 key 0 (to_cols _ _ Ht) Hk) as (cols' & prms & -> & Hs & Hprms & Hlen).
  cbn [of_option]. rewrite (bind_ok _ _ s s _ eq_refl). cbv beta iota zeta.
  rewrite (bind_ok _ _ _ _ _ (on_tab_run _ _ _ _ Ha)). cbv beta.
  assert (bs "delete from " ++ t_schema t ++ bs "." ++ t_name t ++ [10] ++ bs "where " ++
    eq_text 0 (names cols (k_columns key)) = stmt_text schema name cols (SDelete (pk_ixs keys))) as ->.
  { rewrite (to_schema _ _ Ht), (to_name _ _ Ht), Hpk. unfold stmt_text. by rewrite <-!app_assoc. }
  assert (SDelete (pk_ixs keys) ∈ file_stmts cols keys) as Hq by (unfold file_stmts; set_solver).
  rewrite (bind_ok _ _ _ _ _ (fit_run _ _ _ (fw_texts Hwf _ Hq))).
  erewrite bind_ok by (apply on_tab_run, lookup_insert_eq).
  rewrite (stmt_name_eq _ _ _ Ht), (bind_ok _ _ _ _ _ (sname_fits (bs "del") _ ltac:(done))).
  assert (stmt_wf cols (SDelete (pk_ixs keys))) as Hsw by (rewrite Hpk; apply (fw_key Hwf key Hin)).
  set (t1 := set_t_del_prepared true _). set (s1 := mk_dbs _ _ _ _).
  destruct (prepare_run (bs "del") _ s1 Hsl Hq Hsw) as (d' & E & Hd & Hkept & Hrows & Hcur).
  cbn [nparams] in E. rewrite Hpk, <-Hlen in E. rewrite Hpk, (bind_ok _ _ _ _ _ E).
  change (is_command_ok _) with true. cbv iota. eexists _, t1.
  split; [done|]. split; [|split; [done|split; [done|]]; by eapply frame_to; [done|apply lookup_insert_eq| | |]].
  split; [apply lookup_insert_eq|]. split; [|done].
  split; try apply Ht.
  - exact Hs.
  - apply (reads_kept _ _ _ _ Ht Hkept). intros k' Hk'. by apply fmt_key.
  - eapply slot_kept; [done|by apply other_sname|apply Ht].
  - split; [|apply Ht]. eapply slot_kept; [done|by apply other_sname|apply Ht].
  - split; [exact Hd|]. intros _. rewrite Hpk. exact Hprms.
Qed.

End file.
