(* ===== verification/DbSpec.v ===== *)
(** What the operations on a table of the database promise: the table behaves as a file
    of records indexed by its keys.  Each operation is run on a session (DbSession) whose
    rows are those of a list of records (DbRows). *)

From stdpp Require Import prelude gmap strings.
From S2P Require Import Prelude Fhtypes Fcd Table Kdb Libpq DbRead DbWrite Sql DbRows DbSession.
Local Open Scope Z_scope.

Section file.
Context {D : Type} `{!Libpq D} `{!DbCalls D} (log_ok : bool).
Context {schema name : bytes} {cols : list column_t} {keys : list key_t}.
Context `{P : !PgTable D schema name cols keys} (ts : bytes).
Context (Hwf : file_wf (schema:=schema) (name:=name) (cols:=cols) (keys:=keys) ts).

Notation cols_at := (cols_at (cols:=cols)).
Notation sess_ok := (sess_ok (PgTable0:=P) ts).
Notation frame := (frame (PgTable0:=P)).

(** The fields of a key: well formed, numbers without a sign. *)
Definition key_ok (cs : list column_t) (r : bytes) : Prop :=
  ∀ c, c ∈ cs → wf_field c (field_at r c) ∧ (is_num c = true → ∀ x, x ∈ field_at r c → isdigit x = true).

(** The records of the file. *)
Record wf_rec (r : bytes) : Prop := {
  wr_len : length r = cols_len cols;
  wr_fields c : c ∈ cols → wf_field c (field_at r c);
  wr_keys key : key ∈ keys → key_ok (cols_at (k_columns key)) r;
}.

Definition pk_cols : list column_t := cols_at (pk_ixs keys).

(** The table holds the records [recs], at most one for each primary key. *)
Definition rows_ok (d : D) (recs : list bytes) : Prop :=
  pg_rows d ≡ₚ row_img <$> recs ∧ Forall wf_rec recs ∧ NoDup (fields pk_cols <$> recs).

Definition file_ok (s : dbs D) (a : Z) (recs : list bytes) : Prop :=
  (∃ t, sess_ok s a t) ∧ rows_ok (conn s) recs.

(** A call for the table at [a]. *)
Record call_ok (fcd : fcd_t) (a : Z) : Prop := {
  co_open : open_mode fcd ≠ ST_OPEN_CLOSED;
  co_file : getint (file_id fcd) = a;
  co_name : memeq (file_name fcd) (bs "pqfh") 4 = false;
  co_rec : length (record fcd) = cols_len cols;
  co_reclen : getshort (rec_len fcd) = Z.of_nat (cols_len cols);
}.

Lemma col_sizes c : c ∈ cols → (0 < col_len c ≤ 255)%nat ∧ (col_dec c ≤ col_len c)%nat.
Proof. intros H. pose proof (fw_cols ts Hwf) as Hc. rewrite Forall_forall in Hc. by apply Hc. Qed.

Lemma field_rec c r : c ∈ cols → length r = cols_len cols →
  rec_bytes r (col_offset c) (col_len c) = Some (field_at r c).
Proof.
  intros Hc Hr. apply list_elem_of_lookup in Hc as [i Hi]. apply (rec_bytes_field cols i); [apply (fw_layout ts Hwf)|done|lia].
Qed.

Lemma digits_text c f : wf_field c f → is_num c = true → (∀ x, x ∈ f → isdigit x = true) → text_of_field c f = pointed c f.
Proof.
  intros [Hl H] Hn Hd. rewrite Hn in H. destruct H as (_ & ds & b & _ & Hb & [->|[-> _]]).
  - by apply text_of_positive.
  - specialize (Hd (Z.lor b 64)). rewrite elem_of_app, list_elem_of_singleton in Hd. specialize (Hd (or_intror eq_refl)).
    apply isdigit_range in Hb, Hd. exfalso.
    assert (b = 48 ∨ b = 49 ∨ b = 50 ∨ b = 51 ∨ b = 52 ∨ b = 53 ∨ b = 54 ∨ b = 55 ∨ b = 56 ∨ b = 57) as Hc by lia.
    destruct Hc as [->|[->|[->|[->|[->|[->|[->|[->|[->| ->]]]]]]]]]; by destruct Hd as [_ Hd]; vm_compute in Hd.
Qed.

Lemma gives_key cs r : Forall (λ c, c ∈ cols) cs → length r = cols_len cols → key_ok cs r → Forall (gives_text key_param r) cs.
Proof.
  intros Hcs Hr Hk. rewrite Forall_forall in Hcs. apply Forall_forall. intros c Hc. destruct (Hk c Hc) as [Hf Hd].
  split; [done|]. unfold key_param. rewrite (field_rec c r (Hcs c Hc) Hr). cbn [mbind option_bind]. cbv zeta.
  destruct (col_sizes c (Hcs c Hc)) as [H1 H2].
  rewrite (proj2 (Nat.leb_le (col_dec c) (col_len c))) by lia. rewrite (proj2 (Nat.leb_le _ 256)) by (case_match; lia).
  cbn [andb]. f_equal. destruct (is_num c) eqn:Hn.
  - rewrite (digits_text c _ Hf Hn (Hd eq_refl)). cbn [andb].
    assert ((byte_at (field_at r c) 0 =? 0) = false) as ->.
    { apply Z.eqb_neq. destruct Hf as [Hl _]. destruct (field_at r c) as [|x f] eqn:E; [simpl in Hl; lia|].
      unfold byte_at. simpl. intros ->. by specialize (Hd eq_refl 0 ltac:(by left)). }
    unfold pointed. by destruct (0 <? col_dec c)%nat.
  - unfold text_of_field. by rewrite Hn.
Qed.

Lemma gives_plain cs r : Forall (λ c, c ∈ cols) cs → length r = cols_len cols → key_ok cs r →
  (∀ c, c ∈ cs → is_num c = true → col_dec c = 0%nat) → Forall (gives_text plain_param r) cs.
Proof.
  intros Hcs Hr Hk Hdec. rewrite Forall_forall in Hcs. apply Forall_forall. intros c Hc. destruct (Hk c Hc) as [Hf Hd].
  split; [done|]. unfold plain_param. rewrite (field_rec c r (Hcs c Hc) Hr). cbn [mbind option_bind].
  destruct (col_sizes c (Hcs c Hc)) as [H1 H2]. rewrite (proj2 (Nat.leb_le _ 256)) by lia. f_equal.
  destruct (is_num c) eqn:Hn; [|unfold text_of_field; by rewrite Hn].
  rewrite (digits_text c _ Hf Hn (Hd eq_refl)). unfold pointed. by rewrite (Hdec c Hc Hn).
Qed.

Lemma gives_field cs r : Forall (λ c, c ∈ cols) cs → length r = cols_len cols →
  (∀ c, c ∈ cs → wf_field c (field_at r c)) → Forall (gives_text field_param r) cs.
Proof.
  intros Hcs Hr Hk. rewrite Forall_forall in Hcs. apply Forall_forall. intros c Hc.
  split; [by apply Hk|]. unfold field_param. rewrite (field_rec c r (Hcs c Hc) Hr). cbn [mbind option_bind]. cbv zeta.
  destruct (col_sizes c (Hcs c Hc)) as [H1 H2].
  rewrite (proj2 (Nat.leb_le (col_dec c) (col_len c))) by lia. rewrite (proj2 (Nat.leb_le _ 256)) by (case_match; lia).
  rewrite (proj2 (Nat.ltb_lt 0 (col_len c))) by lia. by rewrite orb_true_r.
Qed.

Lemma valida_none (s : dbs D) : d_erros (gdb s) = [] → valida_comando log_ok s = (s, inr tt).
Proof. intros H. unfold valida_comando. by rewrite (bind_ok _ _ _ _ _ (getd_run _ _)), H. Qed.

Lemma fields_length cs r : length r = cols_len cols → Forall (λ c, c ∈ cols) cs → length (mjoin (fields cs r)) = cols_len cs.
Proof.
  intros Hr. induction 1 as [|c cs Hc _ IH]; [done|]. unfold fields, cols_len in *. 
  assert (mjoin (field_at r <$> c :: cs) = field_at r c ++ mjoin (field_at r <$> cs)) as -> by done.
  rewrite length_app, IH. simpl. f_equal.
  pose proof (field_rec c r Hc Hr) as H. unfold rec_bytes in H. destruct (_ <=? _)%nat eqn:E; [|done].
  apply Nat.leb_le in E. unfold field_at. rewrite length_take, length_drop. lia.
Qed.

(** The key of a record is the bytes of its fields. *)
Lemma key_bytes_run cols' key r : same_cols cols cols' → key ∈ keys → length r = cols_len cols →
  key_bytes cols' r (k_columns key) = Some (mjoin (fields (cols_at (k_columns key)) r)).
Proof.
  intros Hs Hin Hr. rewrite (geo_bytes _ cols _ _ (same_cols_geo _ _ Hs)).
  destruct (key_cols_run ts Hwf key Hin) as (c & cs & Hm & Hcs & _ & Hc).
  destruct (fw_key ts Hwf key Hin) as (_ & _ & Hlen). rewrite Hcs in *.
  assert (mapM (λ i, c ← cols !! i; rec_bytes r (col_offset c) (col_len c)) (k_columns key) = Some (fields (c :: cs) r)) as E.
  { revert Hm Hc. generalize (c :: cs). clear - Hr Hwf. induction (k_columns key) as [|i ixs IH]; intros l Hm Hl.
    - by injection Hm as <-.
    - cbn [mapM] in *. destruct (cols !! i) as [x|] eqn:Ex; [|done]. cbn [mbind option_bind] in *.
      destruct (mapM _ ixs) as [l'|] eqn:El; [|done]. injection Hm as <-. apply Forall_cons in Hl as [Hx Hl].
      rewrite (field_rec x r Hx Hr). cbn [mbind option_bind]. by rewrite (IH l' eq_refl Hl). }
  unfold key_bytes. rewrite E. cbn [mbind option_bind]. rewrite (fields_length _ _ Hr Hc).
  by rewrite (proj2 (Nat.leb_le _ _)) by done.
Qed.

Lemma log_key_run (s : dbs D) a t k key r : sess_ok s a t → keys !! k = Some key → length r = cols_len cols →
  log_key t k r s = (s, inr tt).
Proof.
  intros (_ & Ht & _) Hk Hr. destruct (keys_bound ts Hwf _ _ Hk) as [_ Hin]. unfold log_key.
  by rewrite (to_keys _ _ _ Ht), Hk, (key_bytes_run _ _ _ (to_cols _ _ _ Ht) Hin Hr).
Qed.

Lemma key_of_area key r : key ∈ keys → key_ok (cols_at (k_columns key)) r → wf_cols (cols:=cols) (cols_at (k_columns key)) r.
Proof.
  intros Hin Hk. destruct (key_cols_run ts Hwf key Hin) as (c & cs & _ & E & _ & Hc). rewrite E in *.
  rewrite Forall_forall in Hc. apply Forall_forall. intros x Hx. split; [by apply Hc|by apply Hk].
Qed.

Lemma wf_rec_cols cs r : wf_rec r → Forall (λ c, c ∈ cols) cs → wf_cols (cols:=cols) cs r.
Proof. intros Hr Hcs. eapply Forall_impl; [exact Hcs|]. intros c Hc. split; [done|by apply (wr_fields r Hr)]. Qed.

Lemma blit_full (r r' : bytes) : length r' = length r → blit r 0 r' = r'.
Proof. intros H. unfold blit. simpl. rewrite drop_ge by lia. apply app_nil_r. Qed.

(** What a read finds: a record with the fields of the key, or none. *)
Definition found (cs : list column_t) (area : bytes) (recs : list bytes) (o : option bytes) : Prop :=
  match o with
  | Some r => r ∈ recs ∧ fields cs r = fields cs area
  | None => ∀ r, r ∈ recs → fields cs r ≠ fields cs area
  end.

Lemma op_read_random_run (s : dbs D) a t k key recs fcd :
  sess_ok s a t → rows_ok (conn s) recs → call_ok fcd a → getshort (key_id fcd) = Z.of_nat k →
  keys !! k = Some key → key_ok (cols_at (k_columns key)) (record fcd) →
  ∃ s' t' o, op_read_random log_ok fcd s =
      (s', inr (match o with Some r => set_status ST_OK (set_rec r fcd) | None => set_status ST_REC_NOT_FOUND fcd end)) ∧
    sess_ok s' a t' ∧ pg_rows (conn s') = pg_rows (conn s) ∧ found (cols_at (k_columns key)) (record fcd) recs o ∧ frame a s s'.
Proof.
  intros Hs (Hrows & Hrecs & _) Hcall Hid Hk Hkey. unfold op_read_random.
  rewrite (proj2 (Z.eqb_neq _ _) (co_open _ _ Hcall)), (co_file _ _ Hcall), Hid, Nat2Z.id.
  rewrite (bind_ok _ _ _ _ _ (tab_at_run _ _ _ (proj1 Hs))).
  rewrite (bind_ok _ _ _ _ _ (log_key_run _ _ _ _ _ _ Hs Hk (co_rec _ _ Hcall))).
  destruct (read_prepare_run ts Hwf _ _ _ _ _ Hs Hk) as (s1 & t1 & E1 & (Ha1 & Ht1 & Hw1 & He1) & Hr1 & Hp1 & Hfr1).
  rewrite (bind_ok _ _ _ _ _ E1), (bind_ok _ _ _ _ _ (setd_run _ _)).
  erewrite bind_ok by (apply tab_at_run; exact Ha1).
  destruct (to_read _ _ _ Ht1 _ _ _ Hk Hp1) as [Hsl Hpr]. destruct (Hpr eq_refl) as (prms & Hprms & Hstrip).
  rewrite Hprms. cbn [of_option]. rewrite ret_bind.
  destruct (keys_bound ts Hwf _ _ Hk) as [Hlt Hin].
  destruct (key_cols_run ts Hwf key Hin) as (c & cs & Hm & Hcs & _ & Hc).
  pose proof (key_of_area key _ Hin Hkey) as Hwa. rewrite Hcs in *.
  erewrite bind_ok by (apply (set_params_run key_param t1 (record fcd) (c :: cs)); [done|exact Hstrip|];
    apply gives_key; [done|apply (co_rec _ _ Hcall)|done]).
  erewrite bind_ok by (apply valida_none; exact He1).
  rewrite (stmt_name_eq ts _ _ _ Ht1).
  destruct (pg_select _ _ _ _ (texts (c :: cs) (record fcd)) _ Hsl Hm (canon_texts _ _ Hwa)) as (d2 & rows & E2 & Hperm & Hr2 & Hk2).
  { unfold texts. by rewrite length_fmap. }
  erewrite bind_ok by (apply pq_run; exact E2).
  assert (kept (conn s1) d2 []) as Hkept by (intros m _; split; apply Hk2).
  set (s2 := mk_dbs d2 _ _ _).
  assert (sess_ok s2 a t1) as Hs2.
  { split; [exact Ha1|]. split; [by eapply tab_ok_kept|]. by split. }
  assert (pg_rows (conn s2) = pg_rows (conn s)) as Hrs by (etrans; [apply Hr2|done]).
  assert (rows ≡ₚ row_img <$> filter (λ r', fields (c :: cs) r' = fields (c :: cs) (record fcd)) recs) as Hfil.
  { rewrite Hperm, Hr1, Hrows, filter_img; try done. eapply Forall_impl; [exact Hrecs|]. intros r Hr. by apply wf_rec_cols. }
  assert (frame a s s2) as Hfr2.
  { eapply frame_trans; [exact Hfr1|]. eapply frame_to; [exact Ha1|exact Ha1|done|done|]. intros m. apply Hk2. }
  unfold first_tuple. cbn [rs_status rs_rows]. destruct rows as [|row rows].
  - exists s2, t1, None. split; [done|]. split; [done|]. split; [done|]. split; [|exact Hfr2]. intros r Hr E.
    apply Permutation_nil in Hfil. apply fmap_nil_inv in Hfil. apply (filter_nil_not_elem_of _ _ _ Hfil E Hr).
  - assert (row ∈ row_img <$> filter (λ r', fields (c :: cs) r' = fields (c :: cs) (record fcd)) recs) as Hrow.
    { rewrite <-Hfil. by left. }
    apply list_elem_of_fmap in Hrow as (r & -> & Hr). apply list_elem_of_filter in Hr as [Hr1' Hr2'].
    cbn [head]. rewrite (bind_ok _ _ _ _ _ (getd_run _ _)).
    replace (d_partial_weak (gdb s2)) with false by (symmetry; exact Hw1).
    rewrite (same_cols_pq2cob _ _ _ _ (to_cols _ _ _ Ht1)).
    rewrite Forall_forall in Hrecs. pose proof (Hrecs r Hr2') as Hwr.
    rewrite (row_back r (record fcd)); [|apply (fw_layout ts Hwf)|apply Hwr|apply Hcall|apply wf_rec_cols; [done|apply Forall_forall; done]].
    cbn [of_option]. exists s2, t1, (Some r). by split_and!.
Qed.

(** ** Updates *)

Lemma tab_ok_columns d t cols' : tab_ok (PgTable0:=P) ts d t → same_cols cols cols' →
  tab_ok (PgTable0:=P) ts d (set_t_columns cols' t).
Proof. intros H Hs. split; try apply H. done. Qed.

Lemma tab_ok_forget d t : tab_ok (PgTable0:=P) ts d t → tab_ok (PgTable0:=P) ts d (forget_reads t).
Proof. intros H. split; apply H. Qed.

(** A state that differs in the table [a], kept in order, and in the flag of the errors. *)
Lemma sess_tab (s : dbs D) a t t' b : sess_ok s a t → tab_ok (PgTable0:=P) ts (conn s) t' →
  sess_ok (mk_dbs (conn s) (gdb s) (<[a:=t']> (tabs s)) b) a t'.
Proof. intros (Ha & _ & Hw & He) Ht. split; [apply lookup_insert_eq|]. by split. Qed.

Lemma sess_fatal (s : dbs D) a t b c : sess_ok s a t →
  sess_ok (mk_dbs (conn s) (set_d_fatal b (gdb s)) (tabs s) c) a t.
Proof. intros (Ha & Ht & Hw & He). by split. Qed.

Lemma run_update_run (s : dbs D) a t cmd suffix values err fcd d' : sess_ok s a t →
  PQexecPrepared (sname (name:=name) ts suffix) values (conn s) = (d', mk_res PGRES_COMMAND_OK []) →
  (∀ m, pg_prepared d' m = pg_prepared (conn s) m ∧ (pg_free (conn s) m → pg_free d' m) ∧ pg_cursor d' m = pg_cursor (conn s) m) →
  ∃ s', run_update cmd a suffix values err fcd s = (s', inr (set_status ST_OK fcd)) ∧ sess_ok s' a t ∧ conn s' = d' ∧ frame a s s'.
Proof.
  intros (Ha & Ht & Hw & He) E Hk. unfold run_update. rewrite (bind_ok _ _ _ _ _ (tab_at_run _ _ _ Ha)).
  rewrite (stmt_name_eq ts _ _ _ Ht). erewrite bind_ok by (apply pq_run; exact E).
  change (is_command_ok _) with true. cbv iota. rewrite (to_clones _ _ _ Ht).
  erewrite bind_ok by (rewrite ret_bind; reflexivity). erewrite bind_ok by apply setd_run.
  eexists. split; [done|]. split; [|split; [done|]; eapply frame_to; [exact Ha|exact Ha|done|done|]; intros m; apply Hk].
  split; [exact Ha|]. split; [|by split]. eapply tab_ok_kept; [|exact Ht]. intros m _. split; apply Hk.
Qed.

Lemma cols_self : Forall (λ c, c ∈ cols) cols.
Proof. by apply Forall_forall. Qed.

Lemma pk_run : ∃ key, keys !! 0%nat = Some key ∧ key ∈ keys ∧ pk_cols = cols_at (k_columns key) ∧
  mapM (λ i, cols !! i) (pk_ixs keys) = Some pk_cols ∧ Forall (λ c, c ∈ cols) pk_cols ∧
  ∀ r, wf_rec r → key_ok pk_cols r.
Proof.
  destruct (pk_key ts Hwf) as (key & Hk & Hin & Hpk). exists key. unfold pk_cols. rewrite Hpk.
  destruct (key_cols_run ts Hwf key Hin) as (c & cs & Hm & Hcs & _ & Hc). rewrite Hcs.
  do 4 (split; [done|]). split; [done|]. intros r Hr. rewrite <-Hcs. by apply (wr_keys r Hr).
Qed.

(** What a call answers: the status, the record area and the key number again. *)
Definition answer (st rec : bytes) (fcd : fcd_t) : fcd_t :=
  set_key_id (putshort (getshort (key_id fcd))) (set_rec rec (set_status st fcd)).

Lemma call_key_0 fcd a : call_ok fcd a → call_ok (set_key_id (putshort 0) fcd) a ∧
  getshort (key_id (set_key_id (putshort 0) fcd)) = Z.of_nat 0.
Proof. intros []. split; [by split|done]. Qed.

Lemma insert_rows (s : dbs D) recs rec : rows_ok (conn s) recs → wf_rec rec →
  (∀ r, r ∈ recs → fields pk_cols r ≠ fields pk_cols rec) →
  ∀ r v, r ∈ pg_rows (conn s) → mapM (λ i, row_img rec !! i) (pk_ixs keys) = Some v → ¬ matches (pk_ixs keys) v r.
Proof.
  intros (Hrows & Hrecs & _) Hrec Hno r v Hr Hv Hmat. destruct pk_run as (key & _ & _ & _ & Hm & Hc & _).
  rewrite Hrows in Hr. apply list_elem_of_fmap in Hr as (x & -> & Hx).
  rewrite (mapM_img _ _ _ Hm) in Hv. injection Hv as <-. rewrite Forall_forall in Hrecs.
  apply (matches_img _ _ _ _ Hm) in Hmat; [by apply (Hno x Hx)| |]; apply wf_rec_cols; auto.
Qed.

Lemma op_write_run (s : dbs D) a recs fcd :
  file_ok s a recs → call_ok fcd a → wf_rec (record fcd) →
  ∃ s' fcd', op_write log_ok fcd s = (s', inr (fcd', false)) ∧ frame a s s' ∧
    ((∃ r, r ∈ recs ∧ fields pk_cols r = fields pk_cols (record fcd) ∧
        fcd' = answer ST_DUPL_KEY r fcd ∧ file_ok s' a recs) ∨
     ((∀ r, r ∈ recs → fields pk_cols r ≠ fields pk_cols (record fcd)) ∧
        fcd' = answer ST_OK (record fcd) fcd ∧ file_ok s' a (record fcd :: recs))).
Proof.
  intros [[t Hs] Hrows] Hcall Hrec. unfold op_write. rewrite (co_name _ _ Hcall).
  rewrite (proj2 (Z.eqb_neq _ _) (co_open _ _ Hcall)), (co_file _ _ Hcall).
  rewrite (bind_ok _ _ _ _ _ (tab_at_run _ _ _ (proj1 Hs))). cbv zeta.
  destruct pk_run as (key & Hk & Hin & Hpk & Hm & Hpc & Hpok). destruct (call_key_0 _ _ Hcall) as [Hcall0 Hid].
  destruct (op_read_random_run s a t 0 key recs _ Hs Hrows Hcall0 Hid Hk) as (s1 & t1 & o & E1 & Hs1 & Hr1 & Hf & Hfr1);
    [rewrite <-Hpk; by apply Hpok|].
  rewrite (bind_ok _ _ _ _ _ E1). rewrite <-Hpk in Hf.
  assert (rows_ok (conn s1) recs) as Hrows1 by (destruct Hrows; split; [by rewrite Hr1|done]).
  destruct o as [r|].
  { exists s1. eexists. split; [done|]. split; [done|]. left. exists r. destruct Hf as [Hf1 Hf2]. do 3 (split; [done|]). by split; [exists t1|]. }
  change (is_ok _) with false. cbv iota.
  destruct (write_prepare_run ts Hwf _ _ _ Hs1) as (s2 & t2 & E2 & Hs2 & Hr2 & Hp2 & Hfr2).
  rewrite (bind_ok _ _ _ _ _ E2), (bind_ok _ _ _ _ _ (setd_run _ _)).
  pose proof (sess_fatal _ _ _ false (tabs_brk s2) Hs2) as Hs3.
  rewrite (bind_ok _ _ _ _ _ (on_tab_run _ _ _ _ (proj1 Hs3))). cbv beta.
  set (t3 := set_t_columns (number_cols (t_columns t2)) t2).
  assert (tab_ok (PgTable0:=P) ts (conn s2) t3) as Ht3.
  { apply tab_ok_columns; [apply Hs2|]. apply number_cols_same, (to_cols _ _ _ (proj1 (proj2 Hs2))). }
  pose proof (sess_tab _ _ _ t3 (tabs_brk s2) Hs3 Ht3) as Hs4. cbn [conn gdb tabs tabs_brk] in *.
  erewrite bind_ok by (apply tab_at_run, (proj1 Hs4)).
  erewrite bind_ok by (apply (set_params_run field_param t3 (record fcd) cols); [done|
    symmetry; apply (to_cols _ _ _ Ht3)|apply gives_field; [apply cols_self|apply Hrec|apply Hrec]]).
  erewrite bind_ok by (apply valida_none, Hs4).
  pose proof (to_ins _ _ _ (proj1 (proj2 Hs4))) as Hsl. cbn [t_ins_prepared t3 set_t_columns] in Hsl. rewrite Hp2 in Hsl.
  destruct (pg_insert _ _ (texts cols (record fcd)) (row_img (record fcd)) Hsl) as (d5 & E5 & Hr5 & Hk5).
  { apply canon_texts, wf_rec_cols; [done|apply cols_self]. }
  { unfold texts. by rewrite length_fmap. }
  { intros r v Hr. cbn [conn] in Hr. rewrite Hr2 in Hr. by apply (insert_rows s1 recs). }
  destruct (run_update_run _ _ _ (ch "i") (bs "ins") _ ST_ERROR
    (set_status ST_REC_NOT_FOUND (set_key_id (putshort 0) fcd)) d5 Hs4 E5 Hk5) as (s6 & E6 & Hs6 & Hd6 & Hfr6).
  rewrite (bind_ok _ _ _ _ _ E6). eexists s6, _. split; [done|]. split.
  { eapply frame_trans; [exact Hfr1|]. eapply frame_trans; [exact Hfr2|]. eapply frame_trans; [|exact Hfr6].
    by eapply frame_to; [apply Hs2|apply lookup_insert_eq| | |]. }
  right. split; [exact Hf|]. split; [done|].
  split; [by exists t3|]. rewrite Hd6. destruct Hrows1 as (Hp & Hw & Hn). split; [|split].
  - rewrite Hr5. cbn [conn]. rewrite Hr2, fmap_cons. by constructor.
  - by constructor.
  - rewrite fmap_cons. constructor; [|done]. intros (x & Hx & Hxin)%list_elem_of_fmap. by apply (Hf x Hxin).
Qed.

(** The records after a rewrite. *)
Definition replaced (rec : bytes) (recs : list bytes) : list bytes :=
  (λ x, if decide (fields pk_cols x = fields pk_cols rec) then rec else x) <$> recs.

Lemma replaced_keys rec recs : fields pk_cols <$> replaced rec recs = fields pk_cols <$> recs.
Proof.
  unfold replaced. rewrite <-list_fmap_compose. apply list_fmap_ext. intros i x _. unfold compose.
  by destruct (decide _) as [->|].
Qed.

Lemma replaced_same rec recs : NoDup (fields pk_cols <$> recs) → rec ∈ recs → replaced rec recs = recs.
Proof.
  intros Hn Hin. unfold replaced. rewrite <-(list_fmap_id recs) at 2. apply list_fmap_ext. intros i x Hx.
  destruct (decide _) as [E|]; [|done]. apply list_elem_of_lookup in Hin as [j Hj].
  assert (i = j) as ->; [|by rewrite Hj in Hx; injection Hx].
  eapply NoDup_lookup; [exact Hn| |]; rewrite list_lookup_fmap, ?Hx, ?Hj; [done|]. simpl. congruence.
Qed.

Lemma replaced_rows d recs rec : rows_ok d recs → wf_rec rec → ∀ d',
  pg_rows d' ≡ₚ (λ r, if decide (matches (pk_ixs keys) (img pk_cols rec) r)
                      then set_row (set_cols cols) (img (nonpk cols) rec) r else r) <$> pg_rows d →
  rows_ok d' (replaced rec recs).
Proof.
  intros (Hrows & Hrecs & Hn) Hrec d' Hd'. destruct pk_run as (key & _ & _ & _ & Hm & Hc & _).
  assert (∀ x, x ∈ recs → wf_rec x) as Hw by by apply Forall_forall.
  split; [|split].
  - rewrite Hd', Hrows. unfold replaced. rewrite <-!list_fmap_compose. apply Permutation_refl', list_fmap_ext.
    intros i x Hx. unfold compose. apply list_elem_of_lookup_2, Hw in Hx.
    pose proof (matches_img _ _ rec x Hm (wf_rec_cols _ _ Hrec Hc) (wf_rec_cols _ _ Hx Hc)) as Hi.
    destruct (decide (matches _ _ _)) as [Ha|Ha], (decide (fields _ _ = _)) as [Hb|Hb]; [|tauto|tauto|done].
    apply (set_row_img _ _ x rec (set_cols_run cols)). intros i' c Hi' Hns.
    assert (col_pk c = true) as Hpk.
    { destruct (col_pk c) eqn:E; [done|]. destruct Hns. unfold set_cols. apply list_elem_of_filter.
      rewrite Hi'. split; [simpl; by rewrite E|]. apply elem_of_seq. apply lookup_lt_Some in Hi'. lia. }
    apply (fw_pk ts Hwf _ _ Hi') in Hpk. apply list_elem_of_lookup in Hpk as [j Hj].
    apply mapM_Some in Hm. destruct (Forall2_lookup_l _ _ _ _ _ Hm Hj) as (c' & Hc' & E).
    assert (c' = c) as -> by congruence. apply (f_equal (λ l : list bytes, l !! j)) in Hb.
    unfold fields in Hb. rewrite !list_lookup_fmap, Hc' in Hb. by injection Hb.
  - unfold replaced. apply Forall_fmap, Forall_forall. intros x Hx. unfold compose. destruct (decide _); auto.
  - by rewrite replaced_keys.
Qed.

Lemma memeq_full a b n : length a = n → length b = n → memeq a b n = bool_decide (a = b).
Proof.
  intros Ha Hb. unfold memeq. rewrite memcmp_full by done. destruct (lex_cmp a b) eqn:E.
  - apply lex_cmp_eq in E. by rewrite bool_decide_true.
  - rewrite bool_decide_false; [done|]. intros ->. by rewrite lex_cmp_refl in E.
  - rewrite bool_decide_false; [done|]. intros ->. by rewrite lex_cmp_refl in E.
Qed.

Lemma sub_bytes_full (r : bytes) n : n = Z.of_nat (length r) → sub_bytes r 0 n = Some r.
Proof.
  intros ->. unfold sub_bytes. rewrite !(proj2 (Z.leb_le _ _)) by lia. simpl. rewrite drop_0, Nat2Z.id. by rewrite take_ge.
Qed.

(** The statement of an update that found the record [r] and must change it. *)
Lemma rewrite_exec {B} (s : dbs D) a t recs rec fcd (k : fcd_t → M (dbs D) B) :
  sess_ok s a t → rows_ok (conn s) recs → wf_rec rec → record fcd = rec →
  (∀ c, c ∈ pk_cols → is_num c = true → col_dec c = 0%nat) →
  ∃ s', (rewrite_prepare a;; setd (set_d_fatal false);; t ← tab_at a; values ← rewrite_values log_ok t (record fcd);
         fcd ← run_update (ch "u") a (bs "upd") values ST_REC_NOT_FOUND fcd; k fcd) s = k (set_status ST_OK fcd) s' ∧
    (∃ t', sess_ok s' a t') ∧ rows_ok (conn s') (replaced rec recs) ∧ frame a s s'.
Proof.
  intros Hs Hrows Hrec <- Hdec. destruct pk_run as (key & Hk & Hin & Hpk & Hm & Hpc & Hpok).
  destruct (rewrite_prepare_run ts Hwf _ _ _ Hs) as (s2 & t2 & E2 & Hs2 & Hr2 & Hp2 & Hfr2).
  rewrite (bind_ok _ _ _ _ _ E2), (bind_ok _ _ _ _ _ (setd_run _ _)).
  pose proof (sess_fatal _ _ _ false (tabs_brk s2) Hs2) as Hs3.
  assert (frame a s (mk_dbs (conn s2) (set_d_fatal false (gdb s2)) (tabs s2) (tabs_brk s2))) as Hfr3.
  { eapply frame_trans; [exact Hfr2|]. by eapply frame_to; [apply Hs2|apply Hs2| | |]. }
  erewrite bind_ok by (apply tab_at_run, Hs3). destruct Hs2 as (_ & Ht2 & _ & _).
  destruct (to_upd _ _ _ Ht2) as [Hsl Hpr]. specialize (Hpr Hp2). rewrite Hp2 in Hsl.
  assert (Forall (λ c, c ∈ cols) (nonpk cols)) as Hnc.
  { apply Forall_forall. intros c [_ Hc]%list_elem_of_filter. done. }
  unfold rewrite_values.
  erewrite bind_ok; last first.
  { erewrite bind_ok by (apply (set_params_run field_param t2 (record fcd) (nonpk cols)); [done|
      apply nonpk_same, (to_cols _ _ _ Ht2)|apply gives_field; [done|apply Hrec|]];
      intros c Hc; apply (wr_fields _ Hrec); rewrite Forall_forall in Hnc; auto).
    erewrite bind_ok by (apply (set_params_run plain_param t2 (record fcd) pk_cols); [done|exact Hpr|
      apply gives_plain; [done|apply Hrec|by apply Hpok|done]]).
    erewrite bind_ok by (apply valida_none, Hs3). reflexivity. }
  destruct (pg_update _ _ _ _ (nonpk cols) pk_cols (texts (nonpk cols) (record fcd)) (texts pk_cols (record fcd))
    (img (nonpk cols) (record fcd)) (img pk_cols (record fcd)) Hsl) as (d5 & E5 & Hr5 & Hk5).
  { intros i Hi Hpki. unfold set_cols in Hi. apply list_elem_of_filter in Hi as [Hi _].
    destruct (cols !! i) as [c|] eqn:Ec; [|done]. apply (fw_pk ts Hwf _ _ Ec) in Hpki. simpl in Hi. congruence. }
  { apply set_cols_run. }
  { exact Hm. }
  { apply canon_texts, wf_rec_cols; done. }
  { unfold texts. by rewrite length_fmap. }
  { apply canon_texts, wf_rec_cols; done. }
  { unfold texts. by rewrite length_fmap. }
  destruct (run_update_run _ _ _ (ch "u") (bs "upd") _ ST_REC_NOT_FOUND fcd d5 Hs3 E5 Hk5) as (s6 & E6 & Hs6 & Hd6 & Hfr6).
  exists s6. split; [by rewrite (bind_ok _ _ _ _ _ E6)|]. split; [by exists t2|].
  split; [|by eapply frame_trans; [exact Hfr3|]]. rewrite Hd6.
  apply (replaced_rows (conn s2)); [|done|exact Hr5]. destruct Hrows. split; [by rewrite Hr2|done].
Qed.

Lemma op_rewrite_run (s : dbs D) a recs fcd :
  file_ok s a recs → call_ok fcd a → wf_rec (record fcd) →
  (∀ c, c ∈ pk_cols → is_num c = true → col_dec c = 0%nat) →
  ∃ s' fcd', op_rewrite log_ok fcd s =
      (s', inr (fcd', bool_decide (fields pk_cols (record fcd) ∈ fields pk_cols <$> recs))) ∧
    fcd' = answer (if bool_decide (fields pk_cols (record fcd) ∈ fields pk_cols <$> recs) then ST_OK else ST_REC_NOT_FOUND)
             (record fcd) fcd ∧
    file_ok s' a (replaced (record fcd) recs) ∧ frame a s s'.
Proof.
  intros [[t Hs] Hrows] Hcall Hrec Hdec. unfold op_rewrite.
  rewrite (proj2 (Z.eqb_neq _ _) (co_open _ _ Hcall)), (co_file _ _ Hcall). cbv zeta.
  rewrite (bind_ok _ _ _ _ _ (on_tab_run _ _ _ _ (proj1 Hs))).
  pose proof (sess_tab _ _ _ _ (tabs_brk s) Hs (tab_ok_forget _ _ (proj1 (proj2 Hs)))) as Hs0.
  assert (frame a s (mk_dbs (conn s) (gdb s) (<[a:=forget_reads t]> (tabs s)) (tabs_brk s))) as Hfr0.
  { eapply frame_to; [apply Hs|apply lookup_insert_eq| |done|done]. by split_and!. }
  rewrite (co_reclen _ _ Hcall), (proj2 (Z.leb_le _ _) (fw_len ts Hwf)). cbn [guard_fault]. rewrite ret_bind.
  rewrite sub_bytes_full by by rewrite (co_rec _ _ Hcall). cbn [of_option]. rewrite ret_bind.
  destruct pk_run as (key & Hk & Hin & Hpk & Hm & Hpc & Hpok). destruct (call_key_0 _ _ Hcall) as [Hcall0 Hid].
  destruct (op_read_random_run _ a _ 0 key recs _ Hs0 Hrows Hcall0 Hid Hk) as (s1 & t1 & o & E1 & Hs1 & Hr1 & Hf & Hfr1);
    [rewrite <-Hpk; by apply Hpok|].
  pose proof (frame_trans _ _ _ _ Hfr0 Hfr1) as Hfr. rewrite (bind_ok _ _ _ _ _ E1). rewrite <-Hpk in Hf. cbn [record set_key_id] in Hf.
  assert (rows_ok (conn s1) recs) as Hrows1 by (destruct Hrows; split; [by rewrite Hr1|done]).
  destruct o as [r|].
  - destruct Hf as [Hf1 Hf2]. rewrite bool_decide_true by (rewrite <-Hf2; by apply list_elem_of_fmap_2).
    destruct Hrows as (_ & Hrecs & Hn). rewrite Forall_forall in Hrecs.
    change (is_ok _) with true. cbn [negb]. cbn [record set_status set_rec set_key_id].
    rewrite Nat2Z.id, memeq_full by (first [apply Hcall|by apply Hrecs]).
    case_bool_decide as Heq.
    + exists s1. eexists. split; [done|]. split; [by rewrite Heq|]. split; [|done]. split; [by exists t1|].
      rewrite replaced_same; [done|done|by rewrite Heq].
    + rewrite blit_full by (rewrite (co_rec _ _ Hcall); symmetry; by apply Hrecs).
      set (fcd2 := set_rec (record fcd) _). rewrite (bind_ok _ _ _ _ _ (tab_at_run _ _ _ (proj1 Hs1))).
      change (record fcd2) with (record fcd).
      rewrite (bind_ok _ _ _ _ _ (log_key_run _ _ _ _ _ _ Hs1 Hk (co_rec _ _ Hcall))).
      destruct (rewrite_exec s1 a t1 recs (record fcd) fcd2 (λ f, mret (set_key_id (putshort (getshort (key_id fcd))) f, true))
        Hs1 Hrows1 Hrec eq_refl Hdec) as (s2 & E2 & Hs2 & Hr2 & Hfr2).
      exists s2. eexists. split; [exact E2|]. split; [reflexivity|]. split; [by split|]. by eapply frame_trans.
  - rewrite bool_decide_false.
    2: { intros (r & Hr & Hrin)%list_elem_of_fmap. by apply (Hf r Hrin). }
    exists s1. eexists. split; [done|]. split; [done|]. split; [|done]. split; [by exists t1|].
    assert (replaced (record fcd) recs = recs) as ->; [|done]. unfold replaced.
    rewrite <-(list_fmap_id recs) at 2. apply list_fmap_ext. intros i x Hx. rewrite decide_False; [done|].
    intros E. apply (Hf x); [by eapply list_elem_of_lookup_2|done].
Qed.

(** The records after the delete of [r]. *)
Definition removed (r : bytes) (recs : list bytes) : list bytes :=
  filter (λ x, fields pk_cols x ≠ fields pk_cols r) recs.

Lemma removed_rows d recs r : rows_ok d recs → wf_rec r → ∀ d',
  pg_rows d' ≡ₚ filter (λ x, ¬ matches (pk_ixs keys) (img pk_cols r) x) (pg_rows d) → rows_ok d' (removed r recs).
Proof.
  intros (Hrows & Hrecs & Hn) Hr d' Hd'. destruct pk_run as (key & _ & _ & _ & Hm & Hc & _). split; [|split].
  - rewrite Hd', Hrows, (filter_not_img (pk_ixs keys) pk_cols r recs Hm); [done|by apply wf_rec_cols|].
    eapply Forall_impl; [exact Hrecs|]. intros x Hx. by apply wf_rec_cols.
  - rewrite Forall_forall in Hrecs. apply Forall_forall. intros x [_ Hx]%list_elem_of_filter. auto.
  - unfold removed. clear - Hn. induction recs as [|x recs IH]; [constructor|]. rewrite fmap_cons in Hn.
    apply NoDup_cons in Hn as [Hx Hn]. rewrite filter_cons. destruct (decide _); [|by apply IH].
    rewrite fmap_cons. constructor; [|by apply IH]. intros (y & Hy & Hyin)%list_elem_of_fmap. apply Hx.
    apply list_elem_of_fmap. exists y. split; [done|]. by apply list_elem_of_filter in Hyin as [_ ?].
Qed.

Lemma op_delete_run (s : dbs D) a k key recs fcd :
  file_ok s a recs → call_ok fcd a → getshort (key_id fcd) = Z.of_nat k → keys !! k = Some key →
  key_ok (cols_at (k_columns key)) (record fcd) →
  ∃ s' o, op_delete log_ok fcd s =
      (s', inr (match o with Some r => set_status ST_OK (set_rec r fcd) | None => set_status ST_REC_NOT_FOUND fcd end)) ∧
    found (cols_at (k_columns key)) (record fcd) recs o ∧
    file_ok s' a (match o with Some r => removed r recs | None => recs end) ∧ frame a s s'.
Proof.
  intros [[t Hs] Hrows] Hcall Hid Hk Hkey. unfold op_delete.
  rewrite (proj2 (Z.eqb_neq _ _) (co_open _ _ Hcall)), (co_file _ _ Hcall). cbv zeta.
  rewrite (bind_ok _ _ _ _ _ (on_tab_run _ _ _ _ (proj1 Hs))).
  pose proof (sess_tab _ _ _ _ (tabs_brk s) Hs (tab_ok_forget _ _ (proj1 (proj2 Hs)))) as Hs0.
  assert (frame a s (mk_dbs (conn s) (gdb s) (<[a:=forget_reads t]> (tabs s)) (tabs_brk s))) as Hfr0.
  { eapply frame_to; [apply Hs|apply lookup_insert_eq| |done|done]. by split_and!. }
  destruct (op_read_random_run _ a _ k key recs fcd Hs0 Hrows Hcall Hid Hk Hkey) as (s1 & t1 & o & E1 & Hs1 & Hr1 & Hf & Hfr1).
  pose proof (frame_trans _ _ _ _ Hfr0 Hfr1) as Hfr.
  rewrite (bind_ok _ _ _ _ _ E1). assert (rows_ok (conn s1) recs) as Hrows1 by (destruct Hrows; split; [by rewrite Hr1|done]).
  destruct o as [r|]; [|exists s1, None; split_and!; try done; split; [by exists t1|done]].
  assert (wf_rec r) as Hwr by (destruct Hrows as (_ & Hw & _); rewrite Forall_forall in Hw; by apply Hw, Hf).
  change (is_ok _) with true. cbn [negb]. set (fcd1 := set_status ST_OK _).
  rewrite (bind_ok _ _ _ _ _ (tab_at_run _ _ _ (proj1 Hs1))). change (record fcd1) with r.
  destruct pk_run as (pk & Hpk0 & Hpin & Hpk & Hm & Hpc & Hpok).
  rewrite (bind_ok _ _ _ _ _ (log_key_run _ _ _ _ _ _ Hs1 Hpk0 (wr_len _ Hwr))).
  destruct (delete_prepare_run ts Hwf _ _ _ Hs1) as (s2 & t2 & E2 & Hs2 & Hr2 & Hp2 & Hfr2).
  rewrite (bind_ok _ _ _ _ _ E2), (bind_ok _ _ _ _ _ (setd_run _ _)).
  pose proof (sess_fatal _ _ _ false (tabs_brk s2) Hs2) as Hs3.
  assert (frame a s (mk_dbs (conn s2) (set_d_fatal false (gdb s2)) (tabs s2) (tabs_brk s2))) as Hfr3.
  { eapply frame_trans; [exact Hfr|]. eapply frame_trans; [exact Hfr2|]. by eapply frame_to; [apply Hs2|apply Hs2| | |]. }
  erewrite bind_ok by (apply tab_at_run, Hs3). destruct Hs2 as (_ & Ht2 & _ & _).
  destruct (to_del _ _ _ Ht2) as [Hsl Hpr]. specialize (Hpr Hp2). rewrite Hp2 in Hsl. unfold delete_values.
  erewrite bind_ok; last first.
  { erewrite bind_ok by (apply (set_params_run key_param t2 r pk_cols); [done|exact Hpr|
      apply gives_key; [done|apply Hwr|by apply Hpok]]).
    erewrite bind_ok by (apply valida_none, Hs3). reflexivity. }
  destruct (pg_delete _ _ _ pk_cols (texts pk_cols r) (img pk_cols r) Hsl Hm) as (d5 & E5 & Hr5 & Hk5).
  { apply canon_texts, wf_rec_cols; done. }
  { unfold texts. by rewrite length_fmap. }
  destruct (run_update_run _ _ _ (ch "d") (bs "del") _ ST_REC_NOT_FOUND fcd1 d5 Hs3 E5 Hk5) as (s6 & E6 & Hs6 & Hd6 & Hfr6).
  exists s6, (Some r). split; [exact E6|]. split; [done|]. split; [|by eapply frame_trans]. split; [by exists t2|]. rewrite Hd6.
  apply (removed_rows (conn s2)); [|done|exact Hr5]. destruct Hrows1. split; [by rewrite Hr2|done].
Qed.

(** ** An indexed file

    The specification: a list of records, and what each request answers. *)

Inductive request :=
  | RRead (k : nat) (area : bytes)
  | RWrite (area : bytes)
  | RRewrite (area : bytes)
  | RDelete (k : nat) (area : bytes).

Definition key_of_nat (k : nat) : list column_t := default [] ((cols_at ∘ k_columns) <$> keys !! k).

(** [file_step recs q st area recs']: the status and the record area after a request. *)
Inductive file_step (recs : list bytes) : request → bytes → bytes → list bytes → Prop :=
  | step_read k area r : r ∈ recs → fields (key_of_nat k) r = fields (key_of_nat k) area →
      file_step recs (RRead k area) ST_OK r recs
  | step_read_none k area : (∀ r, r ∈ recs → fields (key_of_nat k) r ≠ fields (key_of_nat k) area) →
      file_step recs (RRead k area) ST_REC_NOT_FOUND area recs
  | step_write area : (∀ r, r ∈ recs → fields pk_cols r ≠ fields pk_cols area) →
      file_step recs (RWrite area) ST_OK area (area :: recs)
  | step_write_dup area r : r ∈ recs → fields pk_cols r = fields pk_cols area →
      file_step recs (RWrite area) ST_DUPL_KEY r recs
  | step_rewrite area : fields pk_cols area ∈ fields pk_cols <$> recs →
      file_step recs (RRewrite area) ST_OK area (replaced area recs)
  | step_rewrite_none area : fields pk_cols area ∉ fields pk_cols <$> recs →
      file_step recs (RRewrite area) ST_REC_NOT_FOUND area recs
  | step_delete k area r : r ∈ recs → fields (key_of_nat k) r = fields (key_of_nat k) area →
      file_step recs (RDelete k area) ST_OK r (removed r recs)
  | step_delete_none k area : (∀ r, r ∈ recs → fields (key_of_nat k) r ≠ fields (key_of_nat k) area) →
      file_step recs (RDelete k area) ST_REC_NOT_FOUND area recs.

(** The requests a program may make: records to store are well formed, those that only
    give a key have its fields right. *)
Definition request_ok (q : request) : Prop :=
  match q with
  | RRead k area | RDelete k area => (k < length keys)%nat ∧ length area = cols_len cols ∧ key_ok (key_of_nat k) area
  | RWrite area | RRewrite area => wf_rec area
  end.

(** A request as a call with the file control block [fcd]. *)
Definition perform (fcd : fcd_t) (q : request) : M (dbs D) fcd_t :=
  match q with
  | RRead k area => op_read_random log_ok (set_key_id (putshort (Z.of_nat k)) (set_rec area fcd))
  | RWrite area => r ← op_write log_ok (set_rec area fcd); mret (fst r)
  | RRewrite area => r ← op_rewrite log_ok (set_rec area fcd); mret (fst r)
  | RDelete k area => op_delete log_ok (set_key_id (putshort (Z.of_nat k)) (set_rec area fcd))
  end.

(** A session of calls: the status and the record area after each. *)
Fixpoint perform_all (fcd : fcd_t) (qs : list request) : M (dbs D) (list (bytes * bytes)) :=
  match qs with
  | [] => mret []
  | q :: qs' =>
      f ← perform fcd q;
      outs ← perform_all fcd qs';
      mret ((status f, record f) :: outs)
  end.

Inductive file_run : list bytes → list request → list (bytes * bytes) → list bytes → Prop :=
  | run_nil recs : file_run recs [] [] recs
  | run_cons recs q st area recs' qs outs recs'' :
      file_step recs q st area recs' → file_run recs' qs outs recs'' →
      file_run recs (q :: qs) ((st, area) :: outs) recs''.

Lemma key_of_lookup k key : keys !! k = Some key → key_of_nat k = cols_at (k_columns key).
Proof. intros H. unfold key_of_nat. by rewrite H. Qed.

Lemma short_key k : (k < length keys)%nat → getshort (putshort (Z.of_nat k)) = Z.of_nat k.
Proof.
  intros H. pose proof (fw_nkeys ts Hwf). unfold MAX_KEYS in *.
  pose proof (getshort_putshort (Z.of_nat k) [] ltac:(lia)) as E. by rewrite app_nil_r in E.
Qed.

(** One request: the answer is one the specification allows, and the table follows. *)
Lemma perform_run (s : dbs D) a recs fcd q :
  file_ok s a recs → (∀ area, length area = cols_len cols → call_ok (set_rec area fcd) a) → request_ok q →
  (∀ c, c ∈ pk_cols → is_num c = true → col_dec c = 0%nat) →
  ∃ s' f recs', perform fcd q s = (s', inr f) ∧ file_step recs q (status f) (record f) recs' ∧ file_ok s' a recs' ∧ frame a s s'.
Proof.
  intros Hs Hcall Hq Hdec.
  assert (∀ k area, length area = cols_len cols → call_ok (set_key_id (putshort (Z.of_nat k)) (set_rec area fcd)) a) as Hcallk.
  { intros k area Ha. destruct (Hcall area Ha). by split. }
  destruct q as [k area|area|area|k area]; cbn [perform request_ok] in *.
  - destruct Hq as (Hk & Ha & Hkey). destruct (lookup_lt_is_Some_2 keys k Hk) as [key E].
    rewrite (key_of_lookup _ _ E) in Hkey. destruct Hs as [[t Hs] Hrows].
    destruct (op_read_random_run s a t k key recs _ Hs Hrows (Hcallk k area Ha) (short_key k Hk) E Hkey)
      as (s1 & t1 & o & E1 & Hs1 & Hr1 & Hf & Hfr).
    exists s1. eexists _, recs. split; [exact E1|]. split.
    + destruct o as [r|]; [apply step_read|apply step_read_none]; rewrite ?(key_of_lookup _ _ E); by try apply Hf.
    + split; [|done]. split; [by exists t1|]. destruct Hrows. split; [by rewrite Hr1|done].
  - destruct (op_write_run s a recs _ Hs (Hcall area (wr_len _ Hq)) Hq) as (s1 & f & E1 & Hfr & H).
    rewrite (bind_ok _ _ _ _ _ E1). destruct H as [(r & Hr & Hf & -> & Hok)|(Hno & -> & Hok)].
    + exists s1. eexists _, recs. split; [done|]. split; [by apply step_write_dup|by split].
    + exists s1. eexists _, (area :: recs). split; [done|]. split; [by apply step_write|by split].
  - destruct (op_rewrite_run s a recs _ Hs (Hcall area (wr_len _ Hq)) Hq Hdec) as (s1 & f & E1 & -> & Hok & Hfr).
    rewrite (bind_ok _ _ _ _ _ E1). exists s1. eexists _, (replaced area recs). split; [done|]. split; [|by split].
    cbn [record set_rec] in *. case_bool_decide as Hin; [by apply step_rewrite|].
    assert (replaced area recs = recs) as ->; [|by apply step_rewrite_none]. unfold replaced.
    rewrite <-(list_fmap_id recs) at 2. apply list_fmap_ext. intros i x Hx. rewrite decide_False; [done|].
    intros E. apply Hin. rewrite <-E. apply list_elem_of_fmap_2. by eapply list_elem_of_lookup_2.
  - destruct Hq as (Hk & Ha & Hkey). destruct (lookup_lt_is_Some_2 keys k Hk) as [key E].
    rewrite (key_of_lookup _ _ E) in Hkey.
    destruct (op_delete_run s a k key recs _ Hs (Hcallk k area Ha) (short_key k Hk) E Hkey) as (s1 & o & E1 & Hf & Hok & Hfr).
    exists s1. destruct o as [r|].
    + eexists _, (removed r recs). split; [exact E1|]. split; [|by split].
      apply step_delete; rewrite ?(key_of_lookup _ _ E); apply Hf.
    + eexists _, recs. split; [exact E1|]. split; [|by split]. apply step_delete_none. rewrite (key_of_lookup _ _ E). exact Hf.
Qed.

Lemma perform_all_run a fcd qs : (∀ area, length area = cols_len cols → call_ok (set_rec area fcd) a) →
  (∀ c, c ∈ pk_cols → is_num c = true → col_dec c = 0%nat) → ∀ (s : dbs D) recs,
  file_ok s a recs → Forall request_ok qs →
  ∃ s' outs recs', perform_all fcd qs s = (s', inr outs) ∧ file_run recs qs outs recs' ∧ file_ok s' a recs'.
Proof.
  intros Hcall Hdec. induction qs as [|q qs IH]; intros s recs Hs Hqs.
  - exists s, [], recs. split; [done|]. by split; [constructor|].
  - apply Forall_cons in Hqs as [Hq Hqs].
    destruct (perform_run s a recs fcd q Hs Hcall Hq Hdec) as (s1 & f & recs1 & E1 & Hstep & Hs1 & _).
    destruct (IH s1 recs1 Hs1 Hqs) as (s2 & outs & recs2 & E2 & Hrun & Hs2).
    exists s2. eexists _, recs2. cbn [perform_all]. rewrite (bind_ok _ _ _ _ _ E1), (bind_ok _ _ _ _ _ E2).
    split; [done|]. split; [|done]. by econstructor.
Qed.

(** C2: A table of the database behaves as an indexed file: for every sequence of random
    reads, writes, rewrites and deletes on an open table, the statements the operations
    prepare and execute give the answers of an indexed file (the record found or status
    23, status 22 for a key in use, the record replaced or removed) and leave the table
    with that file's records, whatever the server does within its contract. *)
Theorem db_file_refinement (s : dbs D) a recs fcd qs :
  file_ok s a recs → Forall request_ok qs →
  (∀ area, length area = cols_len cols → call_ok (set_rec area fcd) a) →
  (∀ c, c ∈ pk_cols → is_num c = true → col_dec c = 0%nat) →
  ∃ s' outs recs', perform_all fcd qs s = (s', inr outs) ∧ file_run recs qs outs recs' ∧ file_ok s' a recs'.
Proof. intros Hs Hqs Hcall Hdec. by apply perform_all_run. Qed.

End file.
