(* ===== verification/Cursor.v ===== *)
(** Cursors: the statements a start sends (src/op_start.c) and what the program relies on
    in the server for them: the rows of the condition in the order asked for, given one at a
    time. *)

From stdpp Require Import prelude gmap strings sorting.
From S2P Require Import Prelude Fhtypes Fcd Table Kdb Libpq DbRead DbWrite Sql DbRows.
Local Open Scope Z_scope.

(** Values spelt in a condition: a number by its text, a text between quotes. *)
Definition lit_of (c : column_t) (t : bytes) : bytes := if is_num c then t else [39] ++ t ++ [39].
Definition lit_text (c : column_t) (l : bytes) : bytes :=
  if is_num c then l else take (length l - 2) (drop 1 l).

Lemma lit_text_of c t : lit_text c (lit_of c t) = t.
Proof.
  unfold lit_text, lit_of. destruct (is_num c); [done|]. change (drop 1 ([39] ++ t ++ [39])) with (t ++ [39]).
  rewrite !length_app. simpl. apply take_app_length'. lia.
Qed.

Lemma strchr_none s c : c ∉ s → strchr s c = None.
Proof.
  induction s as [|x s IH]; intros H; [done|]. apply not_elem_of_cons in H as [Hx Hs]. simpl.
  rewrite (proj2 (Z.eqb_neq _ _)) by congruence. by rewrite IH.
Qed.

Lemma strchr_found s c s' : c ∉ s → strchr (s ++ c :: s') c = Some (length s).
Proof.
  induction s as [|x s IH]; intros H; simpl; [by rewrite Z.eqb_refl|]. apply not_elem_of_cons in H as [Hx Hs].
  rewrite (proj2 (Z.eqb_neq _ _)) by congruence. by rewrite IH.
Qed.

(** The operators of the conditions. *)
Definition cond_ops : list bytes := start_ops.

(** The values a condition compares a column with: the text of a field without quotes, or
    no text at all. *)
Definition text_ok (c : column_t) (t : bytes) : Prop :=
  (∃ f, wf_field c f ∧ t = text_of_field c f ∧ 39 ∉ t) ∨ (is_num c = false ∧ t = []).

(** One comparison of a condition: the column, the operator, the name and the value. *)
Definition atom_ok (cols : list column_t) (i : nat) (op : bytes) (t : bytes * bytes) : Prop :=
  op ∈ cond_ops ∧ ∃ c x, cols !! i = Some c ∧ text_ok c x ∧ t = (col_name c, lit_of c x).

(** A condition on the columns of a table; [and] is not followed by [or], which it binds
    tighter than. *)
Fixpoint where_ok (cols : list column_t) (w : where_t) : Prop :=
  match w with
  | WCmp i op t => atom_ok cols i op t
  | WAnd i op t w' => atom_ok cols i op t ∧ match w' with WOr _ _ _ _ => False | _ => True end ∧ where_ok cols w'
  | WOr i o t w' => atom_ok cols i [o] t ∧ where_ok cols w'
  end.

(** The statements on a cursor. *)
Definition declare_text (n schema name wh order : bytes) : bytes :=
  bs "declare " ++ n ++ bs " cursor with hold for" ++ [10] ++ bs "  select * from " ++
    schema ++ bs "." ++ name ++ [10] ++ bs "    where " ++ wh ++ bs " order by " ++ order.
Definition fetch_text (n : bytes) : bytes := bs "fetch next in " ++ n.
Definition close_text (n : bytes) : bytes := bs "close " ++ n.

Definition is_word (n : bytes) : Prop := n ≠ [] ∧ 32 ∉ n.

(** What is prepared does not change. *)
Definition same_prepared {D} `{!Libpq D} {schema name cols keys} `{!PgTable D schema name cols keys} (d d' : D) : Prop :=
  ∀ m, pg_prepared d' m = pg_prepared d m ∧ (pg_free d m → pg_free d' m).

Section meaning.
Context (cmp : column_t → bytes → bytes → comparison) (value : column_t → bytes → option bytes).
Context (cols : list column_t).

(** How the column [i] of a row compares with the value spelt [l]. *)
Definition against (row : list bytes) (i : nat) (l : bytes) : comparison :=
  match cols !! i, row !! i with
  | Some c, Some v => cmp c v (default [] (value c (lit_text c l)))
  | _, _ => Eq
  end.

(** The value of a condition on a row. *)
Fixpoint sql_true (row : list bytes) (w : where_t) : bool :=
  match w with
  | WCmp i op (_, l) => holds op (against row i l)
  | WAnd i op (_, l) w' => holds op (against row i l) && sql_true row w'
  | WOr i o (_, l) w' => holds [o] (against row i l) || holds (bs "=") (against row i l) && sql_true row w'
  end.

(** The order of two rows: by their first different column. *)
Definition row_cmp (ixs : list nat) (r r' : list bytes) : comparison :=
  lexc ((λ i, match cols !! i with Some c => cmp c (default [] (r !! i)) (default [] (r' !! i)) | None => Eq end) <$> ixs).

Definition row_before (desc : bool) (ixs : list nat) (r r' : list bytes) : Prop :=
  row_cmp ixs r r' ≠ (if desc then Lt else Gt).

End meaning.

Definition descending (op : bytes) : bool := op_first op =? ch "<".

(** The cursors of the server; [pg_cmp] is the order of the values of a column. *)
Class PgCursor (D : Type) `{!Libpq D} (schema name : bytes) (cols : list column_t) (keys : list key_t)
    `{!PgTable D schema name cols keys} := {
  pg_cmp : column_t → bytes → bytes → comparison;

  pg_cmp_eq c f f' v v' : c ∈ cols → wf_field c f → wf_field c f' →
    canon c (text_of_field c f) = Some v → canon c (text_of_field c f') = Some v' → pg_cmp c v v' = Eq ↔ v = v';

  (** The empty text comes first. *)
  pg_cmp_empty c : c ∈ cols → is_num c = false → ∃ v0, canon c [] = Some v0 ∧
    ∀ f v, wf_field c f → canon c (text_of_field c f) = Some v → pg_cmp c v v0 ≠ Lt;

  (** No number without a sign is below zero. *)
  pg_cmp_zero c f v v0 : c ∈ cols → is_num c = true → col_dec c = 0%nat → wf_field c f →
    (∀ x, x ∈ f → isdigit x = true) → canon c (text_of_field c f) = Some v → canon c (zeros (col_len c)) = Some v0 →
    pg_cmp c v v0 ≠ Lt;

  pg_declare d n ixs cs op w : pg_cursor d n = None → is_word n → op ∈ cond_ops → where_ok cols w →
    mapM (λ i, cols !! i) ixs = Some cs → cs ≠ [] →
    ∃ d' rows, PQexec (declare_text n schema name (render w) (order_text op (col_name <$> cs))) d =
        (d', mk_res PGRES_COMMAND_OK []) ∧
      pg_cursor d' n = Some rows ∧
      rows ≡ₚ filter (λ r, sql_true pg_cmp canon cols r w = true) (pg_rows d) ∧
      StronglySorted (row_before pg_cmp cols (descending op) ixs) rows ∧
      pg_rows d' = pg_rows d ∧ same_prepared d d';

  pg_fetch d n rows : is_word n → pg_cursor d n = Some rows →
    ∃ d', PQexec (fetch_text n) d = (d', mk_res PGRES_TUPLES_OK (take 1 rows)) ∧
      pg_cursor d' n = Some (drop 1 rows) ∧ pg_rows d' = pg_rows d ∧ same_prepared d d';

  pg_close d n rows : is_word n → pg_cursor d n = Some rows →
    ∃ d' r, PQexec (close_text n) d = (d', r) ∧
      pg_cursor d' n = None ∧ pg_rows d' = pg_rows d ∧ same_prepared d d';
}.
