(* ===== verification/SqlText.v ===== *)
(** Reading the statements of a cursor back: their texts determine the condition and the
    order, so that a server which reads SQL does what the program means. *)

From stdpp Require Import prelude gmap strings.
From S2P Require Import Prelude Fhtypes Fcd Table Kdb Libpq DbRead DbWrite Sql DbRows Cursor.
Local Open Scope Z_scope.

(** The word before the first blank, and what follows the blank. *)
Definition word (s : bytes) : bytes * bytes :=
  match strchr s 32 with Some i => (take i s, drop (S i) s) | None => (s, []) end.

(** What follows a prefix. *)
Definition after (p s : bytes) : option bytes := if prefixb p s then Some (drop (length p) s) else None.

(** A value: a quoted text, or the bytes before a blank. *)
Definition read_lit (s : bytes) : bytes * bytes :=
  match s with
  | 39 :: s' => match strchr s' 39 with Some j => (39 :: take (S j) s', drop (S j) s') | None => (s, []) end
  | _ => match strchr s 32 with Some i => (take i s, drop i s) | None => (s, []) end
  end.

Lemma word_app w s : 32 ∉ w → word (w ++ 32 :: s) = (w, s).
Proof.
  intros H. unfold word. rewrite (strchr_found _ _ _ H), take_app_length.
  rewrite (drop_app_ge w) by lia. by rewrite Nat.sub_succ_l, Nat.sub_diag by lia.
Qed.

Lemma word_blank w s : 32 ∉ w → word (w ++ bs " " ++ s) = (w, s).
Proof. apply word_app. Qed.

Lemma after_app p s : after p (p ++ s) = Some s.
Proof. unfold after, prefixb. rewrite take_app_length, bool_decide_true by done. by rewrite drop_app_length. Qed.

Lemma after_none p q s s' : length q = length p → q ≠ p → s = q ++ s' → after p s = None.
Proof.
  intros Hl Hne ->. unfold after, prefixb. rewrite bool_decide_false; [done|].
  rewrite <-Hl, take_app_length. done.
Qed.

Section parse.
Context (cols : list column_t).

(** The first column with a name. *)
Definition col_named (n : bytes) : option nat := fst <$> list_find (λ c, col_name c = n) cols.

(** A condition, and the text after it. *)
Fixpoint read_where (fuel : nat) (s : bytes) : option (where_t * bytes) :=
  match fuel with
  | O => None
  | S fuel' =>
      let nw := word s in
      let ow := word (snd nw) in
      let lw := read_lit (snd ow) in
      i ← col_named (fst nw);
      match after (bs " and ") (snd lw), after (bs " or ( " ++ fst nw ++ bs " = " ++ fst lw ++ bs " and ( ") (snd lw) with
      | Some s', _ =>
          r ← read_where fuel' s';
          Some (WAnd i (fst ow) (fst nw, fst lw) (fst r), snd r)
      | None, Some s' =>
          r ← read_where fuel' s';
          s'' ← after (bs " ) ) ") (snd r);
          Some (WOr i (op_first (fst ow)) (fst nw, fst lw) (fst r), s'')
      | None, None => Some (WCmp i (fst ow) (fst nw, fst lw), snd lw)
      end
  end.

(** The names of the columns are different words. *)
Definition names_ok : Prop :=
  NoDup (col_name <$> cols) ∧ ∀ c, c ∈ cols → 32 ∉ col_name c ∧ 44 ∉ col_name c.

Context (Hnames : names_ok).

Lemma col_named_at i c : cols !! i = Some c → col_named (col_name c) = Some i.
Proof.
  intros Hi. unfold col_named. destruct (list_find _ cols) as [[j x]|] eqn:E.
  - apply list_find_Some in E as (Hj & Hx & _). simpl. f_equal.
    destruct Hnames as [Hnd _]. eapply (NoDup_lookup _ _ _ _ Hnd).
    + by rewrite list_lookup_fmap, Hj.
    + by rewrite list_lookup_fmap, Hi; simpl; rewrite Hx.
  - apply list_find_None in E. rewrite Forall_forall in E. exfalso. eapply E; [|done].
    by eapply list_elem_of_lookup_2.
Qed.

(** The text of a number: no blank, and something to read. *)
Lemma number_word c f : wf_field c f → is_num c = true →
  ∃ x t, text_of_field c f = x :: t ∧ x ≠ 39 ∧ 32 ∉ text_of_field c f.
Proof.
  intros Hf Hn. destruct (number_text c f Hf Hn) as (Hok & Hne & _).
  assert (∀ real sinal decimal s, numero_ok real sinal decimal s = true → 32 ∉ s ∧ 39 ∉ s) as Hall.
  { intros real sinal decimal s. revert sinal decimal. induction s as [|x s IH]; intros sinal decimal H; [split; apply not_elem_of_nil|].
    cbn [numero_ok] in H. assert (x ≠ 32 ∧ x ≠ 39) as [H1 H2].
    { split; intros ->; simpl in H; rewrite ?andb_false_r in H; cbn in H; destruct sinal, decimal, real; done. }
    assert (32 ∉ s ∧ 39 ∉ s) as [H3 H4]; [|split; apply not_elem_of_cons; split; congruence].
    repeat case_match; try done; by eapply IH. }
  destruct (Hall _ _ _ _ Hok) as [H1 H2]. destruct (text_of_field c f) as [|x t]; [done|].
  exists x, t. split; [done|]. split; [|done]. intros ->. apply H2. by left.
Qed.

Lemma read_lit_at c x s : text_ok c x → read_lit (lit_of c x ++ 32 :: s) = (lit_of c x, 32 :: s).
Proof.
  intros Hx. unfold lit_of. destruct (is_num c) eqn:Hn.
  - destruct Hx as [(f & Hf & -> & _)|[Hf _]]; [|congruence].
    destruct (number_word c f Hf Hn) as (x & t & E & Hx & Hb). rewrite E in *. unfold read_lit. rewrite <-app_comm_cons.
    assert (strchr (x :: t ++ 32 :: s) 32 = Some (length (x :: t))) as ->.
    { rewrite app_comm_cons. by apply strchr_found. }
    rewrite app_comm_cons, take_app_length, drop_app_length.
    destruct x as [|[p|p|]|p]; try done. repeat (destruct p; try done).
  - assert (39 ∉ x) as Hq by (destruct Hx as [(f & _ & _ & Hq)|[_ ->]]; [done|apply not_elem_of_nil]).
    cbn [app read_lit]. rewrite <-app_assoc. cbn [app]. rewrite (strchr_found _ _ _ Hq).
    rewrite (cons_middle 39), app_assoc.
    assert (length (x ++ [39]) = S (length x)) as <- by (rewrite length_app; simpl; lia).
    by rewrite take_app_length, drop_app_length.
Qed.

(** The texts after a condition. *)
Definition stops (rest : bytes) : Prop := ∃ r, rest = bs " order by " ++ r ∨ rest = bs " ) ) " ++ r.

Fixpoint wsize (w : where_t) : nat :=
  match w with WCmp _ _ _ => 1%nat | WAnd _ _ _ w' | WOr _ _ _ w' => S (wsize w') end.

Lemma op_word op : op ∈ cond_ops → 32 ∉ op.
Proof.
  unfold cond_ops, start_ops. rewrite !elem_of_cons, elem_of_nil.
  intros [->|[->|[->|[->|[->|[]]]]]]; by apply (bool_decide_unpack _).
Qed.

Lemma stops_after n l rest : stops rest →
  after (bs " and ") rest = None ∧ after (bs " or ( " ++ n ++ bs " = " ++ l ++ bs " and ( ") rest = None.
Proof.
  intros [r [-> | ->]]; split.
  - apply (after_none _ (bs " orde") _ (bs "r by " ++ r)); done.
  - unfold after, prefixb. by rewrite bool_decide_false.
  - apply (after_none _ (bs " ) ) ") _ r); done.
  - unfold after, prefixb. by rewrite bool_decide_false.
Qed.

(** One comparison is read: its column, operator and value, up to the blank after it. *)
Lemma atom_read i op n l s : atom_ok cols i op (n, l) →
  let t := n ++ bs " " ++ op ++ bs " " ++ l ++ 32 :: s in
  fst (word t) = n ∧ word (snd (word t)) = (op, l ++ 32 :: s) ∧ read_lit (l ++ 32 :: s) = (l, 32 :: s) ∧ col_named n = Some i.
Proof.
  intros (Hop & c & x & Hi & Hx & [= -> ->]).
  destruct (proj2 Hnames c) as [Hn _]; [by eapply list_elem_of_lookup_2|].
  cbn zeta. rewrite (word_blank _ _ Hn). cbn [fst snd].
  split; [done|]. split; [apply word_blank, op_word, Hop|]. split; [by apply read_lit_at|by apply col_named_at].
Qed.

Lemma read_where_render w : where_ok cols w → ∀ fuel rest, (wsize w ≤ fuel)%nat → stops rest →
  read_where fuel (render w ++ rest) = Some (w, rest).
Proof.
  induction w as [i op [n l]|i op [n l] w IH|i o [n l] w IH]; intros Hw fuel rest Hfuel Hstop;
    (destruct fuel as [|fuel]; [cbn in Hfuel; lia|]); cbn [where_ok wsize] in *.
  - assert (∃ s, rest = 32 :: s) as [s Hs] by (destruct Hstop as [r [-> | ->]]; by eexists).
    destruct (atom_read i op n l s Hw) as (E1 & E2 & E3 & E4). cbn [render].
    replace ((n ++ bs " " ++ op ++ bs " " ++ l) ++ rest) with (n ++ bs " " ++ op ++ bs " " ++ l ++ 32 :: s)
      by (rewrite Hs; by rewrite <-!app_assoc).
    cbn [read_where]. cbv zeta. rewrite E1, E2. cbn [fst snd]. rewrite E3, E4. cbn [fst snd mbind option_bind].
    destruct (stops_after n l rest Hstop) as [A1 A2]. rewrite Hs in A1, A2. by rewrite A1, A2, Hs.
  - destruct Hw as (Ha & _ & Hw).
    destruct (atom_read i op n l (bs "and " ++ render w ++ rest) Ha) as (E1 & E2 & E3 & E4). cbn [render].
    replace ((((n ++ bs " " ++ op ++ bs " " ++ l ++ bs " and ") ++ render w)) ++ rest)
      with (n ++ bs " " ++ op ++ bs " " ++ l ++ 32 :: bs "and " ++ render w ++ rest)
      by (rewrite <-!app_assoc; done).
    cbn [read_where]. cbv zeta. rewrite E1, E2. cbn [fst snd]. rewrite E3, E4. cbn [fst snd mbind option_bind].
    pose proof (after_app (bs " and ") (render w ++ rest)) as A. change (bs " and " ++ ?x) with (32 :: bs "and " ++ x) in A.
    rewrite A. rewrite (IH Hw fuel rest) by (done || lia). done.
  - destruct Hw as [Ha Hw]. set (sep := bs " or ( " ++ n ++ bs " = " ++ l ++ bs " and ( ").
    set (tl := bs "or ( " ++ n ++ bs " = " ++ l ++ bs " and ( " ++ render w ++ bs " ) ) " ++ rest).
    destruct (atom_read i [o] n l tl Ha) as (E1 & E2 & E3 & E4).
    assert (32 :: tl = sep ++ render w ++ bs " ) ) " ++ rest) as Etl.
    { subst tl sep. rewrite <-!app_assoc. done. }
    replace (render (WOr i o (n, l) w) ++ rest) with (n ++ bs " " ++ [o] ++ bs " " ++ l ++ 32 :: tl).
    2:{ rewrite Etl. subst sep. cbn [render]. rewrite <-!app_assoc. done. }
    cbn [read_where]. cbv zeta. rewrite E1, E2. cbn [fst snd]. rewrite E3, E4. cbn [fst snd mbind option_bind].
    assert (after (bs " and ") (32 :: tl) = None) as ->.
    { apply (after_none _ (bs " or (") _ (bs " " ++ n ++ bs " = " ++ l ++ bs " and ( " ++ render w ++ bs " ) ) " ++ rest)); done. }
    fold sep. rewrite Etl, after_app.
    rewrite (IH Hw fuel (bs " ) ) " ++ rest)); [|lia|by exists rest; right]. cbn [mbind option_bind fst snd].
    rewrite after_app. cbn [mbind option_bind]. destruct Ha as (Hop & _). done.
Qed.

(** ** The order *)

(** One column of the order, and whether it is descending. *)
Definition read_item (s : bytes) : option (nat * bool) :=
  let nw := word s in
  i ← col_named (fst nw);
  Some (i, bool_decide (snd nw = bs "desc")).

Fixpoint read_order (fuel : nat) (s : bytes) : option (list nat * bool) :=
  match fuel with
  | O => None
  | S fuel' =>
      match strchr s 44 with
      | None => x ← read_item s; Some ([fst x], snd x)
      | Some j =>
          x ← read_item (take j s);
          r ← read_order fuel' (drop (S j) s);
          Some (fst x :: fst r, snd r)
      end
  end.

Lemma read_item_at op i c : cols !! i = Some c →
  read_item (col_name c ++ (if descending op then bs " desc" else [])) = Some (i, descending op).
Proof.
  intros Hi. destruct (proj2 Hnames c) as [Hn _]; [by eapply list_elem_of_lookup_2|]. unfold read_item.
  destruct (descending op).
  - change (bs " desc") with (32 :: bs "desc"). rewrite (word_app _ _ Hn). cbn [fst snd].
    by rewrite (col_named_at i c Hi).
  - rewrite app_nil_r. unfold word. rewrite (strchr_none _ _ Hn). cbn [fst snd]. by rewrite (col_named_at i c Hi).
Qed.

Lemma read_order_text op ixs cs : mapM (λ i, cols !! i) ixs = Some cs → cs ≠ [] → ∀ fuel, (length cs ≤ fuel)%nat →
  read_order fuel (order_text op (col_name <$> cs)) = Some (ixs, descending op).
Proof.
  intros Hm%mapM_Some. induction Hm as [|i c ixs cs Hi Hm IH]; [done|]. intros _ fuel Hfuel.
  destruct fuel as [|fuel]; [cbn in Hfuel; lia|]. destruct (proj2 Hnames c) as [_ Hn]; [by eapply list_elem_of_lookup_2|].
  assert (44 ∉ col_name c ++ (if descending op then bs " desc" else [])) as Hc.
  { rewrite not_elem_of_app. split; [done|]. destruct (descending op); by apply (bool_decide_unpack _). }
  destruct cs as [|c' cs].
  - apply Forall2_nil_inv_r in Hm as ->. cbn [fmap list_fmap order_text]. cbv zeta. fold (descending op).
    cbn [read_order]. rewrite (strchr_none _ _ Hc). by rewrite (read_item_at op i c Hi).
  - rewrite !fmap_cons, order_text_cons. fold (descending op). rewrite app_assoc. cbn [read_order].
    change (bs "," ++ ?x) with (44 :: x). rewrite (strchr_found _ _ _ Hc), take_app_length, (read_item_at op i c Hi).
    cbn [mbind option_bind]. rewrite drop_app_ge by lia. rewrite Nat.sub_succ_l, Nat.sub_diag by lia. cbn [drop].
    rewrite drop_0, <-fmap_cons. rewrite (IH ltac:(done) fuel) by (cbn in *; lia). done.
Qed.

End parse.
