(* ===== verification/CursorSpec.v ===== *)
(** What a start and the reads along its cursor promise: they give the records of the file
    that satisfy the start, each once, in the order of the key. *)

From stdpp Require Import prelude gmap strings sorting.
From S2P Require Import Prelude Fhtypes Fcd Table Kdb Libpq DbRead DbWrite Sql DbRows DbSession DbSpec Cursor.
Local Open Scope Z_scope.

(** A condition whose columns are the places [ixs] of a key, on the columns of the table. *)
Fixpoint at_cols (ixs : list nat) (w : where_t) : where_t :=
  match w with
  | WCmp j op t => WCmp (nth j ixs 0%nat) op t
  | WAnd j op t w' => WAnd (nth j ixs 0%nat) op t (at_cols ixs w')
  | WOr j o t w' => WOr (nth j ixs 0%nat) o t (at_cols ixs w')
  end.

Lemma render_at_cols ixs w : render (at_cols ixs w) = render w.
Proof. induction w as [j op [n l]|j op [n l] w IH|j o [n l] w IH]; simpl; by rewrite ?IH. Qed.

(** Its text is short when its parts are. *)
Lemma render_length op ts : op ∈ start_ops → ∀ c t, Forall short_term (t :: ts) →
  (length (render (clause op c t ts)) ≤ 262 * S (length ts))%nat.
Proof.
  intros Hop. pose proof (op_short op Hop) as Hl. induction ts as [|t' ts IH]; intros c [n l] Ht.
  - apply Forall_cons in Ht as [Ht _]. unfold short_term in Ht. cbn [clause render fst snd] in *. len_lia.
  - apply Forall_cons in Ht as [Ht Hts]. specialize (IH (S c) t' Hts). unfold short_term in Ht. cbn [fst snd] in *.
    cbn [clause length]. destruct (negb _ && negb _); cbn [render]; rewrite !length_app; simpl;
      (remember (length (render (clause op (S c) t' ts))) as m); rewrite ?length_app; simpl; lia.
Qed.

Section sql.
Context (cmp : column_t → bytes → bytes → comparison) (value : column_t → bytes → option bytes).
Context (cols : list column_t).

(** The condition of a start on the columns [ixs] compares the key of the row with the
    values, column by column. *)
Lemma sql_true_clause row ixs op : op ∈ start_ops → ∀ ts c t (f : nat → comparison),
  (∀ j u, (t :: ts) !! j = Some u → f (c + j)%nat = against cmp value cols row (nth (c + j) ixs 0%nat) (snd u)) →
  sql_true cmp value cols row (at_cols ixs (clause op c t ts)) = holds op (lexc (f <$> seq c (S (length ts)))).
Proof.
  intros Hop ts c t f Hf. rewrite <-(clause_eval f op ts Hop c t). revert c t Hf.
  induction ts as [|t' ts IH]; intros c [n l] Hf; cbn [clause].
  - cbn [at_cols sql_true eval]. specialize (Hf 0%nat _ eq_refl). rewrite Nat.add_0_r in Hf. by rewrite Hf.
  - pose proof (Hf 0%nat _ eq_refl) as H0. rewrite Nat.add_0_r in H0. cbn [snd] in H0.
    assert (sql_true cmp value cols row (at_cols ixs (clause op (S c) t' ts)) = eval f (clause op (S c) t' ts)) as E.
    { apply IH. intros j u Hj. specialize (Hf (S j) u Hj). by rewrite Nat.add_succ_r in Hf. }
    destruct (negb _ && negb _); cbn [at_cols sql_true eval]; by rewrite H0, E.
Qed.

End sql.

Lemma where_ok_clause cols ixs op : op ∈ start_ops → ∀ ts c t,
  (∀ j u, (t :: ts) !! j = Some u → ∃ c' x, cols !! nth (c + j) ixs 0%nat = Some c' ∧ text_ok c' x ∧
    u = (col_name c', lit_of c' x)) →
  where_ok cols (at_cols ixs (clause op c t ts)).
Proof.
  intros Hop. induction ts as [|t' ts IH]; intros c t Ht.
  - cbn. split; [done|]. specialize (Ht 0%nat t eq_refl). by rewrite Nat.add_0_r in Ht.
  - pose proof (Ht 0%nat t eq_refl) as H0. rewrite Nat.add_0_r in H0.
    assert (where_ok cols (at_cols ixs (clause op (S c) t' ts))) as E.
    { apply IH. intros j u Hj. specialize (Ht (S j) u Hj). by rewrite Nat.add_succ_r in Ht. }
    cbn [clause]. destruct (negb _ && negb _) eqn:Eop; cbn [at_cols where_ok].
    + split; [by split|]. split; [|done]. destruct ts; cbn [clause]; [done|]. by rewrite Eop.
    + split; [|done]. split; [|done]. revert Eop. unfold cond_ops, start_ops in *. rewrite !elem_of_cons, elem_of_nil in Hop.
      destruct Hop as [->|[->|[->|[->|[->|[]]]]]]; intros Eop; first [done|set_solver].
Qed.

Section cursor.
Context {D : Type} `{!Libpq D} `{!DbCalls D} (log_ok : bool).
Context {schema name : bytes} {cols : list column_t} {keys : list key_t}.
Context `{P : !PgTable D schema name cols keys} `{!PgCursor D schema name cols keys} (ts : bytes).
Context (Hwf : file_wf (schema:=schema) (name:=name) (cols:=cols) (keys:=keys) ts).

Notation cols_at := (cols_at (cols:=cols)).
Notation sess_ok := (sess_ok (PgTable0:=P) ts).
Notation tab_ok := (tab_ok (PgTable0:=P) ts).
Notation call_ok := (call_ok (cols:=cols)).
Notation wf_rec := (wf_rec (cols:=cols) (keys:=keys)).

(** What the server keeps of a field. *)
Definition kept_value (c : column_t) (r : bytes) : bytes := default [] (canon c (text_of_field c (field_at r c))).

(** The text a start spells for a column: a number that starts with a NUL is zero, a text
    ends at a NUL. *)
Definition start_text (c : column_t) (area : bytes) : bytes :=
  let f := field_at area c in
  if is_num c then (if byte_at f 0 =? 0 then zeros (col_len c) else text_of_field c f) else cstr f.
Definition start_value (c : column_t) (area : bytes) : bytes := default [] (canon c (start_text c area)).

(** How a record compares with the key in the record area of a start. *)
Definition start_cmp (cs : list column_t) (r area : bytes) : comparison :=
  lexc ((λ c, pg_cmp c (kept_value c r) (start_value c area)) <$> cs).

(** How two records compare by the columns of a key. *)
Definition key_cmp (cs : list column_t) (r r' : bytes) : comparison :=
  lexc ((λ c, pg_cmp c (kept_value c r) (kept_value c r')) <$> cs).

(** The order a start asks for. *)
Definition before (op : bytes) (cs : list column_t) (r r' : bytes) : Prop :=
  key_cmp cs r r' ≠ (if descending op then Lt else Gt).

(** The records of a start. *)
Definition starts (op : bytes) (cs : list column_t) (area r : bytes) : Prop :=
  holds op (start_cmp cs r area) = true.

#[global] Instance starts_dec op cs area r : Decision (starts op cs area r).
Proof. unfold starts. apply _. Defined.

Lemma row_cmp_img ixs cs r r' : mapM (λ i, cols !! i) ixs = Some cs →
  row_cmp pg_cmp cols ixs (row_img r) (row_img r') = key_cmp cs r r'.
Proof.
  intros Hm%mapM_Some. unfold row_cmp, key_cmp. f_equal. induction Hm as [|i c ixs cs Hi _ IH]; [done|].
  rewrite !fmap_cons, IH, !row_img_lookup, Hi. done.
Qed.

(** The names and values the condition is made of. *)
Definition terms (cs : list column_t) (r : bytes) : list (bytes * bytes) :=
  (λ c, (col_name c, lit_of c (start_text c r))) <$> cs.

Lemma against_img i c r area : cols !! i = Some c →
  against pg_cmp canon cols (row_img r) i (lit_of c (start_text c area)) =
    pg_cmp c (kept_value c r) (start_value c area).
Proof. intros Hi. unfold against. by rewrite row_img_lookup, Hi, lit_text_of. Qed.

Lemma starts_sql op ixs c cs area r : op ∈ start_ops → mapM (λ i, cols !! i) ixs = Some (c :: cs) →
  sql_true pg_cmp canon cols (row_img r)
    (at_cols ixs (clause op 0 (col_name c, lit_of c (start_text c area)) (terms cs area))) =
  holds op (start_cmp (c :: cs) r area).
Proof.
  intros Hop Hm%mapM_Some.
  rewrite (sql_true_clause _ _ _ _ _ _ Hop _ _ _ (λ j, match (c :: cs) !! j with
      Some x => pg_cmp x (kept_value x r) (start_value x area) | None => Eq end)).
  - f_equal. unfold start_cmp. f_equal. unfold terms. rewrite length_fmap. change (S (length cs)) with (length (c :: cs)).
    clear. generalize (c :: cs). intros l. apply list_eq. intros j. rewrite !list_lookup_fmap.
    destruct (l !! j) as [x|] eqn:E.
    + rewrite lookup_seq_lt by (by eapply lookup_lt_Some). cbn. by rewrite E.
    + apply lookup_ge_None in E. by rewrite lookup_seq_ge by done.
  - intros j u Hj. change ((terms (c :: cs) area) !! j = Some u) in Hj. unfold terms in Hj.
    rewrite list_lookup_fmap in Hj. cbn [Nat.add]. destruct ((c :: cs) !! j) as [x|] eqn:E; [|done].
    injection Hj as <-. destruct (Forall2_lookup_r _ _ _ _ _ Hm E) as (i & Hi & Hx).
    rewrite (nth_lookup_Some _ _ _ _ Hi). cbn [snd]. symmetry. by apply against_img.
Qed.

(** A field that can go into the text of a condition: of a key, without quotes, or full of
    NULs, where a number must have no decimals to be spelt as zero. *)
Definition start_field (c : column_t) (f : bytes) : Prop :=
  (wf_field c f ∧ (is_num c = true → ∀ x, x ∈ f → isdigit x = true) ∧ 39 ∉ text_of_field c f) ∨
  (f = replicate (col_len c) 0 ∧ (is_num c = true → col_dec c = 0%nat)).

Definition start_area (cs : list column_t) (area : bytes) : Prop := ∀ c, c ∈ cs → start_field c (field_at area c).

Lemma cstr_nuls n : cstr (replicate n 0) = [].
Proof. by destruct n. Qed.

Lemma digit_head (f : bytes) : (0 < length f)%nat → (∀ x, x ∈ f → isdigit x = true) → (byte_at f 0 =? 0) = false.
Proof.
  intros Hl Hd. apply Z.eqb_neq. destruct f as [|x f]; [simpl in Hl; lia|].
  unfold byte_at. simpl. intros ->. by specialize (Hd 0 ltac:(by left)).
Qed.

(** A field of a key is spelt as its text. *)
Lemma start_text_key c area : c ∈ cols → wf_field c (field_at area c) →
  (is_num c = true → ∀ x, x ∈ field_at area c → isdigit x = true) →
  start_text c area = text_of_field c (field_at area c).
Proof.
  intros Hc Hf Hd. unfold start_text. cbv zeta. destruct (col_sizes ts Hwf c Hc) as [H1 H2]. destruct (is_num c) eqn:Hn.
  - by rewrite digit_head by (first [by apply Hd|rewrite (proj1 Hf); lia]).
  - pose proof (field_text_no_nul c _ Hf) as Hnul. unfold text_of_field in *. rewrite Hn in *. by apply cstr_id.
Qed.

Lemma zeros_digits n x : x ∈ zeros n → isdigit x = true.
Proof. by intros [-> _]%elem_of_replicate. Qed.

Lemma zeros_wf c : (0 < col_len c)%nat → is_num c = true → col_dec c = 0%nat →
  wf_field c (zeros (col_len c)) ∧ text_of_field c (zeros (col_len c)) = zeros (col_len c).
Proof.
  intros Hl Hn Hd. assert (wf_field c (zeros (col_len c))) as Hf.
  { split; [apply length_replicate|]. rewrite Hn. split; [lia|].
    exists (zeros (col_len c - 1)), 48. split; [apply zeros_digits|]. split; [done|]. left.
    unfold zeros. change [48] with (replicate 1 48). rewrite <-replicate_add. f_equal. lia. }
  split; [done|]. rewrite (digits_text c _ Hf Hn); [|apply zeros_digits]. unfold pointed. by rewrite Hd.
Qed.

Lemma start_text_ok c area : c ∈ cols → start_field c (field_at area c) → text_ok c (start_text c area).
Proof.
  intros Hc [(Hf & Hd & Hq)|[Hz Hd]].
  - rewrite (start_text_key c area Hc Hf Hd). left. by eexists.
  - unfold start_text. rewrite Hz, cstr_nuls. destruct (col_sizes ts Hwf c Hc) as [H1 H2]. destruct (is_num c) eqn:Hn; [|by right].
    assert ((byte_at (replicate (col_len c) 0) 0 =? 0) = true) as -> by by destruct (col_len c).
    left. destruct (zeros_wf c ltac:(lia) Hn (Hd eq_refl)) as [Hw E]. exists (zeros (col_len c)). split; [done|].
    split; [done|]. intros H%zeros_digits. done.
Qed.

Lemma start_where_ok op ixs c cs area : op ∈ start_ops → mapM (λ i, cols !! i) ixs = Some (c :: cs) →
  Forall (λ c, c ∈ cols) (c :: cs) → start_area (c :: cs) area →
  where_ok cols (at_cols ixs (clause op 0 (col_name c, lit_of c (start_text c area)) (terms cs area))).
Proof.
  intros Hop Hm%mapM_Some Hcs Hk. rewrite Forall_forall in Hcs. apply where_ok_clause; [done|].
  intros j u Hj. change ((terms (c :: cs) area) !! j = Some u) in Hj. unfold terms in Hj. rewrite list_lookup_fmap in Hj.
  destruct ((c :: cs) !! j) as [x|] eqn:E; [|done]. injection Hj as <-.
  destruct (Forall2_lookup_r _ _ _ _ _ Hm E) as (i & Hi & Hx). pose proof (list_elem_of_lookup_2 _ _ _ E) as Hin.
  exists x, (start_text x area). cbn [Nat.add]. rewrite (nth_lookup_Some _ _ _ _ Hi).
  split; [done|]. split; [|done]. apply start_text_ok; [by apply Hcs|by apply Hk].
Qed.

(** The program spells them so. *)
Lemma term_run cols' i c area : same_cols cols cols' → cols !! i = Some c → length area = cols_len cols →
  start_field c (field_at area c) → term cols' area i = Some (col_name c, lit_of c (start_text c area)).
Proof.
  intros Hs Hi Ha Hf. pose proof (list_elem_of_lookup_2 _ _ _ Hi) as Hc.
  assert (cols' !! i = Some (set_p (col_p (default c (cols' !! i))) c)) as Hi'.
  { unfold same_cols in Hs. apply (f_equal (.!! i)) in Hs. rewrite !list_lookup_fmap, Hi in Hs.
    destruct (cols' !! i) as [c'|]; [|done]. simpl in *. f_equal. apply set_p_of. congruence. }
  unfold term. rewrite Hi'. cbn [mbind option_bind]. generalize (col_p (default c (cols' !! i))). intros p.
  unfold comp_text, literal. change (col_offset (set_p p c)) with (col_offset c). change (col_len (set_p p c)) with (col_len c).
  change (is_num (set_p p c)) with (is_num c). change (col_dec (set_p p c)) with (col_dec c).
  change (pointed (set_p p c)) with (pointed c). change (col_name (set_p p c)) with (col_name c).
  rewrite (field_rec ts Hwf c area Hc Ha). cbn [mbind option_bind]. cbv zeta.
  destruct (col_sizes ts Hwf c Hc) as [H1 H2].
  rewrite (proj2 (Nat.leb_le (col_dec c) (col_len c))) by lia. rewrite (proj2 (Nat.leb_le _ 256)) by (case_match; lia).
  cbn [andb mbind option_bind].
  assert (cstr (if is_num c && (byte_at (field_at area c) 0 =? 0) then zeros (col_len c)
    else if is_num c && (0 <? col_dec c)%nat then pointed c (field_at area c) else field_at area c) = start_text c area) as ->.
  { unfold start_text. cbv zeta. destruct (is_num c) eqn:Hn; [|done]. cbn [andb].
    destruct (byte_at (field_at area c) 0 =? 0) eqn:Eb.
    - apply cstr_id. intros H%zeros_digits. done.
    - destruct Hf as [(Hf & Hd & _)|[Hz _]]; [|by rewrite Hz in Eb; destruct (col_len c); [lia|]].
      pose proof (field_text_no_nul c _ Hf) as Hnul. rewrite (digits_text c _ Hf Hn (Hd Hn)) in *.
      unfold pointed in *. destruct (0 <? col_dec c)%nat; by rewrite cstr_id. }
  pose proof (start_text_ok c area Hc Hf) as Hok. unfold lit_of. destruct (is_num c) eqn:Hn; [done|].
  unfold escape. destruct (strchr (start_text c area) 39) eqn:E; [|done]. exfalso.
  assert (39 ∉ start_text c area) as Hq by (destruct Hok as [(f & _ & _ & Hq)|[_ ->]]; [done|apply not_elem_of_nil]).
  by rewrite (strchr_none _ _ Hq) in E.
Qed.

(** ** The condition and the order of a start *)

(** The sizes of a key that fit the buffers of a start. *)
Record start_fits (key : key_t) : Prop := {
  sf_cols c : c ∈ cols_at (k_columns key) → (length (col_name c) + col_len c + 3 ≤ 118)%nat;
  sf_order op : op ∈ start_ops → Z.of_nat (length (order_text op (col_name <$> cols_at (k_columns key)))) <= 256;
  sf_text : Z.of_nat (length schema + 262 * length (k_columns key)) <= 19000;
}.

Lemma text_length c r : c ∈ cols → start_field c (field_at r c) → (length (start_text c r) ≤ S (col_len c))%nat.
Proof.
  intros Hc [(Hf & Hd & _)|[Hz Hd]].
  - rewrite (start_text_key c r Hc Hf Hd). assert (length (field_at r c) = col_len c) as Hl by apply Hf.
    destruct (is_num c) eqn:Hn; [|unfold text_of_field; rewrite Hn; lia].
    rewrite (digits_text c _ Hf Hn (Hd eq_refl)). unfold pointed. destruct (0 <? col_dec c)%nat; [|lia].
    rewrite !length_app, length_take, length_drop. simpl. lia.
  - unfold start_text. rewrite Hz, cstr_nuls. destruct (col_sizes ts Hwf c Hc) as [H1 H2]. destruct (is_num c); [|simpl; lia].
    assert ((byte_at (replicate (col_len c) 0) 0 =? 0) = true) as -> by (destruct (col_len c); [lia|done]).
    unfold zeros. rewrite length_replicate. lia.
Qed.

Lemma short_terms cs area : Forall (λ c, c ∈ cols) cs → start_area cs area →
  (∀ c, c ∈ cs → (length (col_name c) + col_len c + 3 ≤ 118)%nat) → Forall short_term (terms cs area).
Proof.
  intros Hcs Hk Hlen. rewrite Forall_forall in Hcs. unfold terms. apply Forall_fmap, Forall_forall. intros c Hc.
  pose proof (text_length c area (Hcs c Hc) (Hk c Hc)). specialize (Hlen c Hc).
  unfold short_term, compose, lit_of. cbn [fst snd]. destruct (is_num c); rewrite ?length_app; simpl; lia.
Qed.

Lemma terms_run cols' ixs cs area : same_cols cols cols' → mapM (λ i, cols !! i) ixs = Some cs →
  length area = cols_len cols → start_area cs area → mapM (term cols' area) ixs = Some (terms cs area).
Proof.
  intros Hs Hm%mapM_Some Ha Hk. apply mapM_Some. unfold terms. apply Forall2_fmap_r.
  induction Hm as [|i c ixs cs Hi _ IH]; constructor.
  - apply (term_run cols' i c area); try done. apply Hk. by left.
  - apply IH; intros x Hx; apply Hk; by right.
Qed.

Lemma getwhere_run cols' k key c cs area op : op ∈ start_ops → same_cols cols cols' → keys !! k = Some key →
  mapM (λ i, cols !! i) (k_columns key) = Some (c :: cs) → length area = cols_len cols → start_area (c :: cs) area →
  start_fits key →
  getwhere name cols' keys 0 false false area k op =
    Some (render (clause op 0 (col_name c, lit_of c (start_text c area)) (terms cs area)),
          order_text op (col_name <$> c :: cs)).
Proof.
  intros Hop Hs Hk Hm Ha Harea Hfit. destruct (keys_bound ts Hwf _ _ Hk) as [_ Hin].
  destruct (key_cols_run ts Hwf key Hin) as (c' & cs' & Hm' & Hcs & _ & Hc).
  rewrite Hm in Hm'. injection Hm' as <- <-.
  unfold getwhere. rewrite Hk. cbn [andb]. cbv iota zeta.
  rewrite (adiciona_comp_run cols' (k_columns key) area op Hop (k_columns key) 0 [] []
    (terms cs area) (col_name c, lit_of c (start_text c area))).
  - cbn [app]. f_equal. f_equal. f_equal. unfold terms. rewrite !fmap_cons. f_equal. by rewrite <-list_fmap_compose.
  - done.
  - by apply (terms_run cols' _ (c :: cs)).
  - apply (short_terms (c :: cs)); [done|done|]. rewrite <-Hcs. apply (sf_cols _ Hfit).
Qed.

End cursor.
