(* ===== verification/CursorScan.v ===== *)
(** A start and the reads along its cursor, run on a session: the records of the start, in
    its order, then the end of the file. *)

From stdpp Require Import prelude gmap strings sorting.
From S2P Require Import Prelude Fhtypes Fcd Table Kdb Libpq DbRead DbWrite Sql DbRows DbSession DbSpec Cursor CursorSpec.
Local Open Scope Z_scope.

Section scan.
Context {D : Type} `{!Libpq D} `{!DbCalls D} (log_ok : bool).
Context {schema name : bytes} {cols : list column_t} {keys : list key_t}.
Context `{P : !PgTable D schema name cols keys} `{C : !PgCursor D schema name cols keys} (ts : bytes).
Context (Hwf : file_wf (schema:=schema) (name:=name) (cols:=cols) (keys:=keys) ts).
Context (Hword : 32 ∉ name ∧ 32 ∉ ts).

Notation cols_at := (cols_at (cols:=cols)).
Notation sess_ok := (sess_ok (PgTable0:=P) ts).
Notation tab_ok := (tab_ok (PgTable0:=P) ts).
Notation call_ok := (call_ok (cols:=cols)).
Notation wf_rec := (wf_rec (cols:=cols) (keys:=keys)).

Definition cname : bytes := bs "cursor_" ++ name ++ bs "_" ++ ts.

Lemma cname_word : is_word cname.
Proof.
  destruct Hword as [H1 H2]. split; [done|]. unfold cname. rewrite !not_elem_of_app.
  split_and!; try done; by apply (bool_decide_unpack _).
Qed.

Lemma cname_length : (length cname ≤ 67)%nat.
Proof. pose proof (fw_name ts Hwf). unfold cname. rewrite !length_app. simpl. lia. Qed.

Lemma cursor_name_eq d t : tab_ok d t → cursor_name t = cname.
Proof. intros H. unfold cursor_name, cname. by rewrite (to_name _ _ _ H), (to_ts _ _ _ H). Qed.

(** The server has the cursor of the table when the table says so. *)
Definition cursor_ok (d : D) (t : table_t) : Prop :=
  if t_cursor t then ∃ rows, pg_cursor d cname = Some rows else pg_cursor d cname = None.

Lemma tab_ok_same d d' t : same_prepared d d' → tab_ok d t → tab_ok d' t.
Proof. intros H. apply tab_ok_kept. intros m _. apply H. Qed.

(** The fields of a table that a start and its reads change. *)
Definition same_table (t t' : table_t) : Prop := ∀ d, tab_ok d t → tab_ok d t'.

Lemma sess_next (s : dbs D) a t t' d' b : sess_ok s a t → same_prepared (conn s) d' → same_table t t' →
  sess_ok (mk_dbs d' (gdb s) (<[a:=t']> (tabs s)) b) a t'.
Proof.
  intros (_ & Ht & Hw & He) Hp Hst. split; [apply lookup_insert_eq|]. split; [|done].
  cbn [conn]. eapply tab_ok_same; [exact Hp|]. by apply Hst.
Qed.

Lemma sess_conn (s : dbs D) a t d' : sess_ok s a t → same_prepared (conn s) d' →
  sess_ok (mk_dbs d' (gdb s) (tabs s) (tabs_brk s)) a t.
Proof. intros (Ha & Ht & Hw & He) Hp. split; [done|]. split; [|done]. by eapply tab_ok_same. Qed.

Lemma same_prepared_refl d : same_prepared (PgTable0:=P) d d.
Proof. by intros m. Qed.

Lemma close_cursor_run (s : dbs D) a t : sess_ok s a t → cursor_ok (conn s) t →
  ∃ s', close_cursor a s = (s', inr tt) ∧ sess_ok s' a (set_t_cursor false t) ∧ pg_cursor (conn s') cname = None ∧
    pg_rows (conn s') = pg_rows (conn s) ∧ gdb s' = gdb s ∧ (∀ b, b ≠ a → tabs s' !! b = tabs s !! b) ∧
    same_prepared (conn s) (conn s').
Proof.
  intros Hs Hc. pose proof Hs as (Ha & Ht & _). unfold close_cursor, cursor_ok in *.
  rewrite (bind_ok _ _ _ _ _ (tab_at_run _ _ _ Ha)). destruct (t_cursor t) eqn:E; cbn [negb].
  - destruct Hc as [rows Hc]. erewrite bind_ok by (apply on_tab_run; exact Ha). unfold exec_logged.
    rewrite (cursor_name_eq _ _ Ht).
    pose proof cname_length. erewrite bind_ok by (apply fit_run; rewrite length_app; change (length (bs "close ")) with 6%nat; unfold MAX_REC_LEN; lia).
    destruct (pg_close _ _ _ cname_word Hc) as (d' & r & Ed & Hc' & Hr & Hp).
    erewrite bind_ok by (apply pq_run; exact Ed). eexists. split; [done|].
    cbn [conn gdb tabs tabs_brk]. split; [|split_and!; try done; intros b Hb; by rewrite lookup_insert_ne].
    apply (sess_next s a t); [done|done|]. intros d Hd. split; apply Hd.
  - exists s. split; [done|]. assert (set_t_cursor false t = t) as ->; [|done].
    destruct t. cbn in E. by subst.
Qed.

(** The table of a session on which a start sends its cursor. *)
Record can_start (s : dbs D) (a : Z) (t : table_t) : Prop := {
  cs_sess : sess_ok s a t;
  cs_cursor : cursor_ok (conn s) t;
  cs_weak : name ∉ d_weak (gdb s);
  cs_force : d_force_partial (gdb s) = false;
  cs_partial : t_partial_key t = 0%nat;
}.

Lemma is_weak_run (s : dbs D) : name ∉ d_weak (gdb s) → is_weak name s = (s, inr false).
Proof. intros H. unfold is_weak. rewrite (bind_ok _ _ _ _ _ (getd_run _ _)). by rewrite bool_decide_false. Qed.

(** The records of a start, in order. *)
Definition scan_of (op : bytes) (cs : list column_t) (area : bytes) (recs out : list bytes) : Prop :=
  out ≡ₚ filter (starts op cs area) recs ∧ StronglySorted (before op cs) out.

Lemma filter_sql op ixs c cs area (recs : list bytes) : op ∈ start_ops → mapM (λ i, cols !! i) ixs = Some (c :: cs) →
  filter (λ r, sql_true pg_cmp canon cols r (at_cols ixs (clause op 0
      (col_name c, lit_of c (start_text c area)) (terms cs area))) = true) (row_img <$> recs) =
  row_img <$> filter (starts op (c :: cs) area) recs.
Proof.
  intros Hop Hm. induction recs as [|r recs IH]; [done|]. rewrite fmap_cons, !filter_cons.
  pose proof (starts_sql op ixs c cs area r Hop Hm) as E. rewrite E.
  destruct (decide (starts op (c :: cs) area r)) as [H|H]; unfold starts in H.
  - rewrite decide_True by done. by rewrite fmap_cons, IH.
  - rewrite decide_False by done. done.
Qed.

Lemma sorted_img op ixs cs (out : list bytes) : mapM (λ i, cols !! i) ixs = Some cs →
  StronglySorted (row_before pg_cmp cols (descending op) ixs) (row_img <$> out) → StronglySorted (before op cs) out.
Proof.
  intros Hm. induction out as [|r out IH]; [constructor|]. rewrite fmap_cons. intros [H1 H2]%StronglySorted_inv.
  constructor; [by apply IH|]. rewrite Forall_fmap in H2. eapply Forall_impl; [exact H2|].
  intros r' Hr. unfold compose, row_before in Hr. by rewrite (row_cmp_img _ _ _ _ Hm) in Hr.
Qed.

Lemma declare_length n sch nm w order :
  length (declare_text n sch nm w order) = (68 + length n + length sch + length nm + length w + length order)%nat.
Proof. unfold declare_text. rewrite !length_app. cbn. lia. Qed.

Lemma declare_cursor_run (s : dbs D) a t k key fcd op recs : can_start s a t → rows_ok (conn s) recs →
  call_ok fcd a → getshort (key_id fcd) = Z.of_nat k → keys !! k = Some key → op ∈ start_ops → start_fits (schema:=schema) (cols:=cols) key →
  start_area (cols_at (k_columns key)) (record fcd) →
  ∃ s' out, declare_cursor a fcd op s = (s', inr tt) ∧ sess_ok s' a (set_t_cursor true (set_t_cursor false t)) ∧
    pg_cursor (conn s') cname = Some (row_img <$> out) ∧
    scan_of op (cols_at (k_columns key)) (record fcd) recs out ∧ pg_rows (conn s') = pg_rows (conn s) ∧ gdb s' = gdb s.
Proof.
  intros [Hs Hcur Hweak Hforce Hpart] (Hrows & Hrecs & _) Hcall Hid Hk Hop Hfit Harea.
  destruct (keys_bound ts Hwf _ _ Hk) as [_ Hin].
  destruct (key_cols_run ts Hwf key Hin) as (c & cs & Hm & Hcs & _ & Hc). rewrite Hcs in *.
  unfold declare_cursor. rewrite Hid, Nat2Z.id.
  destruct (close_cursor_run s a t Hs Hcur) as (s1 & E1 & Hs1 & Hc1 & Hr1 & Hg1 & _).
  rewrite (bind_ok _ _ _ _ _ E1). erewrite bind_ok by (apply on_tab_run, Hs1).
  erewrite bind_ok by (apply tab_at_run, lookup_insert_eq).
  pose proof (proj1 (proj2 Hs1)) as Ht1. pose proof (to_name _ _ _ Ht1) as Hn. cbn [t_name set_t_cursor] in *.
  rewrite Hn. erewrite bind_ok by (apply is_weak_run; cbn [gdb]; by rewrite Hg1).
  rewrite (bind_ok _ _ _ _ _ (getd_run _ _)). cbn [gdb]. rewrite Hg1, Hforce. cbv iota.
  cbn [t_columns t_keys t_partial_key set_t_cursor]. rewrite Hpart.
  pose proof (to_keys _ _ _ Ht1) as Hkeys. cbn [t_keys set_t_cursor] in Hkeys. rewrite Hkeys.
  rewrite (getwhere_run ts Hwf (t_columns t) k key c cs (record fcd) op Hop (to_cols _ _ _ Ht1) Hk Hm (co_rec _ _ Hcall) Harea Hfit).
  cbn [of_option]. rewrite ret_bind. cbn [fst snd].
  pose proof (sf_order _ Hfit op Hop) as Hord. rewrite Hcs in Hord. rewrite (bind_ok _ _ _ _ _ (fit_run _ _ _ Hord)).
  set (w := render _).
  assert (bs "declare " ++ cursor_name (set_t_cursor true (set_t_cursor false t)) ++ bs " cursor with hold for" ++ [10] ++
    bs "  select * from " ++ t_schema (set_t_cursor true (set_t_cursor false t)) ++ bs "." ++ name ++ [10] ++
    bs "    where " ++ w ++ bs " order by " ++ order_text op (col_name <$> c :: cs) =
    declare_text cname schema name w (order_text op (col_name <$> c :: cs))) as ->.
  { unfold declare_text. f_equal. f_equal; [|f_equal; f_equal; f_equal].
    - apply (cursor_name_eq (conn s1)). split; apply Ht1.
    - f_equal. apply (to_schema _ _ _ Ht1). }
  assert (Z.of_nat (length (declare_text cname schema name w (order_text op (col_name <$> c :: cs)))) <= MAX_REC_LEN) as Hlen.
  { pose proof cname_length. pose proof (sf_text _ Hfit). pose proof (fw_name ts Hwf).
    assert (length w ≤ 262 * length (k_columns key))%nat.
    { apply length_mapM in Hm. subst w. etrans; [apply (render_length op _ Hop)|].
      - apply (short_terms ts Hwf (c :: cs)); [done|done|]. rewrite <-Hcs. apply (sf_cols _ Hfit).
      - unfold terms. rewrite length_fmap. cbn [length] in Hm. lia. }
    rewrite declare_length. unfold MAX_REC_LEN. lia. }
  rewrite (bind_ok _ _ _ _ _ (fit_run _ _ _ Hlen)). subst w. rewrite <-(render_at_cols (k_columns key)).
  destruct (pg_declare (conn s1) cname (k_columns key) (c :: cs) op _ Hc1 cname_word Hop
    (start_where_ok ts Hwf op _ c cs (record fcd) Hop Hm Hc Harea) Hm ltac:(done)) as (d' & rows & Ed & Hcd & Hperm & Hsort & Hrd & Hpd).
  erewrite bind_ok by (apply pq_run; exact Ed). change (is_command_ok _) with true. cbv iota.
  rewrite Hr1, Hrows, (filter_sql op _ c cs (record fcd) recs Hop Hm) in Hperm.
  apply Permutation_map_inv in Hperm as (out & -> & Hperm).
  eexists _, out. split; [done|]. cbn [conn gdb tabs tabs_brk]. split; [|split; [exact Hcd|]].
  - rewrite <-Hg1. apply (sess_next s1 a (set_t_cursor false t)); [done|done|]. intros d Hd. split; apply Hd.
  - split; [|split; [by rewrite Hrd, Hr1|done]]. split; [by symmetry|]. by apply (sorted_img op _ (c :: cs) out Hm).
Qed.

(** The cursor is at the records [rest]: the next read gives the first of them, unless
    the record of the start is still to be given. *)
Record at_rest (first : bool) (s : dbs D) (a : Z) (t : table_t) (rest : list bytes) : Prop := {
  ar_sess : sess_ok s a t;
  ar_cursor : pg_cursor (conn s) cname = Some (row_img <$> rest);
  ar_wf : Forall wf_rec rest;
  ar_restart : t_restart t = 0;
  ar_first : t_first t = first;
  ar_eof : d_eof_start (gdb s) = false;
}.

(** The rows and the globals stay as they are. *)
Definition same_read (s s' : dbs D) : Prop := pg_rows (conn s') = pg_rows (conn s) ∧ gdb s' = gdb s.

#[local] Instance same_read_preorder : PreOrder same_read.
Proof. split; [done|]. intros s1 s2 s3 [A1 A2] [B1 B2]. split; congruence. Qed.

Lemma fetch_run (s : dbs D) a t rest dir fcd k key : at_rest false s a t rest → call_ok fcd a →
  getshort (key_id fcd) = Z.of_nat k → keys !! k = Some key →
  ∃ s' t', fetch a dir fcd s = (s', inr (match rest with [] => set_status ST_EOF fcd | r :: _ => set_status ST_OK (set_rec r fcd) end)) ∧
    at_rest false s' a t' (tail rest) ∧ t_cursor t' = t_cursor t ∧ same_read s s'.
Proof.
  intros [Hs Hcur Hrest Hre Hfi Heof] Hcall Hid Hk. pose proof Hs as (Ha & Ht & Hw & He).
  destruct (keys_bound ts Hwf _ _ Hk) as [_ Hin]. unfold fetch.
  rewrite (bind_ok _ _ _ _ _ (tab_at_run _ _ _ Ha)), (cursor_name_eq _ _ Ht). cbv zeta.
  pose proof cname_length. erewrite bind_ok by (apply fit_run; rewrite length_app; change (length (bs "fetch next in ")) with 14%nat; lia).
  destruct (pg_fetch _ _ _ cname_word Hcur) as (d' & Ed & Hc' & Hr & Hp).
  erewrite bind_ok by (apply pq_run; exact Ed). unfold first_tuple. cbn [rs_status rs_rows].
  pose proof (sess_conn s a t d' Hs Hp) as Hs'.
  destruct rest as [|r rest].
  - cbn [fmap list_fmap take head]. eexists _, t. split; [done|]. split; [|done]. by split.
  - rewrite fmap_cons in *. cbn [take head] in *. apply Forall_cons in Hrest as [Hwr Hrest].
    rewrite (same_cols_pq2cob _ _ _ _ (to_cols _ _ _ Ht)).
    rewrite (row_back r (record fcd)); [|apply (fw_layout ts Hwf)|apply Hwr|apply Hcall|apply (wf_rec_cols (keys:=keys)); [done|apply cols_self]].
    cbn [of_option]. rewrite ret_bind.
    rewrite (to_keys _ _ _ Ht). change (key_id (set_status ST_OK (set_rec r fcd))) with (key_id fcd).
    rewrite Hid, Nat2Z.id. unfold getkbuf. rewrite Hk. cbn [mbind option_bind].
    change (record (set_status ST_OK (set_rec r fcd))) with r.
    rewrite (key_bytes_run ts Hwf _ key r (to_cols _ _ _ Ht) Hin (wr_len _ Hwr)). cbn [of_option]. rewrite ret_bind.
    rewrite (co_reclen _ _ Hcall). unfold guard_fault. rewrite (proj2 (Z.leb_le _ _) (fw_len ts Hwf)). rewrite ret_bind.
    rewrite sub_bytes_full by by rewrite (wr_len _ Hwr).
    cbn [of_option]. rewrite ret_bind. erewrite bind_ok by (apply on_tab_run; exact Ha).
    eexists _, ((if dir =? ch "n" then keep_next _ _ else keep_prev _ _) t). split; [done|].
    cbn [conn gdb tabs tabs_brk tail]. split.
    + split; [|exact Hc'|done|by destruct (dir =? ch "n")|by destruct (dir =? ch "n")|done].
      apply (sess_next s a t); [done|done|]. intros d Hd. destruct (dir =? ch "n"); split; apply Hd.
    + split; [by destruct (dir =? ch "n")|done].
Qed.

(** The directions a program reads in. *)
Definition is_dir (dir : Z) : Prop := dir = ch "n" ∨ dir = ch "p".

Lemma at_rest_tab b b' (s : dbs D) a t t' rest : at_rest b s a t rest → same_table t t' → t_restart t' = 0 → t_first t' = b' →
  at_rest b' (mk_dbs (conn s) (gdb s) (<[a:=t']> (tabs s)) (tabs_brk s)) a t' rest.
Proof. intros [Hs Hcur Hrest Hre Hfi Heof] Hst Hr Hf. split; try done. by apply (sess_next s a t). Qed.

Lemma op_next_prev_run (s : dbs D) a t rest dir fcd k key : at_rest false s a t rest → call_ok fcd a →
  getshort (key_id fcd) = Z.of_nat k → keys !! k = Some key → is_dir dir →
  ∃ s' t', op_next_prev fcd dir s = (s', inr (match rest with [] => set_status ST_EOF fcd | r :: _ => set_status ST_OK (set_rec r fcd) end)) ∧
    at_rest false s' a t' (tail rest) ∧ t_cursor t' = t_cursor t ∧ same_read s s'.
Proof.
  intros Har Hcall Hid Hk Hdir. pose proof (ar_sess _ _ _ _ _ Har) as (Ha & _). unfold op_next_prev.
  rewrite (proj2 (Z.eqb_neq _ _) (co_open _ _ Hcall)), (co_file _ _ Hcall). cbv zeta.
  rewrite (bind_ok _ _ _ _ _ (tab_at_run _ _ _ Ha)), (ar_first _ _ _ _ _ Har).
  rewrite (bind_ok _ _ _ _ _ (getd_run _ _)), (ar_eof _ _ _ _ _ Har), (ar_restart _ _ _ _ _ Har).
  assert ((0 =? dir) = false) as -> by (by destruct Hdir as [-> | ->]).
  rewrite (bind_ok _ _ _ _ _ (on_tab_run _ _ _ _ Ha)).
  assert (at_rest false (mk_dbs (conn s) (gdb s) (<[a:=set_t_restart 0 t]> (tabs s)) (tabs_brk s)) a (set_t_restart 0 t) rest) as Har'.
  { apply (at_rest_tab false false s a t); [done| |done|apply Har]. intros d Hd. split; apply Hd. }
  destruct (fetch_run _ _ _ _ dir fcd k key Har' Hcall Hid Hk) as (s' & t' & E & Har2 & Hc & Hr).
  exists s', t'. split; [done|]. split; [done|]. split; [exact Hc|exact Hr].
Qed.

(** The reads of a program, up to one that does not succeed. *)
Fixpoint read_all (fuel : nat) (dir : Z) (fcd : fcd_t) : M (dbs D) (list bytes * bytes) :=
  match fuel with
  | O => stop NoFuel
  | S fuel' =>
      f ← op_next_prev fcd dir;
      if is_ok f then r ← read_all fuel' dir f; mret (record f :: fst r, snd r)
      else mret ([], status f)
  end.

Lemma read_all_rest dir a k key rest : is_dir dir → keys !! k = Some key → ∀ (s : dbs D) t fcd, at_rest false s a t rest →
  call_ok fcd a → getshort (key_id fcd) = Z.of_nat k →
  ∃ s' t', read_all (S (length rest)) dir fcd s = (s', inr (rest, ST_EOF)) ∧ at_rest false s' a t' [] ∧
    t_cursor t' = t_cursor t ∧ same_read s s'.
Proof.
  intros Hdir Hk. induction rest as [|r rest IH]; intros s t fcd Har Hcall Hid;
    destruct (op_next_prev_run s a t _ dir fcd k key Har Hcall Hid Hk Hdir) as (s1 & t1 & E1 & Har1 & Hc1 & Hr1);
    cbn [length read_all]; rewrite (bind_ok _ _ _ _ _ E1).
  - by exists s1, t1.
  - change (is_ok (set_status ST_OK (set_rec r fcd))) with true. cbv iota.
    pose proof (ar_wf _ _ _ _ _ Har) as Hwr. apply Forall_cons in Hwr as [Hwr _].
    destruct (IH s1 t1 (set_status ST_OK (set_rec r fcd)) Har1) as (s2 & t2 & E2 & Har2 & Hc2 & Hr2).
    + destruct Hcall. split; try done. apply (wr_len _ Hwr).
    + done.
    + rewrite (bind_ok _ _ _ _ _ E2). exists s2, t2. cbn [fst snd]. split; [done|]. split; [done|].
      split; [by rewrite Hc2, Hc1|by etrans].
Qed.

(** The end of a start: the first record is in the area, or there is none. *)
Lemma start_first_run b (s : dbs D) a t rest op fcd k key : at_rest b s a t rest → call_ok fcd a →
  getshort (key_id fcd) = Z.of_nat k → keys !! k = Some key →
  ∃ s' t', start_first a fcd op s = (s', inr (match rest with
      [] => set_status ST_REC_NOT_FOUND (set_status ST_EOF fcd) | r :: _ => set_status ST_OK (set_rec r fcd) end)) ∧
    at_rest (bool_decide (rest ≠ [])) s' a t' (tail rest) ∧ t_cursor t' = t_cursor t ∧ same_read s s'.
Proof.
  intros Har Hcall Hid Hk. pose proof (ar_sess _ _ _ _ _ Har) as (Ha & _). unfold start_first. cbv zeta.
  erewrite bind_ok by (apply on_tab_run; exact Ha). erewrite bind_ok by (apply on_tab_run, lookup_insert_eq).
  set (up := negb _). set (t0 := (if up then _ else _) _). cbn [conn gdb tabs tabs_brk]. rewrite insert_insert_eq.
  assert (at_rest false (mk_dbs (conn s) (gdb s) (<[a:=t0]> (tabs s)) (tabs_brk s)) a t0 rest) as Har0.
  { apply (at_rest_tab b false s a t); [done| |destruct up; apply Har|by destruct up].
    intros d Hd. destruct up; split; apply Hd. }
  assert (is_dir (if up then ch "n" else ch "p")) as Hdir by (destruct up; [by left|by right]).
  assert (t_cursor t0 = t_cursor t) as Ht0 by by destruct up.
  destruct (op_next_prev_run _ a t0 rest _ fcd k key Har0 Hcall Hid Hk Hdir) as (s1 & t1 & E1 & Har1 & Hc1 & Hr1).
  rewrite (bind_ok _ _ _ _ _ E1). pose proof (ar_sess _ _ _ _ _ Har1) as (Ha1 & _).
  erewrite bind_ok by (apply on_tab_run; exact Ha1).
  destruct rest as [|r rest].
  - change (memeq (status (set_status ST_EOF fcd)) ST_EOF 2) with true. cbv iota.
    erewrite bind_ok by (apply on_tab_run, lookup_insert_eq). cbn [conn gdb tabs tabs_brk]. rewrite insert_insert_eq.
    eexists _, _. split; [done|]. cbn [conn tabs tail]. split; [|split; [|exact Hr1]].
    + eapply (at_rest_tab false); [exact Har1| |apply Har1|done]. intros d Hd. split; apply Hd.
    + cbn [t_cursor set_t_first]. by rewrite Hc1.
  - change (memeq (status (set_status ST_OK (set_rec r fcd))) ST_EOF 2) with false. cbv iota.
    eexists _, _. split; [done|]. cbn [conn tabs tail]. split; [|split; [|exact Hr1]].
    + eapply (at_rest_tab false); [exact Har1| |apply Har1|done]. intros d Hd. split; apply Hd.
    + cbn [t_cursor set_t_first]. by rewrite Hc1.
Qed.

(** The first read only says that the record is there. *)
Lemma read_first_run (s : dbs D) a t rest dir fcd : at_rest true s a t rest → call_ok fcd a →
  ∃ s' t', op_next_prev fcd dir s = (s', inr (set_status ST_OK fcd)) ∧ at_rest false s' a t' rest ∧
    t_cursor t' = t_cursor t ∧ same_read s s'.
Proof.
  intros Har Hcall. pose proof (ar_sess _ _ _ _ _ Har) as (Ha & _). unfold op_next_prev.
  rewrite (proj2 (Z.eqb_neq _ _) (co_open _ _ Hcall)), (co_file _ _ Hcall). cbv zeta.
  rewrite (bind_ok _ _ _ _ _ (tab_at_run _ _ _ Ha)), (ar_first _ _ _ _ _ Har).
  rewrite (bind_ok _ _ _ _ _ (on_tab_run _ _ _ _ Ha)). eexists _, (set_t_first false t). split; [done|]. split; [|done].
  eapply (at_rest_tab true); [exact Har| |apply Har|done]. intros d Hd. split; apply Hd.
Qed.

(** A start on a table whose last read did not have this key. *)
Record fresh_start (t : table_t) (op : bytes) (k : nat) (cs : list column_t) (area : bytes) : Prop := {
  fs_restart : t_restart t = 0;
  fs_same : same_start t op (Z.of_nat k) (determined (mjoin (fields cs area))) = false;
}.

Lemma scan_wf op cs area recs out : Forall wf_rec recs → scan_of op cs area recs out → Forall wf_rec out.
Proof.
  intros Hrecs [Hperm _]. rewrite Hperm. rewrite Forall_forall in *. intros r [_ Hr]%list_elem_of_filter. by apply Hrecs.
Qed.

Lemma op_start_run (s : dbs D) a t k key fcd op recs : can_start s a t → rows_ok (conn s) recs →
  call_ok fcd a → getshort (key_id fcd) = Z.of_nat k → keys !! k = Some key → op ∈ start_ops →
  start_fits (schema:=schema) (cols:=cols) key → start_area (cols_at (k_columns key)) (record fcd) →
  fresh_start t op k (cols_at (k_columns key)) (record fcd) →
  ∃ s' t' out, op_start log_ok fcd op s = (s', inr (match out with
      [] => set_status ST_REC_NOT_FOUND (set_status ST_EOF fcd) | r :: _ => set_status ST_OK (set_rec r fcd) end)) ∧
    at_rest (bool_decide (out ≠ [])) s' a t' (tail out) ∧ scan_of op (cols_at (k_columns key)) (record fcd) recs out ∧
    t_cursor t' = true ∧ pg_rows (conn s') = pg_rows (conn s) ∧ gdb s' = set_d_eof_start false (gdb s).
Proof.
  intros Hcan Hrows Hcall Hid Hk Hop Hfit Harea [Hre Hsame]. pose proof (cs_sess _ _ _ Hcan) as (Ha & Ht & Hw & He).
  destruct (keys_bound ts Hwf _ _ Hk) as [_ Hin]. unfold op_start.
  rewrite (proj2 (Z.eqb_neq _ _) (co_open _ _ Hcall)), (co_file _ _ Hcall), Hid, Nat2Z.id. cbv zeta.
  rewrite (bind_ok _ _ _ _ _ (tab_at_run _ _ _ Ha)), (bind_ok _ _ _ _ _ (setd_run _ _)).
  rewrite (to_keys _ _ _ Ht). unfold getkbuf. rewrite Hk. cbn [mbind option_bind].
  rewrite (key_bytes_run ts Hwf _ key _ (to_cols _ _ _ Ht) Hin (co_rec _ _ Hcall)). cbn [of_option].
  rewrite ret_bind, Hsame, (to_name _ _ _ Ht).
  set (s0 := mk_dbs _ _ _ _).
  erewrite bind_ok by (apply is_weak_run; exact (cs_weak _ _ _ Hcan)). cbv iota.
  rewrite ret_bind. cbv beta iota zeta. cbn [negb]. cbv iota.
  assert (can_start s0 a t) as Hcan0 by (destruct Hcan; by split).
  destruct (declare_cursor_run s0 a t k key fcd op recs Hcan0 Hrows Hcall Hid Hk Hop Hfit Harea)
    as (s1 & out & E1 & Hs1 & Hc1 & Hscan & Hr1 & Hg1).
  rewrite (bind_ok _ _ _ _ _ E1).
  assert (at_rest (t_first t) s1 a (set_t_cursor true (set_t_cursor false t)) out) as Har.
  { split; try done; [eapply scan_wf; [apply Hrows|done]|]. by rewrite Hg1. }
  destruct (start_first_run _ s1 a _ out op fcd k key Har Hcall Hid Hk) as (s2 & t2 & E2 & Har2 & Hc2 & Hr2 & Hg2).
  exists s2, t2, out. split; [exact E2|]. split; [done|]. split; [done|]. split; [by rewrite Hc2|].
  split; [by rewrite Hr2, Hr1|by rewrite Hg2, Hg1].
Qed.

(** The records equal to a key. *)
Lemma starts_equal cs area r : Forall (λ c, c ∈ cols) cs → wf_cols (cols:=cols) cs r → key_ok cs area →
  starts (bs "=") cs area r ↔ fields cs r = fields cs area.
Proof.
  intros Hcs Hr Hk. unfold starts.
  assert (holds (bs "=") (start_cmp cs r area) = true ↔ start_cmp cs r area = Eq) as ->.
  { destruct (start_cmp cs r area); split; try done; by vm_compute. }
  unfold start_cmp, fields. induction cs as [|c cs IH]; [done|]. apply Forall_cons in Hr as [[Hc Hf] Hr].
  apply Forall_cons in Hcs as [_ Hcs]. destruct (Hk c ltac:(by left)) as [Hf' Hd].
  specialize (IH Hcs Hr ltac:(intros x Hx; apply Hk; by right)). rewrite !fmap_cons. cbn [lexc].
  pose proof (pg_cmp_eq c _ _ _ _ Hc Hf Hf' (canon_some c _ Hc Hf) (canon_some c _ Hc Hf')) as E.
  assert (pg_cmp c (kept_value c r) (start_value c area) = Eq ↔ field_at r c = field_at area c) as Heq.
  { unfold start_value. rewrite (start_text_key ts Hwf c area Hc Hf' Hd), E. split; [by apply canon_inj|by intros ->]. }
  destruct (pg_cmp c (kept_value c r) (start_value c area)).
  - rewrite IH, (proj1 Heq eq_refl). split; [by intros ->|congruence].
  - split; [done|]. intros [= H%Heq _]. done.
  - split; [done|]. intros [= H%Heq _]. done.
Qed.

(** The records of an equal start: those with the fields of the key. *)
Lemma scan_equal k key area recs out : keys !! k = Some key → Forall wf_rec recs →
  scan_of (bs "=") (cols_at (k_columns key)) area recs out → key_ok (cols_at (k_columns key)) area →
  ∀ r, r ∈ out ↔ r ∈ recs ∧ fields (cols_at (k_columns key)) r = fields (cols_at (k_columns key)) area.
Proof.
  intros Hk Hrecs [Hperm _] Hkey r. destruct (keys_bound ts Hwf _ _ Hk) as [_ Hin].
  destruct (key_cols_run ts Hwf key Hin) as (c & cs & _ & Hcs & _ & Hc). rewrite Hcs in *.
  rewrite Hperm, list_elem_of_filter. rewrite Forall_forall in Hrecs.
  assert (∀ x, x ∈ recs → starts (bs "=") (c :: cs) area x ↔ fields (c :: cs) x = fields (c :: cs) area) as Heq.
  { intros x Hx. apply (starts_equal _ _ _ Hc); [by apply (wf_rec_cols (keys:=keys)); auto|done]. }
  split; intros [H1 H2]; split; (done || by apply Heq).
Qed.

(** A start on a table and the reads after it deliver exactly the records of the file
    whose key satisfies the start (greater, not less, less, not greater or equal to the key
    in the record area, column by column), each once and in the order of the key,
    descending for a start below, and then the end of the file; with no such record the
    start answers 23.  The records of an equal start with a well-formed
    key are those with the fields of the key.
    The reads deliver the same records in either direction. *)
Theorem table_scan (s : dbs D) a t k key fcd op recs dir : can_start s a t → rows_ok (conn s) recs →
  call_ok fcd a → getshort (key_id fcd) = Z.of_nat k → keys !! k = Some key → op ∈ start_ops →
  start_fits (schema:=schema) (cols:=cols) key → start_area (cols_at (k_columns key)) (record fcd) →
  fresh_start t op k (cols_at (k_columns key)) (record fcd) → is_dir dir →
  ∃ s1 f out, op_start log_ok fcd op s = (s1, inr f) ∧
    scan_of op (cols_at (k_columns key)) (record fcd) recs out ∧
    (op = bs "=" → key_ok (cols_at (k_columns key)) (record fcd) → ∀ r, r ∈ out ↔ r ∈ recs ∧ fields (cols_at (k_columns key)) r = fields (cols_at (k_columns key)) (record fcd)) ∧
    match out with
    | [] => status f = ST_REC_NOT_FOUND
    | _ => status f = ST_OK ∧
        ∃ s2, read_all (S (length out)) dir f s1 = (s2, inr (out, ST_EOF)) ∧ rows_ok (conn s2) recs
    end.
Proof.
  intros Hcan Hrows Hcall Hid Hk Hop Hfit Harea Hfresh Hdir.
  destruct (op_start_run s a t k key fcd op recs Hcan Hrows Hcall Hid Hk Hop Hfit Harea Hfresh)
    as (s1 & t1 & out & E1 & Har & Hscan & _ & Hr1 & _).
  eexists s1, _, out. split; [exact E1|]. split; [done|]. split.
  { intros ->. exact (scan_equal k key (record fcd) recs out Hk (proj1 (proj2 Hrows)) Hscan). }
  pose proof (scan_wf _ _ _ _ _ (proj1 (proj2 Hrows)) Hscan) as Hwfs.
  destruct out as [|r rest]; [done|]. split; [done|].
  apply Forall_cons in Hwfs as [Hwr _]. cbn [tail] in Har. rewrite bool_decide_true in Har by done.
  assert (call_ok (set_status ST_OK (set_rec r fcd)) a) as Hcall' by (destruct Hcall; split; try done; apply (wr_len _ Hwr)).
  destruct (read_first_run s1 a t1 rest dir _ Har Hcall') as (s2 & t2 & E2 & Har2 & _ & Hr2 & _).
  destruct (read_all_rest dir a k key rest Hdir Hk s2 t2 (set_status ST_OK (set_rec r fcd)) Har2 Hcall' Hid)
    as (s3 & t3 & E3 & _ & _ & Hr3 & _).
  exists s3. change (length (r :: rest)) with (S (length rest)). remember (S (length rest)) as n. cbn [read_all].
  rewrite (bind_ok _ _ _ _ _ E2). change (is_ok _) with true. cbv iota.
  split.
  - erewrite bind_ok by exact E3. done.
  - destruct Hrows as (H1 & H2 & H3). split; [|done]. by rewrite Hr3, Hr2, Hr1.
Qed.

End scan.
