(* ===== verification/DbServer.v ===== *)
(** A server in memory that keeps the contract of Sql, and sessions with it. *)

From stdpp Require Import prelude gmap strings sorting.
From S2P Require Import Prelude Fhtypes Fcd Table Kdb Libpq DbRead DbWrite Sql DbRows DbSession DbSpec Cursor SqlText.
Local Open Scope Z_scope.

(** The text of a well-formed field spells itself. *)
Lemma same_value_refl c f : wf_field c f → (col_dec c ≤ col_len c)%nat →
  same_value c (text_of_field c f) (text_of_field c f).
Proof.
  intros Hwf Hd. split; [by apply field_text_no_nul|]. destruct (is_num c) eqn:Hn.
  - destruct Hwf as [Hl Hwf]. rewrite Hn in Hwf. destruct Hwf as (Hdec & ds & b & Hds & Hb & Hf).
    assert (∀ x, x ∈ ds ++ [b] → isdigit x = true) as Hg.
    { intros x. rewrite elem_of_app, list_elem_of_singleton. intros [?| ->]; auto. }
    assert (∀ g x, (∀ y, y ∈ g → isdigit y = true) → x ∈ int_part c g → isdigit x = true) as Hip.
    { intros g x Hgg Hx. apply Hgg. rewrite <-(take_drop (col_len c - col_dec c) g). apply elem_of_app. by left. }
    assert (length (ds ++ [b]) = col_len c) as Hlg.
    { destruct Hf as [->|[-> _]]; rewrite length_app in *; simpl in *; lia. }
    destruct (pointed_parts c _ Hlg) as [[Hp Hdp]|]; [|lia]. pose proof (int_part_length c _ Hlg) as Hil.
    destruct Hf as [->|(-> & Hhd & _)].
    + rewrite text_of_positive by done. exists [], 0%nat, 0%nat, (int_part c (ds ++ [b])), (dec_part c (ds ++ [b])).
      simpl. split; [by left|]. split; [intros x; by apply Hip|]. do 2 (split; [done|]). split; [done|]. lia.
    + destruct ds as [|d ds]; [done|]. injection Hhd as ->. rewrite <-app_comm_cons in *.
      rewrite text_of_negative by done. rewrite Hp.
      exists (bs "-"), 0%nat, 0%nat, (drop 1 (int_part c (48 :: ds ++ [b]))), (dec_part c (48 :: ds ++ [b])).
      assert (drop 1 (int_part c (48 :: ds ++ [b]) ++ dec_part c (48 :: ds ++ [b])) =
        drop 1 (int_part c (48 :: ds ++ [b])) ++ dec_part c (48 :: ds ++ [b])) as ->.
      { rewrite drop_app_le; [done|]. lia. }
      split; [by right|]. split.
      { intros x Hx. apply (Hip _ x Hg). rewrite <-(take_drop 1 (int_part _ _)). apply elem_of_app. by right. }
      do 2 (split; [done|]). split; [done|]. rewrite length_drop. lia.
  - destruct Hwf as [Hl _]. assert (text_of_field c f = f) as -> by (unfold text_of_field; by rewrite Hn).
    exists f, 0%nat, 0%nat. simpl. rewrite app_nil_r. split_and!; [done|done|lia].
Qed.

Section server.
Context (schema name : bytes) (cols : list column_t) (keys : list key_t).

Record server := mk_server {
  sv_prepared : list (bytes * stmt);
  sv_rows : list (list bytes);
  sv_cursors : list (bytes * list (list bytes));
}.

Definition sv_stmt (d : server) (n : bytes) : option stmt := snd <$> head (filter (λ p, p.1 = n) (sv_prepared d)).

Definition sv_prepare (n sql : bytes) (d : server) : server * pgresult :=
  match filter (λ q, stmt_text schema name cols q = sql) (file_stmts cols keys) with
  | q :: _ => (mk_server ((n, q) :: sv_prepared d) (sv_rows d) (sv_cursors d), mk_res PGRES_COMMAND_OK [])
  | [] => (d, mk_res PGRES_ERROR [])
  end.

Definition sv_with (d : server) (rows : list (list bytes)) : server * pgresult :=
  (mk_server (sv_prepared d) rows (sv_cursors d), mk_res PGRES_COMMAND_OK []).

Definition sv_exec (n : bytes) (ts : list bytes) (d : server) : server * pgresult :=
  match sv_stmt d n with
  | None => (d, mk_res PGRES_ERROR [])
  | Some (SSelect conds) => (d, mk_res PGRES_TUPLES_OK (filter (matches conds ts) (sv_rows d)))
  | Some SInsert => sv_with d (ts :: sv_rows d)
  | Some (SUpdate sets conds) =>
      let vs := take (length sets) ts in
      let ws := drop (length sets) ts in
      sv_with d ((λ r, if decide (matches conds ws r) then set_row sets vs r else r) <$> sv_rows d)
  | Some (SDelete conds) => sv_with d (filter (λ r, ¬ matches conds ts r) (sv_rows d))
  end.

(** The cursors: values compare by their bytes. *)
Definition sv_cursor (d : server) (n : bytes) : option (list (list bytes)) :=
  snd <$> head (filter (λ p, p.1 = n) (sv_cursors d)).

Definition sv_cmp (c : column_t) (v v' : bytes) : comparison := lex_cmp v v'.
Definition sv_value (c : column_t) (t : bytes) : option bytes := Some t.

#[local] Instance row_before_dec desc ixs : RelDecision (row_before sv_cmp cols desc ixs).
Proof. intros r r'. unfold row_before. apply _. Defined.

Definition sv_declare (n : bytes) (w : where_t) (ixs : list nat) (desc : bool) (d : server) : list (list bytes) :=
  merge_sort (row_before sv_cmp cols desc ixs) (filter (λ r, sql_true sv_cmp sv_value cols r w = true) (sv_rows d)).

Definition read_declare (s : bytes) : option (bytes * where_t * list nat * bool) :=
  s1 ← after (bs "declare ") s;
  let nw := word s1 in
  s2 ← after (bs "cursor with hold for" ++ [10] ++ bs "  select * from " ++ schema ++ bs "." ++ name ++ [10] ++
        bs "    where ") (snd nw);
  wr ← read_where cols (length s2) s2;
  s3 ← after (bs " order by ") (snd wr);
  o ← read_order cols (S (length s3)) s3;
  Some (fst nw, fst wr, fst o, snd o).

Definition sv_set_cursors (l : list (bytes * list (list bytes))) (d : server) : server :=
  mk_server (sv_prepared d) (sv_rows d) l.

(** A statement on a cursor; others do nothing. *)
Definition sv_sql (sql : bytes) (d : server) : server * pgresult :=
  match after (bs "fetch next in ") sql, after (bs "close ") sql, read_declare sql with
  | Some n, _, _ =>
      match sv_cursor d n with
      | Some rows => (sv_set_cursors ((n, drop 1 rows) :: sv_cursors d) d, mk_res PGRES_TUPLES_OK (take 1 rows))
      | None => (d, mk_res PGRES_ERROR [])
      end
  | None, Some n, _ =>
      match sv_cursor d n with
      | Some _ => (sv_set_cursors (filter (λ p, p.1 ≠ n) (sv_cursors d)) d, mk_res PGRES_COMMAND_OK [])
      | None => (d, mk_res PGRES_ERROR [])
      end
  | None, None, Some (n, w, ixs, desc) =>
      match sv_cursor d n with
      | Some _ => (d, mk_res PGRES_ERROR [])
      | None => (sv_set_cursors ((n, sv_declare n w ixs desc d) :: sv_cursors d) d, mk_res PGRES_COMMAND_OK [])
      end
  | None, None, None => (d, mk_res PGRES_COMMAND_OK [])
  end.

#[local] Instance server_libpq : Libpq server := {|
  PQexec := sv_sql;
  PQprepare n sql k d := sv_prepare n sql d;
  PQexecPrepared := sv_exec;
|}.

Lemma sv_stmt_cons d n q m : sv_stmt (mk_server ((n, q) :: sv_prepared d) (sv_rows d) (sv_cursors d)) m =
  if decide (n = m) then Some q else sv_stmt d m.
Proof. unfold sv_stmt. cbn [sv_prepared]. rewrite filter_cons. cbn [fst]. by destruct (decide (n = m)). Qed.

Lemma canon_id (cs : list column_t) (ts vs : list bytes) :
  Forall2 (λ (ct : column_t * bytes) v, Some ct.2 = Some v) (zip cs ts) vs → length ts = length cs → vs = ts.
Proof.
  revert cs vs. induction ts as [|t ts IH]; intros [|c cs] vs H Hl; try done; inversion H; subst; [done|].
  simpl in *. f_equal; [congruence|]. eapply IH; [done|]. lia.
Qed.

Lemma server_prepare d n q : sv_stmt d n = None → q ∈ file_stmts cols keys →
  (∀ q q', q ∈ file_stmts cols keys → q' ∈ file_stmts cols keys →
    stmt_text schema name cols q = stmt_text schema name cols q' → q = q') →
  ∃ d', sv_prepare n (stmt_text schema name cols q) d = (d', mk_res PGRES_COMMAND_OK []) ∧
    sv_stmt d' n = Some q ∧
    (∀ m, m ≠ n → sv_stmt d' m = sv_stmt d m ∧ (sv_stmt d m = None → sv_stmt d' m = None)) ∧
    sv_rows d' = sv_rows d ∧ (∀ m, sv_cursor d' m = sv_cursor d m).
Proof.
  intros Hf Hq Hinj. unfold sv_prepare. destruct (filter _ _) as [|q' l] eqn:E.
  - exfalso. apply (filter_nil_not_elem_of _ _ _ E eq_refl Hq).
  - assert (q' ∈ filter (λ q0, stmt_text schema name cols q0 = stmt_text schema name cols q) (file_stmts cols keys)) as H
      by (rewrite E; by left).
    apply list_elem_of_filter in H as [Ht Hin]. assert (q' = q) as -> by by apply Hinj.
    eexists. split; [done|]. rewrite sv_stmt_cons, decide_True by done. split; [done|]. split; [|done].
    intros m Hm. rewrite sv_stmt_cons, decide_False by done. done.
Qed.

(** The contract, for columns of sensible sizes and statements with different texts. *)
#[local] Instance server_table (Hcols : Forall (λ c, (col_dec c ≤ col_len c)%nat) cols)
  (Hinj : ∀ q q', q ∈ file_stmts cols keys → q' ∈ file_stmts cols keys →
    stmt_text schema name cols q = stmt_text schema name cols q' → q = q') : PgTable server schema name cols keys.
Proof.
  refine {|
    pg_prepared := sv_stmt;
    pg_free d n := sv_stmt d n = None;
    pg_rows := sv_rows;
    pg_cursor := sv_cursor;
    canon := sv_value;
  |}.
  - intros c f Hc Hf. eexists. split; [done|]. apply same_value_refl; [done|]. rewrite Forall_forall in Hcols. auto.
  - intros d n q Hf Hq _. by apply server_prepare.
  - intros d n conds cs ts vs Hp _ H Hl. apply canon_id in H as ->; [|done]. exists d. eexists.
    cbn [PQexecPrepared server_libpq]. unfold sv_exec. rewrite Hp. done.
  - intros d n ts row Hp H Hl _. apply canon_id in H as ->; [|done]. eexists.
    cbn [PQexecPrepared server_libpq]. unfold sv_exec. rewrite Hp. split; [done|]. done.
  - intros d n sets conds cs ks ts us vs ws Hp _ Hm _ H Hl H' Hl'. apply canon_id in H as ->; [|done].
    apply canon_id in H' as ->; [|done]. eexists. cbn [PQexecPrepared server_libpq]. unfold sv_exec. rewrite Hp.
    pose proof (length_mapM _ _ _ Hm) as Hs. rewrite take_app_length', drop_app_length' by lia. split; [done|]. done.
  - intros d n conds cs ts vs Hp _ H Hl. apply canon_id in H as ->; [|done]. eexists.
    cbn [PQexecPrepared server_libpq]. unfold sv_exec. rewrite Hp. split; [done|]. done.
Defined.

End server.

(** ** A session *)

Definition ex_schema : bytes := bs "public".
Definition ex_name : bytes := bs "cliente".
Definition ex_ts : bytes := bs "1_2".
Definition ex_tcols : list column_t :=
  [mk_col (bs "codigo") (ch "n") 3 0 0 true 0; mk_col (bs "nome") (ch "s") 4 0 3 false 0].
Definition ex_tkeys : list key_t := [mk_key 0 3 1 [0%nat]; mk_key 1 4 1 [1%nat]].

#[local] Instance ex_libpq : Libpq server := server_libpq ex_schema ex_name ex_tcols ex_tkeys.
#[local] Instance ex_calls : DbCalls server := {| replica := λ _ _ _, mret tt; command_call := λ f, mret f |}.

Lemma ex_texts q q' : q ∈ file_stmts ex_tcols ex_tkeys → q' ∈ file_stmts ex_tcols ex_tkeys →
  stmt_text ex_schema ex_name ex_tcols q = stmt_text ex_schema ex_name ex_tcols q' → q = q'.
Proof.
  assert (forallb (λ q, forallb (λ q', bool_decide (q = q') ||
    negb (bool_decide (stmt_text ex_schema ex_name ex_tcols q = stmt_text ex_schema ex_name ex_tcols q')))
    (file_stmts ex_tcols ex_tkeys)) (file_stmts ex_tcols ex_tkeys) = true) as H by by vm_compute.
  rewrite forallb_forall in H. intros Hq Hq' E. specialize (H q (proj1 (list_elem_of_In _ _) Hq)).
  rewrite forallb_forall in H. specialize (H q' (proj1 (list_elem_of_In _ _) Hq')).
  rewrite (bool_decide_true _ E), orb_false_r in H. by apply bool_decide_eq_true in H.
Qed.

Lemma ex_tcols_sizes : Forall (λ c, (col_dec c ≤ col_len c)%nat) ex_tcols.
Proof. repeat constructor; simpl; lia. Qed.

#[local] Instance ex_table : PgTable server ex_schema ex_name ex_tcols ex_tkeys :=
  server_table ex_schema ex_name ex_tcols ex_tkeys ex_tcols_sizes ex_texts.

Lemma ex_file_wf : file_wf (schema:=ex_schema) (name:=ex_name) (cols:=ex_tcols) (keys:=ex_tkeys) ex_ts.
Proof.
  split.
  - done.
  - repeat constructor; simpl; unfold MAX_NAME_LEN; lia.
  - done.
  - unfold MAX_KEYS. simpl. lia.
  - intros key. unfold ex_tkeys. rewrite !elem_of_cons, elem_of_nil. intros [->|[->|[]]]; (split; [done|]); split;
      first [intros i; simpl; rewrite elem_of_cons, elem_of_nil; intros [->|[]]; lia|
             unfold MAX_KEY_LEN; vm_compute; lia].
  - intros [|[|i]] c; simpl; [intros [= <-]|intros [= <-]|done]; unfold pk_ixs; simpl;
      rewrite elem_of_cons, elem_of_nil; naive_solver.
  - done.
  - intros q Hq. assert (forallb (λ q, Z.of_nat (length (stmt_text ex_schema ex_name ex_tcols q)) <=? MAX_REC_LEN)
      (file_stmts ex_tcols ex_tkeys) = true) as H by by vm_compute.
    rewrite forallb_forall in H. by apply Z.leb_le, H, list_elem_of_In.
  - simpl. lia.
Qed.

(** A record from a code of three digits and a name of four characters. *)
Lemma ex_record a b c n : isdigit a = true → isdigit b = true → isdigit c = true → length n = 4%nat → 0 ∉ n →
  wf_rec (cols:=ex_tcols) (keys:=ex_tkeys) ([a; b; c] ++ n).
Proof.
  intros Ha Hb Hc Hn Hnul. do 5 (destruct n as [|? n]; try done).
  assert (∀ x, x ∈ ex_tcols → wf_field x (field_at ([a; b; c] ++ [z; z0; z1; z2]) x) ∧
    (is_num x = true → ∀ y, y ∈ field_at ([a; b; c] ++ [z; z0; z1; z2]) x → isdigit y = true)) as H.
  { unfold ex_tcols. intros x. rewrite !elem_of_cons, elem_of_nil. intros [->|[->|[]]].
    - split; [split; [done|]; split; [simpl; lia|]|].
      + exists [a; b], c. split; [|split; [done|by left]]. intros y. rewrite !elem_of_cons, elem_of_nil. naive_solver.
      + intros _ y. unfold field_at. simpl. rewrite !elem_of_cons, elem_of_nil. naive_solver.
    - by split. }
  split; [done|apply H|]. intros key _ x Hx. apply H. unfold cols_at in Hx.
  assert (∀ ixs, Forall (λ y, y ∈ ex_tcols) (default [] (mapM (λ i, ex_tcols !! i) ixs))) as Hall.
  { intros ixs. destruct (mapM _ ixs) as [l|] eqn:E; [|constructor]. apply mapM_Some in E. simpl.
    apply Forall_forall. intros y (i & Hi)%list_elem_of_lookup. destruct (Forall2_lookup_r _ _ _ _ _ E Hi) as (j & _ & Hj).
    by eapply list_elem_of_lookup_2. }
  specialize (Hall (k_columns key)). rewrite Forall_forall in Hall. by apply Hall.
Qed.

Definition ex_open_table : table_t :=
  mk_table ex_name true ex_schema ex_name ex_tcols ex_tkeys (replicate MAX_KEYS false) false false false 0
    (-1) [] [] (-1) [] [] (replicate MAX_KEYS []) [] [] [] false ex_ts 0 false 0.

Definition ex_state : dbs server :=
  mk_dbs (mk_server [] [] []) (mk_gdb (ch "B") false [] [] false false false 0 0 false [] false false 0 true [])
    {[ 64 := ex_open_table ]} 65.

Definition ex_call_fcd : fcd_t :=
  mk_fcd (bs "00") 2 4 2 (putshort 7) 0 (replicate 8 0) (putshort 7) (putshort 0) [] ex_name [] (putint 64) 0 0
    (replicate 4 0) (ch "P") 0.

Lemma ex_state_ok : file_ok (P:=ex_table) ex_ts ex_state 64 [].
Proof.
  split.
  - exists ex_open_table. split; [done|]. split; [|done]. split; try done.
    + intros [|[|k]] key b Hk; simpl; try done; intros [= <-]; by split.
    + intros k _ E. by apply lookup_replicate in E as [? _].
  - split; [done|]. split; [constructor|constructor].
Qed.

Definition ex_requests : list request :=
  [RWrite (bs "007Ana "); RWrite (bs "007Eva "); RRead 1 (bs "000Ana "); RRewrite (bs "007Eva ");
   RDelete 1 (bs "000Eva "); RRead 0 (bs "007    ")].

Lemma ex_read a b c n k : isdigit a = true → isdigit b = true → isdigit c = true → length n = 4%nat → bool_decide (0 ∉ n) = true → (k < 2)%nat →
  request_ok (cols:=ex_tcols) (keys:=ex_tkeys) (RRead k ([a; b; c] ++ n)).
Proof.
  intros Ha Hb Hc Hn Hnul%bool_decide_eq_true Hk. pose proof (ex_record a b c n Ha Hb Hc Hn Hnul) as Hr.
  split; [done|]. split; [apply (wr_len _ Hr)|].
  destruct k as [|[|k]]; [| |lia]; (eapply (wr_keys _ Hr); unfold ex_tkeys; set_solver).
Qed.

Lemma ex_write a b c n : isdigit a = true → isdigit b = true → isdigit c = true → length n = 4%nat → bool_decide (0 ∉ n) = true →
  request_ok (cols:=ex_tcols) (keys:=ex_tkeys) (RWrite ([a; b; c] ++ n)).
Proof. intros Ha Hb Hc Hn Hnul%bool_decide_eq_true. by apply ex_record. Qed.

Lemma ex_requests_ok : Forall (request_ok (cols:=ex_tcols) (keys:=ex_tkeys)) ex_requests.
Proof.
  unfold ex_requests. repeat (apply Forall_cons; split); [..|constructor].
  - by apply (ex_write 48 48 55 (bs "Ana ")).
  - by apply (ex_write 48 48 55 (bs "Eva ")).
  - apply (ex_read 48 48 48 (bs "Ana ")); first [done|lia].
  - by apply (ex_write 48 48 55 (bs "Eva ")).
  - apply (ex_read 48 48 48 (bs "Eva ")); first [done|lia].
  - apply (ex_read 48 48 55 (bs "    ")); first [done|lia].
Qed.

Lemma ex_pk_whole c : c ∈ pk_cols (cols:=ex_tcols) (keys:=ex_tkeys) → is_num c = true → col_dec c = 0%nat.
Proof.
  intros Hc _. assert (Forall (λ c, col_dec c = 0%nat) (pk_cols (cols:=ex_tcols) (keys:=ex_tkeys))) as H
    by repeat constructor.
  rewrite Forall_forall in H. by apply H.
Qed.

Lemma db_file_refinement_witness :
  ∃ s' outs recs', perform_all true ex_call_fcd ex_requests ex_state = (s', inr outs) ∧
    file_run (cols:=ex_tcols) (keys:=ex_tkeys) [] ex_requests outs recs' ∧ file_ok (P:=ex_table) ex_ts s' 64 recs'.
Proof.
  apply (db_file_refinement true ex_ts ex_file_wf).
  - apply ex_state_ok.
  - apply ex_requests_ok.
  - intros area Ha. by split.
  - apply ex_pk_whole.
Defined.

(** The same session, evaluated. *)
Example ex_session : snd (perform_all true ex_call_fcd ex_requests ex_state) =
  inr [(ST_OK, bs "007Ana "); (ST_DUPL_KEY, bs "007Ana "); (ST_OK, bs "007Ana "); (ST_OK, bs "007Eva ");
       (ST_OK, bs "007Eva "); (ST_REC_NOT_FOUND, bs "007    ")].
Proof. by vm_compute. Qed.
