(* ===== verification/ReplicatorServer.v ===== *)
(** A server in memory for the copies of a table, updates copied to it, and what the program
    does when the places of the columns were changed by another update. *)

From stdpp Require Import prelude gmap strings.
From S2P Require Import Prelude Fhtypes Fcd Table Kdb Libpq Replicator ReplicatorSpec DbRead DbWrite SqlText DbServer.
Local Open Scope Z_scope.

(** ** The statements are read back *)

(** The longest beginning of a text whose characters pass a test, and the rest. *)
Fixpoint span (p : Z → bool) (s : bytes) : bytes * bytes :=
  match s with
  | x :: s' => if p x then let r := span p s' in (x :: fst r, snd r) else ([], s)
  | [] => ([], [])
  end.

Definition halts (p : Z → bool) (s : bytes) : Prop := match s with x :: _ => p x = false | [] => True end.

Lemma span_app p s rest : Forall (λ x, p x = true) s → halts p rest → span p (s ++ rest) = (s, rest).
Proof.
  intros Hs Hr. induction Hs as [|x s Hx _ IH]; simpl.
  - destruct rest as [|y rest]; [done|]. simpl in *. by rewrite Hr.
  - by rewrite Hx, IH.
Qed.

(** Items with a separator between them. *)
Fixpoint read_items {A} (item : bytes → A * bytes) (sep : bytes) (n : nat) (s : bytes) : list A * bytes :=
  match n with
  | O => ([], s)
  | S n' =>
      let r := item s in
      match after sep (snd r) with
      | Some s' => let l := read_items item sep n' s' in (fst r :: fst l, snd l)
      | None => ([fst r], snd r)
      end
  end.

Lemma read_items_join {A} (item : bytes → A * bytes) (text : A → bytes) (ok : A → Prop) (stop : bytes → Prop) sep l rest n :
  (∀ x s, ok x → stop s → item (text x ++ s) = (x, s)) → (∀ s, stop (sep ++ s)) → stop rest → after sep rest = None →
  l ≠ [] → Forall ok l → (length l ≤ n)%nat → read_items item sep n (join sep (text <$> l) ++ rest) = (l, rest).
Proof.
  intros Hitem Hsep Hrest Hnone. revert n. induction l as [|x l IH]; [done|]. intros [|n] _ [Hx Hl]%Forall_cons Hn; [simpl in Hn; lia|].
  cbn [read_items]. destruct l as [|y l].
  - cbn [fmap list_fmap join]. rewrite Hitem by done. cbn [fst snd]. by rewrite Hnone.
  - change (join sep (text <$> x :: y :: l)) with (text x ++ sep ++ join sep (text <$> y :: l)). rewrite <-!app_assoc.
    rewrite Hitem by done. cbn [fst snd]. rewrite after_app, IH; [done|done|done|simpl in *; lia].
Qed.

Definition read_literal (s : bytes) : literal * bytes :=
  match s with
  | x :: s' =>
      if x =? 39 then let r := span (λ y, negb (y =? 39)) s' in ((false, fst r), drop 1 (snd r))
      else let r := span numeric s in ((true, fst r), snd r)
  | [] => ((true, []), [])
  end.

Definition read_assign (s : bytes) : (bytes * literal) * bytes :=
  let n := span name_char s in
  let v := read_literal (drop 1 (snd n)) in
  ((fst n, fst v), snd v).

(** The table and the change of a statement; the text bounds the number of items. *)
Definition read_change (sql : bytes) : option (bytes * change) :=
  let n := length sql in
  match after (bs "insert into ") sql, after (bs "update ") sql, after (bs "delete from ") sql with
  | Some s, _, _ =>
      let tb := span name_char s in
      let ns := read_items (span name_char) (bs ", ") n (drop 1 (snd tb)) in
      s ← after (bs ") values (") (snd ns);
      let vs := read_items read_literal (bs ", ") n s in
      if bool_decide (snd vs = bs ")") then Some (fst tb, Ins (zip (fst ns) (fst vs))) else None
  | None, Some s, _ =>
      let tb := span name_char s in
      s ← after (bs " set ") (snd tb);
      let sets := read_items read_assign (bs ", ") n s in
      s ← after (bs " where ") (snd sets);
      let keys := read_items read_assign (bs " and ") n s in
      if bool_decide (snd keys = []) then Some (fst tb, Upd (fst sets) (fst keys)) else None
  | None, None, Some s =>
      let tb := span name_char s in
      s ← after (bs " where ") (snd tb);
      let keys := read_items read_assign (bs " and ") n s in
      if bool_decide (snd keys = []) then Some (fst tb, Del (fst keys)) else None
  | None, None, None => None
  end.

Lemma read_name s rest : name_ok s → halts name_char rest → span name_char (s ++ rest) = (s, rest).
Proof. intros [_ H]. by apply span_app. Qed.

Lemma read_literal_text v rest : lit_ok v → halts numeric rest → read_literal (lit_text v ++ rest) = (v, rest).
Proof.
  destruct v as [[] b]; unfold lit_ok, lit_text; cbn [fst snd app].
  - intros [Hne Hb] Hr. rewrite app_nil_r. destruct b as [|x b]; [done|]. pose proof Hb as [Hx _]%Forall_cons.
    cbn [app read_literal]. assert ((x =? 39) = false) as -> by (apply Z.eqb_neq; by intros ->).
    change (x :: b ++ rest) with ((x :: b) ++ rest). by rewrite span_app.
  - intros [Hq _] Hr. change (bs "'" ++ b ++ bs "'") with (39 :: b ++ [39]). cbn [app read_literal].
    change (39 =? 39) with true. cbv iota. rewrite <-app_assoc, span_app; [done| |done].
    apply Forall_forall. intros x Hx. apply negb_true_iff, Z.eqb_neq. by intros ->.
Qed.

Lemma read_assign_text kv rest : pair_ok kv → halts numeric rest → read_assign (assign kv ++ rest) = (kv, rest).
Proof.
  destruct kv as [n v]. intros [Hn Hv] Hr. unfold read_assign, assign. cbn [fst snd] in *. rewrite <-!app_assoc.
  rewrite read_name by done. cbn [fst snd]. change (drop 1 (bs "=" ++ ?s)) with s. by rewrite read_literal_text.
Qed.

Lemma join_length sep (l : list bytes) : Forall (λ x, x ≠ []) l → (length l ≤ length (join sep l))%nat.
Proof.
  induction 1 as [|x l Hx _ IH]; [simpl; lia|]. destruct x as [|c x]; [done|]. destruct l as [|y l]; [simpl; lia|].
  change (join sep ((c :: x) :: y :: l)) with ((c :: x) ++ sep ++ join sep (y :: l)). rewrite !length_app. simpl in *. lia.
Qed.

Lemma lits_length sep (vs : list literal) : Forall lit_ok vs → (length vs ≤ length (join sep (lit_text <$> vs)))%nat.
Proof.
  intros H. rewrite <-(length_fmap lit_text vs). apply join_length. rewrite Forall_fmap. eapply Forall_impl; [exact H|].
  intros [[] b]; unfold compose, lit_ok, lit_text; cbn [fst snd]; [by intros [? _]; destruct b|done].
Qed.

Lemma names_length sep (ns : list bytes) : Forall name_ok ns → (length ns ≤ length (join sep ns))%nat.
Proof. intros H. apply join_length. eapply Forall_impl; [exact H|]. by intros n [? _]. Qed.

Lemma assigns_length sep (vs : list (bytes * literal)) : Forall pair_ok vs → (length vs ≤ length (join sep (assign <$> vs)))%nat.
Proof.
  intros H. rewrite <-(length_fmap assign vs). apply join_length. rewrite Forall_fmap. eapply Forall_impl; [exact H|].
  intros [n v] [[Hn _] _]. unfold compose, assign. cbn [fst]. by destruct n.
Qed.

Lemma read_assigns sep vs rest n : (∀ s, halts numeric (sep ++ s)) → halts numeric rest → after sep rest = None →
  vs ≠ [] → Forall pair_ok vs → (length (join sep (assign <$> vs)) ≤ n)%nat →
  read_items read_assign sep n (join sep (assign <$> vs) ++ rest) = (vs, rest).
Proof.
  intros Hs Hr Ha Hne Hok Hn. apply (read_items_join _ _ pair_ok (halts numeric)); try done; [apply read_assign_text|].
  pose proof (assigns_length sep vs Hok). lia.
Qed.

Lemma read_names ns rest n : halts name_char rest → after (bs ", ") rest = None → ns ≠ [] → Forall name_ok ns →
  (length (join (bs ", ") ns) ≤ n)%nat → read_items (span name_char) (bs ", ") n (join (bs ", ") ns ++ rest) = (ns, rest).
Proof.
  intros Hr Ha Hne Hok Hn. rewrite <-(list_fmap_id ns) at 1. pose proof (names_length (bs ", ") _ Hok).
  apply (read_items_join (span name_char) id name_ok (halts name_char)); try done; [|lia]. by intros; apply read_name.
Qed.

Lemma read_change_text tb g : name_ok tb → change_ok g → read_change (change_text tb g) = Some (tb, g).
Proof.
  intros Htb Hg. destruct g as [vs|sets keys|keys]; cbn [change_text change_ok] in *; unfold read_change.
  - destruct Hg as [Hne Hok]. rewrite after_app. cbv zeta. set (n := length _).
    assert (Forall name_ok (fst <$> vs) ∧ Forall lit_ok (snd <$> vs)) as [Hn Hl].
    { rewrite !Forall_fmap. split; (eapply Forall_impl; [exact Hok|]); by intros ? []. }
    assert (length (join (bs ", ") (fst <$> vs)) ≤ n ∧ length (join (bs ", ") (lit_text ∘ snd <$> vs)) ≤ n)%nat as [N1 N2].
    { unfold n. rewrite !length_app. lia. }
    rewrite read_name by done. cbn [fst snd]. change (drop 1 (bs "(" ++ ?s)) with s.
    pose proof (names_length (bs ", ") _ Hn) as L1. pose proof (lits_length (bs ", ") _ Hl) as L2. rewrite <-list_fmap_compose in L2.
    rewrite read_names by (done || by destruct vs || lia).
    cbn [fst snd]. rewrite after_app. cbn [mbind option_bind]. rewrite list_fmap_compose.
    rewrite (read_items_join read_literal lit_text lit_ok (halts numeric)); try done; [|by intros; apply read_literal_text|by destruct vs|lia].
    cbn [fst snd]. rewrite bool_decide_true by done. by rewrite zip_fst_snd.
  - destruct Hg as (Hs & Hk & Hsok & Hkok). rewrite after_app. cbv zeta. set (n := length _).
    change (after (bs "insert into ") _) with (@None bytes). cbv iota.
    assert (length (join (bs ", ") (assign <$> sets)) ≤ n ∧ length (join (bs " and ") (assign <$> keys)) ≤ n)%nat as [N1 N2].
    { unfold n. rewrite !length_app. lia. }
    rewrite read_name by done. cbn [fst snd]. rewrite after_app. cbn [mbind option_bind].
    rewrite read_assigns by done. cbn [fst snd]. rewrite after_app. cbn [mbind option_bind].
    rewrite <-(app_nil_r (join (bs " and ") (assign <$> keys))). rewrite read_assigns by done. done.
  - destruct Hg as (Hk & Hkok). rewrite after_app. cbv zeta. set (n := length _).
    change (after (bs "insert into ") _) with (@None bytes). change (after (bs "update ") _) with (@None bytes). cbv iota.
    assert (length (join (bs " and ") (assign <$> keys)) ≤ n)%nat as N2.
    { unfold n. rewrite !length_app. lia. }
    rewrite read_name by done. cbn [fst snd]. rewrite after_app. cbn [mbind option_bind].
    rewrite <-(app_nil_r (join (bs " and ") (assign <$> keys))). rewrite read_assigns by done. done.
Qed.

(** ** The server *)

Record copies := mk_copies { cp_rows : gmap bytes (list (gmap bytes bytes)) }.

Definition plain (_ _ : bytes) (v : literal) : bytes := v.2.

Definition cp_exec (sql : bytes) (d : copies) : copies * pgresult :=
  match read_change sql with
  | Some (tb, g) => (mk_copies (<[tb:=apply_change plain tb g (default [] (cp_rows d !! tb))]> (cp_rows d)), mk_res PGRES_COMMAND_OK [])
  | None => (d, mk_res PGRES_ERROR [])
  end.

#[local] Instance copies_libpq : Libpq copies := {|
  PQexec := cp_exec;
  PQprepare _ _ _ d := (d, mk_res PGRES_ERROR []);
  PQexecPrepared _ _ d := (d, mk_res PGRES_ERROR []);
|}.

#[local] Instance copies_replica : PgReplica copies.
Proof.
  refine {| rp_rows d tb := default [] (cp_rows d !! tb); rp_canon := plain |}.
  intros d tb g Ht Hg. eexists. cbn [PQexec copies_libpq]. unfold cp_exec. rewrite read_change_text by done. split; [done|].
  intros t. cbn [cp_rows]. destruct (decide (t = tb)) as [->|Hne]; [by rewrite lookup_insert_eq|by rewrite lookup_insert_ne].
Defined.

(** ** Updates copied *)

(** A write numbers the columns, so its buffers have the texts of all of them. *)
Lemma write_sends t cs r : t_columns t = number_cols cs →
  (∀ c x, c ∈ targets None (t_clones t) → x ∈ clones_at c (t_clones t) → is_Some (clone_col t x)) →
  sends t (ch "i") ((λ col, text_of_field col (field_at r col)) <$> t_columns t) r.
Proof.
  intros Ht Hcol c x Hc Hx _. destruct (Hcol c x Hc Hx) as [col Hcl]. exists col. split; [done|].
  apply head_Some_elem_of in Hcl. apply list_elem_of_filter in Hcl as [_ (i & Hi)%list_elem_of_lookup].
  assert (col_p col = i) as ->; [|by rewrite list_lookup_fmap, Hi].
  rewrite Ht in Hi. unfold number_cols in Hi. rewrite list_lookup_imap in Hi. destruct (cs !! i) as [c'|]; [|done]. by injection Hi as <-.
Qed.

(** The two columns of the example, copied to a table of another schema. *)
Definition ex_clones : list clone_t :=
  [mk_clone (bs "b") (bs "copia") (bs "codigo") (bs "cod") (ch "S") 32; mk_clone (bs "b") (bs "copia") (bs "nome") (bs "nom") (ch "N") 32].
Definition ex_copied : table_t := set_t_clones ex_clones (set_t_columns (number_cols ex_tcols) ex_open_table).
Definition ex_copy : clone_t := mk_clone (bs "b") (bs "copia") (bs "nome") (bs "nom") (ch "N") 32.
Definition ex_code (r : bytes) : bytes := take 3 r.

Lemma ex_targets c : c ∈ targets None (t_clones ex_copied) → c = ex_copy.
Proof. by intros Hc%list_elem_of_singleton. Qed.

Lemma ex_clones_ok : clones_ok ex_copied.
Proof.
  split; [by apply (bool_decide_unpack _)|..]; intros c ->%ex_targets.
  - split; [|by apply (bool_decide_unpack _)]. split; [done|]. by apply (bool_decide_unpack _).
  - split; [done|]. split; [done|]. by apply (bool_decide_unpack _).
Qed.

Lemma ex_sendable : sendable ex_copied (bs "005Zoe ").
Proof.
  assert (∀ s b, name_ok (bs s) → lit_ok b → pair_ok (bs s, b)) as H by done.
  split.
  - intros c ->%ex_targets. change (clone_pair ex_copied (bs "005Zoe ") <$> clones_at ex_copy (t_clones ex_copied)) with
      [(bs "cod", (true, bs "005")); (bs "nom", (false, bs "Zoe "))].
    repeat constructor; cbn [fst snd]; by apply (bool_decide_unpack _).
  - intros c g ->%ex_targets Hg. rewrite !elem_of_cons, elem_of_nil in Hg. by destruct Hg as [->|[->|[->|[]]]].
Qed.

Definition ex_row (r : bytes) : gmap bytes bytes := image ex_copied ex_copy r.

Lemma replica_mirrors_witness : ∃ d', replica_call (ch "u") ex_copied [bs "005"; bs "Zoe "]
    (mk_copies {[ bs "b.copia" := ex_row <$> [bs "002Ana "; bs "005Eva "] ]}) = (d', inr tt) ∧
  mirrors ex_copied d' [bs "002Ana "; bs "005Zoe "].
Proof.
  destruct (replica_mirrors ex_copied ex_code (ch "u") [bs "005"; bs "Zoe "] (bs "005Zoe ") [bs "002Ana "; bs "005Eva "]
    (mk_copies {[ bs "b.copia" := ex_row <$> [bs "002Ana "; bs "005Eva "] ]})) as (d' & E & Hm & _).
  - exact ex_clones_ok.
  - right; by left.
  - exact ex_sendable.
  - intros c x ->%ex_targets Hx _. assert (x ∈ ex_clones) as Hin by (by apply list_elem_of_filter in Hx as [_ Hx]).
    unfold ex_clones in Hin. rewrite !elem_of_cons, elem_of_nil in Hin.
    destruct Hin as [->|[->|[]]]; [exists (set_p 0 (mk_col (bs "codigo") (ch "n") 3 0 0 true 0))|exists (set_p 1 (mk_col (bs "nome") (ch "s") 4 0 3 false 0))]; done.
  - intros c x ->%ex_targets Hx. rewrite !elem_of_cons, elem_of_nil in Hx. destruct Hx as [->|[->|[]]]; by apply (bool_decide_unpack _).
  - intros c ->%ex_targets. done.
  - exists d'. split; [exact E|exact Hm].
Defined.

(** ** The places of the columns *)

(** A connection to the database and one to the copies. *)
Record both (D R : Type) := mk_both { bo_local : D; bo_remote : R }.
Arguments mk_both {D R} _ _.
Arguments bo_local {D R} _.
Arguments bo_remote {D R} _.

Section both.
Context {D R : Type} `{!Libpq D, !Libpq R}.

Definition on_local (f : D → D * pgresult) (b : both D R) : both D R * pgresult :=
  let (d, r) := f (bo_local b) in (mk_both d (bo_remote b), r).

#[global] Instance both_libpq : Libpq (both D R) := {|
  PQexec sql := on_local (PQexec sql);
  PQprepare n sql k := on_local (PQprepare n sql k);
  PQexecPrepared n vs := on_local (PQexecPrepared n vs);
|}.

#[global] Instance both_calls : DbCalls (both D R) := {|
  replica cmd t values := λ s,
    let (r, x) := replica_call cmd t values (bo_remote (conn s)) in
    (mk_dbs (mk_both (bo_local (conn s)) r) (gdb s) (tabs s) (tabs_brk s), x);
  command_call f := mret f;
|}.

End both.

#[local] Existing Instance ex_libpq.
#[local] Existing Instance ex_table.

Definition ex_copied_state : dbs (both server copies) :=
  mk_dbs (mk_both (mk_server [] [] []) (mk_copies ∅))
    (mk_gdb (ch "B") false [] [] false false false 0 0 false [] false false 0 true [])
    {[ 64 := set_t_clones ex_clones ex_open_table ]} 65.

Definition ex_write (r : bytes) : M (dbs (both server copies)) bytes :=
  f ← op_write true (set_rec r ex_call_fcd); mret (status (fst f)).
Definition ex_rewrite (r : bytes) : M (dbs (both server copies)) bytes :=
  f ← op_rewrite true (set_rec r ex_call_fcd); mret (status (fst f)).
Definition ex_delete (r : bytes) : M (dbs (both server copies)) bytes :=
  f ← op_delete true (set_rec r ex_call_fcd); mret (status f).

Definition ex_copy_rows (s : dbs (both server copies)) : list (gmap bytes bytes) := rp_rows (bo_remote (conn s)) (bs "b.copia").

(** Two writes and a delete are copied. *)
Example ex_copied_updates :
  let '(s, r) := (a ← ex_write (bs "002Ana "); b ← ex_write (bs "005Eva "); c ← ex_delete (bs "002    "); mret [a; b; c]) ex_copied_state in
  r = inr [ST_OK; ST_OK; ST_OK] ∧ ex_copy_rows s = [ex_row (bs "005Eva ")].
Proof. by vm_compute. Qed.

(** The place of a column among the parameters is kept in the column itself and is set
    when a rewrite is prepared, but a write numbers the columns again: a rewrite after that
    takes its values for the copy from the wrong buffers, here the name for the code, and
    the statement that fails ends the program, after the table itself was updated. *)
Theorem replica_stale_places :
  let '(s, r) := (ex_write (bs "002Ana ");; ex_rewrite (bs "002Eva ");; ex_write (bs "005Bia ");; ex_rewrite (bs "005Zoe ")) ex_copied_state in
  r = inl Exit ∧ sv_rows (bo_local (conn s)) = [[bs "005"; bs "Zoe "]; [bs "002"; bs "Eva "]] ∧
  ex_copy_rows s = [ex_row (bs "005Bia "); ex_row (bs "002Eva ")].
Proof. by vm_compute. Qed.
