(* ===== verification/CursorServer.v ===== *)
(** The cursors of the server in memory keep the contract of Cursor, and reads along them. *)

From stdpp Require Import prelude gmap strings sorting.
From S2P Require Import Prelude Fhtypes Fcd Table Kdb Libpq DbRead DbWrite Sql DbRows DbSession DbSpec Cursor SqlText CursorSpec CursorScan DbServer.
Local Open Scope Z_scope.

Section order.
Context (cols : list column_t) (ixs : list nat).

Lemma row_cmp_antisym r r' : row_cmp sv_cmp cols ixs r' r = CompOpp (row_cmp sv_cmp cols ixs r r').
Proof.
  unfold row_cmp. induction ixs as [|i l IH]; [done|]. rewrite !fmap_cons. destruct (cols !! i) as [c|]; [|done].
  cbn [lexc]. unfold sv_cmp in *. rewrite (lex_cmp_antisym (default [] (r !! i))).
  destruct (lex_cmp (default [] (r !! i)) _); simpl; [exact IH|done|done].
Qed.

Lemma row_ge_trans r1 r2 r3 : row_cmp sv_cmp cols ixs r1 r2 ≠ Lt → row_cmp sv_cmp cols ixs r2 r3 ≠ Lt →
  row_cmp sv_cmp cols ixs r1 r3 ≠ Lt.
Proof.
  unfold row_cmp. induction ixs as [|i l IH]; [done|]. rewrite !fmap_cons. destruct (cols !! i) as [c|]; [|done].
  cbn [lexc]. unfold sv_cmp in *. set (a := default [] (r1 !! i)). set (b := default [] (r2 !! i)). set (d := default [] (r3 !! i)).
  destruct (lex_cmp a b) eqn:E1; [|done|].
  - apply lex_cmp_eq in E1 as ->. destruct (lex_cmp b d); [exact IH|done|done].
  - intros _ H2. assert (lex_cmp b d ≠ Lt) as Hbd by by destruct (lex_cmp b d).
    assert (lex_cmp a d ≠ Lt) as Had by (apply (lex_ge_trans a b d); congruence).
    destruct (lex_cmp a d) eqn:E3; [|done|done]. exfalso. apply lex_cmp_eq in E3. subst d. rewrite <-E3 in Hbd.
    rewrite lex_cmp_antisym, E1 in Hbd. done.
Qed.

Lemma row_before_total desc : Total (row_before sv_cmp cols desc ixs).
Proof.
  intros r r'. unfold row_before. rewrite (row_cmp_antisym r r').
  destruct desc, (row_cmp sv_cmp cols ixs r r'); simpl; auto.
Qed.

Lemma row_before_trans desc : Transitive (row_before sv_cmp cols desc ixs).
Proof.
  intros r1 r2 r3. unfold row_before. destruct desc; [apply row_ge_trans|].
  assert (∀ r r', row_cmp sv_cmp cols ixs r r' ≠ Gt ↔ row_cmp sv_cmp cols ixs r' r ≠ Lt) as H.
  { intros r r'. rewrite (row_cmp_antisym r r'). by destruct (row_cmp sv_cmp cols ixs r r'). }
  rewrite !H. intros H1 H2. by eapply row_ge_trans.
Qed.

End order.

Lemma wsize_render w : (wsize w ≤ length (render w))%nat.
Proof.
  induction w as [i op [n l]|i op [n l] w IH|i o [n l] w IH]; cbn [wsize render]; rewrite !length_app; cbn [length bs];
    change (length (bs " ")) with 1%nat; lia.
Qed.

Lemma order_text_length op (ns : list bytes) : (length ns ≤ S (length (order_text op ns)))%nat.
Proof.
  induction ns as [|n [|n' ns] IH]; [simpl; lia|simpl; lia|]. rewrite order_text_cons, !length_app.
  change (length (bs ",")) with 1%nat. cbn [length] in *. lia.
Qed.

Lemma after_head x y p s : x ≠ y → after (x :: p) (y :: s) = None.
Proof. intros H. unfold after, prefixb. rewrite bool_decide_false; [done|]. simpl. congruence. Qed.

Lemma digits_ge_zeros f n : (∀ x, x ∈ f → isdigit x = true) → length f = n → lex_cmp f (zeros n) ≠ Lt.
Proof.
  intros Hd <-. induction f as [|x f IH]; [done|]. simpl. assert (isdigit x = true) as Hx%isdigit_range by (apply Hd; by left).
  destruct (Z.compare_spec x 48); [|lia|done]. apply IH. intros y Hy. apply Hd. by right.
Qed.

Section server.
Context (schema name : bytes) (cols : list column_t) (keys : list key_t).
Context (Hnames : names_ok cols).

#[local] Instance server_calls : Libpq server := server_libpq schema name cols keys.

Lemma sv_cursor_cons n rows l d m :
  sv_cursor (sv_set_cursors ((n, rows) :: l) d) m = if decide (n = m) then Some rows else sv_cursor (sv_set_cursors l d) m.
Proof. unfold sv_cursor, sv_set_cursors. cbn [sv_cursors]. rewrite filter_cons. cbn [fst]. by destruct (decide (n = m)). Qed.

Lemma read_declare_text n ixs cs op w : is_word n → where_ok cols w →
  mapM (λ i, cols !! i) ixs = Some cs → cs ≠ [] →
  read_declare schema name cols (declare_text n schema name (render w) (order_text op (col_name <$> cs))) =
    Some (n, w, ixs, descending op).
Proof.
  intros [_ Hn] Hw Hm Hne. unfold read_declare, declare_text. rewrite after_app. cbn [mbind option_bind].
  set (fixed := bs "cursor with hold for" ++ [10] ++ bs "  select * from " ++ schema ++ bs "." ++ name ++ [10] ++ bs "    where ").
  replace (n ++ bs " cursor with hold for" ++ [10] ++ bs "  select * from " ++ schema ++ bs "." ++ name ++ [10] ++
    bs "    where " ++ render w ++ bs " order by " ++ order_text op (col_name <$> cs))
    with (n ++ bs " " ++ fixed ++ render w ++ bs " order by " ++ order_text op (col_name <$> cs))
    by (subst fixed; rewrite <-!app_assoc; done).
  rewrite (word_blank _ _ Hn). cbn [fst snd]. rewrite after_app. cbn [mbind option_bind].
  rewrite (read_where_render cols Hnames w Hw); [| |by eexists; left].
  2:{ rewrite length_app. pose proof (wsize_render w). lia. }
  cbn [mbind option_bind fst snd]. rewrite after_app. cbn [mbind option_bind].
  rewrite (read_order_text cols Hnames op ixs cs Hm Hne); [done|].
  pose proof (order_text_length op (col_name <$> cs)) as H. by rewrite length_fmap in H.
Qed.

Context (Hcols : Forall (λ c, (col_dec c ≤ col_len c)%nat) cols).
Context (Hinj : ∀ q q', q ∈ file_stmts cols keys → q' ∈ file_stmts cols keys →
    stmt_text schema name cols q = stmt_text schema name cols q' → q = q').

#[local] Instance server_rows : PgTable server schema name cols keys := server_table schema name cols keys Hcols Hinj.

#[local] Instance server_cursor : PgCursor server schema name cols keys.
Proof.
  refine {| pg_cmp := sv_cmp |}.
  - intros c f f' v v' _ _ _ _ _. apply lex_cmp_eq.
  - intros c _ _. exists []. split; [done|]. intros f v _ _. unfold sv_cmp. by destruct v.
  - intros c f v v0 Hc Hn Hd Hf Hdig [= <-] [= <-]. rewrite (digits_text c f Hf Hn Hdig). unfold pointed, sv_cmp.
    rewrite Hd. change (0 <? 0)%nat with false. cbv iota. apply digits_ge_zeros; [done|apply Hf].
  - intros d n ixs cs op w Hcur Hn Hop Hw Hm Hne. change (sv_cursor d n = None) in Hcur. cbn [PQexec server_calls server_libpq]. unfold sv_sql.
    assert (after (bs "fetch next in ") (declare_text n schema name (render w) (order_text op (col_name <$> cs))) = None) as -> by by apply after_head.
    assert (after (bs "close ") (declare_text n schema name (render w) (order_text op (col_name <$> cs))) = None) as -> by by apply after_head.
    rewrite (read_declare_text n ixs cs op w Hn Hw Hm Hne), Hcur.
    eexists _, _. split; [done|]. split; [etrans; [apply sv_cursor_cons|by rewrite decide_True]|].
    split; [apply merge_sort_Permutation|]. split; [|by split].
    pose proof (row_before_total cols ixs (descending op)). pose proof (row_before_trans cols ixs (descending op)).
    by apply StronglySorted_merge_sort.
  - intros d n rows Hn Hcur. change (sv_cursor d n = Some rows) in Hcur. cbn [PQexec server_calls server_libpq]. unfold sv_sql, fetch_text. rewrite after_app, Hcur.
    eexists. split; [done|]. split; [etrans; [apply sv_cursor_cons|by rewrite decide_True]|]. by split.
  - intros d n rows Hn Hcur. change (sv_cursor d n = Some rows) in Hcur. cbn [PQexec server_calls server_libpq]. unfold sv_sql, close_text. 
    assert (after (bs "fetch next in ") (bs "close " ++ n) = None) as -> by by apply after_head.
    rewrite after_app, Hcur. eexists _, _. split; [done|]. split; [|by split].
    change (sv_cursor (sv_set_cursors (filter (λ p, p.1 ≠ n) (sv_cursors d)) d) n = None).
    unfold sv_cursor, sv_set_cursors. cbn [sv_cursors]. destruct (filter (λ p, p.1 = n) _) as [|p l] eqn:E; [done|].
    exfalso. assert (p ∈ filter (λ p, p.1 = n) (filter (λ p, p.1 ≠ n) (sv_cursors d))) as H by (rewrite E; by left).
    apply list_elem_of_filter in H as [H1 H2]. by apply list_elem_of_filter in H2 as [H2 _].
Defined.

End server.

(** ** Reads on a file of three records *)

#[local] Existing Instance ex_libpq.
#[local] Existing Instance ex_calls.
#[local] Existing Instance ex_table.

Lemma ex_names : names_ok ex_tcols.
Proof.
  split; [by apply (bool_decide_unpack _)|]. intros c Hc. unfold ex_tcols in Hc.
  rewrite !elem_of_cons, elem_of_nil in Hc. destruct Hc as [->|[->|[]]]; split; by apply (bool_decide_unpack _).
Qed.

#[local] Instance ex_cursor : PgCursor server ex_schema ex_name ex_tcols ex_tkeys :=
  server_cursor ex_schema ex_name ex_tcols ex_tkeys ex_names ex_tcols_sizes ex_texts.

Definition ex_records : list bytes := [bs "007Bia "; bs "002Ana "; bs "005Ana "].

Definition ex_full_state : dbs server :=
  mk_dbs (mk_server [] (row_img (PgTable0:=ex_table) <$> ex_records) [])
    (mk_gdb (ch "B") false [] [] false false false 0 0 false [] false false 0 true [])
    {[ 64 := ex_open_table ]} 65.

Lemma ex_full_rows : rows_ok (P:=ex_table) (conn ex_full_state) ex_records.
Proof.
  split; [done|]. split; [|by apply (bool_decide_unpack _)].
  unfold ex_records. repeat (apply Forall_cons; split); [..|constructor].
  - by apply (ex_record 48 48 55 (bs "Bia ")); first [done|apply (bool_decide_unpack _)].
  - by apply (ex_record 48 48 50 (bs "Ana ")); first [done|apply (bool_decide_unpack _)].
  - by apply (ex_record 48 48 53 (bs "Ana ")); first [done|apply (bool_decide_unpack _)].
Qed.

Lemma ex_full_start : can_start (P:=ex_table) ex_ts ex_full_state 64 ex_open_table.
Proof.
  split; try done; [|apply not_elem_of_nil]. split; [done|]. split; [|done]. split; try done.
  - intros [|[|k]] key b Hk; simpl; try done; intros [= <-]; by split.
  - intros k _ E. by apply lookup_replicate in E as [? _].
Qed.

Lemma ex_words : 32 ∉ ex_name ∧ 32 ∉ ex_ts.
Proof. split; by apply (bool_decide_unpack _). Qed.

Definition ex_after : fcd_t := set_rec (bs "002    ") ex_call_fcd.

Lemma ex_code_fits : start_fits (schema:=ex_schema) (cols:=ex_tcols) (mk_key 0 3 1 [0%nat]).
Proof.
  split.
  - intros c Hc. apply list_elem_of_singleton in Hc as ->. simpl. lia.
  - intros op Hop. simpl. destruct (op_first op =? ch "<"); simpl; lia.
  - simpl. lia.
Qed.

Lemma ex_code_area : start_area (cols_at (cols:=ex_tcols) [0%nat]) (bs "002    ").
Proof.
  intros c Hc. apply list_elem_of_singleton in Hc as ->. left.
  destruct (wr_keys (cols:=ex_tcols) (keys:=ex_tkeys) (bs "002    ")) with (key := mk_key 0 3 1 [0%nat]) (c := mk_col (bs "codigo") (ch "n") 3 0 0 true 0) as [Hf Hd].
  - by apply (ex_record 48 48 50 (bs "    ")); first [done|apply (bool_decide_unpack _)].
  - by left.
  - by left.
  - split; [exact Hf|]. split; [exact Hd|]. by apply (bool_decide_unpack _).
Qed.

(** A start and its reads, evaluated; and a start below, which descends. *)
Definition ex_scan (op : string) (k : nat) (area : string) : M (dbs server) (bytes * (list bytes * bytes)) :=
  f ← op_start true (set_key_id (putshort (Z.of_nat k)) (set_rec (bs area) ex_call_fcd)) (bs op);
  r ← read_all 9 (ch "n") f;
  mret (status f, r).

Example ex_scan_up : snd (ex_scan ">" 0 "002    " ex_full_state) = inr (ST_OK, ([bs "005Ana "; bs "007Bia "], ST_EOF)).
Proof. by vm_compute. Qed.

Example ex_scan_down : snd (ex_scan "<=" 0 "006    " ex_full_state) = inr (ST_OK, ([bs "005Ana "; bs "002Ana "], ST_EOF)).
Proof. by vm_compute. Qed.

(** An equal start on the key of the record read last answers that the record is there,
    but the read after it goes on along the old cursor and finds the end of the file. *)
Lemma start_equal_twice :
  let start := op_start true (set_rec (bs "002    ") ex_call_fcd) (bs "=") in
  let again (f : fcd_t) := op_start true (set_rec (bs "002    ") f) (bs "=") in
  snd ((f ← start; r1 ← op_next_prev f (ch "n"); g ← again r1; r2 ← op_next_prev g (ch "n");
        mret (status r1, record r1, status g, status r2)) ex_full_state) =
    inr (ST_OK, bs "002Ana ", ST_OK, ST_EOF).
Proof. by vm_compute. Qed.

(** A start not less than the key of the record read last leaves that record to be given
    again, even after a start on another key. *)
Lemma start_stale_record :
  let start k area (f : fcd_t) := op_start true (set_key_id (putshort k) (set_rec (bs area) f)) (bs ">=") in
  snd ((f ← start 0 "005    " ex_call_fcd; r1 ← op_next_prev f (ch "n"); g ← start 0 "005    " r1;
        h ← start 1 "000Bia " g; mret (status h, record h)) ex_full_state) =
    inr (ST_OK, bs "005Ana ").
Proof. by vm_compute. Qed.
