(* ===== verification/Merge.v ===== *)
(** The differences of two files in the order of a key: a merge, and what it lists. *)

From stdpp Require Import prelude gmap strings sorting.
From S2P Require Import Prelude.

(** A record of only the first file, of only the second, and two that differ. *)
Inductive entry := Plus (r : bytes) | Minus (r : bytes) | Differ (r i : bytes).

Section merge.
Context (kv : bytes → bytes).

(** The turn of a merge at the first records of the two files. *)
Fixpoint merge (T : list bytes) : list bytes → list entry :=
  match T with
  | [] => λ I, Minus <$> I
  | r :: T' =>
      fix go I :=
        match I with
        | [] => Plus <$> r :: T'
        | i :: I' =>
            match lex_cmp (kv r) (kv i) with
            | Eq => if decide (r = i) then merge T' I' else Differ r i :: merge T' I'
            | Gt => Minus i :: go I'
            | Lt => Plus r :: merge T' I
            end
        end
  end.

(** The files in the order of their keys, no key twice. *)
Definition in_order (l : list bytes) : Prop := StronglySorted lex_lt (kv <$> l).

Definition entry_key (e : entry) : bytes := match e with Plus r | Minus r | Differ r _ => kv r end.

(** A list of the differences of two files: complete, and in order, so that each is there
    once. *)
Record differences (T I : list bytes) (es : list entry) : Prop := {
  df_plus r : Plus r ∈ es ↔ r ∈ T ∧ kv r ∉ kv <$> I;
  df_minus i : Minus i ∈ es ↔ i ∈ I ∧ kv i ∉ kv <$> T;
  df_differ r i : Differ r i ∈ es ↔ r ∈ T ∧ i ∈ I ∧ kv r = kv i ∧ r ≠ i;
  df_order : StronglySorted lex_lt (entry_key <$> es);
}.

Lemma in_order_cons r l : in_order (r :: l) ↔ Forall (λ x, lex_lt (kv r) (kv x)) l ∧ in_order l.
Proof.
  unfold in_order. rewrite fmap_cons. split.
  - intros [H1 H2]%StronglySorted_inv. by rewrite Forall_fmap in H2.
  - intros [H1 H2]. constructor; [done|]. by rewrite Forall_fmap.
Qed.

Lemma below_notin k l : Forall (λ x, lex_lt k (kv x)) l → k ∉ kv <$> l.
Proof.
  rewrite Forall_forall. intros H (x & -> & Hx)%list_elem_of_fmap. apply H in Hx. by apply (irreflexivity lex_lt) in Hx.
Qed.

Lemma below_trans k k' l : lex_lt k k' → Forall (λ x, lex_lt k' (kv x)) l → Forall (λ x, lex_lt k (kv x)) l.
Proof. intros H Hl. eapply Forall_impl; [exact Hl|]. intros x Hx. by etrans. Qed.

(** What is left of the first file comes before every entry of the rest. *)
Lemma merge_above k T I :
  Forall (λ x, lex_lt k (kv x)) T → Forall (λ x, lex_lt k (kv x)) I → Forall (λ e, lex_lt k (entry_key e)) (merge T I).
Proof.
  revert I. induction T as [|r T IH]; intros I HT HI; [by apply Forall_fmap|].
  induction I as [|i I IHI]; [by apply Forall_fmap|].
  pose proof HT as [Hr HT']%Forall_cons. pose proof HI as [Hi HI']%Forall_cons. cbn [merge].
  destruct (lex_cmp (kv r) (kv i)).
  - destruct (decide (r = i)); [by apply IH|]. constructor; [done|]. by apply IH.
  - constructor; [done|]. by apply IH.
  - constructor; [done|]. by apply IHI.
Qed.

Lemma differences_sorted e es : Forall (λ x, lex_lt (entry_key e) (entry_key x)) es → StronglySorted lex_lt (entry_key <$> es) →
  StronglySorted lex_lt (entry_key <$> e :: es).
Proof. intros H Hs. rewrite fmap_cons. constructor; [done|]. by apply Forall_fmap. Qed.

Lemma sorted_all {A} (f : A → entry) (l : list bytes) (g : bytes → A) : (∀ x, entry_key (f (g x)) = kv x) → in_order l →
  StronglySorted lex_lt (entry_key <$> (f ∘ g <$> l)).
Proof.
  intros Hf Hl. unfold in_order in Hl. rewrite <-list_fmap_compose.
  assert (entry_key ∘ (f ∘ g) <$> l = kv <$> l) as ->; [|done]. apply list_fmap_ext. intros i x _. apply Hf.
Qed.

End merge.

(** The keys of the two files and the entries, for [set_solver]. *)
Ltac merge_elem := rewrite ?fmap_cons, ?not_elem_of_cons, ?elem_of_cons.

Section differences.
Context (kv : bytes → bytes).
Notation in_order := (in_order kv).
Notation below k l := (Forall (λ x, lex_lt k (kv x)) l).

Lemma differences_none I : in_order I → differences kv [] I (Minus <$> I).
Proof.
  intros HI. split.
  - intros r. rewrite list_elem_of_fmap. set_solver.
  - intros i. rewrite list_elem_of_fmap. set_solver.
  - intros r i. rewrite list_elem_of_fmap. set_solver.
  - by apply (sorted_all kv Minus I id).
Qed.

Lemma differences_all T : in_order T → differences kv T [] (Plus <$> T).
Proof.
  intros HT. split.
  - intros r. rewrite list_elem_of_fmap. set_solver.
  - intros i. rewrite list_elem_of_fmap. set_solver.
  - intros r i. rewrite list_elem_of_fmap. set_solver.
  - by apply (sorted_all kv Plus T id).
Qed.

(** Two records of one key are of one file at most once. *)
Lemma below_ne k l x : below k l → x ∈ l → kv x ≠ k.
Proof. intros H Hx E. apply below_notin in H. apply H. rewrite <-E. by apply list_elem_of_fmap_2. Qed.

Lemma differences_equal r i T I es : kv r = kv i → below (kv r) T → below (kv i) I → differences kv T I es →
  (∀ x, x ∈ es → lex_lt (kv r) (entry_key kv x)) →
  differences kv (r :: T) (i :: I) (if decide (r = i) then es else Differ r i :: es).
Proof.
  intros E HT HI [H1 H2 H3 H4] Hes.
  assert (∀ x, x ∈ T → kv x ≠ kv i) as NT by (intros x Hx; rewrite <-E; by apply (below_ne _ T)).
  assert (∀ x, x ∈ I → kv x ≠ kv r) as NI by (intros x Hx; rewrite E; by apply (below_ne _ I)).
  assert (∀ e, e ∈ (if decide (r = i) then es else Differ r i :: es) ↔ e ∈ es ∨ (e = Differ r i ∧ r ≠ i)) as Hin.
  { intros e. destruct (decide (r = i)); [naive_solver|]. rewrite elem_of_cons. naive_solver. }
  split.
  - intros x. rewrite Hin, H1. merge_elem. split; [|naive_solver]. intros [[Hx Hk]|[[=] _]]. split; [by right|]. auto.
  - intros x. rewrite Hin, H2. merge_elem. split.
    + intros [[Hx Hk]|[[=] _]]. split; [by right|]. auto.
    + intros [[->|Hx] [Hk Hk']]; [congruence|]. by left.
  - intros x y. rewrite Hin, H3. merge_elem. split.
    + intros [(Hx & Hy & Hk)|[[= -> ->] Hne]]; [naive_solver|]. split_and!; auto.
    + intros ([->|Hx] & [->|Hy] & Hk & Hne); [by right|by apply NI in Hy|by apply NT in Hx|naive_solver].
  - destruct (decide (r = i)); [done|]. apply differences_sorted; [|done]. by apply Forall_forall.
Qed.

Lemma differences_minus i T I es : below (kv i) T → below (kv i) I → differences kv T I es →
  (∀ x, x ∈ es → lex_lt (kv i) (entry_key kv x)) → differences kv T (i :: I) (Minus i :: es).
Proof.
  intros HT HI [H1 H2 H3 H4] Hes.
  assert (∀ x, x ∈ T → kv x ≠ kv i) as NT by (intros x Hx; by apply (below_ne _ T)).
  split.
  - intros x. merge_elem. rewrite H1. split; [|naive_solver]. intros [[=]|[Hx Hk]]. auto.
  - intros x. merge_elem. rewrite H2. split; [|naive_solver]. intros [[= ->]|[Hx Hk]]; [|naive_solver].
    split; [by left|]. by apply below_notin.
  - intros x y. merge_elem. rewrite H3. split; [naive_solver|]. intros (Hx & [->|Hy] & Hk & Hne); [by apply NT in Hx|naive_solver].
  - apply differences_sorted; [|done]. by apply Forall_forall.
Qed.

Lemma differences_plus r T I es : below (kv r) T → below (kv r) I → differences kv T I es →
  (∀ x, x ∈ es → lex_lt (kv r) (entry_key kv x)) → differences kv (r :: T) I (Plus r :: es).
Proof.
  intros HT HI [H1 H2 H3 H4] Hes.
  assert (∀ x, x ∈ I → kv x ≠ kv r) as NI by (intros x Hx; by apply (below_ne _ I)).
  split.
  - intros x. merge_elem. rewrite H1. split; [|naive_solver]. intros [[= ->]|[Hx Hk]]; [|naive_solver].
    split; [by left|]. by apply below_notin.
  - intros x. merge_elem. rewrite H2. split; [|naive_solver]. intros [[=]|[Hx Hk]]. auto.
  - intros x y. merge_elem. rewrite H3. split; [naive_solver|]. intros ([->|Hx] & Hy & Hk & Hne); [by apply NI in Hy|naive_solver].
  - apply differences_sorted; [|done]. by apply Forall_forall.
Qed.

(** The merge of two files in order lists their differences. *)
Lemma merge_differences T I : in_order T → in_order I → differences kv T I (merge kv T I).
Proof.
  revert I. induction T as [|r T IH]; intros I HT HI; [by apply differences_none|].
  induction I as [|i I IHI]; [by apply (differences_all (r :: T))|].
  pose proof HT as [Hr HT']%in_order_cons. pose proof HI as [Hi HI']%in_order_cons. cbn [merge].
  assert (∀ k T I x, below k T → below k I → x ∈ merge kv T I → lex_lt k (entry_key kv x)) as Habove.
  { intros k T0 I0 x H1 H2. pose proof (merge_above kv k T0 I0 H1 H2) as H. rewrite Forall_forall in H. apply H. }
  destruct (lex_cmp (kv r) (kv i)) eqn:E.
  - apply lex_cmp_eq in E. apply differences_equal; [done|done|done|by apply IH|].
    intros x. apply Habove; [done|]. by rewrite E.
  - assert (below (kv r) (i :: I)) as Hri by (constructor; [done|by apply (below_trans kv _ (kv i))]).
    apply differences_plus; [done|done|by apply IH|]. intros x. by apply Habove.
  - apply lex_gt in E. assert (below (kv i) (r :: T)) as Hir by (constructor; [done|by apply (below_trans kv _ (kv r))]).
    apply (differences_minus i (r :: T) I (merge kv (r :: T) I)); [done|done|by apply IHI|]. intros x. by apply Habove.
Qed.

End differences.
