(* ===== verification/Cmp.v ===== *)
(** The comparison of a table with its ISAM file, and its repair (src/cmp_table.c), and
    the comparison of two ISAM files (src/cmp_isam.c): both files are read in the order of
    the first key and merged.  The file handler is an interface. *)

From stdpp Require Import prelude gmap strings sorting.
From S2P Require Import Prelude Fhtypes Fcd Table Kdb Libpq DbRead DbWrite.
Local Open Scope Z_scope.

(** The state of a comparison: the first files, those of the handler, the log file. *)
Record cmp_st (S W : Type) := mk_cs { c_first : S; c_isam : W; c_log : bytes }.
Arguments mk_cs {S W} _ _ _.
Arguments c_first {S W} _.
Arguments c_isam {S W} _.
Arguments c_log {S W} _.

Definition on_first {S W A} (m : M S A) : M (cmp_st S W) A := λ s,
  let (x, r) := m (c_first s) in (mk_cs x (c_isam s) (c_log s), r).
Definition on_isam {S W A} (m : M W A) : M (cmp_st S W) A := λ s,
  let (w, r) := m (c_isam s) in (mk_cs (c_first s) w (c_log s), r).
Definition put_log {S W} (b : bytes) : M (cmp_st S W) unit :=
  modify (λ s, mk_cs (c_first s) (c_isam s) (c_log s ++ b)).

(** [fprintf(f, mark); fwrite(record, reclen, 1, f); fprintf(f, "\n");] *)
Definition log_record {S W} (mark : string) (reclen : Z) (rec : bytes) : M (cmp_st S W) unit :=
  r ← of_option (sub_bytes rec 0 reclen);
  put_log (bs mark ++ r ++ [10]).

(** src/cmp_table.c:108-115 cmp_table (the components of the first key) *)
Definition cmp_comps (kdb : bytes) : option (list (Z * Z)) :=
  ncomps ← short_at kdb 14;
  cdaoffset ← short_at kdb 16;
  if ncomps <=? Z.of_nat MAX_COMPS then
    mapM (λ c, ofs ← int_at kdb (cdaoffset + Z.of_nat c * 10 + 2);
               len ← int_at kdb (cdaoffset + Z.of_nat c * 10 + 6);
               Some (s32 ofs, s32 len)) (seq 0 (Z.to_nat ncomps))
  else None.

(** src/cmp_table.c:152-157 cmp_table (the key of a record): the buffer has 257 bytes. *)
Definition cmp_key (comps : list (Z * Z)) (rec : bytes) : option bytes :=
  parts ← mapM (λ comp, sub_bytes rec (fst comp) (snd comp)) comps;
  let k := mjoin parts in
  if (length k <=? 256)%nat then Some k else None.

(** A field of the ISAM record as the table keeps it. *)
Definition isam_field (c : column_t) (b : bytes) : bytes :=
  (λ x, if col_tp c =? ch "s" then (if x =? 0 then 32 else x)
        else (if (x =? 0) || (x =? 32) then 48 else x)) <$> b.

(** src/cmp_table.c:10-58 reccmp *)
Fixpoint reccmp (cols : list column_t) (recbd recisam : bytes) : option comparison :=
  match cols with
  | [] => Some Eq
  | c :: cols' =>
      buf_bd ← rec_bytes recbd (col_offset c) (col_len c);
      buf_isam ← rec_bytes recisam (col_offset c) (col_len c);
      let r := match memcmp buf_isam buf_bd (col_len c) with
               | Eq => Eq
               | _ => memcmp (isam_field c buf_isam) buf_bd (col_len c)
               end in
      match r with Eq => reccmp cols' recbd recisam | _ => Some r end
  end.

(** [memset(fcd->record, 0, reclen)] *)
Definition clear_record (reclen : Z) (fcd : fcd_t) : fcd_t :=
  set_rec (blit (record fcd) 0 (replicate (Z.to_nat reclen) 0)) fcd.

(** [memcpy(fcd->record, rec, reclen)] *)
Definition put_rec {S} (reclen : Z) (rec : bytes) (fcd : fcd_t) : M S fcd_t :=
  r ← of_option (sub_bytes rec 0 reclen);
  guard_fault (reclen <=? Z.of_nat (length (record fcd)));;
  mret (set_rec (blit (record fcd) 0 r) fcd).

Section cmp.
Context {D : Type} `{!Libpq D} `{!DbCalls D} {W : Type} `{!Extfh W} (log_ok : bool).
Notation cs := (cmp_st (dbs D) W).

(** [op_next_prev(conn, fcd_bd, 'n'); memcpy(st, fcd_bd->status, 2);] *)
Definition next_bd (bd : fcd_t) : M cs (fcd_t * bytes) :=
  f ← on_first (op_next_prev bd (ch "n"));
  mret (f, status f).

(** [EXTFH(opcode, fcd_isam)] with the opcode of a read next. *)
Definition next_isam (isam : fcd_t) : M cs fcd_t := on_isam (extfh OP_READ_NEXT isam).

(** An operation on the table with the record of the ISAM file; the status and the record
    area are put back. *)
Definition with_isam (op : fcd_t → M (dbs D) (fcd_t * bool)) (reclen : Z) (st : bytes) (bd isam : fcd_t) : M cs fcd_t :=
  tmp ← of_option (sub_bytes (record bd) 0 reclen);
  f ← put_rec reclen (record isam) bd;
  r ← on_first (op f);
  put_rec reclen tmp (set_status st (fst r)).

(** The record is only in the ISAM file. *)
Definition cmp_minus (sync : bool) (reclen : Z) (bd : fcd_t) (st : bytes) (isam : fcd_t) : M cs (fcd_t * bytes * fcd_t) :=
  log_record "-" reclen (record isam);;
  bd ← (if sync then with_isam (op_write log_ok) reclen st bd isam else mret bd);
  isam ← next_isam isam;
  mret (bd, st, isam).

(** The record is only in the table. *)
Definition cmp_plus (sync : bool) (reclen : Z) (bd : fcd_t) (st : bytes) (isam : fcd_t) : M cs (fcd_t * bytes * fcd_t) :=
  log_record "+" reclen (record bd);;
  bd ← (if sync then f ← on_first (op_delete log_ok bd); mret (set_status st f) else mret bd);
  r ← next_bd bd;
  mret (fst r, snd r, isam).

(** src/cmp_table.c:175-215 cmp_table (equal keys) *)
Definition cmp_equal (sync : bool) (cols : list column_t) (reclen : Z) (bd : fcd_t) (st : bytes) (isam : fcd_t)
  : M cs (fcd_t * bytes * fcd_t) :=
  c ← of_option (reccmp cols (record bd) (record isam));
  bd ← (match c with
        | Eq => mret bd
        | _ =>
            log_record ">" reclen (record bd);;
            log_record "<" reclen (record isam);;
            if sync then with_isam (op_rewrite log_ok) reclen st bd isam else mret bd
        end);
  r ← next_bd bd;
  isam ← next_isam isam;
  mret (fst r, snd r, isam).

(** src/cmp_table.c:151-304 cmp_table (one turn of the loop): [st] is the status of the last
    read of the table. *)
Definition cmp_turn (sync : bool) (tab : Z) (comps : list (Z * Z)) (reclen : Z) (bd : fcd_t) (st : bytes) (isam : fcd_t)
  : M cs (fcd_t * bytes * fcd_t) :=
  key_bd ← (if is_ok bd then of_option (cmp_key comps (record bd)) else mret []);
  key_isam ← (if is_ok isam then of_option (cmp_key comps (record isam)) else mret []);
  if is_ok bd && is_ok isam then
    match memcmp key_bd key_isam (length key_isam) with
    | Eq => t ← on_first (tab_at tab); cmp_equal sync (t_columns t) reclen bd st isam
    | Gt => cmp_minus sync reclen bd st isam
    | Lt => cmp_plus sync reclen bd st isam
    end
  else if is_ok bd then cmp_plus sync reclen bd st isam
  else cmp_minus sync reclen bd st isam.

(** src/cmp_table.c:149-306 cmp_table (the loop) *)
Fixpoint cmp_loop (fuel : nat) (sync : bool) (tab : Z) (comps : list (Z * Z)) (reclen : Z) (bd : fcd_t) (st : bytes)
    (isam : fcd_t) : M cs fcd_t :=
  match fuel with
  | O => stop NoFuel
  | S fuel' =>
      if is_ok bd || is_ok isam then
        r ← cmp_turn sync tab comps reclen bd st isam;
        cmp_loop fuel' sync tab comps reclen (fst (fst r)) (snd (fst r)) (snd r)
      else mret bd
  end.

(** src/cmp_table.c:60-310 cmp_table : [log_opens] tells whether the log file can be
    written, [record1] and [record2] are the areas on the stack before they are cleared;
    the program's own record area is replaced by [record1]. *)
Definition cmp_table (fuel : nat) (sync log_opens : bool) (record1 record2 : bytes) (fcd_open : option fcd_t)
    (tab_open : Z) : M cs (option fcd_t) :=
  match fcd_open with
  | None => mret None
  | Some fcd =>
      if isam fcd =? ch "S" then mret (Some fcd)
      else
        on_first (tab_at tab_open);;
        if negb log_opens then mret (Some fcd)
        else
          modify (λ s, mk_cs (c_first s) (c_isam s) []);;
          let reclen := s16 (getshort (rec_len fcd)) in
          guard_fault ((0 <=? reclen) && (reclen <=? MAX_REC_LEN));;
          let bd := set_rec record1 fcd in
          isam ← on_isam (extfh OP_OPEN_INPUT (set_rec record2 (set_open_mode 128 fcd)));
          comps ← of_option (cmp_comps (kdb bd));
          bd ← on_first (op_start log_ok (clear_record reclen bd) (bs ">="));
          isam ← on_isam (extfh OP_START_GT (clear_record reclen isam));
          r ← next_bd bd;
          isam ← next_isam isam;
          f ← cmp_loop fuel sync tab_open comps reclen (fst r) (snd r) isam;
          mret (Some f)
  end.

End cmp.

Section isam.
Context {W : Type} `{!Extfh W}.
Notation cs := (cmp_st unit W).

(** src/cmp_isam.c:46-50 cmp_isam (the name of the log) *)
Definition cmp_logname (filename : bytes) : bytes := basename filename ++ bs "_cmp.log".

(** src/cmp_isam.c:126-226 cmp_isam (one turn of the loop) *)
Definition isam_turn (comps : list (Z * Z)) (reclen : Z) (f1 f2 : fcd_t) : M cs (fcd_t * fcd_t) :=
  let next f : M cs fcd_t := on_isam (extfh OP_READ_NEXT f) in
  let minus := log_record "-" reclen (record f2);; f2 ← next f2; mret (f1, f2) in
  let plus := log_record "+" reclen (record f1);; f1 ← next f1; mret (f1, f2) in
  if is_ok f1 && is_ok f2 then
    key1 ← of_option (cmp_key comps (record f1));
    key2 ← of_option (cmp_key comps (record f2));
    match memcmp key1 key2 (length key2) with
    | Eq =>
        rec1 ← of_option (sub_bytes (record f1) 0 reclen);
        rec2 ← of_option (sub_bytes (record f2) 0 reclen);
        (if memeq rec1 rec2 (Z.to_nat reclen) then mret tt
         else log_record "<" reclen (record f2);; log_record ">" reclen (record f1));;
        f1 ← next f1;
        f2 ← next f2;
        mret (f1, f2)
    | Gt => minus
    | Lt => plus
    end
  else if is_ok f1 then plus
  else minus.

(** src/cmp_isam.c:124-228 cmp_isam (the loop) *)
Fixpoint isam_loop (fuel : nat) (comps : list (Z * Z)) (reclen : Z) (f1 f2 : fcd_t) : M cs fcd_t :=
  match fuel with
  | O => stop NoFuel
  | S fuel' =>
      if is_ok f1 || is_ok f2 then
        r ← isam_turn comps reclen f1 f2;
        isam_loop fuel' comps reclen (fst r) (snd r)
      else mret f1
  end.

(** src/cmp_isam.c:10-233 cmp_isam : [mode] is the mode of the program. *)
Definition cmp_isam (fuel : nat) (mode : Z) (log_opens : bool) (record1 record2 : bytes) (fcd_open : option fcd_t)
    (filename2 : bytes) : M cs (option fcd_t) :=
  match fcd_open with
  | None => mret None
  | Some fcd =>
      if negb (isam fcd =? ch "S") && negb (mode =? ch "I") then mret (Some fcd)
      else
        let f1 := set_ignore_lock (Z.lor (ignore_lock fcd) 1) fcd in
        let fnlen := getshort (file_name_len f1) in
        guard_fault (fnlen <=? 256);;
        filename1 ← of_option (sub_bytes (file_name f1) 0 fnlen);
        guard_fault (length (cmp_logname (cut (cstr filename1) (ch " "))) <=? 256)%nat;;
        if negb log_opens then mret (Some f1)
        else
          modify (λ s, mk_cs (c_first s) (c_isam s) []);;
          let f2 := set_file_name_len (putshort (Z.of_nat (length filename2)))
                      (set_file_name filename2 (set_open_mode 128 f1)) in
          let reclen := s16 (getshort (rec_len f1)) in
          guard_fault ((0 <=? reclen) && (reclen <=? MAX_REC_LEN));;
          let f1 := set_rec record1 f1 in
          f2 ← on_isam (extfh OP_OPEN_INPUT (set_rec record2 f2));
          comps ← of_option (cmp_comps (kdb f1));
          f1 ← on_isam (extfh OP_START_GT (clear_record reclen f1));
          f2 ← on_isam (extfh OP_START_GT (clear_record reclen f2));
          f1 ← on_isam (extfh OP_READ_NEXT f1);
          f2 ← on_isam (extfh OP_READ_NEXT f2);
          f ← isam_loop fuel comps reclen f1 f2;
          mret (Some f)
  end.

End isam.
