(* ===== verification/CmpIsam.v ===== *)
(** What the comparisons rely on in the ISAM file handler, and the comparison of two ISAM
    files: the log lists their differences. *)

From stdpp Require Import prelude gmap strings sorting.
From S2P Require Import Prelude Fhtypes Fcd Table Kdb Libpq DbRead DbWrite DbRows DbSession DbSpec Merge Cmp.
Local Open Scope Z_scope.

(** The file a file control block names. *)
Definition fname (f : fcd_t) : bytes := take (Z.to_nat (getshort (file_name_len f))) (file_name f).

(** The key of a record by the components of a key. *)
Definition kval (comps : list (Z * Z)) (r : bytes) : bytes := default [] (cmp_key comps r).

(** What a call leaves in the file control block. *)
Record same_file (f f' : fcd_t) : Prop := {
  sf_name : fname f' = fname f;
  sf_key : key_id f' = key_id f;
  sf_kdb : kdb f' = kdb f;
  sf_rec : length (record f') = length (record f);
  sf_len : rec_len f' = rec_len f;
  sf_id : file_id f' = file_id f;
  sf_path : file_name f' = file_name f;
  sf_mode : open_mode f ≠ 128 → open_mode f' ≠ 128;
}.

(** The file handler: files by name, each with its records in the order of the first key and
    those still to read. *)
Class IsamFile (W : Type) `{!Extfh W} := {
  isam_recs : W → bytes → option (list bytes);
  isam_open : W → bytes → Prop;
  isam_rest : W → bytes → list bytes;

  isam_open_input f w recs : open_mode f = 128 → isam_recs w (fname f) = Some recs →
    ∃ w' f', extfh OP_OPEN_INPUT f w = (w', inr f') ∧ same_file f f' ∧ (open_mode f' ≠ 128 ∧ record f' = record f) ∧ isam_open w' (fname f) ∧
      (∀ m, isam_recs w' m = isam_recs w m) ∧
      (∀ m, m ≠ fname f → isam_rest w' m = isam_rest w m ∧ (isam_open w m → isam_open w' m));

  isam_close f w : isam_open w (fname f) → ∃ w' f', extfh OP_CLOSE f w = (w', inr f') ∧ record f' = record f;

  (** The records above the key in the record area. *)
  isam_start f w recs comps k : isam_open w (fname f) → isam_recs w (fname f) = Some recs → getshort (key_id f) = 0 →
    cmp_comps (kdb f) = Some comps → cmp_key comps (record f) = Some k →
    ∃ w' f', extfh OP_START_GT f w = (w', inr f') ∧ same_file f f' ∧ isam_open w' (fname f) ∧
      isam_rest w' (fname f) = filter (λ r, lex_lt k (kval comps r)) recs ∧
      (∀ m, isam_recs w' m = isam_recs w m) ∧
      (∀ m, m ≠ fname f → isam_rest w' m = isam_rest w m ∧ (isam_open w m → isam_open w' m));

  (** The records not below it. *)
  isam_start_ge f w recs comps k : isam_open w (fname f) → isam_recs w (fname f) = Some recs → getshort (key_id f) = 0 →
    cmp_comps (kdb f) = Some comps → cmp_key comps (record f) = Some k →
    ∃ w' f', extfh OP_START_GE f w = (w', inr f') ∧ same_file f f' ∧ isam_open w' (fname f) ∧
      isam_rest w' (fname f) = filter (λ r, ¬ lex_lt (kval comps r) k) recs ∧
      (∀ m, isam_recs w' m = isam_recs w m) ∧
      (∀ m, m ≠ fname f → isam_rest w' m = isam_rest w m ∧ (isam_open w m → isam_open w' m));

  isam_next f w : isam_open w (fname f) → Forall (λ r, length r = length (record f)) (isam_rest w (fname f)) →
    ∃ w' f', extfh OP_READ_NEXT f w = (w', inr f') ∧ same_file f f' ∧ isam_open w' (fname f) ∧
      match isam_rest w (fname f) with
      | [] => status f' = ST_EOF ∧ isam_rest w' (fname f) = []
      | r :: rest => is_ok f' = true ∧ record f' = r ∧ isam_rest w' (fname f) = rest
      end ∧
      (∀ m, isam_recs w' m = isam_recs w m) ∧
      (∀ m, m ≠ fname f → isam_rest w' m = isam_rest w m ∧ (isam_open w m → isam_open w' m));
}.

Section runs.
Context {S W : Type}.

Lemma on_first_run {A} (m : M S A) x x' (w : W) l r : m x = (x', inr r) → on_first m (mk_cs x w l) = (mk_cs x' w l, inr r).
Proof. intros H. unfold on_first. simpl. by rewrite H. Qed.

Lemma on_isam_run {A} (m : M W A) w w' (x : S) l r : m w = (w', inr r) → on_isam m (mk_cs x w l) = (mk_cs x w' l, inr r).
Proof. intros H. unfold on_isam. simpl. by rewrite H. Qed.

(** A line of the log. *)
Definition line (mark : string) (r : bytes) : bytes := bs mark ++ r ++ [10].

Lemma log_record_run mark n r (x : S) (w : W) l : length r = n →
  log_record mark (Z.of_nat n) r (mk_cs x w l) = (mk_cs x w (l ++ line mark r), inr tt).
Proof. intros H. unfold log_record. rewrite sub_bytes_full by by rewrite H. done. Qed.

End runs.

(** The components of the key are inside a record of [n] bytes and fit the buffers. *)
Definition comps_in (n : nat) (comps : list (Z * Z)) : Prop :=
  Forall (λ c, 0 <= fst c ∧ 0 <= snd c ∧ fst c + snd c <= Z.of_nat n) comps ∧ foldr Z.add 0 (snd <$> comps) <= 256.

Lemma cmp_key_run n comps r : comps_in n comps → length r = n →
  cmp_key comps r = Some (kval comps r) ∧ Z.of_nat (length (kval comps r)) = foldr Z.add 0 (snd <$> comps).
Proof.
  intros [Hin Hsum] Hr.
  assert (∃ parts, mapM (λ comp, sub_bytes r (fst comp) (snd comp)) comps = Some parts ∧
    Z.of_nat (length (mjoin parts)) = foldr Z.add 0 (snd <$> comps)) as (parts & Hm & Hl).
  { clear Hsum. induction Hin as [|c comps (H1 & H2 & H3) _ IH]; [by exists []|]. destruct IH as (parts & Hm & Hl).
    cbn [mapM]. assert (∃ b, sub_bytes r (fst c) (snd c) = Some b) as [b Hb].
    { unfold sub_bytes. rewrite !(proj2 (Z.leb_le _ _)) by lia. by eexists. }
    pose proof (sub_bytes_length _ _ _ _ Hb) as Hlb. rewrite Hb. cbn [mbind option_bind]. rewrite Hm. exists (b :: parts).
    split; [done|]. change (mjoin (b :: parts)) with (b ++ mjoin parts). rewrite length_app, fmap_cons. simpl. lia. }
  unfold kval, cmp_key. rewrite Hm. cbn [mbind option_bind]. by rewrite (proj2 (Nat.leb_le _ _)) by lia.
Qed.

Lemma key_cmp_run n comps r i : comps_in n comps → length r = n → length i = n →
  memcmp (kval comps r) (kval comps i) (length (kval comps i)) = lex_cmp (kval comps r) (kval comps i).
Proof.
  intros Hin Hr Hi. apply memcmp_full; [|done].
  pose proof (cmp_key_run n comps r Hin Hr). pose proof (cmp_key_run n comps i Hin Hi). lia.
Qed.

Section isam.
Context {W : Type} `{!Extfh W, !IsamFile W}.
Context (n : nat) (comps : list (Z * Z)) (Hin : comps_in n comps).
Notation kv := (kval comps).
Notation sized l := (Forall (λ r : bytes, length r = n) l).

(** The calls on other files. *)
Definition isam_kept (m : bytes) (w w' : W) : Prop :=
  (∀ m', isam_recs w' m' = isam_recs w m') ∧
  ∀ m', m' ≠ m → isam_rest w' m' = isam_rest w m' ∧ (isam_open w m' → isam_open w' m').

(** A file being read: the record area has the first of [l], the handler has the others. *)
Record isam_at (w : W) (m : bytes) (f : fcd_t) (l : list bytes) : Prop := {
  ia_name : fname f = m;
  ia_open : isam_open w m;
  ia_len : length (record f) = n;
  ia_here : match l with [] => is_ok f = false | r :: rest => is_ok f = true ∧ record f = r ∧ isam_rest w m = rest end;
}.

Lemma isam_at_kept w w' m m' f l : isam_kept m' w w' → m ≠ m' → isam_at w m f l → isam_at w' m f l.
Proof.
  intros [_ H] Hm [H1 H2 H3 H4]. destruct (H m Hm) as [Hr Ho]. split; auto. destruct l; [done|]. by rewrite Hr.
Qed.

Lemma next_at w m f l : fname f = m → isam_open w m → length (record f) = n → isam_rest w m = l → sized l →
  ∃ w' f', extfh OP_READ_NEXT f w = (w', inr f') ∧ same_file f f' ∧ isam_at w' m f' l ∧ isam_kept m w w'.
Proof.
  intros <- Ho Hl <- Hs. destruct (isam_next f w Ho) as (w' & f' & E & Hsame & Ho' & Hhere & Hr & Hk); [by rewrite Hl|].
  exists w', f'. split; [done|]. split; [done|]. split; [|done]. split; [apply Hsame|done|by rewrite (sf_rec _ _ Hsame)|].
  destruct (isam_rest w (fname f)); [|done]. unfold is_ok. by rewrite (proj1 Hhere).
Qed.

Lemma next_isam_at w m f r rest : isam_at w m f (r :: rest) → sized rest →
  ∃ w' f', extfh OP_READ_NEXT f w = (w', inr f') ∧ isam_at w' m f' rest ∧ isam_kept m w w'.
Proof.
  intros [H1 H2 H3 (H4 & H5 & H6)] Hs. destruct (next_at w m f rest H1 H2 H3 H6 Hs) as (w' & f' & E & _ & Hat & Hk).
  by exists w', f'.
Qed.

(** A start below every key and the first read. *)
Lemma start_at w m f recs : fname f = m → isam_open w m → isam_recs w m = Some recs → getshort (key_id f) = 0 →
  cmp_comps (kdb f) = Some comps → length (record f) = n → sized recs →
  Forall (λ r, lex_lt (kv (record f)) (kv r)) recs →
  ∃ w' f', extfh OP_START_GT f w = (w', inr f') ∧ same_file f f' ∧ isam_open w' m ∧ isam_rest w' m = recs ∧ isam_kept m w w'.
Proof.
  intros <- Ho Hr Hk Hc Hl Hs Hall. destruct (cmp_key_run n comps (record f) Hin Hl) as [Hkey _].
  destruct (isam_start f w recs comps _ Ho Hr Hk Hc Hkey) as (w' & f' & E & Hsame & Ho' & Hrest & Hkept).
  exists w', f'. split; [done|]. split; [done|]. split; [done|]. split; [|done]. rewrite Hrest.
  by apply filter_all.
Qed.

(** The lines of an entry of the log. *)
Definition isam_lines (e : entry) : bytes :=
  match e with Plus r => line "+" r | Minus r => line "-" r | Differ r i => line "<" i ++ line ">" r end.

Context (n1 n2 : bytes) (Hne : n1 ≠ n2).

Lemma isam_turn_run w log f1 f2 T I : T ≠ [] ∨ I ≠ [] → isam_at w n1 f1 T → isam_at w n2 f2 I → sized T → sized I →
  ∃ w' f1' f2' T' I' e, isam_turn comps (Z.of_nat n) f1 f2 (mk_cs tt w log) = (mk_cs tt w' (log ++ mjoin (isam_lines <$> e)), inr (f1', f2')) ∧
    isam_at w' n1 f1' T' ∧ isam_at w' n2 f2' I' ∧ sized T' ∧ sized I' ∧
    (length T' + length I' < length T + length I)%nat ∧ merge kv T I = e ++ merge kv T' I'.
Proof.
  intros Hsome H1 H2 HT HI.
  assert (∀ r rest, T = r :: rest → ∃ w' f1', (log_record "+" (Z.of_nat n) (record f1);; f1 ← on_isam (extfh OP_READ_NEXT f1); mret (f1, f2))
      (mk_cs tt w log) = (mk_cs tt w' (log ++ mjoin (isam_lines <$> [Plus r])), inr (f1', f2)) ∧ isam_at w' n1 f1' rest ∧ isam_at w' n2 f2 I) as Hplus.
  { intros r rest ->. apply Forall_cons in HT as [Hr HT]. destruct (next_isam_at _ _ _ _ _ H1 HT) as (w' & f1' & E & Hat & Hk).
    destruct H1 as [_ _ Hl (_ & Hrec & _)]. exists w', f1'. rewrite (bind_ok _ _ _ _ _ (log_record_run _ _ _ _ _ _ Hl)).
    rewrite (bind_ok _ _ _ _ _ (on_isam_run _ _ _ _ _ _ E)), Hrec. simpl. rewrite app_nil_r. split; [done|]. split; [done|]. by eapply isam_at_kept. }
  assert (∀ i rest, I = i :: rest → ∃ w' f2', (log_record "-" (Z.of_nat n) (record f2);; f2 ← on_isam (extfh OP_READ_NEXT f2); mret (f1, f2))
      (mk_cs tt w log) = (mk_cs tt w' (log ++ mjoin (isam_lines <$> [Minus i])), inr (f1, f2')) ∧ isam_at w' n1 f1 T ∧ isam_at w' n2 f2' rest) as Hminus.
  { intros i rest ->. apply Forall_cons in HI as [Hi HI]. destruct (next_isam_at _ _ _ _ _ H2 HI) as (w' & f2' & E & Hat & Hk).
    destruct H2 as [_ _ Hl (_ & Hrec & _)]. exists w', f2'. rewrite (bind_ok _ _ _ _ _ (log_record_run _ _ _ _ _ _ Hl)).
    rewrite (bind_ok _ _ _ _ _ (on_isam_run _ _ _ _ _ _ E)), Hrec. simpl. rewrite app_nil_r. split; [done|]. split; [|done]. by eapply isam_at_kept. }
  pose proof (ia_len _ _ _ _ H1) as L1. pose proof (ia_len _ _ _ _ H2) as L2.
  pose proof (ia_here _ _ _ _ H1) as A1. pose proof (ia_here _ _ _ _ H2) as A2. unfold isam_turn. cbv zeta.
  destruct T as [|r T], I as [|i I].
  - by destruct Hsome.
  - destruct A2 as [A2 _]. rewrite A1, A2. cbv iota beta. cbn [andb]. cbv iota.
    destruct (Hminus i I eq_refl) as (w' & f2' & E & G1 & G2). apply Forall_cons in HI as [_ HI].
    exists w', f1, f2', [], I, [Minus i]. split; [exact E|]. split_and!; try done. simpl. lia.
  - destruct A1 as [A1 _]. rewrite A1, A2. cbn [andb]. cbv iota.
    destruct (Hplus r T eq_refl) as (w' & f1' & E & G1 & G2). apply Forall_cons in HT as [_ HT].
    exists w', f1', f2, T, [], [Plus r]. split; [exact E|]. split_and!; try done; [simpl; lia|]. by destruct T.
  - pose proof HT as [_ HT']%Forall_cons. pose proof HI as [_ HI']%Forall_cons.
    destruct A1 as (A1 & R1 & _), A2 as (A2 & R2 & _). rewrite A1, A2. cbn [andb]. cbv iota.
    rewrite (proj1 (cmp_key_run n comps _ Hin L1)), (proj1 (cmp_key_run n comps _ Hin L2)). cbn [of_option]. rewrite !ret_bind.
    rewrite (key_cmp_run n) by done. rewrite R1, R2 in *. cbn [merge]. destruct (lex_cmp (kv r) (kv i)) eqn:Ek.
    + rewrite !sub_bytes_full by congruence. cbn [of_option]. rewrite !ret_bind. rewrite Nat2Z.id, memeq_full by congruence.
      destruct (next_isam_at _ _ _ _ _ H1 HT') as (w1 & f1' & E1 & G1 & K1).
      destruct (next_isam_at _ _ _ _ _ (isam_at_kept _ _ _ _ _ _ K1 (not_eq_sym Hne) H2) HI') as (w2 & f2' & E2 & G2 & K2).
      set (e := if decide (r = i) then [] else [Differ r i]). exists w2, f1', f2', T, I, e.
      split.
      { erewrite (bind_ok _ _ _ (mk_cs tt w (log ++ mjoin (isam_lines <$> e)))).
        - erewrite bind_ok by (apply on_isam_run; exact E1). erewrite bind_ok by (apply on_isam_run; exact E2). done.
        - subst e. case_bool_decide; [rewrite decide_True by done; simpl; by rewrite app_nil_r|]. rewrite decide_False by done.
          erewrite bind_ok by (apply log_record_run; congruence). rewrite log_record_run by congruence. simpl.
          rewrite app_nil_r. by rewrite <-app_assoc. }
      split; [by eapply isam_at_kept|]. split; [done|]. split_and!; try done; [simpl; lia|]. subst e. by destruct (decide _).
    + destruct (Hplus r T eq_refl) as (w' & f1' & E & G1 & G2).
      exists w', f1', f2, T, (i :: I), [Plus r]. split; [exact E|]. split_and!; try done. simpl. lia.
    + destruct (Hminus i I eq_refl) as (w' & f2' & E & G1 & G2).
      exists w', f1, f2', (r :: T), I, [Minus i]. split; [exact E|]. split_and!; try done. simpl. lia.
Qed.

Lemma isam_loop_run fuel w log f1 f2 T I : (length T + length I < fuel)%nat →
  isam_at w n1 f1 T → isam_at w n2 f2 I → sized T → sized I →
  ∃ w' f, isam_loop fuel comps (Z.of_nat n) f1 f2 (mk_cs tt w log) = (mk_cs tt w' (log ++ mjoin (isam_lines <$> merge kv T I)), inr f).
Proof.
  revert w log f1 f2 T I. induction fuel as [|fuel IH]; intros w log f1 f2 T I Hf H1 H2 HT HI; [lia|]. cbn [isam_loop].
  assert ((is_ok f1 || is_ok f2) = negb (bool_decide (T = [] ∧ I = []))) as ->.
  { pose proof (ia_here _ _ _ _ H1) as A1. pose proof (ia_here _ _ _ _ H2) as A2.
    destruct T; [|by rewrite (proj1 A1)]. rewrite A1. destruct I; [by rewrite A2|by rewrite (proj1 A2)]. }
  case_bool_decide as Hend; cbn [negb].
  - destruct Hend as [-> ->]. exists w, f1. simpl. by rewrite app_nil_r.
  - destruct (isam_turn_run w log f1 f2 T I) as (w1 & f1' & f2' & T' & I' & e & E & G1 & G2 & HT' & HI' & Hlt & Hm); try done.
    { destruct T; [right|by left]. intros ->. by apply Hend. }
    rewrite (bind_ok _ _ _ _ _ E). cbn [fst snd].
    destruct (IH w1 (log ++ mjoin (isam_lines <$> e)) f1' f2' T' I') as (w' & f & E'); try done; [lia|].
    exists w', f. rewrite E', Hm. by rewrite fmap_app, join_app, app_assoc.
Qed.

(** A file whose records are in order and above the key of a cleared area. *)
Record isam_file (w : W) (m : bytes) (recs : list bytes) : Prop := {
  if_recs : isam_recs w m = Some recs;
  if_sized : sized recs;
  if_order : in_order kv recs;
  if_above : Forall (λ r, lex_lt (kv (replicate n 0)) (kv r)) recs;
}.

Lemma clear_record_run f : length (record f) = n → record (clear_record (Z.of_nat n) f) = replicate n 0.
Proof.
  intros H. unfold clear_record. cbn [record set_rec]. rewrite Nat2Z.id. unfold blit. simpl. rewrite length_replicate.
  rewrite drop_ge by lia. by rewrite app_nil_r.
Qed.

(** The file being opened, started and read for the first time. *)
Lemma clear_start_at w f recs : isam_file w (fname f) recs → isam_open w (fname f) → getshort (key_id f) = 0 →
  cmp_comps (kdb f) = Some comps → length (record f) = n →
  ∃ w' f', extfh OP_START_GT (clear_record (Z.of_nat n) f) w = (w', inr f') ∧ fname f' = fname f ∧ length (record f') = n ∧
    isam_open w' (fname f) ∧ isam_rest w' (fname f) = recs ∧ isam_kept (fname f) w w'.
Proof.
  intros [Hr Hs Ho Ha] Hopen Hk Hc Hl. pose proof (clear_record_run f Hl) as Hclear.
  destruct (start_at w (fname f) (clear_record (Z.of_nat n) f) recs) as (w' & f' & E & Hsame & Ho' & Hrest & Hkept); try done.
  - by rewrite Hclear, length_replicate.
  - by rewrite Hclear.
  - exists w', f'. split; [done|]. split; [apply Hsame|]. split; [|done]. rewrite (sf_rec _ _ Hsame), Hclear.
    by rewrite length_replicate.
Qed.

End isam.

(** A call of the comparison of two ISAM files: the first is open, the names fit the
    buffers, and the record has [n] bytes. *)
Record isam_call (n : nat) (mode : Z) (record1 record2 : bytes) (fcd : fcd_t) (filename2 : bytes) : Prop := {
  ic_isam : isam fcd = ch "S" ∨ mode = ch "I";
  ic_len : getshort (rec_len fcd) = Z.of_nat n;
  ic_max : Z.of_nat n <= MAX_REC_LEN;
  ic_name : getshort (file_name_len fcd) <= 256 ∧ getshort (file_name_len fcd) <= Z.of_nat (length (file_name fcd)) ∧
    0 <= getshort (file_name_len fcd);
  ic_log : (length (cmp_logname (cut (cstr (fname fcd)) (ch " "))) ≤ 256)%nat;
  ic_key : getshort (key_id fcd) = 0;
  ic_record1 : length record1 = n;
  ic_record2 : length record2 = n;
  ic_name2 : Z.of_nat (length filename2) < 2 ^ 16;
  ic_ne : fname fcd ≠ filename2;
}.

Lemma fname_put f m : Z.of_nat (length m) < 2 ^ 16 → fname (set_file_name_len (putshort (Z.of_nat (length m))) (set_file_name m f)) = m.
Proof.
  intros H. unfold fname. cbn [file_name file_name_len set_file_name_len set_file_name].
  pose proof (getshort_putshort (Z.of_nat (length m)) [] ltac:(lia)) as E. rewrite app_nil_r in E. rewrite E, Nat2Z.id.
  by apply take_ge.
Qed.

Lemma short_len n : Z.of_nat n <= MAX_REC_LEN → s16 (Z.of_nat n) = Z.of_nat n ∧ ((0 <=? Z.of_nat n) && (Z.of_nat n <=? MAX_REC_LEN)) = true.
Proof.
  unfold MAX_REC_LEN. intros H. split.
  - unfold s16. rewrite u16_id by lia. by rewrite (proj2 (Z.ltb_lt _ _)) by lia.
  - rewrite !(proj2 (Z.leb_le _ _)) by lia. done.
Qed.

(** C14: The comparison of two ISAM files ends and leaves in its log exactly their
    differences in the order of the key: a line for each record of only one of the files and
    two for each pair of records of one key that differ. *)
Theorem cmp_isam_correct {W : Type} `{!Extfh W, !IsamFile W} n comps fuel mode record1 record2 fcd filename2 (w : W) log recs1 recs2 :
  isam_call n mode record1 record2 fcd filename2 → cmp_comps (kdb fcd) = Some comps → comps_in n comps →
  isam_open w (fname fcd) → isam_file n comps w (fname fcd) recs1 → isam_file n comps w filename2 recs2 →
  (length recs1 + length recs2 < fuel)%nat →
  ∃ w' f es, cmp_isam fuel mode true record1 record2 (Some fcd) filename2 (mk_cs tt w log) =
      (mk_cs tt w' (mjoin (isam_lines <$> es)), inr (Some f)) ∧ differences (kval comps) recs1 recs2 es.
Proof.
  intros [Hi Hlen Hmax (Hn1 & Hn2 & Hn3) Hlog Hkey L1 L2 Hf2 Hne] Hc Hin Hopen F1 F2 Hfuel. unfold cmp_isam.
  assert (negb (isam fcd =? ch "S") && negb (mode =? ch "I") = false) as ->.
  { destruct Hi as [-> | ->]; [done|]. rewrite Z.eqb_refl. apply andb_false_r. }
  cbv zeta. cbn [file_name_len file_name set_ignore_lock rec_len].
  rewrite (proj2 (Z.leb_le _ _) Hn1). cbn [guard_fault]. rewrite ret_bind.
  assert (sub_bytes (file_name fcd) 0 (getshort (file_name_len fcd)) = Some (fname fcd)) as ->.
  { unfold sub_bytes. rewrite !(proj2 (Z.leb_le _ _)) by lia. done. }
  cbn [of_option]. rewrite ret_bind. rewrite (proj2 (Nat.leb_le _ _) Hlog). cbn [guard_fault negb]. rewrite ret_bind.
  rewrite (bind_ok _ _ _ _ _ (modify_run _ _)). cbn [c_first c_isam].
  rewrite Hlen. destruct (short_len n Hmax) as [-> ->]. cbn [guard_fault]. rewrite ret_bind.
  set (f1 := set_rec record1 _). set (f2 := set_rec record2 _).
  assert (fname f1 = fname fcd) as N1 by done. assert (fname f2 = filename2) as N2 by exact (fname_put _ _ Hf2).
  destruct (isam_open_input f2 w recs2 eq_refl) as (w1 & g2 & E1 & Hsame & _ & Ho2 & Hr1 & Hk1); [rewrite N2; apply F2|].
  erewrite bind_ok by (apply on_isam_run; exact E1). change (kdb f1) with (kdb fcd). rewrite Hc. cbn [of_option]. rewrite ret_bind.
  rewrite N2 in *. destruct (Hk1 (fname fcd) Hne) as [_ Ho1].
  assert (isam_file n comps w1 (fname f1) recs1) as F1' by (destruct F1; split; try done; by rewrite Hr1).
  destruct (clear_start_at n comps Hin w1 f1 recs1 F1' (Ho1 Hopen) Hkey Hc L1) as (w2 & g1 & E2 & M1 & Lg1 & Og1 & Rg1 & K1).
  erewrite bind_ok by (apply on_isam_run; exact E2). destruct K1 as [Kr1 Kk1].
  assert (filename2 ≠ fname f1) as Hne' by by apply not_eq_sym. destruct (Kk1 _ Hne') as [_ Ho2'].
  assert (fname g2 = filename2) as Ng2 by (by rewrite (sf_name _ _ Hsame)).
  assert (isam_file n comps w2 (fname g2) recs2) as F2' by (rewrite Ng2; destruct F2; split; try done; by rewrite Kr1, Hr1).
  destruct (clear_start_at n comps Hin w2 g2 recs2 F2') as (w3 & h2 & E3 & M2 & Lh2 & Oh2 & Rh2 & K2).
  { rewrite Ng2. auto. } { by rewrite (sf_key _ _ Hsame). } { by rewrite (sf_kdb _ _ Hsame). } { by rewrite (sf_rec _ _ Hsame). }
  erewrite bind_ok by (apply on_isam_run; exact E3). rewrite Ng2 in *. destruct K2 as [Kr2 Kk2].
  destruct (Kk2 (fname fcd) Hne) as [Hr3 Ho3].
  destruct (next_at n w3 (fname fcd) g1 recs1 M1 (Ho3 Og1)) as (w4 & k1 & E4 & _ & A1 & K4); [done|by rewrite Hr3|apply F1|].
  erewrite bind_ok by (apply on_isam_run; exact E4). destruct K4 as [_ Kk4]. destruct (Kk4 filename2 Hne') as [Hr4 Ho4].
  destruct (next_at n w4 filename2 h2 recs2 M2 (Ho4 Oh2)) as (w5 & k2 & E5 & _ & A2 & K5); [done|by rewrite Hr4|apply F2|].
  erewrite bind_ok by (apply on_isam_run; exact E5).
  destruct (isam_loop_run n comps Hin (fname fcd) filename2 Hne fuel w5 [] k1 k2 recs1 recs2) as (w6 & f & E6); try done.
  { by eapply isam_at_kept. } { apply F1. } { apply F2. }
  exists w6, f, (merge (kval comps) recs1 recs2).
  rewrite (bind_ok _ _ _ _ _ E6). split; [done|]. apply merge_differences; [apply F1|apply F2].
Qed.
