(* ===== verification/CmpSpec.v ===== *)
(** The comparison of a table with its ISAM file: the log lists their differences, and after
    the repair the table has the records of the file. *)

From stdpp Require Import prelude gmap strings sorting.
From S2P Require Import Prelude Fhtypes Fcd Table Kdb Libpq DbRead DbWrite Sql DbRows DbSession DbSpec Cursor CursorSpec CursorScan Merge Cmp CmpIsam.
Local Open Scope Z_scope.

Lemma holds_ge r : holds (bs ">=") r = true ↔ r ≠ Lt.
Proof. by destruct r; vm_compute. Qed.

Lemma lexc_not_lt l : Forall (λ x, x ≠ Lt) l → lexc l ≠ Lt.
Proof. induction 1 as [|x l Hx _ IH]; [done|]. by destruct x. Qed.

Lemma join_inj (l l' : list bytes) : Forall2 (λ a b, length a = length b) l l' → mjoin l = mjoin l' → l = l'.
Proof.
  induction 1 as [|a b l l' Hab _ IH]; [done|]. change (mjoin (a :: l)) with (a ++ mjoin l). change (mjoin (b :: l')) with (b ++ mjoin l').
  intros [-> H]%app_inj_1; [|done]. by rewrite (IH H).
Qed.

Section spec.
Context {D : Type} `{!Libpq D} `{!DbCalls D} (log_ok : bool).
Context {schema name : bytes} {cols : list column_t} {keys : list key_t}.
Context `{P : !PgTable D schema name cols keys} `{C : !PgCursor D schema name cols keys} (ts : bytes).
Context (Hwf : file_wf (schema:=schema) (name:=name) (cols:=cols) (keys:=keys) ts).
Context (Hword : 32 ∉ name ∧ 32 ∉ ts).
Context (comps : list (Z * Z)) (ixss : list (list nat)).
Context (Hlay : key_layout cols comps ixss) (Hpk : pk_ixs keys = mjoin ixss).

Notation sess_ok := (sess_ok (PgTable0:=P) ts).
Notation call_ok := (call_ok (cols:=cols)).
Notation wf_rec := (wf_rec (cols:=cols) (keys:=keys)).
Notation pk_cols := (pk_cols (cols:=cols) (keys:=keys)).
Notation rows_ok := (rows_ok (P:=P)).
Notation kv := (kval comps).
Notation len := (cols_len cols).
Notation nuls := (replicate len 0).

(** ** The keys *)

Lemma key_in : comps_in len comps.
Proof.
  destruct Hlay as (Hall & _ & Hsum). split; [|exact Hsum]. clear Hpk Hsum Hlay. induction Hall as [|comp ixs cs ixss' (i & n & Hc & _) _ IH]; [constructor|].
  constructor; [|exact IH]. destruct Hc as (_ & Hle & -> & ->). split; [lia|]. split; [lia|].
  assert (cols_len cols = cols_len (take i cols) + (cols_len (take n (drop i cols)) + cols_len (drop n (drop i cols))))%nat as E.
  { rewrite <-(take_drop i cols) at 1. rewrite <-(take_drop n (drop i cols)) at 1. unfold cols_len. by rewrite !sum_list_with_app. }
  lia.
Qed.

Lemma kval_fields r : length r = len → kv r = mjoin (fields pk_cols r).
Proof.
  intros Hr. destruct (pk_run ts Hwf) as (key & Hk & Hin & Hpc & _).
  pose proof (key_bytes_run ts Hwf cols key r eq_refl Hin Hr) as E1. rewrite <-Hpc in E1.
  assert (k_columns key = mjoin ixss) as Hcols by (rewrite <-Hpk; symmetry; by apply pk_ixs_key).
  rewrite Hcols, (key_bytes_at cols r comps ixss (fw_layout ts Hwf) ltac:(lia) Hlay) in E1. injection E1 as <-.
  destruct (cmp_key_run _ _ r key_in Hr) as [E _]. unfold cmp_key in E.
  assert (mapM (λ comp, sub_bytes r (fst comp) (snd comp)) comps = Some (comp_val r <$> comps)) as Em.
  { apply mapM_Some_2. destruct key_in as [H _]. clear -H Hr. induction H as [|c cs (H1 & H2 & H3) _ IH]; constructor; [|exact IH].
    unfold sub_bytes. by rewrite !(proj2 (Z.leb_le _ _)) by lia. }
  rewrite Em in E. cbn [mbind option_bind] in E. destruct (_ <=? 256)%nat; [|done]. by injection E.
Qed.

(** Areas with the fields of the key. *)
Lemma kval_key r r' : length r = len → length r' = len → key_ok pk_cols r → key_ok pk_cols r' →
  kv r = kv r' ↔ fields pk_cols r = fields pk_cols r'.
Proof.
  intros Lr Lr' Hr Hr'. rewrite !kval_fields by done. split; [|by intros ->]. apply join_inj.
  unfold fields. apply Forall2_fmap, Forall_Forall2_diag, Forall_forall. intros c Hc. unfold compose.
  by rewrite (proj1 (proj1 (Hr c Hc))), (proj1 (proj1 (Hr' c Hc))).
Qed.

Lemma kval_eq r r' : wf_rec r → wf_rec r' → kv r = kv r' ↔ fields pk_cols r = fields pk_cols r'.
Proof.
  intros Hr Hr'. destruct (pk_run ts Hwf) as (_ & _ & _ & _ & _ & _ & Hpok).
  apply kval_key; [apply Hr|apply Hr'|by apply Hpok|by apply Hpok].
Qed.

Lemma kval_notin r l : wf_rec r → Forall wf_rec l → kv r ∉ kv <$> l → ∀ x, x ∈ l → fields pk_cols x ≠ fields pk_cols r.
Proof.
  intros Hr Hl Hn x Hx E. rewrite Forall_forall in Hl. apply Hn. apply list_elem_of_fmap. exists x. split; [|done].
  symmetry. apply kval_eq; auto.
Qed.

(** ** The scan of the whole table *)

(** The server compares the keys of these records as the program does. *)
Definition by_bytes (recs : list bytes) : Prop :=
  ∀ r r', r ∈ recs → r' ∈ recs → key_cmp (PgCursor0:=C) pk_cols r r' = lex_cmp (kv r) (kv r').

Context (Hdec : ∀ c, c ∈ pk_cols → is_num c = true → col_dec c = 0%nat).

Lemma field_nuls c : c ∈ cols → field_at nuls c = replicate (col_len c) 0.
Proof.
  intros Hc. pose proof (field_rec ts Hwf c nuls Hc (length_replicate _ _)) as H. unfold rec_bytes in H.
  destruct (_ <=? _)%nat eqn:E; [|done]. apply Nat.leb_le in E. rewrite length_replicate in E.
  unfold field_at. rewrite drop_replicate, take_replicate. f_equal. lia.
Qed.

Lemma pk_in c : c ∈ pk_cols → c ∈ cols.
Proof. destruct (pk_run ts Hwf) as (_ & _ & _ & _ & _ & Hc & _). rewrite Forall_forall in Hc. apply Hc. Qed.

Lemma nuls_area : start_area pk_cols nuls.
Proof. intros c Hc. right. split; [apply field_nuls; by apply pk_in|by apply Hdec]. Qed.

Lemma starts_nuls r : wf_rec r → starts (PgCursor0:=C) (bs ">=") pk_cols nuls r.
Proof.
  intros Hr. unfold starts. apply holds_ge. unfold start_cmp. apply lexc_not_lt, Forall_fmap, Forall_forall. intros c Hcp.
  unfold compose. pose proof (pk_in c Hcp) as Hc. destruct (pk_run ts Hwf) as (_ & _ & _ & _ & _ & _ & Hok).
  destruct (Hok r Hr c Hcp) as [Hf Hd]. destruct (col_sizes ts Hwf c Hc) as [Hs _].
  unfold start_value, start_text. cbv zeta. rewrite (field_nuls c Hc), cstr_nuls. unfold kept_value. destruct (is_num c) eqn:Hn.
  - assert ((byte_at (replicate (col_len c) 0) 0 =? 0) = true) as -> by (destruct (col_len c); [lia|done]).
    destruct (zeros_wf c ltac:(lia) Hn (Hdec c Hcp Hn)) as [Hz Ez]. pose proof (canon_some c _ Hc Hz) as E0. rewrite Ez in E0.
    eapply pg_cmp_zero; [done|done|by apply Hdec|exact Hf|by apply Hd|by apply canon_some|exact E0].
  - destruct (pg_cmp_empty c Hc Hn) as (v0 & E0 & Hv). rewrite E0. apply (Hv (field_at r c)); [done|by apply canon_some].
Qed.

(** A scan from the start gives every record, in the order of the keys. *)
Lemma scan_all recs out : Forall wf_rec recs → NoDup (fields pk_cols <$> recs) → by_bytes recs →
  scan_of (C:=C) (bs ">=") pk_cols nuls recs out → out ≡ₚ recs ∧ in_order kv out.
Proof.
  intros Hw Hn Hb [Hp Hs]. rewrite Forall_forall in Hw.
  assert (filter (starts (PgCursor0:=C) (bs ">=") pk_cols nuls) recs = recs) as Hall.
  { apply filter_all, Forall_forall. intros r Hr. apply starts_nuls. by apply Hw. }
  rewrite Hall in Hp. split; [done|].
  assert (NoDup (fields pk_cols <$> out)) as Hn' by (by rewrite Hp).
  assert (∀ r, r ∈ out → r ∈ recs) as Hsub by (intros r; by rewrite Hp). clear Hp Hall Hn.
  induction Hs as [|r out Hs IH Hr]; [constructor|]. rewrite fmap_cons in Hn'. apply NoDup_cons in Hn' as [Hnr Hn'].
  apply in_order_cons. split; [|apply IH; [done|]; intros x Hx; apply Hsub; by right].
  rewrite Forall_forall in *. intros x Hx. specialize (Hr x Hx). unfold before in Hr.
  change (descending (bs ">=")) with false in Hr. cbv iota in Hr.
  assert (r ∈ recs) as Hrr by (apply Hsub; by left). assert (x ∈ recs) as Hxr by (apply Hsub; by right).
  rewrite (Hb r x Hrr Hxr) in Hr. unfold lex_lt. destruct (lex_cmp (kv r) (kv x)) eqn:E; [|done|done].
  exfalso. apply Hnr. apply lex_cmp_eq, kval_eq in E; [|auto|auto]. rewrite E. by apply list_elem_of_fmap_2.
Qed.

(** ** The two records of one key *)

Context (Htp : Forall (λ c, col_tp c = ch "n" ∨ col_tp c = ch "s") cols).

Lemma isam_field_id c f : col_tp c = ch "n" ∨ col_tp c = ch "s" → wf_field c f → isam_field c f = f.
Proof.
  intros Ht [_ Hf]. unfold isam_field. rewrite <-(list_fmap_id f) at 2. apply list_fmap_ext. intros i x Hx.
  apply list_elem_of_lookup_2 in Hx. unfold is_num in Hf. destruct Ht as [Ht|Ht]; rewrite Ht in *.
  - change (ch "n" =? ch "n") with true in Hf. change (ch "n" =? ch "s") with false. cbv iota in *.
    destruct Hf as (_ & ds & b & Hds & Hb & Hf).
    assert (isdigit x = true ∨ x = Z.lor b 64) as H.
    { destruct Hf as [->|[-> _]]; rewrite elem_of_app, list_elem_of_singleton in Hx; destruct Hx as [Hx| ->]; auto. }
    destruct (digit_sign b Hb) as (_ & _ & _ & Hl & _). destruct H as [H|H].
    + apply isdigit_range in H. rewrite !(proj2 (Z.eqb_neq _ _)) by lia. done.
    + subst x. rewrite (proj2 (Z.eqb_neq _ _)) by done. destruct (Z.eqb_spec (Z.lor b 64) 32) as [E|]; [|done].
      exfalso. destruct (digit_cases b Hb) as [->|[->|[->|[->|[->|[->|[->|[->|[->| ->]]]]]]]]]; by vm_compute in E.
  - change (ch "s" =? ch "n") with false in Hf. change (ch "s" =? ch "s") with true. cbv iota in *.
    destruct (Z.eqb_spec x 0) as [->|]; done.
Qed.

(** The comparison of two well-formed records finds whether they are equal. *)
Lemma reccmp_fields cs r i : Forall (λ c, c ∈ cols) cs → wf_rec r → wf_rec i →
  ∃ c, reccmp cs r i = Some c ∧ (c = Eq ↔ fields cs r = fields cs i).
Proof.
  intros Hcs Hr Hi. pose proof Htp as Ht. rewrite Forall_forall in Ht. induction Hcs as [|c cs Hc _ IH]; [by exists Eq|].
  destruct IH as (x & E & Hx). cbn [reccmp]. rewrite (field_rec ts Hwf c r Hc (wr_len _ Hr)), (field_rec ts Hwf c i Hc (wr_len _ Hi)).
  cbn [mbind option_bind]. rewrite (isam_field_id c) by (by (apply Ht || apply (wr_fields _ Hi))).
  assert (length (field_at r c) = col_len c) as L1 by apply (wr_fields _ Hr c Hc).
  assert (length (field_at i c) = col_len c) as L2 by apply (wr_fields _ Hi c Hc).
  rewrite memcmp_full by done. unfold fields in *. rewrite !fmap_cons. destruct (lex_cmp (field_at i c) (field_at r c)) eqn:El.
  - apply lex_cmp_eq in El. rewrite El. exists x. split; [done|]. rewrite Hx. split; [by intros ->|by intros [= ?]].
  - exists Lt. split; [done|]. split; [done|]. intros [= H _]. rewrite H, lex_cmp_refl in El. done.
  - exists Gt. split; [done|]. split; [done|]. intros [= H _]. rewrite H, lex_cmp_refl in El. done.
Qed.

Lemma fields_all r : length r = len → mjoin (fields cols r) = r.
Proof.
  intros Hr. destruct (seq_bytes cols r 0 (length cols) (fw_layout ts Hwf) ltac:(lia) ltac:(lia)) as (bs1 & Hm & Hj).
  assert (mapM (λ i, c ← cols !! i; rec_bytes r (col_offset c) (col_len c)) (seq 0 (length cols)) = Some (fields cols r)) as E.
  { apply mapM_Some_2. unfold fields. apply Forall2_fmap_r. apply Forall2_same_length_lookup. split; [apply length_seq|].
    intros j x c Hj' Hc. apply lookup_seq in Hj' as [-> _]. cbn [Nat.add]. rewrite Hc. cbn [mbind option_bind].
    apply (field_rec ts Hwf); [by eapply list_elem_of_lookup_2|done]. }
  rewrite E in Hm. injection Hm as <-. rewrite Hj. change (take 0 cols) with (@nil column_t). rewrite drop_0, firstn_all.
  change (cols_len []) with 0%nat. rewrite drop_0. apply take_ge. lia.
Qed.

Lemma reccmp_run cols' r i : same_cols cols cols' → wf_rec r → wf_rec i →
  ∃ c, reccmp cols' r i = Some c ∧ (c = Eq ↔ r = i).
Proof.
  intros Hs Hr Hi. assert (reccmp cols' r i = reccmp cols r i) as ->.
  { unfold same_cols in Hs. revert cols' Hs. clear. induction cols as [|c cs IH]; intros [|c' cols'] Hs; try done.
    rewrite !fmap_cons in Hs. assert (set_p 0 c = set_p 0 c' ∧ set_p 0 <$> cs = set_p 0 <$> cols') as [H1 H2] by (split; congruence).
    apply (eq_sym (x:=set_p 0 c)), set_p_of in H1. rewrite H1. cbn [reccmp]. rewrite (IH _ H2). done. }
  destruct (reccmp_fields cols r i (cols_self (cols:=cols)) Hr Hi) as (c & E & Hc). exists c. split; [done|]. rewrite Hc.
  split; [|by intros ->]. intros H. by rewrite <-(fields_all r (wr_len _ Hr)), H, (fields_all i (wr_len _ Hi)).
Qed.

End spec.
