(* ===== verification/CmpTable.v ===== *)
(** The comparison of a table with its ISAM file, run on a session. *)

From stdpp Require Import prelude gmap strings sorting.
From S2P Require Import Prelude Fhtypes Fcd Table Kdb Libpq DbRead DbWrite Sql DbRows DbSession DbSpec Cursor CursorSpec CursorScan Merge Cmp CmpIsam CmpSpec.
Local Open Scope Z_scope.

Section table.
Context {D : Type} `{!Libpq D} `{!DbCalls D} {W : Type} `{!Extfh W, !IsamFile W} (log_ok : bool).
Context {schema name : bytes} {cols : list column_t} {keys : list key_t}.
Context `{P : !PgTable D schema name cols keys} `{C : !PgCursor D schema name cols keys} (ts : bytes).
Context (Hwf : file_wf (schema:=schema) (name:=name) (cols:=cols) (keys:=keys) ts).
Context (Hword : 32 ∉ name ∧ 32 ∉ ts).
Context (comps : list (Z * Z)) (ixss : list (list nat)).
Context (Hlay : key_layout cols comps ixss) (Hpk : pk_ixs keys = mjoin ixss).

Notation pk_cols := (pk_cols (cols:=cols) (keys:=keys)).
Context (Hdec : ∀ c, c ∈ pk_cols → is_num c = true → col_dec c = 0%nat).
Context (Htp : Forall (λ c, col_tp c = ch "n" ∨ col_tp c = ch "s") cols).

Notation sess_ok := (sess_ok (PgTable0:=P) ts).
Notation call_ok := (call_ok (cols:=cols)).
Notation wf_rec := (wf_rec (cols:=cols) (keys:=keys)).
Notation rows_ok := (rows_ok (P:=P)).
Notation file_ok := (file_ok (P:=P) ts).
Notation frame := (frame (PgTable0:=P)).
Notation at_rest := (at_rest (P:=P) ts).
Notation kv := (kval comps).
Notation len := (cols_len cols).
Notation nuls := (replicate len 0).
Notation below k l := (Forall (λ x, lex_lt k (kv x)) l).

(** ** The table being read *)

Record bd_call (fcd : fcd_t) (a : Z) : Prop := {
  bc_call : call_ok fcd a;
  bc_key : getshort (key_id fcd) = 0;
}.

Lemma bd_call_rec fcd a st r : bd_call fcd a → length r = len → bd_call (set_status st (set_rec r fcd)) a.
Proof. intros [[] Hk] Hr. by split; [split|]. Qed.

Lemma bd_call_status fcd a st : bd_call fcd a → bd_call (set_status st fcd) a.
Proof. intros [[] Hk]. by split; [split|]. Qed.

Lemma bd_call_answer fcd a st r : bd_call fcd a → length r = len → bd_call (answer st r fcd) a.
Proof. intros [[] Hk] Hr. split; [by split|]. unfold answer. cbn [key_id set_key_id]. by rewrite Hk. Qed.

(** The record area has the first record of [l], the cursor the others. *)
Record bd_at (s : dbs D) (a : Z) (bd : fcd_t) (l : list bytes) : Prop := {
  ba_call : bd_call bd a;
  ba_here : match l with [] => is_ok bd = false | r :: _ => is_ok bd = true ∧ record bd = r end;
  ba_rest : ∃ t, at_rest false s a t (tail l);
  ba_wf : Forall wf_rec l;
}.

Lemma at_rest_frame s s' a t rest : at_rest false s a t rest → frame a s s' → (∃ t', sess_ok s' a t') →
  ∃ t', at_rest false s' a t' rest.
Proof.
  intros [Hs Hcur Hw Hre Hfi Heof] (Hc & (G1 & _) & t0 & t1 & T0 & T1 & (S1 & S2 & S3 & S4)) [t' Hs'].
  destruct Hs as (Ha & _). assert (t0 = t) as -> by congruence. assert (t' = t1) as -> by (destruct Hs' as (Ha' & _); congruence).
  exists t1. split; [done|by rewrite Hc|done|auto|congruence|congruence].
Qed.

(** What an operation leaves: the status and the record area are put back. *)
Lemma bd_at_frame s s' a bd bd' recs l : bd_at s a bd l → frame a s s' → file_ok s' a recs → bd_call bd' a →
  status bd' = status bd → record bd' = record bd → bd_at s' a bd' l.
Proof.
  intros [H1 H2 [t H3] H4] Hf [Hs _] Hc Es Er. split; [done| |by eapply at_rest_frame|done].
  unfold is_ok in *. rewrite Es, Er. done.
Qed.

Notation cs := (cmp_st (dbs D) W).

Lemma next_bd_run s (w : W) log a bd r rest : bd_at s a bd (r :: rest) →
  ∃ s' f, next_bd bd (mk_cs s w log) = (mk_cs s' w log, inr (f, status f)) ∧ bd_at s' a f rest ∧
    pg_rows (conn s') = pg_rows (conn s).
Proof.
  intros [[Hcall Hkey] _ [t Har] Hw]. destruct (pk_run ts Hwf) as (key & Hk & _). apply Forall_cons in Hw as [_ Hw].
  destruct (op_next_prev_run ts Hwf Hword s a t rest (ch "n") bd 0 key Har Hcall Hkey Hk ltac:(by left)) as (s' & t' & E & Har' & _ & Hr & _).
  exists s'. eexists. unfold next_bd. rewrite (bind_ok _ _ _ _ _ (on_first_run _ _ _ _ _ _ E)). split; [done|]. split; [|done].
  split; [| |by exists t'|done].
  - destruct rest as [|x rest]; [by apply bd_call_status|]. apply bd_call_rec; [done|]. apply Forall_cons in Hw as [Hx _]. apply (wr_len _ Hx).
  - by destruct rest.
Qed.

(** The part of a turn that writes the record of the ISAM file. *)
Lemma with_isam_run op s s' (w : W) log a bd isam st0 g b recs l : bd_at s a bd l → l ≠ [] ∨ length (record bd) = len →
  length (record isam) = len → op (set_rec (record isam) bd) s = (s', inr (g, b)) → g = answer st0 (record g) (set_rec (record isam) bd) →
  length (record g) = len → frame a s s' → file_ok s' a recs →
  ∃ bd', with_isam op (Z.of_nat len) (status bd) bd isam (mk_cs s w log) = (mk_cs s' w log, inr bd') ∧ bd_at s' a bd' l ∧
    status bd' = status bd.
Proof.
  intros Hbd _ Hi E Hg Hlg Hfr Hok. pose proof (ba_call _ _ _ _ Hbd) as Hc. pose proof (co_rec _ _ (bc_call _ _ Hc)) as Hl.
  assert (∀ r : bytes, length r = len → sub_bytes r 0 (Z.of_nat len) = Some r) as Hsub.
  { intros r Hr. by rewrite sub_bytes_full by by rewrite Hr. }
  assert (∀ S (r : bytes) (f : fcd_t) (x : S), length r = len → length (record f) = len →
    put_rec (Z.of_nat len) r f x = (x, inr (set_rec r f))) as Hput.
  { intros S r f x Hr Hf. unfold put_rec. rewrite (Hsub r Hr). cbn [of_option]. rewrite ret_bind, Hf, (proj2 (Z.leb_le _ _)) by lia.
    cbn [guard_fault]. rewrite ret_bind, blit_full by congruence. done. }
  unfold with_isam. rewrite (Hsub _ Hl). cbn [of_option]. rewrite ret_bind, (bind_ok _ _ _ _ _ (Hput _ _ _ _ Hi Hl)).
  erewrite bind_ok by (apply on_first_run; exact E). cbn [fst]. rewrite Hput by done.
  eexists. split; [done|]. split; [|done]. eapply bd_at_frame; [done|done|done| |done|done].
  rewrite Hg. destruct Hc as [[] Hk]. split; [by split|]. unfold answer. cbn [key_id set_rec set_status set_key_id]. by rewrite Hk.
Qed.

(** ** The turns of the loop *)

(** The lines of an entry of the log. *)
Definition table_lines (e : entry) : bytes :=
  match e with Plus r => line "+" r | Minus r => line "-" r | Differ r i => line ">" r ++ line "<" i end.

Context (sync : bool) (a : Z) (m : bytes).

(** The state of the loop: [T] and [I] are still to compare, [cur] is in the table. *)
Record cmp_inv (s : dbs D) (w : W) (bd isam : fcd_t) (T I done cur : list bytes) : Prop := {
  ci_bd : bd_at s a bd T;
  ci_isam : isam_at len w m isam I;
  ci_rows : rows_ok (conn s) cur;
  ci_T : in_order kv T;
  ci_I : in_order kv I;
  ci_wf : Forall wf_rec I;
  ci_cur : sync = true → cur ≡ₚ done ++ T;
  ci_done : ∀ d x, d ∈ done → x ∈ T ++ I → lex_lt (kv d) (kv x);
}.

Lemma sized_wf l : Forall wf_rec l → Forall (λ r, length r = len) l.
Proof. intros H. eapply Forall_impl; [exact H|]. intros r Hr. apply (wr_len _ Hr). Qed.

Lemma ci_file s w bd isam T I done cur : cmp_inv s w bd isam T I done cur → file_ok s a cur.
Proof. intros H. destruct (ba_rest _ _ _ _ (ci_bd _ _ _ _ _ _ _ _ H)) as [t Har]. split; [exists t; apply Har|apply H]. Qed.

Lemma minus_run s w log bd isam T i I done cur : cmp_inv s w bd isam T (i :: I) done cur → below (kv i) T →
  ∃ s' w' bd' isam' cur', cmp_minus log_ok sync (Z.of_nat len) bd (status bd) isam (mk_cs s w log) =
      (mk_cs s' w' (log ++ line "-" i), inr (bd', status bd', isam')) ∧
    cmp_inv s' w' bd' isam' T I (done ++ [i]) cur' ∧ (sync = false → cur' = cur).
Proof.
  intros Hinv HT. pose proof (ci_file _ _ _ _ _ _ _ _ Hinv) as Hfile. destruct Hinv as [Hbd Hi Hrows HoT HoI Hw Hcur Hdone].
  pose proof HoI as [HiI HoI']%in_order_cons. apply Forall_cons in Hw as [Hwi Hw].
  pose proof (ia_len _ _ _ _ _ Hi) as Li. pose proof (ia_here _ _ _ _ _ Hi) as (_ & Ri & _).
  assert (∀ d x, d ∈ done ++ [i] → x ∈ T ++ I → lex_lt (kv d) (kv x)) as Hdone'.
  { intros d x [Hd|Hd]%elem_of_app Hx; [apply Hdone; [done|]; rewrite !elem_of_app, elem_of_cons in *; tauto|].
    apply list_elem_of_singleton in Hd as ->. rewrite Forall_forall in *. apply elem_of_app in Hx as [Hx|Hx]; auto. }
  unfold cmp_minus, next_isam. erewrite bind_ok by (apply log_record_run; exact Li). rewrite Ri.
  destruct (next_isam_at len w m isam i I Hi (sized_wf _ Hw)) as (w' & isam' & E2 & Hi' & _).
  destruct sync eqn:Es.
  - pose proof (bc_call _ _ (ba_call _ _ _ _ Hbd)) as Hc. rewrite Ri in *.
    assert (call_ok (set_rec i bd) a) as Hc' by (destruct Hc; by split).
    destruct (op_write_run log_ok ts Hwf s a cur (set_rec i bd) Hfile Hc' Hwi) as (s1 & g & E1 & Hfr & [(r & Hr & Hf & _)|(_ & Hg & Hok)]).
    { exfalso. cbn [record set_rec] in Hf. rewrite (Hcur eq_refl) in Hr.
      assert (wf_rec r) as Hwr by (destruct Hrows as (_ & Hr' & _); rewrite Forall_forall in Hr'; apply Hr'; by rewrite (Hcur eq_refl)).
      apply (kval_eq ts Hwf comps ixss Hlay Hpk) in Hf; [|done|done]. apply elem_of_app in Hr as [Hr|Hr].
      - apply (irreflexivity lex_lt (kv i)). rewrite <-Hf at 1. apply Hdone; [done|]. apply elem_of_app. right. by left.
      - rewrite Forall_forall in HT. apply (irreflexivity lex_lt (kv i)). rewrite <-Hf at 2. by apply HT. }
    destruct (with_isam_run (op_write log_ok) s s1 w (log ++ line "-" i) a bd isam ST_OK g false (i :: cur) T Hbd) as (bd' & E & Hbd' & Hst);
      [right; apply Hc|by rewrite Ri|by rewrite Ri|by rewrite Hg, Ri|by rewrite Hg|done|exact Hok|].
    erewrite bind_ok by exact E. erewrite bind_ok by (apply on_isam_run; exact E2).
    exists s1, w', bd', isam', (i :: cur). rewrite Hst. split; [done|]. split; [|done]. split; try done; [apply Hok|].
    intros _. rewrite (Hcur eq_refl). rewrite <-app_assoc. apply Permutation_middle.
  - rewrite ret_bind. erewrite bind_ok by (apply on_isam_run; exact E2). exists s, w', bd, isam', cur.
    split; [done|]. split; [|done]. split; try done. by rewrite Es.
Qed.

Lemma removed_perm r (l l' : list bytes) : l ≡ₚ l' → removed (cols:=cols) (keys:=keys) r l ≡ₚ removed (cols:=cols) (keys:=keys) r l'.
Proof. intros H. unfold removed. by rewrite H. Qed.

Lemma removed_other r l : wf_rec r → Forall wf_rec l → kv r ∉ kv <$> l → removed (cols:=cols) (keys:=keys) r l = l.
Proof.
  intros Hr Hl Hn. apply filter_all, Forall_forall. intros x Hx.
  by apply (kval_notin ts Hwf comps ixss Hlay Hpk r l).
Qed.

(** The records done and those to come have other keys. *)
Lemma done_notin s w bd isam T I done cur k : cmp_inv s w bd isam T I done cur → k ∈ kv <$> T ++ I → k ∉ kv <$> done.
Proof.
  intros Hinv (x & -> & Hx)%list_elem_of_fmap (d & E & Hd)%list_elem_of_fmap.
  apply (irreflexivity lex_lt (kv d)). rewrite <-E at 2. by apply (ci_done _ _ _ _ _ _ _ _ Hinv).
Qed.

Lemma cur_wf s w bd isam T I done cur : cmp_inv s w bd isam T I done cur → sync = true → Forall wf_rec done ∧ Forall wf_rec T.
Proof.
  intros [_ _ (_ & Hw & _) _ _ _ Hcur _] Hs. rewrite (Hcur Hs) in Hw. by apply Forall_app in Hw.
Qed.

Lemma plus_run s w log bd isam r T I done cur : cmp_inv s w bd isam (r :: T) I done cur →
  ∃ s' bd' cur', cmp_plus log_ok sync (Z.of_nat len) bd (status bd) isam (mk_cs s w log) =
      (mk_cs s' w (log ++ line "+" r), inr (bd', status bd', isam)) ∧
    cmp_inv s' w bd' isam T I done cur' ∧ (sync = false → cur' = cur).
Proof.
  intros Hinv. pose proof (ci_file _ _ _ _ _ _ _ _ Hinv) as Hfile. pose proof (cur_wf _ _ _ _ _ _ _ _ Hinv) as Hcw.
  assert (kv r ∉ kv <$> done) as Hrd.
  { eapply done_notin; [exact Hinv|]. apply list_elem_of_fmap_2, elem_of_app. left. by left. }
  destruct Hinv as [Hbd Hi Hrows HoT HoI Hw Hcur Hdone].
  pose proof HoT as [HrT HoT']%in_order_cons. pose proof (ba_call _ _ _ _ Hbd) as Hc. pose proof (ba_here _ _ _ _ Hbd) as [_ Rr].
  pose proof (co_rec _ _ (bc_call _ _ Hc)) as Lr. pose proof (ba_wf _ _ _ _ Hbd) as [Hwr HwT]%Forall_cons.
  assert (∀ d x, d ∈ done → x ∈ T ++ I → lex_lt (kv d) (kv x)) as Hdone'.
  { intros d x Hd Hx. apply Hdone; [done|]. rewrite elem_of_app in *. rewrite elem_of_cons. tauto. }
  unfold cmp_plus. erewrite bind_ok by (apply log_record_run; exact Lr). rewrite Rr. destruct sync eqn:Es.
  - destruct (pk_run ts Hwf) as (key & Hk & _ & Hpc & _ & _ & Hpok).
    destruct (op_delete_run log_ok ts Hwf s a 0 key cur bd Hfile (bc_call _ _ Hc) (bc_key _ _ Hc) Hk) as (s1 & o & E & Hf & Hok & Hfr).
    { rewrite <-Hpc, Rr. by apply Hpok. }
    rewrite <-Hpc, Rr in Hf. assert (r ∈ cur) as Hrc by (rewrite (Hcur eq_refl), elem_of_app; right; by left).
    destruct o as [r'|]; [|by destruct (Hf r Hrc)]. destruct Hf as [Hr' Hf].
    assert (r' = r) as ->.
    { destruct Hrows as (_ & _ & Hn). apply list_elem_of_lookup in Hr' as [j Hj], Hrc as [j' Hj'].
      assert (j = j') as ->; [|by rewrite Hj in Hj'; injection Hj'].
      eapply NoDup_lookup; [exact Hn| |]; rewrite list_lookup_fmap, ?Hj, ?Hj'; simpl; [done|]. by rewrite Hf. }
    set (bd1 := set_status ST_OK (set_rec r bd)) in *.
    erewrite bind_ok; last first.
    { erewrite bind_ok by (apply on_first_run; exact E). reflexivity. }
    assert (bd_at s1 a (set_status (status bd) bd1) (r :: T)) as Hbd1.
    { apply (bd_at_frame s s1 a bd _ (removed (cols:=cols) (keys:=keys) r cur)); [done|done|done| |done|done].
      apply bd_call_status. apply bd_call_rec; [done|]. by rewrite <-Rr. }
    destruct (next_bd_run s1 w (log ++ line "+" r) a _ r T Hbd1) as (s2 & bd2 & E2 & Hbd2 & Hr2).
    erewrite bind_ok by exact E2. exists s2, bd2, (removed (cols:=cols) (keys:=keys) r cur). split; [done|]. split; [|done].
    split; try done.
    + destruct Hok as [_ (H1 & H2 & H3)]. split; [by rewrite Hr2|done].
    + intros _. destruct (Hcw eq_refl) as [Hwd _]. rewrite (removed_perm r _ _ (Hcur eq_refl)).
      rewrite <-(removed_other r done Hwr Hwd Hrd) at 2.
      rewrite <-(removed_other r T Hwr HwT (below_notin kv _ _ HrT)) at 2.
      unfold removed. rewrite filter_app, filter_cons, decide_False by (intros Hx; by apply Hx). done.
  - rewrite ret_bind. destruct (next_bd_run s w (log ++ line "+" r) a _ r T Hbd) as (s2 & bd2 & E2 & Hbd2 & Hr2).
    erewrite bind_ok by exact E2. exists s2, bd2, cur. split; [done|]. split; [|done]. split; try done.
    + destruct Hrows as (H1 & H2). split; [by rewrite Hr2|done].
    + by rewrite Es.
Qed.

Lemma replaced_perm i (l l' : list bytes) : l ≡ₚ l' → replaced (cols:=cols) (keys:=keys) i l ≡ₚ replaced (cols:=cols) (keys:=keys) i l'.
Proof. intros H. unfold replaced. by rewrite H. Qed.

Lemma replaced_other i l : wf_rec i → Forall wf_rec l → kv i ∉ kv <$> l → replaced (cols:=cols) (keys:=keys) i l = l.
Proof.
  intros Hi Hl Hn. unfold replaced. rewrite <-(list_fmap_id l) at 2. apply list_fmap_ext. intros j x Hx.
  rewrite decide_False; [done|]. apply (kval_notin ts Hwf comps ixss Hlay Hpk i l); try done. by eapply list_elem_of_lookup_2.
Qed.

(** The table after the record [i] takes the place of [r]. *)
Lemma replaced_cur r i done T cur : cur ≡ₚ done ++ r :: T → wf_rec r → wf_rec i → kv r = kv i → Forall wf_rec done →
  Forall wf_rec T → kv r ∉ kv <$> done → below (kv r) T →
  replaced (cols:=cols) (keys:=keys) i cur ≡ₚ (done ++ [i]) ++ T.
Proof.
  intros Hcur Hr Hi Hk Hd HT Hrd HrT. rewrite (replaced_perm i _ _ Hcur).
  rewrite <-(replaced_other i done Hi Hd) at 2 by by rewrite <-Hk.
  rewrite <-(replaced_other i T Hi HT) at 2 by (rewrite <-Hk; by apply below_notin).
  unfold replaced. rewrite fmap_app, fmap_cons, decide_True by by apply (kval_eq ts Hwf comps ixss Hlay Hpk).
  by rewrite <-app_assoc.
Qed.

(** The log and the table when the keys are equal. *)
Lemma equal_write s w log bd isam r i T I done cur cols' : cmp_inv s w bd isam (r :: T) (i :: I) done cur →
  kv r = kv i → same_cols cols cols' →
  ∃ s' bd' cur', (c ← of_option (reccmp cols' (record bd) (record isam));
      match c with
      | Eq => mret bd
      | _ =>
          log_record ">" (Z.of_nat len) (record bd);;
          log_record "<" (Z.of_nat len) (record isam);;
          if sync then with_isam (op_rewrite log_ok) (Z.of_nat len) (status bd) bd isam else mret bd
      end) (mk_cs s w log) =
      (mk_cs s' w (log ++ mjoin (table_lines <$> (if decide (r = i) then [] else [Differ r i]))), inr bd') ∧
    bd_at s' a bd' (r :: T) ∧ rows_ok (conn s') cur' ∧ (sync = true → cur' ≡ₚ (done ++ [i]) ++ T) ∧ (sync = false → cur' = cur).
Proof.
  intros Hinv Hk Hcols. pose proof (ci_file _ _ _ _ _ _ _ _ Hinv) as Hfile. pose proof (cur_wf _ _ _ _ _ _ _ _ Hinv) as Hcw.
  assert (kv r ∉ kv <$> done) as Hrd.
  { eapply done_notin; [exact Hinv|]. apply list_elem_of_fmap_2, elem_of_app. left. by left. }
  destruct Hinv as [Hbd Hi Hrows HoT HoI Hw Hcur _]. pose proof HoT as [HrT HoT']%in_order_cons.
  pose proof (ba_call _ _ _ _ Hbd) as Hc. pose proof (ba_here _ _ _ _ Hbd) as [_ Rr].
  pose proof (co_rec _ _ (bc_call _ _ Hc)) as Lr. pose proof (ba_wf _ _ _ _ Hbd) as [Hwr HwT]%Forall_cons.
  pose proof (ia_len _ _ _ _ _ Hi) as Li. pose proof (ia_here _ _ _ _ _ Hi) as (_ & Ri & _). apply Forall_cons in Hw as [Hwi _].
  destruct (reccmp_run ts Hwf Htp cols' r i Hcols Hwr Hwi) as (c & E & Hc').
  rewrite Rr, Ri, E in *. cbn [of_option]. rewrite ret_bind.
  destruct (decide (r = i)) as [Hri|Hri].
  { rewrite (proj2 Hc' Hri). exists s, bd, cur. simpl. rewrite app_nil_r. split; [done|]. split; [done|]. split; [done|]. split; [|done].
    intros Hs. rewrite (Hcur Hs), Hri. by rewrite <-app_assoc. }
  assert (mjoin (table_lines <$> [Differ r i]) = line ">" r ++ line "<" i) as -> by apply (app_nil_r (line ">" r ++ line "<" i)).
  assert (∀ k : M cs fcd_t, match c with Eq => mret bd | _ => k end = k) as Hmatch.
  { intros k. destruct c; [|done|done]. by destruct (Hri (proj1 Hc' eq_refl)). }
  rewrite Hmatch. erewrite bind_ok by (apply log_record_run; exact Lr). erewrite bind_ok by (apply log_record_run; exact Li).
  rewrite <-app_assoc. destruct sync eqn:Es.
  - assert (call_ok (set_rec i bd) a) as Hcall by (destruct (bc_call _ _ Hc); by split).
    destruct (op_rewrite_run log_ok ts Hwf s a cur (set_rec i bd) Hfile Hcall Hwi Hdec) as (s1 & g & E1 & Hg & Hok & Hfr).
    assert (fields pk_cols i ∈ fields pk_cols <$> cur) as Hin.
    { apply (kval_eq ts Hwf comps ixss Hlay Hpk) in Hk; [|done|done]. rewrite <-Hk, (Hcur eq_refl).
      apply list_elem_of_fmap_2, elem_of_app. right. by left. }
    cbn [record set_rec] in *. rewrite (bool_decide_true _ Hin) in E1, Hg.
    destruct (with_isam_run (op_rewrite log_ok) s s1 w (log ++ line ">" r ++ line "<" i) a bd isam ST_OK g true (replaced (cols:=cols) (keys:=keys) i cur) (r :: T) Hbd)
      as (bd' & E' & Hbd' & _); [by left|by rewrite Ri|by rewrite Ri|by rewrite Hg, Ri|by rewrite Hg|done|exact Hok|].
    exists s1, bd', (replaced (cols:=cols) (keys:=keys) i cur). split; [exact E'|]. split; [done|]. split; [apply Hok|]. split; [|done].
    intros _. destruct (Hcw eq_refl) as [Hwd _]. by apply (replaced_cur r i done T cur (Hcur eq_refl)).
  - exists s, bd, cur. done.
Qed.

Lemma equal_run s w log bd isam r i T I done cur cols' : cmp_inv s w bd isam (r :: T) (i :: I) done cur →
  kv r = kv i → same_cols cols cols' →
  ∃ s' w' bd' isam' cur', cmp_equal log_ok sync cols' (Z.of_nat len) bd (status bd) isam (mk_cs s w log) =
      (mk_cs s' w' (log ++ mjoin (table_lines <$> (if decide (r = i) then [] else [Differ r i]))), inr (bd', status bd', isam')) ∧
    cmp_inv s' w' bd' isam' T I (done ++ [i]) cur' ∧ (sync = false → cur' = cur).
Proof.
  intros Hinv Hk Hcols. destruct (equal_write s w log bd isam r i T I done cur cols' Hinv Hk Hcols)
    as (s1 & bd1 & cur' & E1 & Hbd1 & Hrows1 & Hcur1 & Hsame).
  destruct Hinv as [_ Hi _ HoT HoI Hw _ Hdone]. pose proof HoT as [HrT HoT']%in_order_cons. pose proof HoI as [HiI HoI']%in_order_cons.
  apply Forall_cons in Hw as [_ Hw]. unfold cmp_equal. apply bind_inv in E1 as E1'. destruct E1' as (x & c & Ec & Em).
  assert (x = mk_cs s w log) as -> by (unfold of_option in Ec; destruct (reccmp _ _ _); by inversion Ec).
  rewrite (bind_ok _ _ _ _ _ Ec), (bind_ok _ _ _ _ _ Em).
  destruct (next_bd_run s1 w (log ++ mjoin (table_lines <$> (if decide (r = i) then [] else [Differ r i]))) a bd1 r T Hbd1)
    as (s2 & bd2 & E2 & Hbd2 & Hr2).
  erewrite bind_ok by exact E2. unfold next_isam.
  destruct (next_isam_at len w m isam i I Hi (sized_wf _ Hw)) as (w' & isam' & E3 & Hi' & _).
  erewrite bind_ok by (apply on_isam_run; exact E3).
  exists s2, w', bd2, isam', cur'. split; [done|]. split; [|done]. split; try done.
  - destruct Hrows1 as (H1 & H2). split; [by rewrite Hr2|done].
  - intros d x [Hd|Hd]%elem_of_app Hx; [apply Hdone; [done|]; rewrite !elem_of_app, !elem_of_cons in *; tauto|].
    apply list_elem_of_singleton in Hd as ->. apply elem_of_app in Hx. rewrite Forall_forall in HrT, HiI.
    destruct Hx as [Hx|Hx]; [rewrite <-Hk|]; auto.
Qed.

(** One turn of the loop. *)
Lemma turn_run s w log bd isam T I done cur : T ≠ [] ∨ I ≠ [] → cmp_inv s w bd isam T I done cur →
  ∃ s' w' bd' isam' T' I' done' cur' e, cmp_turn log_ok sync a comps (Z.of_nat len) bd (status bd) isam (mk_cs s w log) =
      (mk_cs s' w' (log ++ mjoin (table_lines <$> e)), inr (bd', status bd', isam')) ∧
    cmp_inv s' w' bd' isam' T' I' done' cur' ∧ (sync = false → cur' = cur) ∧ done' ++ I' = done ++ I ∧
    (length T' + length I' < length T + length I)%nat ∧ merge kv T I = e ++ merge kv T' I'.
Proof.
  intros Hsome Hinv. pose proof (key_in comps ixss Hlay) as Hin. pose proof Hinv as [Hbd Hi _ HoT HoI Hw _ _].
  pose proof (co_rec _ _ (bc_call _ _ (ba_call _ _ _ _ Hbd))) as Lr. pose proof (ia_len _ _ _ _ _ Hi) as Li.
  pose proof (ba_here _ _ _ _ Hbd) as A1. pose proof (ia_here _ _ _ _ _ Hi) as A2. unfold cmp_turn.
  assert (∀ i, mjoin (table_lines <$> [Minus i]) = line "-" i) as Em by (intros i; apply app_nil_r).
  assert (∀ r, mjoin (table_lines <$> [Plus r]) = line "+" r) as Ep by (intros r; apply app_nil_r).
  destruct T as [|r T], I as [|i I].
  - by destruct Hsome.
  - destruct A2 as (A2 & _). rewrite A1, A2. cbn [andb]. rewrite ret_bind, (proj1 (cmp_key_run len comps _ Hin Li)). cbn [of_option].
    rewrite ret_bind. destruct (minus_run s w log bd isam [] i I done cur Hinv) as (s' & w' & bd' & isam' & cur' & E & H & Hs); [constructor|].
    exists s', w', bd', isam', [], I, (done ++ [i]), cur', [Minus i]. rewrite Em. split; [exact E|]. split_and!; try done; [by rewrite <-app_assoc|simpl; lia].
  - destruct A1 as (A1 & _). rewrite A1, A2. cbn [andb]. rewrite (proj1 (cmp_key_run len comps _ Hin Lr)). cbn [of_option].
    rewrite !ret_bind. destruct (plus_run s w log bd isam r T [] done cur Hinv) as (s' & bd' & cur' & E & H & Hs).
    exists s', w, bd', isam, T, [], done, cur', [Plus r]. rewrite Ep. split; [exact E|]. split_and!; try done; [simpl; lia|by destruct T].
  - destruct A1 as (A1 & R1), A2 as (A2 & R2 & _). rewrite A1, A2. cbn [andb].
    rewrite (proj1 (cmp_key_run len comps _ Hin Lr)), (proj1 (cmp_key_run len comps _ Hin Li)). cbn [of_option]. rewrite !ret_bind.
    rewrite (key_cmp_run len) by done. rewrite R1, R2. cbn [merge]. destruct (lex_cmp (kv r) (kv i)) eqn:Ek.
    + apply lex_cmp_eq in Ek. destruct (ba_rest _ _ _ _ Hbd) as [t Har]. destruct (ar_sess _ _ _ _ _ _ Har) as (Ha & Ht & _).
      erewrite bind_ok by (apply on_first_run, tab_at_run; exact Ha).
      destruct (equal_run s w log bd isam r i T I done cur (t_columns t) Hinv Ek (to_cols _ _ _ Ht)) as (s' & w' & bd' & isam' & cur' & E & H & Hs).
      exists s', w', bd', isam', T, I, (done ++ [i]), cur'. eexists. split; [exact E|]. split_and!; try done; [by rewrite <-app_assoc|simpl; lia|].
      by destruct (decide (r = i)).
    + destruct (plus_run s w log bd isam r T (i :: I) done cur Hinv) as (s' & bd' & cur' & E & H & Hs).
      exists s', w, bd', isam, T, (i :: I), done, cur', [Plus r]. rewrite Ep. split; [exact E|]. split_and!; try done. simpl; lia.
    + apply lex_gt in Ek. pose proof HoT as [HrT _]%in_order_cons.
      destruct (minus_run s w log bd isam (r :: T) i I done cur Hinv) as (s' & w' & bd' & isam' & cur' & E & H & Hs).
      { constructor; [done|]. by apply (below_trans kv _ (kv r)). }
      exists s', w', bd', isam', (r :: T), I, (done ++ [i]), cur', [Minus i]. rewrite Em. split; [exact E|].
      split_and!; try done; [by rewrite <-app_assoc|simpl; lia].
Qed.

Lemma loop_run fuel s w log bd isam T I done cur : (length T + length I < fuel)%nat → cmp_inv s w bd isam T I done cur →
  ∃ s' w' f cur', cmp_loop log_ok fuel sync a comps (Z.of_nat len) bd (status bd) isam (mk_cs s w log) =
      (mk_cs s' w' (log ++ mjoin (table_lines <$> merge kv T I)), inr f) ∧
    rows_ok (conn s') cur' ∧ (sync = true → cur' ≡ₚ done ++ I) ∧ (sync = false → cur' = cur).
Proof.
  revert s w log bd isam T I done cur. induction fuel as [|fuel IH]; intros s w log bd isam T I done cur Hf Hinv; [lia|]. cbn [cmp_loop].
  assert ((is_ok bd || is_ok isam) = negb (bool_decide (T = [] ∧ I = []))) as ->.
  { pose proof (ba_here _ _ _ _ (ci_bd _ _ _ _ _ _ _ _ Hinv)) as A1. pose proof (ia_here _ _ _ _ _ (ci_isam _ _ _ _ _ _ _ _ Hinv)) as A2.
    destruct T; [|by rewrite (proj1 A1)]. rewrite A1. destruct I; [by rewrite A2|by rewrite (proj1 A2)]. }
  case_bool_decide as Hend; cbn [negb].
  - destruct Hend as [-> ->]. exists s, w, bd, cur. simpl. rewrite app_nil_r. split; [done|]. split; [apply Hinv|]. split; [apply Hinv|done].
  - destruct (turn_run s w log bd isam T I done cur) as (s1 & w1 & bd1 & isam1 & T' & I' & done' & cur1 & e & E & Hinv1 & Hs1 & Hd & Hlt & Hm); try done.
    { destruct T; [right|by left]. intros ->. by apply Hend. }
    rewrite (bind_ok _ _ _ _ _ E). cbn [fst snd].
    destruct (IH s1 w1 (log ++ mjoin (table_lines <$> e)) bd1 isam1 T' I' done' cur1) as (s' & w' & f & cur' & E' & Hr & Hs & Hn); try done; [lia|].
    exists s', w', f, cur'. rewrite E', Hm. split; [by rewrite fmap_app, join_app, app_assoc|]. split; [done|]. split; [by rewrite <-Hd|].
    intros H. by rewrite (Hn H), (Hs1 H).
Qed.

(** ** The whole comparison *)

Lemma nuls_clear f : length (record f) = len → clear_record (Z.of_nat len) f = set_rec nuls f.
Proof. intros H. unfold clear_record. by rewrite <-(clear_record_run len f H). Qed.

(** The table at its first record. *)
Lemma start_table s (w : W) log t fcd recs : can_start (P:=P) ts s a t → rows_ok (conn s) recs → by_bytes (C:=C) comps recs →
  bd_call fcd a → record fcd = nuls → fresh_start t (bs ">=") 0 pk_cols nuls →
  (∀ key, keys !! 0%nat = Some key → start_fits (schema:=schema) (cols:=cols) key) →
  ∃ s1 s2 bd0 bd out, op_start log_ok fcd (bs ">=") s = (s1, inr bd0) ∧
    next_bd bd0 (mk_cs s1 w log) = (mk_cs s2 w log, inr (bd, status bd)) ∧ bd_at s2 a bd out ∧
    out ≡ₚ recs ∧ in_order kv out ∧ rows_ok (conn s2) recs.
Proof.
  intros Hcan Hrows Hby [Hcall Hkey] Hrec Hfresh Hfit. destruct (pk_run ts Hwf) as (key & Hk & Hin & Hpc & _).
  pose proof (nuls_area ts Hwf Hdec) as Harea. rewrite <-Hrec, Hpc in Harea, Hfresh.
  destruct (op_start_run log_ok ts Hwf Hword s a t 0 key fcd (bs ">=") recs Hcan Hrows Hcall Hkey Hk ltac:(set_solver) (Hfit key Hk) Harea Hfresh)
    as (s1 & t1 & out & E1 & Har & Hscan & _ & Hr1 & _).
  rewrite <-Hpc, Hrec in Hscan. destruct Hrows as (H1 & H2 & H3).
  destruct (scan_all ts Hwf comps ixss Hlay Hpk Hdec recs out H2 H3 Hby Hscan) as [Hp Hord].
  assert (Forall wf_rec out) as Hw by by rewrite Hp.
  exists s1. destruct out as [|r rest].
  - rewrite bool_decide_false in Har by (intros H; by apply H).
    assert (call_ok (set_status ST_REC_NOT_FOUND (set_status ST_EOF fcd)) a) as Hcall' by (destruct Hcall; by split).
    destruct (op_next_prev_run ts Hwf Hword s1 a t1 [] (ch "n") _ 0 key Har Hcall' Hkey Hk ltac:(by left)) as (s2 & t2 & E2 & Har2 & _ & Hr2 & _).
    eexists s2, _, _, []. split; [exact E1|]. unfold next_bd. rewrite (bind_ok _ _ _ _ _ (on_first_run _ _ _ _ _ _ E2)).
    split; [done|]. split; [|split; [done|split; [done|by rewrite <-Hr1, <-Hr2 in H1]]].
    split; [|done|by exists t2|done]. by repeat apply bd_call_status.
  - rewrite bool_decide_true in Har by done. pose proof Hw as [Hwr _]%Forall_cons.
    assert (bd_call (set_status ST_OK (set_rec r fcd)) a) as Hc by (apply bd_call_rec; [done|apply (wr_len _ Hwr)]).
    destruct (read_first_run ts s1 a t1 rest (ch "n") _ Har (bc_call _ _ Hc)) as (s2 & t2 & E2 & Har2 & _ & Hr2 & _).
    eexists s2, _, _, (r :: rest). split; [exact E1|]. unfold next_bd. rewrite (bind_ok _ _ _ _ _ (on_first_run _ _ _ _ _ _ E2)).
    split; [done|]. split; [|split; [done|split; [done|by rewrite <-Hr1, <-Hr2 in H1]]].
    split; [|done|by exists t2|done]. by apply bd_call_status.
Qed.

Lemma differences_perm T T' I es : T ≡ₚ T' → differences kv T I es → differences kv T' I es.
Proof. intros H [H1 H2 H3 H4]. split; [|intros i; rewrite H2|intros r i; rewrite H3|done]; try intros r; rewrite ?H1; by rewrite H. Qed.

(** A call of the comparison: the table and the file have the same layout of keys. *)
Record table_call (s : dbs D) (w : W) (t : table_t) (record1 record2 : bytes) (fcd : fcd_t) (recs isams : list bytes) : Prop := {
  tc_isam : isam fcd ≠ ch "S";
  tc_call : bd_call fcd a;
  tc_record1 : length record1 = len;
  tc_record2 : length record2 = len;
  tc_table : can_start (P:=P) ts s a t;
  tc_rows : rows_ok (conn s) recs;
  tc_bytes : by_bytes (C:=C) comps recs;
  tc_fresh : fresh_start t (bs ">=") 0 pk_cols nuls;
  tc_fits key : keys !! 0%nat = Some key → start_fits (schema:=schema) (cols:=cols) key;
  tc_comps : cmp_comps (kdb fcd) = Some comps;
  tc_name : fname fcd = m;
  tc_file : isam_file len comps w m isams;
  tc_recs : Forall wf_rec isams;
}.

(** C8: The comparison of a table with its ISAM file ends and leaves in its log exactly
    their differences in the order of the key; a synchronisation leaves in the table the
    records of the file, and a comparison leaves the table as it was. *)
Theorem cmp_table_correct fuel s w t log record1 record2 fcd recs isams :
  table_call s w t record1 record2 fcd recs isams → (length recs + length isams < fuel)%nat →
  ∃ s' w' f es recs', cmp_table log_ok fuel sync true record1 record2 (Some fcd) a (mk_cs s w log) =
      (mk_cs s' w' (mjoin (table_lines <$> es)), inr (Some f)) ∧
    differences kv recs isams es ∧ rows_ok (conn s') recs' ∧ (if sync then recs' ≡ₚ isams else recs' = recs).
Proof.
  intros [Hisam Hbd L1 L2 Hcan Hrows Hby Hfresh Hfits Hcomps Hname Hfile Hwi] Hfuel. unfold cmp_table.
  rewrite (proj2 (Z.eqb_neq _ _) Hisam). pose proof (cs_sess _ _ _ _ Hcan) as (Ha & _).
  erewrite bind_ok by (apply on_first_run, tab_at_run; exact Ha). cbn [negb].
  rewrite (bind_ok _ _ _ _ _ (modify_run _ _)). cbn [c_first c_isam]. rewrite (co_reclen _ _ (bc_call _ _ Hbd)).
  destruct (short_len len (fw_len ts Hwf)) as [-> ->]. cbn [guard_fault]. rewrite ret_bind.
  set (bd := set_rec record1 fcd). set (f2 := set_rec record2 _).
  assert (fname f2 = m) as N2 by exact Hname.
  destruct (isam_open_input f2 w isams eq_refl) as (w1 & g2 & E1 & Hsame & _ & Ho2 & Hr1 & _); [rewrite N2; apply Hfile|].
  erewrite bind_ok by (apply on_isam_run; exact E1). change (kdb bd) with (kdb fcd). rewrite Hcomps. cbn [of_option]. rewrite ret_bind.
  assert (bd_call (set_rec nuls bd) a) as Hbd'.
  { destruct Hbd as [[] Hk]. split; [split; try done|done]. apply length_replicate. }
  rewrite (nuls_clear bd L1).
  destruct (start_table s w1 [] t (set_rec nuls bd) recs Hcan Hrows Hby Hbd' eq_refl Hfresh Hfits)
    as (s1 & s2 & bd0 & bd1 & out & E2 & E3 & Hat & Hp & Hord & Hrows2).
  erewrite bind_ok by (apply on_first_run; exact E2).
  assert (fname g2 = m) as Ng2 by by rewrite (sf_name _ _ Hsame).
  assert (isam_file len comps w1 (fname g2) isams) as Hfile' by (rewrite Ng2; destruct Hfile; split; try done; by rewrite Hr1).
  destruct (clear_start_at len comps (key_in comps ixss Hlay) w1 g2 isams Hfile') as (w2 & h2 & E4 & M2 & Lh2 & Oh2 & Rh2 & _).
  { by rewrite Ng2, <-N2. } { rewrite (sf_key _ _ Hsame). apply Hbd. } { by rewrite (sf_kdb _ _ Hsame). } { by rewrite (sf_rec _ _ Hsame). }
  erewrite bind_ok by (apply on_isam_run; exact E4).
  assert (next_bd bd0 (mk_cs s1 w2 []) = (mk_cs s2 w2 [], inr (bd1, status bd1))) as E3'.
  { unfold next_bd in *. apply bind_inv in E3 as (x & f & Em & Ef). unfold on_first in Em. cbn [c_first] in Em.
    destruct (op_next_prev bd0 (ch "n") s1) as [y r] eqn:E. injection Em as <- ->. injection Ef as -> ->.
    by rewrite (bind_ok _ _ _ _ _ (on_first_run _ _ _ _ _ _ E)). }
  rewrite (bind_ok _ _ _ _ _ E3'). unfold next_isam.
  destruct (next_at len w2 (fname g2) h2 isams M2 Oh2 Lh2 Rh2 (sized_wf _ Hwi)) as (w3 & k2 & E5 & _ & A2 & _).
  erewrite bind_ok by (apply on_isam_run; exact E5). cbn [fst snd].
  rewrite Ng2 in A2.
  assert (cmp_inv s2 w3 bd1 k2 out isams [] recs) as Hinv.
  { split; try done; [apply Hfile|]. intros d x Hd. by apply elem_of_nil in Hd. }
  destruct (loop_run fuel s2 w3 [] bd1 k2 out isams [] recs ltac:(rewrite Hp; lia) Hinv) as (s3 & w4 & f & cur & E6 & Hrows3 & Hs & Hn).
  rewrite (bind_ok _ _ _ _ _ E6). exists s3, w4, f, (merge kv out isams), cur. split; [done|].
  split; [apply (differences_perm out); [done|]; apply merge_differences; [done|apply Hfile]|]. split; [done|].
  destruct sync; auto.
Qed.

End table.
