(* ===== verification/CmpServer.v ===== *)
(** A file handler in memory that keeps the contract of CmpIsam, and comparisons with it. *)

From stdpp Require Import prelude gmap strings sorting.
From S2P Require Import Prelude Fhtypes Fcd Table Kdb Libpq DbRead DbWrite Sql DbRows DbSession DbSpec Cursor SqlText CursorSpec CursorScan DbServer CursorServer Merge Cmp CmpIsam CmpSpec CmpTable.
Local Open Scope Z_scope.

(** The files by name, and the records still to read of those that are open. *)
Record isam_mem := mk_im { im_files : gmap bytes (list bytes); im_rest : gmap bytes (list bytes) }.

Definition im_put (w : isam_mem) (m : bytes) (l : list bytes) : isam_mem := mk_im (im_files w) (<[m:=l]> (im_rest w)).

Definition im_start (ge : bool) (f : fcd_t) (w : isam_mem) : option (list bytes) :=
  recs ← im_files w !! fname f;
  comps ← cmp_comps (kdb f);
  k ← cmp_key comps (record f);
  Some (if ge then filter (λ r, ¬ lex_lt (kval comps r) k) recs else filter (λ r, lex_lt k (kval comps r)) recs).

(** An update by the key of the record area. *)
Definition im_change (op : Z) (comps : list (Z * Z)) (k r : bytes) (recs : list bytes) : list bytes * bool :=
  let low := filter (λ x, lex_lt (kval comps x) k) recs in
  let high := filter (λ x, lex_lt k (kval comps x)) recs in
  match filter (λ x, kval comps x = k) recs with
  | [] => if op =? OP_WRITE then (low ++ [r] ++ high, true) else (recs, false)
  | _ => if op =? OP_WRITE then (recs, false) else if op =? OP_REWRITE then (low ++ [r] ++ high, true) else (low ++ high, true)
  end.

Definition im_update (op : Z) (f : fcd_t) (w : isam_mem) : option (isam_mem * bool) :=
  recs ← im_files w !! fname f;
  comps ← cmp_comps (kdb f);
  k ← cmp_key comps (record f);
  let r := im_change op comps k (record f) recs in
  Some (mk_im (<[fname f:=fst r]> (im_files w)) (im_rest w), snd r).

Definition im_find (f : fcd_t) (w : isam_mem) : option bytes :=
  recs ← im_files w !! fname f;
  comps ← cmp_comps (kdb f);
  k ← cmp_key comps (record f);
  head (filter (λ x, kval comps x = k) recs).

Definition is_update (op : Z) : bool := (op =? OP_WRITE) || (op =? OP_REWRITE) || (op =? OP_DELETE).

Definition im_call (op : Z) (f : fcd_t) : M isam_mem fcd_t := λ w,
  if op =? OP_OPEN_INPUT then
    if decide (is_Some (im_files w !! fname f)) then (im_put w (fname f) [], inr (set_status ST_OK (set_open_mode 0 f)))
    else (w, inr (set_status ST_FILE_NOT_FOUND f))
  else if (op =? OP_START_GT) || (op =? OP_START_GE) then
    match im_start (op =? OP_START_GE) f w with
    | Some [] => (im_put w (fname f) [], inr (set_status ST_REC_NOT_FOUND f))
    | Some l => (im_put w (fname f) l, inr (set_status ST_OK f))
    | None => (w, inr (set_status ST_ERROR f))
    end
  else if op =? OP_READ_NEXT then
    match im_rest w !! fname f with
    | Some (r :: l) => (im_put w (fname f) l, inr (set_status ST_OK (set_rec r f)))
    | _ => (w, inr (set_status ST_EOF f))
    end
  else if op =? OP_READ_RANDOM then
    match im_find f w with
    | Some r => (w, inr (set_status ST_OK (set_rec r f)))
    | None => (w, inr (set_status ST_REC_NOT_FOUND f))
    end
  else if is_update op then
    match im_update op f w with
    | Some (w', ok) => (w', inr (set_status (if ok then ST_OK else if op =? OP_WRITE then ST_DUPL_KEY else ST_REC_NOT_FOUND) f))
    | None => (w, inr (set_status ST_ERROR f))
    end
  else (w, inr (set_status ST_ERROR f)).

#[local] Instance mem_extfh : Extfh isam_mem := {| extfh := im_call |}.

Lemma im_put_rest w m l : default [] (im_rest (im_put w m l) !! m) = l ∧ is_Some (im_rest (im_put w m l) !! m).
Proof. unfold im_put. cbn [im_rest]. rewrite lookup_insert_eq. by split; [|eexists]. Qed.

Lemma im_put_other w m l m' : m' ≠ m → im_rest (im_put w m l) !! m' = im_rest w !! m'.
Proof. intros H. unfold im_put. cbn [im_rest]. by rewrite lookup_insert_ne. Qed.

Lemma im_start_run f w op l : (op =? OP_OPEN_INPUT) = false ∧ (op =? OP_START_GT) || (op =? OP_START_GE) = true →
  im_start (op =? OP_START_GE) f w = Some l →
  ∃ w' f', extfh op f w = (w', inr f') ∧ same_file f f' ∧ is_Some (im_rest w' !! fname f) ∧
    default [] (im_rest w' !! fname f) = l ∧ (∀ m, im_files w' !! m = im_files w !! m) ∧
    (∀ m, m ≠ fname f → default [] (im_rest w' !! m) = default [] (im_rest w !! m) ∧
      (is_Some (im_rest w !! m) → is_Some (im_rest w' !! m))).
Proof.
  intros [H1 H2] Hl. cbn [extfh mem_extfh]. unfold im_call. rewrite H1, H2, Hl.
  assert (∃ st, (match l with [] => (im_put w (fname f) [], inr (set_status ST_REC_NOT_FOUND f))
    | _ => (im_put w (fname f) l, inr (set_status ST_OK f)) end) = (im_put w (fname f) l, inr (A:=fault) (set_status st f))) as [st ->].
  { destruct l; by eexists. }
  eexists _, _. split; [done|]. split; [by split|]. split; [apply im_put_rest|]. split; [apply im_put_rest|]. split; [done|].
  intros m Hm. by rewrite !im_put_other.
Qed.

#[local] Instance mem_isam : IsamFile isam_mem.
Proof.
  refine {|
    isam_recs w m := im_files w !! m;
    isam_open w m := is_Some (im_rest w !! m);
    isam_rest w m := default [] (im_rest w !! m);
  |}.
  - intros f w recs _ Hr. cbn [extfh mem_extfh]. unfold im_call. change (OP_OPEN_INPUT =? OP_OPEN_INPUT) with true. cbv iota.
    rewrite decide_True by by rewrite Hr. eexists _, _. split; [done|]. split; [by split|].
    split; [done|]. split; [apply im_put_rest|]. split; [done|]. intros m Hm. by rewrite !im_put_other.
  - intros f w _. eexists _, _. by split.
  - intros f w recs comps k _ Hr _ Hc Hk. apply (im_start_run f w OP_START_GT); [done|]. unfold im_start.
    rewrite Hr. cbn [mbind option_bind]. rewrite Hc. cbn [mbind option_bind]. by rewrite Hk.
  - intros f w recs comps k _ Hr _ Hc Hk. apply (im_start_run f w OP_START_GE); [done|]. unfold im_start.
    rewrite Hr. cbn [mbind option_bind]. rewrite Hc. cbn [mbind option_bind]. by rewrite Hk.
  - intros f w [l Hl] Hs. cbn [extfh mem_extfh]. unfold im_call. change (OP_READ_NEXT =? OP_OPEN_INPUT) with false.
    change ((OP_READ_NEXT =? OP_START_GT) || (OP_READ_NEXT =? OP_START_GE)) with false. change (OP_READ_NEXT =? OP_READ_NEXT) with true. cbv iota.
    rewrite Hl in *. cbn [default] in *. destruct l as [|r l].
    + eexists _, _. split; [done|]. split; [by split|]. rewrite Hl. by split.
    + apply Forall_cons in Hs as [Hr Hs]. eexists _, _. split; [done|]. split; [by split|]. split; [apply im_put_rest|].
      split; [split; [done|]; split; [done|apply im_put_rest]|]. split; [done|]. intros m Hm. by rewrite !im_put_other.
Defined.

(** ** Two ISAM files *)

(** A key of one component, the first three bytes. *)
Definition ex_kdb : bytes :=
  replicate 14 0 ++ putshort 1 ++ putshort 30 ++ replicate 12 0 ++ replicate 2 0 ++ putint 0 ++ putint 3.
Definition ex_comps : list (Z * Z) := [(0, 3)].

Definition ex_file : bytes := bs "clientes.dat".
Definition ex_cmp_fcd : fcd_t :=
  mk_fcd (bs "00") 2 4 2 (putshort 12) 0 (replicate 8 0) (putshort 7) (putshort 0) (bs "       ") ex_file ex_kdb (putint 64) 0 0
    (replicate 4 0) (ch "P") 0.

Definition ex_isams : list bytes := [bs "002Ana "; bs "004Leo "; bs "005Eva "].
Definition ex_isams2 : list bytes := [bs "002Ana "; bs "005Ana "; bs "007Bia "].

Definition ex_files : isam_mem := mk_im (<[ex_file:=ex_isams]> (<[bs "copia":=ex_isams2]> ∅)) {[ ex_file := [] ]}.

Lemma ex_comps_in : comps_in 7 ex_comps.
Proof. split; [|simpl; lia]. constructor; [simpl; lia|constructor]. Qed.

Lemma ex_isam_file (w : isam_mem) m recs : im_files w !! m = Some recs → Forall (λ r, length r = 7%nat) recs →
  bool_decide (Sorted lex_lt (kval ex_comps <$> recs)) = true →
  bool_decide (Forall (λ r, lex_lt (kval ex_comps (replicate 7 0)) (kval ex_comps r)) recs) = true →
  isam_file 7 ex_comps w m recs.
Proof.
  intros Hr Hs Ho Ha. split; [done|done| |by apply bool_decide_eq_true in Ha].
  apply bool_decide_eq_true in Ho. unfold in_order. apply Sorted_StronglySorted; [|done]. intros x y z. apply lex_lt_trans.
Qed.

Lemma cmp_isam_correct_witness : ∃ w' f es,
  cmp_isam 7 (ch "I") true (bs "0123456") (bs "0123456") (Some ex_cmp_fcd) (bs "copia") (mk_cs tt ex_files []) =
    (mk_cs tt w' (mjoin (isam_lines <$> es)), inr (Some f)) ∧ differences (kval ex_comps) ex_isams ex_isams2 es.
Proof.
  apply (cmp_isam_correct 7 ex_comps).
  - split; try done; [by right|]. vm_compute. lia.
  - done.
  - apply ex_comps_in.
  - by eexists.
  - apply ex_isam_file; [done|by repeat constructor|done|done].
  - apply ex_isam_file; [done|by repeat constructor|done|done].
  - simpl. lia.
Defined.

Example ex_isam_log : c_log (fst (cmp_isam 7 (ch "I") true (bs "0123456") (bs "0123456") (Some ex_cmp_fcd) (bs "copia") (mk_cs tt ex_files []))) =
  bs "+004Leo " ++ [10] ++ bs "<005Ana " ++ [10] ++ bs ">005Eva " ++ [10] ++ bs "-007Bia " ++ [10].
Proof. by vm_compute. Qed.

(** ** A table and its ISAM file *)

#[local] Existing Instance ex_libpq.
#[local] Existing Instance ex_calls.
#[local] Existing Instance ex_table.
#[local] Existing Instance ex_cursor.

Definition ex_table_fcd : fcd_t := set_rec (bs "       ") (set_file_name_len (putshort 12) (set_file_name ex_file
  (mk_fcd (bs "00") 2 4 2 (putshort 7) 0 (replicate 8 0) (putshort 7) (putshort 0) [] ex_name ex_kdb (putint 64) 0 0
    (replicate 4 0) (ch "P") 0))).

Lemma ex_layout : key_layout ex_tcols ex_comps [[0%nat]].
Proof.
  split; [|split; [simpl; unfold MAX_COMPS; lia|simpl; unfold MAX_KEY_LEN; lia]].
  constructor; [|constructor]. exists 0%nat, 1%nat. split; [|done]. split; [lia|]. split; [simpl; lia|]. done.
Qed.

Lemma ex_by_bytes : by_bytes (cols:=ex_tcols) (keys:=ex_tkeys) (C:=ex_cursor) ex_comps ex_records.
Proof.
  assert (forallb (λ r, forallb (λ r', bool_decide (key_cmp (PgCursor0:=ex_cursor) (pk_cols (cols:=ex_tcols) (keys:=ex_tkeys)) r r' =
    lex_cmp (kval ex_comps r) (kval ex_comps r'))) ex_records) ex_records = true) as H by by vm_compute.
  rewrite forallb_forall in H. intros r r' Hr%list_elem_of_In Hr'%list_elem_of_In. specialize (H r Hr).
  rewrite forallb_forall in H. specialize (H r' Hr'). by apply bool_decide_eq_true in H.
Qed.

Lemma ex_isams_wf : Forall (wf_rec (cols:=ex_tcols) (keys:=ex_tkeys)) ex_isams.
Proof.
  unfold ex_isams. repeat (apply Forall_cons; split); [..|constructor].
  - by apply (ex_record 48 48 50 (bs "Ana ")); first [done|apply (bool_decide_unpack _)].
  - by apply (ex_record 48 48 52 (bs "Leo ")); first [done|apply (bool_decide_unpack _)].
  - by apply (ex_record 48 48 53 (bs "Eva ")); first [done|apply (bool_decide_unpack _)].
Qed.

Lemma ex_table_call : table_call (P:=ex_table) (C:=ex_cursor) ex_ts ex_comps 64 ex_file ex_full_state ex_files ex_open_table
  (bs "0123456") (bs "0123456") ex_table_fcd ex_records ex_isams.
Proof.
  split; try done.
  - exact ex_full_start.
  - exact ex_full_rows.
  - exact ex_by_bytes.
  - intros key [= <-]. split.
    + intros c Hc. apply list_elem_of_singleton in Hc as ->. simpl. lia.
    + intros op Hop. simpl. destruct (op_first op =? ch "<"); simpl; lia.
    + simpl. lia.
  - apply ex_isam_file; [done|by repeat constructor|done|done].
  - exact ex_isams_wf.
Qed.

Lemma cmp_table_correct_witness : ∃ s' w' f es recs',
  cmp_table true 7 true true (bs "0123456") (bs "0123456") (Some ex_table_fcd) 64 (mk_cs ex_full_state ex_files []) =
    (mk_cs s' w' (mjoin (table_lines <$> es)), inr (Some f)) ∧
  differences (kval ex_comps) ex_records ex_isams es ∧ rows_ok (P:=ex_table) (conn s') recs' ∧ recs' ≡ₚ ex_isams.
Proof.
  apply (cmp_table_correct (C:=ex_cursor) true ex_ts ex_file_wf ex_words ex_comps [[0%nat]] ex_layout eq_refl) with
    (sync := true) (m := ex_file) (t := ex_open_table).
  - intros c Hc _. apply list_elem_of_singleton in Hc as ->. done.
  - constructor; [by left|]. constructor; [by right|constructor].
  - exact ex_table_call.
  - simpl. lia.
Defined.

(** The log and the rows after a synchronisation, evaluated. *)
Example ex_sync :
  let r := cmp_table true 7 true true (bs "0123456") (bs "0123456") (Some ex_table_fcd) 64 (mk_cs ex_full_state ex_files []) in
  c_log (fst r) = bs "-004Leo " ++ [10] ++ bs ">005Ana " ++ [10] ++ bs "<005Eva " ++ [10] ++ bs "+007Bia " ++ [10] ∧
  pg_rows (PgTable:=ex_table) (conn (c_first (fst r))) = row_img (PgTable0:=ex_table) <$> [bs "004Leo "; bs "002Ana "; bs "005Eva "].
Proof. by vm_compute. Qed.
