(* ===== verification/ReplicaFile.v ===== *)
(** The file of replicas: its records are read past the end of their area. *)

From stdpp Require Import prelude gmap strings sorting.
From S2P Require Import Prelude Fhtypes Fcd Table Kdb Libpq Replicator DbRead DbWrite DbRows DbSession DbSpec Merge Cmp CmpIsam CmpServer.
Local Open Scope Z_scope.

(** The names of a record end 255 bytes after its beginning. *)
Lemma clone_of_short rec : (length rec < 255)%nat → clone_of rec = None.
Proof.
  intros H. unfold clone_of. cbv zeta.
  assert (∀ A B (o : option A) (f : A → option B), (∀ a, f a = None) → o ≫= f = None) as Hb by (intros A B [a|] f Hf; [apply Hf|reflexivity]).
  do 5 (apply Hb; intros ?).
  assert (sub_bytes rec (Z.of_nat MAX_NAME_LEN + 3 + 4 * Z.of_nat MAX_NAME_LEN + 1) 1 = None) as ->; [|reflexivity].
  unfold sub_bytes. rewrite (proj2 (Z.leb_gt _ (Z.of_nat (length rec)))) by (unfold MAX_NAME_LEN; lia). by rewrite andb_false_r.
Qed.

Section file.
Context {W : Type} `{!Extfh W, !IsamFile W}.

Definition replica_comps : list (Z * Z) := [(0, 33)].
Definition replica_key (tabname : bytes) : bytes := blit (replicate 156 0) 0 tabname.

(** The records of the file from the name of a table on. *)
Definition replica_from (tabname : bytes) (recs : list bytes) : list bytes :=
  filter (λ r, ¬ lex_lt (kval replica_comps r) (kval replica_comps (replica_key tabname))) recs.

Lemma on_rep_run {A} (m : M W A) w w' o r : m w = (w', inr r) → on_rep m (w, o) = ((w', o), inr r).
Proof. intros H. unfold on_rep. cbn [fst snd]. by rewrite H. Qed.

(** The area of a record of the file of replicas has 156 bytes, but the names are taken
    from it with the length they have now, 50, up to the byte 255: the open of a table with
    a replica, when the file has any record from the name of the table on, of whatever
    table, reads outside the area; with none it finds that the table has no copies. *)
Theorem get_clones_overrun w name recs tabname fuel : isam_recs w name = Some recs → Forall (λ r, length r = 156%nat) recs →
  Z.of_nat (length name) < 2 ^ 16 → (length tabname ≤ 156)%nat → (0 < fuel)%nat →
  ∃ s', get_clones (Some name) fuel tabname (w, None) =
    (s', match replica_from tabname recs with [] => inr [] | _ :: _ => inl Fault end).
Proof.
  intros Hr Hsz Hn Ht Hfuel. unfold get_clones. erewrite bind_ok by apply gets_run. cbn [snd].
  assert (fname (replica_fcd name) = name) as Hf.
  { unfold fname. cbn [file_name file_name_len replica_fcd]. pose proof (getshort_putshort (Z.of_nat (length name)) [] ltac:(lia)) as E.
    rewrite app_nil_r in E. rewrite E, Nat2Z.id. by apply take_ge. }
  destruct (isam_open_input (replica_fcd name) w recs eq_refl) as (w1 & f1 & E1 & S1 & (M1 & _) & O1 & R1 & _); [by rewrite Hf|].
  erewrite bind_ok by (erewrite bind_ok by (apply on_rep_run; exact E1); reflexivity).
  set (f2 := if memeq (status f1) ST_OK 2 then set_open_mode 0 f1 else f1).
  assert (same_file (replica_fcd name) f2 ∧ open_mode f2 ≠ 128) as [[N2 K2 B2 L2 _ _ _ _] M2].
  { unfold f2. destruct (memeq _ _ _); [|done]. destruct S1. by split. }
  erewrite bind_ok by apply modify_run. rewrite (proj2 (Z.eqb_neq _ _) M2), (proj2 (Nat.leb_le _ _) Ht). cbn [guard_fault fst]. rewrite ret_bind.
  set (f3 := set_rec (blit (replicate 156 0) 0 tabname) f2).
  assert (length (replica_key tabname) = 156%nat) as Hkl.
  { unfold replica_key, blit. rewrite !length_app, length_drop, length_replicate. simpl. lia. }
  assert (comps_in 156 replica_comps) as Hin by (split; [constructor; [simpl; lia|constructor]|simpl; lia]).
  assert (fname f3 = name) as N3 by (unfold f3; etrans; [exact N2|exact Hf]).
  destruct (isam_start_ge f3 w1 recs replica_comps (kval replica_comps (replica_key tabname))) as (w4 & f4 & E4 & S4 & O4 & Rest & R4 & _).
  { rewrite N3, <-Hf. exact O1. }
  { rewrite N3, R1. exact Hr. }
  { unfold f3. cbn [key_id set_rec]. by rewrite K2. }
  { unfold f3. cbn [kdb set_rec]. by rewrite B2. }
  { apply (cmp_key_run 156 replica_comps _ Hin Hkl). }
  erewrite bind_ok by (apply on_rep_run; exact E4). erewrite bind_ok by apply modify_run. cbn [fst].
  destruct fuel as [|fuel]; [lia|]. cbn [clones_loop].
  assert (length (record f4) = 156%nat) as L4 by (rewrite (sf_rec _ _ S4); exact Hkl).
  assert (fname f4 = name) as N4 by (rewrite (sf_name _ _ S4); exact N3). rewrite N3 in Rest, O4.
  destruct (isam_next f4 w4) as (w5 & f5 & E5 & S5 & _ & Hhere & _).
  { by rewrite N4. }
  { rewrite N4, Rest, L4. apply Forall_forall. intros r [_ Hx]%list_elem_of_filter. rewrite Forall_forall in Hsz. auto. }
  erewrite bind_ok by (apply on_rep_run; exact E5). erewrite bind_ok by apply modify_run. cbn [fst].
  rewrite N4, Rest in Hhere. change (memeq (status f5) ST_OK 2) with (is_ok f5). unfold replica_from.
  destruct (filter _ recs) as [|r rest].
  - destruct Hhere as [Hst _]. unfold is_ok. rewrite Hst. by eexists.
  - destruct Hhere as (-> & _ & _). cbn [negb]. rewrite (clone_of_short (record f5)) by (rewrite (sf_rec _ _ S5); lia). by eexists.
Qed.

End file.

(** ** A file with a replica of one table *)

#[local] Existing Instance mem_extfh.
#[local] Existing Instance mem_isam.

Definition ex_replica_rec : bytes := take 156 (bs "cliente" ++ replicate 23 32 ++ bs "001" ++ bs "codigo" ++ replicate 200 32).
Definition ex_replica_files : isam_mem := mk_im {[ bs "rep" := [ex_replica_rec] ]} ∅.

Lemma get_clones_overrun_witness : ∃ s', get_clones (Some (bs "rep")) 2 (bs "agenda") (ex_replica_files, None) = (s', inl Fault).
Proof.
  destruct (get_clones_overrun ex_replica_files (bs "rep") [ex_replica_rec] (bs "agenda") 2) as [s' E].
  - done.
  - by repeat constructor.
  - done.
  - simpl; lia.
  - lia.
  - exists s'. exact E.
Defined.
