(* ===== verification/ChangeLog.v ===== *)
(** The change log (src/changelog): the trigger that writes every change of a table to the
    table changelog, and the daemon that applies the pending changes to the ISAM files. *)

From stdpp Require Import prelude gmap strings.
From S2P Require Import Prelude Fhtypes Fcd Table Kdb Libpq Replicator.
Local Open Scope Z_scope.

(** ** The text of a change and the record *)

(** src/changelog/sync_execute.c:106-135 sync_execute (one column): as [pq2cob] does, but a
    number with decimals may be empty; the zeros are then the decimals longer than the
    field. *)
Definition sync_field (c : column_t) (aux : bytes) : option bytes :=
  let neg := match aux with b :: _ => b =? ch "-" | [] => false end in
  let p := if neg then drop 1 aux else aux in
  if is_num c && negb (col_dec c =? 0)%nat && bool_decide (p = []) then
    let f := zeros (col_len c + col_dec c) in
    Some (if neg then alter (λ b, Z.lor b 64) (col_len c - 1)%nat f else f)
  else field_of_text c aux.

(** The text up to the first bar, and what follows it. *)
Fixpoint split_bar (s : bytes) : bytes * option bytes :=
  match s with
  | [] => ([], None)
  | b :: s' => if b =? ch "|" then ([], Some s') else let r := split_bar s' in (b :: fst r, snd r)
  end.

(** src/changelog/sync_execute.c:86-139 sync_execute (the record): a column after the last
    bar takes the last text again. *)
Fixpoint sync_fields (cols : list column_t) (p1 : bytes) (record : bytes) (offset : nat) : option bytes :=
  match cols with
  | [] => Some record
  | c :: cols' =>
      let '(aux, rest) := split_bar p1 in
      if Z.of_nat (length aux) <=? MAX_REC_LEN then
        f ← sync_field c aux;
        if (offset + length f <=? length record)%nat then
          sync_fields cols' (default p1 rest) (blit record offset f) (offset + col_len c)
        else None
      else None
  end.

(** ** The tables to synchronise *)

(** src/changelog/sync_start.c:7-8 sync_tables : the connection, the files, and the two
    lists; both pointers are at the last item of their list after [sync_add_table]. *)
Record sync_st (D W : Type) := mk_sync { sy_conn : D; sy_isam : W; sy_fcds : list fcd_t; sy_tables : list table_t }.
Arguments mk_sync {D W}.
Arguments sy_conn {D W}.
Arguments sy_isam {D W}.
Arguments sy_fcds {D W}.
Arguments sy_tables {D W}.

(** src/changelog/sync_execute.c:59-64 sync_execute (the name of a file): without directories,
    up to the first blank. *)
Definition sync_filename (fcd : fcd_t) : option bytes :=
  f ← sub_bytes (file_name fcd) 0 (s16 (getshort (file_name_len fcd)));
  if (length f <=? 256)%nat then Some (basename (cut (cstr f) (ch " "))) else None.

(** src/changelog/sync_execute.c:56-69 sync_execute (the search): the two lists in step; [i]
    is the position of the block found.  Running out of tables is out of the model. *)
Fixpoint sync_find (tabname : bytes) (fcds : list fcd_t) (tables : list table_t) (i : nat) : option (option (nat * fcd_t * table_t)) :=
  match fcds, tables with
  | [], _ => Some None
  | f :: fcds', t :: tables' =>
      p ← sync_filename f;
      if decide (p = tabname) then Some (Some (i, f, t)) else sync_find tabname fcds' tables' (S i)
  | _ :: _, [] => None
  end.

Section sync.
Context {D W : Type} `{!Libpq D, !Extfh W}.
Notation st := (sync_st D W).

Definition sync_exec (sql : bytes) : M st pgresult := λ s,
  let (d, r) := PQexec sql (sy_conn s) in (mk_sync d (sy_isam s) (sy_fcds s) (sy_tables s), inr r).
Definition on_file {A} (m : M W A) : M st A := λ s,
  let (w, r) := m (sy_isam s) in (mk_sync (sy_conn s) w (sy_fcds s) (sy_tables s), r).
Definition put_fcd (i : nat) (f : fcd_t) : M st unit :=
  modify (λ s, mk_sync (sy_conn s) (sy_isam s) (<[i:=f]> (sy_fcds s)) (sy_tables s)).

(** src/changelog/sync_start.c:10-13 sync_start *)
Definition sync_start : M st unit := modify (λ s, mk_sync (sy_conn s) (sy_isam s) [] []).

(** src/changelog/sync_add_table.c:14-32 sync_add_table : the block and the table of the last
    open are copied to the end of the lists. *)
Definition sync_add_table (open : option (fcd_t * table_t)) : M st unit :=
  match open with
  | None => mret tt
  | Some (f, t) => modify (λ s, mk_sync (sy_conn s) (sy_isam s) (sy_fcds s ++ [f]) (sy_tables s ++ [t]))
  end.

(** ** The daemon *)

(** src/changelog/sync_execute.c:141-147 sync_execute (the operation) *)
Definition sync_op (action : bytes) : Z :=
  if decide (action = bs "insert") then OP_WRITE else if decide (action = bs "update") then OP_REWRITE else OP_DELETE.

(** src/changelog/sync_execute.c:158-162 sync_execute (the status of the change) *)
Definition new_status (st : bytes) : bytes :=
  if byte_at st 0 =? ch "0" then bs "SUCCESS"
  else cstr (bs "ERROR_" ++ [byte_at st 0] ++ bs "_" ++ fmt_d (byte_at st 1)).

(** src/changelog/sync_execute.c:163-163 sync_execute (the update) *)
Definition mark_text (status tabname id : bytes) : bytes :=
  bs "update changelog set status='" ++ status ++ bs "' where status='PENDING' and table_name='" ++ tabname ++ bs "' and id=" ++ id.

(** A column of the row as a C string copied into [n] bytes. *)
Definition row_text (row : list bytes) (i n : nat) : M st bytes :=
  v ← of_option (cstr <$> row !! i);
  guard_fault (length v <? n)%nat;;
  mret v.

(** src/changelog/sync_execute.c:48-171 sync_execute (one change): the search starts at the
    pointer [sync_fcds], the last block, and at the first table. *)
Definition sync_row (row : list bytes) : M st unit :=
  id ← row_text row 1 33;
  tabname ← row_text row 3 33;
  action ← row_text row 4 33;
  fcds ← gets sy_fcds;
  tables ← gets sy_tables;
  let last := pred (length fcds) in
  o ← of_option (sync_find tabname (drop last fcds) tables last);
  match o with
  | None => mret tt
  | Some (i, f, tab) =>
      p1 ← of_option (cstr <$> row !! (if decide (action = bs "delete") then 5 else 6)%nat);
      let reclen := s16 (getshort (rec_len f)) in
      guard_fault ((0 <=? reclen) && (reclen <=? Z.of_nat (length (record f))));;
      r ← of_option (sync_fields (t_columns tab) p1 (blit (record f) 0 (replicate (Z.to_nat reclen) 0)) 0);
      f ← on_file (extfh (sync_op action) (set_rec r f));
      put_fcd i f;;
      let sql := mark_text (new_status (status f)) (t_name tab) id in
      guard_fault (length sql <=? 256)%nat;;
      sync_exec sql;;
      mret tt
  end.

Definition declare_text : bytes := bs "declare cursor_columns cursor for select * from changelog where status='PENDING' order by id".
Definition fetch_text : bytes := bs "fetch next in cursor_columns".

(** src/changelog/sync_execute.c:42-172 sync_execute (the changes) *)
Fixpoint sync_rows (fuel : nat) : M st unit :=
  match fuel with
  | O => stop NoFuel
  | S fuel' =>
      res ← sync_exec fetch_text;
      match rs_rows res with
      | row :: _ => if decide (rs_status res = PGRES_TUPLES_OK) then sync_row row;; sync_rows fuel' else mret tt
      | [] => mret tt
      end
  end.

(** src/changelog/sync_execute.c:29-182 sync_execute (one turn): false when the cursor cannot
    be declared. *)
Definition sync_turn (fuel : nat) : M st bool :=
  sync_exec (bs "BEGIN");;
  res ← sync_exec declare_text;
  if decide (rs_status res = PGRES_COMMAND_OK) then
    sync_rows fuel;;
    sync_exec (bs "CLOSE cursor_columns");;
    sync_exec (bs "COMMIT");;
    mret true
  else mret false.

(** src/changelog/sync_execute.c:13-184 sync_execute : a turn every five seconds, with at most
    [fuel] changes each. *)
Fixpoint sync_execute (turns fuel : nat) : M st unit :=
  match turns with
  | O => stop NoFuel
  | S turns' => again ← sync_turn fuel; if again : bool then sync_execute turns' fuel else mret tt
  end.

(** src/changelog/apply_changelog.c:29-49 apply_changelog (the wait) : there is no way out, so
    the rest of the function is never reached. *)
Fixpoint apply_wait (fuel : nat) : M st unit :=
  match fuel with
  | O => stop NoFuel
  | S fuel' =>
      sync_exec (bs "BEGIN");;
      sync_exec (bs "LISTEN PQFHCHANNEL");;
      sync_exec (bs "COMMIT");;
      apply_wait fuel'
  end.

(** src/changelog/apply_changelog.c:13-49 apply_changelog *)
Definition apply_changelog (fuel : nat) (open : option (fcd_t * table_t)) : M st unit :=
  match open with
  | None => mret tt
  | Some _ => apply_wait fuel
  end.

(** ** The trigger *)

(** src/changelog/dbutils.c:40-51 execcmd_or_exit : on the connection that is there. *)
Definition exec_or_exit (sql : bytes) : M st unit :=
  res ← sync_exec sql;
  if decide (rs_status res = PGRES_COMMAND_OK) then mret tt else stop Exit.

(** src/changelog/create_changelog_function.c:31-43 create_changelog_function (one column) *)
Definition data_item (who : bytes) (col : bytes * bytes) : bytes :=
  (if bool_decide (snd col = bs "character") || bool_decide (snd col = bs "character varying") then
     bs "coalesce(" ++ who ++ bs "." ++ fst col ++ bs ", '')"
   else if decide (snd col = bs "numeric") then bs "coalesce(" ++ who ++ bs "." ++ fst col ++ bs "::varchar, '')"
   else []) ++ bs "  ".

(** src/changelog/create_changelog_function.c:21-49 create_changelog_function (the data of a
    change): the texts of the columns with a bar between them. *)
Definition data_text (var who : bytes) (cols : list (bytes * bytes)) : bytes :=
  bs "            " ++ var ++ bs " := " ++ join (bs " || '|' || ") (data_item who <$> cols) ++ bs ";".

(** The lines of a text that goes on after a backslash. *)
Definition lines (l : list bytes) : bytes := join [10; 32] l.

(** src/changelog/create_changelog_function.c:55-85 create_changelog_function (the function) *)
Definition function_text (tablename old new : bytes) : bytes := lines [
  bs "create or replace function changelog_function_" ++ tablename ++ bs "() returns trigger as $$ ";
  bs "    declare ";
  bs "        action text; ";
  bs "        table_name text; ";
  bs "        transaction_id bigint; ";
  bs "        timestamp timestamp; ";
  bs "        old_data text; ";
  bs "        new_data text; ";
  bs "    begin ";
  bs "        action := lower(TG_OP::text); ";
  bs "        table_name := TG_TABLE_NAME::text; ";
  bs "        transaction_id := txid_current(); ";
  bs "        timestamp := current_timestamp; ";
  bs "        ";
  bs "        if TG_OP = 'DELETE' then ";
  old ++ bs " ";
  bs "        elseif TG_OP = 'INSERT' then ";
  new ++ bs " ";
  bs "        elseif TG_OP = 'UPDATE' then ";
  old ++ bs " ";
  new ++ bs " ";
  bs "        end if; ";
  bs "        ";
  bs "        insert into changelog ";
  bs "        values ('PENDING', nextval('changelog_id_seq'::regclass), timestamp, table_name, action, old_data, new_data); ";
  bs "        ";
  bs "        return null; ";
  bs "    end; ";
  bs "    $$ language plpgsql;"].

Definition columns_text (schema tablename : bytes) : bytes :=
  bs "select column_name,data_type,character_maximum_length,numeric_precision,numeric_scale from information_schema.columns where table_schema = '" ++
  schema ++ bs "' and table_name = '" ++ tablename ++ bs "' order by ordinal_position".

(** src/changelog/create_changelog_function.c:8-90 create_changelog_function : without columns
    the two texts are never set. *)
Definition create_changelog_function (schema tablename : bytes) : M st unit :=
  res ← sync_exec (columns_text schema tablename);
  cols ← of_option (mapM (λ row, name ← row !! 0%nat; tp ← row !! 1%nat; Some (cstr name, cstr tp)) (rs_rows res));
  guard_fault (negb (bool_decide (cols = [])) && forallb (λ c, (length (fst c) <=? 256) && (length (snd c) <=? 256) && (length (data_item (bs "OLD") c) <=? 258))%nat cols);;
  let old := data_text (bs "old_data") (bs "OLD") cols in
  let new := data_text (bs "new_data") (bs "NEW") cols in
  guard_fault ((length old <=? 8192) && (length new <=? 8192))%nat;;
  sync_exec (bs "CLOSE cursor_columns");;
  sync_exec (bs "CREATE LANGUAGE plpgsql");;
  exec_or_exit (function_text tablename old new).

(** src/changelog/dbutils.c:54-60 rtrim : up to the first blank. *)
Definition rtrim (s : bytes) (n : nat) : bytes := cut (take n (cstr s)) (ch " ").

(** src/changelog/add_changelog_trigger.c:8-20 add_changelog_trigger : the names up to their
    first blank. *)
Definition add_changelog_trigger (_schema _tablename : bytes) : M st unit :=
  let schema := rtrim _schema 256 in
  let tablename := rtrim _tablename 256 in
  create_changelog_function schema tablename;;
  let drop_sql := bs "drop trigger if exists changelog_trigger_" ++ tablename ++ bs " on " ++ schema ++ bs "." ++ tablename in
  guard_fault (length drop_sql <=? 256)%nat;;
  sync_exec drop_sql;;
  let sql := bs "create trigger changelog_trigger_" ++ tablename ++ bs " after insert or update or delete on " ++ schema ++ bs "." ++
    tablename ++ bs " for each row execute procedure public.changelog_function_" ++ tablename ++ bs "()" in
  guard_fault (length sql <=? 256)%nat;;
  exec_or_exit sql.

(** src/changelog/create_changelog_table.c:7-31 create_changelog_table *)
Definition create_changelog_table : M st unit :=
  res ← sync_exec (bs "select table_name from information_schema.tables where table_name = 'changelog'");
  if bool_decide (rs_status res = PGRES_TUPLES_OK) && (length (rs_rows res) =? 1)%nat then mret tt
  else exec_or_exit (lines [
    bs "create table changelog( ";
    [9] ++ bs "    status char(10) not null, "; [9] ++ bs "    id serial not null, ";
    [9] ++ bs "    timestamp timestamp not null, "; [9] ++ bs "    table_name varchar(40) not null, ";
    [9] ++ bs "    action varchar(10), "; [9] ++ bs "    old_data text, "; [9] ++ bs "    new_data text, ";
    [9] ++ bs "    primary key(status, table_name, id) "; [9] ++ bs "    );"]).

End sync.
