(* ===== verification/ChangeLogSpec.v ===== *)
(** What the synchronisation of a table relies on in the server and in the ISAM files, and
    what it does: the file follows the table. *)

From stdpp Require Import prelude gmap strings.
From S2P Require Import Prelude Fhtypes Fcd Table Kdb Libpq Replicator DbRead DbWrite DbRows DbSession DbSpec Merge Cmp CmpIsam ChangeLog.
Local Open Scope Z_scope.

(** ** The table changelog *)

Record log_row := mk_log { lr_status : bytes; lr_id : bytes; lr_time : bytes; lr_table : bytes; lr_action : bytes; lr_old : bytes; lr_new : bytes }.

Definition log_texts (c : log_row) : list bytes :=
  [lr_status c; lr_id c; lr_time c; lr_table c; lr_action c; lr_old c; lr_new c].

Definition PENDING : bytes := bs "PENDING".
Definition pending (c : log_row) : Prop := lr_status c = PENDING.
#[global] Instance pending_dec c : Decision (pending c).
Proof. unfold pending. apply _. Defined.

Definition set_lr_status (st : bytes) (c : log_row) : log_row :=
  mk_log st (lr_id c) (lr_time c) (lr_table c) (lr_action c) (lr_old c) (lr_new c).

(** The update of the status: a pending change of the table with that number. *)
Definition marked (st tab id : bytes) (c : log_row) : log_row :=
  if decide (pending c ∧ lr_table c = tab ∧ lr_id c = id) then set_lr_status st c else c.

(** A text that needs no escape between quotes. *)
Definition quotable (s : bytes) : Prop := 39 ∉ s ∧ 0 ∉ s.
Definition number (s : bytes) : Prop := s ≠ [] ∧ Forall (λ b, isdigit b = true) s.

(** The server: the rows of changelog in the order of their numbers; inside a transaction a
    cursor over those that were pending when it was declared. *)
Class PgLog (D : Type) `{!Libpq D} := {
  log_rows : D → list log_row;
  log_open : D → bool;
  log_cursor : D → option (list log_row);

  log_begin d : log_open d = false →
    ∃ d' r, PQexec (bs "BEGIN") d = (d', r) ∧ log_open d' = true ∧ log_rows d' = log_rows d ∧ log_cursor d' = log_cursor d;
  log_declare d : log_open d = true → log_cursor d = None →
    ∃ d', PQexec declare_text d = (d', mk_res PGRES_COMMAND_OK []) ∧ log_open d' = true ∧ log_rows d' = log_rows d ∧
      log_cursor d' = Some (filter pending (log_rows d));
  log_fetch d l : log_open d = true → log_cursor d = Some l →
    ∃ d', PQexec fetch_text d = (d', mk_res PGRES_TUPLES_OK (match l with [] => [] | c :: _ => [log_texts c] end)) ∧
      log_open d' = true ∧ log_rows d' = log_rows d ∧ log_cursor d' = Some (tail l);
  (** The status is a column of ten characters. *)
  log_mark d st tab id : log_open d = true → quotable st → (length st ≤ 10)%nat → quotable tab → number id →
    ∃ d' r, PQexec (mark_text st tab id) d = (d', r) ∧ log_open d' = true ∧ log_rows d' = marked st tab id <$> log_rows d ∧
      log_cursor d' = log_cursor d;
  log_close d l : log_open d = true → log_cursor d = Some l →
    ∃ d' r, PQexec (bs "CLOSE cursor_columns") d = (d', r) ∧ log_open d' = true ∧ log_rows d' = log_rows d ∧ log_cursor d' = None;
  log_commit d : log_open d = true →
    ∃ d' r, PQexec (bs "COMMIT") d = (d', r) ∧ log_open d' = false ∧ log_rows d' = log_rows d ∧ log_cursor d' = None;
}.

(** ** The updates of an ISAM file *)

Notation recmap := (gmap bytes bytes).

Definition by_key (comps : list (Z * Z)) (recs : list bytes) : recmap := list_to_map ((λ r, (kval comps r, r)) <$> recs).

Lemma by_key_lookup comps recs k : by_key comps recs !! k = head (filter (λ r, kval comps r = k) recs).
Proof.
  unfold by_key. induction recs as [|r recs IH]; [done|]. cbn [fmap list_fmap list_to_map foldr]. rewrite filter_cons.
  destruct (decide (kval comps r = k)) as [<-|Hne]; [by rewrite lookup_insert_eq|]. by rewrite lookup_insert_ne.
Qed.

(** The reference: a file is a map from keys to records; the flag tells if it was changed. *)
Definition isam_apply (op : Z) (k r : bytes) (m : recmap) : recmap * bool :=
  match m !! k with
  | None => if op =? OP_WRITE then (<[k:=r]> m, true) else (m, false)
  | Some _ =>
      if op =? OP_WRITE then (m, false) else if op =? OP_REWRITE then (<[k:=r]> m, true) else (delete k m, true)
  end.

Class IsamUpdate (W : Type) `{!Extfh W, !IsamFile W} := {
  isam_io : W → bytes → Prop;
  isam_update op f w recs comps k : op ∈ [OP_WRITE; OP_REWRITE; OP_DELETE] → isam_io w (fname f) →
    isam_recs w (fname f) = Some recs → cmp_comps (kdb f) = Some comps → cmp_key comps (record f) = Some k →
    ∃ w' f' recs', extfh op f w = (w', inr f') ∧ same_file f f' ∧ file_name_len f' = file_name_len f ∧ isam_io w' (fname f) ∧
      isam_recs w' (fname f) = Some recs' ∧ by_key comps recs' = fst (isam_apply op k (record f) (by_key comps recs)) ∧
      status f' = (if snd (isam_apply op k (record f) (by_key comps recs)) then ST_OK
                   else if op =? OP_WRITE then ST_DUPL_KEY else ST_REC_NOT_FOUND) ∧
      (∀ m, m ≠ fname f → isam_recs w' m = isam_recs w m ∧ (isam_io w m → isam_io w' m));
}.

(** ** The text of a change *)

Lemma split_bar_last x : ch "|" ∉ x → split_bar x = (x, None).
Proof.
  induction x as [|b x IH]; [done|]. intros [Hb Hx]%not_elem_of_cons. cbn [split_bar].
  rewrite (proj2 (Z.eqb_neq b (ch "|"))) by congruence. by rewrite IH.
Qed.

Lemma split_bar_app x rest : ch "|" ∉ x → split_bar (x ++ bs "|" ++ rest) = (x, Some rest).
Proof.
  induction x as [|b x IH]; [done|]. intros [Hb Hx]%not_elem_of_cons. cbn [split_bar app].
  rewrite (proj2 (Z.eqb_neq b (ch "|"))) by congruence. by rewrite IH.
Qed.

(** A text without bars and NULs, within the buffer. *)
Definition item_ok (x : bytes) : Prop := ch "|" ∉ x ∧ 0 ∉ x ∧ Z.of_nat (length x) <= MAX_REC_LEN.

Lemma sync_field_text c aux f : field_of_text c aux = Some f → sync_field c aux = Some f.
Proof.
  intros H. unfold sync_field. destruct (is_num c && _ && _) eqn:E; [|done].
  apply andb_true_iff in E as [[Hn Hd]%andb_true_iff Hp]. apply bool_decide_eq_true in Hp. apply negb_true_iff in Hd.
  exfalso. revert H. unfold field_of_text. cbv zeta. rewrite Hn, Hp, Hd. cbn [length].
  rewrite (proj2 (Nat.leb_gt (col_dec c + 1) 0)) by lia. by rewrite andb_false_r.
Qed.

(** The texts between bars become the record as the columns of a row do. *)
Lemma sync_fields_row cols : ∀ row record o r, length row = length cols → Forall item_ok row →
  pq2cob_loop cols row record o = Some r → sync_fields cols (join (bs "|") row) record o = Some r.
Proof.
  induction cols as [|c cols IH]; intros [|x row] record o r Hl Hrow E; try done. cbn [pq2cob_loop head tail] in E.
  apply Forall_cons in Hrow as [(Hbar & Hnul & Hlen) Hrow]. cbn [mbind option_bind] in E. rewrite cstr_id in E by done.
  destruct (field_of_text c x) as [f|] eqn:Ef; [|done]. cbn [mbind option_bind] in E. apply sync_field_text in Ef.
  destruct (_ <=? _)%nat eqn:Eo in E; [|done]. cbn [sync_fields].
  destruct row as [|y row].
  - destruct cols as [|]; [|done]. cbn [join]. rewrite split_bar_last, (proj2 (Z.leb_le _ _) Hlen), Ef by done.
    cbn [mbind option_bind]. by rewrite Eo.
  - change (join (bs "|") (x :: y :: row)) with (x ++ bs "|" ++ join (bs "|") (y :: row)).
    rewrite split_bar_app, (proj2 (Z.leb_le _ _) Hlen), Ef by done. cbn [mbind option_bind default]. rewrite Eo.
    apply IH; [by injection Hl|done|done].
Qed.

Lemma join_nul (row : list bytes) : Forall item_ok row → 0 ∉ join (bs "|") row.
Proof.
  induction 1 as [|x row (_ & Hx & _) _ IH]; [by apply not_elem_of_nil|]. destruct row as [|y row]; [done|].
  change (join (bs "|") (x :: y :: row)) with (x ++ bs "|" ++ join (bs "|") (y :: row)).
  rewrite !not_elem_of_app. split; [done|]. split; [|done]. by intros H%list_elem_of_singleton.
Qed.

(** ** What a turn does *)

Section sync.
Context {D W : Type} `{!Libpq D, !Extfh W, !PgLog D, !IsamFile W, !IsamUpdate W}.
Context (cols : list column_t) (comps : list (Z * Z)) (m name : bytes).
Notation st := (sync_st D W).
Notation len := (cols_len cols).

(** The columns fill the record, the key is inside it, the name of the file is the name of
    the table. *)
Record sync_wf : Prop := {
  sw_layout : layout_ok cols 0;
  sw_len : Z.of_nat len <= MAX_REC_LEN;
  sw_comps : comps_in len comps;
  sw_name : quotable name ∧ (length name ≤ 32)%nat;
}.

(** The table was added and its file is open for updates. *)
Record served (s : st) (f : fcd_t) (recs : list bytes) : Prop := {
  se_fcds : sy_fcds s = [f];
  se_table : ∃ t, sy_tables s = [t] ∧ t_columns t = cols ∧ t_name t = name;
  se_file : fname f = m;
  se_name : sync_filename f = Some name;
  se_comps : cmp_comps (kdb f) = Some comps;
  se_reclen : getshort (rec_len f) = Z.of_nat len;
  se_record : length (record f) = len;
  se_io : isam_io (sy_isam s) m;
  se_recs : isam_recs (sy_isam s) m = Some recs;
}.

(** The change of a row of the log: an operation and a record. *)
Record tells (c : log_row) (e : Z * bytes) : Prop := {
  te_table : lr_table c = name;
  te_id : number (lr_id c) ∧ (length (lr_id c) ≤ 32)%nat;
  te_action : lr_action c ∈ [bs "insert"; bs "update"; bs "delete"];
  te_op : sync_op (lr_action c) = fst e;
  te_len : length (snd e) = len;
  te_fields : Forall (λ c, wf_field c (field_at (snd e) c)) cols;
  te_data : ∃ row, (if decide (lr_action c = bs "delete") then lr_old c else lr_new c) = join (bs "|") row ∧ Forall item_ok row ∧
    Forall2 (λ col t', same_value col (text_of_field col (field_at (snd e) col)) t') cols row;
}.

Definition apply_event (mp : recmap) (e : Z * bytes) : recmap * bool := isam_apply (fst e) (kval comps (snd e)) (snd e) mp.

(** The file after a list of changes. *)
Definition apply_events (mp : recmap) (es : list (Z * bytes)) : recmap := foldl (λ mp e, fst (apply_event mp e)) mp es.

Definition outcome (e : Z * bytes) (ok : bool) : bytes :=
  if ok then bs "SUCCESS" else if fst e =? OP_WRITE then bs "ERROR_2_50" else bs "ERROR_2_51".

(** The statuses of the changes. *)
Fixpoint outcomes (mp : recmap) (es : list (Z * bytes)) : list bytes :=
  match es with
  | [] => []
  | e :: es' => let r := apply_event mp e in outcome e (snd r) :: outcomes (fst r) es'
  end.

(** The pending rows take the statuses in turn. *)
Fixpoint settle (rows : list log_row) (sts : list bytes) : list log_row :=
  match rows with
  | [] => []
  | c :: rows' =>
      if decide (pending c) then set_lr_status (default PENDING (head sts)) c :: settle rows' (tail sts) else c :: settle rows' sts
  end.

Context (Hwf : sync_wf).

Lemma outcome_ok e ok : quotable (outcome e ok) ∧ (length (outcome e ok) ≤ 10)%nat ∧ outcome e ok ≠ PENDING.
Proof.
  unfold outcome. destruct ok; [|destruct (fst e =? OP_WRITE)]; (split; [split; apply (bool_decide_unpack _); by vm_compute|]); split; [simpl; lia|done|simpl; lia|done|simpl; lia|done].
Qed.

Lemma number_nul s : number s → 0 ∉ s.
Proof. intros [_ H] Hin. rewrite Forall_forall in H. by specialize (H 0 Hin). Qed.

Lemma new_status_outcome (e : Z * bytes) (ok : bool) :
  new_status (if ok then ST_OK else if fst e =? OP_WRITE then ST_DUPL_KEY else ST_REC_NOT_FOUND) = outcome e ok.
Proof. unfold outcome. destruct ok; [done|]. by destruct (fst e =? OP_WRITE). Qed.

Lemma sync_exec_run sql (s : st) d r : PQexec sql (sy_conn s) = (d, r) →
  sync_exec sql s = (mk_sync d (sy_isam s) (sy_fcds s) (sy_tables s), inr r).
Proof. intros H. unfold sync_exec. by rewrite H. Qed.

Lemma on_file_run {A} (p : M W A) (s : st) w a : p (sy_isam s) = (w, inr a) →
  on_file p s = (mk_sync (sy_conn s) w (sy_fcds s) (sy_tables s), inr a).
Proof. intros H. unfold on_file. by rewrite H. Qed.

Lemma row_text_run row i n v (s : st) : row !! i = Some v → 0 ∉ v → (length v < n)%nat → row_text row i n s = (s, inr v).
Proof.
  intros H Hv Hn. unfold row_text. rewrite H. cbn [fmap option_fmap option_map of_option]. rewrite cstr_id by done.
  rewrite ret_bind, (proj2 (Nat.ltb_lt _ _) Hn). done.
Qed.

Lemma action_text c : lr_action c ∈ [bs "insert"; bs "update"; bs "delete"] → 0 ∉ lr_action c ∧ (length (lr_action c) < 33)%nat.
Proof.
  rewrite !elem_of_cons, elem_of_nil. intros [->|[->|[->|[]]]]; (split; [apply (bool_decide_unpack _); by vm_compute|simpl; lia]).
Qed.

Lemma op_cases c e : tells c e → fst e ∈ [OP_WRITE; OP_REWRITE; OP_DELETE].
Proof.
  intros H. rewrite <-(te_op _ _ H). unfold sync_op. do 2 (case_decide; [rewrite !elem_of_cons; auto|]). rewrite !elem_of_cons. auto.
Qed.

Lemma mark_length e ok id : (length id ≤ 32)%nat → (length (mark_text (outcome e ok) name id) <= 256)%nat.
Proof.
  intros Hid. unfold mark_text. rewrite !length_app. pose proof (outcome_ok e ok) as (_ & H & _). pose proof (sw_name Hwf) as [_ Hn].
  change (length (bs "update changelog set status='")) with 29%nat. change (length (bs "' where status='PENDING' and table_name='")) with 41%nat.
  change (length (bs "' and id=")) with 9%nat. lia.
Qed.

(** The record of a change. *)
Lemma change_record c e rec : tells c e → length rec = len →
  ∃ p1, cstr <$> log_texts c !! (if decide (lr_action c = bs "delete") then 5 else 6)%nat = Some p1 ∧
    sync_fields cols p1 (blit rec 0 (replicate (Z.to_nat (Z.of_nat len)) 0)) 0 = Some (snd e).
Proof.
  intros [_ _ _ _ Hl Hf (row & Hrow & Hitems & Hsame)] Hr. exists (join (bs "|") row). split.
  - rewrite <-(cstr_id _ (join_nul _ Hitems)), <-Hrow. by case_decide.
  - rewrite Nat2Z.id. apply sync_fields_row; [by apply Forall2_length in Hsame|done|]. assert (length (blit rec 0 (replicate len 0)) = len) as Hb by (rewrite blit_length; [done|by rewrite length_replicate, Hr]).
    rewrite (pq2cob_loop_back cols (snd e) 0 row _ (sw_layout Hwf)) by (done || lia). cbn [Nat.add].
    by rewrite take_ge, drop_ge, app_nil_r by lia.
Qed.

(** The transaction of a turn, with [l] still to fetch. *)
Definition in_turn (s : st) (l : list log_row) : Prop := log_open (sy_conn s) = true ∧ log_cursor (sy_conn s) = Some l.

(** One change: the file, its status in the log. *)
Lemma sync_row_run (s : st) f recs l c e : served s f recs → in_turn s l → tells c e →
  let r := apply_event (by_key comps recs) e in
  ∃ s' f' recs', sync_row (log_texts c) s = (s', inr tt) ∧ served s' f' recs' ∧ in_turn s' l ∧ by_key comps recs' = fst r ∧
    log_rows (sy_conn s') = marked (outcome e (snd r)) name (lr_id c) <$> log_rows (sy_conn s) ∧
    (∀ m', m' ≠ m → isam_recs (sy_isam s') m' = isam_recs (sy_isam s) m').
Proof.
  intros [S1 (t & S2 & St & Sn) S3 S4 S5 S6 S7 S8 S9] [Ho Hcur] Hc. cbv zeta. pose proof Hc as [T1 [T2 T2'] T3 T4 T5 T6 T7].
  destruct (action_text c T3) as [A1 A2]. pose proof (sw_name Hwf) as [[Nq Nz] Nl]. unfold sync_row.
  rewrite (bind_ok _ _ _ _ _ (row_text_run (log_texts c) 1 33 (lr_id c) s eq_refl (number_nul _ T2) ltac:(lia))).
  rewrite (bind_ok _ _ _ _ _ (row_text_run (log_texts c) 3 33 (lr_table c) s eq_refl ltac:(by rewrite T1) ltac:(rewrite T1; lia))).
  rewrite (bind_ok _ _ _ _ _ (row_text_run (log_texts c) 4 33 (lr_action c) s eq_refl A1 A2)).
  rewrite !(bind_ok _ _ _ _ _ (gets_run _ _)), S1, S2. cbn [length pred drop sync_find]. rewrite S4, T1. cbn [mbind option_bind].
  rewrite (decide_True (P:=name = name)) by done. cbn [of_option]. rewrite ret_bind. destruct (change_record c e (record f) Hc S7) as (p1 & E1 & E2).
  rewrite E1. cbn [of_option]. rewrite ret_bind, S6. destruct (short_len len (sw_len Hwf)) as [-> _].
  rewrite S7, Z.leb_refl, (proj2 (Z.leb_le _ _)) by lia. cbn [andb guard_fault]. rewrite ret_bind, St, E2. cbn [of_option]. rewrite ret_bind, T4.
  destruct (cmp_key_run len comps (snd e) (sw_comps Hwf) T5) as [Hk _].
  destruct (isam_update (fst e) (set_rec (snd e) f) (sy_isam s) recs comps (kval comps (snd e))) as (w & f' & recs' & E & Hsame & Hl & Hio & Hr & Hm & Hst & Hoth);
    [by eapply op_cases|by rewrite <-S3 in S8|by rewrite <-S3 in S9|done|done|].
  change (fname (set_rec (snd e) f)) with (fname f) in *. rewrite S3 in *. change (record (set_rec (snd e) f)) with (snd e) in *.
  erewrite bind_ok by (apply on_file_run; exact E). unfold put_fcd. rewrite (bind_ok _ _ _ _ _ (modify_run _ _)). cbn [sy_conn sy_isam sy_fcds sy_tables].
  rewrite Sn, Hst, new_status_outcome. fold (apply_event (by_key comps recs) e).
  pose proof (mark_length e (snd (apply_event (by_key comps recs) e)) (lr_id c) T2') as Hml. rewrite (proj2 (Nat.leb_le _ _) Hml). cbn [guard_fault]. rewrite ret_bind.
  destruct (outcome_ok e (snd (apply_event (by_key comps recs) e))) as (Q1 & Q2 & _).
  destruct (log_mark (sy_conn s) (outcome e (snd (apply_event (by_key comps recs) e))) name (lr_id c)) as (d & res & Ed & Od & Rd & Cd); try done.
  erewrite bind_ok by (apply sync_exec_run; exact Ed). exists (mk_sync d w [f'] [t]), f', recs'. cbn [sy_conn sy_isam sy_fcds sy_tables]. rewrite S1, S2.
  split; [done|]. split; [|split; [split; [done|exact (eq_trans Cd Hcur)]|split; [done|split; [done|by apply Hoth]]]].
  destruct Hsame as [H1 H2 H3 H4 H5 H6 H7 H8]. split; cbn [sy_conn sy_isam sy_fcds sy_tables]; try done.
  - by exists t.
  - by rewrite H1.
  - unfold sync_filename. rewrite H7, Hl. exact S4.
  - by rewrite H3.
  - by rewrite H5.
  - rewrite H4. exact T5.
Qed.

Definition marks (cs : list log_row) (sts : list bytes) (rows : list log_row) : list log_row :=
  foldl (λ rows p, marked (snd p) name (lr_id (fst p)) <$> rows) rows (zip cs sts).

(** All of them. *)
Lemma sync_rows_run l es : Forall2 tells l es → ∀ fuel (s : st) f recs, (length l < fuel)%nat → served s f recs → in_turn s l →
  ∃ s' f' recs', sync_rows fuel s = (s', inr tt) ∧ served s' f' recs' ∧ in_turn s' [] ∧
    by_key comps recs' = apply_events (by_key comps recs) es ∧
    log_rows (sy_conn s') = marks l (outcomes (by_key comps recs) es) (log_rows (sy_conn s)) ∧
    (∀ m', m' ≠ m → isam_recs (sy_isam s') m' = isam_recs (sy_isam s) m').
Proof.
  induction 1 as [|c e l es Hc _ IH]; intros [|fuel] s f recs Hf Hs [Ho Hcur]; try (simpl in Hf; lia); cbn [sync_rows].
  - destruct (log_fetch (sy_conn s) [] Ho Hcur) as (d & E & Od & Rd & Cd).
    erewrite bind_ok by (apply sync_exec_run; exact E). cbn [rs_rows]. eexists _, f, recs. split; [done|]. by split; [destruct Hs; split|].
  - destruct (log_fetch (sy_conn s) (c :: l) Ho Hcur) as (d & E & Od & Rd & Cd).
    erewrite bind_ok by (apply sync_exec_run; exact E). cbn [rs_rows rs_status]. rewrite decide_True by done.
    set (s0 := mk_sync d (sy_isam s) (sy_fcds s) (sy_tables s)).
    destruct (sync_row_run s0 f recs l c e) as (s1 & f1 & recs1 & E1 & S1 & T1 & M1 & R1 & O1); [by destruct Hs; split|by split|done|].
    rewrite (bind_ok _ _ _ _ _ E1). destruct (IH fuel s1 f1 recs1) as (s' & f' & recs' & E2 & S2 & T2 & M2 & R2 & O2); [simpl in Hf; lia|done|done|].
    exists s', f', recs'. split; [done|]. split; [done|]. split; [done|]. rewrite M2, R2, M1, R1. cbn [sy_conn s0]. rewrite Rd.
    split; [done|]. split; [done|]. intros m' Hm. rewrite O2, O1 by done. done.
Qed.

Lemma marked_other st n rows : Forall (λ c, pending c → lr_id c ≠ n) rows → marked st name n <$> rows = rows.
Proof.
  intros H. induction H as [|c rows Hc _ IH]; [done|]. rewrite fmap_cons, IH. f_equal. unfold marked.
  rewrite decide_False; [done|]. intros (Hp & _ & Hid). by apply Hc.
Qed.

Lemma marks_app l sts rows1 rows2 : marks l sts (rows1 ++ rows2) = marks l sts rows1 ++ marks l sts rows2.
Proof.
  unfold marks. revert rows1 rows2. induction (zip l sts) as [|p z IH]; intros rows1 rows2; [done|]. cbn [foldl]. by rewrite fmap_app, IH.
Qed.

Lemma marks_other l sts c : ¬ pending c → marks l sts [c] = [c].
Proof.
  intros Hc. unfold marks. induction (zip l sts) as [|p z IH]; [done|]. cbn [foldl]. rewrite marked_other; [done|]. by repeat constructor.
Qed.

(** Marking the pending rows one by one gives them their statuses in turn. *)
Lemma marks_settle rows : ∀ sts, NoDup (lr_id <$> rows) → Forall (λ c, pending c → lr_table c = name) rows →
  length sts = length (filter pending rows) → Forall (λ st, st ≠ PENDING) sts →
  marks (filter pending rows) sts rows = settle rows sts.
Proof.
  induction rows as [|c rows IH]; intros sts Hnd Ht Hl Hst; [by destruct sts|]. rewrite fmap_cons in Hnd. apply NoDup_cons in Hnd as [Hc Hnd].
  apply Forall_cons in Ht as [Htc Ht]. rewrite filter_cons in *. cbn [settle]. destruct (decide (pending c)) as [Hp|Hp].
  - destruct sts as [|st sts]; [done|]. apply Forall_cons in Hst as [Hst0 Hst]. unfold marks. cbn [zip zip_with foldl fst snd head tail default].
    rewrite fmap_cons. unfold marked at 2. rewrite decide_True by auto. rewrite marked_other.
    + fold (marks (filter pending rows) sts (set_lr_status st c :: rows)). change (set_lr_status st c :: rows) with ([set_lr_status st c] ++ rows).
      rewrite marks_app, marks_other, IH; auto.
    + apply Forall_forall. intros x Hx _ E. apply Hc. rewrite <-E. by apply list_elem_of_fmap_2.
  - change (c :: rows) with ([c] ++ rows). by rewrite marks_app, marks_other, IH.
Qed.

Lemma outcomes_length mp es : length (outcomes mp es) = length es ∧ Forall (λ st, st ≠ PENDING) (outcomes mp es).
Proof.
  revert mp. induction es as [|e es IH]; intros mp; [done|]. destruct (IH (fst (apply_event mp e))) as [H1 H2]. cbn [outcomes length].
  split; [by f_equal|]. constructor; [apply outcome_ok|done].
Qed.

(** C18: A turn of the synchronisation of a table ends: every pending change of the log is
    applied to the ISAM file in the order of the log, as the insertion, replacement or removal
    the row tells of, and its row gets the result, so that no change stays pending; the
    other rows of the log and the other files stay as they were. *)
Theorem sync_turn_correct fuel (s : st) f recs es : served s f recs → log_open (sy_conn s) = false → log_cursor (sy_conn s) = None →
  NoDup (lr_id <$> log_rows (sy_conn s)) → Forall2 tells (filter pending (log_rows (sy_conn s))) es → (length es < fuel)%nat →
  ∃ s' f' recs', sync_turn fuel s = (s', inr true) ∧ served s' f' recs' ∧ log_open (sy_conn s') = false ∧ log_cursor (sy_conn s') = None ∧
    by_key comps recs' = apply_events (by_key comps recs) es ∧
    log_rows (sy_conn s') = settle (log_rows (sy_conn s)) (outcomes (by_key comps recs) es) ∧
    filter pending (log_rows (sy_conn s')) = [] ∧
    (∀ m', m' ≠ m → isam_recs (sy_isam s') m' = isam_recs (sy_isam s) m').
Proof.
  intros Hs Ho Hcur Hnd Hall Hf. unfold sync_turn. destruct (log_begin _ Ho) as (d1 & r1 & E1 & O1 & R1 & C1).
  erewrite bind_ok by (apply sync_exec_run; exact E1). destruct (log_declare d1 O1) as (d2 & E2 & O2 & R2 & C2); [by rewrite C1|].
  erewrite bind_ok by (apply sync_exec_run; exact E2). cbn [rs_status]. rewrite decide_True by done. rewrite R1 in R2, C2. cbn [sy_isam sy_fcds sy_tables].
  pose proof (Forall2_length _ _ _ Hall) as Hlen. set (rows := log_rows (sy_conn s)) in *.
  destruct (sync_rows_run _ _ Hall fuel (mk_sync d2 (sy_isam s) (sy_fcds s) (sy_tables s)) f recs) as (s3 & f3 & recs3 & E3 & S3 & [O3 C3] & M3 & R3 & I3);
    [lia|by destruct Hs; split|by split|].
  rewrite (bind_ok _ _ _ _ _ E3). destruct (log_close _ _ O3 C3) as (d4 & r4 & E4 & O4 & R4 & C4). erewrite bind_ok by (apply sync_exec_run; exact E4).
  destruct (log_commit d4 O4) as (d5 & r5 & E5 & O5 & R5 & C5). erewrite bind_ok by (apply sync_exec_run; exact E5).
  destruct (outcomes_length (by_key comps recs) es) as [Hol Hop]. cbn [sy_conn sy_isam sy_fcds sy_tables] in *.
  rewrite R3, R2, marks_settle in R4; [|done| |by rewrite Hol|done].
  - eexists (mk_sync d5 _ _ _), f3, recs3. split; [done|]. cbn [sy_conn sy_isam]. rewrite R5, R4.
    split; [by destruct S3; split|]. split; [done|]. split; [done|]. split; [done|]. split; [done|]. split; [|done].
    assert (length (outcomes (by_key comps recs) es) = length (filter pending rows)) as Hl by lia. revert Hl Hop. generalize (outcomes (by_key comps recs) es).
    clear. induction rows as [|c rows IH]; intros sts Hl Hop; [done|]. cbn [settle]. rewrite filter_cons in Hl. destruct (decide (pending c)) as [Hp|Hp].
    + destruct sts as [|st sts]; [done|]. apply Forall_cons in Hop as [H Hop]. rewrite filter_cons_False by done. by apply IH; [injection Hl|].
    + rewrite filter_cons_False by done. by apply IH.
  - apply Forall_forall. intros c Hc Hp. assert (c ∈ filter pending rows) as (i & Hi)%list_elem_of_lookup by by apply list_elem_of_filter.
    destruct (Forall2_lookup_l _ _ _ _ _ Hall Hi) as (e & _ & He). apply (te_table _ _ He).
Qed.

End sync.

(** ** Several tables *)

Section several.
Context {D W : Type} `{!Libpq D, !Extfh W, !PgLog D}.
Notation st := (sync_st D W).

Definition add_all (opens : list (fcd_t * table_t)) : M st unit := foldr (λ o p, sync_add_table (Some o);; p) (mret tt) opens.

Lemma add_all_run opens : ∀ s : st,
  add_all opens s = (mk_sync (sy_conn s) (sy_isam s) (sy_fcds s ++ opens.*1) (sy_tables s ++ opens.*2), inr tt).
Proof.
  induction opens as [|[f t] opens IH]; intros s; cbn [add_all foldr].
  - rewrite !app_nil_r. by destruct s.
  - unfold sync_add_table. rewrite (bind_ok _ _ _ _ _ (modify_run _ _)). fold (add_all opens). rewrite IH. cbn [sy_conn sy_isam sy_fcds sy_tables].
    by rewrite <-!app_assoc.
Qed.

(** The texts of a change that fit the buffers of the program. *)
Definition row_fits (c : log_row) : Prop :=
  (0 ∉ lr_id c ∧ (length (lr_id c) < 33)%nat) ∧ (0 ∉ lr_table c ∧ (length (lr_table c) < 33)%nat) ∧ (0 ∉ lr_action c ∧ (length (lr_action c) < 33)%nat).

Lemma sync_row_skip (s : st) fs f t ts name c : sy_fcds s = fs ++ [f] → sy_tables s = t :: ts → sync_filename f = Some name →
  row_fits c → lr_table c ≠ name → sync_row (log_texts c) s = (s, inr tt).
Proof.
  intros Hf Ht Hn ([I1 I2] & [T1 T2] & [A1 A2]) Hne. unfold sync_row.
  rewrite (bind_ok _ _ _ _ _ (row_text_run (log_texts c) 1 33 (lr_id c) s eq_refl I1 I2)).
  rewrite (bind_ok _ _ _ _ _ (row_text_run (log_texts c) 3 33 (lr_table c) s eq_refl T1 T2)).
  rewrite (bind_ok _ _ _ _ _ (row_text_run (log_texts c) 4 33 (lr_action c) s eq_refl A1 A2)).
  rewrite !(bind_ok _ _ _ _ _ (gets_run _ _)), Hf, Ht. rewrite length_app. cbn [length].
  replace (pred (length fs + 1)) with (length fs) by lia. rewrite drop_app_length. cbn [sync_find]. rewrite Hn. cbn [mbind option_bind].
  rewrite (decide_False (P:=name = lr_table c)) by congruence. done.
Qed.

Lemma sync_rows_skip fs f t ts name : sync_filename f = Some name → ∀ l fuel (s : st), Forall (λ c, row_fits c ∧ lr_table c ≠ name) l →
  (length l < fuel)%nat → sy_fcds s = fs ++ [f] → sy_tables s = t :: ts → log_open (sy_conn s) = true → log_cursor (sy_conn s) = Some l →
  ∃ d, sync_rows fuel s = (mk_sync d (sy_isam s) (sy_fcds s) (sy_tables s), inr tt) ∧ log_open d = true ∧ log_cursor d = Some [] ∧
    log_rows d = log_rows (sy_conn s).
Proof.
  intros Hn l. induction l as [|c l IH]; intros [|fuel] s Hl Hf Hs Ht Ho Hcur; try (simpl in Hf; lia); cbn [sync_rows].
  - destruct (log_fetch _ _ Ho Hcur) as (d & E & Od & Rd & Cd). erewrite bind_ok by (apply sync_exec_run; exact E). cbn [rs_rows].
    by exists d.
  - destruct (log_fetch _ _ Ho Hcur) as (d & E & Od & Rd & Cd). erewrite bind_ok by (apply sync_exec_run; exact E). cbn [rs_rows rs_status].
    apply Forall_cons in Hl as [[H1 H2] Hl]. rewrite decide_True by done.
    rewrite (bind_ok _ _ _ _ _ (sync_row_skip (mk_sync d (sy_isam s) (sy_fcds s) (sy_tables s)) fs f t ts name c Hs Ht Hn H1 H2)).
    destruct (IH fuel (mk_sync d (sy_isam s) (sy_fcds s) (sy_tables s))) as (d' & E' & H); [done|simpl in Hf; lia|done..|].
    exists d'. cbn [sy_conn sy_isam sy_fcds sy_tables] in *. by rewrite Rd in H.
Qed.

(** When several tables are added, only the file added last is served: a turn over
    changes of the others ends with their rows still pending and every ISAM
    file untouched. *)
Theorem sync_last_only (s : st) first opens f t name fuel : sync_filename f = Some name →
  log_open (sy_conn s) = false → log_cursor (sy_conn s) = None →
  Forall (λ c, row_fits c ∧ lr_table c ≠ name) (filter pending (log_rows (sy_conn s))) →
  (length (filter pending (log_rows (sy_conn s))) < fuel)%nat →
  ∃ d, (sync_start;; add_all (first :: opens ++ [(f, t)]);; sync_turn fuel) s =
      (mk_sync d (sy_isam s) ((first :: opens).*1 ++ [f]) ((first :: opens).*2 ++ [t]), inr true) ∧
    log_rows d = log_rows (sy_conn s).
Proof.
  intros Hn Ho Hcur Hl Hf. unfold sync_start. rewrite (bind_ok _ _ _ _ _ (modify_run _ _)). rewrite (bind_ok _ _ _ _ _ (add_all_run _ _)).
  cbn [sy_conn sy_isam sy_fcds sy_tables app]. rewrite app_comm_cons, !fmap_app. unfold sync_turn. destruct (log_begin _ Ho) as (d1 & r1 & E1 & O1 & R1 & C1).
  erewrite bind_ok by (apply sync_exec_run; exact E1). destruct (log_declare d1 O1) as (d2 & E2 & O2 & R2 & C2); [by rewrite C1|].
  erewrite bind_ok by (apply sync_exec_run; exact E2). cbn [rs_status]. rewrite decide_True by done. rewrite R1 in R2, C2. cbn [sy_isam sy_fcds sy_tables].
  destruct (sync_rows_skip (first :: opens).*1 f (snd first) (opens.*2 ++ [t]) name Hn _ fuel
    (mk_sync d2 (sy_isam s) ((first :: opens).*1 ++ [f]) ((first :: opens).*2 ++ [t])) Hl Hf) as (d3 & E3 & O3 & C3 & R3); [done..|].
  erewrite bind_ok by exact E3. cbn [sy_conn sy_isam sy_fcds sy_tables] in *.
  destruct (log_close _ _ O3 C3) as (d4 & r4 & E4 & O4 & R4 & C4). erewrite bind_ok by (apply sync_exec_run; exact E4).
  destruct (log_commit d4 O4) as (d5 & r5 & E5 & O5 & R5 & C5). erewrite bind_ok by (apply sync_exec_run; exact E5).
  exists d5. split; [done|]. by rewrite R5, R4, R3, R2.
Qed.

(** With an open table [apply_changelog] runs out of any number of turns and applies nothing. *)
Lemma apply_changelog_stuck fuel f t (s : st) : ∃ d,
  apply_changelog fuel (Some (f, t)) s = (mk_sync d (sy_isam s) (sy_fcds s) (sy_tables s), inl NoFuel).
Proof.
  cbn [apply_changelog]. revert s. induction fuel as [|fuel IH]; intros s; [exists (sy_conn s); by destruct s|]. cbn [apply_wait].
  destruct (PQexec (bs "BEGIN") (sy_conn s)) as [d1 r1] eqn:E1. erewrite bind_ok by (apply sync_exec_run; exact E1).
  destruct (PQexec (bs "LISTEN PQFHCHANNEL") d1) as [d2 r2] eqn:E2. erewrite bind_ok by (apply sync_exec_run; exact E2).
  destruct (PQexec (bs "COMMIT") d2) as [d3 r3] eqn:E3. erewrite bind_ok by (apply sync_exec_run; exact E3).
  cbn [sy_conn sy_isam sy_fcds sy_tables]. apply (IH (mk_sync d3 (sy_isam s) (sy_fcds s) (sy_tables s))).
Qed.

End several.
