(* ===== verification/ChangeLogServer.v ===== *)
(** A change log in memory, the updates of the ISAM files in memory, and a synchronisation
    with them. *)

From stdpp Require Import prelude gmap strings.
From S2P Require Import Prelude Fhtypes Fcd Table Kdb Libpq Replicator DbRead DbWrite DbRows DbSession DbSpec SqlText Merge Cmp CmpIsam CmpServer ReplicatorServer ChangeLog ChangeLogSpec.
Local Open Scope Z_scope.

(** ** The updates of the files in memory *)

Lemma filter_none {A} (P : A → Prop) `{!∀ x, Decision (P x)} l : Forall (λ x, ¬ P x) l → filter P l = [].
Proof. induction 1 as [|x l Hx _ IH]; [done|]. by rewrite filter_cons_False. Qed.

Lemma lex_lt_irrefl k : ¬ lex_lt k k.
Proof. unfold lex_lt. by rewrite lex_cmp_refl. Qed.

(** The records below and above a key, with others of that key between them. *)
Lemma by_key_split comps recs mid k k' : Forall (λ r, kval comps r = k) mid →
  by_key comps (filter (λ x, lex_lt (kval comps x) k) recs ++ mid ++ filter (λ x, lex_lt k (kval comps x)) recs) !! k' =
    if decide (k' = k) then head mid else by_key comps recs !! k'.
Proof.
  intros Hmid. rewrite !by_key_lookup, !filter_app.
  assert (∀ (P : bytes → Prop) `{!∀ x, Decision (P x)}, (∀ x, kval comps x = k' → ¬ P x) →
    filter (λ r, kval comps r = k') (filter P recs) = []) as Hnone.
  { intros P ? H. rewrite list_filter_filter. apply filter_none, Forall_forall. intros x _ [E Hx]. by apply (H x). }
  assert (∀ (P : bytes → Prop) `{!∀ x, Decision (P x)}, (∀ x, kval comps x = k' → P x) →
    filter (λ r, kval comps r = k') (filter P recs) = filter (λ r, kval comps r = k') recs) as Hall.
  { intros P ? H. rewrite list_filter_filter. apply list_filter_iff. naive_solver. }
  assert (k' ≠ k → filter (λ r, kval comps r = k') mid = []) as Hother.
  { intros Hne. apply filter_none, Forall_forall. rewrite Forall_forall in Hmid. intros x Hx E. apply Hne. by rewrite <-E, (Hmid x Hx). }
  destruct (decide (k' = k)) as [->|Hne].
  - rewrite !Hnone; [|intros x -> H; by apply (lex_lt_irrefl k)..]. rewrite filter_all by done. by rewrite app_nil_r.
  - rewrite Hother by done. cbn [app]. destruct (lex_cmp k' k) eqn:E.
    + by apply lex_cmp_eq in E.
    + rewrite Hall, Hnone; [by rewrite app_nil_r| |]; intros x ->; [|done]. intros H. by apply (lex_lt_irrefl k), (lex_lt_trans _ k').
    + apply lex_gt in E. rewrite Hnone, Hall; [done| |]; intros x ->; [done|]. intros H. by apply (lex_lt_irrefl k), (lex_lt_trans _ k').
Qed.

Lemma im_change_by_key op comps k r recs : op ∈ [OP_WRITE; OP_REWRITE; OP_DELETE] → kval comps r = k →
  by_key comps (fst (im_change op comps k r recs)) = fst (isam_apply op k r (by_key comps recs)) ∧
  snd (im_change op comps k r recs) = snd (isam_apply op k r (by_key comps recs)).
Proof.
  intros Hop Hr. unfold im_change, isam_apply. rewrite by_key_lookup.
  assert (Forall (λ x, kval comps x = k) [r]) as H1 by by constructor.
  assert (∀ x, by_key comps (filter (λ x, lex_lt (kval comps x) k) recs ++ [r] ++ filter (λ x, lex_lt k (kval comps x)) recs) !! x =
    <[k:=r]> (by_key comps recs) !! x) as Hput.
  { intros x. rewrite by_key_split by done. case_decide as E; [by rewrite E, lookup_insert_eq|by rewrite lookup_insert_ne]. }
  assert (∀ x, by_key comps (filter (λ x, lex_lt (kval comps x) k) recs ++ filter (λ x, lex_lt k (kval comps x)) recs) !! x =
    delete k (by_key comps recs) !! x) as Hdel.
  { intros x. change (?a ++ ?b) with (a ++ [] ++ b). rewrite by_key_split by constructor.
    case_decide as E; [by rewrite E, lookup_delete_eq|by rewrite lookup_delete_ne]. }
  rewrite !elem_of_cons, elem_of_nil in Hop. destruct (filter (λ x, kval comps x = k) recs) as [|x l]; cbn [head].
  - destruct (op =? OP_WRITE); [|done]. split; [by apply map_eq|done].
  - destruct Hop as [->|[->|[->|[]]]]; cbn; (split; [|done]); [done|by apply map_eq..].
Qed.

#[local] Existing Instance mem_extfh.
#[local] Existing Instance mem_isam.

#[local] Instance mem_update : IsamUpdate isam_mem.
Proof.
  refine {| isam_io w m := is_Some (im_rest w !! m) |}.
  intros op f w recs comps k Hop Hio Hr Hc Hk. cbn [extfh mem_extfh isam_recs mem_isam] in *. unfold im_call.
  assert (kval comps (record f) = k) as Hkv by (unfold kval; by rewrite Hk).
  destruct (im_change_by_key op comps k (record f) recs Hop Hkv) as [E1 E2].
  assert (im_update op f w = Some (mk_im (<[fname f:=fst (im_change op comps k (record f) recs)]> (im_files w)) (im_rest w),
    snd (im_change op comps k (record f) recs))) as Hu.
  { unfold im_update. rewrite Hr. cbn [mbind option_bind]. rewrite Hc. cbn [mbind option_bind]. by rewrite Hk. }
  rewrite Hu, E2.
  exists (mk_im (<[fname f:=fst (im_change op comps k (record f) recs)]> (im_files w)) (im_rest w)),
    (set_status (if snd (isam_apply op k (record f) (by_key comps recs)) then ST_OK else if op =? OP_WRITE then ST_DUPL_KEY else ST_REC_NOT_FOUND) f),
    (fst (im_change op comps k (record f) recs)).
  split; [|split; [by split|split; [done|split; [done|split; [by cbn; rewrite lookup_insert_eq|split; [done|split; [done|]]]]]]].
  - rewrite !elem_of_cons, elem_of_nil in Hop. by destruct Hop as [->|[->|[->|[]]]].
  - intros m Hm. cbn [im_files im_rest]. by rewrite lookup_insert_ne.
Defined.

(** ** The table changelog in memory *)

Record log_server := mk_ls { ls_rows : list log_row; ls_open : bool; ls_cursor : option (list log_row) }.

(** The status, the table and the number of an update. *)
Definition read_mark (sql : bytes) : option (bytes * bytes * bytes) :=
  s ← after (bs "update changelog set status='") sql;
  let st := span (λ y, negb (y =? 39)) s in
  s ← after (bs "' where status='PENDING' and table_name='") (snd st);
  let tab := span (λ y, negb (y =? 39)) s in
  id ← after (bs "' and id=") (snd tab);
  Some (fst st, fst tab, id).

Lemma unquoted s : 39 ∉ s → Forall (λ x, negb (x =? 39) = true) s.
Proof. intros H. apply Forall_forall. intros x Hx. apply negb_true_iff, Z.eqb_neq. by intros ->. Qed.

Lemma read_mark_text st tab id : quotable st → quotable tab → read_mark (mark_text st tab id) = Some (st, tab, id).
Proof.
  intros [Hs _] [Ht _]. unfold read_mark, mark_text. rewrite after_app. cbn [mbind option_bind].
  rewrite span_app by (by apply unquoted || done). cbn [fst snd]. rewrite after_app. cbn [mbind option_bind].
  rewrite span_app by (by apply unquoted || done). cbn [fst snd]. by rewrite after_app.
Qed.

Definition ls_exec (sql : bytes) (d : log_server) : log_server * pgresult :=
  let ok := mk_res PGRES_COMMAND_OK [] in
  let error := (d, mk_res PGRES_ERROR []) in
  match read_mark sql with
  | Some (st, tab, id) => if ls_open d then (mk_ls (marked st tab id <$> ls_rows d) true (ls_cursor d), ok) else error
  | None =>
      if decide (sql = bs "BEGIN") then (mk_ls (ls_rows d) true (ls_cursor d), ok)
      else if decide (sql = bs "COMMIT") then (mk_ls (ls_rows d) false None, ok)
      else if decide (sql = bs "CLOSE cursor_columns") then (mk_ls (ls_rows d) (ls_open d) None, ok)
      else if decide (sql = declare_text) then
        match ls_open d, ls_cursor d with
        | true, None => (mk_ls (ls_rows d) true (Some (filter pending (ls_rows d))), ok)
        | _, _ => error
        end
      else if decide (sql = fetch_text) then
        match ls_cursor d with
        | Some l => (mk_ls (ls_rows d) (ls_open d) (Some (tail l)), mk_res PGRES_TUPLES_OK (match l with [] => [] | c :: _ => [log_texts c] end))
        | None => error
        end
      else error
  end.

#[local] Instance ls_libpq : Libpq log_server := {|
  PQexec := ls_exec;
  PQprepare _ _ _ d := (d, mk_res PGRES_ERROR []);
  PQexecPrepared _ _ d := (d, mk_res PGRES_ERROR []);
|}.

#[local] Instance ls_log : PgLog log_server.
Proof.
  refine {| log_rows := ls_rows; log_open := ls_open; log_cursor := ls_cursor |}; cbn [PQexec ls_libpq].
  - intros d Ho. by eexists _, _.
  - intros [rows o c] Ho Hc. cbn in Ho, Hc. subst. by eexists.
  - intros [rows o c] l Ho Hc. cbn in Ho, Hc. subst. by eexists.
  - intros d st tab id Ho Hst _ Htab _. unfold ls_exec. rewrite read_mark_text, Ho by done. by eexists _, _.
  - intros d l Ho Hc. by eexists _, _.
  - intros d Ho. by eexists _, _.
Defined.

(** ** A synchronisation *)

Definition ex_path : bytes := bs "/bd/clientes".
Definition ex_log_name : bytes := bs "clientes".
Definition ex_log_cols : list column_t := [mk_col (bs "codigo") (ch "n") 3 0 0 true 0; mk_col (bs "nome") (ch "c") 4 0 3 false 1].
Definition ex_log_fcd : fcd_t :=
  mk_fcd (bs "00") 2 4 2 (putshort 12) 0 (replicate 8 0) (putshort 7) (putshort 0) (bs "       ") ex_path ex_kdb (putint 64) 0 0
    (replicate 4 0) (ch "P") 0.
Definition ex_log_table (name : bytes) (cols : list column_t) : table_t :=
  mk_table name true (bs "public") name cols [] [] false false false 0 (-1) [] [] (-1) [] [] [] [] [] [] false [] 0 false 0.
Definition ex_log : list log_row := [
  mk_log (bs "SUCCESS") (bs "7") [] ex_log_name (bs "insert") [] (bs "2|Ana");
  mk_log PENDING (bs "8") [] ex_log_name (bs "insert") [] (bs "3|Bia");
  mk_log PENDING (bs "9") [] ex_log_name (bs "update") (bs "5|Eva") (bs "5|Zoe");
  mk_log PENDING (bs "10") [] ex_log_name (bs "insert") [] (bs "4|Leo");
  mk_log PENDING (bs "11") [] ex_log_name (bs "delete") (bs "2|Ana") []].
Definition ex_events : list (Z * bytes) :=
  [(OP_WRITE, bs "003Bia "); (OP_REWRITE, bs "005Zoe "); (OP_WRITE, bs "004Leo "); (OP_DELETE, bs "002Ana ")].
Definition ex_sync_isam : isam_mem := mk_im {[ ex_path := ex_isams ]} {[ ex_path := [] ]}.
Definition ex_sync_state : sync_st log_server isam_mem :=
  mk_sync (mk_ls ex_log false None) ex_sync_isam [ex_log_fcd] [ex_log_table ex_log_name ex_log_cols].

(** The texts of a row: the number without its leading zeros, the name without its blanks. *)
Lemma ex_tells (st id tm act old new : bytes) (op a b c d e f g : Z) (z : nat) (ip x : bytes) n :
  number id → (length id ≤ 32)%nat → act ∈ [bs "insert"; bs "update"; bs "delete"] → sync_op act = op →
  Forall (λ x, isdigit x = true) [a; b; c] → 0 ∉ [d; e; f; g] → Forall (λ x, isdigit x = true) ip →
  [a; b; c] = zeros z ++ ip → [d; e; f; g] = x ++ replicate n 32 →
  (if decide (act = bs "delete") then old else new) = ip ++ bs "|" ++ x →
  ch "|" ∉ ip → ch "|" ∉ x → 0 ∉ ip → 0 ∉ x →
  tells ex_log_cols ex_log_name (mk_log st id tm ex_log_name act old new) (op, [a; b; c; d; e; f; g]).
Proof.
  intros Hid Hl Hact Hop Hd Ht Hip E1 E2 Hdata B1 B2 Z1 Z2. pose proof (f_equal length E1) as L1. pose proof (f_equal length E2) as L2.
  rewrite !length_app, ?zeros_length, ?length_replicate in L1, L2. cbn [length] in L1, L2. split; cbn [lr_table lr_id lr_action lr_old lr_new fst snd]; try done.
  - rewrite !Forall_cons in Hd. destruct Hd as (Ha & Hb & Hc & _). constructor; [|constructor; [|constructor]]; (split; [done|]); simpl; [split; [lia|]|done].
    exists [a; b], c. split; [|by split; [|left]]. intros y. rewrite !elem_of_cons, elem_of_nil. by intros [->|[->|[]]].
  - exists [ip; x]. split; [done|]. split.
    + repeat (constructor; [split; [done|split; [done|unfold MAX_REC_LEN; lia]]|]). constructor.
    + constructor; [|constructor; [|constructor]]; (split; [done|]); cbn [is_num col_tp]; cbn.
      * exists [], z, 0%nat, ip, []. split; [by left|]. rewrite Forall_forall in Hip. rewrite !app_nil_r. cbn [zeros replicate app].
        rewrite !Forall_cons in Hd. destruct Hd as (_ & _ & Hc & _). split; [done|]. unfold text_of_field. cbn.
        split; [|split; [by rewrite ?app_nil_r|split; [done|simpl; lia]]].
        destruct (digit_sign c Hc) as (H64 & _). unfold is_negative. cbn. by rewrite H64.
      * exists x, n, 0%nat. cbn. rewrite app_nil_r. split; [done|]. split; [done|lia].
Qed.

Lemma ex_sync_wf : sync_wf ex_log_cols ex_comps ex_log_name.
Proof.
  split; [done|by vm_compute|apply ex_comps_in|split; [|simpl; lia]]. split; apply (bool_decide_unpack _); by vm_compute.
Qed.

Lemma ex_served : served ex_log_cols ex_comps ex_path ex_log_name ex_sync_state ex_log_fcd ex_isams.
Proof. split; try done; [by exists (ex_log_table ex_log_name ex_log_cols)|by eexists]. Qed.

Ltac row_tells zs digits word blanks := apply ex_tells with (z := zs) (ip := digits) (x := word) (n := blanks);
  first [done | apply (bool_decide_unpack _); by vm_compute | (split; [done|repeat constructor]) | simpl; lia].

Lemma ex_all_tell : Forall2 (tells ex_log_cols ex_log_name) (filter pending ex_log) ex_events.
Proof.
  change (filter pending ex_log) with (drop 1 ex_log). unfold ex_log, ex_events. cbn [drop].
  repeat (apply Forall2_cons; split); [..|constructor].
  - row_tells 2%nat (bs "3") (bs "Bia") 1%nat.
  - row_tells 2%nat (bs "5") (bs "Zoe") 1%nat.
  - row_tells 2%nat (bs "4") (bs "Leo") 1%nat.
  - row_tells 2%nat (bs "2") (bs "Ana") 1%nat.
Qed.

Lemma sync_turn_correct_witness : ∃ s' f' recs', sync_turn 5 ex_sync_state = (s', inr true) ∧
  served ex_log_cols ex_comps ex_path ex_log_name s' f' recs' ∧ log_open (sy_conn s') = false ∧ log_cursor (sy_conn s') = None ∧
  by_key ex_comps recs' = apply_events ex_comps (by_key ex_comps ex_isams) ex_events ∧
  log_rows (sy_conn s') = settle (log_rows (sy_conn ex_sync_state)) (outcomes ex_comps (by_key ex_comps ex_isams) ex_events) ∧
  filter pending (log_rows (sy_conn s')) = [] ∧
  (∀ m', m' ≠ ex_path → isam_recs (sy_isam s') m' = isam_recs (sy_isam ex_sync_state) m').
Proof.
  apply (sync_turn_correct ex_log_cols ex_comps ex_path ex_log_name ex_sync_wf 5 ex_sync_state ex_log_fcd ex_isams ex_events ex_served).
  - done.
  - done.
  - apply (bool_decide_unpack _). by vm_compute.
  - exact ex_all_tell.
  - simpl. lia.
Defined.

(** The file and the statuses after that turn, evaluated: the record 004 was there. *)
Example ex_sync_turn :
  let s := fst (sync_turn 5 ex_sync_state) in
  im_files (sy_isam s) !! ex_path = Some [bs "003Bia "; bs "004Leo "; bs "005Zoe "] ∧
  lr_status <$> ls_rows (sy_conn s) = [bs "SUCCESS"; bs "SUCCESS"; bs "SUCCESS"; bs "ERROR_2_50"; bs "SUCCESS"].
Proof. by vm_compute. Qed.

(** The same table with another added after it. *)
Definition ex_other_fcd : fcd_t := set_file_name_len (putshort 12) (set_file_name (bs "/bd/produtos") ex_log_fcd).

Definition ex_open : fcd_t * table_t := (ex_log_fcd, ex_log_table ex_log_name ex_log_cols).
Definition ex_other_table : table_t := ex_log_table (bs "produtos") ex_log_cols.

Lemma sync_last_only_witness : ∃ d,
  (sync_start;; add_all (ex_open :: [] ++ [(ex_other_fcd, ex_other_table)]);; sync_turn 5) ex_sync_state =
    (mk_sync d (sy_isam ex_sync_state) ([ex_open].*1 ++ [ex_other_fcd]) ([ex_open].*2 ++ [ex_other_table]), inr true) ∧
  log_rows d = log_rows (sy_conn ex_sync_state).
Proof.
  apply (sync_last_only ex_sync_state ex_open [] ex_other_fcd ex_other_table (bs "produtos") 5).
  - done.
  - done.
  - done.
  - change (filter pending (log_rows (sy_conn ex_sync_state))) with (drop 1 ex_log). unfold ex_log. cbn [drop].
    repeat constructor; try done; try (simpl; lia); apply (bool_decide_unpack _); by vm_compute.
  - simpl. lia.
Defined.
