(* ===== verification/MetaSpec.v ===== *)
(** What opening a table relies on in the catalog of the server and in the dictionary files,
    and what it finds there. *)

From stdpp Require Import prelude gmap strings.
From S2P Require Import Prelude Fhtypes Fcd Table Kdb Libpq Meta DbRead DbWrite Sql DbRows DbSession DbSpec Cursor CursorSpec CursorScan Merge Cmp CmpIsam.
Local Open Scope Z_scope.

(** ** The catalog *)

Inductive cat_query := QColumns (name : bytes) | QSchema (name : bytes).

Definition cat_sql (q : cat_query) : bytes :=
  match q with QColumns n => columns_sql n | QSchema n => schema_sql n end.
Definition cat_cursor (q : cat_query) : bytes :=
  match q with QColumns _ => bs "cursor_columns" | QSchema _ => bs "cursor_tables" end.

(** What the queries of the catalog leave: the tables of the user, what is prepared, the
    cursors but the ones of [cs]. *)
Record cat_kept {D : Type} `{!Libpq D} {schema name : bytes} {cols : list column_t} {keys : list key_t}
    {P : PgTable D schema name cols keys} (catalog : D → cat_query → list (list bytes)) (cs : list bytes) (d d' : D) : Prop := {
  ck_rows : pg_rows d' = pg_rows d;
  ck_prep : same_prepared d d';
  ck_cursor m : m ∉ cs → pg_cursor d' m = pg_cursor d m;
  ck_catalog q : catalog d' q = catalog d q;
}.
Arguments cat_kept {D _ schema name cols keys P} catalog cs d d'.

(** The catalog, whose cursors share the names with those of the tables, and the statements
    that empty a table and forget a prepared statement. *)
Class PgCatalog (D : Type) `{!Libpq D} {schema name : bytes} {cols : list column_t} {keys : list key_t}
    (P : PgTable D schema name cols keys) := {
  pg_catalog : D → cat_query → list (list bytes);

  pg_oid d n : ∃ d' r, PQexec (oid_sql n) d = (d', r) ∧ cat_kept (P:=P) pg_catalog [] d d';
  pg_cat_declare d q : pg_cursor d (cat_cursor q) = None →
    ∃ d', PQexec (cat_sql q) d = (d', mk_res PGRES_COMMAND_OK []) ∧
      pg_cursor d' (cat_cursor q) = Some (pg_catalog d q) ∧ cat_kept (P:=P) pg_catalog [cat_cursor q] d d';
  pg_cat_fetch d q rows : pg_cursor d (cat_cursor q) = Some rows →
    ∃ d', PQexec (bs "fetch next in " ++ cat_cursor q) d = (d', mk_res PGRES_TUPLES_OK (take 1 rows)) ∧
      pg_cursor d' (cat_cursor q) = Some (drop 1 rows) ∧ cat_kept (P:=P) pg_catalog [cat_cursor q] d d';
  pg_cat_close d q rows : pg_cursor d (cat_cursor q) = Some rows →
    ∃ d' r, PQexec (bs "CLOSE " ++ cat_cursor q) d = (d', r) ∧
      pg_cursor d' (cat_cursor q) = None ∧ cat_kept (P:=P) pg_catalog [cat_cursor q] d d';

  pg_truncate d : ∃ d' r, PQexec (bs "truncate table " ++ schema ++ bs "." ++ name) d = (d', r) ∧
    pg_rows d' = [] ∧ same_prepared d d' ∧ (∀ m, pg_cursor d' m = pg_cursor d m) ∧ (∀ q, pg_catalog d' q = pg_catalog d q);

  pg_deallocate d n st : pg_prepared d n = Some st →
    ∃ d' r, PQexec (bs "deallocate " ++ n) d = (d', r) ∧ pg_free d' n ∧
    pg_rows d' = pg_rows d ∧ (∀ m, m ≠ n → pg_prepared d' m = pg_prepared d m ∧ (pg_free d m → pg_free d' m)) ∧
    (∀ m, pg_cursor d' m = pg_cursor d m);
}.

(** A name without its directories has none. *)
Lemma strrchr_drop s c i : strrchr s c = Some i → strrchr (drop (S i) s) c = None.
Proof.
  revert i. induction s as [|x s IH]; intros i; [done|]. simpl. destruct (strrchr s c) as [j|] eqn:E.
  - intros [= <-]. by apply IH.
  - destruct (x =? c); [|done]. intros [= <-]. by rewrite drop_0.
Qed.

Lemma basename_idem s : basename (basename s) = basename s.
Proof.
  unfold basename. destruct (strrchr s (ch "/")) as [i|] eqn:E; [by rewrite (strrchr_drop _ _ _ E)|by rewrite E].
Qed.

(** The columns of a catalog, those that start inside the record. *)
Fixpoint record_columns (reclen : Z) (rows : list (list bytes)) (offset : nat) : option (list column_t) :=
  match rows with
  | [] => Some []
  | row :: rows' =>
      c ← catalog_column row offset;
      cs ← record_columns reclen rows' (offset + col_len c);
      Some (if Z.of_nat offset <? reclen then c :: cs else cs)
  end.

(** The texts fit the buffers of the program. *)
Definition row_fits (row : list bytes) : Prop :=
  (length (default [] (row !! 0%nat)) ≤ MAX_NAME_LEN)%nat ∧ (length (default [] (row !! 1%nat)) ≤ 32)%nat ∧
  (length (default [] (row !! 2%nat)) ≤ 32)%nat ∧ (length (default [] (row !! 3%nat)) ≤ 32)%nat ∧
  (length (default [] (row !! 4%nat)) ≤ 32)%nat.

(** ** The dictionary *)

(** The first record not below a key. *)
Definition dict_next (kv : bytes → bytes) (k : bytes) (recs : list bytes) : option bytes :=
  head (filter (λ r, ¬ lex_lt (kv r) k) recs).

(** Whether the dictionary has a table in the database, from the first record not below its
    name. *)
Definition dict_converted (tabela : bytes) (recs : list bytes) : bool :=
  match dict_next (kval [(0, 26)]) (kval [(0, 26)] (dict_key tabela)) recs with
  | Some r => memeq r tabela (length tabela) && (byte_at r 26 =? ch "S")
  | None => false
  end.

(** The name a table has in the dictionary. *)
Definition dict_name (tabela : bytes) (recs : list bytes) : bytes * bool :=
  match prefixo tabela with
  | None => (tabela, false)
  | Some p =>
      match dict_next (kval [(0, 10)]) (kval [(0, 10)] (dict_key p)) recs with
      | Some r => if memeq r p (length p) then (cut (cstr (take 20 (drop 10 r))) (ch " "), true) else (tabela, false)
      | None => (tabela, false)
      end
  end.

Section dict.
Context {D : Type} `{!Libpq D} {W : Type} `{!Extfh W, !IsamFile W} (env : env_t).
Notation ms := (mst D W).

Lemma on_files_run {A} (m : M W A) (s : ms) w' r : m (m_isam s) = (w', inr r) →
  on_files m s = (mk_ms (m_db s) w' (m_fcd01 s) (m_fcd02 s) (m_replica s), inr r).
Proof. intros H. unfold on_files. by rewrite H. Qed.

Lemma on_db_run {A} (m : M (dbs D) A) (s : ms) x r : m (m_db s) = (x, inr r) →
  on_db m s = (mk_ms x (m_isam s) (m_fcd01 s) (m_fcd02 s) (m_replica s), inr r).
Proof. intros H. unfold on_db. by rewrite H. Qed.

(** A dictionary file, not set up yet or open. *)
Record dict_ok (w : W) (f : option fcd_t) (name kdb0 : bytes) (recs : list bytes) : Prop := {
  do_recs : isam_recs w name = Some recs;
  do_sized : Forall (λ r, length r = 256%nat) recs;
  do_open g : f = Some g → fname g = name ∧ kdb g = kdb0 ∧ getshort (key_id g) = 0 ∧ length (record g) = 256%nat ∧
    isam_open w name;
}.

Lemma dict_ok_kept w w' m f name kdb0 recs : isam_kept m w w' → name ≠ m → dict_ok w f name kdb0 recs → dict_ok w' f name kdb0 recs.
Proof.
  intros [Hr Hk] Hm [H1 H2 H3]. split; [by rewrite Hr|done|]. intros g Hg. destruct (H3 g Hg) as (? & ? & ? & ? & ?).
  split_and!; try done. by apply Hk.
Qed.

Lemma isam_kept_trans m w1 w2 w3 : isam_kept m w1 w2 → isam_kept m w2 w3 → isam_kept m w1 w3.
Proof.
  intros [H1 H2] [H3 H4]. split; [intros m'; by rewrite H3|]. intros m' Hm. destruct (H2 m' Hm) as [A B], (H4 m' Hm) as [E F].
  split; [by rewrite E|auto].
Qed.

Lemma dict_fcd_name name kdb0 : Z.of_nat (length name) < 2 ^ 16 → fname (dict_fcd name kdb0) = name.
Proof.
  intros H. unfold fname. cbn [file_name file_name_len dict_fcd]. pose proof (getshort_putshort (Z.of_nat (length name)) [] ltac:(lia)) as E.
  rewrite app_nil_r in E. rewrite E, Nat2Z.id. by apply take_ge.
Qed.

(** The first use opens the file. *)
Lemma dict_open_run (s : ms) f name kdb0 recs : dict_ok (m_isam s) f name kdb0 recs → Z.of_nat (length name) < 2 ^ 16 →
  ∃ w' g, dict_open f name kdb0 s = (mk_ms (m_db s) w' (m_fcd01 s) (m_fcd02 s) (m_replica s), inr g) ∧ dict_ok w' (Some g) name kdb0 recs ∧
    isam_kept name (m_isam s) w'.
Proof.
  intros Hd Hn. pose proof (dict_fcd_name name kdb0 Hn) as Hf. destruct f as [g|]; cbn [dict_open].
  - exists (m_isam s), g. destruct s. split; [done|]. split; [done|]. by split.
  - destruct Hd as [H1 H2 _]. destruct (isam_open_input (dict_fcd name kdb0) (m_isam s) recs eq_refl) as (w' & g & E & Hsame & _ & Ho & Hr & Hk); [by rewrite Hf|].
    rewrite Hf in *. exists w', g. split; [by apply on_files_run|]. split; [|by split].
    split; [by rewrite Hr|done|]. intros g' [= <-]. split; [by rewrite (sf_name _ _ Hsame)|]. split; [by rewrite (sf_kdb _ _ Hsame)|].
    split; [by rewrite (sf_key _ _ Hsame)|]. split; [by rewrite (sf_rec _ _ Hsame)|done].
Qed.

Lemma dict_key_length k : (length k ≤ 256)%nat → length (dict_key k) = 256%nat.
Proof. intros H. unfold dict_key, blit. rewrite !length_app, length_drop, length_replicate. simpl. lia. Qed.

(** A search gives the first record not below the key. *)
Lemma dict_seek_run (s : ms) g name kdb0 comps recs k : dict_ok (m_isam s) (Some g) name kdb0 recs → cmp_comps kdb0 = Some comps →
  comps_in 256 comps → (length k ≤ 256)%nat →
  ∃ w' g', dict_seek k g s = (mk_ms (m_db s) w' (m_fcd01 s) (m_fcd02 s) (m_replica s), inr g') ∧ dict_ok w' (Some g') name kdb0 recs ∧
    isam_kept name (m_isam s) w' ∧
    match dict_next (kval comps) (kval comps (dict_key k)) recs with
    | Some r => is_ok g' = true ∧ record g' = r
    | None => is_ok g' = false
    end.
Proof.
  intros [H1 H2 H3] Hc Hin Hk. destruct (H3 g eq_refl) as (Hn & Hkdb & Hid & Hl & Ho). unfold dict_seek.
  rewrite (proj2 (Nat.leb_le _ _) Hk). cbn [guard_fault]. rewrite ret_bind. pose proof (dict_key_length k Hk) as Hkl.
  set (g1 := set_rec (dict_key k) g). assert (fname g1 = name) as Hn1 by done. rewrite <-Hn1 in H1, Ho. rewrite <-Hkdb in Hc.
  destruct (isam_start_ge g1 (m_isam s) recs comps _ Ho H1 Hid Hc (proj1 (cmp_key_run 256 comps (dict_key k) Hin Hkl)))
    as (w1 & g2 & E1 & Hs1 & Ho1 & Hr1 & Hrecs1 & Hk1).
  rewrite (bind_ok _ _ _ _ _ (on_files_run _ _ _ _ E1)). rewrite <-(sf_name _ _ Hs1) in Ho1, Hr1.
  assert (Forall (λ r, length r = length (record g2)) (isam_rest w1 (fname g2))) as Hsz.
  { rewrite Hr1, (sf_rec _ _ Hs1). cbn [record set_rec g1]. rewrite Hkl. apply Forall_forall. intros r [_ Hr]%list_elem_of_filter.
    rewrite Forall_forall in H2. auto. }
  destruct (isam_next g2 w1 Ho1 Hsz) as (w2 & g3 & E2 & Hs2 & Ho2 & Hhere & Hrecs2 & Hk2).
  rewrite (on_files_run (extfh OP_READ_NEXT g2) _ w2 g3) by done. exists w2, g3. split; [done|].
  assert (fname g2 = name) as Hn2 by (by rewrite (sf_name _ _ Hs1)). rewrite Hn1, Hn2 in *. split; [|split].
  - split; [by rewrite Hrecs2, Hrecs1|done|]. intros ? [= <-]. split; [by rewrite (sf_name _ _ Hs2)|].
    split; [by rewrite (sf_kdb _ _ Hs2), (sf_kdb _ _ Hs1)|]. split; [by rewrite (sf_key _ _ Hs2), (sf_key _ _ Hs1)|].
    split; [by rewrite (sf_rec _ _ Hs2), (sf_rec _ _ Hs1)|done].
  - eapply isam_kept_trans; by split.
  - rewrite Hr1 in Hhere. unfold dict_next. destruct (filter _ recs) as [|r rest]; cbn [head]; [unfold is_ok; by rewrite (proj1 Hhere)|by destruct Hhere as (? & ? & _)].
Qed.

Definition kdb01 : bytes := dict_kdb (0, 26) (20, 6) (0, 20).
Definition kdb02 : bytes := dict_kdb (0, 10) (10, 20) (0, 10).

Lemma kdb01_comps : cmp_comps kdb01 = Some [(0, 26)].
Proof. by vm_compute. Qed.
Lemma kdb02_comps : cmp_comps kdb02 = Some [(0, 10)].
Proof. by vm_compute. Qed.

(** Both dictionary files. *)
Record dicts_ok (s : ms) (recs1 recs2 : list bytes) : Prop := {
  ds_force : e_force env = false;
  ds_dict : dict_ok (m_isam s) (m_fcd01 s) (e_dict env) kdb01 recs1;
  ds_prefixes : dict_ok (m_isam s) (m_fcd02 s) (e_prefixes env) kdb02 recs2;
  ds_name1 : Z.of_nat (length (e_dict env)) < 2 ^ 16;
  ds_name2 : Z.of_nat (length (e_prefixes env)) < 2 ^ 16;
  ds_ne : e_dict env ≠ e_prefixes env;
}.

Lemma dict_found_run k f o : match o with Some r => is_ok f = true ∧ record f = r | None => is_ok f = false end →
  dict_found k f = match o with Some r => memeq r k (length k) | None => false end.
Proof. unfold dict_found. change (memeq (status f) ST_OK 2) with (is_ok f). destruct o as [r|]; [by intros [-> ->]|by intros ->]. Qed.

(** The dictionary of tables. *)
Lemma tabela_convertida_run (s : ms) recs1 recs2 tabela : dicts_ok s recs1 recs2 → (length tabela ≤ 256)%nat →
  ∃ s', tabela_convertida env tabela s = (s', inr (dict_converted tabela recs1)) ∧ dicts_ok s' recs1 recs2 ∧ m_db s' = m_db s.
Proof.
  intros [Hforce H1 H2 N1 N2 Hne] Hl. unfold tabela_convertida. rewrite Hforce. rewrite (bind_ok _ _ _ _ _ (gets_run _ _)).
  destruct (dict_open_run s _ _ _ _ H1 N1) as (w1 & g & E1 & D1 & K1). rewrite (bind_ok _ _ _ _ _ E1).
  erewrite bind_ok by apply modify_run. cbn [m_db m_isam m_fcd02].
  destruct (dict_seek_run (mk_ms (m_db s) w1 (Some g) (m_fcd02 s) (m_replica s)) g _ kdb01 [(0, 26)] recs1 tabela D1 kdb01_comps) as (w2 & g' & E2 & D2 & K2 & Hf);
    [split; [constructor; [simpl; lia|constructor]|simpl; lia]|done|].
  rewrite (bind_ok _ _ _ _ _ E2). erewrite bind_ok by apply modify_run. cbn [m_db m_isam m_fcd02] in *.
  exists (mk_ms (m_db s) w2 (Some g') (m_fcd02 s) (m_replica s)). rewrite (dict_found_run _ _ _ Hf). unfold dict_converted. split.
  - destruct (dict_next _ _ _) as [r|]; [by destruct Hf as [_ ->]|done].
  - split; [|done]. split; try done. cbn [m_isam m_fcd02]. pose proof (isam_kept_trans _ _ _ _ K1 K2).
    by eapply dict_ok_kept; [|apply not_eq_sym|].
Qed.

(** The dictionary of prefixes. *)
Lemma nome_dicionario_run (s : ms) recs1 recs2 tabela : dicts_ok s recs1 recs2 → (length tabela ≤ 32)%nat →
  ∃ s', nome_dicionario env tabela s = (s', inr (dict_name tabela recs2)) ∧ dicts_ok s' recs1 recs2 ∧ m_db s' = m_db s.
Proof.
  intros [Hforce H1 H2 N1 N2 Hne] Hl. unfold nome_dicionario. rewrite Hforce. rewrite (bind_ok _ _ _ _ _ (gets_run _ _)).
  destruct (dict_open_run s _ _ _ _ H2 N2) as (w1 & g & E1 & D1 & K1). rewrite (bind_ok _ _ _ _ _ E1).
  erewrite bind_ok by apply modify_run. cbn [m_db m_isam m_fcd01]. rewrite (proj2 (Nat.leb_le _ _) Hl). cbn [guard_fault]. rewrite ret_bind.
  unfold dict_name. destruct (prefixo tabela) as [p|] eqn:Ep.
  - assert (length p ≤ 256)%nat as Hp.
    { unfold prefixo in Ep. destruct (_ <? 4)%nat; [done|]. apply (inj Some) in Ep. rewrite <-Ep. clear Ep.
      assert (∀ i t, length (blank_digits i t) = length t) as Hb.
      { induction i as [|i IH]; intros t; [done|]. cbn [blank_digits]. destruct (isdigit _); [|done]. by rewrite IH, length_insert. }
      assert (∀ t, (length (until_digit t) ≤ length t)%nat) as Hu by (induction t as [|x t IH]; simpl; [lia|destruct (isdigit x); simpl; lia]).
      specialize (Hu (drop 4 (blank_digits 3 tabela))). rewrite length_drop, Hb in Hu. destruct (_ =? 32); rewrite ?length_app, ?length_take, ?Hb; lia. }
    set (g1 := set_key_id (putshort 0) g).
    assert (dict_ok w1 (Some g1) (e_prefixes env) kdb02 recs2) as D1'.
    { destruct D1 as [A1 A2 A3]. split; [done|done|]. intros ? [= <-]. destruct (A3 g eq_refl) as (? & ? & _ & ? & ?). by split_and!. }
    destruct (dict_seek_run (mk_ms (m_db s) w1 (m_fcd01 s) (Some g) (m_replica s)) g1 _ kdb02 [(0, 10)] recs2 p D1' kdb02_comps) as (w2 & g' & E2 & D2 & K2 & Hf);
      [split; [constructor; [simpl; lia|constructor]|simpl; lia]|done|].
    rewrite (bind_ok _ _ _ _ _ E2). erewrite bind_ok by apply modify_run. cbn [m_db m_isam m_fcd01] in *.
    exists (mk_ms (m_db s) w2 (m_fcd01 s) (Some g') (m_replica s)). rewrite (dict_found_run _ _ _ Hf). split.
    + destruct (dict_next _ _ _) as [r|]; [|done]. destruct Hf as [_ ->]. by destruct (memeq r p _).
    + split; [|done]. split; try done. cbn [m_isam m_fcd01]. pose proof (isam_kept_trans _ _ _ _ K1 K2). by eapply dict_ok_kept.
  - exists (mk_ms (m_db s) w1 (m_fcd01 s) (Some g) (m_replica s)). split; [done|]. split; [|done]. split; try done. by eapply dict_ok_kept.
Qed.

End dict.
