(* ===== verification/MetaOpen.v ===== *)
(** Opening a table leaves a session: the table the operations of DbSpec and the reads of
    CursorScan start from. *)

From stdpp Require Import prelude gmap strings.
From S2P Require Import Prelude Fhtypes Fcd Table Kdb Libpq Meta DbRead DbWrite Sql DbRows DbSession DbSpec Cursor CursorSpec CursorScan Merge Cmp CmpIsam MetaSpec.
Local Open Scope Z_scope.

Section opening.
Context {D : Type} `{!Libpq D} {W : Type} `{!Extfh W, !IsamFile W} (env : env_t) (fuel : nat).
Context {schema name : bytes} {cols : list column_t} {keys : list key_t}.
Context `{P : !PgTable D schema name cols keys} `{Q : !PgCatalog D P} (ts : bytes).
Notation ms := (mst D W).

(** The queries of the catalog leave everything but their cursors [cs]. *)
Record quiet (cs : list bytes) (s s' : dbs D) : Prop := {
  q_gdb : gdb s' = gdb s;
  q_tabs : tabs s' = tabs s;
  q_brk : tabs_brk s' = tabs_brk s;
  q_conn : cat_kept (P:=P) pg_catalog cs (conn s) (conn s');
}.

Lemma cat_kept_refl cs d : cat_kept (P:=P) pg_catalog cs d d.
Proof. by split; try done; intros m. Qed.

Lemma cat_kept_trans cs d1 d2 d3 : cat_kept (P:=P) pg_catalog cs d1 d2 → cat_kept (P:=P) pg_catalog cs d2 d3 →
  cat_kept (P:=P) pg_catalog cs d1 d3.
Proof.
  intros [A1 A2 A3 A4] [B1 B2 B3 B4]. split; [congruence| | |].
  - intros m. destruct (A2 m), (B2 m). split; [congruence|auto].
  - intros m Hm. by rewrite B3, A3.
  - intros q. by rewrite B4.
Qed.

Lemma cat_kept_more cs cs' d d' : cs ⊆ cs' → cat_kept (P:=P) pg_catalog cs d d' → cat_kept (P:=P) pg_catalog cs' d d'.
Proof. intros H [A1 A2 A3 A4]. split; try done. intros m Hm. apply A3. set_solver. Qed.

Lemma quiet_refl cs s : quiet cs s s.
Proof. by split; [..|apply cat_kept_refl]. Qed.

Lemma quiet_trans cs s1 s2 s3 : quiet cs s1 s2 → quiet cs s2 s3 → quiet cs s1 s3.
Proof. intros [A1 A2 A3 A4] [B1 B2 B3 B4]. split; try congruence. by eapply cat_kept_trans. Qed.

Lemma quiet_more cs cs' s s' : cs ⊆ cs' → quiet cs s s' → quiet cs' s s'.
Proof. intros H [A1 A2 A3 A4]. split; try done. by eapply cat_kept_more. Qed.

Lemma pq_quiet cs f (s : dbs D) d r : f (conn s) = (d, r) → cat_kept (P:=P) pg_catalog cs (conn s) d →
  ∃ s', pq f s = (s', inr r) ∧ quiet cs s s' ∧ conn s' = d.
Proof. intros E H. eexists. split; [by apply pq_run|]. by split. Qed.

(** The schema the catalog gives for a table, empty when it has none. *)
Definition cat_schema (d : D) (table : bytes) : bytes :=
  if e_force_bd env then bs "public" else default [] (r ← head (pg_catalog d (QSchema table)); head r).

Lemma get_schema_run (s : dbs D) table : pg_cursor (conn s) (bs "cursor_tables") = None → (length table ≤ 255)%nat →
  (length (cat_schema (conn s) table) ≤ 32)%nat →
  ∃ s', get_schema env table s = (s', inr (cat_schema (conn s) table)) ∧ quiet [bs "cursor_tables"] s s' ∧
    pg_cursor (conn s') (bs "cursor_tables") = None.
Proof.
  unfold get_schema, cat_schema. intros Hl Ht Hs. destruct (e_force_bd env); [exists s; split; [done|]; split; [apply quiet_refl|done]|].
  erewrite bind_ok by (apply fit_run; unfold schema_sql, MAX_REC_LEN; rewrite !length_app; simpl; lia).
  destruct (pg_cat_declare (conn s) (QSchema table) Hl) as (d1 & E1 & L1 & K1).
  destruct (pq_quiet _ _ s _ _ E1 K1) as (s1 & E1' & Q1 & <-). erewrite bind_ok by exact E1'.
  change (negb (is_command_ok _)) with false. cbv iota.
  destruct (pg_cat_fetch (conn s1) (QSchema table) _ L1) as (d2 & E2 & L2 & K2).
  destruct (pq_quiet _ _ s1 _ _ E2 K2) as (s2 & E2' & Q2 & <-). erewrite bind_ok by exact E2'.
  destruct (pg_cat_close (conn s2) (QSchema table) _ L2) as (d3 & r & E3 & L3 & K3).
  destruct (pq_quiet _ _ s2 _ _ E3 K3) as (s3 & E3' & Q3 & <-).
  assert ((match first_tuple (mk_res PGRES_TUPLES_OK (take 1 (pg_catalog (conn s) (QSchema table)))) with
      None => mret [] | Some row => fit 32 (default [] (head row)) end) s2 =
    (s2, inr (A:=fault) (default [] (r ← head (pg_catalog (conn s) (QSchema table)); head r)))) as E4.
  { unfold first_tuple. cbn [rs_status rs_rows]. destruct (pg_catalog _ _) as [|row rows]; [done|]. cbn [take head mbind option_bind] in *.
    apply fit_run. lia. }
  erewrite bind_ok by exact E4. erewrite bind_ok by exact E3'. exists s3. split; [done|].
  split; [by eapply quiet_trans; [|eapply quiet_trans]|exact L3].
Qed.

Lemma read_columns_run reclen rows : Forall row_fits rows → ∀ n offset (s : dbs D) cs,
  pg_cursor (conn s) (bs "cursor_columns") = Some rows → record_columns reclen rows offset = Some cs → (length rows < n)%nat →
  ∃ s', read_columns n reclen offset s = (s', inr cs) ∧ quiet [bs "cursor_columns"] s s' ∧
    pg_cursor (conn s') (bs "cursor_columns") = Some [].
Proof.
  induction 1 as [|row rows Hfit _ IH]; intros n offset s cs Hl Hc Hn; (destruct n as [|n]; [simpl in Hn; lia|]); cbn [read_columns];
    destruct (pg_cat_fetch (conn s) (QColumns []) _ Hl) as (d & E & L & K);
    destruct (pq_quiet _ _ s _ _ E K) as (s1 & E' & Q1 & <-); erewrite bind_ok by exact E'; cbn [first_tuple rs_status rs_rows take head].
  - exists s1. injection Hc as <-. split; [done|]. by split.
  - destruct Hfit as (F0 & F1 & F2 & F3 & F4).
    rewrite (proj2 (Nat.leb_le _ _) F0), (proj2 (Nat.leb_le _ _) F1), (proj2 (Nat.leb_le _ _) F2), (proj2 (Nat.leb_le _ _) F3), (proj2 (Nat.leb_le _ _) F4).
    cbn [guard_fault andb]. rewrite ret_bind. cbn [record_columns] in Hc. destruct (catalog_column row offset) as [c|]; [|done].
    cbn [mbind option_bind] in Hc. destruct (record_columns reclen rows (offset + col_len c)) as [cs'|] eqn:Er; [|done]. injection Hc as <-.
    destruct (IH n (offset + col_len c)%nat s1 cs' L Er) as (s2 & E2 & Q2 & L2); [simpl in Hn; lia|].
    erewrite bind_ok by exact E2. exists s2. split; [by destruct (_ <? reclen)|]. split; [by eapply quiet_trans|done].
Qed.

Definition cat_cursors : list bytes := [bs "cursor_columns"; bs "cursor_tables"].

(** What the catalog gives for the columns of a table. *)
Record catalog_ok (d : D) (table : bytes) (reclen : Z) (cs : list column_t) : Prop := {
  co_rows : record_columns reclen (pg_catalog d (QColumns table)) 0 = Some cs;
  co_fits : Forall row_fits (pg_catalog d (QColumns table));
  co_fuel : (length (pg_catalog d (QColumns table)) < fuel)%nat;
  co_left c : c ∈ cat_cursors → pg_cursor d c = None;
}.

Lemma catalog_columns_run (s : dbs D) table reclen cs : catalog_ok (conn s) table reclen cs → (length table ≤ 255)%nat →
  ∃ s' oid, catalog_columns fuel table reclen s = (s', inr (Some (oid, cs))) ∧ quiet [bs "cursor_columns"] s s' ∧
    (∀ c, c ∈ cat_cursors → pg_cursor (conn s') c = None).
Proof.
  intros [Hr Hf Hn Hl] Ht. unfold catalog_columns.
  erewrite bind_ok by (apply fit_run; unfold oid_sql, MAX_REC_LEN; rewrite !length_app; simpl; lia).
  destruct (pg_oid (conn s) table) as (d1 & r & E1 & K0).
  assert (cat_kept (P:=P) pg_catalog [bs "cursor_columns"] (conn s) d1) as K1 by (eapply cat_kept_more; [|exact K0]; set_solver).
  destruct (pq_quiet _ _ s _ _ E1 K1) as (s1 & E1' & Q1 & <-). erewrite bind_ok by exact E1'. cbv zeta.
  erewrite bind_ok by (apply fit_run; unfold columns_sql, MAX_REC_LEN; rewrite !length_app; simpl; lia).
  assert (pg_cursor (conn s1) (cat_cursor (QColumns table)) = None) as L1.
  { rewrite (ck_cursor _ _ _ _ K0); [apply Hl; by left|apply not_elem_of_nil]. }
  destruct (pg_cat_declare (conn s1) (QColumns table) L1) as (d2 & E2 & L2 & K2).
  destruct (pq_quiet _ _ s1 _ _ E2 K2) as (s2 & E2' & Q2 & <-). erewrite bind_ok by exact E2'.
  change (negb (is_command_ok _)) with false. cbv iota. rewrite (ck_catalog _ _ _ _ K1) in L2.
  destruct (read_columns_run reclen _ Hf fuel 0 s2 cs L2 Hr Hn) as (s3 & E3 & Q3 & L3). erewrite bind_ok by exact E3.
  destruct (pg_cat_close (conn s3) (QColumns table) _ L3) as (d4 & r4 & E4 & L4 & K4).
  destruct (pq_quiet _ _ s3 _ _ E4 K4) as (s4 & E4' & Q4 & <-). erewrite bind_ok by exact E4'.
  assert (quiet [bs "cursor_columns"] s s4) as QQ by (do 3 (eapply quiet_trans; [eassumption|]); done).
  eexists s4, _. split; [done|]. split; [done|]. intros c Hc.
  destruct (decide (c = bs "cursor_columns")) as [->|Hne]; [done|].
  rewrite (ck_cursor _ _ _ _ (q_conn _ _ _ QQ)); [by apply Hl|by rewrite list_elem_of_singleton].
Qed.

(** The queries and the cache: only the list of entries may change. *)
Record settled (s s' : dbs D) : Prop := {
  st_gdb : ∃ l, gdb s' = set_d_cache l (gdb s);
  st_tabs : tabs s' = tabs s;
  st_brk : tabs_brk s' = tabs_brk s;
  st_conn : cat_kept (P:=P) pg_catalog cat_cursors (conn s) (conn s');
  st_left c : c ∈ cat_cursors → pg_cursor (conn s') c = None;
}.

Lemma set_cache_same g : set_d_cache (d_cache g) g = g.
Proof. by destruct g. Qed.

Lemma quiet_settled s s' : quiet cat_cursors s s' → (∀ c, c ∈ cat_cursors → pg_cursor (conn s') c = None) → settled s s'.
Proof. intros [G T B K] L. split; try done. exists (d_cache (gdb s)). by rewrite set_cache_same. Qed.

(** The table after its columns, keys and schema are found. *)
Definition found_table (t : table_t) (dict : bytes) (oid : Z) (sch : bytes) (cs : list column_t) (ks : list key_t) : table_t :=
  set_t_clones [] (set_t_schema sch (set_t_keys (t_keys t ++ ks) (set_t_columns cs
    (set_t_oid oid (set_t_convertida true (set_t_dictname dict t)))))).

(** The table is in the dictionary and in the catalog, with the columns [cs] for this
    record. *)
Record known (s : ms) (recs1 recs2 : list bytes) (table : bytes) (fcd : fcd_t) (cs : list column_t) : Prop := {
  kn_dicts : dicts_ok env s recs1 recs2;
  kn_name : (length table ≤ 32)%nat;
  kn_dict : (length (dict_name table recs2).1 ≤ 256)%nat;
  kn_conv : dict_converted (dict_name table recs2).1 recs1 = true;
  kn_catalog : catalog_ok (conn (m_db s)) table (getshort (rec_len fcd)) cs;
  kn_cols : cs ≠ [];
  kn_schema : (length (cat_schema (conn (m_db s)) table) ≤ 32)%nat;
  kn_replica : e_replica env = None;
}.

(** With no connection to replicate on a table has no clones. *)
Lemma clones_of_none n tabname (s : ms) : e_replica env = None → clones_of env n tabname s = (s, inr []).
Proof. intros H. unfold clones_of. rewrite H. by destruct s. Qed.

Lemma table_info_run (s : ms) recs1 recs2 t fcd cs cols' keys' : known s recs1 recs2 (t_name t) fcd cs →
  d_usecache (gdb (m_db s)) = false ∨ cache_get (d_cache (gdb (m_db s))) (t_name t) = None →
  getkeys (kdb fcd) cs = Some (cols', keys') →
  ∃ s' oid, table_info env fuel t fcd s =
      (s', inr (found_table t (dict_name (t_name t) recs2).1 oid (cat_schema (conn (m_db s)) (t_name t)) cols' keys', fcd, true)) ∧
    settled (m_db s) (m_db s') ∧ dicts_ok env s' recs1 recs2.
Proof.
  intros [Hd Hn Hdn Hconv Hcat Hne Hsch Hrep] Hcache Hk. unfold table_info.
  erewrite bind_ok by (apply on_db_run, getd_run). erewrite bind_ok by (apply on_db_run, getd_run). cbv zeta. cbn [m_db m_isam m_fcd01 m_fcd02 m_replica].
  assert ((if d_usecache (gdb (m_db s)) then cache_get (d_cache (gdb (m_db s))) (t_name t) else None) = None) as ->.
  { by destruct Hcache as [-> | ->]; [|destruct (d_usecache _)]. }
  assert (mk_ms (m_db s) (m_isam s) (m_fcd01 s) (m_fcd02 s) (m_replica s) = s) as -> by by destruct s.
  destruct (nome_dicionario_run env s recs1 recs2 (t_name t) Hd Hn) as (s1 & E1 & D1 & M1). rewrite (bind_ok _ _ _ _ _ E1).
  change (t_dictname (set_t_dictname _ t)) with (dict_name (t_name t) recs2).1.
  destruct (tabela_convertida_run env s1 recs1 recs2 _ D1 Hdn) as (s2 & E2 & D2 & M2). rewrite (bind_ok _ _ _ _ _ E2), Hconv. cbn [negb].
  assert (m_db s2 = m_db s) as M by congruence.
  change (t_name (set_t_convertida true (set_t_dictname (dict_name (t_name t) recs2).1 t))) with (t_name t).
  assert (length (t_name t) ≤ 255)%nat as Hn255 by lia.
  destruct (catalog_columns_run (m_db s) (t_name t) _ cs Hcat Hn255) as (x3 & oid & E3 & Q3 & L3). rewrite <-M in E3.
  destruct cs as [|c0 cs']; [done|].
  erewrite bind_ok by (apply on_db_run; exact E3). cbv beta iota. rewrite Hk. cbn [of_option]. rewrite ret_bind. cbn [fst snd].
  assert (cat_schema (conn x3) (t_name t) = cat_schema (conn (m_db s)) (t_name t)) as Esch.
  { unfold cat_schema. by rewrite (ck_catalog _ _ _ _ (q_conn _ _ _ Q3)). }
  destruct (get_schema_run x3 (t_name t) (L3 _ ltac:(right; by left)) Hn255) as (x4 & E4 & Q4 & L4); [by rewrite Esch|].
  erewrite bind_ok by (apply on_db_run; exact E4). rewrite Esch.
  assert (settled (m_db s) x4) as S4.
  { apply quiet_settled; [eapply quiet_trans; (eapply quiet_more; [|eassumption]); unfold cat_cursors; set_solver|]. intros c Hc.
    destruct (decide (c = bs "cursor_tables")) as [->|Hc']; [done|].
    rewrite (ck_cursor _ _ _ _ (q_conn _ _ _ Q4)); [by apply L3|by rewrite list_elem_of_singleton]. }
  rewrite (bind_ok _ _ _ _ _ (clones_of_none fuel _ _ Hrep)).
  set (tf := set_t_clones _ _).
  assert (∃ x5, put_cache tf x4 = (x5, inr tt) ∧ settled (m_db s) x5) as (x5 & E5 & S5).
  { unfold put_cache. rewrite (bind_ok _ _ _ _ _ (getd_run _ _)). destruct (d_usecache (gdb x4)); [|by exists x4].
    eexists. split; [apply setd_run|]. destruct S4 as [[l G] T B K L]. split; try done. cbn [gdb]. rewrite G. by eexists. }
  erewrite bind_ok by (apply on_db_run; exact E5). eexists (mk_ms x5 _ _ _ _), oid. split; [done|]. split; [done|].
  destruct D2 as [F1 F2 F3 F4 F5 F6]. by split.
Qed.

(** ** The open *)

(** An open of the file [name]: the table is known, with
    the columns and keys of the contract, and nothing of this time is left on the server. *)
Record open_call (s : ms) (fcd : fcd_t) (opcode : Z) (recs1 recs2 : list bytes) (cs : list column_t) : Prop := {
  oc_closed : open_mode fcd = ST_OPEN_CLOSED;
  oc_isam : isam fcd ≠ ch "S";
  oc_fnlen : 0 <= getshort (file_name_len fcd) <= 256 ∧ getshort (file_name_len fcd) <= Z.of_nat (length (file_name fcd));
  oc_name : basename (cut (cstr (fname fcd)) (ch " ")) = name;
  oc_pqfh : name ≠ bs "pqfh" ∧ memeq (file_name fcd) (bs "pqfh") 4 = false;
  oc_op : opcode ∈ [OP_OPEN_INPUT; OP_OPEN_IO; OP_OPEN_EXTEND; OP_OPEN_OUTPUT];
  oc_reclen : getshort (rec_len fcd) = Z.of_nat (cols_len cols);
  oc_known : known s recs1 recs2 name fcd cs;
  oc_cache : d_usecache (gdb (m_db s)) = false ∨ cache_get (d_cache (gdb (m_db s))) name = None;
  oc_keys : getkeys (kdb fcd) cs = Some (cols, keys);
  oc_schema : cat_schema (conn (m_db s)) name = schema;
  oc_texts : (length schema + length name ≤ 200)%nat;
  oc_free suffix : pg_free (conn (m_db s)) (sname (name:=name) ts suffix);
  oc_cursor : pg_cursor (conn (m_db s)) (cname (name:=name) ts) = None;
  oc_brk : 0 <= tabs_brk (m_db s) < 2 ^ 32;
  oc_gdb : d_partial_weak (gdb (m_db s)) = false ∧ d_erros (gdb (m_db s)) = [];
}.

Lemma file_basename_run fcd (s : ms) : 0 <= getshort (file_name_len fcd) <= 256 ∧ getshort (file_name_len fcd) <= Z.of_nat (length (file_name fcd)) →
  file_basename fcd s = (s, inr (basename (cut (cstr (fname fcd)) (ch " ")))).
Proof.
  intros ([H1 H2] & H3). unfold file_basename. cbv zeta. rewrite (proj2 (Z.leb_le _ _) H2). cbn [guard_fault]. rewrite ret_bind.
  assert (sub_bytes (file_name fcd) 0 (getshort (file_name_len fcd)) = Some (fname fcd)) as ->.
  { unfold sub_bytes. rewrite !(proj2 (Z.leb_le _ _)) by lia. done. }
  done.
Qed.

(** The table an open leaves agrees with a session that has nothing prepared. *)
Lemma found_ok d dict oid partial : (∀ suffix, pg_free d (sname (name:=name) ts suffix)) →
  tab_ok (PgTable0:=P) ts d (found_table (new_table name ts partial) dict oid schema cols keys).
Proof.
  intros Hf. split; try done.
  - intros k key b _ Hb. cbn [found_table t_read_prepared set_t_clones set_t_schema set_t_keys set_t_columns set_t_oid set_t_convertida set_t_dictname new_table] in Hb.
    apply lookup_replicate in Hb as [-> _]. split; [apply Hf|done].
  - apply Hf.
  - split; [apply Hf|done].
  - split; [apply Hf|done].
  - intros k _ E. by apply lookup_replicate in E as [? _].
Qed.

(** The cursor of a table is none of the catalog. *)
Lemma cname_not_cat : cname (name:=name) ts ∉ cat_cursors.
Proof.
  assert (∀ x y z : bytes, ch "_" ∉ z → x ++ bs "_" ++ y ≠ z) as H.
  { intros x y z Hz <-. apply Hz. rewrite !elem_of_app. right. left. by left. }
  unfold cname, cat_cursors. rewrite !elem_of_cons, elem_of_nil. intros [E|[E|[]]];
    [apply (app_inv_head (bs "cursor_") _ (bs "columns")) in E|apply (app_inv_head (bs "cursor_") _ (bs "tables")) in E];
    revert E; apply H; by apply (bool_decide_unpack _).
Qed.

Lemma truncate_run (s : dbs D) : basename name = name → (∀ c, c ∈ cat_cursors → pg_cursor (conn s) c = None) →
  cat_schema (conn s) name = schema → (length schema + length name ≤ 200)%nat → (length schema ≤ 32)%nat →
  ∃ s', truncate_table env name s = (s', inr tt) ∧ gdb s' = gdb s ∧ tabs s' = tabs s ∧ tabs_brk s' = tabs_brk s ∧
    pg_rows (conn s') = [] ∧ same_prepared (conn s) (conn s') ∧ (∀ m, m ∉ cat_cursors → pg_cursor (conn s') m = pg_cursor (conn s) m).
Proof.
  intros Hb Hl Hs Hlen Hsl. unfold truncate_table. cbv zeta. rewrite Hb.
  destruct (get_schema_run s name) as (s1 & E1 & Q1 & _); [apply Hl; right; by left|lia|by rewrite Hs|].
  rewrite (bind_ok _ _ _ _ _ E1), Hs. erewrite bind_ok by (apply fit_run; rewrite !length_app; simpl; lia).
  destruct (pg_truncate (conn s1)) as (d2 & r & E2 & R2 & P2 & C2 & K2).
  erewrite bind_ok by (apply pq_run; exact E2). eexists. split; [done|]. cbn [conn gdb tabs tabs_brk].
  destruct Q1 as [G1 T1 B1 K1]. split_and!; try done.
  - intros m. destruct (ck_prep _ _ _ _ K1 m), (P2 m). split; [congruence|auto].
  - intros m Hm. rewrite C2, (ck_cursor _ _ _ _ K1); [done|]. contradict Hm. unfold cat_cursors. set_solver.
Qed.

(** The rows the open leaves. *)
Definition kept_rows (opcode : Z) {A} (rows : list A) : list A := if opcode =? OP_OPEN_OUTPUT then [] else rows.

(** The control block an open of the table at [a] answers. *)
Definition opened (fcd : fcd_t) (opcode a : Z) : fcd_t :=
  set_sign (ch "P") (set_status ST_OK (set_open_mode (opcode - 64000) (set_file_id (putint a) fcd))).

Lemma op_open_run (s : ms) fcd opcode recs1 recs2 cs : open_call s fcd opcode recs1 recs2 cs →
  ∃ s' t, op_open env fuel ts fcd opcode s = (s', inr (opened fcd opcode (tabs_brk (m_db s)), false)) ∧
    sess_ok (PgTable0:=P) ts (m_db s') (tabs_brk (m_db s)) t ∧ t_cursor t = false ∧ t_partial_key t = d_ncomps (gdb (m_db s)) ∧
    t_restart t = 0 ∧ t_key_next t = -1 ∧ t_key_prev t = -1 ∧
    pg_rows (conn (m_db s')) = kept_rows opcode (pg_rows (conn (m_db s))) ∧ pg_cursor (conn (m_db s')) (cname (name:=name) ts) = None ∧
    gdb_same (gdb (m_db s)) (gdb (m_db s')) ∧ dicts_ok env s' recs1 recs2.
Proof.
  intros [Hcl Hisam Hfn Hname [Hpq Hpq4] Hop Hrl Hkn Hcache Hkeys Hsch Htexts Hfree Hcur Hbrk [Hpw Her]].
  unfold op_open. rewrite (bind_ok _ _ _ _ _ (file_basename_run fcd s Hfn)), Hname, Hcl.
  change (negb (ST_OPEN_CLOSED =? ST_OPEN_CLOSED)) with false. cbv iota. pose proof (kn_name _ _ _ _ _ _ Hkn) as Hnl.
  rewrite (proj2 (Nat.leb_le _ MAX_NAME_LEN)) by (unfold MAX_NAME_LEN; lia). cbn [guard_fault]. rewrite ret_bind.
  erewrite bind_ok by (apply on_db_run, getd_run). cbv zeta. set (t0 := new_table name ts _).
  erewrite bind_ok by (apply on_db_run; reflexivity). erewrite bind_ok by (apply on_db_run, setd_run).
  rewrite bool_decide_false by done. cbn [m_db m_isam m_fcd01 m_fcd02 m_replica conn gdb tabs tabs_brk].
  set (a := tabs_brk (m_db s)) in *. set (s1 := mk_ms _ _ _ _ _). set (fcd1 := set_file_id (putint a) fcd).
  assert (known s1 recs1 recs2 (t_name t0) fcd1 cs) as Hkn1.
  { destruct Hkn as [[F1 F2 F3 F4 F5 F6] K2 K3 K4 K5 K6 K7 K8]. by split. }
  destruct (table_info_run s1 recs1 recs2 t0 fcd1 cs cols keys Hkn1 Hcache Hkeys) as (s2 & oid & E2 & S2 & D2).
  rewrite (bind_ok _ _ _ _ _ E2). change (cat_schema (conn (m_db s1)) (t_name t0)) with (cat_schema (conn (m_db s)) name). rewrite Hsch.
  set (tf := found_table t0 _ oid schema cols keys). destruct S2 as [[l G] T B K L].
  assert (tabs (m_db s2) !! a = Some t0) as Ha by (rewrite T; apply lookup_insert_eq).
  erewrite bind_ok by (apply on_db_run, (on_tab_run (m_db s2) a t0 (λ _, tf) Ha)). set (s3 := mk_ms _ _ _ _ _).
  assert (∃ s4, (if opcode =? OP_OPEN_OUTPUT then on_db (truncate_table env (t_name tf)) else mret tt) s3 = (s4, inr tt) ∧
    gdb (m_db s4) = gdb (m_db s3) ∧ tabs (m_db s4) = tabs (m_db s3) ∧ same_prepared (conn (m_db s3)) (conn (m_db s4)) ∧
    pg_rows (conn (m_db s4)) = kept_rows opcode (pg_rows (conn (m_db s3))) ∧
    (∀ m, m ∉ cat_cursors → pg_cursor (conn (m_db s4)) m = pg_cursor (conn (m_db s3)) m) ∧ dicts_ok env s4 recs1 recs2) as (s4 & E4 & G4 & T4 & P4 & R4 & C4 & D4).
  { unfold kept_rows. assert (dicts_ok env s3 recs1 recs2) as D3 by (destruct D2; by split). destruct (opcode =? OP_OPEN_OUTPUT).
    - destruct (truncate_run (m_db s3)) as (x & E & G' & T' & B' & R' & P' & C'); [by rewrite <-Hname, basename_idem|exact L| |lia| |].
      { unfold cat_schema. cbn [conn m_db s3]. rewrite (ck_catalog _ _ _ _ K). exact Hsch. }
      { rewrite <-Hsch. apply (kn_schema _ _ _ _ _ _ Hkn). }
      eexists. split; [apply on_db_run; exact E|]. split_and!; try done. destruct D3; by split.
    - exists s3. by split_and!. }
  assert (u8 (opcode - 64000) = opcode - 64000) as ->.
  { rewrite !elem_of_cons, elem_of_nil in Hop. by destruct Hop as [->|[->|[->|[->|[]]]]]. }
  erewrite bind_ok by (rewrite (bind_ok _ _ _ _ _ E4); reflexivity). cbv beta iota.
  change (isam (set_status ST_OK (set_open_mode (opcode - 64000) fcd1))) with (isam fcd).
  rewrite (proj2 (Z.eqb_neq _ _) Hisam). exists s4, tf. split; [done|].
  split; [|split_and!; try done].
  - split; [rewrite T4; apply lookup_insert_eq|]. rewrite G4. cbn [m_db gdb s3]. rewrite G. split; [|done].
    apply found_ok. intros suffix. apply P4, (ck_prep _ _ _ _ K), Hfree.
  - rewrite R4. cbn [m_db conn s3]. by rewrite (ck_rows _ _ _ _ K).
  - rewrite C4 by apply cname_not_cat. cbn [m_db conn s3]. by rewrite (ck_cursor _ _ _ _ K) by apply cname_not_cat.
  - rewrite G4. cbn [m_db gdb s3]. rewrite G. by split_and!.
Qed.

Lemma opened_mode opcode : opcode ∈ [OP_OPEN_INPUT; OP_OPEN_IO; OP_OPEN_EXTEND; OP_OPEN_OUTPUT] → opcode - 64000 ≠ ST_OPEN_CLOSED.
Proof. rewrite !elem_of_cons, elem_of_nil. by intros [->|[->|[->|[->|[]]]]]. Qed.

Lemma opened_file fcd opcode a : 0 <= a < 2 ^ 32 → getint (file_id (opened fcd opcode a)) = a.
Proof. intros Ha. pose proof (getint_putint a [] Ha) as Ei. by rewrite app_nil_r in Ei. Qed.

Lemma opened_call (s : ms) fcd opcode recs1 recs2 cs area : open_call s fcd opcode recs1 recs2 cs → length area = cols_len cols →
  call_ok (cols:=cols) (set_rec area (opened fcd opcode (tabs_brk (m_db s)))) (tabs_brk (m_db s)).
Proof.
  intros Hcall Ha. split; [|apply opened_file|..]; try apply Hcall; [|done].
  apply (opened_mode opcode), (oc_op _ _ _ _ _ _ Hcall).
Qed.

Lemma kept_rows_ok d d' opcode recs : pg_rows d' = kept_rows opcode (pg_rows d) → rows_ok (P:=P) d recs →
  rows_ok (P:=P) d' (kept_rows opcode recs).
Proof. unfold rows_ok, kept_rows. intros ->. by destruct (opcode =? OP_OPEN_OUTPUT); [split; [|split; constructor]|]. Qed.

(** C7: Opening a table that the dictionary and the catalog know answers 00 and leaves a
    session on it: the columns, keys and schema found are those of the file, with nothing
    prepared and no cursor, so that the operations and the reads that follow behave as those
    of the indexed file with the rows of the table - none after an open for output. *)
Theorem open_session (s : ms) fcd opcode recs1 recs2 cs recs : open_call s fcd opcode recs1 recs2 cs → rows_ok (P:=P) (conn (m_db s)) recs →
  name ∉ d_weak (gdb (m_db s)) → d_force_partial (gdb (m_db s)) = false → d_ncomps (gdb (m_db s)) = 0%nat →
  ∃ s' fcd' t, op_open env fuel ts fcd opcode s = (s', inr (fcd', false)) ∧
    status fcd' = ST_OK ∧ open_mode fcd' = opcode - 64000 ∧ key_id fcd' = key_id fcd ∧ record fcd' = record fcd ∧
    (∀ area, length area = cols_len cols → call_ok (cols:=cols) (set_rec area fcd') (tabs_brk (m_db s))) ∧
    file_ok (P:=P) ts (m_db s') (tabs_brk (m_db s)) (kept_rows opcode recs) ∧
    can_start (P:=P) ts (m_db s') (tabs_brk (m_db s)) t ∧
    (∀ op k area, fresh_start t op k (default [] (cols_at (cols:=cols) ∘ k_columns <$> keys !! k)) area).
Proof.
  intros Hcall Hrows Hweak Hforce Hpart.
  destruct (op_open_run s fcd opcode recs1 recs2 cs Hcall) as (s' & t & E & Hs & Hc & Hp & Hre & Hkn & Hkp & Hr & Hcur & (G1 & G2 & G3 & _ & _) & _).
  eexists s', _, t. split; [exact E|]. do 4 (split; [done|]). split; [|split; [|split]].
  - intros area Ha. by eapply opened_call.
  - split; [by exists t|]. by eapply kept_rows_ok.
  - split; [done| |by rewrite G2|by rewrite G3|congruence]. unfold cursor_ok. by rewrite Hc.
  - intros op k area. split; [done|]. unfold same_start. rewrite Hkn, Hkp.
    assert ((Z.of_nat k =? -1) = false) as -> by (apply Z.eqb_neq; lia). by rewrite !andb_false_r.
Qed.

End opening.
