(* ===== verification/MetaClose.v ===== *)
(** Closing a table ends its session: the statements it prepared and its cursor are gone from
    the server, the table from the memory. *)

From stdpp Require Import prelude gmap strings.
From S2P Require Import Prelude Fhtypes Fcd Table Kdb Libpq Meta DbRead DbWrite Sql DbRows DbSession DbSpec Cursor CursorSpec CursorScan Merge Cmp CmpIsam MetaSpec MetaOpen.
Local Open Scope Z_scope.

Section closing.
Context {D : Type} `{!Libpq D} `{!DbCalls D}.
Context {schema name : bytes} {cols : list column_t} {keys : list key_t}.
Context `{P : !PgTable D schema name cols keys} `{C : !PgCursor D schema name cols keys} `{Q : !PgCatalog D P} (ts : bytes).
Context (Hwf : file_wf (schema:=schema) (name:=name) (cols:=cols) (keys:=keys) ts).
Context (Hword : 32 ∉ name ∧ 32 ∉ ts).
Notation sess_ok := (sess_ok (PgTable0:=P) ts).
Notation tab_ok := (tab_ok (PgTable0:=P) ts).
Notation sname := (sname (name:=name) ts).
Notation cname := (cname (name:=name) ts).

(** A statement is forgotten, the others keep their places. *)
Definition freed (d d' : D) (n : bytes) : Prop := kept d d' [n] ∧ pg_free d' n.

Lemma slot_freed d d' b n q x : freed d d' n → x ≠ n → slot d b x q → slot d' b x q.
Proof. intros [H _] Hx. apply (slot_kept d d' b x q [n] H). by rewrite list_elem_of_singleton. Qed.

(** The flags of some statements are cleared. *)
Definition drop_flags (r : nat → bool) (ins upd del : bool) (t : table_t) : table_t :=
  set_t_read_prepared (imap (λ k b, if r k then false else b) (t_read_prepared t))
    (set_t_ins_prepared (negb ins && t_ins_prepared t) (set_t_upd_prepared (negb upd && t_upd_prepared t)
      (set_t_del_prepared (negb del && t_del_prepared t) t))).

Lemma tab_ok_freed (r : nat → bool) ins upd del d d' t n :
  tab_ok d t → freed d d' n →
  (∀ k, (k < MAX_KEYS)%nat → if r k then n = sname (fmt_d (Z.of_nat k)) else sname (fmt_d (Z.of_nat k)) ≠ n) →
  (if ins : bool then n = sname (bs "ins") else sname (bs "ins") ≠ n) →
  (if upd : bool then n = sname (bs "upd") else sname (bs "upd") ≠ n) →
  (if del : bool then n = sname (bs "del") else sname (bs "del") ≠ n) →
  tab_ok d' (drop_flags r ins upd del t).
Proof.
  intros Ht Hf Hr Hi Hu Hd. split; try apply Ht; cbn.
  - rewrite length_imap. apply Ht.
  - intros k key b Hk Hb. destruct (keys_bound ts Hwf _ _ Hk) as [Hlt _]. rewrite list_lookup_imap in Hb.
    destruct (t_read_prepared t !! k) as [b0|] eqn:Eb; [|done]. destruct (to_read _ _ _ Ht _ _ _ Hk Eb) as [Hs Hp].
    specialize (Hr k Hlt). cbn in Hb. apply (inj Some) in Hb. destruct (r k); subst b.
    + split; [|done]. subst n. apply Hf.
    + split; [|done]. by eapply slot_freed.
  - pose proof (to_ins _ _ _ Ht) as H. destruct ins; [subst n; apply Hf|by eapply slot_freed].
  - destruct (to_upd _ _ _ Ht) as [H H']. destruct upd; (split; [|done]);
      [subst n; apply Hf|by eapply slot_freed].
  - destruct (to_del _ _ _ Ht) as [H H']. destruct del; (split; [|done]);
      [subst n; apply Hf|by eapply slot_freed].
  - intros k Hk. rewrite list_lookup_imap. pose proof (to_over _ _ _ Ht k Hk) as H.
    destruct (t_read_prepared t !! k) as [b|]; [|done]. cbn. by destruct (r k).
Qed.

(** What stays while the statements of the table at [a] go. *)
Record closes (a : Z) (s s' : dbs D) : Prop := {
  cl_gdb : gdb s' = gdb s;
  cl_tabs b : b ≠ a → tabs s' !! b = tabs s !! b;
  cl_rows : pg_rows (conn s') = pg_rows (conn s);
  cl_cursor m : pg_cursor (conn s') m = pg_cursor (conn s) m;
  cl_free m : pg_free (conn s) m → pg_free (conn s') m;
}.

Lemma closes_refl a s : closes a s s.
Proof. by split. Qed.

Lemma closes_trans a s1 s2 s3 : closes a s1 s2 → closes a s2 s3 → closes a s1 s3.
Proof.
  intros [A1 A2 A3 A4 A5] [B1 B2 B3 B4 B5]. split; [congruence| |congruence| |by auto].
  - intros b Hb. by rewrite B2, A2.
  - intros m. by rewrite B4.
Qed.

(** The statements the flags are for: only the one with this suffix. *)
Definition flags_of (r : nat → bool) (ins upd del : bool) (suffix : bytes) : Prop :=
  (∀ k, (k < MAX_KEYS)%nat → r k = bool_decide (fmt_d (Z.of_nat k) = suffix)) ∧
  ins = bool_decide (bs "ins" = suffix) ∧ upd = bool_decide (bs "upd" = suffix) ∧ del = bool_decide (bs "del" = suffix).

Lemma flag_name suffix x : if bool_decide (x = suffix) then sname suffix = sname x else sname x ≠ sname suffix.
Proof. case_bool_decide as E; [by subst|]. intros H. by apply sname_inj in H. Qed.

Lemma dealloc_step r ins upd del suffix q b (f : table_t → table_t) text (s : dbs D) a t : sess_ok s a t →
  slot (conn s) b (sname suffix) q → (length suffix ≤ 3)%nat → text = sname suffix → flags_of r ins upd del suffix →
  f t = (if b : bool then drop_flags r ins upd del t else t) →
  ∃ s', (if b : bool then on_tab a f;; exec_logged (bs "deallocate " ++ text) else mret tt) s = (s', inr tt) ∧
    sess_ok s' a (f t) ∧ closes a s s'.
Proof.
  intros Hs Hq Hl -> (Hr & Hi & Hu & Hd) Hf. destruct b; [|exists s; rewrite Hf; split; [done|split; [done|apply closes_refl]]].
  destruct Hs as (Ha & Ht & Hw & He). rewrite (bind_ok _ _ _ _ _ (on_tab_run _ _ _ _ Ha)).
  unfold exec_logged. pose proof (fw_name ts Hwf).
  erewrite bind_ok by (apply fit_run; unfold DbSession.sname; rewrite !length_app; simpl; unfold MAX_REC_LEN; lia).
  destruct (pg_deallocate (conn s) _ _ Hq) as (d' & res & E & Hfr & Hrows & Hk & Hc).
  erewrite bind_ok by (apply pq_run; exact E). eexists. split; [done|]. split.
  - split; [apply lookup_insert_eq|]. split; [|done]. cbn [conn]. rewrite Hf.
    apply (tab_ok_freed r ins upd del (conn s) d' t (sname suffix) Ht).
    + split; [|done]. intros m Hm. apply Hk. intros ->. apply Hm. by left.
    + intros k Hk'. rewrite (Hr k Hk'). apply flag_name.
    + rewrite Hi. apply flag_name.
    + rewrite Hu. apply flag_name.
    + rewrite Hd. apply flag_name.
  - split; try done; cbn.
    + intros b Hb. by rewrite lookup_insert_ne.
    + intros m Hm. destruct (decide (m = sname suffix)) as [->|Hne]; [done|]. by apply Hk.
Qed.

Lemma imap_keep (l : list bool) : imap (λ k b, if false then false else b) l = l.
Proof. induction l as [|b l IH]; [done|]. rewrite imap_cons. simpl. by f_equal. Qed.

Lemma imap_drop (l : list bool) k : imap (λ i b, if bool_decide (i = k) then false else b) l = <[k:=false]> l.
Proof.
  apply list_eq. intros i. rewrite list_lookup_imap. destruct (decide (i = k)) as [->|Hne].
  - destruct (l !! k) as [b|] eqn:E; cbn.
    + rewrite bool_decide_true by done. symmetry. apply list_lookup_insert_eq. by eapply lookup_lt_Some.
    + symmetry. apply lookup_ge_None. rewrite length_insert. by apply lookup_ge_None.
  - rewrite list_lookup_insert_ne by done. destruct (l !! i); [|done]. cbn. by rewrite bool_decide_false.
Qed.

(** The reads from [k] on. *)
Lemma deallocate_reads_run a : ∀ n k (s : dbs D) t, sess_ok s a t → (k + n = MAX_KEYS)%nat →
  ∃ s' rs, deallocate_reads a n k s = (s', inr tt) ∧ sess_ok s' a (set_t_read_prepared rs t) ∧ closes a s s' ∧
    (∀ i, rs !! i = Some true → (i < k)%nat ∧ t_read_prepared t !! i = Some true).
Proof.
  induction n as [|n IH]; intros k s t Hs Hkn.
  - exists s, (t_read_prepared t). split; [done|]. split; [by destruct t|]. split; [apply closes_refl|].
    intros i Hi. split; [|done]. apply lookup_lt_Some in Hi. rewrite (to_nread _ _ _ (proj1 (proj2 Hs))) in Hi. lia.
  - cbn [deallocate_reads]. rewrite (bind_ok _ _ _ _ _ (tab_at_run _ _ _ (proj1 Hs))).
    assert (∃ s1 rs, (if default false (t_read_prepared t !! k) then
         on_tab a (set_t_read_prepared (<[k:=false]> (t_read_prepared t)));;
         exec_logged (bs "deallocate " ++ stmt_name t (fmt_d (Z.of_nat k)))
       else mret tt) s = (s1, inr tt) ∧ sess_ok s1 a (set_t_read_prepared rs t) ∧ closes a s s1 ∧
       (∀ i, rs !! i = Some true → i ≠ k ∧ t_read_prepared t !! i = Some true)) as (s1 & rs & E1 & Hs1 & C1 & Hrs).
    { destruct (t_read_prepared t !! k) as [[]|] eqn:Eb; cbn [default].
      - destruct (keys !! k) as [key|] eqn:Ek; [|by destruct (to_over _ _ _ (proj1 (proj2 Hs)) k Ek)].
        assert (k < MAX_KEYS)%nat as Hk by lia. destruct (fmt_key k Hk) as (N1 & N2 & N3 & Hl).
        destruct (to_read _ _ _ (proj1 (proj2 Hs)) k key true Ek Eb) as [Hsl _].
        destruct (dealloc_step (λ i, bool_decide (i = k)) false false false (fmt_d (Z.of_nat k)) (SSelect (k_columns key)) true
          (set_t_read_prepared (<[k:=false]> (t_read_prepared t))) _ s a t Hs Hsl ltac:(lia) (stmt_name_eq _ _ _ _ (proj1 (proj2 Hs))))
          as (s1 & E1 & Hs1 & C1).
        + split; [|split_and!; by rewrite bool_decide_false by congruence]. intros i Hi. apply bool_decide_ext.
          split; [by intros ->|]. by apply fmt_key_inj.
        + unfold drop_flags. rewrite imap_drop. by destruct t.
        + exists s1, (<[k:=false]> (t_read_prepared t)). split; [done|]. split; [done|]. split; [done|]. intros i Hi.
          destruct (decide (i = k)) as [->|Hne]; [|by rewrite list_lookup_insert_ne in Hi by done].
          rewrite list_lookup_insert_eq in Hi by (by eapply lookup_lt_Some). done.
      - exists s, (t_read_prepared t). split; [done|]. split; [by destruct t|]. split; [apply closes_refl|].
        intros i Hi. split; [congruence|done].
      - exists s, (t_read_prepared t). split; [done|]. split; [by destruct t|]. split; [apply closes_refl|].
        intros i Hi. split; [congruence|done]. }
    rewrite (bind_ok _ _ _ _ _ E1). destruct (IH (S k) s1 _ Hs1) as (s2 & rs2 & E2 & Hs2 & C2 & H2); [lia|].
    exists s2, rs2. split; [done|]. split; [by destruct t|]. split; [by eapply closes_trans|].
    intros i Hi. destruct (H2 i Hi) as [Hlt Hi']. destruct (Hrs i) as [Hne Hi'']; [by destruct t|]. split; [lia|done].
Qed.

Lemma no_reads k suffix : (k < MAX_KEYS)%nat → suffix ∈ [bs "ins"; bs "upd"; bs "del"] →
  false = bool_decide (fmt_d (Z.of_nat k) = suffix).
Proof.
  intros Hk. destruct (fmt_key k Hk) as (N1 & N2 & N3 & _). rewrite !elem_of_cons, elem_of_nil.
  intros H. symmetry. apply bool_decide_eq_false. intros E. naive_solver.
Qed.

Lemma deallocate_run (s : dbs D) a t : sess_ok s a t →
  ∃ s' t', deallocate a s = (s', inr tt) ∧ sess_ok s' a t' ∧ closes a s s' ∧ t_cursor t' = t_cursor t ∧
    (∀ i, t_read_prepared t' !! i ≠ Some true) ∧ t_ins_prepared t' = false ∧ t_upd_prepared t' = false ∧
    t_del_prepared t' = false.
Proof.
  intros Hs. unfold deallocate.
  destruct (deallocate_reads_run a MAX_KEYS 0 s t Hs eq_refl) as (s1 & rs & E1 & Hs1 & C1 & Hrs). rewrite (bind_ok _ _ _ _ _ E1).
  rewrite (bind_ok _ _ _ _ _ (tab_at_run _ _ _ (proj1 Hs1))). set (t1 := set_t_read_prepared rs t) in *.
  pose proof (λ x, stmt_name_eq ts _ _ x (proj1 (proj2 Hs1))) as Hname.
  destruct (dealloc_step (λ _, false) true false false (bs "ins") SInsert (t_ins_prepared t1) (set_t_ins_prepared false) (stmt_name t1 (bs "ins")) s1 a t1 Hs1)
    as (s2 & E2 & Hs2 & C2); [apply Hs1|simpl; lia|apply Hname| | |].
  { split; [|done]. intros k Hk. by apply no_reads; [|left]. }
  { unfold drop_flags. rewrite imap_keep. destruct (t_ins_prepared t1) eqn:E; destruct t1; [done|]. cbn in E. by subst. }
  rewrite (bind_ok _ _ _ _ _ E2).
  destruct (dealloc_step (λ _, false) false true false (bs "upd") (SUpdate (set_cols cols) (pk_ixs keys)) (t_upd_prepared t1)
    (set_t_upd_prepared false) (stmt_name t1 (bs "upd")) s2 a _ Hs2) as (s3 & E3 & Hs3 & C3); [apply Hs2|simpl; lia|apply Hname| | |].
  { split; [|done]. intros k Hk. by apply no_reads; [|right; left]. }
  { unfold drop_flags. rewrite imap_keep. destruct (t_upd_prepared t1) eqn:E; destruct t1; [done|]. cbn in E. by subst. }
  rewrite (bind_ok _ _ _ _ _ E3).
  destruct (dealloc_step (λ _, false) false false true (bs "del") (SDelete (pk_ixs keys)) (t_del_prepared t1)
    (set_t_del_prepared false) (stmt_name t1 (bs "del")) s3 a _ Hs3) as (s4 & E4 & Hs4 & C4); [apply Hs3|simpl; lia|apply Hname| | |].
  { split; [|done]. intros k Hk. by apply no_reads; [|right; right; left]. }
  { unfold drop_flags. rewrite imap_keep. destruct (t_del_prepared t1) eqn:E; destruct t1; [done|]. cbn in E. by subst. }
  exists s4, (set_t_del_prepared false (set_t_upd_prepared false (set_t_ins_prepared false t1))). split; [exact E4|]. split; [done|].
  split; [do 3 (eapply closes_trans; [eassumption|]); done|]. split_and!; try done. intros i Hi. apply Hrs in Hi. lia.
Qed.

Lemma free_slots d t suffix : tab_ok d t → (∀ i, t_read_prepared t !! i ≠ Some true) → t_ins_prepared t = false →
  t_upd_prepared t = false → t_del_prepared t = false →
  suffix ∈ bs "ins" :: bs "upd" :: bs "del" :: ((λ k, fmt_d (Z.of_nat k)) <$> seq 0 (length keys)) → pg_free d (sname suffix).
Proof.
  intros Ht Hr Hi Hu Hd. rewrite !elem_of_cons, list_elem_of_fmap. intros [->|[->|[->|(k & -> & [_ Hk]%elem_of_seq)]]].
  - pose proof (to_ins _ _ _ Ht) as H. by rewrite Hi in H.
  - destruct (to_upd _ _ _ Ht) as [H _]. by rewrite Hu in H.
  - destruct (to_del _ _ _ Ht) as [H _]. by rewrite Hd in H.
  - destruct (lookup_lt_is_Some_2 keys k) as [key Ek]; [lia|]. destruct (keys_bound ts Hwf _ _ Ek) as [Hb _].
    destruct (lookup_lt_is_Some_2 (t_read_prepared t) k) as [[] Eb]; [by rewrite (to_nread _ _ _ Ht)|by apply Hr in Eb|].
    by destruct (to_read _ _ _ Ht _ _ _ Ek Eb) as [H _].
Qed.

(** A call to close the file at [a]. *)
Record close_call (fcd : fcd_t) (a : Z) : Prop := {
  xc_open : open_mode fcd ≠ ST_OPEN_CLOSED;
  xc_file : getint (file_id fcd) = a;
  xc_sign : sign fcd = ch "P";
  xc_fnlen : 0 <= getshort (file_name_len fcd) <= 256 ∧ getshort (file_name_len fcd) <= Z.of_nat (length (file_name fcd));
}.

Lemma is_weak_any (s : dbs D) : is_weak name s = (s, inr (bool_decide (name ∈ d_weak (gdb s)))).
Proof. unfold is_weak. by rewrite (bind_ok _ _ _ _ _ (getd_run _ _)). Qed.

Lemma drop_weak_run (s : dbs D) : (if bool_decide (name ∈ d_weak (gdb s)) then setd (λ g, set_d_weak (drop_first name (d_weak g)) g) else mret tt) s =
  (mk_dbs (conn s) (set_d_weak (drop_first name (d_weak (gdb s))) (gdb s)) (tabs s) (tabs_brk s), inr tt).
Proof.
  case_bool_decide as H; [done|]. assert (drop_first name (d_weak (gdb s)) = d_weak (gdb s)) as ->; [|by destruct s as [? [] ? ?]].
  induction (d_weak (gdb s)) as [|x l IH]; [done|]. apply not_elem_of_cons in H as [Hx Hl]. cbn [drop_first].
  rewrite bool_decide_false by congruence. by rewrite IH.
Qed.

Lemma op_close_run (s : dbs D) fcd a t : close_call fcd a → sess_ok s a t → cursor_ok ts (conn s) t → name ≠ bs "pqfh" →
  ∃ s', op_close fcd s = (s', inr (set_status ST_OK (set_open_mode ST_OPEN_CLOSED fcd), false)) ∧
    tabs s' !! a = None ∧ (∀ b, b ≠ a → tabs s' !! b = tabs s !! b) ∧
    (∀ suffix, suffix ∈ bs "ins" :: bs "upd" :: bs "del" :: ((λ k, fmt_d (Z.of_nat k)) <$> seq 0 (length keys)) →
      pg_free (conn s') (sname suffix)) ∧
    (∀ m, pg_free (conn s) m → pg_free (conn s') m) ∧ pg_cursor (conn s') cname = None ∧
    pg_rows (conn s') = pg_rows (conn s) ∧ gdb s' = set_d_weak (drop_first name (d_weak (gdb s))) (gdb s).
Proof.
  intros [Ho Hfile Hsign [[F1 F2] F3]] Hs Hcur Hname. unfold op_close. rewrite (proj2 (Z.leb_le _ _) F2). cbn [guard_fault]. rewrite ret_bind.
  assert (sub_bytes (file_name fcd) 0 (getshort (file_name_len fcd)) = Some (fname fcd)) as ->.
  { unfold sub_bytes. rewrite !(proj2 (Z.leb_le _ _)) by lia. done. }
  cbn [of_option]. rewrite ret_bind, (proj2 (Z.eqb_neq _ _) Ho), Hfile. cbv zeta.
  rewrite (bind_ok _ _ _ _ _ (tab_at_run _ _ _ (proj1 Hs))), (to_name _ _ _ (proj1 (proj2 Hs))), bool_decide_false by done.
  rewrite (bind_ok _ _ _ _ _ (is_weak_any s)). pose proof (drop_weak_run s) as Ew. set (s0 := mk_dbs _ _ _ _) in Ew.
  rewrite (bind_ok _ _ _ _ _ Ew).
  assert (sess_ok s0 a t) as Hs0 by (destruct Hs as (? & ? & ? & ?); by split).
  destruct (deallocate_run s0 a t Hs0) as (s1 & t1 & E1 & Hs1 & C1 & Hcur1 & Hr & Hi & Hu & Hd).
  assert (cursor_ok ts (conn s1) t1) as Hc1 by (unfold cursor_ok in *; rewrite Hcur1, (cl_cursor _ _ _ C1); exact Hcur).
  destruct (close_cursor_run ts Hwf Hword s1 a t1 Hs1 Hc1) as (s2 & E2 & Hs2 & Hnone & Hrows & Hg & Ht2 & Hp2).
  exists (mk_dbs (conn s2) (gdb s2) (delete a (tabs s2)) (tabs_brk s2)). split.
  - rewrite Hsign. change (ch "P" =? ch "P") with true. cbv iota. rewrite (bind_ok _ _ _ _ _ E1), (bind_ok _ _ _ _ _ E2).
    by erewrite bind_ok by apply modify_run.
  - cbn [conn gdb tabs tabs_brk]. split; [apply lookup_delete_eq|]. split; [|split; [|split; [|split; [done|split]]]].
    + intros b Hb. rewrite lookup_delete_ne by done. rewrite Ht2 by done. by rewrite (cl_tabs _ _ _ C1).
    + intros suffix Hx. apply Hp2, free_slots with (t := t1) ; try done; apply Hs1.
    + intros m Hm. apply Hp2, (cl_free _ _ _ C1). exact Hm.
    + rewrite Hrows. exact (cl_rows _ _ _ C1).
    + rewrite Hg, (cl_gdb _ _ _ C1). done.
Qed.

(** Closing an open table answers 00 and ends its session: the statements it prepared are
    forgotten by the server and their names free again, its cursor is closed, the table is
    freed and leaves the list of weak tables; the rows and the other tables stay. *)
Theorem close_session (s : dbs D) fcd a t : close_call fcd a → sess_ok s a t → cursor_ok ts (conn s) t → name ≠ bs "pqfh" →
  ∃ s', op_close fcd s = (s', inr (set_status ST_OK (set_open_mode ST_OPEN_CLOSED fcd), false)) ∧
    tabs s' !! a = None ∧ (∀ b, b ≠ a → tabs s' !! b = tabs s !! b) ∧
    (∀ suffix, suffix ∈ bs "ins" :: bs "upd" :: bs "del" :: ((λ k, fmt_d (Z.of_nat k)) <$> seq 0 (length keys)) →
      pg_free (conn s') (sname suffix)) ∧
    (∀ m, pg_free (conn s) m → pg_free (conn s') m) ∧ pg_cursor (conn s') cname = None ∧
    pg_rows (conn s') = pg_rows (conn s) ∧ d_weak (gdb s') = drop_first name (d_weak (gdb s)).
Proof.
  intros Hc Hs Hcur Hn. destruct (op_close_run s fcd a t Hc Hs Hcur Hn) as (s' & E & H1 & H2 & H3 & H4 & H5 & H6 & Hg).
  exists s'. rewrite Hg. by split_and!.
Qed.

End closing.
