(* ===== verification/MetaTyped.v ===== *)
(** The tables of the program are well typed: the columns from the catalog, the cache and
    the key definition blocks describe records, whatever the server answers. *)

From stdpp Require Import prelude gmap strings.
From S2P Require Import Prelude Hoare Fhtypes Fcd Table Kdb Libpq Replicator Meta DbRead DbWrite Sql DbRows DbSession.
Local Open Scope Z_scope.

Definition col_typed (c : column_t) : Prop :=
  (col_tp c = ch "n" ∨ col_tp c = ch "s") ∧ (length (col_name c) ≤ MAX_NAME_LEN)%nat.

(** The columns of a key are columns of the table. *)
Definition key_typed (n : nat) (key : key_t) : Prop :=
  (length (k_columns key) ≤ MAX_COMPS)%nat ∧ Forall (λ i, (i < n)%nat) (k_columns key).

Record cols_typed (cols : list column_t) : Prop := {
  ct_layout : layout_ok cols 0;
  ct_cols : Forall col_typed cols;
}.

Record typed (t : table_t) : Prop := {
  ty_cols : cols_typed (t_columns t);
  ty_keys : Forall (key_typed (length (t_columns t))) (t_keys t);
}.

(** ** The key definition block *)

Lemma find_col_lt cols o i : find_col cols o = Some i → (i < length cols)%nat.
Proof.
  revert i. induction cols as [|c cols IH]; intros i; [done|]. cbn [find_col]. destruct (_ =? o); [intros [= <-]; simpl; lia|].
  destruct (find_col cols o); [|done]. intros [= <-]. simpl. specialize (IH _ eq_refl). lia.
Qed.

Lemma span_lt e cols : ∀ i len ixs, span e cols i len = Some ixs → Forall (λ j, (j < i + length cols)%nat) ixs.
Proof.
  induction cols as [|c cols IH]; intros i len ixs; cbn [span]; destruct (0 <? len); try (intros [= <-]; constructor).
  - destruct e; [|done]. intros [= <-]. constructor.
  - destruct (span _ _ _ _) as [rest|] eqn:E; [|done]. intros [= <-]. simpl. constructor; [lia|].
    eapply Forall_impl; [by eapply IH|]. simpl. lia.
Qed.

Lemma simple_key_lt cols comp ixs n : simple_key cols comp = Some (ixs, n) → Forall (λ j, (j < length cols)%nat) ixs.
Proof.
  destruct comp as [o len]. cbn [simple_key]. destruct (find_col cols o) as [i|] eqn:Ei; [|intros [= <- _]; constructor].
  destruct (span _ _ _ _) as [l|] eqn:E; [|done]. intros [= <- _]. apply find_col_lt in Ei. apply span_lt in E.
  eapply Forall_impl; [exact E|]. simpl. intros j. rewrite length_drop. lia.
Qed.

Lemma split_comp_lt cols comp ixs : split_comp cols comp = Some ixs → Forall (λ j, (j < length cols)%nat) ixs.
Proof.
  destruct comp as [o len]. cbn [split_comp]. destruct (find_col cols o) as [i|] eqn:Ei; [|intros [= <-]; constructor].
  apply find_col_lt in Ei. destruct (cols !! i) as [c|]; [|done]. cbn [mbind option_bind].
  destruct (span _ _ _ _) as [l|] eqn:E; [|done]. intros [= <-]. apply span_lt in E. constructor; [done|].
  eapply Forall_impl; [exact E|]. simpl. intros j. rewrite length_drop. lia.
Qed.

Lemma mark_pk_typed p cols : Forall col_typed cols → Forall col_typed (mark_pk p cols).
Proof.
  intros H. apply Forall_forall. intros c (i & Hi)%list_elem_of_lookup. unfold mark_pk in Hi. rewrite list_lookup_imap in Hi.
  destruct (cols !! i) as [c0|] eqn:E; [|done]. apply (inj Some) in Hi. rewrite Forall_forall in H.
  apply list_elem_of_lookup_2, H in E. subst c. by destruct (p i).
Qed.

Lemma getkey_typed cols k comps cols' key : cols_typed cols → getkey cols k comps = Some (cols', key) →
  cols_typed cols' ∧ key_typed (length cols) key.
Proof.
  intros [Hl Hc] H. pose proof (geo_getkey _ _ _ _ _ H) as Hg. revert H. unfold getkey.
  assert (∀ p ixs n, (length ixs ≤ MAX_COMPS)%nat → Forall (λ j, (j < length cols)%nat) ixs →
    Some (if (k =? 0)%nat then mark_pk p cols else cols, mk_key k (foldr Z.add 0 (snd <$> comps)) n ixs) = Some (cols', key) →
    cols_typed cols' ∧ key_typed (length cols) key) as Hgen.
  { intros p ixs n Hn Hix [= <- <-]. split; [split|by split].
    - by eapply geo_layout; [|exact Hl].
    - destruct (k =? 0)%nat; [by apply mark_pk_typed|done]. }
  assert (∀ ixss, mapM (split_comp cols) comps = Some ixss → Forall (λ j, (j < length cols)%nat) (mjoin ixss)) as Hjoin.
  { intros ixss Hm%mapM_Some. clear Hgen. induction Hm as [|x y l l' Hx _ IH]; [constructor|]. change (mjoin (y :: l')) with (y ++ mjoin l').
    apply Forall_app. split; [by eapply split_comp_lt|exact IH]. }
  destruct comps as [|comp [|comp' comps]].
  - cbn. by apply (Hgen (λ i, bool_decide (i ∈ [])) []); [simpl; lia|].
  - destruct (simple_key cols comp) as [[ixs seen]|] eqn:E; cbn [mbind option_bind]; [|done].
    destruct (_ <=? _)%nat eqn:En; [|done]. apply Hgen; [by apply Nat.leb_le|by eapply simple_key_lt].
  - destruct (mapM _ _) as [ixss|] eqn:E; cbn [mbind option_bind]; [|done].
    destruct (_ <=? _)%nat eqn:En; [|done]. apply Hgen; [by apply Nat.leb_le|by apply Hjoin].
Qed.

Lemma getkeys_loop_typed kdb : ∀ n k cols cols' keys, cols_typed cols → getkeys_loop kdb cols k n = Some (cols', keys) →
  cols_typed cols' ∧ length cols' = length cols ∧ Forall (key_typed (length cols)) keys.
Proof.
  induction n as [|n IH]; intros k cols cols' keys Hc; cbn [getkeys_loop]; [intros [= <- <-]; by split_and!|].
  destruct (key_comps kdb k) as [comps|]; cbn [mbind option_bind]; [|done].
  destruct (getkey cols k comps) as [[cols1 key]|] eqn:E; cbn [mbind option_bind fst snd]; [|done].
  destruct (getkeys_loop kdb cols1 (S k) n) as [[cols2 keys2]|] eqn:E2; cbn [mbind option_bind fst snd]; [|done].
  intros [= <- <-]. destruct (getkey_typed _ _ _ _ _ Hc E) as [Hc1 Hk]. destruct (IH _ _ _ _ Hc1 E2) as (Hc2 & Hl & Hks).
  pose proof (geo_length _ _ (geo_getkey _ _ _ _ _ E)) as Hl1. split; [done|]. split; [congruence|].
  constructor; [done|]. by rewrite <-Hl1.
Qed.

Lemma getkeys_typed kdb cols cols' keys : cols_typed cols → getkeys kdb cols = Some (cols', keys) →
  cols_typed cols' ∧ Forall (key_typed (length cols')) keys.
Proof.
  intros Hc. unfold getkeys. destruct (short_at kdb 6) as [n|]; cbn [mbind option_bind]; [|done]. intros H.
  destruct (getkeys_loop_typed _ _ _ _ _ _ Hc H) as (H1 & H2 & H3). by rewrite H2.
Qed.

(** ** The operations *)

Section typed.
Context {D : Type} `{!Libpq D} {W : Type} `{!Extfh W} (env : env_t) (fuel : nat).
Notation ms := (mst D W).

(** Every table of the program, and every entry of the cache. *)
Record db_typed (s : dbs D) : Prop := {
  dt_tabs : map_Forall (λ _, typed) (tabs s);
  dt_cache : Forall typed (d_cache (gdb s));
}.
Definition ms_typed (s : ms) : Prop := db_typed (m_db s).

Lemma keeps_pq f : keeps db_typed (pq f) (λ _, True).
Proof. intros s s' r [H1 H2]. unfold pq. destruct (f (conn s)) as [d r']. intros [= <- <-]. by split. Qed.

Lemma keeps_getd {A} (f : globals_db → A) : keeps db_typed (getd f) (λ _, True).
Proof. by apply keeps_gets. Qed.

Lemma keeps_setd f : (∀ g, Forall typed (d_cache g) → Forall typed (d_cache (f g))) → keeps db_typed (setd f) (λ _, True).
Proof. intros H. apply keeps_modify. intros s [H1 H2]. split; [done|]. by apply H. Qed.

Lemma keeps_fit n t : keeps db_typed (fit n t) (λ _, True).
Proof. unfold fit. apply keeps_if; intros _; [by apply keeps_ret|apply keeps_stop]. Qed.

Lemma keeps_tab_at a : keeps db_typed (tab_at a) typed.
Proof.
  unfold tab_at. intros s s' t Hs (s1 & m & [= <- <-] & E)%bind_inv. destruct (tabs s !! a) as [t0|] eqn:Ea; [|done].
  injection E as <- <-. split; [done|]. by apply (dt_tabs _ Hs a).
Qed.

Lemma keeps_on_tab a f : (∀ t, typed t → typed (f t)) → keeps db_typed (on_tab a f) (λ _, True).
Proof.
  intros H. eapply keeps_bind; [apply keeps_tab_at|]. intros t Ht. apply keeps_modify. intros s [H1 H2]. split; [|done].
  apply map_Forall_insert_2; [by apply H|done].
Qed.

Lemma keeps_on_db {A} (m : M (dbs D) A) R : keeps db_typed m R → keeps ms_typed (on_db (W:=W) m) R.
Proof. intros H s s' a Hs. unfold on_db. destruct (m (m_db s)) as [x r] eqn:E. intros [= <- ->]. by apply (H _ _ _ Hs E). Qed.

Lemma keeps_on_files {A} (m : M W A) : keeps ms_typed (on_files (D:=D) m) (λ _, True).
Proof. intros s s' a Hs. unfold on_files. destruct (m (m_isam s)) as [w r]. by intros [= <- ->]. Qed.

Lemma keeps_clones_of name : keeps ms_typed (clones_of (D:=D) env fuel name) (λ _, True).
Proof. intros s s' a Hs. unfold clones_of. destruct (get_clones _ _ _ _) as [x r]. by intros [= <- ->]. Qed.

(** The steps that touch neither the tables nor the cache. *)
#[local] Hint Resolve keeps_pq keeps_getd keeps_fit keeps_on_files keeps_guard keeps_stop : keeps.

Ltac keep :=
  repeat first
    [ solve [auto with keeps nocore] | eassumption | solve [apply (keeps_ret _ _ (λ _, True)); done] | by apply keeps_ret | apply keeps_if; intros _ | solve [apply keeps_modify; let H := fresh in intros ? H; exact H] | solve [apply (keeps_gets _ _ (λ _, True)); done]
    | solve [apply (keeps_option _ _ (λ _, True)); done] | apply keeps_on_db | by apply keeps_setd | eapply keeps_bind; [|intros ? _] | progress cbv beta zeta
    | match goal with |- keeps _ (match ?x with _ => _ end) _ => destruct x end ].

Lemma keeps_exec_logged q : keeps db_typed (exec_logged q) (λ _, True).
Proof. unfold exec_logged. keep. Qed.

Lemma keeps_get_schema table : keeps db_typed (get_schema env table) (λ _, True).
Proof. unfold get_schema. keep. Qed.

Lemma keeps_commit : keeps db_typed commit (λ _, True).
Proof. unfold commit. keep. Qed.

Lemma keeps_dict_seek k f : keeps ms_typed (dict_seek k f) (λ _, True).
Proof. unfold dict_seek. keep. Qed.

Lemma keeps_dict_open f n k : keeps ms_typed (dict_open f n k) (λ _, True).
Proof. unfold dict_open. keep. Qed.

#[local] Hint Resolve keeps_exec_logged keeps_get_schema keeps_commit keeps_dict_seek keeps_dict_open : keeps.

Lemma keeps_convertida name : keeps ms_typed (tabela_convertida env name) (λ _, True).
Proof. unfold tabela_convertida, set_fcd01. keep. Qed.

Lemma keeps_nome name : keeps ms_typed (nome_dicionario env name) (λ _, True).
Proof. unfold nome_dicionario, set_fcd02. keep. Qed.
#[local] Hint Resolve keeps_convertida keeps_nome : keeps.

(** The columns from the catalog: those past the end of the record are left out. *)
Lemma keeps_read_columns reclen : ∀ n offset, keeps db_typed (read_columns n reclen offset)
  (λ cs, layout_ok cs offset ∧ Forall col_typed cs ∧ (reclen <= Z.of_nat offset → cs = [])).
Proof.
  induction n as [|n IH]; intros offset; cbn [read_columns]; [apply keeps_stop|].
  eapply keeps_bind; [apply keeps_pq|]. intros res _. destruct (first_tuple res) as [row|]; [|by apply keeps_ret].
  eapply keeps_bind; [apply keeps_guard|]. intros [] Hg. cbv beta in Hg. destruct (catalog_column row offset) as [c|] eqn:Ec; [|apply keeps_stop].
  eapply keeps_bind; [apply IH|]. intros rest (Hl & Hc & He). apply keeps_ret.
  rewrite !andb_true_iff, !Nat.leb_le in Hg. destruct Hg as [[[[Hn _] _] _] _].
  assert (col_offset c = offset ∧ col_typed c) as [Ho Ht].
  { unfold catalog_column in Ec. destruct (bool_decide _); [injection Ec as <-; split; [done|]; split; [by left|done]|].
    destruct (_ || _); [|done]. injection Ec as <-. split; [done|]. split; [by right|done]. }
  destruct (Z.ltb_spec (Z.of_nat offset) reclen).
  - split; [split; [done|exact Hl]|]. split; [by constructor|]. lia.
  - rewrite He by lia. by split_and!.
Qed.

Lemma keeps_catalog_columns name reclen : keeps db_typed (catalog_columns fuel name reclen)
  (λ r, ∀ oid cs, r = Some (oid, cs) → cols_typed cs).
Proof.
  unfold catalog_columns. do 4 (eapply keeps_bind; [solve [keep]|]; intros ? _; cbv beta zeta).
  apply keeps_if; intros _; [by apply keeps_ret|]. eapply keeps_bind; [apply keeps_read_columns|]. intros cs (Hl & Hc & _).
  eapply keeps_bind; [solve [keep]|]. intros _ _. apply keeps_ret. intros oid cs' [= _ <-]. by split.
Qed.

Definition fresh_table (t : table_t) : Prop := t_columns t = [] ∧ t_keys t = [].

Lemma fresh_typed t : fresh_table t → typed t.
Proof. intros [Hc Hk]. split; rewrite Hc; [by split; constructor|]. rewrite Hk. constructor. Qed.

Lemma cache_entry_typed t : typed t → typed (cache_entry t).
Proof. intros H. split; apply H. Qed.

Lemma keeps_put_cache t : typed t → keeps db_typed (put_cache t) (λ _, True).
Proof.
  intros Ht. unfold put_cache. eapply keeps_bind; [apply keeps_getd|]. intros u _. apply keeps_if; intros _; [|by apply keeps_ret].
  apply keeps_setd. intros g Hg. cbn. apply Forall_app. split; [done|]. constructor; [by apply cache_entry_typed|constructor].
Qed.

Lemma cache_get_typed l n t : Forall typed l → cache_get l n = Some t → typed t.
Proof.
  unfold cache_get. intros Hl Hh%head_Some_elem_of. apply list_elem_of_filter in Hh as [_ Hin]. rewrite list_elem_of_In, <-in_rev, <-list_elem_of_In in Hin.
  rewrite Forall_forall in Hl. auto.
Qed.

Definition info_ok (r : table_t * fcd_t * bool) : Prop := typed (fst (fst r)) ∧ (snd r = false → fresh_table (fst (fst r))).

Lemma fresh_info t fcd : fresh_table t → info_ok (t, fcd, false).
Proof. intros H. split; [by apply fresh_typed|done]. Qed.

(** A table is looked up: from the cache, or from the dictionary and the catalog. *)
Lemma keeps_table_info t fcd : fresh_table t → keeps ms_typed (table_info env fuel t fcd) info_ok.
Proof.
  intros [Hc Hk]. unfold table_info. eapply keeps_bind; [apply keeps_on_db, keeps_getd|]. intros u _.
  eapply (keeps_bind _ _ _ (Forall typed)); [apply keeps_on_db, keeps_gets; by intros s []|]. intros cache Hcache. cbv zeta.
  destruct (if u : bool then _ else _) as [tc|] eqn:Etc.
  - assert (typed tc) as [Htc Htk] by (destruct u; [by eapply cache_get_typed|done]).
    apply keeps_if; intros _; [apply keeps_ret, fresh_info; by split|].
    destruct (t_columns tc) as [|c cs] eqn:Ecs; [apply keeps_ret, fresh_info; by split|].
    eapply keeps_bind; [apply keeps_clones_of|]. intros clones _. apply keeps_ret. split; [|done]. cbn. split; cbn; [exact Htc|by rewrite Hk].
  - eapply keeps_bind; [apply keeps_nome|]. intros d _. eapply keeps_bind; [apply keeps_convertida|]. intros c _.
    apply keeps_if; intros _; [apply keeps_ret, fresh_info; by split|].
    eapply keeps_bind; [apply keeps_on_db, keeps_catalog_columns|]. intros [[oid cs]|] Hcs; [|apply keeps_ret, fresh_info; by split].
    specialize (Hcs _ _ eq_refl). destruct cs as [|c0 cs].
    { eapply keeps_bind; [apply keeps_on_db, keeps_put_cache, fresh_typed; by split|]. intros _ _. apply keeps_ret, fresh_info. by split. }
    eapply keeps_bind; [apply keeps_option, (λ a H, H)|]. intros [cols' keys'] E. destruct (getkeys_typed _ _ _ _ Hcs E) as [Hcols Hkeys].
    eapply keeps_bind; [apply keeps_on_db, keeps_get_schema|]. intros schema _.
    eapply keeps_bind; [apply keeps_clones_of|]. intros clones _.
    assert (∀ tt, t_columns tt = cols' → t_keys tt = keys' → typed tt) as Hall by (intros tt <- <-; by split).
    eapply keeps_bind; [apply keeps_on_db, keeps_put_cache, Hall; [done|cbn; by rewrite Hk]|]. intros _ _.
    apply keeps_ret. split; [|done]. apply Hall; [done|cbn; by rewrite Hk].
Qed.

Lemma new_table_fresh name ts n : fresh_table (new_table name ts n).
Proof. done. Qed.

Lemma drop_name_typed n l : Forall typed l → Forall typed (drop_name n l).
Proof. induction 1 as [|t l Ht Hl IH]; cbn [drop_name]; [constructor|]. destruct (with_name n t); [done|by constructor]. Qed.

Lemma Forall_rev' (l : list table_t) : Forall typed l → Forall typed (rev l).
Proof. rewrite !Forall_forall. intros H t Ht. apply H. rewrite list_elem_of_In, in_rev, <-list_elem_of_In. done. Qed.

Lemma keeps_create_indexes dict name : ∀ n, keeps db_typed (create_indexes fuel n dict name) (λ _, True).
Proof.
  assert (∀ n def, keeps db_typed (rename_index n dict name def) (λ _, True)) as Hr.
  { induction n as [|n IH]; intros def; cbn [rename_index]; [apply keeps_stop|]. destruct (strstr def dict); [|by apply keeps_ret].
    eapply keeps_bind; [apply keeps_fit|]. intros aux _. apply IH. }
  assert (∀ i def, keeps db_typed (rename_indexname i name def) (λ _, True)) as Hi by (intros i def; unfold rename_indexname; keep).
  induction n as [|n IH]; cbn [create_indexes]; [apply keeps_stop|]. eapply keeps_bind; [apply keeps_pq|]. intros res _.
  destruct (first_tuple res); [|by apply keeps_ret]. do 2 (eapply keeps_bind; [apply keeps_fit|]; intros ? _).
  eapply keeps_bind; [apply Hi|]. intros ? _. eapply keeps_bind; [apply Hr|]. intros ? _. keep.
Qed.

Lemma keeps_create_table t fcd : keeps db_typed (create_table env fuel t fcd) (λ _, True).
Proof.
  unfold create_table. eapply keeps_bind.
  { apply keeps_setd. intros g Hg. cbn. unfold cache_remove. by apply Forall_rev', drop_name_typed, Forall_rev'. }
  intros _ _. keep. apply keeps_create_indexes.
Qed.

Lemma keeps_truncate name : keeps db_typed (truncate_table env name) (λ _, True).
Proof. unfold truncate_table. keep. Qed.

Lemma keeps_alloc t : typed t → keeps db_typed (alloc_tab t) (λ _, True).
Proof. intros Ht s s' a [H1 H2] [= <- <-]. split; [|done]. split; [by apply map_Forall_insert_2|done]. Qed.

Lemma keeps_free a : keeps db_typed (free_tab a) (λ _, True).
Proof. apply keeps_modify. intros s [H1 H2]. split; [by apply map_Forall_delete|done]. Qed.

(** A table that only differs in the places of its parameters is as well typed. *)
Lemma same_cols_typed cols cols' : same_cols cols cols' → cols_typed cols → cols_typed cols'.
Proof.
  intros H [Hl Hc]. split.
  - eapply geo_layout; [|exact Hl]. assert (∀ l, geo l = geo (set_p 0 <$> l)) as E by (intros l; unfold geo; by rewrite <-list_fmap_compose).
    by rewrite (E cols), (E cols'), H.
  - assert (∀ l, Forall col_typed l ↔ Forall col_typed (set_p 0 <$> l)) as E by (intros l; by rewrite Forall_fmap).
    unfold same_cols in H. by rewrite E, <-H, <-E.
Qed.

Lemma set_columns_typed cols t : same_cols (t_columns t) cols → typed t → typed (set_t_columns cols t).
Proof.
  intros H [Hc Hk]. split; cbn; [by eapply same_cols_typed|].
  assert (length cols = length (t_columns t)) as -> by (unfold same_cols in H; apply (f_equal length) in H; by rewrite !length_fmap in H).
  exact Hk.
Qed.

Lemma adiciona_same ncols pw : ∀ rest cols c seq wh prms r, adiciona_comp_prepared cols ncols pw c seq rest wh prms = Some r →
  same_cols cols (snd r).
Proof.
  induction rest as [|i rest IH]; intros cols c seq wh prms r; cbn [adiciona_comp_prepared]; [done|].
  destruct (cols !! i) as [col|] eqn:Ei; cbn [mbind option_bind]; [|done]. cbv zeta.
  assert (same_cols cols (<[i:=set_p seq col]> cols)) as Hs by by apply same_cols_insert.
  destruct (_ =? _).
  - destruct (fit_aux _); cbn [mbind option_bind]; [|done]. by intros [= <-].
  - destruct (fit_aux _); cbn [mbind option_bind]; [|done]. intros H. unfold same_cols in *. rewrite Hs. by eapply IH.
Qed.

Lemma getwhere_prepared_same cols keys pw keyid ini r : getwhere_prepared cols keys pw keyid ini = Some r → same_cols cols (snd r).
Proof. unfold getwhere_prepared. destruct (keys !! keyid); [apply adiciona_same|by intros [= <-]]. Qed.

(** What is done with a table just read. *)
Lemma keeps_with_tab {A} a (k : table_t → M (dbs D) A) R :
  (∀ t, typed t → hoare (λ s, db_typed s ∧ tabs s !! a = Some t) (k t) (λ x s, db_typed s ∧ R x)) → keeps db_typed (t ← tab_at a; k t) R.
Proof.
  intros H s s' x Hs (s1 & t & E1 & E2)%bind_inv. unfold tab_at in E1. apply bind_inv in E1 as (s2 & m & [= <- <-] & E1).
  destruct (tabs s !! a) as [t'|] eqn:Ea; [|done]. injection E1 as <- <-. eapply H; [|by split|exact E2]. by apply (dt_tabs _ Hs a).
Qed.

Lemma hoare_set_table a t f : typed (f t) → hoare (λ s, db_typed s ∧ tabs s !! a = Some t) (on_tab a f) (λ _ s, db_typed s).
Proof.
  intros Hf s s' [] [[H1 H2] Ha]. unfold on_tab, tab_at. intros (s1 & t1 & E1 & E2)%bind_inv. apply bind_inv in E1 as (s2 & m & [= <- <-] & E1).
  rewrite Ha in E1. injection E1 as <- <-. injection E2 as <-. split; [by apply map_Forall_insert_2|done].
Qed.

(** The preparation of a statement: the columns get the places of their parameters. *)
Lemma hoare_prepare {A} a t cols keyid ini (upd : list column_t → list column_t → table_t → table_t)
    (k : bytes → list column_t → M (dbs D) A) R : typed t → same_cols (t_columns t) cols →
  (∀ p c t, t_columns (upd p c t) = c ∧ t_keys (upd p c t) = t_keys t) → (∀ wh prms, keeps db_typed (k wh prms) R) →
  hoare (λ s, db_typed s ∧ tabs s !! a = Some t)
    (pw ← getd d_partial_weak;
     r ← of_option (getwhere_prepared cols (t_keys t) pw keyid ini);
     let '(wh, prms, cs) := r in on_tab a (upd prms cs);; k wh prms) (λ x s, db_typed s ∧ R x).
Proof.
  intros Ht Hcols Hupd Hk.
  eapply hoare_bind; [apply hoare_gets|]. intros pw. eapply hoare_bind; [apply hoare_option|]. intros [[wh prms] cs]. cbv beta iota.
  intros s s' x [Hs E]. revert s s' x Hs. apply getwhere_prepared_same in E. cbn in E.
  change (hoare (λ s, db_typed s ∧ tabs s !! a = Some t) (on_tab a (upd prms cs);; k wh prms) (λ x s, db_typed s ∧ R x)).
  eapply hoare_bind; [apply hoare_set_table|intros []; apply Hk].
  destruct (Hupd prms cs t) as [E1 E2]. assert (same_cols (t_columns t) cs) as H by (unfold same_cols in *; congruence).
  destruct (set_columns_typed cs t H Ht) as [H1 H2]. split; rewrite E1; [done|]. by rewrite E2.
Qed.

Lemma typed_same t t' : t_columns t' = t_columns t → t_keys t' = t_keys t → typed t → typed t'.
Proof. intros Hc Hk [H1 H2]. split; by rewrite ?Hk, Hc. Qed.

Lemma keeps_set_tab a f : (∀ t, t_columns (f t) = t_columns t ∧ t_keys (f t) = t_keys t) → keeps db_typed (on_tab a f) (λ _, True).
Proof. intros H. apply keeps_on_tab. intros t Ht. destruct (H t). by eapply typed_same. Qed.

Lemma keeps_tab_any a : keeps db_typed (tab_at a) (λ _, True).
Proof. eapply keeps_weaken; [apply keeps_tab_at|done]. Qed.

#[local] Hint Resolve keeps_tab_any keeps_truncate keeps_create_table keeps_free : keeps.
#[local] Hint Extern 2 (keeps _ (on_tab _ _) _) => (apply keeps_set_tab; intros ?; split; reflexivity) : keeps.

Lemma keeps_close_cursor a : keeps db_typed (close_cursor a) (λ _, True).
Proof. unfold close_cursor. keep. Qed.

Lemma keeps_deallocate a : keeps db_typed (deallocate a) (λ _, True).
Proof.
  assert (∀ n k, keeps db_typed (deallocate_reads a n k) (λ _, True)) as Hr.
  { induction n as [|n IH]; intros k; cbn [deallocate_reads]; [by apply keeps_ret|]. keep. }
  unfold deallocate. eapply keeps_bind; [apply Hr|]. intros _ _. keep.
Qed.

Lemma keeps_is_weak name : keeps db_typed (is_weak name) (λ _, True).
Proof. unfold is_weak. keep. Qed.

#[local] Hint Resolve keeps_close_cursor keeps_deallocate keeps_is_weak : keeps.

Lemma keeps_valida b : keeps db_typed (valida_comando b) (λ _, True).
Proof. unfold valida_comando. keep. Qed.

Lemma keeps_params param t prms rec : keeps db_typed (set_params param t prms rec) (λ _, True).
Proof.
  induction prms as [|c prms IH]; cbn [set_params]; [by apply keeps_ret|].
  assert (∀ b, keeps db_typed (validate t c b) (λ _, True)) as Hv by (intros b; unfold validate; keep). keep.
Qed.

#[local] Hint Resolve keeps_valida keeps_params : keeps.

Lemma keeps_log_key t k rec : keeps db_typed (log_key t k rec) (λ _, True).
Proof. unfold log_key. keep. Qed.

Lemma keeps_read_prepare a k : keeps db_typed (read_prepare a k) (λ _, True).
Proof.
  unfold read_prepare. apply keeps_with_tab. intros t Ht. eapply hoare_bind; [apply hoare_option|]. intros p.
  eapply hoare_weaken; [|intros s [H _]; exact H]. destruct p; [by apply hoare_ret; intros s []|].
  by apply hoare_prepare with (cols := t_columns t) (upd := λ prms cols t, set_t_columns cols (set_t_prms_random (<[k:=prms]> (t_prms_random t)) t));
    [done|done|done|]; intros wh prms; keep.
Qed.

#[local] Hint Resolve keeps_log_key keeps_read_prepare : keeps.

Lemma keeps_read_random b fcd : keeps db_typed (op_read_random b fcd) (λ _, True).
Proof. unfold op_read_random. keep. Qed.

Lemma keeps_next_prev fcd dir : keeps db_typed (op_next_prev fcd dir) (λ _, True).
Proof.
  assert (∀ a, keeps db_typed (fetch a dir fcd) (λ _, True)) as Hf.
  { intros a. unfold fetch. destruct (dir =? ch "n"); keep. }
  unfold op_next_prev. keep.
Qed.

#[local] Hint Resolve keeps_read_random keeps_next_prev : keeps.

Lemma keeps_start b fcd op : keeps db_typed (op_start b fcd op) (λ _, True).
Proof.
  assert (∀ a f, keeps db_typed (declare_cursor a f op) (λ _, True)) as Hd by (intros a f; unfold declare_cursor; keep).
  assert (∀ f, keeps db_typed (weak_probe b f) (λ _, True)) as Hw by (intros f; unfold weak_probe; keep).
  assert (∀ a f, keeps db_typed (start_first a f op) (λ _, True)) as Hs.
  { intros a f. unfold start_first. destruct (negb (op_first op =? ch "<")); keep. }
  unfold op_start. keep.
Qed.

Context `{!DbCalls D} (Hreplica : ∀ c t vs, keeps db_typed (replica c t vs) (λ _, True))
  (Hcommand : ∀ f, keeps db_typed (command_call f) (λ _, True)).

Lemma keeps_run_update c a suffix vs e fcd : keeps db_typed (run_update c a suffix vs e fcd) (λ _, True).
Proof. unfold run_update. keep. Qed.

Lemma keeps_number a : keeps db_typed (on_tab a (λ t, set_t_columns (number_cols (t_columns t)) t)) (λ _, True).
Proof. apply keeps_on_tab. intros t. apply set_columns_typed. by apply number_cols_same. Qed.

#[local] Hint Resolve keeps_run_update keeps_number : keeps.

Lemma keeps_write b fcd : keeps db_typed (op_write b fcd) (λ _, True).
Proof.
  assert (∀ a, keeps db_typed (write_prepare a) (λ _, True)) as Hp by (intros a; unfold write_prepare; keep).
  unfold op_write. keep.
Qed.

Lemma keeps_rewrite b fcd : keeps db_typed (op_rewrite b fcd) (λ _, True).
Proof.
  assert (∀ a, keeps db_typed (rewrite_prepare a) (λ _, True)) as Hp.
  { intros a. unfold rewrite_prepare. apply keeps_with_tab. intros t Ht. destruct (t_upd_prepared t); [by apply hoare_ret; intros s []|].
    apply (hoare_prepare a t (number_sets (t_columns t) 0) 0 _ (λ prms cols t, set_t_columns cols (set_t_prms_rewrite prms t))); try done;
      [by apply number_sets_same|]. intros wh prms. keep. }
  assert (∀ t r, keeps db_typed (rewrite_values b t r) (λ _, True)) as Hv by (intros t r; unfold rewrite_values; keep).
  unfold op_rewrite. keep.
Qed.

Lemma keeps_delete b fcd : keeps db_typed (op_delete b fcd) (λ _, True).
Proof.
  assert (∀ a, keeps db_typed (delete_prepare a) (λ _, True)) as Hp.
  { intros a. unfold delete_prepare. apply keeps_with_tab. intros t Ht. destruct (t_del_prepared t); [by apply hoare_ret; intros s []|].
    by apply (hoare_prepare a t (t_columns t) 0 _ (λ prms cols t, set_t_columns cols (set_t_prms_delete prms t))); try done; intros wh prms; keep. }
  assert (∀ t r, keeps db_typed (delete_values b t r) (λ _, True)) as Hv by (intros t r; unfold delete_values; keep).
  unfold op_delete. keep.
Qed.

Lemma keeps_close fcd : keeps db_typed (op_close fcd) (λ _, True).
Proof. unfold op_close. keep. Qed.

Lemma keeps_basename fcd : keeps ms_typed (file_basename fcd) (λ _, True).
Proof. unfold file_basename. keep. Qed.

#[local] Hint Resolve keeps_basename : keeps.

Lemma keeps_delete_file ts fcd : keeps ms_typed (op_delete_file env fuel ts fcd) (λ _, True).
Proof.
  unfold op_delete_file. eapply keeps_bind; [apply keeps_basename|]. intros name _. cbv zeta. apply keeps_if; intros _; [by apply keeps_ret|].
  eapply keeps_bind; [apply keeps_guard|]. intros _ _. eapply keeps_bind; [apply keeps_table_info, new_table_fresh|].
  intros [[t f] found] _. keep.
Qed.

Lemma keeps_open ts fcd op : keeps ms_typed (op_open env fuel ts fcd op) (λ _, True).
Proof.
  unfold op_open. eapply keeps_bind; [apply keeps_basename|]. intros name _. apply keeps_if; intros _; [by apply keeps_ret|].
  eapply keeps_bind; [apply keeps_guard|]. intros _ _. eapply keeps_bind; [apply keeps_on_db, keeps_getd|]. intros partial _. cbv zeta.
  eapply keeps_bind; [apply keeps_on_db, keeps_alloc, fresh_typed, new_table_fresh|]. intros a _.
  eapply keeps_bind; [by apply keeps_on_db, keeps_setd|]. intros _ _. apply keeps_if; intros _; [by apply keeps_ret|].
  eapply keeps_bind; [apply keeps_table_info, new_table_fresh|]. intros [[t f] found] [Ht Hf]. cbn [fst snd] in *.
  eapply keeps_bind; [by apply keeps_on_db, keeps_on_tab|]. intros _ _. eapply (keeps_bind _ _ _ (λ _, True)).
  - apply keeps_if; [intros _; keep|intros ->]. apply keeps_if; intros _; [|by apply keeps_ret].
    eapply keeps_bind; [apply keeps_on_db, keeps_create_table|]. intros f' _. eapply keeps_bind; [apply keeps_table_info; by apply Hf|].
    intros r [Hr _]. eapply keeps_bind; [by apply keeps_on_db, keeps_on_tab|]. intros _ _. by apply keeps_ret.
  - intros [t' f'] _. keep.
Qed.

(** A call of the program that returns. *)
Inductive file_call : ms → ms → Prop :=
  | fc_open ts fcd op s s' r : op_open env fuel ts fcd op s = (s', inr r) → file_call s s'
  | fc_close fcd s s' r : on_db (op_close fcd) s = (s', inr r) → file_call s s'
  | fc_delete_file ts fcd s s' r : op_delete_file env fuel ts fcd s = (s', inr r) → file_call s s'
  | fc_read_random b fcd s s' r : on_db (op_read_random b fcd) s = (s', inr r) → file_call s s'
  | fc_start b fcd op s s' r : on_db (op_start b fcd op) s = (s', inr r) → file_call s s'
  | fc_next_prev fcd dir s s' r : on_db (op_next_prev fcd dir) s = (s', inr r) → file_call s s'
  | fc_write b fcd s s' r : on_db (op_write b fcd) s = (s', inr r) → file_call s s'
  | fc_rewrite b fcd s s' r : on_db (op_rewrite b fcd) s = (s', inr r) → file_call s s'
  | fc_delete b fcd s s' r : on_db (op_delete b fcd) s = (s', inr r) → file_call s s'.

Lemma file_call_typed s s' : file_call s s' → ms_typed s → ms_typed s'.
Proof.
  assert (∀ A (m : M ms A) s s' r, keeps ms_typed m (λ _, True) → m s = (s', inr r) → ms_typed s → ms_typed s') as H.
  { intros A m x x' r Hm E Hx. by destruct (Hm _ _ _ Hx E). }
  destruct 1 as [ts fcd op s s' r E|fcd s s' r E|ts fcd s s' r E|b fcd s s' r E|b fcd op s s' r E|fcd dir s s' r E|b fcd s s' r E|b fcd s s' r E|b fcd s s' r E];
    (eapply H; [|exact E]).
  - apply keeps_open.
  - apply keeps_on_db, keeps_close.
  - apply keeps_delete_file.
  - apply keeps_on_db, keeps_read_random.
  - apply keeps_on_db, keeps_start.
  - apply keeps_on_db, keeps_next_prev.
  - apply keeps_on_db, keeps_write.
  - apply keeps_on_db, keeps_rewrite.
  - apply keeps_on_db, keeps_delete.
Qed.

(** A name of more than 50 bytes - the server allows 63 - is copied past its buffer. *)
Lemma long_name_overflows n reclen offset (s s' : dbs D) res row :
  pq (PQexec (bs "fetch next in cursor_columns")) s = (s', inr res) → first_tuple res = Some row →
  (MAX_NAME_LEN < length (default [] (row !! 0%nat)))%nat → read_columns (S n) reclen offset s = (s', inl Fault).
Proof.
  intros E Er Hl. cbn [read_columns]. rewrite (bind_ok _ _ _ _ _ E), Er. erewrite bind_err; [done|].
  by rewrite (proj2 (Nat.leb_gt _ _) Hl).
Qed.


End typed.
