(* ===== verification/Load.v ===== *)
(** The load of a table from its ISAM file (src/load_table.c): the table is emptied and
    every record of the file is written. *)

From stdpp Require Import prelude gmap strings.
From S2P Require Import Prelude Fhtypes Fcd Table Kdb Libpq Meta DbRead DbWrite Cmp.
Local Open Scope Z_scope.

Section load.
Context {D : Type} `{!Libpq D} `{!DbCalls D} {W : Type} `{!Extfh W} (env : env_t) (log_ok : bool).
Notation cs := (cmp_st (dbs D) W).

(** src/load_table.c:63-79 load_table (the loop) : the status of a write is not looked at. *)
Fixpoint load_loop (fuel : nat) (fcd : fcd_t) : M cs fcd_t :=
  match fuel with
  | O => stop NoFuel
  | S fuel' =>
      if byte_at (status fcd) 0 =? ch "0" then
        r ← on_first (op_write log_ok fcd);
        fcd ← on_isam (extfh OP_READ_NEXT (fst r));
        load_loop fuel' fcd
      else mret fcd
  end.

(** src/load_table.c:10-87 load_table : [fcd_open] and [tab_open] are the block and the table
    of the last open.  The copy of the block shares its record area, which the loop leaves
    with the last record read. *)
Definition load_table (fuel : nat) (fcd_open : option fcd_t) (tab_open : Z) : M cs (option fcd_t) :=
  match fcd_open with
  | None => mret None
  | Some fcd0 =>
      t ← on_first (tab_at tab_open);
      on_first (truncate_table env (t_name t));;
      let fcd := set_open_mode 128 fcd0 in
      let reclen := s16 (getshort (rec_len fcd)) in
      guard_fault ((0 <=? reclen) && (reclen <=? Z.of_nat (length (record fcd))));;
      let fcd := clear_record reclen fcd in
      fcd ← on_isam (extfh OP_OPEN_INPUT fcd);
      fcd ← on_isam (extfh OP_START_GT fcd);
      fcd ← on_isam (extfh OP_READ_NEXT fcd);
      fcd ← load_loop fuel fcd;
      fcd ← on_isam (extfh OP_CLOSE fcd);
      mret (Some (set_rec (record fcd) fcd0))
  end.

End load.
