(* ===== verification/LoadSpec.v ===== *)
(** A load leaves in the table the records of the ISAM file. *)

From stdpp Require Import prelude gmap strings sorting.
From S2P Require Import Prelude Fhtypes Fcd Table Kdb Libpq Meta DbRead DbWrite Sql DbRows DbSession DbSpec Cursor CursorSpec CursorScan Merge Cmp CmpIsam CmpSpec CmpTable MetaSpec MetaOpen Load.
Local Open Scope Z_scope.

Section load.
Context {D : Type} `{!Libpq D} `{!DbCalls D} {W : Type} `{!Extfh W, !IsamFile W} (env : env_t) (log_ok : bool).
Context {schema name : bytes} {cols : list column_t} {keys : list key_t}.
Context `{P : !PgTable D schema name cols keys} `{Q : !PgCatalog D P} (ts : bytes).
Context (Hwf : file_wf (schema:=schema) (name:=name) (cols:=cols) (keys:=keys) ts).
Context (comps : list (Z * Z)) (ixss : list (list nat)).
Context (Hlay : key_layout cols comps ixss) (Hpk : pk_ixs keys = mjoin ixss).

Notation pk_cols := (pk_cols (cols:=cols) (keys:=keys)).
Notation call_ok := (call_ok (cols:=cols)).
Notation wf_rec := (wf_rec (cols:=cols) (keys:=keys)).
Notation file_ok := (file_ok (P:=P) ts).
Notation kv := (kval comps).
Notation len := (cols_len cols).
Notation nuls := (replicate len 0).
Notation cs := (cmp_st (dbs D) W).

Context (a : Z) (m : bytes).

(** The file being read: the record area has the first of [l], the end is the status 10. *)
Record load_at (w : W) (f : fcd_t) (l : list bytes) : Prop := {
  la_name : fname f = m;
  la_open : isam_open w m;
  la_call : call_ok f a;
  la_here : match l with [] => status f = ST_EOF | r :: rest => is_ok f = true ∧ record f = r ∧ isam_rest w m = rest end;
}.

Lemma load_next w f l : fname f = m → isam_open w m → call_ok f a → isam_rest w m = l → Forall wf_rec l →
  ∃ w' f', extfh OP_READ_NEXT f w = (w', inr f') ∧ load_at w' f' l.
Proof.
  intros Hn Ho [C1 C2 C3 C4 C5] Hl Hw. rewrite <-Hn in Ho, Hl. destruct (isam_next f w Ho) as (w' & f' & E & Hs & Ho' & Hhere & _ & _).
  { rewrite C4, Hl. eapply Forall_impl; [exact Hw|]. intros r Hr. apply (wr_len _ Hr). }
  rewrite Hl in Hhere. rewrite Hn in Ho', Hhere. exists w', f'. split; [done|]. split; [by rewrite (sf_name _ _ Hs)|done| |].
  - destruct Hs as [S1 S2 S3 S4 S5 S6 S7 S8]. split; [by apply S8|by rewrite S6|by rewrite S7|by rewrite S4|by rewrite S5].
  - by destruct l; [destruct Hhere|].
Qed.

Lemma ok_status f : is_ok f = true → byte_at (status f) 0 = ch "0".
Proof.
  unfold is_ok, memeq, memcmp. intros H. destruct (lex_cmp _ _) eqn:E; try done. apply lex_cmp_eq in E.
  destruct (status f) as [|x l]; [done|]. by injection E as -> _.
Qed.

(** The loop writes the records that are left. *)
Lemma load_loop_run : ∀ I fuel s (w : W) log f done, (length I < fuel)%nat → file_ok s a done → load_at w f I →
  Forall wf_rec I → NoDup (fields pk_cols <$> done ++ I) →
  ∃ s' w' f' recs, load_loop log_ok fuel f (mk_cs s w log) = (mk_cs s' w' log, inr f') ∧
    file_ok s' a recs ∧ recs ≡ₚ done ++ I ∧ isam_open w' (fname f') ∧ length (record f') = len.
Proof.
  induction I as [|r I IH]; intros fuel s w log f done Hf Hfile [Hn Ho Hcall Hhere] Hw Hnd; (destruct fuel as [|fuel]; [simpl in Hf; lia|]);
    cbn [load_loop].
  - rewrite Hhere. cbn. exists s, w, f, done. rewrite app_nil_r, Hn. by split_and!; try apply Hcall.
  - destruct Hhere as (Hok & Hr & Hrest). rewrite (ok_status _ Hok), Z.eqb_refl. apply Forall_cons in Hw as [Hwr Hw].
    rewrite fmap_app, fmap_cons in Hnd. pose proof Hnd as (Hnd1 & Hsep & Hnd2)%NoDup_app.
    destruct (op_write_run log_ok ts Hwf s a done f Hfile Hcall) as (s1 & g & E1 & _ & Hg); [by rewrite Hr|].
    destruct Hg as [(x & Hx & Heq & _)|(_ & -> & Hfile1)].
    { exfalso. apply (Hsep (fields pk_cols x)); [by apply list_elem_of_fmap_2|]. rewrite Heq, Hr. by left. }
    erewrite bind_ok by (apply on_first_run; exact E1). cbn [fst].
    assert (call_ok (answer ST_OK (record f) f) a) as Hcall' by (destruct Hcall; by split).
    destruct (load_next w (answer ST_OK (record f) f) I Hn Ho Hcall' Hrest Hw) as (w2 & f2 & E2 & Hat).
    erewrite bind_ok by (apply on_isam_run; exact E2). rewrite Hr in Hfile1.
    destruct (IH fuel s1 w2 log f2 (r :: done)) as (s' & w' & f' & recs & E & Hfile' & Hp & Hrest'); [simpl in Hf; lia|done|done|done| |].
    { rewrite <-app_comm_cons, fmap_cons, fmap_app. by rewrite (Permutation_middle (fields pk_cols <$> done)). }
    exists s', w', f', recs. split; [done|]. split; [done|]. split; [|done]. rewrite Hp, <-app_comm_cons. apply Permutation_middle.
Qed.

Lemma load_order_nodup I : Forall wf_rec I → in_order kv I → NoDup (fields pk_cols <$> I).
Proof.
  induction 1 as [|r I Hr HI IH]; intros Ho; [constructor|]. apply in_order_cons in Ho as [Hlt Ho].
  rewrite fmap_cons. apply NoDup_cons. split; [|by apply IH]. intros (x & E & Hx)%list_elem_of_fmap. rewrite Forall_forall in Hlt, HI.
  pose proof (Hlt x Hx) as H. apply (kval_eq ts Hwf comps ixss Hlay Hpk) in E; [|done|by apply HI]. rewrite E in H.
  unfold lex_lt in H. by rewrite lex_cmp_refl in H.
Qed.

(** A call of the load: the table is open, its ISAM file has records of its layout. *)
Record load_call (s : dbs D) (w : W) (fcd : fcd_t) (isams : list bytes) : Prop := {
  lc_call : call_ok fcd a;
  lc_key : getshort (key_id fcd) = 0;
  lc_comps : cmp_comps (kdb fcd) = Some comps;
  lc_name : fname fcd = m;
  lc_file : isam_file len comps w m isams;
  lc_recs : Forall wf_rec isams;
  lc_base : basename name = name;
  lc_left c : c ∈ cat_cursors → pg_cursor (conn s) c = None;
  lc_schema : cat_schema env (conn s) name = schema;
  lc_texts : (length schema + length name ≤ 200)%nat ∧ (length schema ≤ 32)%nat;
}.

(** C9: The load of a table from its ISAM file ends and leaves in the table exactly the
    records of the file, whatever it had before; the session stays usable. *)
Theorem load_table_correct fuel s w log fcd isams recs : file_ok s a recs → load_call s w fcd isams → (length isams < fuel)%nat →
  ∃ s' w' f recs', load_table env log_ok fuel (Some fcd) a (mk_cs s w log) = (mk_cs s' w' log, inr (Some f)) ∧
    file_ok s' a recs' ∧ recs' ≡ₚ isams.
Proof.
  intros [[t Hs] Hrows] [Hcall Hkey Hcomps Hname Hfile Hw Hbase Hleft Hschema [Htx1 Htx2]] Hfuel. unfold load_table.
  erewrite bind_ok by (apply on_first_run, tab_at_run; apply Hs). rewrite (to_name _ _ _ (proj1 (proj2 Hs))).
  destruct (truncate_run env s Hbase Hleft Hschema Htx1 Htx2) as (s1 & E1 & G1 & T1 & _ & R1 & P1 & _).
  erewrite bind_ok by (apply on_first_run; exact E1).
  assert (file_ok s1 a []) as Hfile1.
  { split; [|split; [by rewrite R1|split; constructor]]. exists t. destruct Hs as (Ha & Ht & Hpw & He).
    split; [by rewrite T1|]. split; [by eapply tab_ok_same|]. by rewrite G1. }
  cbn [rec_len set_open_mode record]. rewrite (co_reclen _ _ Hcall). destruct (short_len len (fw_len ts Hwf)) as [-> _].
  rewrite (co_rec _ _ Hcall), Z.leb_refl, (proj2 (Z.leb_le _ _)) by lia. cbn [guard_fault andb]. rewrite ret_bind.
  set (f0 := clear_record (Z.of_nat len) (set_open_mode 128 fcd)).
  assert (f0 = set_rec nuls (set_open_mode 128 fcd)) as Ef0 by (apply nuls_clear; apply Hcall).
  assert (fname f0 = m) as N0 by (rewrite Ef0; exact Hname).
  destruct (isam_open_input f0 w isams) as (w1 & f1 & E2 & S1 & (M1 & V1) & O1 & Q1 & _); [done|rewrite N0; apply Hfile|].
  erewrite bind_ok by (apply on_isam_run; exact E2). rewrite N0 in O1.
  assert (fname f1 = m) as N1 by (by rewrite (sf_name _ _ S1)). assert (record f1 = nuls) as Z1 by (by rewrite V1, Ef0).
  pose proof (key_in comps ixss Hlay) as Hin. destruct Hfile as [Fr Fs Fo Fa].
  destruct (start_at len comps Hin w1 m f1 isams N1 O1) as (w2 & f2 & E3 & S2 & O2 & Hrest & _).
  { by rewrite Q1. } { rewrite (sf_key _ _ S1). by rewrite Ef0. } { rewrite (sf_kdb _ _ S1). by rewrite Ef0. }
  { by rewrite Z1, length_replicate. } { done. } { by rewrite Z1. }
  erewrite bind_ok by (apply on_isam_run; exact E3).
  assert (call_ok f2 a) as Hcall2.
  { destruct Hcall as [C1 C2 C3 C4 C5], S1 as [A1 A2 A3 A4 A5 A6 A7 A8], S2 as [B1 B2 B3 B4 B5 B6 B7 B8].
    rewrite Ef0 in A6, A7, A5. cbn in A6, A7, A5. split; [by apply B8|by rewrite B6, A6|by rewrite B7, A7| |by rewrite B5, A5].
    by rewrite B4, Z1, length_replicate. }
  destruct (load_next w2 f2 isams) as (w3 & f3 & E4 & Hat); [by rewrite (sf_name _ _ S2)|done..|].
  erewrite bind_ok by (apply on_isam_run; exact E4).
  destruct (load_loop_run isams fuel s1 w3 log f3 [] Hfuel Hfile1 Hat Hw) as (s4 & w4 & f4 & recs' & E5 & Hfile' & Hp & O4 & L4).
  { apply (load_order_nodup isams Hw Fo). }
  rewrite (bind_ok _ _ _ _ _ E5). destruct (isam_close f4 w4 O4) as (w5 & f5 & E6 & _).
  erewrite bind_ok by (apply on_isam_run; exact E6). by eexists s4, w5, _, recs'.
Qed.

End load.
