(* ===== verification/Command.v ===== *)
(** The commands a program writes to the file pqfh (src/command.c), with the calls of
    src/pqfh.c they make. *)

From stdpp Require Import prelude gmap strings.
From S2P Require Import Prelude Fhtypes Fcd Table Kdb Libpq Meta DbRead DbWrite Cmp Load.
Local Open Scope Z_scope.

(** The tables, the ISAM files and the log of the comparisons; the block and the table of
    the last open. *)
Record cmd_st (D W : Type) := mk_cm { cm_cs : cmp_st (dbs D) W; cm_fcd_open : option fcd_t; cm_tab_open : Z }.
Arguments mk_cm {D W} _ _ _.
Arguments cm_cs {D W} _.
Arguments cm_fcd_open {D W} _.
Arguments cm_tab_open {D W} _.

(** [if ((p = strchr(record, ' ')) != NULL) *p = 0;] in a record area. *)
Definition cut_area (rec : bytes) : option bytes :=
  if bool_decide (0 ∈ rec ∨ 32 ∈ rec) then
    Some (match strchr (cstr rec) 32 with Some i => <[i:=0]> rec | None => rec end)
  else None.

(** [!memcmp(fcd->record, text, n)] : the area has a NUL, and the text has none. *)
Definition is_cmd (text : string) (rec : bytes) : bool := memeq rec (bs text) (length (bs text)).

(** [strcpy(aux, record + n)] into a buffer of 257 bytes. *)
Definition cmd_arg (n : nat) (rec : bytes) : option bytes :=
  let s := drop n rec in
  if bool_decide (0 ∈ s) && (length (cstr s) <=? 256)%nat then Some (cstr s) else None.

Section command.
Context {D : Type} `{!Libpq D} `{!DbCalls D} {W : Type} `{!Extfh W} (env : env_t) (log_ok log_opens : bool) (fuel : nat).
(** The two record areas a comparison has on its stack. *)
Context (record1 record2 : bytes).
Notation cm := (cmd_st D W).

Definition on_cs {A} (m : M (cmp_st (dbs D) W) A) : M cm A := λ s,
  let (x, r) := m (cm_cs s) in (mk_cm x (cm_fcd_open s) (cm_tab_open s), r).
Definition cmd_db {A} (m : M (dbs D) A) : M cm A := on_cs (on_first m).
Definition cmd_set (f : globals_db → globals_db) : M cm unit := cmd_db (setd f).
Definition set_fcd_open (f : option fcd_t) : M cm unit := modify (λ s, mk_cm (cm_cs s) f (cm_tab_open s)).
Definition isam_only {A} (m : M (cmp_st unit W) A) : M (cmp_st (dbs D) W) A := λ s,
  let (x, r) := m (mk_cs tt (c_isam s) (c_log s)) in (mk_cs (c_first s) (c_isam x) (c_log x), r).

(** [pthread_mutex_lock] : a thread that holds the mutex waits for ever. *)
Definition lock_mutex : M (dbs D) unit :=
  l ← getd d_lock; if l : bool then stop Hang else setd (set_d_lock true).
Definition unlock_mutex : M (dbs D) unit := setd (set_d_lock false).

(** src/pqfh.c:105-114 pqfh_begin_transaction *)
Definition pqfh_begin_transaction : M (dbs D) unit :=
  setd (set_d_in_transaction true);;
  f ← getd d_fatal;
  if f : bool then stop Exit else lock_mutex;; commit;; unlock_mutex.

(** src/pqfh.c:116-126 pqfh_commit *)
Definition pqfh_commit : M (dbs D) unit :=
  setd (set_d_in_transaction false);;
  f ← getd d_fatal;
  if f : bool then commit;; stop Exit else lock_mutex;; commit;; unlock_mutex.

(** src/pqfh.c:128-156 pqfh_rollback *)
Definition pqfh_rollback : M (dbs D) unit :=
  setd (set_d_in_transaction false);;
  f ← getd d_fatal;
  if f : bool then pq (PQexec (bs "ROLLBACK"));; stop Exit
  else
    lock_mutex;;
    pq (PQexec (bs "ROLLBACK"));;
    pq (PQexec (bs "BEGIN"));;
    setd (set_d_pending 0);;
    unlock_mutex.

(** src/pqfh.c:58-60 program *)
Definition program (name : bytes) : M (dbs D) unit := setd (λ g, set_d_stack (d_stack g ++ [name]) g).

(** src/pqfh.c:62-67 exit_program : the last name goes. *)
Definition exit_program : M (dbs D) unit := setd (λ g, set_d_stack (removelast (d_stack g)) g).

(** A call with the mode B, then the mode again. *)
Definition in_mode_b (m : M cm unit) : M cm unit :=
  salva ← cmd_db (getd d_mode);
  cmd_set (set_d_mode (ch "B"));;
  m;;
  cmd_set (set_d_mode salva).

(** src/command.c:52-64 command (COPY) : the names are between and after the colons. *)
Definition command_copy (fcd : fcd_t) (rec : bytes) : M cm unit :=
  in_mode_b (
    let reclen := getshort (rec_len fcd) in
    guard_fault (reclen <=? 256);;
    aux ← of_option (sub_bytes rec 0 reclen);
    let p := cstr (drop 5 aux) in
    i ← of_option (strchr p (ch ":"));
    cmd_db (copy_table env (take i p) (drop (S i) p));;
    cmd_db commit).

(** src/command.c:66-72 command (LOAD) *)
Definition command_load : M cm unit :=
  in_mode_b (
    o ← gets cm_fcd_open;
    a ← gets cm_tab_open;
    o ← on_cs (load_table env log_ok fuel o a);
    set_fcd_open o;;
    cmd_db commit).

Definition run_cmp_table (sync : bool) : M cm unit :=
  o ← gets cm_fcd_open;
  a ← gets cm_tab_open;
  o ← on_cs (cmp_table log_ok fuel sync log_opens record1 record2 o a);
  set_fcd_open o.

(** src/command.c:83-101 command (the comparisons) *)
Definition command_cmp (rec : bytes) : M cm unit :=
  if is_cmd "CMPISAM" rec then
    aux ← of_option (cmd_arg 8 rec);
    o ← gets cm_fcd_open;
    mode ← cmd_db (getd d_mode);
    o ← on_cs (isam_only (cmp_isam fuel mode log_opens record1 record2 o (cut aux 32)));
    set_fcd_open o
  else if is_cmd "CMP" rec then in_mode_b (run_cmp_table false)
  else if is_cmd "SYNC" rec then in_mode_b (run_cmp_table true;; cmd_db commit)
  else mret tt.

Definition when (b : bool) (m : M cm unit) : M cm unit := if b then m else mret tt.

(** src/command.c:15-135 command : a partial key that is not positive is none. *)
Definition command (fcd : fcd_t) : M cm fcd_t :=
  rec ← of_option (cut_area (record fcd));
  when (is_cmd "WEAK:" rec) (
    aux ← of_option (cmd_arg 5 rec);
    cmd_set (λ g, set_d_weak (d_weak g ++ [cut aux 32]) g));;
  when (is_cmd "MODE:" rec) (cmd_set (set_d_table_mode (byte_at rec 5)));;
  when (is_cmd "PROGRAM:" rec) (cmd_db (program (cstr (drop 8 rec))));;
  when (is_cmd "EXIT_PROGRAM" rec) (cmd_db exit_program);;
  when (is_cmd "FREE" rec) (cmd_set (set_d_table_mode (ch "F")));;
  when (is_cmd "COPY:" rec) (command_copy fcd rec);;
  when (is_cmd "LOAD" rec) command_load;;
  when (is_cmd "CACHE_START" rec) (cmd_set (set_d_usecache true));;
  when (is_cmd "CACHE_STOP" rec) (cmd_set (set_d_usecache false));;
  command_cmp rec;;
  when (is_cmd "BEGIN TRANSACTION" rec) (cmd_db pqfh_begin_transaction);;
  when (is_cmd "COMMIT" rec) (cmd_db commit);;
  when (is_cmd "ROLLBACK" rec) (cmd_db pqfh_rollback);;
  when (is_cmd "PARTIAL:" rec) (
    aux ← of_option (cmd_arg 8 rec);
    cmd_db (set_partial (Z.to_nat (atoi (cut aux 32)))));;
  when (is_cmd "LOCK_MANUAL" rec) (cmd_set (set_d_lock_manual true));;
  when (is_cmd "LOCK_AUTOMATIC" rec) (cmd_set (set_d_lock_manual false));;
  mret (set_status ST_OK (set_rec rec fcd)).

End command.
