(* ===== verification/CommandSpec.v ===== *)
(** What the commands do: the text of each one runs its own effect and no other. *)

From stdpp Require Import prelude gmap strings.
From S2P Require Import Prelude Fhtypes Fcd Table Kdb Libpq Meta DbRead DbWrite DbSession Cursor Cmp Load Command.
Local Open Scope Z_scope.

Inductive cmd :=
  | CWeak (table : bytes)
  | CMode (mode : Z)
  | CProgram (prog : bytes)
  | CExitProgram
  | CFree
  | CCopy (source dest : bytes)
  | CLoad
  | CCacheStart
  | CCacheStop
  | CCmpIsam (file : bytes)
  | CCmp
  | CSync
  | CBeginTransaction
  | CCommit
  | CRollback
  | CPartial (ncomps : bytes)
  | CLockManual
  | CLockAutomatic.

(** The word of a command, and what follows it after a blank. *)
Definition cmd_word (c : cmd) : bytes :=
  match c with
  | CWeak n => bs "WEAK:" ++ n
  | CMode m => bs "MODE:" ++ [m]
  | CProgram p => bs "PROGRAM:" ++ p
  | CExitProgram => bs "EXIT_PROGRAM"
  | CFree => bs "FREE"
  | CCopy a b => bs "COPY:" ++ a ++ bs ":" ++ b
  | CLoad => bs "LOAD"
  | CCacheStart => bs "CACHE_START"
  | CCacheStop => bs "CACHE_STOP"
  | CCmpIsam _ => bs "CMPISAM"
  | CCmp => bs "CMP"
  | CSync => bs "SYNC"
  | CBeginTransaction => bs "BEGIN"
  | CCommit => bs "COMMIT"
  | CRollback => bs "ROLLBACK"
  | CPartial d => bs "PARTIAL:" ++ d
  | CLockManual => bs "LOCK_MANUAL"
  | CLockAutomatic => bs "LOCK_AUTOMATIC"
  end.

Definition cmd_rest (c : cmd) (rest : bytes) : Prop :=
  match c with
  | CCmpIsam f => ∃ pad, rest = f ++ [32] ++ pad ++ [0] ∧ 0 ∉ f ++ pad ∧ 32 ∉ f ∧ (length f + length pad ≤ 255)%nat
  | CBeginTransaction => ∃ pad, rest = bs "TRANSACTION" ++ pad
  | _ => True
  end.

Definition cmd_args (c : cmd) : list bytes :=
  match c with
  | CWeak n => [n] | CMode m => [[m]] | CProgram p => [p] | CCopy a b => [a; b] | CPartial d => [d] | _ => []
  end.

(** The arguments are words that fit their buffers. *)
Definition cmd_ok (c : cmd) (fcd : fcd_t) (rest : bytes) : Prop :=
  record fcd = cmd_word c ++ [32] ++ rest ∧ cmd_rest c rest ∧
  Forall (λ w, 0 ∉ w ∧ 32 ∉ w ∧ (length w ≤ 255)%nat) (cmd_args c) ∧
  match c with
  | CCopy a _ => ch ":" ∉ a ∧ getshort (rec_len fcd) = Z.of_nat (length (record fcd)) ∧ (length (record fcd) ≤ 256)%nat
  | _ => True
  end.

Lemma strchr_absent s c t : c ∉ s → strchr (s ++ c :: t) c = Some (length s).
Proof.
  induction s as [|x s IH]; simpl; [by rewrite Z.eqb_refl|]. intros [Hx Hs]%not_elem_of_cons.
  rewrite (proj2 (Z.eqb_neq _ _)) by congruence. by rewrite IH.
Qed.

Lemma cstr_stop s t : 0 ∉ s → cstr (s ++ 0 :: t) = s.
Proof.
  induction s as [|x s IH]; [done|]. simpl. intros [Hx Hs]%not_elem_of_cons. rewrite (proj2 (Z.eqb_neq _ _)) by congruence. by rewrite IH.
Qed.

Lemma cstr_prefix s t : 0 ∉ s → ∃ t', cstr (s ++ t) = s ++ t' ∧ (∀ x u, t = x :: u → x ≠ 0 → ∃ v, t' = x :: v).
Proof.
  intros H. exists (cstr t). split.
  - induction s as [|x s IH]; [done|]. simpl. apply not_elem_of_cons in H as [Hx Hs]. rewrite (proj2 (Z.eqb_neq _ _)) by congruence. by rewrite IH.
  - intros x u -> Hx. simpl. rewrite (proj2 (Z.eqb_neq _ _)) by done. by eexists.
Qed.

Lemma cut_area_word w rest : 0 ∉ w → 32 ∉ w → cut_area (w ++ [32] ++ rest) = Some (w ++ [0] ++ rest).
Proof.
  intros H0 H32. unfold cut_area. rewrite bool_decide_true by (right; rewrite !elem_of_app; right; left; by left).
  destruct (cstr_prefix w ([32] ++ rest) H0) as (t' & -> & Ht). destruct (Ht 32 rest eq_refl) as [v ->]; [done|].
  rewrite strchr_absent by done. f_equal. rewrite insert_app_r_alt by lia. by rewrite Nat.sub_diag.
Qed.

Lemma cmd_arg_word p w rest : 0 ∉ w → (length w ≤ 256)%nat → cmd_arg (length p) (p ++ w ++ [0] ++ rest) = Some w.
Proof.
  intros H0 Hl. unfold cmd_arg. rewrite drop_app_length, bool_decide_true by (rewrite !elem_of_app; right; left; by left).
  change (w ++ [0] ++ rest) with (w ++ 0 :: rest). rewrite cstr_stop by done. by rewrite (proj2 (Nat.leb_le _ _) Hl).
Qed.

Lemma cut_word w : 32 ∉ w → cut w 32 = w.
Proof. intros H. unfold cut. by rewrite strchr_none. Qed.

(** A word followed by a blank and by what fills the area. *)
Lemma cmd_arg_pad p w pad : 0 ∉ w ++ pad → (length w + length pad ≤ 255)%nat → cmd_arg (length p) (p ++ w ++ [32] ++ pad ++ [0]) = Some (w ++ [32] ++ pad).
Proof.
  intros [Hw Hp]%not_elem_of_app Hl. replace (w ++ [32] ++ pad ++ [0]) with ((w ++ [32] ++ pad) ++ [0] ++ []) by by rewrite <-!app_assoc.
  apply cmd_arg_word.
  - rewrite !not_elem_of_app. split_and!; [done| |done]. by apply (bool_decide_unpack _).
  - rewrite !length_app. simpl. lia.
Qed.

Lemma cut_pad w pad : 32 ∉ w → cut (w ++ [32] ++ pad) 32 = w.
Proof. intros H. unfold cut. change (w ++ [32] ++ pad) with (w ++ 32 :: pad). by rewrite strchr_absent, take_app_length. Qed.

Section effects.
Context {D : Type} `{!Libpq D} `{!DbCalls D} {W : Type} `{!Extfh W} (env : env_t) (log_ok log_opens : bool) (fuel : nat).
Context (record1 record2 : bytes).
Notation cm := (cmd_st D W).
Notation command := (command env log_ok log_opens fuel record1 record2).
Notation run_cmp_table := (run_cmp_table log_ok log_opens fuel record1 record2).

(** What each command is for; BEGIN TRANSACTION has none. *)
Definition effect (c : cmd) : M cm unit :=
  match c with
  | CWeak n => cmd_set (λ g, set_d_weak (d_weak g ++ [n]) g)
  | CMode m => cmd_set (set_d_table_mode m)
  | CProgram p => cmd_db (program p)
  | CExitProgram => cmd_db exit_program
  | CFree => cmd_set (set_d_table_mode (ch "F"))
  | CCopy a b => in_mode_b (cmd_db (copy_table env a b);; cmd_db commit)
  | CLoad => command_load env log_ok fuel
  | CCacheStart => cmd_set (set_d_usecache true)
  | CCacheStop => cmd_set (set_d_usecache false)
  | CCmpIsam f =>
      o ← gets cm_fcd_open; mode ← cmd_db (getd d_mode);
      o ← on_cs (isam_only (cmp_isam fuel mode log_opens record1 record2 o f)); set_fcd_open o
  | CCmp => in_mode_b (run_cmp_table false)
  | CSync => in_mode_b (run_cmp_table true;; cmd_db commit)
  | CBeginTransaction => mret tt
  | CCommit => cmd_db commit
  | CRollback => cmd_db pqfh_rollback
  | CPartial d => cmd_db (set_partial (Z.to_nat (atoi d)))
  | CLockManual => cmd_set (set_d_lock_manual true)
  | CLockAutomatic => cmd_set (set_d_lock_manual false)
  end.

(** Each test on the area is decided by its first bytes. *)
Ltac run_tests :=
  repeat match goal with |- context [is_cmd ?x ?r] => let b := eval lazy in (is_cmd x r) in change (is_cmd x r) with b end.

Lemma word_clean c : Forall (λ w, 0 ∉ w ∧ 32 ∉ w ∧ (length w ≤ 255)%nat) (cmd_args c) → 0 ∉ cmd_word c ∧ 32 ∉ cmd_word c.
Proof.
  assert (∀ s w x, bool_decide (x ∉ bs s) = true → x ∉ w → x ∉ bs s ++ w) as H.
  { intros s w x Hs%bool_decide_eq_true Hw. by apply not_elem_of_app. }
  assert (∀ s w, bool_decide (0 ∉ bs s) = true → bool_decide (32 ∉ bs s) = true → 0 ∉ w → 32 ∉ w → 0 ∉ bs s ++ w ∧ 32 ∉ bs s ++ w) as H2.
  { intros s w H0 H32 W0 W32. split; by apply H. }
  assert (∀ s, bool_decide (0 ∉ bs s) = true → bool_decide (32 ∉ bs s) = true → 0 ∉ bs s ∧ 32 ∉ bs s) as H1.
  { intros s H0%bool_decide_eq_true H32%bool_decide_eq_true. done. }
  destruct c; cbn [cmd_args cmd_word]; rewrite ?Forall_cons; intros Ha; try by apply H1.
  - apply H2; naive_solver.
  - apply H2; naive_solver.
  - apply H2; naive_solver.
  - destruct Ha as ((A0 & A32 & _) & (B0 & B32 & _) & _). apply H2; [done|done| |]; rewrite !not_elem_of_app; split_and!; try done;
      by apply (bool_decide_unpack _).
  - apply H2; naive_solver.
Qed.

Lemma skip_test {A} (m : M cm unit) (k : M cm A) : (when false m;; k) = k.
Proof. done. Qed.

Lemma cut_area_record c fcd rest : cmd_ok c fcd rest → cut_area (record fcd) = Some (cmd_word c ++ [0] ++ rest).
Proof. intros (-> & _ & Ha & _). destruct (word_clean c Ha). by apply cut_area_word. Qed.

Lemma some_bind {A B} (a : A) (f : A → M cm B) : (of_option (Some a) ≫= f) = f a.
Proof. done. Qed.

Lemma bind_ext {A B} (m : M cm A) (f g : A → M cm B) : (∀ a s, f a s = g a s) → ∀ s, (m ≫= f) s = (m ≫= g) s.
Proof. intros H s. unfold mbind, M_bind. destruct (m s) as [s' [e|a]]; auto. Qed.

Lemma in_mode_b_ext (m m' : M cm unit) : (∀ s, m s = m' s) → ∀ s, in_mode_b m s = in_mode_b m' s.
Proof.
  intros H s. unfold in_mode_b. apply bind_ext. intros g s1. apply bind_ext. intros _ s2. unfold mbind, M_bind. by rewrite H.
Qed.

Lemma command_copy_runs a b fcd rest s : cmd_ok (CCopy a b) fcd rest →
  command_copy env fcd (cmd_word (CCopy a b) ++ [0] ++ rest) s = effect (CCopy a b) s.
Proof.
  intros (Hr & _ & Ha & Hc & Hlen & Hmax). cbn [cmd_args] in Ha. rewrite !Forall_cons in Ha.
  destruct Ha as ((A0 & A32 & _) & (B0 & B32 & _) & _). unfold command_copy, effect. apply in_mode_b_ext. clear s. intros s.
  set (rec := cmd_word (CCopy a b) ++ [0] ++ rest).
  assert (length rec = length (record fcd)) as Hl by (rewrite Hr; unfold rec; rewrite !length_app; done).
  rewrite Hlen, (proj2 (Z.leb_le _ _)) by lia. rewrite <-Hl.
  assert (sub_bytes rec 0 (Z.of_nat (length rec)) = Some rec) as ->.
  { unfold sub_bytes. rewrite (proj2 (Z.leb_le 0 _)), (proj2 (Z.leb_le (0 + _) _)) by lia. cbn [andb Z.leb Z.compare]. by rewrite Nat2Z.id, take_ge by done. }
  cbn [of_option guard_fault]. rewrite !ret_bind. cbv zeta.
  assert (cstr (drop 5 rec) = a ++ ch ":" :: b) as ->.
  { unfold rec, cmd_word. rewrite <-!app_assoc. rewrite (drop_app_length' _ _ 5) by done.
    change (a ++ bs ":" ++ b ++ [0] ++ rest) with (a ++ [ch ":"] ++ b ++ 0 :: rest). rewrite !app_assoc. rewrite cstr_stop; [by rewrite <-app_assoc|].
    rewrite !not_elem_of_app. split_and!; [done| |done]. by apply (bool_decide_unpack _). }
  rewrite strchr_absent by done. cbn [of_option]. rewrite ret_bind, take_app_length. change (a ++ ch ":" :: b) with (a ++ [ch ":"] ++ b). rewrite app_assoc, drop_app_length'; [done|].
  rewrite length_app. simpl. lia.
Qed.

(** C16: Every command written to the file pqfh, with a blank after its word, runs the
    effect of that command and none of the other tests of command.c holds on its text:
    the arguments reach the effect as they were written, BEGIN TRANSACTION does nothing
    (the blank inside its name is cut), and the call answers 00 with the record area cut
    at the blank. *)
Theorem command_runs c fcd rest s : cmd_ok c fcd rest →
  command fcd s = (effect c;; mret (set_status ST_OK (set_rec (cmd_word c ++ [0] ++ rest) fcd))) s.
Proof.
  intros Hok. unfold Command.command. rewrite (cut_area_record _ _ _ Hok). cbn [of_option]. rewrite ret_bind.
  pose proof Hok as (Hr & Hrest & Ha & Hx).
  destruct c; cbn [cmd_word cmd_rest cmd_args] in *; rewrite ?Forall_cons in Ha; unfold command_cmp; run_tests; rewrite !skip_test; cbn [when].
  all: try (destruct Ha as [(A0 & A32 & Al) _]); rewrite <-?app_assoc; cbn [effect].
  all: try reflexivity.
  1: rewrite (cmd_arg_word (bs "WEAK:")) by (done || lia); rewrite some_bind, cut_word by done; reflexivity.
  1: rewrite (drop_app_length' (bs "PROGRAM:") _ 8) by done; change ([0] ++ rest) with (0 :: rest); rewrite cstr_stop by done; reflexivity.
  - unfold mbind, M_bind. pose proof (command_copy_runs source dest fcd rest s Hok) as E. cbn [effect cmd_word] in E. rewrite <-!app_assoc in E.
    unfold mbind, M_bind in E. by rewrite E.
  - destruct Hrest as (pad & -> & H0 & H32 & Hl). change 8%nat with (length (bs "CMPISAM" ++ [0])). rewrite (app_assoc (bs "CMPISAM")), cmd_arg_pad by done. rewrite some_bind, cut_pad by done. reflexivity.
  - rewrite (cmd_arg_word (bs "PARTIAL:")) by (done || lia). rewrite some_bind, cut_word by done. reflexivity.
Qed.

End effects.
