(* ===== verification/MetaServer.v ===== *)
(** The server in memory with a catalog keeps the contract of MetaSpec, and sessions with it:
    a table is opened, used and closed. *)

From stdpp Require Import prelude gmap strings sorting.
From S2P Require Import Prelude Fhtypes Fcd Table Kdb Libpq Meta DbRead DbWrite Sql DbRows DbSession DbSpec Cursor SqlText CursorSpec CursorScan DbServer CursorServer Merge Cmp CmpIsam CmpServer MetaSpec MetaOpen MetaClose Hoare MetaTyped.
Local Open Scope Z_scope.

Lemma after_app_l p q s : after (p ++ q) (p ++ s) = after q s.
Proof.
  unfold after, prefixb. rewrite length_app, take_app_add, drop_app_add.
  by rewrite (bool_decide_ext _ (take (length q) s = q)) by (split; [apply app_inv_head|by intros ->]).
Qed.

(** The text does not start with the prefix: their first bytes differ. *)
Ltac other_prefix :=
  repeat match goal with |- context [after ?p ?s] =>
    let H := fresh in assert (after p s = None) as H by (apply after_head; first [done|by apply not_eq_sym]); rewrite H; clear H end;
  try done.

(** ** The name in a query of the catalog *)

Definition between (f : bytes → bytes) (n : nat) (s : bytes) : bytes := take (length s - length (f [])) (drop n s).

Definition read_cat (s : bytes) : option cat_query :=
  let c := between columns_sql 182 s in
  let t := between schema_sql 114 s in
  if decide (columns_sql c = s) then Some (QColumns c)
  else if decide (schema_sql t = s) then Some (QSchema t) else None.

Lemma between_name f n pre post : (∀ x, f x = pre ++ x ++ post) → length pre = n → ∀ x, between f n (f x) = x.
Proof.
  intros Hf <- x. unfold between. rewrite !Hf, drop_app_length, !length_app. simpl.
  replace (_ - _)%nat with (length x) by lia. apply take_app_length.
Qed.

Definition columns_pre : bytes := Eval vm_compute in take 182 (columns_sql []).
Definition columns_post : bytes := Eval vm_compute in drop 182 (columns_sql []).
Definition schema_pre : bytes := Eval vm_compute in take 114 (schema_sql []).
Definition schema_post : bytes := Eval vm_compute in drop 114 (schema_sql []).

Lemma columns_sql_parts x : columns_sql x = columns_pre ++ x ++ columns_post.
Proof. done. Qed.

Lemma schema_sql_parts x : schema_sql x = schema_pre ++ x ++ schema_post.
Proof. done. Qed.

Lemma read_cat_sql q : read_cat (cat_sql q) = Some q.
Proof.
  unfold read_cat. destruct q as [n|n]; cbn [cat_sql].
  - rewrite (between_name columns_sql 182 _ _ columns_sql_parts eq_refl), decide_True by done. done.
  - rewrite (between_name schema_sql 114 _ _ schema_sql_parts eq_refl), decide_False, decide_True by done. done.
Qed.

Section server.
Context (schema name : bytes) (cols : list column_t) (keys : list key_t) (catalog : cat_query → list (list bytes)).
Context (Hnames : names_ok cols) (Hcols : Forall (λ c, (col_dec c ≤ col_len c)%nat) cols).
Context (Hinj : ∀ q q', q ∈ file_stmts cols keys → q' ∈ file_stmts cols keys →
    stmt_text schema name cols q = stmt_text schema name cols q' → q = q').

Definition truncate_sql : bytes := bs "truncate table " ++ schema ++ bs "." ++ name.

(** The statements of the catalog, those that forget a statement or empty the table; the
    others go to the tables. *)
Definition cv_sql (sql : bytes) (d : server) : server * pgresult :=
  if decide (is_Some (read_declare schema name cols sql)) then sv_sql schema name cols sql d
  else match after (bs "deallocate ") sql, after (bs "CLOSE ") sql with
  | Some n, _ => (mk_server (filter (λ p, p.1 ≠ n) (sv_prepared d)) (sv_rows d) (sv_cursors d), mk_res PGRES_COMMAND_OK [])
  | None, Some n => sv_sql schema name cols (close_text n) d
  | None, None =>
      if decide (sql = truncate_sql) then (mk_server (sv_prepared d) [] (sv_cursors d), mk_res PGRES_COMMAND_OK [])
      else match read_cat sql with
      | Some q => (sv_set_cursors ((cat_cursor q, catalog q) :: sv_cursors d) d, mk_res PGRES_COMMAND_OK [])
      | None => sv_sql schema name cols sql d
      end
  end.

#[local] Instance cv_libpq : Libpq server := {|
  PQexec := cv_sql;
  PQprepare n sql k d := sv_prepare schema name cols keys n sql d;
  PQexecPrepared := sv_exec;
|}.

#[local] Instance cv_table : PgTable server schema name cols keys :=
  let T := server_table schema name cols keys Hcols Hinj in
  @Build_PgTable server cv_libpq schema name cols keys sv_stmt (λ d n, sv_stmt d n = None) sv_rows sv_cursor sv_value
    (canon_spells (PgTable:=T)) (pg_prepare (PgTable:=T)) (pg_select (PgTable:=T)) (pg_insert (PgTable:=T))
    (pg_update (PgTable:=T)) (pg_delete (PgTable:=T)).

(** A statement on a cursor that is not of the catalog goes to the tables. *)
Lemma cv_plain sql d : (∃ c s, sql = c :: s ∧ c ≠ ch "d" ∧ c ≠ ch "C" ∧ c ≠ ch "t") → cv_sql sql d = sv_sql schema name cols sql d.
Proof.
  intros (c & s & -> & H1 & H2 & H3). unfold cv_sql. destruct (decide _) as [|_]; [done|].
  other_prefix.
  assert (∀ y t, c ≠ y → y :: t ≠ c :: s) as H by (intros y t Hy [= E _]; done).
  rewrite decide_False by (intros E; symmetry in E; revert E; by apply H). unfold read_cat.
  rewrite !decide_False by (by apply H). done.
Qed.

#[local] Instance cv_cursor : PgCursor server schema name cols keys.
Proof.
  pose (C := server_cursor schema name cols keys Hnames Hcols Hinj).
  refine {| pg_cmp := sv_cmp |}.
  - exact (pg_cmp_eq (PgCursor:=C)).
  - exact (pg_cmp_empty (PgCursor:=C)).
  - exact (pg_cmp_zero (PgCursor:=C)).
  - intros d n ixs cs op w Hcur Hn Hop Hw Hm Hne. pose proof (read_declare_text schema name cols Hnames n ixs cs op w Hn Hw Hm Hne) as E.
    cbn [PQexec cv_libpq]. unfold cv_sql. rewrite decide_True by by rewrite E. exact (pg_declare (PgCursor:=C) d n ixs cs op w Hcur Hn Hop Hw Hm Hne).
  - intros d n rows Hn Hcur. cbn [PQexec cv_libpq]. rewrite cv_plain by by eexists _, _. exact (pg_fetch (PgCursor:=C) d n rows Hn Hcur).
  - intros d n rows Hn Hcur. cbn [PQexec cv_libpq]. rewrite cv_plain by by eexists _, _. exact (pg_close (PgCursor:=C) d n rows Hn Hcur).
Defined.

Lemma read_declare_cat q : read_declare schema name cols (cat_sql q) = None.
Proof.
  assert (∀ n x s, 32 ∉ n → x ≠ ch "w" → read_declare schema name cols (bs "declare " ++ n ++ bs " " ++ bs "cursor " ++ x :: s) = None) as H.
  { intros n x s Hn Hx. unfold read_declare. rewrite after_app. cbn [mbind option_bind]. rewrite (word_blank _ _ Hn). cbn [snd].
    change (bs "cursor with hold for" ++ [10] ++ bs "  select * from " ++ schema ++ bs "." ++ name ++ [10] ++ bs "    where ")
      with (bs "cursor " ++ bs "with hold for" ++ [10] ++ bs "  select * from " ++ schema ++ bs "." ++ name ++ [10] ++ bs "    where ").
    rewrite after_app_l. other_prefix. }
  destruct q as [n|n]; [apply (H (bs "cursor_columns") (ch "f"))|apply (H (bs "cursor_tables") (ch "f"))]; try done;
    by apply (bool_decide_unpack _).
Qed.

Lemma read_declare_none s : head s ≠ Some (ch "d") → read_declare schema name cols s = None.
Proof. destruct s as [|c s]; [done|]. intros H. assert (c ≠ ch "d") by (intros ->; by apply H). unfold read_declare. other_prefix. Qed.

Lemma sv_cursor_drop n d m : sv_cursor (sv_set_cursors (filter (λ p, p.1 ≠ n) (sv_cursors d)) d) m =
  if decide (m = n) then None else sv_cursor d m.
Proof.
  unfold sv_cursor, sv_set_cursors. cbn [sv_cursors]. rewrite list_filter_filter. destruct (decide (m = n)) as [->|Hne].
  - destruct (filter _ _) as [|p l] eqn:E; [done|]. exfalso.
    assert (p ∈ filter (λ x, x.1 = n ∧ x.1 ≠ n) (sv_cursors d)) as [[] _]%list_elem_of_filter by (rewrite E; by left). done.
  - f_equal. f_equal. apply list_filter_iff. intros p. split; [by intros []|]. intros <-. done.
Qed.

Lemma sv_cursor_set n rows d m : m ∉ [n] → sv_cursor (sv_set_cursors ((n, rows) :: sv_cursors d) d) m = sv_cursor d m.
Proof. rewrite list_elem_of_singleton. intros H. etrans; [apply sv_cursor_cons|]. by rewrite decide_False. Qed.

Lemma sv_stmt_drop n d m : m ≠ n →
  sv_stmt (mk_server (filter (λ p, p.1 ≠ n) (sv_prepared d)) (sv_rows d) (sv_cursors d)) m = sv_stmt d m.
Proof.
  intros Hne. unfold sv_stmt. cbn [sv_prepared]. rewrite list_filter_filter. f_equal. f_equal. apply list_filter_iff.
  intros p. split; [by intros []|]. intros <-. done.
Qed.

#[local] Instance cv_catalog : PgCatalog server cv_table.
Proof.
  refine {| pg_catalog d q := catalog q |}.
  - intros d n. eexists _, _. cbn [PQexec cv_libpq]. split; [apply surjective_pairing|]. rewrite cv_plain by by eexists _, _.
    assert (sv_sql schema name cols (oid_sql n) d = (d, mk_res PGRES_COMMAND_OK [])) as ->; [|by split; try done; intros m].
    unfold sv_sql. rewrite (read_declare_none (oid_sql n)) by done.
    other_prefix.
  - intros d q Hq. eexists. cbn [PQexec cv_libpq]. unfold cv_sql. rewrite decide_False by (rewrite read_declare_cat; by intros []).
    assert (after (bs "deallocate ") (cat_sql q) = None ∧ after (bs "CLOSE ") (cat_sql q) = None ∧ cat_sql q ≠ truncate_sql) as (-> & -> & Ht)
      by (destruct q; split_and!; done).
    rewrite decide_False, read_cat_sql by done. split; [done|]. split; [etrans; [apply sv_cursor_cons|by rewrite decide_True]|].
    split; try done. intros m Hm. by apply sv_cursor_set.
  - intros d q rows Hq. change (sv_cursor d (cat_cursor q) = Some rows) in Hq. eexists. cbn [PQexec cv_libpq].
    rewrite cv_plain by by eexists _, _. unfold sv_sql. rewrite after_app, Hq. split; [done|].
    split; [etrans; [apply sv_cursor_cons|by rewrite decide_True]|]. split; try done. intros m Hm. by apply sv_cursor_set.
  - intros d q rows Hq. change (sv_cursor d (cat_cursor q) = Some rows) in Hq. eexists _, _. cbn [PQexec cv_libpq]. unfold cv_sql.
    rewrite decide_False by (rewrite read_declare_none by done; by intros []). rewrite after_app.
    assert (after (bs "deallocate ") (bs "CLOSE " ++ cat_cursor q) = None) as -> by by apply after_head.
    unfold sv_sql, close_text. assert (after (bs "fetch next in ") (bs "close " ++ cat_cursor q) = None) as -> by by apply after_head.
    rewrite after_app, Hq. split; [done|]. split; [etrans; [apply sv_cursor_drop|by rewrite decide_True]|].
    split; try done. intros m Hm. etrans; [apply sv_cursor_drop|]. rewrite list_elem_of_singleton in Hm. by rewrite decide_False.
  - intros d. eexists _, _. cbn [PQexec cv_libpq]. unfold cv_sql.
    rewrite decide_False by (rewrite read_declare_none by done; by intros []).
    other_prefix. rewrite decide_True by done. by split_and!.
  - intros d n st _. eexists _, _. cbn [PQexec cv_libpq]. unfold cv_sql. rewrite after_app.
    assert (read_declare schema name cols (bs "deallocate " ++ n) = None) as ->.
    { unfold read_declare. by assert (after (bs "declare ") (bs "deallocate " ++ n) = None) as ->. }
    rewrite decide_False by by intros []. split; [done|]. split_and!; try done.
    + unfold pg_free, cv_table, sv_stmt. cbn [sv_prepared]. rewrite list_filter_filter. destruct (filter _ _) as [|p l] eqn:E; [done|].
      assert (p ∈ filter (λ x, x.1 = n ∧ x.1 ≠ n) (sv_prepared d)) as [[] _]%list_elem_of_filter by (rewrite E; by left). done.
    + intros m Hm. pose proof (sv_stmt_drop n d m Hm) as E. split; [exact E|]. cbn. by rewrite E.
Defined.


End server.

(** ** The file of three records, from its open to its close *)

#[local] Existing Instance mem_extfh.
#[local] Existing Instance mem_isam.
#[local] Existing Instance ex_calls.

Definition ex_catalog (q : cat_query) : list (list bytes) :=
  match q with
  | QColumns _ => [[bs "codigo"; bs "numeric"; []; bs "3"; bs "0"]; [bs "nome"; bs "character"; bs "4"; []; []]]
  | QSchema _ => [[ex_schema]]
  end.

#[local] Instance cx_libpq : Libpq server := cv_libpq ex_schema ex_name ex_tcols ex_tkeys ex_catalog.
#[local] Instance cx_table : PgTable server ex_schema ex_name ex_tcols ex_tkeys :=
  cv_table ex_schema ex_name ex_tcols ex_tkeys ex_catalog ex_tcols_sizes ex_texts.
#[local] Instance cx_cursor : PgCursor server ex_schema ex_name ex_tcols ex_tkeys :=
  cv_cursor ex_schema ex_name ex_tcols ex_tkeys ex_catalog ex_names ex_tcols_sizes ex_texts.
#[local] Instance cx_catalog : PgCatalog server cx_table :=
  cv_catalog ex_schema ex_name ex_tcols ex_tkeys ex_catalog ex_tcols_sizes ex_texts.

(** The dictionary: two tables, the second in the database; no prefixes. *)
Definition dict_rec (n : bytes) (c : string) : bytes := take 256 (n ++ replicate (26 - length n) 32 ++ bs c ++ replicate 256 0).
Definition ex_dict : list bytes := [dict_rec (bs "agenda") "N"; dict_rec ex_name "S"].
Definition ex_env : env_t := mk_env false false (bs "dic") (bs "pre") None.

(** A key on the first three bytes, another on the next four. *)
Definition ex_open_kdb : bytes :=
  blit (blit (blit (blit (blit (blit (blit (blit (blit (replicate 66 0) 6 (putshort 2)) 14 (putshort 1)) 16 (putshort 46))
    30 (putshort 1)) 32 (putshort 56)) 48 (putint 0)) 52 (putint 3)) 58 (putint 3)) 62 (putint 4).

Definition ex_open_fcd : fcd_t :=
  mk_fcd (bs "00") 2 4 128 (putshort 13) 0 (replicate 8 0) (putshort 7) (putshort 0) (bs "000    ") (bs "dados/cliente") ex_open_kdb
    (putint 0) 0 0 (replicate 4 0) 0 0.

Definition ex_gdb : globals_db := mk_gdb (ch "B") false [] [] false false false 0 0 true [] false false 0 true [].

Definition ex_db_state : mst server isam_mem :=
  mk_ms (mk_dbs (mk_server [] (row_img (PgTable0:=cx_table) <$> ex_records) []) ex_gdb ∅ 65)
    (mk_im (<[bs "dic":=ex_dict]> (<[bs "pre":=[]]> ∅)) ∅) None None None.

(** A session: the file is opened, read from a code on, and closed. *)
Definition ex_session_run (op : Z) : M (mst server isam_mem) (bytes * bytes * (list bytes * bytes) * bytes) :=
  r ← op_open ex_env 9 ex_ts ex_open_fcd op;
  let f := fst r in
  g ← on_db (op_start true (set_rec (bs "003    ") f) (bs ">="));
  l ← on_db (read_all 9 (ch "n") g);
  h ← on_db (op_close f);
  mret (status f, status g, l, status (fst h)).

Example ex_session_open : snd (ex_session_run OP_OPEN_INPUT ex_db_state) =
  inr (ST_OK, ST_OK, ([bs "005Ana "; bs "007Bia "], ST_EOF), ST_OK).
Proof. by vm_compute. Qed.

Example ex_session_output : snd (ex_session_run OP_OPEN_OUTPUT ex_db_state) =
  inr (ST_OK, ST_REC_NOT_FOUND, ([], ST_EOF), ST_OK).
Proof. by vm_compute. Qed.

Lemma ex_dicts : dicts_ok ex_env ex_db_state ex_dict [].
Proof.
  split; try done.
  split; [done| |done]. repeat constructor.
Qed.

Lemma ex_rows : rows_ok (P:=cx_table) (conn (m_db ex_db_state)) ex_records.
Proof. destruct ex_full_rows as (_ & H1 & H2). by split. Qed.

Lemma ex_open_call : open_call (P:=cx_table) (Q:=cx_catalog) ex_env 9 ex_ts ex_db_state ex_open_fcd OP_OPEN_IO ex_dict []
  [mk_col (bs "codigo") (ch "n") 3 0 0 false 0; mk_col (bs "nome") (ch "s") 4 0 3 false 0].
Proof.
  split; try done.
  - set_solver.
  - split; try done; [exact ex_dicts|simpl; lia..| |simpl; lia]. split; try done; [|simpl; lia].
    repeat constructor; unfold MAX_NAME_LEN; simpl; lia.
  - by right.
  - simpl; lia.
Qed.

Lemma open_session_witness : ∃ s' fcd' t, op_open ex_env 9 ex_ts ex_open_fcd OP_OPEN_IO ex_db_state = (s', inr (fcd', false)) ∧
  status fcd' = ST_OK ∧ file_ok (P:=cx_table) ex_ts (m_db s') 65 ex_records ∧ can_start (P:=cx_table) ex_ts (m_db s') 65 t.
Proof.
  destruct (open_session (P:=cx_table) (Q:=cx_catalog) ex_env 9 ex_ts ex_db_state ex_open_fcd OP_OPEN_IO ex_dict [] _ ex_records
    ex_open_call ex_rows (not_elem_of_nil _) eq_refl eq_refl) as (s' & fcd' & t & E & Hst & _ & _ & _ & _ & Hf & Hc & _).
  exists s', fcd', t. split; [exact E|]. split; [exact Hst|]. split; [exact Hf|exact Hc].
Defined.

(** A table with its insertion prepared and a cursor open. *)
Definition ex_used_table : table_t := set_t_cursor true (set_t_ins_prepared true ex_open_table).
Definition ex_used_state : dbs server :=
  mk_dbs (mk_server [(bs "cliente_1_2_ins", SInsert)] (row_img (PgTable0:=cx_table) <$> ex_records) [(bs "cursor_cliente_1_2", [])])
    ex_gdb {[ 64 := ex_used_table ]} 65.

Lemma ex_used_ok : sess_ok (PgTable0:=cx_table) ex_ts ex_used_state 64 ex_used_table.
Proof.
  split; [done|]. split; [|done]. split; try done.
  - intros [|[|k]] key b Hk; simpl; try done; intros [= <-]; by split.
  - intros k _ E. by apply lookup_replicate in E as [? _].
Qed.

Definition ex_close_fcd : fcd_t := set_open_mode 2 (set_sign (ch "P") (set_file_id (putint 64) ex_open_fcd)).

Lemma close_session_witness : ∃ s', op_close ex_close_fcd ex_used_state =
    (s', inr (set_status ST_OK (set_open_mode ST_OPEN_CLOSED ex_close_fcd), false)) ∧
  tabs s' !! 64 = None ∧ pg_free (PgTable:=cx_table) (conn s') (bs "cliente_1_2_ins") ∧ pg_cursor (conn s') (bs "cursor_cliente_1_2") = None.
Proof.
  destruct (close_session (P:=cx_table) (C:=cx_cursor) (Q:=cx_catalog) ex_ts ex_file_wf ex_words ex_used_state ex_close_fcd 64 ex_used_table)
    as (s' & E & Ht & _ & Hf & _ & Hc & _).
  - by split.
  - exact ex_used_ok.
  - by eexists.
  - done.
  - exists s'. split; [exact E|]. split; [exact Ht|]. split; [apply (Hf (bs "ins")); by left|exact Hc].
Defined.

