(* ===== verification/CommandServer.v ===== *)
(** A load and the commands, with the server and the file handler in memory. *)

From stdpp Require Import prelude gmap strings sorting.
From S2P Require Import Prelude Fhtypes Fcd Table Kdb Libpq Meta DbRead DbWrite Sql DbRows DbSession DbSpec Cursor SqlText CursorSpec CursorScan DbServer CursorServer Merge Cmp CmpIsam CmpServer MetaSpec MetaOpen MetaClose MetaServer Load LoadSpec Command CommandSpec.
Local Open Scope Z_scope.

#[local] Existing Instance mem_extfh.
#[local] Existing Instance mem_isam.
#[local] Existing Instance ex_calls.
#[local] Existing Instance cx_libpq.
#[local] Existing Instance cx_table.
#[local] Existing Instance cx_cursor.
#[local] Existing Instance cx_catalog.

Lemma ex_load_file : file_ok (P:=cx_table) ex_ts ex_used_state 64 ex_records.
Proof. split; [exists ex_used_table; exact ex_used_ok|]. exact ex_rows. Qed.

Lemma ex_load_call : load_call (P:=cx_table) (Q:=cx_catalog) ex_env ex_comps 64 ex_file ex_used_state ex_files ex_table_fcd ex_isams.
Proof.
  split; try done.
  - apply ex_isam_file; [done|by repeat constructor|done|done].
  - exact ex_isams_wf.
  - assert (Forall (λ c, pg_cursor (PgTable:=cx_table) (conn ex_used_state) c = None) cat_cursors) as H by by repeat constructor.
    by apply Forall_forall.
  - split; simpl; lia.
Qed.

Lemma load_table_correct_witness : ∃ s' w' f recs',
  load_table ex_env true 4 (Some ex_table_fcd) 64 (mk_cs ex_used_state ex_files []) = (mk_cs s' w' [], inr (Some f)) ∧
  file_ok (P:=cx_table) ex_ts s' 64 recs' ∧ recs' ≡ₚ ex_isams.
Proof.
  apply (load_table_correct (P:=cx_table) (Q:=cx_catalog) ex_env true ex_ts ex_file_wf ex_comps [[0%nat]] ex_layout eq_refl 64 ex_file)
    with (recs := ex_records).
  - exact ex_load_file.
  - exact ex_load_call.
  - simpl. lia.
Defined.

(** ** The commands *)

Definition ex_cmd_state : cmd_st server isam_mem := mk_cm (mk_cs ex_used_state ex_files []) (Some ex_table_fcd) 64.

(** The block of the file pqfh with a text in a record area of [n] bytes. *)
Definition ex_cmd_fcd (text : bytes) (n : nat) : fcd_t :=
  let area := text ++ replicate (n - length text) 32 in
  mk_fcd (bs "00") 2 4 2 (putshort 4) 0 (replicate 8 0) (putshort (Z.of_nat n)) (putshort 0) area (bs "pqfh") (replicate 66 0) (putint 0) 0 0
    (replicate 4 0) 0 0.

Notation ex_command := (command ex_env true true 9 (bs "0123456") (bs "0123456")).

Lemma command_runs_witness :
  ex_command (ex_cmd_fcd (bs "COPY:cliente:outra") 40) ex_cmd_state =
  (effect ex_env true true 9 (bs "0123456") (bs "0123456") (CCopy (bs "cliente") (bs "outra"));;
   mret (set_status ST_OK (set_rec (bs "COPY:cliente:outra" ++ [0] ++ replicate 21 32) (ex_cmd_fcd (bs "COPY:cliente:outra") 40)))) ex_cmd_state.
Proof.
  refine (command_runs ex_env true true 9 (bs "0123456") (bs "0123456") (CCopy (bs "cliente") (bs "outra")) _ (replicate 21 32) _ _).
  split; [done|]. split; [done|]. split; [|split; [|split; [done|simpl; lia]]].
  - repeat (apply Forall_cons; split); [..|constructor]; (split; [|split; [|simpl; lia]]); by apply (bool_decide_unpack _).
  - by apply (bool_decide_unpack _).
Defined.

(** A table loaded by the command, and the rows after it. *)
Example ex_load_command :
  let r := ex_command (ex_cmd_fcd (bs "LOAD") 16) ex_cmd_state in
  status <$> (match snd r with inr f => Some f | _ => None end) = Some ST_OK ∧
  pg_rows (PgTable:=cx_table) (conn (c_first (cm_cs (fst r)))) = row_img (PgTable0:=cx_table) <$> [bs "005Eva "; bs "004Leo "; bs "002Ana "].
Proof. by vm_compute. Qed.

(** The blank inside its name is cut before the test: BEGIN TRANSACTION starts nothing. *)
Example ex_begin_dead :
  let r := ex_command (ex_cmd_fcd (bs "BEGIN TRANSACTION") 30) ex_cmd_state in
  cm_cs (fst r) = cm_cs ex_cmd_state.
Proof. by vm_compute. Qed.
