(* ===== verification/JavaCall.v ===== *)
(** The calls of Java objects from COBOL (src/javacall.c): the texts COBOL pads with blanks,
    the list of the objects created, and the buffer of the log.  The Java machine is an
    interface. *)

From stdpp Require Import prelude gmap strings.
From S2P Require Import Prelude Hoare.
Local Open Scope Z_scope.

(** ** Moving a block of a string *)

Definition byte_get (s : bytes) (i : Z) : option Z := if 0 <=? i then s !! Z.to_nat i else None.
Definition byte_put (s : bytes) (i : Z) (b : Z) : option bytes :=
  if (0 <=? i) && (i <? Z.of_nat (length s)) then Some (<[Z.to_nat i:=b]> s) else None.

(** src/javacall.c:524-534 STR_desloca_bloco (to the right): [n] bytes from the last one down. *)
Fixpoint copy_down (n : nat) (origem destino : Z) (s : bytes) : option bytes :=
  match n with
  | O => Some s
  | S n' => b ← byte_get s origem; s ← byte_put s destino b; copy_down n' (origem - 1) (destino - 1) s
  end.

(** src/javacall.c:544-554 STR_desloca_bloco (to the left): from the first one up. *)
Fixpoint copy_up (n : nat) (origem destino : Z) (s : bytes) : option bytes :=
  match n with
  | O => Some s
  | S n' => b ← byte_get s origem; s ← byte_put s destino b; copy_up n' (origem + 1) (destino + 1) s
  end.

(** src/javacall.c:431-559 STR_desloca_bloco : the value returned and the buffer; [None] is an
    access outside it. *)
Definition STR_desloca_bloco (s : bytes) (inicial final deslocamento : Z) : option (Z * bytes) :=
  if deslocamento =? 0 then Some (0, s)
  else
    let final := if final <? inicial then Z.of_nat (strlen s) else final in
    if final <? inicial then Some (1, s)
    else
      let n := Z.to_nat (final - inicial + 1) in
      s' ← (if 0 <? deslocamento then copy_down n (inicial + Z.of_nat n - 1) (inicial + deslocamento + Z.of_nat n - 1) s
            else copy_up n inicial (inicial + deslocamento) s);
      Some (0, s').

(** ** Blanks *)

Definition isspace (b : Z) : bool := (b =? 32) || ((9 <=? b) && (b <=? 13)).

(** src/javacall.c:593-593 trim (the last character that is no blank), from position [j] down. *)
Fixpoint last_nonspace (s : bytes) (j : nat) : option nat :=
  b ← s !! j;
  if isspace b then match j with O => None | S j' => last_nonspace s j' end else Some j.

(** src/javacall.c:580-602 trim (the first one): its position among those from [i] on. *)
Fixpoint first_nonspace (s : bytes) (i : nat) : option nat :=
  match s with
  | [] => None
  | b :: s' => if isspace b then first_nonspace s' (S i) else Some i
  end.

(** src/javacall.c:565-624 trim : whether it returns the string or NULL, and the buffer. *)
Definition trim (s : bytes) : option (bool * bytes) :=
  let tamanho := strlen s in
  match first_nonspace (cstr s) 0 with
  | None => Some (false, s)
  | Some i =>
      j ← last_nonspace s (pred tamanho);
      s ← byte_put s (Z.of_nat j + 1) 0;
      if (i =? 0)%nat then Some (true, s)
      else r ← STR_desloca_bloco s (Z.of_nat i) (Z.of_nat tamanho) (- Z.of_nat i); Some (true, snd r)
  end.

(** The reference: a string without the blanks at its ends. *)
Fixpoint skip_spaces (s : bytes) : bytes :=
  match s with b :: s' => if isspace b then skip_spaces s' else s | [] => [] end.
Definition strip (s : bytes) : bytes := reverse (skip_spaces (reverse (skip_spaces s))).

(** ** The objects *)

(** A list of numbers and references, the last object created first. *)
Notation javaObjeto := (list (Z * Z)) (only parsing).

(** src/javacall.c:314-328 inserir *)
Definition inserir (Linicio : javaObjeto) (obj : Z * Z) : javaObjeto := obj :: Linicio.

(** src/javacall.c:330-341 busca : NULL ([None]) for a number that is not there and for one whose
    object is NULL, which is what [NewObject] leaves when the constructor throws. *)
Fixpoint busca (inicio : javaObjeto) (c : Z) : option Z :=
  match inicio with
  | [] => None
  | (id, obj) :: prox => if id =? c then (if obj =? 0 then None else Some obj) else busca prox c
  end.

(** src/javacall.c:366-375 removeObj (the loop): the first match after the head goes. *)
Fixpoint remove_prox (l : javaObjeto) (c : Z) : javaObjeto :=
  match l with
  | [] => []
  | x :: prox => if fst x =? c then prox else x :: remove_prox prox c
  end.

(** src/javacall.c:352-379 removeObj : an empty list is a null pointer. *)
Definition removeObj (inicio : javaObjeto) (c : Z) : option javaObjeto :=
  match inicio with
  | [] => None
  | x :: prox => Some (if fst x =? c then prox else x :: remove_prox prox c)
  end.

(** ** The calls *)

(** The Java machine: a reference is 0 when there is none. *)
Class Jni (J : Type) := {
  JNI_CreateJavaVM : list bytes → J → J * Z;
  DestroyJavaVM : J → J;
  FindClass : bytes → J → J * Z;
  NewObject : Z → J → J * Z;
  CallMethod : Z → bytes → bytes → bytes → J → J * bytes;
  CallStatic : Z → bytes → bytes → bytes → J → J * bytes;
  escreveLog : bytes → J → J;
}.

(** src/javacall.c:30-46 Linicio : the machine, the list and whether its elements were freed, the
    buffer and the flag. *)
Record java_st (J : Type) := mk_java { ja_vm : J; ja_list : javaObjeto; ja_freed : bool; ja_buff : bytes; ja_debug : bool }.
Arguments mk_java {J}.
Arguments ja_vm {J}.
Arguments ja_list {J}.
Arguments ja_freed {J}.
Arguments ja_buff {J}.
Arguments ja_debug {J}.

Section calls.
Context {J : Type} `{!Jni J}.
Notation st := (java_st J).

Definition on_vm {A} (f : J → J * A) : M st A := λ s,
  let (j, a) := f (ja_vm s) in (mk_java j (ja_list s) (ja_freed s) (ja_buff s) (ja_debug s), inr a).
Definition put_list (l : javaObjeto) : M st unit := modify (λ s, mk_java (ja_vm s) l (ja_freed s) (ja_buff s) (ja_debug s)).

(** The list at [Linicio], whose elements are read. *)
Definition linicio : M st javaObjeto :=
  freed ← gets ja_freed;
  guard_fault (negb freed);;
  gets ja_list.

Definition chamaLog (texto : bytes) : M st unit := on_vm (λ j, (escreveLog texto j, tt)).

(** src/javacall.c:627-633 concatOnbuff : the buffer has 1024 bytes and is never emptied. *)
Definition concatOnbuff (str1 str2 : bytes) : M st bytes :=
  b ← gets ja_buff;
  let b := b ++ cstr str1 ++ cstr str2 in
  guard_fault (length b <? 1024)%nat;;
  modify (λ s, mk_java (ja_vm s) (ja_list s) (ja_freed s) b (ja_debug s));;
  mret b.

(** src/javacall.c:80-84 setDebug *)
Definition setDebug : M st unit := modify (λ s, mk_java (ja_vm s) (ja_list s) (ja_freed s) (ja_buff s) true).

(** src/javacall.c:53-78 carregaJvm : when the machine is not created the message is printed and the
    log is called all the same, through the null pointer [env]. *)
Definition carregaJvm : M st unit :=
  ret ← on_vm (JNI_CreateJavaVM [bs "-Djava.class.path=/u/java/classes"; bs "-Djava.library.path=/u/java/libs"]);
  b ← concatOnbuff (bs "C invoke Java - Versao ") (bs "1");
  guard_fault (0 <=? ret);;
  chamaLog b;;
  chamaLog (bs "JVM CRIADA").

(** src/javacall.c:343-350 liberarec : the elements are freed, and [Linicio] keeps the address of
    the first. *)
Definition liberarec : M st unit :=
  l ← linicio;
  modify (λ s, mk_java (ja_vm s) l (negb (bool_decide (l = []))) (ja_buff s) (ja_debug s)).

(** src/javacall.c:250-258 destroiJvm *)
Definition destroiJvm : M st unit :=
  chamaLog (bs "Destruindo jvm");;
  liberarec;;
  on_vm (λ j, (DestroyJavaVM j, tt)).

(** A parameter without its blanks; NULL is not accepted by the Java machine. *)
Definition trimmed (s : bytes) : M st bytes :=
  r ← of_option (trim s);
  guard_fault (fst r);;
  mret (cstr (snd r)).

(** src/javacall.c:86-123 new : the number of the new object. *)
Definition new (classe : bytes) : M st Z :=
  classe ← trimmed classe;
  debug ← gets ja_debug;
  (if debug : bool then
     chamaLog (bs "Instanciando ");; b ← concatOnbuff (bs "Conteudo param classe: ") classe; chamaLog b
   else mret tt);;
  cls ← on_vm (FindClass classe);
  guard_fault (negb (cls =? 0));;
  o ← on_vm (NewObject cls);
  l ← linicio;
  let id := match l with [] => 1 | (id, _) :: _ => id + 1 end in
  guard_fault (id <? 2 ^ 31);;
  put_list (inserir l (id, o));;
  mret id.

(** src/javacall.c:125-129 freeObj : [id] is the address of the number, not the number. *)
Definition freeObj (id : Z) : M st unit :=
  l ← linicio;
  l ← of_option (removeObj l (s32 id));
  put_list l.

(** src/javacall.c:131-171 chamarMetodo : [objId] and [ret] are addresses too, so that the result
    is never copied to [retorno] unless [ret] is the address 1.  With debug a byte of an
    address is read as a string. *)
Definition chamarMetodo (metodo retorno assinatura parametro : bytes) (ret objId : Z) : M st bytes :=
  metodo ← trimmed metodo;
  assinatura ← trimmed assinatura;
  parametro ← trimmed parametro;
  debug ← gets ja_debug;
  guard_fault (negb debug);;
  l ← linicio;
  o ← of_option (busca l (s32 objId));
  r ← on_vm (CallMethod o metodo assinatura parametro);
  if ret =? 1 then chamaLog (bs "RETORNO: ");; chamaLog retorno;; mret r else mret retorno.

(** src/javacall.c:182-186 chamaStatic (the log of the parameters) *)
Definition log_params (parametro classe assinatura metodo : bytes) : M st unit :=
  chamaLog (bs "Entrou Chama m" ++ [195; 169] ++ bs "todo statico");;
  b ← concatOnbuff (bs "Conteudo param parametro:  ") parametro;
  chamaLog b;;
  b ← concatOnbuff (bs "Conteudo param classe:  ") classe;
  chamaLog b;;
  b ← concatOnbuff (bs "Conteudo assinatura  ") assinatura;
  chamaLog b;;
  b ← concatOnbuff (bs "Conteudo metodo: ") metodo;
  chamaLog b.

(** src/javacall.c:173-248 chamaStatic : the text for a class that does not exist is given to
    the pointer, not to the area of the caller. *)
Definition chamaStatic (parametro classe metodo assinatura retorno : bytes) : M st bytes :=
  parametro ← trimmed parametro;
  classe ← trimmed classe;
  metodo ← trimmed metodo;
  assinatura ← trimmed assinatura;
  debug ← gets ja_debug;
  (if debug : bool then log_params parametro classe assinatura metodo else mret tt);;
  cls ← on_vm (FindClass classe);
  if cls =? 0 then chamaLog (bs "Classe nao encontrada.");; mret retorno
  else
    chamaLog (bs "Chamando metodo");;
    on_vm (CallStatic cls metodo assinatura parametro).

End calls.

(** ** A block moves as [memmove] does *)

Definition moved (s : bytes) (o d n : nat) : bytes := take d s ++ take n (drop o s) ++ drop (d + n) s.

Lemma byte_get_nat s (i : nat) b : s !! i = Some b → byte_get s (Z.of_nat i) = Some b.
Proof. intros H. unfold byte_get. by rewrite (proj2 (Z.leb_le _ _)), Nat2Z.id by lia. Qed.

Lemma byte_put_nat s (i : nat) b : (i < length s)%nat → byte_put s (Z.of_nat i) b = Some (<[i:=b]> s).
Proof. intros H. unfold byte_put. by rewrite (proj2 (Z.leb_le _ _)), (proj2 (Z.ltb_lt _ _)), Nat2Z.id by lia. Qed.

Lemma moved_lookup s o d n k : (o + n ≤ length s)%nat → (d + n ≤ length s)%nat →
  moved s o d n !! k = if decide (d ≤ k < d + n)%nat then s !! (o + (k - d))%nat else s !! k.
Proof.
  intros Ho Hd. unfold moved. assert (length (take d s) = d) as L1 by (rewrite length_take; lia).
  assert (length (take n (drop o s)) = n) as L2 by (rewrite length_take, length_drop; lia).
  destruct (decide (k < d)%nat) as [Hk|Hk].
  - rewrite decide_False by lia. rewrite lookup_app_l by lia. by rewrite lookup_take_lt.
  - rewrite lookup_app_r, L1 by lia. case_decide as Hn.
    + rewrite lookup_app_l by lia. rewrite lookup_take_lt, lookup_drop by lia. done.
    + rewrite lookup_app_r, L2, lookup_drop by lia. f_equal. lia.
Qed.

Lemma copy_up_run n : ∀ o d s, (d ≤ o)%nat → (o + n ≤ length s)%nat → copy_up n (Z.of_nat o) (Z.of_nat d) s = Some (moved s o d n).
Proof.
  induction n as [|n IH]; intros o d s Hd Ho; cbn [copy_up].
  - unfold moved. by rewrite Nat.add_0_r, take_0, app_nil_l, take_drop.
  - destruct (lookup_lt_is_Some_2 s o) as [b Hb]; [lia|]. rewrite (byte_get_nat s o b Hb). cbn [mbind option_bind].
    rewrite byte_put_nat by lia. cbn [mbind option_bind]. replace (Z.of_nat o + 1) with (Z.of_nat (S o)) by lia.
    replace (Z.of_nat d + 1) with (Z.of_nat (S d)) by lia. rewrite IH by (rewrite ?length_insert; lia). f_equal.
    apply list_eq. intros k. rewrite !moved_lookup by (rewrite ?length_insert; lia).
    destruct (decide (k = d)) as [->|Hk].
    + rewrite decide_False, decide_True by lia. rewrite list_lookup_insert_eq by lia. rewrite <-Hb. f_equal. lia.
    + destruct (decide (S d ≤ k < S d + n)%nat) as [?|?].
      * rewrite decide_True by lia. rewrite list_lookup_insert_ne by lia. f_equal. lia.
      * rewrite decide_False by lia. by rewrite list_lookup_insert_ne.
Qed.

Lemma copy_down_run n : ∀ (o d : nat) s, (o ≤ d)%nat → (d + n ≤ length s)%nat →
  copy_down n (Z.of_nat o + Z.of_nat n - 1) (Z.of_nat d + Z.of_nat n - 1) s = Some (moved s o d n).
Proof.
  induction n as [|n IH]; intros o d s Ho Hd; cbn [copy_down].
  - unfold moved. by rewrite Nat.add_0_r, take_0, app_nil_l, take_drop.
  - replace (Z.of_nat o + Z.of_nat (S n) - 1) with (Z.of_nat (o + n)) by lia. replace (Z.of_nat d + Z.of_nat (S n) - 1) with (Z.of_nat (d + n)) by lia.
    destruct (lookup_lt_is_Some_2 s (o + n)) as [b Hb]; [lia|]. rewrite (byte_get_nat s _ b Hb). cbn [mbind option_bind].
    rewrite byte_put_nat by lia. cbn [mbind option_bind]. rewrite !Nat2Z.inj_add, IH by (rewrite ?length_insert; lia). f_equal.
    apply list_eq. intros k. rewrite !moved_lookup by (rewrite ?length_insert; lia).
    destruct (decide (k = d + n)%nat) as [->|Hk].
    + rewrite decide_False, decide_True by lia. rewrite list_lookup_insert_eq by lia. rewrite <-Hb. f_equal. lia.
    + destruct (decide (d ≤ k < d + n)%nat) as [?|?].
      * rewrite decide_True by lia. by rewrite list_lookup_insert_ne by lia.
      * rewrite decide_False by lia. by rewrite list_lookup_insert_ne.
Qed.

(** A block inside the buffer moves in either direction without losing a byte, as the two
    overlap or not; the end of the block is included. *)
Lemma STR_desloca_bloco_moves s (inicial final : nat) deslocamento : (inicial ≤ final < length s)%nat → deslocamento ≠ 0 →
  0 <= Z.of_nat inicial + deslocamento → Z.of_nat final + deslocamento < Z.of_nat (length s) →
  STR_desloca_bloco s (Z.of_nat inicial) (Z.of_nat final) deslocamento =
    Some (0, moved s inicial (Z.to_nat (Z.of_nat inicial + deslocamento)) (final - inicial + 1)).
Proof.
  intros Hif Hd H1 H2. unfold STR_desloca_bloco. rewrite (proj2 (Z.eqb_neq _ _) Hd). cbv zeta.
  assert ((Z.of_nat final <? Z.of_nat inicial) = false) as E by (apply Z.ltb_ge; lia). rewrite !E.
  replace (Z.to_nat (Z.of_nat final - Z.of_nat inicial + 1)) with (final - inicial + 1)%nat by lia.
  set (d := Z.to_nat (Z.of_nat inicial + deslocamento)). assert (Z.of_nat inicial + deslocamento = Z.of_nat d) as Hn by (unfold d; rewrite Z2Nat.id; lia). rewrite Hn.
  destruct (Z.ltb_spec 0 deslocamento).
  - by rewrite copy_down_run by lia.
  - by rewrite copy_up_run by lia.
Qed.

(** ** A string without its blanks *)

Lemma skip_spaces_spec t : ∃ a, t = a ++ skip_spaces t ∧ Forall (λ b, isspace b = true) a ∧
  match skip_spaces t with b :: _ => isspace b = false | [] => True end ∧
  ∀ k, first_nonspace t k = match skip_spaces t with [] => None | _ => Some (k + length a)%nat end.
Proof.
  induction t as [|b t (a & E & Ha & Hh & Hf)]; [by exists []|]. cbn [skip_spaces first_nonspace]. destruct (isspace b) eqn:Hb.
  - exists (b :: a). split; [by rewrite <-app_comm_cons, <-E|]. split; [by constructor|]. split; [done|]. intros k. rewrite Hf.
    destruct (skip_spaces t); [done|]. f_equal. simpl. lia.
  - exists []. split_and!; [done|constructor|done|]. intros k. by rewrite Nat.add_0_r.
Qed.

(** The string, its blanks before and after. *)
Lemma strip_spec t : ∃ a b, t = a ++ strip t ++ b ∧ Forall (λ x, isspace x = true) b ∧
  (strip t = [] ∨ ∃ c x, strip t = c ++ [x] ∧ isspace x = false) ∧
  ∀ k, first_nonspace t k = if decide (strip t = []) then None else Some (k + length a)%nat.
Proof.
  destruct (skip_spaces_spec t) as (a & E & _ & Hh & Hf). unfold strip. set (m := skip_spaces t) in *.
  destruct (skip_spaces_spec (reverse m)) as (b & Eb & Hb & Hh' & _). exists a, (reverse b). set (c := skip_spaces (reverse m)) in *.
  assert (m = reverse c ++ reverse b) as Em by (by rewrite <-reverse_app, <-Eb, reverse_involutive). rewrite <-Em.
  split; [done|]. split; [by apply Forall_reverse|]. split.
  - destruct c as [|x c]; [by left|right]. exists (reverse c), x. by rewrite reverse_cons.
  - intros k. rewrite Hf. destruct (decide (reverse c = [])) as [Hc|Hc].
    + rewrite Hc in Em. cbn [app] in Em. apply Forall_reverse in Hb. rewrite <-Em in Hb. destruct m as [|y m]; [done|].
      apply Forall_cons in Hb as [Hy _]. congruence.
    + destruct m as [|y m]; [|done]. symmetry in Em. by apply app_eq_nil in Em as [? _].
Qed.

Lemma last_nonspace_run u x b rest : isspace x = false → Forall (λ y, isspace y = true) b →
  last_nonspace (u ++ [x] ++ b ++ rest) (length u + length b) = Some (length u).
Proof.
  intros Hx Hb. revert rest. induction b as [|y b IH] using rev_ind; intros rest.
  - rewrite Nat.add_0_r. destruct (length u) as [|n] eqn:En; cbn [last_nonspace].
    + apply length_zero_iff_nil in En as ->. cbn. by rewrite Hx.
    + rewrite <-En, lookup_app_r, Nat.sub_diag by lia. cbn. by rewrite Hx.
  - apply Forall_app in Hb as [Hb [Hy _]%Forall_cons]. rewrite length_app. cbn [length].
    replace (length u + (length b + 1))%nat with (S (length u + length b)) by lia. cbn [last_nonspace].
    rewrite <-app_assoc. rewrite lookup_app_r by lia. rewrite lookup_app_r by (simpl; lia). cbn [length].
    rewrite lookup_app_r by lia. replace (S (length u + length b) - length u - 1 - length b)%nat with 0%nat by lia.
    cbn. rewrite Hy. apply IH. done.
Qed.

Lemma cstr_split s : 0 ∈ s → ∃ rest, s = cstr s ++ 0 :: rest ∧ 0 ∉ cstr s.
Proof.
  induction s as [|b s IH]; [by intros ?%elem_of_nil|]. intros H. cbn [cstr]. destruct (Z.eqb_spec b 0) as [->|Hb].
  - exists s. split; [done|]. apply not_elem_of_nil.
  - apply elem_of_cons in H as [H|(rest & E & Hn)%IH]; [congruence|]. exists rest. rewrite <-app_comm_cons, <-E. split; [done|].
    apply not_elem_of_cons. by split; [congruence|].
Qed.

Lemma cstr_app_nul u rest : 0 ∉ u → cstr (u ++ 0 :: rest) = u.
Proof.
  induction u as [|b u IH]; [done|]. intros [Hb Hu]%not_elem_of_cons. cbn [app cstr].
  rewrite (proj2 (Z.eqb_neq b 0)) by congruence. by rewrite IH.
Qed.

(** [trim] answers NULL for a string of blanks only and leaves it as it was; any other string
    loses exactly the blanks at both ends, inside its own buffer. *)
Theorem trim_strips s : 0 ∈ s →
  if decide (strip (cstr s) = []) then trim s = Some (false, s)
  else ∃ s', trim s = Some (true, s') ∧ cstr s' = strip (cstr s) ∧ length s' = length s.
Proof.
  intros (rest & Es & Hn)%cstr_split. destruct (strip_spec (cstr s)) as (a & b & Et & Hb & Hend & Hf). unfold trim.
  rewrite Hf. destruct (decide (strip (cstr s) = [])) as [Hc|Hc]; [done|]. destruct Hend as [?|(c & x & Ec & Hx)]; [done|].
  rewrite Nat.add_0_l. set (t := strip (cstr s)) in *. set (i := length a).
  assert (strlen s = i + length t + length b)%nat as Hl by (unfold strlen; rewrite Et, !length_app; lia).
  assert (length s = i + length t + length b + 1 + length rest)%nat as Hls.
  { rewrite Es, Et, !length_app. simpl. lia. }
  assert (length t = S (length c)) as Hlt by (rewrite Ec, length_app; simpl; lia).
  assert (last_nonspace s (pred (strlen s)) = Some (i + length c)%nat) as ->.
  { replace (pred (strlen s)) with (length (a ++ c) + length b)%nat by (rewrite Hl, length_app; unfold i; lia).
    rewrite Es, Et, Ec, <-!app_assoc, (app_assoc a c). rewrite last_nonspace_run by done. by rewrite length_app. }
  cbn [mbind option_bind]. replace (Z.of_nat (i + length c) + 1) with (Z.of_nat (i + length t)) by lia.
  rewrite byte_put_nat by lia. cbn [mbind option_bind]. set (s1 := <[(i + length t)%nat:=0]> s).
  assert (0 ∉ t) as Hnt by (rewrite Et in Hn; rewrite !not_elem_of_app in Hn; tauto).
  assert (0 ∉ a) as Hna by (rewrite Et in Hn; rewrite !not_elem_of_app in Hn; tauto).
  assert (∃ r1, s1 = a ++ t ++ 0 :: r1) as [r1 E1].
  { exists (drop (S (i + length t)) s). unfold s1. rewrite insert_take_drop by lia. rewrite Es at 1. rewrite Et at 1.
    rewrite <-!app_assoc, (app_assoc a t), take_app_length' by (rewrite length_app; unfold i; lia). by rewrite <-app_assoc. }
  assert (length s1 = length s) as L1 by apply length_insert.
  destruct (Nat.eqb_spec i 0) as [Hi|Hi].
  - exists s1. split; [done|]. split; [|done]. apply length_zero_iff_nil in Hi as ->. rewrite E1. by apply cstr_app_nul.
  - rewrite Hl, STR_desloca_bloco_moves by lia. eexists. split; [done|]. cbn [snd].
    replace (Z.to_nat (Z.of_nat i + - Z.of_nat i)) with 0%nat by lia. split.
    + unfold moved. rewrite take_0, app_nil_l. assert (drop i s1 = t ++ 0 :: r1) as -> by (rewrite E1; apply drop_app_length).
      replace (i + length t + length b - i + 1)%nat with (length t + S (length b))%nat by lia.
      rewrite take_app_add. cbn [take]. rewrite <-app_assoc. by apply cstr_app_nul.
    + unfold moved. rewrite !length_app, !length_take, !length_drop. lia.
Qed.

Lemma trim_strips_witness : ∃ s', trim (bs "  java/lang/String   " ++ [0]) = Some (true, s') ∧
  cstr s' = bs "java/lang/String" ∧ length s' = 22%nat.
Proof. apply (trim_strips (bs "  java/lang/String   " ++ [0])). apply (bool_decide_unpack _). by vm_compute. Defined.

(** ** The numbers of the objects *)

Definition numbers (l : javaObjeto) : list Z := l.*1.

(** The numbers go down from the last object created. *)
Inductive numbered : list Z → Prop :=
  | numbered_nil : numbered []
  | numbered_cons n l : 0 < n → Forall (λ m, m < n) l → numbered l → numbered (n :: l).
#[local] Hint Constructors numbered : core.

Lemma remove_prox_spec l c : numbered (numbers l) →
  remove_prox l c = filter (λ x, fst x ≠ c) l ∧ numbered (numbers (remove_prox l c)).
Proof.
  induction l as [|[n o] l IH]; [done|]. intros H. inversion H as [|? ? Hp Hlt Hn]; subst. destruct (IH Hn) as [E Hok].
  cbn [remove_prox fst]. rewrite filter_cons. cbn [fst]. destruct (Z.eqb_spec n c) as [->|Hc].
  - rewrite decide_False by (intros []; done). split; [|done]. symmetry. apply filter_all. apply Forall_fmap in Hlt.
    eapply Forall_impl; [exact Hlt|]. intros [m o'] Hm. unfold compose in *. cbn in *. lia.
  - rewrite decide_True by done. split; [by f_equal|]. change (numbers ((n, o) :: remove_prox l c)) with (n :: numbers (remove_prox l c)).
    constructor; [done| |done]. rewrite E. apply Forall_fmap, Forall_forall. intros x [_ Hx]%list_elem_of_filter.
    rewrite Forall_forall in Hlt. unfold compose. apply Hlt. by apply list_elem_of_fmap_2.
Qed.

Lemma removeObj_spec l c l' : numbered (numbers l) → removeObj l c = Some l' →
  l' = filter (λ x, fst x ≠ c) l ∧ numbered (numbers l').
Proof.
  intros H E. assert (l' = remove_prox l c) as ->; [|by apply remove_prox_spec].
  destruct l as [|[n o] l]; [done|]. cbn in E. injection E as <-. done.
Qed.

Lemma busca_spec l n o : numbered (numbers l) → busca l n = Some o ↔ (n, o) ∈ l ∧ o ≠ 0.
Proof.
  induction l as [|[m o'] l IH]; [split; [done|by intros [?%elem_of_nil _]]|]. intros H. inversion H as [|? ? Hp Hlt Hn]; subst. cbn [busca].
  rewrite elem_of_cons. destruct (Z.eqb_spec m n) as [->|Hne].
  - assert ((n, o) ∈ l → False) as Hno.
    { intros Hin. rewrite Forall_forall in Hlt. apply (list_elem_of_fmap_2 fst) in Hin. apply Hlt in Hin. cbn in Hin. lia. }
    destruct (Z.eqb_spec o' 0) as [->|Ho].
    + split; [done|]. intros [[[= ->]|Hin] ?]; [done|by destruct Hno].
    + split; [intros [= ->]; by split; [left|]|]. intros [[[= ->]|Hin] _]; [done|by destruct Hno].
  - rewrite IH by done. split; [intros [? ?]; split; [by right|done]|]. intros [[[= -> ->]|?] ?]; done.
Qed.

Section objects.
Context {J : Type} `{!Jni J}.
Notation st := (java_st J).

Lemma linicio_run (s : st) : ja_freed s = false → linicio s = (s, inr (ja_list s)).
Proof. intros H. unfold linicio. by rewrite (bind_ok _ _ _ _ _ (gets_run _ _)), H. Qed.

Lemma linicio_freed (s : st) : ja_freed s = true → linicio s = (s, inl Fault).
Proof. intros H. unfold linicio. by rewrite (bind_ok _ _ _ _ _ (gets_run _ _)), H. Qed.

Lemma linicio_inv (s s' : st) l : linicio s = (s', inr l) → ja_freed s = false ∧ s' = s ∧ l = ja_list s.
Proof.
  destruct (ja_freed s) eqn:E; [by rewrite linicio_freed|]. rewrite linicio_run by done. by intros [= <- <-].
Qed.

(** The calls that leave the list alone. *)
Definition same_list (l : javaObjeto * bool) (s : st) : Prop := (ja_list s, ja_freed s) = l.

Lemma keeps_vm {A} l (f : J → J * A) : keeps (same_list l) (on_vm f) (λ _, True).
Proof. intros s s' a Hs. unfold on_vm. destruct (f (ja_vm s)). by intros [= <- _]. Qed.

Lemma keeps_concat l x y : keeps (same_list l) (concatOnbuff x y) (λ _, True).
Proof.
  eapply keeps_bind; [by apply (keeps_gets _ _ (λ _, True))|]. intros b _. eapply keeps_bind; [apply keeps_guard|]. intros _ _.
  eapply keeps_bind; [by apply keeps_modify|]. intros _ _. by apply keeps_ret.
Qed.

Lemma keeps_trimmed l x : keeps (same_list l) (trimmed x) (λ _, True).
Proof.
  eapply keeps_bind; [by apply (keeps_option _ _ (λ _, True))|]. intros r _. eapply keeps_bind; [apply keeps_guard|]. intros _ _.
  by apply keeps_ret.
Qed.

Lemma numbered_next l n : numbered (numbers l) → n = match l with [] => 1 | (id, _) :: _ => id + 1 end →
  n ∉ numbers l ∧ ∀ o, numbered (numbers (inserir l (n, o))).
Proof.
  intros Hok ->. set (n := match l with [] => 1 | (id, _) :: _ => id + 1 end).
  assert (0 < n ∧ Forall (λ m, m < n) (numbers l)) as [Hp Hlt].
  { unfold n. destruct l as [|[m o'] l]; [by split|]. inversion Hok as [|? ? Hm Hall _]; subst. split; [lia|].
    change (Forall (λ x, x < m + 1) (m :: numbers l)). constructor; [lia|]. eapply Forall_impl; [exact Hall|]. cbn. lia. }
  split; [|intros o; by constructor]. rewrite Forall_forall in Hlt. intros H%Hlt. lia.
Qed.

(** A new object gets a number no other has. *)
Lemma new_number l f classe : numbered (numbers l) →
  hoare (same_list (l, f)) (new classe) (λ n s, f = false ∧ n ∉ numbers l ∧ numbered (numbers (ja_list s)) ∧ ∃ o, ja_list s = (n, o) :: l).
Proof.
  intros Hok. eapply hoare_bind; [apply keeps_trimmed|]. intros c. apply (hoare_weaken _ (same_list (l, f))); [|by intros s [? _]].
  eapply hoare_bind; [apply hoare_gets|]. intros debug.
  eapply hoare_bind; [apply (keeps_if _ _ _ _ (λ _, True)); intros _; [|by apply keeps_ret]|].
  { eapply keeps_bind; [apply keeps_vm|]. intros _ _. eapply keeps_bind; [apply keeps_concat|]. intros b _. apply keeps_vm. }
  intros ?. eapply hoare_bind; [eapply hoare_weaken; [apply (keeps_vm (l, f))|by intros s [? _]]|]. intros cls.
  eapply hoare_bind; [eapply hoare_weaken; [apply keeps_guard|by intros s [? _]]|]. intros ?.
  eapply hoare_bind; [eapply hoare_weaken; [apply keeps_vm|by intros s [? _]]|]. intros o.
  intros s s' n [Hs _] E. apply bind_inv in E as (s0 & l0 & Hl & E). destruct (linicio_inv _ _ _ Hl) as (Hf & -> & ->). injection Hs as Hs Hs2. rewrite Hs in E.
  apply bind_inv in E as (s1 & u & Hg & E). unfold put_list in E.
  rewrite (bind_ok _ _ _ _ _ (modify_run _ _)) in E. injection E as <- <-. cbn [ja_list].
  destruct (numbered_next l _ Hok eq_refl) as [H1 H2]. split; [congruence|]. split; [done|]. split; [apply H2|by eexists].
Qed.

(** C36: The objects are numbered without repetition: from a numbered list [new] gives a number that
    no object has, a removal takes away the object of that number and no other, both leave a
    numbered list, and [busca] finds an object exactly when it is there and is not a null reference, for which it
    answers as for a number that is not there. *)
Theorem java_objects (s : st) : numbered (numbers (ja_list s)) →
  (∀ classe s' n, new classe s = (s', inr n) →
    n ∉ numbers (ja_list s) ∧ numbered (numbers (ja_list s')) ∧ ∃ o, ja_list s' = (n, o) :: ja_list s) ∧
  (∀ c l', removeObj (ja_list s) c = Some l' → l' = filter (λ x, fst x ≠ c) (ja_list s) ∧ numbered (numbers l')) ∧
  (∀ n o, busca (ja_list s) n = Some o ↔ (n, o) ∈ ja_list s ∧ o ≠ 0).
Proof.
  intros Hok. split; [|split; [by intros c l'; apply removeObj_spec|by intros n o; apply busca_spec]].
  intros classe s' n E. by apply (new_number (ja_list s) (ja_freed s) classe Hok s).
Qed.

Lemma busca_none l c : Forall (λ x, fst x ≠ c) l → busca l c = None.
Proof. induction 1 as [|[n o] l Hn _ IH]; [done|]. cbn in *. by rewrite (proj2 (Z.eqb_neq _ _) Hn). Qed.

Lemma remove_prox_none l c : Forall (λ x, fst x ≠ c) l → remove_prox l c = l.
Proof. induction 1 as [|[n o] l Hn _ IH]; [done|]. cbn in *. by rewrite (proj2 (Z.eqb_neq _ _) Hn), IH. Qed.

Lemma trimmed_run x (s : st) y : trim x = Some (true, y) → trimmed x s = (s, inr (cstr y)).
Proof. intros H. unfold trimmed. rewrite H. done. Qed.

(** The program passes the address of an object's number where the list wants the number:
    unless the address happens to be a number in use, [freeObj] releases nothing and
    [chamarMetodo] calls the method of a null reference. *)
Theorem java_handles_lost (s : st) address m m' a a' p p' retorno ret : ja_freed s = false → ja_list s ≠ [] →
  Forall (λ x, fst x ≠ s32 address) (ja_list s) → trim m = Some (true, m') → trim a = Some (true, a') → trim p = Some (true, p') →
  freeObj address s = (s, inr tt) ∧ chamarMetodo m retorno a p ret address s = (s, inl Fault).
Proof.
  intros Hfr Hne Hall Hm Ha Hp. split.
  - unfold freeObj. rewrite (bind_ok _ _ _ _ _ (linicio_run _ Hfr)). assert (removeObj (ja_list s) (s32 address) = Some (ja_list s)) as ->.
    { destruct (ja_list s) as [|[n o] l] eqn:E; [done|]. apply Forall_cons in Hall as [Hn Hl]. cbn in *.
      by rewrite (proj2 (Z.eqb_neq _ _) Hn), remove_prox_none. }
    destruct s. done.
  - unfold chamarMetodo. rewrite (bind_ok _ _ _ _ _ (trimmed_run _ _ _ Hm)), (bind_ok _ _ _ _ _ (trimmed_run _ _ _ Ha)),
      (bind_ok _ _ _ _ _ (trimmed_run _ _ _ Hp)), (bind_ok _ _ _ _ _ (gets_run _ _)).
    destruct (ja_debug s); [done|]. cbn [negb guard_fault]. rewrite (bind_ok _ _ s s tt) by done.
    rewrite (bind_ok _ _ _ _ _ (linicio_run _ Hfr)). by rewrite busca_none.
Qed.

(** The end of the machine frees the objects that are left and forgets none: after it no object is made
    and none is released, for the list is read after it was freed, and a second end does so too;
    without objects the list is as good as new. *)
Theorem java_after_end (s s' : st) : numbered (numbers (ja_list s)) → destroiJvm s = (s', inr tt) →
  (ja_list s ≠ [] → (∀ c s2 n, new c s' ≠ (s2, inr n)) ∧ (∀ n, freeObj n s' = (s', inl Fault)) ∧ snd (destroiJvm s') = inl Fault) ∧
  (ja_list s = [] → ja_list s' = [] ∧ ja_freed s' = false).
Proof.
  intros Hok E. unfold destroiJvm in E. apply bind_inv in E as (s1 & [] & E1 & E). apply bind_inv in E as (s2 & [] & E2 & E3).
  unfold liberarec in E2. apply bind_inv in E2 as (s1' & l & Hl & E2). destruct (linicio_inv _ _ _ Hl) as (_ & -> & ->).
  injection E1 as <-. injection E2 as <-. injection E3 as <-. cbn [ja_vm ja_list ja_freed ja_buff ja_debug].
  split; [|intros ->; done]. intros Hne. rewrite (bool_decide_false _ Hne). set (s' := mk_java _ _ _ _ _). split; [|split].
  - intros c s2 n E. by destruct (new_number (ja_list s) true c Hok s' s2 n eq_refl E).
  - intros n. unfold freeObj. by rewrite (bind_err _ _ _ _ _ (linicio_freed s' eq_refl)).
  - done.
Qed.

(** The texts the calls add to the buffer of the log. *)
Definition concat_all (l : list (bytes * bytes)) : M st unit := foldr (λ x m, concatOnbuff (fst x) (snd x);; m) (mret tt) l.

(** The buffer of the log is never emptied: calls whose texts add up to its 1024 bytes, over
    the life of the process, write past its end. *)
Theorem concat_overflow l (s : st) : (length (ja_buff s) < 1024)%nat →
  (1024 ≤ length (ja_buff s) + sum_list_with (λ x, strlen (fst x) + strlen (snd x)) l)%nat →
  snd (concat_all l s) = inl Fault.
Proof.
  revert s. induction l as [|[x y] l IH]; intros s Hb Hl; cbn [sum_list_with] in Hl; [lia|]. cbn [concat_all foldr fst snd] in *. fold (concat_all l).
  unfold concatOnbuff. unfold strlen in Hl. set (b := ja_buff s ++ cstr x ++ cstr y).
  assert (length b = length (ja_buff s) + (length (cstr x) + length (cstr y)))%nat as Hlb by (unfold b; rewrite !length_app; lia).
  destruct (Nat.ltb_spec (length b) 1024) as [Hlt|Hge].
  - erewrite bind_ok.
    2:{ rewrite (bind_ok _ _ _ _ _ (gets_run _ _)). fold b. rewrite (proj2 (Nat.ltb_lt _ _) Hlt). cbn [guard_fault].
        rewrite (bind_ok _ _ s s tt) by done. rewrite (bind_ok _ _ _ _ _ (modify_run _ _)). done. }
    apply IH; cbn [ja_buff]; [done|]. unfold strlen. lia.
  - erewrite bind_err; [done|]. rewrite (bind_ok _ _ _ _ _ (gets_run _ _)). fold b. rewrite (proj2 (Nat.ltb_ge _ _) Hge). done.
Qed.

End objects.

(** ** A Java machine in memory *)

(** The names of the classes of the objects; a method answers with its parameter. *)
#[local] Instance ex_jni : Jni (list bytes) := {|
  JNI_CreateJavaVM o j := (j, 0);
  DestroyJavaVM j := [];
  FindClass c j := (j, if bool_decide (c = []) then 0 else Z.of_nat (length c));
  NewObject c j := (bs "objeto" :: j, 4096 + Z.of_nat (length j));
  CallMethod o m a p j := (j, p);
  CallStatic c m a p j := (j, p);
  escreveLog t j := j;
|}.

Definition ex_java : java_st (list bytes) := mk_java [bs "objeto"; bs "objeto"] [(2, 4097); (1, 4096)] false [] false.
Definition ex_padded (s : bytes) : bytes := s ++ replicate (20 - length s) 32 ++ [0].

Lemma ex_numbered : numbered (numbers (ja_list ex_java)).
Proof. repeat constructor. Qed.

Lemma java_objects_witness : numbered (numbers (ja_list ex_java)) ∧
  ((∀ classe s' n, new classe ex_java = (s', inr n) →
    n ∉ numbers (ja_list ex_java) ∧ numbered (numbers (ja_list s')) ∧ ∃ o, ja_list s' = (n, o) :: ja_list ex_java) ∧
  (∀ c l', removeObj (ja_list ex_java) c = Some l' → l' = filter (λ x, fst x ≠ c) (ja_list ex_java) ∧ numbered (numbers l')) ∧
  (∀ n o, busca (ja_list ex_java) n = Some o ↔ (n, o) ∈ ja_list ex_java ∧ o ≠ 0)).
Proof. split; [exact ex_numbered|]. apply (java_objects ex_java). exact ex_numbered. Defined.

Example ex_new : new (ex_padded (bs "java/lang/String")) ex_java =
  (mk_java [bs "objeto"; bs "objeto"; bs "objeto"] [(3, 4098); (2, 4097); (1, 4096)] false [] false, inr 3).
Proof. by vm_compute. Qed.

Lemma java_handles_lost_witness : freeObj 140734193991744 ex_java = (ex_java, inr tt) ∧
  chamarMetodo (ex_padded (bs "length")) [] (ex_padded (bs "()I")) (ex_padded (bs "x")) 0 140734193991744 ex_java = (ex_java, inl Fault).
Proof.
  eapply java_handles_lost; [done|done| |by vm_compute..]. repeat constructor; done.
Defined.

Lemma java_after_end_witness : ∃ s', destroiJvm ex_java = (s', inr tt) ∧ freeObj 1 s' = (s', inl Fault).
Proof.
  eexists. split; [done|]. apply (java_after_end ex_java _ ex_numbered eq_refl). done.
Defined.

Example ex_machine : snd (carregaJvm ex_java) = inr tt.
Proof. by vm_compute. Qed.

Lemma concat_overflow_witness :
  snd (concat_all (replicate 40 (bs "Conteudo param classe: ", bs "java/lang/String")) ex_java) = inl Fault.
Proof. apply (concat_overflow (replicate 40 (bs "Conteudo param classe: ", bs "java/lang/String")) ex_java); vm_compute; lia. Defined.
