(* ===== verification/Split.v ===== *)
(** Splitting a file of variable records into text files of bounded size (src/split.c). *)

From stdpp Require Import prelude gmap strings.
From S2P Require Import Prelude Fhtypes.
Local Open Scope Z_scope.

(** ** The program *)

(** [read(fd, buf, n)]: the bytes go to the beginning of the buffer, the rest of it stays. *)
Definition read_into (n : nat) (input buf : bytes) : bytes * bytes := (drop n input, blit buf 0 (take n input)).

(** src/split.c:30-32 split (the name of a piece) *)
Definition splitname (filename : bytes) (seq : nat) : bytes :=
  filename ++ bs "_" ++ (if (seq <? 10)%nat then bs "0" else []) ++ fmt_d (Z.of_nat seq).

(** [write(fdout, ..)] to the file opened last; without one the bytes are lost. *)
Definition write_last (outs : list (bytes * bytes)) (b : bytes) : list (bytes * bytes) :=
  match reverse outs with
  | (n, f) :: rest => reverse rest ++ [(n, f ++ b)]
  | [] => []
  end.

(** src/split.c:25-40 split (the loop): the files written so far with their names; the limit
    [MAXSZ] is a parameter. *)
Fixpoint split_loop (MAXSZ : Z) (fuel : nat) (filename input buf : bytes) (outs : list (bytes * bytes)) (sz : Z) : option (list (bytes * bytes)) :=
  match fuel with
  | O => None
  | S fuel' =>
      if (length (take 2 input) <? 2)%nat then Some outs
      else
        let '(input, buf) := read_into 2 input buf in
        let reclen := byte_at buf 1 in
        let name := splitname filename (S (length outs)) in
        p ← (if MAXSZ <? sz + reclen then if (length name <=? 256)%nat then Some (outs ++ [(name, [])], 0) else None else Some (outs, sz));
        let '(outs, sz) := p in
        let '(input, buf) := read_into (Z.to_nat reclen) input buf in
        split_loop MAXSZ fuel' filename input buf (write_last outs (take (Z.to_nat reclen) buf ++ [10])) (sz + reclen + 1)
  end.

(** src/split.c:8-44 split : [None] when the file is not opened or is not of the format, with
    its contents, and what the buffer had before. *)
Definition split_with (MAXSZ : Z) (fuel : nat) (filename : bytes) (contents : option bytes) (buf : bytes) : option (list (bytes * bytes)) :=
  input ← contents;
  if (128 <=? length input)%nat && memeq input (bs "0~") 2 then
    let '(input, buf) := read_into 128 input buf in
    split_loop MAXSZ fuel filename input buf [] MAXSZ
  else None.

(** src/split.c:9-9 split (the limit): a gigabyte. *)
Definition MAXSZ : Z := 1024 * 1024 * 1024.

Definition split (fuel : nat) := split_with MAXSZ fuel.

(** ** The pieces *)

(** A record of the file: two bytes, the second its length, and the data. *)
Definition record_ok (r : Z * bytes) : Prop := (0 < length (snd r) < 256)%nat.
Definition record_bytes (r : Z * bytes) : bytes := [fst r; Z.of_nat (length (snd r))] ++ snd r.
Definition lines_of (rs : list (Z * bytes)) : bytes := mjoin ((λ r, snd r ++ [10]) <$> rs).

Lemma lines_of_snoc rs r : lines_of (rs ++ [r]) = lines_of rs ++ snd r ++ [10].
Proof. unfold lines_of. rewrite fmap_app, join_app. cbn. by rewrite app_nil_r. Qed.

Lemma write_last_snoc outs n f b : write_last (outs ++ [(n, f)]) b = outs ++ [(n, f ++ b)].
Proof. unfold write_last. rewrite reverse_app. change (reverse [(n, f)]) with [(n, f)]. cbn [app]. by rewrite reverse_involutive. Qed.

(** The pieces with their names, numbered from one. *)
Definition pieces (filename : bytes) (parts : list (list (Z * bytes))) : list (bytes * bytes) :=
  imap (λ i p, (splitname filename (S i), lines_of p)) parts.

Lemma pieces_snoc filename parts p :
  pieces filename (parts ++ [p]) = pieces filename parts ++ [(splitname filename (S (length parts)), lines_of p)].
Proof. unfold pieces. rewrite imap_app. cbn. by rewrite Nat.add_0_r. Qed.

Lemma pieces_length filename parts : length (pieces filename parts) = length parts.
Proof. apply length_imap. Qed.

Lemma read_record r rest buf : (257 ≤ length buf)%nat → record_ok r →
  read_into 2 (record_bytes r ++ rest) buf = (snd r ++ rest, blit buf 0 [fst r; Z.of_nat (length (snd r))]) ∧
  byte_at (blit buf 0 [fst r; Z.of_nat (length (snd r))]) 1 = Z.of_nat (length (snd r)) ∧
  ∃ buf', read_into (length (snd r)) (snd r ++ rest) (blit buf 0 [fst r; Z.of_nat (length (snd r))]) = (rest, buf') ∧
    take (length (snd r)) buf' = snd r ∧ (257 ≤ length buf')%nat.
Proof.
  intros Hb Hr. unfold record_ok in Hr. split; [done|]. split; [by destruct buf|]. eexists. unfold read_into.
  rewrite drop_app_length, take_app_length. split; [done|]. split.
  - unfold blit at 1. rewrite take_0, app_nil_l. apply take_app_length.
  - rewrite !blit_length; [done|simpl; lia|]. rewrite blit_length by (simpl; lia). lia.
Qed.

(** The piece being written, and its size in [sz]. *)
Definition at_end (limit : Z) (parts : list (list (Z * bytes))) (sz : Z) : Prop :=
  (parts = [] ∧ sz = limit) ∨ ∃ ps p, parts = ps ++ [p] ∧ sz = Z.of_nat (length (lines_of p)).

Definition piece_fits (limit : Z) (p : list (Z * bytes)) : Prop := p ≠ [] ∧ Z.of_nat (length (lines_of p)) <= limit + 1.

Lemma split_loop_run limit filename : 255 <= limit → ∀ rs fuel buf parts sz, Forall record_ok rs → (length rs < fuel)%nat →
  (257 ≤ length buf)%nat → (∀ i, (i ≤ length parts + length rs)%nat → (length (splitname filename i) ≤ 256)%nat) →
  Forall (piece_fits limit) parts → at_end limit parts sz →
  ∃ parts', split_loop limit fuel filename (mjoin (record_bytes <$> rs)) buf (pieces filename parts) sz = Some (pieces filename parts') ∧
    mjoin parts' = mjoin parts ++ rs ∧ Forall (piece_fits limit) parts'.
Proof.
  intros Hlim rs. induction rs as [|r rs IH]; intros [|fuel] buf parts sz Hrs Hf Hb Hn Hp Hat; try (simpl in Hf; lia); cbn [split_loop].
  - exists parts. by rewrite app_nil_r.
  - apply Forall_cons in Hrs as [Hr Hrs]. change (mjoin (record_bytes <$> r :: rs)) with (record_bytes r ++ mjoin (record_bytes <$> rs)).
    destruct (read_record r (mjoin (record_bytes <$> rs)) buf Hb Hr) as (E1 & E2 & buf' & E3 & E4 & Hb').
    change (length (take 2 (record_bytes r ++ mjoin (record_bytes <$> rs))) <? 2)%nat with false. cbv iota. rewrite E1, E2. cbv beta iota zeta.
    rewrite Nat2Z.id. unfold record_ok in Hr.
    assert (∀ ps p sz', sz' = Z.of_nat (length (lines_of p)) → sz' + Z.of_nat (length (snd r)) <= limit → Forall (piece_fits limit) ps →
      (length ps ≤ length parts)%nat → mjoin (ps ++ [p]) = mjoin parts →
      ∃ parts', split_loop limit fuel filename (mjoin (record_bytes <$> rs)) buf'
        (write_last (pieces filename (ps ++ [p])) (take (length (snd r)) buf' ++ [10])) (sz' + Z.of_nat (length (snd r)) + 1) =
          Some (pieces filename parts') ∧ mjoin parts' = mjoin parts ++ r :: rs ∧ Forall (piece_fits limit) parts') as Hgo.
    { intros ps p sz' -> Hle Hps Hlen Hj. rewrite E4, pieces_snoc, write_last_snoc, <-lines_of_snoc, <-pieces_snoc.
      destruct (IH fuel buf' (ps ++ [p ++ [r]]) (Z.of_nat (length (lines_of (p ++ [r]))))) as (parts' & E & Hj' & Hp'); try done.
      - simpl in Hf. lia.
      - intros i Hi. apply Hn. rewrite length_app in Hi. simpl in *. lia.
      - apply Forall_app. split; [done|]. constructor; [|done]. split; [by destruct p|]. rewrite lines_of_snoc, !length_app. simpl. lia.
      - right. by eexists _, _.
      - exists parts'. split; [|split; [|done]].
        + rewrite <-E. f_equal. rewrite lines_of_snoc, !length_app. simpl. lia.
        + rewrite Hj', <-Hj, !join_app. cbn. by rewrite !app_nil_r, <-!app_assoc. }
    destruct (Z.ltb_spec limit (sz + Z.of_nat (length (snd r)))) as [Hlt|Hge].
    + rewrite pieces_length. assert (length (splitname filename (S (length parts))) ≤ 256)%nat as Hname by (apply Hn; simpl; lia).
      rewrite (proj2 (Nat.leb_le _ _) Hname). cbn [mbind option_bind]. cbv beta iota zeta. rewrite E3. cbv beta iota.
      change [(splitname filename (S (length parts)), [])] with [(splitname filename (S (length parts)), lines_of [])]. rewrite <-pieces_snoc.
      apply (Hgo parts [] 0); [done|lia|done|done|]. by rewrite join_app, app_nil_r.
    + cbn [mbind option_bind]. cbv beta iota zeta. rewrite E3. cbv beta iota. destruct Hat as [[-> ->]|(ps & p & -> & ->)]; [lia|].
      apply Forall_app in Hp as [Hps _]. apply Hgo; try done. rewrite length_app. lia.
Qed.

(** C25: A file of records of 1 to 255 bytes is split into text files, in order, each with whole
    records and at most a byte more than the limit: the records of the pieces one after the
    other are those of the file, a line each. *)
Theorem split_pieces limit filename header buf rs fuel : 255 <= limit → length header = 128%nat → memeq header (bs "0~") 2 = true →
  (257 ≤ length buf)%nat → Forall record_ok rs → (length rs < fuel)%nat →
  (∀ i, (i ≤ length rs)%nat → (length (splitname filename i) ≤ 256)%nat) →
  ∃ parts, split_with limit fuel filename (Some (header ++ mjoin (record_bytes <$> rs))) buf = Some (pieces filename parts) ∧
    mjoin parts = rs ∧ Forall (piece_fits limit) parts.
Proof.
  intros Hlim Hh Hm Hb Hrs Hf Hn. unfold split_with. cbn [mbind option_bind].
  rewrite length_app, (proj2 (Nat.leb_le _ _)) by lia.
  assert (memeq (header ++ mjoin (record_bytes <$> rs)) (bs "0~") 2 = true) as ->.
  { unfold memeq, memcmp in *. by rewrite take_app_le by lia. }
  cbn [andb]. unfold read_into. rewrite drop_app_length', take_app_length' by done.
  destruct (split_loop_run limit filename Hlim rs fuel (blit buf 0 header) [] limit Hrs Hf) as (parts & E & Hj & Hp).
  - rewrite blit_length by lia. lia.
  - done.
  - constructor.
  - by left.
  - by exists parts.
Qed.

(** Three records and a limit of 255 bytes: the third goes to a second piece. *)
Definition ex_records3 : list (Z * bytes) := [(64, replicate 100 65); (64, replicate 120 66); (64, replicate 60 67)].

Lemma split_pieces_witness : ∃ parts,
  split_with 255 4 (bs "dados") (Some ((bs "0~" ++ replicate 126 0) ++ mjoin (record_bytes <$> ex_records3))) (replicate 300 0) = Some (pieces (bs "dados") parts) ∧
  mjoin parts = ex_records3 ∧ Forall (piece_fits 255) parts.
Proof.
  apply (split_pieces 255 (bs "dados") (bs "0~" ++ replicate 126 0) (replicate 300 0) ex_records3 4).
  - done.
  - done.
  - done.
  - rewrite length_replicate. lia.
  - repeat constructor; simpl; lia.
  - simpl. lia.
  - intros i Hi. do 4 (destruct i as [|i]; [apply Nat.leb_le; by vm_compute|]). simpl in Hi. lia.
Defined.

Example ex_split :
  (λ p, (fst p, length (snd p))) <$> default [] (split_with 255 4 (bs "dados") (Some (bs "0~" ++ replicate 126 0 ++ mjoin (record_bytes <$> ex_records3))) (replicate 300 0)) =
    [(bs "dados_01", 222%nat); (bs "dados_02", 61%nat)].
Proof. by vm_compute. Qed.
