(* ===== verification/Cobolpost.v ===== *)
(** The SQL calls of COBOL programs (src/libcobolpost.c, src/libcobolpost_pqfh.c): a query gives
    its first line in a text area, the next calls the others.  The connection of these
    calls is their own. *)

From stdpp Require Import prelude gmap strings.
From S2P Require Import Prelude Fhtypes Fcd Table.
Local Open Scope Z_scope.

(** ** Results *)

(** A result of a query: whether it has rows, the types of its columns, the values as texts
    (an empty one for a null), the message of its error. *)
Record pg_result := mk_result { pr_tuples_ok : bool; pr_types : list Z; pr_rows : list (list bytes); pr_error : bytes }.

Definition PQntuples (r : pg_result) : nat := length (pr_rows r).
Definition PQnfields (r : pg_result) : nat := length (pr_types r).
(** A row or a column that is not there is a null pointer. *)
Definition PQgetvalue (r : pg_result) (linha i : nat) : option bytes := row ← pr_rows r !! linha; row !! i.

(** The client library: the connection, a query, the end of the connection. *)
Class Cobpq (D : Type) := {
  PQconnectdb : bytes → D → D * bool;
  PQquery : bytes → D → D * pg_result;
  PQfinish : D → D;
}.

(** [sprintf(fmt, 0)] with the format [%0wd]: with a negative [w] the flag [-] is read, which
    pads with blanks after the digit; with [w] zero there is no width. *)
Definition zeros (w : Z) : bytes :=
  if 0 <? w then replicate (Z.to_nat w) 48 else 48 :: replicate (Z.to_nat (- w - 1)) 32.

(** src/libcobolpost_pqfh.c:21-32 monta_linha (a field): the formats are written in 9 bytes, the
    text in [MAX_REC_LEN + 1]. *)
Definition campo (tipo_campo : Z) (valor_campo : bytes) : option bytes :=
  let tam_campo := Z.of_nat (length valor_campo) in
  let fmt := if (tipo_campo =? 1042) || (tipo_campo =? 1043) then bs "%-" ++ fmt_d tam_campo ++ bs "s"
             else bs "%0" ++ fmt_d (10 - tam_campo) ++ bs "d%s" in
  let buf_campo := if (tipo_campo =? 1042) || (tipo_campo =? 1043) then valor_campo
                   else zeros (10 - tam_campo) ++ valor_campo in
  if (length fmt <=? 8)%nat && (Z.of_nat (length buf_campo) <=? MAX_REC_LEN) then Some buf_campo else None.

(** src/libcobolpost_pqfh.c:16-41 monta_linha (the loop), from the column [i] on. *)
Fixpoint monta_campos (r : pg_result) (linha i : nat) (tipos : list Z) (p_linha : bytes) : option bytes :=
  match tipos with
  | [] => Some p_linha
  | tipo_campo :: tipos' =>
      valor_campo ← PQgetvalue r linha i;
      buf_campo ← campo tipo_campo valor_campo;
      monta_campos r linha (S i) tipos' (p_linha ++ buf_campo)
  end.

(** src/libcobolpost_pqfh.c:9-46 monta_linha *)
Definition monta_linha (r : pg_result) (linha : Z) (p_linha : bytes) : option bytes :=
  if linha <? 0 then None else monta_campos r (Z.to_nat linha) 0 (pr_types r) p_linha.

(** ** The calls *)

(** The result the library holds: the pointer may be null or may point to a result already freed. *)
Inductive held_result := RNull | RLive (r : pg_result) | RFreed.

(** src/libcobolpost.c:23-24 conn : the server, whether [conn] is not null, and [res], which the two files share. *)
Record cob_st (D : Type) := mk_cob { cb_db : D; cb_conn : bool; cb_res : held_result }.
Arguments mk_cob {D}.
Arguments cb_db {D}.
Arguments cb_conn {D}.
Arguments cb_res {D}.

Section calls.
Context {D : Type} `{!Cobpq D}.
Notation st := (cob_st D).

Definition put_res (r : held_result) : M st unit := modify (λ s, mk_cob (cb_db s) (cb_conn s) r).

(** The result to read; a null one has no column. *)
Definition live_res : M st pg_result :=
  r ← gets cb_res;
  match r with RLive r => mret r | RNull => mret (mk_result false [] [] []) | RFreed => stop Fault end.

(** [PQclear(res)]: a null pointer is accepted, a result already freed is not. *)
Definition PQclear : M st unit :=
  r ← gets cb_res;
  match r with RLive _ => put_res RFreed | RNull => mret tt | RFreed => stop Fault end.

(** [res = PQexec(conn, query)]: with no connection the result is null. *)
Definition run_query (query : bytes) : M st unit := λ s,
  if cb_conn s then
    let (d, r) := PQquery query (cb_db s) in (mk_cob d (cb_conn s) (RLive r), inr tt)
  else (mk_cob (cb_db s) (cb_conn s) RNull, inr tt).

Definition lower (c : Z) : Z := if (65 <=? c) && (c <=? 90) then c + 32 else c.
(** [!strncasecmp(query, "select", 6)] *)
Definition is_select (query : bytes) : bool := bool_decide (lower <$> take 6 query = bs "select").

(** src/libcobolpost_pqfh.c:48-80 pqfh_executa_sql : the answer, the number of rows and the area
    of the line, which holds [p_linha] before. *)
Definition pqfh_executa_sql (query p_linha : bytes) : M st (bytes * Z * bytes) :=
  let p_linha := if is_select query then [] else p_linha in
  PQclear;;
  run_query query;;
  r ← live_res;
  if negb (pr_tuples_ok r) || (PQntuples r =? 0)%nat then mret (pr_error r, 0, p_linha)
  else
    p_linha ← (if is_select query then of_option (monta_linha r 0 p_linha) else mret p_linha);
    mret (bs "EXECUTADO", Z.of_nat (PQntuples r), p_linha).

(** src/libcobolpost_pqfh.c:82-88 pqfh_sql_next : the rows are counted from zero. *)
Definition pqfh_sql_next (registro : Z) : M st bytes :=
  r ← live_res;
  of_option (monta_linha r registro []).

(** src/libcobolpost.c:36-70 executa_sql : with PQFH the call goes on. *)
Definition executa_sql (query p_linha : bytes) : M st (bytes * Z * bytes) := pqfh_executa_sql query p_linha.

(** src/libcobolpost.c:115-148 executa_sql_next : with PQFH the call goes on. *)
Definition executa_sql_next (registro : Z) : M st bytes := pqfh_sql_next registro.

(** src/libcobolpost.c:219-223 limpa_consulta : the pointer stays. *)
Definition limpa_consulta : M st unit := PQclear.

(** src/libcobolpost.c:225-254 conecta_db : the connection there was is not closed; the answer
    is written over the area, without an end of string. *)
Definition conecta_db (conexao p_retorno : bytes) : M st bytes := λ s,
  let (d, ok) := PQconnectdb conexao (cb_db s) in
  let conninfo := if ok : bool then bs "CONECTADO" else bs "NAO CONECTADO" in
  (mk_cob d ok (cb_res s), if (length conninfo <=? length p_retorno)%nat then inr (blit p_retorno 0 conninfo) else inl Fault).

(** src/libcobolpost.c:268-279 fechar_conexao *)
Definition fechar_conexao : M st unit := λ s,
  (if cb_conn s then mk_cob (PQfinish (cb_db s)) false (cb_res s) else s, inr tt).

End calls.

(** src/libcobolpost.c:176-183 sql_status_message : the loop does not move, so only an empty
    message ends. *)
Definition sql_status_message (message : bytes) : fault + unit :=
  match message with [] => inr tt | _ => inl Hang end.

(** src/libcobolpost.c:195-203 sql_get_value : at a line feed the loop goes on without moving. *)
Fixpoint sql_get_value (s : bytes) : fault + bytes :=
  match s with
  | [] => inr []
  | c :: s' =>
      if c =? 10 then inl Hang
      else match sql_get_value s' with inr value => inr (c :: value) | inl e => inl e end
  end.

(** src/libcobolpost.c:205-217 sql_get_tuple : the values one after the other. *)
Definition sql_get_tuple (r : pg_result) (ntuple : nat) : option bytes :=
  mjoin <$> mapM (PQgetvalue r ntuple) (seq 0 (PQnfields r)).

(** ** The width of a number *)

Lemma dec_digits_under fuel : ∀ k n acc, (0 < k)%nat → 0 <= n < 10 ^ Z.of_nat k → (k ≤ fuel)%nat →
  (length (dec_digits fuel n acc) ≤ k + length acc)%nat.
Proof.
  induction fuel as [|fuel IH]; intros k n acc Hk Hn Hf; [lia|]. cbn [dec_digits]. cbv zeta.
  destruct (Z.ltb_spec n 10); [simpl; lia|]. destruct k as [|[|k]]; [lia|change (10 ^ Z.of_nat 1) with 10 in Hn; lia|].
  etrans; [apply (IH (S k)); [lia| |lia]|simpl; lia]. rewrite (Nat2Z.inj_succ (S k)), Z.pow_succ_r in Hn by lia.
  split; [apply Z.div_pos; lia|apply Z.div_lt_upper_bound; lia].
Qed.

Lemma dec_digits_acc fuel : ∀ n acc, (length acc ≤ length (dec_digits fuel n acc))%nat.
Proof.
  induction fuel as [|fuel IH]; intros n acc; [done|]. cbn [dec_digits]. cbv zeta. case_match; [simpl; lia|].
  etrans; [|apply IH]. simpl. lia.
Qed.

Lemma fmt_d_under k n : (0 < k ≤ 20)%nat → 0 <= n < 10 ^ Z.of_nat k → (length (fmt_d n) ≤ k)%nat.
Proof.
  intros Hk Hn. unfold fmt_d. rewrite (proj2 (Z.ltb_ge _ _)) by lia.
  pose proof (dec_digits_under 20 k n [] ltac:(lia) Hn ltac:(lia)) as H.
  change (length (@nil Z)) with 0%nat in H. lia.
Qed.

Lemma dec_digits_step fuel n acc : dec_digits (S fuel) n acc =
  if n <? 10 then (48 + n mod 10) :: acc else dec_digits fuel (n / 10) ((48 + n mod 10) :: acc).
Proof. done. Qed.

(** Three digits or more from a hundred on. *)
Lemma fmt_d_hundred n : 100 <= n → (3 ≤ length (dec_digits 20 n []))%nat.
Proof.
  intros Hn. rewrite dec_digits_step, (proj2 (Z.ltb_ge n 10)) by lia.
  assert (10 <= n / 10) by (apply Z.div_le_lower_bound; lia). rewrite dec_digits_step, (proj2 (Z.ltb_ge (n / 10) 10)) by lia.
  rewrite dec_digits_step. case_match; [simpl; lia|]. etrans; [|apply dec_digits_acc]. simpl. lia.
Qed.

Definition is_char (t : Z) : bool := (t =? 1042) || (t =? 1043).

(** A value as wide as ten characters, with zeros before it. *)
Definition padded (v : bytes) : bytes := replicate (10 - length v) 48 ++ v.

Lemma campo_char t v : is_char t = true → Z.of_nat (length v) <= MAX_REC_LEN → campo t v = Some v.
Proof.
  intros Ht Hv. unfold campo. fold (is_char t). rewrite Ht. cbv zeta. rewrite !length_app.
  pose proof (fmt_d_under 5 (Z.of_nat (length v)) ltac:(lia) ltac:(unfold MAX_REC_LEN in Hv; change (10 ^ Z.of_nat 5) with 100000; lia)).
  rewrite (proj2 (Nat.leb_le _ 8)) by (simpl; lia). by rewrite (proj2 (Z.leb_le _ _)).
Qed.

Lemma campo_number t v : is_char t = false → (length v ≤ 9)%nat → campo t v = Some (padded v).
Proof.
  intros Ht Hv. unfold campo. fold (is_char t). rewrite Ht. cbv zeta.
  assert (zeros (10 - Z.of_nat (length v)) = replicate (10 - length v) 48) as ->.
  { unfold zeros. rewrite (proj2 (Z.ltb_lt _ _)) by lia. f_equal. lia. }
  rewrite !length_app, length_replicate.
  pose proof (fmt_d_under 2 (10 - Z.of_nat (length v)) ltac:(lia) ltac:(change (10 ^ Z.of_nat 2) with 100; lia)).
  rewrite (proj2 (Nat.leb_le _ 8)) by (simpl; lia). rewrite (proj2 (Z.leb_le _ _)) by (unfold MAX_REC_LEN; lia). done.
Qed.

(** A value that is not a character one has ten bytes in the line only up to nine bytes of
    its own: with ten it has eleven, from eleven to a hundred and nine it comes after a zero and
    blanks, and a longer one - a text column, whose type is not among the two known - is
    written past the format. *)
Theorem sql_wide_value t v : is_char t = false → Z.of_nat (length v) <= 9000 →
  campo t v =
    if (length v <=? 9)%nat then Some (padded v)
    else if (length v <=? 109)%nat then Some (48 :: replicate (length v - 11) 32 ++ v)
    else None.
Proof.
  intros Ht Hv. destruct (Nat.leb_spec (length v) 9); [by apply campo_number|]. unfold campo. fold (is_char t). rewrite Ht. cbv zeta.
  assert (zeros (10 - Z.of_nat (length v)) = 48 :: replicate (length v - 11) 32) as ->.
  { unfold zeros. rewrite (proj2 (Z.ltb_ge _ _)) by lia. do 2 f_equal. lia. }
  cbn [app length]. rewrite !length_app, length_replicate. cbn [length].
  rewrite (proj2 (Z.leb_le _ MAX_REC_LEN)) by (unfold MAX_REC_LEN; lia). rewrite andb_true_r.
  destruct (Nat.leb_spec (length v) 109).
  - assert (length (fmt_d (10 - Z.of_nat (length v))) ≤ 3)%nat as Hf.
    { destruct (decide (length v = 10)%nat) as [E|Hne]; [by rewrite E; change (fmt_d _) with [48]; simpl; lia|]. unfold fmt_d.
      rewrite (proj2 (Z.ltb_lt _ _)) by lia. cbn [length].
      pose proof (dec_digits_under 20 2 (- (10 - Z.of_nat (length v))) [] ltac:(lia) ltac:(change (10 ^ Z.of_nat 2) with 100; lia) ltac:(lia)) as H2.
      change (length (@nil Z)) with 0%nat in H2. lia. }
    change (length (bs "%0")) with 2%nat. change (length (bs "d%s")) with 3%nat. by rewrite (proj2 (Nat.leb_le _ 8)) by lia.
  - unfold fmt_d. rewrite (proj2 (Z.ltb_lt _ _)) by lia. pose proof (fmt_d_hundred (- (10 - Z.of_nat (length v))) ltac:(lia)).
    change (length (bs "%0")) with 2%nat. change (length (bs "d%s")) with 3%nat. cbn [length].
    by rewrite (proj2 (Nat.leb_gt _ 8)) by lia.
Qed.

Lemma sql_wide_value_witness : is_char 1700 = false ∧ campo 1700 (bs "1234567890123") = Some (bs "0  1234567890123").
Proof.
  split; [done|]. change (Some (bs "0  1234567890123")) with
    (if (length (bs "1234567890123") <=? 9)%nat then Some (padded (bs "1234567890123"))
     else if (length (bs "1234567890123") <=? 109)%nat then Some (48 :: replicate (length (bs "1234567890123") - 11) 32 ++ bs "1234567890123") else None).
  apply (sql_wide_value 1700); [done|]. simpl. lia.
Defined.

(** ** A query and its lines *)

(** The line of a row. *)
Definition linha_de (tipos : list Z) (row : list bytes) : bytes :=
  mjoin (zip_with (λ t v, if is_char t then v else padded v) tipos row).

(** The values the calls format: texts of at most a record, other values of at most nine bytes. *)
Definition valor_ok (t : Z) (v : bytes) : Prop :=
  if is_char t then Z.of_nat (length v) <= MAX_REC_LEN else (length v ≤ 9)%nat.

Record result_ok (r : pg_result) : Prop := {
  ro_ok : pr_tuples_ok r = true;
  ro_rows : pr_rows r ≠ [];
  ro_values : Forall (λ row, Forall2 valor_ok (pr_types r) row) (pr_rows r);
}.

Lemma campo_ok t v : valor_ok t v → campo t v = Some (if is_char t then v else padded v).
Proof. unfold valor_ok. destruct (is_char t) eqn:E; intros H; [by apply campo_char|by apply campo_number]. Qed.

Lemma monta_campos_run r linha row : pr_rows r !! linha = Some row → ∀ tipos i p, Forall2 valor_ok tipos (drop i row) →
  monta_campos r linha i tipos p = Some (p ++ linha_de tipos (drop i row)).
Proof.
  intros Hr. induction tipos as [|t tipos IH]; intros i p H; cbn [monta_campos].
  - apply Forall2_nil_inv_l in H as ->. unfold linha_de. simpl. by rewrite app_nil_r.
  - apply Forall2_cons_inv_l in H as (v & vs & Hv & Hvs & E). unfold PQgetvalue. rewrite Hr. cbn [mbind option_bind].
    assert (row !! i = Some v) as -> by (by rewrite <-(Nat.add_0_r i), <-lookup_drop, E).
    assert (drop (S i) row = vs) as Ed by (by rewrite <-Nat.add_1_r, <-drop_drop, E).
    cbn [mbind option_bind]. rewrite (campo_ok t v Hv). cbn [mbind option_bind]. rewrite IH by (by rewrite Ed).
    rewrite Ed, E. unfold linha_de. cbn [zip_with]. by rewrite <-app_assoc.
Qed.

Lemma monta_linha_run r (linha : nat) row : result_ok r → pr_rows r !! linha = Some row →
  monta_linha r (Z.of_nat linha) [] = Some (linha_de (pr_types r) row).
Proof.
  intros Hok Hr. unfold monta_linha. rewrite (proj2 (Z.ltb_ge _ _)), Nat2Z.id by lia.
  pose proof (ro_values r Hok) as Hv. rewrite Forall_lookup in Hv. by rewrite (monta_campos_run r linha row Hr _ 0 []) by (apply (Hv linha), Hr).
Qed.

Section reads.
Context {D : Type} `{!Cobpq D}.
Notation st := (cob_st D).

(** What a program does with a query: the first line comes with it, the others from the next calls. *)
Fixpoint le_linhas (n : nat) (registro : Z) : M st (list bytes) :=
  match n with
  | O => mret []
  | S n' => l ← executa_sql_next registro; ls ← le_linhas n' (registro + 1); mret (l :: ls)
  end.
Definition consulta (query p_linha : bytes) : M st (bytes * list bytes) :=
  r ← executa_sql query p_linha;
  let '(p_retorno, registros, linha) := r in
  if registros =? 0 then mret (p_retorno, [])
  else ls ← le_linhas (pred (Z.to_nat registros)) 1; mret (p_retorno, linha :: ls).

Lemma le_linhas_run (s : st) r : cb_res s = RLive r → result_ok r → ∀ n (i : nat), (i + n = length (pr_rows r))%nat →
  le_linhas n (Z.of_nat i) s = (s, inr (linha_de (pr_types r) <$> drop i (pr_rows r))).
Proof.
  intros Hs Hok. induction n as [|n IH]; intros i Hi; cbn [le_linhas].
  - by rewrite drop_ge by lia.
  - destruct (lookup_lt_is_Some_2 (pr_rows r) i) as [row Hr]; [lia|].
    assert (executa_sql_next (Z.of_nat i) s = (s, inr (linha_de (pr_types r) row))) as E.
    { unfold executa_sql_next, pqfh_sql_next. erewrite bind_ok by (unfold live_res; rewrite (bind_ok _ _ _ _ _ (gets_run _ _)), Hs; reflexivity).
      by rewrite (monta_linha_run r i row Hok Hr). }
    rewrite (bind_ok _ _ _ _ _ E). replace (Z.of_nat i + 1) with (Z.of_nat (S i)) by lia.
    rewrite (bind_ok _ _ _ _ _ (IH (S i) ltac:(lia))). by rewrite (drop_S _ _ _ Hr).
Qed.

Lemma clear_run (s : st) : cb_res s ≠ RFreed → ∃ x, PQclear s = (mk_cob (cb_db s) (cb_conn s) x, inr tt).
Proof.
  intros Hs. unfold PQclear. rewrite (bind_ok _ _ _ _ _ (gets_run _ _)). destruct (cb_res s) eqn:E; [exists RNull|by exists RFreed|done].
  rewrite <-E. by destruct s.
Qed.

(** C33: A query whose values fit gives EXECUTADO and, with the first line and a call for each of the
    other rows, the lines of all its rows in order.  In a line the values come one right after
    the other: a character value (1042, 1043) as it is, of whatever length up to a record, and any other
    one, of at most nine bytes (none for a null), with zeros before it up to ten bytes; so the columns
    after a varchar, or after a null of a character column, begin where its own length leaves
    them, and not at a place of their own.  If [limpa_consulta] was called on the last result, nothing is asked:
    the call frees that result a second time. *)
Theorem sql_lines (s : st) query p_linha d r : cb_conn s = true → PQquery query (cb_db s) = (d, r) →
  is_select query = true → result_ok r →
  consulta query p_linha s =
    match cb_res s with
    | RFreed => (s, inl Fault)
    | _ => (mk_cob d true (RLive r), inr (bs "EXECUTADO", linha_de (pr_types r) <$> pr_rows r))
    end.
Proof.
  intros Hc Hq Hsel Hok. assert (cb_res s = RFreed ∨ cb_res s ≠ RFreed) as [Hf|Hs] by (destruct (cb_res s); auto).
  { rewrite Hf. unfold consulta, executa_sql, pqfh_executa_sql. erewrite bind_err; [reflexivity|].
    erewrite bind_err; [reflexivity|]. unfold PQclear. by rewrite (bind_ok _ _ _ _ _ (gets_run _ _)), Hf. }
  assert (∀ A (x y : A), match cb_res s with RFreed => x | _ => y end = y) as -> by (by destruct (cb_res s)).
  unfold consulta, executa_sql, pqfh_executa_sql. rewrite Hsel. cbv zeta.
  destruct (clear_run s Hs) as [x Ex]. pose proof Hok as [H1 H2 _]. destruct (pr_rows r) as [|row rows] eqn:Er; [done|].
  assert (PQntuples r = S (length rows)) as Hn by (unfold PQntuples; by rewrite Er).
  erewrite bind_ok; last first.
  { rewrite (bind_ok _ _ _ _ _ Ex). erewrite bind_ok by (unfold run_query; cbn [cb_conn cb_db]; rewrite Hc, Hq; reflexivity).
    erewrite bind_ok by reflexivity. rewrite H1, Hn. cbn [negb orb Nat.eqb].
    erewrite bind_ok by (change (monta_linha r 0 []) with (monta_linha r (Z.of_nat 0) []);
      rewrite (monta_linha_run r 0 row Hok) by (by rewrite Er); reflexivity). reflexivity. }
  cbv beta iota. rewrite (proj2 (Z.eqb_neq _ _)) by lia. rewrite Nat2Z.id. cbn [pred].
  erewrite bind_ok; last (change 1 with (Z.of_nat 1); apply (le_linhas_run _ r); [done|done|rewrite Er; simpl; lia]).
  by rewrite Er.
Qed.

(** After a program clears its query ([limpa_consulta]) the pointer is still there: the next
    query frees the result again, and a call for a line reads what was freed. *)
Theorem sql_freed_twice (s : st) r query p_linha registro : cb_res s = RLive r →
  snd ((limpa_consulta;; executa_sql query p_linha) s) = inl Fault ∧
  snd ((limpa_consulta;; executa_sql_next registro) s) = inl Fault.
Proof.
  intros Hs. assert (limpa_consulta s = (mk_cob (cb_db s) (cb_conn s) RFreed, inr tt)) as E.
  { unfold limpa_consulta, PQclear. by rewrite (bind_ok _ _ _ _ _ (gets_run _ _)), Hs. }
  split; by rewrite (bind_ok _ _ _ _ _ E).
Qed.

End reads.

(** The copy of a value ends exactly when it holds no line feed. *)
Lemma sql_get_value_ends s : sql_get_value s = if bool_decide (10 ∈ s) then inl Hang else inr s.
Proof.
  induction s as [|c s IH]; [done|]. cbn [sql_get_value]. destruct (Z.eqb_spec c 10) as [->|Hc].
  - by rewrite bool_decide_true by by left.
  - rewrite IH. rewrite (bool_decide_ext (10 ∈ c :: s) (10 ∈ s)) by (rewrite elem_of_cons; naive_solver). by case_bool_decide.
Qed.

(** ** A server with one table *)

Definition ex_result : pg_result :=
  mk_result true [23; 1042; 1700] [[bs "7"; bs "Ana "; bs "10.50"]; [bs "12"; bs "Bia "; bs ""]; [bs "305"; bs "Eva "; bs "-3"]] [].

#[local] Instance ex_cobpq : Cobpq unit := {|
  PQconnectdb := λ _ d, (d, true);
  PQquery := λ query d, (d, if is_select query then ex_result else mk_result false [] [] (bs "ERROR"));
  PQfinish := λ d, d;
|}.

Definition ex_cob : cob_st unit := mk_cob tt true RNull.

Example ex_result_ok : result_ok ex_result.
Proof.
  split; [done|done|].
  repeat (apply Forall_cons; split); [..|constructor]; repeat (apply Forall2_cons; split); try constructor;
    unfold valor_ok, MAX_REC_LEN; simpl; lia.
Qed.

Lemma sql_lines_witness :
  consulta (bs "SELECT * FROM T") [] ex_cob = (mk_cob tt true (RLive ex_result),
    inr (bs "EXECUTADO", [bs "0000000007Ana 0000010.50"; bs "0000000012Bia 0000000000"; bs "0000000305Eva 00000000-3"])) ∧
  consulta (bs "SELECT * FROM T") [] (mk_cob tt true RFreed) = (mk_cob tt true RFreed, inl Fault).
Proof.
  split; [apply (sql_lines ex_cob (bs "SELECT * FROM T") [] tt ex_result)|
    apply (sql_lines (mk_cob tt true RFreed) (bs "SELECT * FROM T") [] tt ex_result)]; (done || apply ex_result_ok).
Defined.

(** Two rows of a table with a varchar: the number after it is at the fifteenth byte of the first line and at
    the twelfth of the second. *)
Example ex_shifted : linha_de [23; 1043; 23] <$> [[bs "7"; bs "Anita"; bs "1"]; [bs "8"; bs "Bo"; bs "2"]] =
  [bs "0000000007Anita0000000001"; bs "0000000008Bo0000000002"].
Proof. reflexivity. Qed.

Lemma sql_freed_twice_witness : snd ((limpa_consulta;; executa_sql (bs "SELECT 1") []) (mk_cob tt true (RLive ex_result))) = inl Fault ∧
  snd ((limpa_consulta;; executa_sql_next 1) (mk_cob tt true (RLive ex_result))) = inl Fault.
Proof. apply (sql_freed_twice (mk_cob tt true (RLive ex_result)) ex_result). reflexivity. Defined.
