(* ===== verification/ThreadApi.v ===== *)
(** The calls of web services after an update (src/thread_api.c, src/call_api.c, in the build
    with API): the record as a JSON text, with the fields of a COBOL copybook, sent by a thread
    through Java. *)

From stdpp Require Import prelude gmap strings.
From S2P Require Import Prelude Fhtypes Fcd Kdb Json.
Local Open Scope Z_scope.

(** ** The copybook *)

(** src/pqfh.h:74-82 column_t : the members a copybook gives. *)
Record api_col := mk_acol { ac_name : bytes; ac_tp : Z; ac_len : Z }.

(** src/pqfh.h:56-59 table_t (a service of a table): [api_root] has no value before the first load. *)
Record api_t := mk_api { ap_name : bytes; ap_root : option bytes; ap_cols : list api_col }.

(** [fgets(buf, n + 1, f)]: a line with its line feed, at most [n] bytes of it, and what is left. *)
Fixpoint fgets (n : nat) (s : bytes) : bytes * bytes :=
  match n, s with
  | O, _ => ([], s)
  | _, [] => ([], [])
  | S n', c :: s' => if c =? 10 then ([c], s') else let (l, r) := fgets n' s' in (c :: l, r)
  end.

(** [if ((p = strpbrk(buf, crlf)) != NULL) *p = 0;] *)
Fixpoint cut_eol (s : bytes) : bytes :=
  match s with [] => [] | c :: s' => if (c =? 10) || (c =? 13) then [] else c :: cut_eol s' end.

Fixpoint skip_spaces (s : bytes) : bytes :=
  match s with c :: s' => if c =? 32 then skip_spaces s' else s | [] => [] end.

(** [atoi] of a number that is no [int] has no result. *)
Definition atoi_int (p : bytes) : option Z := if (- 2 ^ 31 <=? atoi p) && (atoi p <? 2 ^ 31) then Some (atoi p) else None.

(** src/thread_api.c:55-76 load_cpy (a line): no column for a line without the level 03, an access
    through a null pointer for one that is cut short. *)
Definition load_line (buf : bytes) : option (option api_col) :=
  match strstr buf (bs "03 ") with
  | None => Some None
  | Some i =>
      let q := skip_spaces (drop (i + 3) buf) in
      j ← strchr q 32;
      let name := take j q in
      let p := drop (S j) q in
      let tp := match strstr p (bs "x(") with Some _ => ch "x" | None => ch "9" end in
      k ← match strstr p (bs "x(") with Some k => Some k | None => strstr p (bs "9(") end;
      let p := drop (k + 2) p in
      e ← strchr p (ch ")");
      len ← atoi_int (take e p);
      if (length name <=? MAX_NAME_LEN)%nat then Some (Some (mk_acol name tp len)) else None
  end.

(** src/thread_api.c:54-77 load_cpy (the loop): the columns are added to those there are. *)
Fixpoint load_lines (fuel : nat) (f : bytes) (cols : list api_col) : option (list api_col) :=
  match fuel, f with
  | O, _ | _, [] => Some cols
  | S fuel', _ =>
      let (buf, f) := fgets 256 f in
      c ← load_line (cstr buf);
      load_lines fuel' f (match c with Some c => cols ++ [c] | None => cols end)
  end.

(** src/thread_api.c:39-81 load_cpy : the first line holds the name of the root from its eighth
    byte on; with no line, or a short one, what the buffer had is read. *)
Definition load_cpy (file : option bytes) (a : api_t) : option api_t :=
  match file with
  | None => Some a
  | Some [] => None
  | Some f =>
      let (buf, f) := fgets 256 f in
      let buf := cut_eol (cstr buf) in
      if (7 <=? length buf)%nat && (length (drop 7 buf) <=? MAX_NAME_LEN)%nat then
        cols ← load_lines (length f) f (ap_cols a);
        Some (mk_api (ap_name a) (Some (drop 7 buf)) cols)
      else None
  end.

(** ** The JSON text *)

(** src/thread_api.c:97-114 to_json (the value of a field): the byte after it is set to zero for
    a moment, so it must be in the area. *)
Definition field_value (record : bytes) (offset : Z) (col : api_col) : option bytes :=
  if (0 <=? offset) && (0 <=? ac_len col) && (offset + ac_len col <? Z.of_nat (length record)) then
    let p := cstr (take (Z.to_nat (ac_len col)) (drop (Z.to_nat offset) record)) in
    if ac_tp col =? ch "x" then Some (quoted p)
    else
      match p with
      | [] => Some (bs "0")
      | _ => fmt_d <$> atoi_int p
      end
  else None.

(** src/thread_api.c:92-119 to_json (the loop) *)
Fixpoint json_fields (record : bytes) (offset : Z) (cols : list api_col) : option bytes :=
  match cols with
  | [] => Some []
  | col :: cols' =>
      v ← field_value record offset col;
      rest ← json_fields record (offset + ac_len col) cols';
      Some ([9] ++ quoted (ac_name col) ++ bs " : " ++ v ++ match cols' with [] => [] | _ => bs "," end ++ [10] ++ rest)
  end.

(** src/thread_api.c:83-122 to_json : the text has [MAX_REC_LEN + 1] bytes. *)
Definition to_json (a : api_t) (record : bytes) : option bytes :=
  root ← ap_root a;
  fields ← json_fields record 0 (ap_cols a);
  let json := bs "{ " ++ quoted root ++ bs " : [ {" ++ [10] ++ fields ++ bs "} ] }" in
  if Z.of_nat (length json) <=? MAX_REC_LEN then Some json else None.

(** ** The start of the threads *)

(** src/thread_api.c:151-158 thread_api_start (the loop): what each thread is given. *)
Fixpoint start_apis (files : bytes → option bytes) (saida : bytes) (apis : list api_t) : option (list api_t * list (bytes * bytes)) :=
  match apis with
  | [] => Some ([], [])
  | a :: apis' =>
      a ← load_cpy (files (ap_name a ++ bs ".cpy")) a;
      json ← to_json a saida;
      if (length (ap_name a) <=? 32)%nat && (length json <? 4062)%nat then
        r ← start_apis files saida apis';
        Some (a :: fst r, (ap_name a, json) :: snd r)
      else None
  end.

(** src/thread_api.c:127-160 thread_api_start : the name of the table goes in 20 bytes, the record
    in 1000; [converteapi] is a COBOL program. *)
Definition thread_api_start (files : bytes → option bytes) (converteapi : bytes → bytes → bytes)
    (name : bytes) (apis : list api_t) (fcd : fcd_t) : option (list api_t * list (bytes * bytes)) :=
  let reclen := Z.to_nat (getshort (rec_len fcd)) in
  if (length name <=? 20)%nat && (reclen <? 1000)%nat && (reclen <=? length (record fcd))%nat then
    start_apis files (converteapi (blit (replicate 20 32) 0 name) (take reclen (record fcd) ++ [0])) apis
  else None.

(** ** The calls of Java *)

Inductive java_call := SetBearer (b : bytes) | SetEndereco (e : bytes) | Call (operacao metodo json : bytes).

(** src/call_api.c:20-41 create_vm : the options have no buffer for the text of PQFH_JAVA. *)
Definition create_vm (jvm : bool) (pqfh_java : option bytes) (created : bool) : option bool :=
  if jvm then Some true else match pqfh_java with None => Some created | Some _ => None end.

(** src/call_api.c:106-157 pqfh_call_java : with no machine there is no environment to call through. *)
Definition pqfh_call_java (jvm : bool) (endereco operacao metodo json bearer : bytes) : option (list java_call) :=
  if jvm then Some [SetBearer bearer; SetEndereco endereco; Call operacao metodo json] else None.

(** src/thread_api.c:19-37 thread_api : only the command [i] sets the method. *)
Definition thread_api (jvm : bool) (api bearer : bytes) (cmd : Z) (args : bytes * bytes) : option (list java_call) :=
  if cmd =? ch "i" then pqfh_call_java jvm api (fst args) (bs "POST") (snd args) bearer else None.

(** ** What is sent is the record *)

Lemma dec_digits_good fuel : ∀ n acc, 0 <= n → (∀ c, c ∈ acc → isdigit c = true) → (0 < fuel ∨ acc ≠ [])%nat →
  good_number (dec_digits fuel n acc).
Proof.
  assert (∀ n, isdigit (48 + n mod 10) = true) as Hd.
  { intros n. pose proof (Z.mod_pos_bound n 10 ltac:(lia)). unfold isdigit. apply andb_true_iff. rewrite !Z.leb_le. lia. }
  induction fuel as [|fuel IH]; intros n acc Hn Ha Hf; cbn [dec_digits].
  - destruct acc as [|c acc]; [by destruct Hf as [?|[]]; [lia|]|]. exists c, acc. split; [done|]. split; [by apply Ha; left|].
    intros x Hx. left. by apply Ha; right.
  - cbv zeta. assert (∀ c, c ∈ (48 + n mod 10) :: acc → isdigit c = true) as Ha' by (intros c [->|?]%elem_of_cons; auto).
    case_match; [|apply IH; [apply Z.div_pos; lia|done|by right]].
    exists (48 + n mod 10), acc. split; [done|]. split; [apply Hd|]. auto.
Qed.

Lemma fmt_d_good n : 0 <= n → good_number (fmt_d n).
Proof.
  intros Hn. unfold fmt_d. rewrite (proj2 (Z.ltb_ge _ _)) by lia.
  apply dec_digits_good; [done|by intros c ?%elem_of_nil|left; lia].
Qed.

(** The bytes of a field, as a string. *)
Definition field_text (record : bytes) (offset : Z) (col : api_col) : bytes :=
  cstr (take (Z.to_nat (ac_len col)) (drop (Z.to_nat offset) record)).

(** The member of the document for a field. *)
Definition member (record : bytes) (offset : Z) (col : api_col) : jelement :=
  let t := field_text record offset col in
  if ac_tp col =? ch "x" then JE (Some (ac_name col)) TOK_STRING (Some t) []
  else JE (Some (ac_name col)) TOK_NUMBER (Some (match t with [] => bs "0" | _ => fmt_d (atoi t) end)) [].

Fixpoint members (record : bytes) (offset : Z) (cols : list api_col) : list jelement :=
  match cols with [] => [] | col :: cols' => member record offset col :: members record (offset + ac_len col) cols' end.

Definition document (root record : bytes) (cols : list api_col) : list jelement :=
  [JE (Some root) TP_ARRAY None [JE None TP_OBJECT None (members record 0 cols)]].

(** The fields a record can be sent with: texts a string may hold, numbers without a sign. *)
Fixpoint fields_ok (record : bytes) (offset : Z) (cols : list api_col) : Prop :=
  match cols with
  | [] => True
  | col :: cols' =>
      good_text (bs "},") (ac_name col) ∧ 0 <= ac_len col ∧ 0 <= offset ∧ offset + ac_len col < Z.of_nat (length record) ∧
      (let t := field_text record offset col in
       if ac_tp col =? ch "x" then good_text (bs "[{") t else 0 <= atoi t < 2 ^ 31) ∧
      fields_ok record (offset + ac_len col) cols'
  end.

Lemma members_good record cols : ∀ offset, fields_ok record offset cols → good_children false (members record offset cols).
Proof.
  induction cols as [|col cols IH]; intros offset; [constructor|]. intros (Hn & _ & _ & _ & Ht & Hrest). cbn [members]. unfold member.
  cbv zeta in Ht. assert (good_name false (Some (ac_name col))) as Hname by by eexists. destruct (ac_tp col =? ch "x").
  - apply good_string; auto.
  - apply good_num; [done| |auto]. destruct (field_text record offset col); [|apply fmt_d_good; lia].
    exists 48, []. split_and!; try done. by intros c ?%elem_of_nil.
Qed.

(** The value of a field in the text. *)
Definition value_of (e : jelement) : bytes := value_text (je_tp e) (default [] (je_value e)).

Lemma field_value_run record offset col cols : fields_ok record offset (col :: cols) →
  field_value record offset col = Some (value_of (member record offset col)).
Proof.
  intros (_ & Hl & Ho & Hr & Ht & _). unfold field_value.
  rewrite !(proj2 (Z.leb_le _ _)), (proj2 (Z.ltb_lt _ _)) by lia. cbn [andb]. cbv zeta. fold (field_text record offset col).
  unfold member, value_of. cbv zeta in *. destruct (ac_tp col =? ch "x"); [done|].
  destruct (field_text record offset col) as [|c t] eqn:E; [done|]. unfold atoi_int. rewrite (proj2 (Z.leb_le _ _)), (proj2 (Z.ltb_lt _ _)) by lia. done.
Qed.

Lemma member_name record offset col : je_name (member record offset col) = Some (ac_name col).
Proof. unfold member. by case_match. Qed.

(** The lines of the fields, and their tokens. *)
Fixpoint member_lines (es : list jelement) : bytes :=
  match es with
  | [] => []
  | e :: es' => [9] ++ quoted (default [] (je_name e)) ++ bs " : " ++ value_of e ++ match es' with [] => [] | _ => bs "," end ++ [10] ++ member_lines es'
  end.

Lemma json_fields_run record cols : ∀ offset, fields_ok record offset cols →
  json_fields record offset cols = Some (member_lines (members record offset cols)).
Proof.
  induction cols as [|col cols IH]; intros offset H; [done|]. cbn [json_fields members member_lines].
  rewrite (field_value_run _ _ _ _ H). destruct H as (_ & _ & _ & _ & _ & Hrest). cbn [mbind option_bind]. rewrite (IH _ Hrest).
  cbn [mbind option_bind]. rewrite member_name. by destruct cols.
Qed.

Lemma lex_member n tp v (last : bool) s p t : good_text (bs "},") n →
  (tp = TOK_STRING ∧ good_text (bs "[{") v) ∨ (tp = TOK_NUMBER ∧ good_number v) → t ≠ [] →
  lex_loop ([9] ++ quoted n ++ bs " : " ++ value_text tp v ++ (if last then [] else bs ",") ++ [10] ++ s) p (ST_0 0) t =
    lex_loop s 10 (ST_0 0) (t ++ name_toks (Some n) ++ [mk_tok tp v] ++ if last then [] else [sym ","]).
Proof.
  intros Hn Hv Ht. cbn [app]. rewrite lex_ws, (lex_quoted _ _ _ _ _ Hn Ht) by done.
  change (bs " : " ++ ?x) with (32 :: ch ":" :: 32 :: x). rewrite lex_ws, lex_sym, lex_ws by done.
  assert (t ++ [mk_tok TOK_STRING n] ++ [sym ":"] ≠ []) as Ht' by by destruct t. rewrite <-app_assoc. cbn [name_toks].
  destruct last; cbn [app].
  - destruct Hv as [[-> Hv]|[-> Hv]]; unfold value_text.
    + rewrite Z.eqb_refl, (lex_quoted _ _ _ _ _ Hv Ht'), lex_ws by done. by rewrite <-!app_assoc.
    + change (TOK_NUMBER =? TOK_STRING) with false. cbv iota. rewrite lex_number, lex_ws by done. by rewrite <-!app_assoc.
  - change (bs "," ++ ?x) with (ch "," :: x). rewrite (lex_value _ _ _ _ _ _ _ Hv (or_intror eq_refl) Ht'), lex_ws by done.
    by rewrite <-!app_assoc.
Qed.

Lemma member_cases record offset col cols : fields_ok record offset (col :: cols) →
  ∃ tp v, member record offset col = JE (Some (ac_name col)) tp (Some v) [] ∧
    ((tp = TOK_STRING ∧ good_text (bs "[{") v) ∨ (tp = TOK_NUMBER ∧ good_number v)).
Proof.
  intros H. pose proof (members_good _ _ _ H) as Hg. cbn [members] in Hg. unfold member in *. cbv zeta in *.
  destruct (ac_tp col =? ch "x"); do 2 eexists; (split; [done|]); inversion Hg; auto.
Qed.

Lemma lex_members record cols : ∀ offset s p t, fields_ok record offset cols → t ≠ [] →
  lex_loop (member_lines (members record offset cols) ++ s) p (ST_0 0) t =
    lex_loop s 10 (ST_0 0) (t ++ body_toks el_toks (members record offset cols)).
Proof.
  induction cols as [|col cols IH]; intros offset s p t H Ht; [simpl; rewrite app_nil_r; apply lex_prev|].
  destruct (member_cases _ _ _ _ H) as (tp & v & Em & Hv). cbn [members member_lines body_toks]. rewrite Em.
  destruct H as (Hn & _ & _ & _ & _ & Hrest). unfold value_of. cbn [je_name je_tp je_value default].
  replace (match members record (offset + ac_len col) cols with [] => [] | _ => bs "," end) with
    (if (match cols with [] => true | _ => false end) then [] else bs ",") by by destruct cols.
  rewrite <-!app_assoc, (lex_member _ _ _ _ _ _ _ Hn Hv Ht), IH by (done || by destruct t). rewrite <-!app_assoc. by destruct cols.
Qed.

Lemma member_lines_no_nul record cols : ∀ offset, fields_ok record offset cols → 0 ∉ member_lines (members record offset cols).
Proof.
  induction cols as [|col cols IH]; intros offset H; [apply not_elem_of_nil|].
  destruct (member_cases _ _ _ _ H) as (tp & v & Em & Hv). cbn [members member_lines]. rewrite Em. unfold value_of. cbn [je_name je_tp je_value default].
  destruct H as (Hn & _ & _ & _ & _ & Hrest). specialize (IH _ Hrest). apply good_text_no_nul in Hn.
  assert (0 ∉ value_text tp v) as Hval.
  { destruct Hv as [[-> Hv]|[-> Hv]]; [by apply good_text_no_nul in Hv|by apply good_number_no_nul]. }
  rewrite !not_elem_of_app. split_and!; first [exact Hn|exact Hval|exact IH|by apply (bool_decide_unpack _)|by case_match; apply (bool_decide_unpack _)].
Qed.

(** C34: The JSON text of a record whose fields are plain is read back by the library's own parser without an error: an
    object whose member, named after the copybook, is an array with one object that has the
    fields of the copybook in order, with the bytes of a text field as they are in the record
    and a number as its value.  Plain ([fields_ok]) because the text is written without an escape: the fields lie in the record,
    with a byte after the last one; a text field has no quotation mark, no backslash at its end and no [[] or
    [{] at its beginning; the name of a field, or of the root, has no quotation mark, no backslash at its end and no [}] or [,] at its beginning; a
    number has no minus sign and is an int.  Outside these conditions the text may be no
    document, or another one. *)
Theorem to_json_parses a root record json : ap_root a = Some root → good_text (bs "},") root → fields_ok record 0 (ap_cols a) →
  to_json a record = Some json → parse json = inr (true, JE None TP_OBJECT None (document root record (ap_cols a))).
Proof.
  intros Hr Hroot H Hj. unfold to_json in Hj. rewrite Hr, (json_fields_run _ _ _ H) in Hj. cbn [mbind option_bind] in Hj. cbv zeta in Hj.
  case_match; [|done]. apply (inj Some) in Hj. subst json.
  assert (good_children false (document root record (ap_cols a))) as Hg.
  { apply good_arr; [by eexists| |constructor]. apply good_obj; [done|by apply members_good|constructor]. }
  apply (parse_lexed false); [done| |].
  - pose proof (member_lines_no_nul _ _ _ H) as Hl. apply good_text_no_nul in Hroot. rewrite !not_elem_of_app.
    split_and!; first [exact Hroot|exact Hl|by apply (bool_decide_unpack _)].
  - change (bs "{ " ++ ?x) with (ch "{" :: 32 :: x). rewrite lex_sym, lex_ws, (lex_quoted _ _ _ _ _ Hroot) by done.
    change (bs " : [ {" ++ [10] ++ ?x) with (32 :: ch ":" :: 32 :: ch "[" :: 32 :: ch "{" :: 10 :: x).
    rewrite lex_ws, lex_sym, lex_ws, lex_sym, lex_ws, lex_sym, lex_ws by done. rewrite lex_members by done.
    change (bs "} ] }") with [ch "}"; 32; ch "]"; 32; ch "}"]. rewrite lex_sym, lex_ws, lex_sym, lex_ws, lex_sym by done. cbn [lex_loop].
    f_equal. unfold document. cbn -[members]. by rewrite <-!app_assoc.
Qed.

(** ** The columns are read at every update *)

Lemma load_lines_app fuel : ∀ f cols, load_lines fuel f cols = (λ new, cols ++ new) <$> load_lines fuel f [].
Proof.
  induction fuel as [|fuel IH]; intros f cols; [by destruct f; cbn; rewrite app_nil_r|].
  destruct f as [|c f]; [cbn; by rewrite app_nil_r|]. cbn [load_lines]. destruct (fgets 256 (c :: f)) as [buf g].
  destruct (load_line (cstr buf)) as [[col|]|]; cbn [mbind option_bind]; [|by apply IH|done].
  rewrite (IH g (cols ++ [col])), (IH g ([] ++ [col])). destruct (load_lines fuel g []); [|done]. cbn. by rewrite <-app_assoc.
Qed.

(** What is loaded from a copybook before each update of a file kept open. *)
Fixpoint loads (n : nat) (file : bytes) (a : api_t) : option api_t :=
  match n with O => Some a | S n' => a ← load_cpy (Some file) a; loads n' file a end.

Lemma loads_S n file a : loads (S n) file a = (a ← load_cpy (Some file) a; loads n file a).
Proof. done. Qed.

(** The columns of a copybook are read again at every update and added to those there are:
    after [n] updates of a table opened once they are there [n] times, so that the text of a
    record has every field [n] times, from places further and further on. *)
Theorem copybook_repeats n file name a1 : load_cpy (Some file) (mk_api name None []) = Some a1 →
  loads (S n) file (mk_api name None []) = Some (mk_api name (ap_root a1) (mjoin (replicate (S n) (ap_cols a1)))).
Proof.
  intros H1. assert (∀ cols r, load_cpy (Some file) (mk_api name r cols) = Some (mk_api name (ap_root a1) (cols ++ ap_cols a1)) ∧ ap_name a1 = name) as Hstep.
  { intros cols r. unfold load_cpy in *. destruct file as [|c file]; [done|]. destruct (fgets 256 (c :: file)) as [buf g]. cbn [ap_cols ap_name] in *.
    destruct (_ && _); [|done]. rewrite load_lines_app. destruct (load_lines (length g) g []) as [new|]; [|done]. cbn in *. by injection H1 as <-. }
  clear H1. assert (∀ n cols r, loads (S n) file (mk_api name r cols) = Some (mk_api name (ap_root a1) (cols ++ mjoin (replicate (S n) (ap_cols a1))))) as Hall.
  { clear n. induction n as [|n IH]; intros cols r; rewrite loads_S, (proj1 (Hstep cols r)); cbn [mbind option_bind].
    - cbn. by rewrite app_nil_r.
    - rewrite IH. by rewrite <-app_assoc. }
  apply (Hall n [] None).
Qed.

(** ** The threads *)

(** src/thread_api.c:151-158 thread_api_start (the steps): where the loop is - at a byte of one of the two
    [strcpy] into [args], at the command between them, at the creation of the thread. *)
Inductive main_pc := MApi (a k : nat) | MCmd (a : nat) | MJson (a k : nat) | MCreate (a : nat) | MReturned.

#[export] Instance main_pc_eq : EqDecision main_pc.
Proof. solve_decision. Defined.

(** src/thread_api.c:19-37 thread_api (the steps): a thread that is created, one that reads the name of
    its service, one that reads its text, one that has called Java with both. *)
Inductive api_thread := TCreated | TName (cmd : Z) (got : bytes) | TText (cmd : Z) (api got : bytes) | TSent (cmd : Z) (api json : bytes).

(** [args] is one variable of [thread_api_start] for all the threads: its members, an area of the stack. *)
Record race_st := mk_race { rc_pc : main_pc; rc_api : bytes; rc_cmd : Z; rc_json : bytes; rc_threads : list api_thread }.

(** The area has 33 bytes for a name and [MSGSZ - 34] for a text, and the C strings fit, as
    [start_apis] asks. *)
Definition args_ok (q : bytes * bytes) : Prop := 0 ∉ fst q ∧ 0 ∉ snd q ∧ (length (fst q) < 33)%nat ∧ (length (snd q) < 4062)%nat.

(** The byte read at a place of a member; past its end there is some byte. *)
Definition reads (m : bytes) (p : nat) (b : Z) : Prop := m !! p = Some b ∨ m !! p = None.

Section race.
Context (cmd : Z) (reqs : list (bytes * bytes)).

(** A [strcpy] writes the bytes of a string and its zero one by one, and a thread reads them one by one until it finds a
    zero.  Once the function returned, the area holds what the stack holds. *)
Inductive race_step : race_st → race_st → Prop :=
  | step_api a k q b x c y ts : reqs !! a = Some q → (fst q ++ [0]) !! k = Some b →
      race_step (mk_race (MApi a k) x c y ts) (mk_race (MApi a (S k)) (<[k:=b]> x) c y ts)
  | step_api_end a q x c y ts : reqs !! a = Some q →
      race_step (mk_race (MApi a (S (length (fst q)))) x c y ts) (mk_race (MCmd a) x c y ts)
  | step_cmd a x c y ts : race_step (mk_race (MCmd a) x c y ts) (mk_race (MJson a 0) x cmd y ts)
  | step_json a k q b x c y ts : reqs !! a = Some q → (snd q ++ [0]) !! k = Some b →
      race_step (mk_race (MJson a k) x c y ts) (mk_race (MJson a (S k)) x c (<[k:=b]> y) ts)
  | step_json_end a q x c y ts : reqs !! a = Some q →
      race_step (mk_race (MJson a (S (length (snd q)))) x c y ts) (mk_race (MCreate a) x c y ts)
  | step_create a x c y ts : race_step (mk_race (MCreate a) x c y ts) (mk_race (MApi (S a) 0) x c y (ts ++ [TCreated]))
  | step_return x c y ts : race_step (mk_race (MApi (length reqs) 0) x c y ts) (mk_race MReturned x c y ts)
  | step_stack x c y x' c' y' ts : length x' = length x → length y' = length y →
      race_step (mk_race MReturned x c y ts) (mk_race MReturned x' c' y' ts)
  | read_cmd pc i x c y ts : ts !! i = Some TCreated → race_step (mk_race pc x c y ts) (mk_race pc x c y (<[i:=TName c []]> ts))
  | read_name pc i t got b x c y ts : ts !! i = Some (TName t got) → reads x (length got) b →
      race_step (mk_race pc x c y ts) (mk_race pc x c y (<[i:=(if b =? 0 then TText t got [] else TName t (got ++ [b]))]> ts))
  | read_text pc i t api got b x c y ts : ts !! i = Some (TText t api got) → reads y (length got) b →
      race_step (mk_race pc x c y ts) (mk_race pc x c y (<[i:=(if b =? 0 then TSent t api got else TText t api (got ++ [b]))]> ts)).

Definition race_init (x : bytes) (c : Z) (y : bytes) : race_st := mk_race (MApi 0 0) x c y [].

(** ** The bytes a thread reads before the return *)

(** Each byte of a string, up to the length of what the request of turn [i] has in its place, is
    the byte at that place of the request of turn [i] or of a later one. *)
Definition bytes_from (f : bytes * bytes → bytes) (i : nat) (s : bytes) : Prop :=
  ∀ q p b, reqs !! i = Some q → s !! p = Some b → (p ≤ length (f q))%nat →
    ∃ j qj, (i ≤ j)%nat ∧ reqs !! j = Some qj ∧ (f qj ++ [0]) !! p = Some b.

(** An area that holds such bytes at all those places. *)
Definition held (f : bytes * bytes → bytes) (i : nat) (m : bytes) : Prop :=
  ∀ q, reqs !! i = Some q → (length (f q) < length m)%nat ∧ bytes_from f i m.

Definition thread_ok (i : nat) (t : api_thread) : Prop :=
  match t with
  | TCreated => True
  | TName t got => t = cmd ∧ 0 ∉ got ∧ bytes_from fst i got
  | TText t api got => t = cmd ∧ 0 ∉ api ∧ bytes_from fst i (api ++ [0]) ∧ 0 ∉ got ∧ bytes_from snd i got
  | TSent t api json => t = cmd ∧ 0 ∉ api ∧ bytes_from fst i (api ++ [0]) ∧ 0 ∉ json ∧ bytes_from snd i (json ++ [0])
  end.

Definition names_done (pc : main_pc) : nat := match pc with MApi a _ => a | MCmd a | MJson a _ | MCreate a => S a | MReturned => 0 end.
Definition texts_done (pc : main_pc) : nat := match pc with MApi a _ | MCmd a | MJson a _ => a | MCreate a => S a | MReturned => 0 end.
Definition cmds_done (pc : main_pc) : nat := match pc with MApi a _ | MCmd a => a | MJson a _ | MCreate a => S a | MReturned => 0 end.
Definition turns (pc : main_pc) : nat := match pc with MApi a _ | MCmd a | MJson a _ | MCreate a => a | MReturned => 0 end.

(** What is copied so far of the string of a turn. *)
Definition copied (pc : main_pc) (x y : bytes) : Prop :=
  match pc with
  | MApi a k => ∀ q p, reqs !! a = Some q → (p < k)%nat → x !! p = (fst q ++ [0]) !! p
  | MJson a k => ∀ q p, reqs !! a = Some q → (p < k)%nat → y !! p = (snd q ++ [0]) !! p
  | _ => True
  end.

Record race_ok (s : race_st) : Prop := {
  ra_x : length (rc_api s) = 33%nat;
  ra_y : length (rc_json s) = 4062%nat;
  ra_count : length (rc_threads s) = turns (rc_pc s);
  ra_threads i t : rc_threads s !! i = Some t → thread_ok i t;
  ra_cmd : (0 < cmds_done (rc_pc s))%nat → rc_cmd s = cmd;
  ra_names i : (i < names_done (rc_pc s))%nat → held fst i (rc_api s);
  ra_texts i : (i < texts_done (rc_pc s))%nat → held snd i (rc_json s);
  ra_copied : copied (rc_pc s) (rc_api s) (rc_json s);
}.

Context (Hreqs : Forall args_ok reqs).

Lemma req_ok a q : reqs !! a = Some q → args_ok q.
Proof. intros H. by eapply (Forall_lookup_1 _ _ _ _ Hreqs). Qed.

Lemma bytes_from_nil f i : bytes_from f i [].
Proof. by intros ? ? ? _ ?. Qed.

Lemma not_elem_of_snoc (s : bytes) b : 0 ∉ s → b ≠ 0 → 0 ∉ s ++ [b].
Proof. intros Hs Hb [?|?%list_elem_of_singleton]%elem_of_app; [done|by subst]. Qed.

(** A byte of a later turn keeps the area so. *)
Lemma held_set f i a q k b m : held f i m → (i ≤ a)%nat → reqs !! a = Some q → (f q ++ [0]) !! k = Some b → held f i (<[k:=b]> m).
Proof.
  intros Hm Hi Ha Hb q' Hq'. destruct (Hm q' Hq') as [Hl Hf]. rewrite length_insert. split; [done|].
  intros q2 p c Hq2 Hp Hlp. destruct (decide (k = p)) as [->|Hne].
  - apply list_lookup_insert_Some in Hp as [(_ & <- & _)|[? _]]; [|done]. by exists a, q.
  - rewrite list_lookup_insert_ne in Hp by done. by eapply Hf.
Qed.

(** A string copied to its end is held. *)
Lemma held_copied f a m : (∀ q, reqs !! a = Some q → (length (f q) < length m)%nat) →
  (∀ q p, reqs !! a = Some q → (p < S (length (f q)))%nat → m !! p = (f q ++ [0]) !! p) → held f a m.
Proof. intros Hl Hm q Hq. split; [by apply Hl|]. intros q2 p b Hq2 Hp Hlp. exists a, q2. rewrite <-(Hm q2 p Hq2) by lia. done. Qed.

(** A byte read from the area. *)
Lemma bytes_from_read f i m got b : held f i m → bytes_from f i got → reads m (length got) b → bytes_from f i (got ++ [b]).
Proof.
  intros Hm Hg Hb q p c Hq Hp Hl. apply lookup_app_Some in Hp as [Hp|[Hge Hp]]; [by eapply Hg|].
  apply list_lookup_singleton_Some in Hp as [E <-]. assert (p = length got) as -> by lia.
  destruct (Hm q Hq) as [Hlm Hf]. destruct Hb as [Hb|Hb]; [by eapply Hf|]. apply lookup_ge_None in Hb. lia.
Qed.

Lemma thread_set i t (ts : list api_thread) : (∀ k u, ts !! k = Some u → thread_ok k u) → thread_ok i t →
  ∀ k u, <[i:=t]> ts !! k = Some u → thread_ok k u.
Proof.
  intros H Ht k u Hk. destruct (decide (i = k)) as [->|Hne]; [|rewrite list_lookup_insert_ne in Hk by done; by apply H].
  apply list_lookup_insert_Some in Hk as [(_ & <- & _)|[? _]]; done.
Qed.

Lemma turns_done pc : (turns pc ≤ names_done pc ∧ turns pc ≤ texts_done pc ∧ turns pc ≤ cmds_done pc)%nat.
Proof. destruct pc; simpl; lia. Qed.

(** A step of a thread that is in the list. *)
Lemma thread_step_ok pc x c y ts i t : race_ok (mk_race pc x c y ts) →
  (held fst i x → held snd i y → c = cmd → thread_ok i t) → (i < length ts)%nat → race_ok (mk_race pc x c y (<[i:=t]> ts)).
Proof.
  intros [H1 H2 H3 H4 H5 H6 H7 H8] Ht Hi. cbn in *. pose proof (turns_done pc).
  split; cbn; [done|done|by rewrite length_insert| |done..]. apply thread_set; [done|].
  apply Ht; [apply H6; lia|apply H7; lia|apply H5; lia].
Qed.

Lemma race_init_ok x c y : length x = 33%nat → length y = 4062%nat → race_ok (race_init x c y).
Proof. intros Hx Hy. split; cbn; try done; try lia. Qed.

(** What the next byte of a copy leaves copied. *)
Lemma copied_set f k (m : bytes) a b : (∀ q p, reqs !! a = Some q → (p < k)%nat → m !! p = (f q ++ [0]) !! p) → (k < length m)%nat →
  (∀ q, reqs !! a = Some q → (f q ++ [0]) !! k = Some b) →
  ∀ q p, reqs !! a = Some q → (p < S k)%nat → <[k:=b]> m !! p = (f q ++ [0]) !! p.
Proof.
  intros Hm Hk Hb q p Hq Hp. destruct (decide (k = p)) as [->|Hne].
  - by rewrite list_lookup_insert_eq, (Hb q Hq) by done.
  - rewrite list_lookup_insert_ne by done. apply Hm; [done|lia].
Qed.

Lemma byte_place (s : bytes) k b : (s ++ [0]) !! k = Some b → (k ≤ length s)%nat.
Proof. intros H. apply lookup_lt_Some in H. rewrite length_app in H. simpl in H. lia. Qed.

Lemma race_step_ok s s' : race_step s s' → rc_pc s ≠ MReturned → race_ok s → rc_pc s' = MReturned ∨ race_ok s'.
Proof.
  intros Hstep Hpc H. pose proof H as [H1 H2 H3 H4 H5 H6 H7 H8].
  destruct Hstep as [a k q b x c y ts Hq Hb|a q x c y ts Hq|a x c y ts|a k q b x c y ts Hq Hb|a q x c y ts Hq|a x c y ts| |
    |pc i x c y ts Hi|pc i t got b x c y ts Hi Hr|pc i t api got b x c y ts Hi Hr]; cbn in *; try done; try (by left); right.
  - pose proof (req_ok _ _ Hq) as (_ & _ & Hl & _). pose proof (byte_place _ _ _ Hb).
    split; cbn; [by rewrite length_insert|done..| |done|].
    + intros i Hi. eapply (held_set _ _ a); [by apply H6|lia|done|done].
    + apply copied_set; [done|lia|]. intros q' Hq'. by simplify_eq.
  - pose proof (req_ok _ _ Hq) as (_ & _ & Hl & _). split; cbn; try done. intros i Hi. destruct (decide (i = a)) as [->|]; [|apply H6; lia].
    apply held_copied; intros; simplify_eq; [lia|by apply H8].
  - split; cbn; try done. intros ? ? _ ?; lia.
  - pose proof (req_ok _ _ Hq) as (_ & _ & _ & Hl). pose proof (byte_place _ _ _ Hb).
    split; cbn; [done|by rewrite length_insert|done..| |].
    + intros i Hi. eapply (held_set _ _ a); [by apply H7|lia|done|done].
    + apply copied_set; [done|lia|]. intros q' Hq'. by simplify_eq.
  - pose proof (req_ok _ _ Hq) as (_ & _ & _ & Hl). split; cbn; try done. intros i Hi. destruct (decide (i = a)) as [->|]; [|apply H7; lia].
    apply held_copied; intros; simplify_eq; [lia|by apply H8].
  - split; cbn; try done; [rewrite length_app; simpl; lia| |intros ? ? _ ?; lia].
    intros i t [Hi|[_ Hi]]%lookup_app_Some; [by apply H4|]. apply list_lookup_singleton_Some in Hi as [_ <-]. done.
  - apply thread_step_ok; [done| |by eapply lookup_lt_Some]. intros _ _ ->. split; [done|]. split; [apply not_elem_of_nil|apply bytes_from_nil].
  - apply thread_step_ok; [done| |by eapply lookup_lt_Some]. intros Hx _ _. destruct (H4 _ _ Hi) as (-> & Hg0 & Hg).
    pose proof (bytes_from_read _ _ _ _ _ Hx Hg Hr). destruct (Z.eqb_spec b 0) as [->|]; cbn.
    + pose proof (bytes_from_nil snd i). pose proof (not_elem_of_nil 0). done.
    + split_and!; [done|by apply not_elem_of_snoc|done].
  - apply thread_step_ok; [done| |by eapply lookup_lt_Some]. intros _ Hy _. destruct (H4 _ _ Hi) as (-> & Ha0 & Ha & Hg0 & Hg).
    pose proof (bytes_from_read _ _ _ _ _ Hy Hg Hr). destruct (Z.eqb_spec b 0) as [->|]; cbn; [done|].
    split_and!; [done..|by apply not_elem_of_snoc|done].
Qed.

Lemma returned_step s s' : race_step s s' → rc_pc s = MReturned → rc_pc s' = MReturned.
Proof. by destruct 1. Qed.

Lemma race_reach_ok x c y s : length x = 33%nat → length y = 4062%nat → rtc race_step (race_init x c y) s →
  rc_pc s = MReturned ∨ race_ok s.
Proof.
  intros Hx Hy H. assert (rc_pc (race_init x c y) = MReturned ∨ race_ok (race_init x c y)) as H0 by (right; by apply race_init_ok).
  revert H0. induction H as [|s1 s2 s3 H12 _ IH]; [done|]. intros H0. apply IH.
  destruct (decide (rc_pc s1 = MReturned)) as [E|Hne]; [left; by eapply returned_step|].
  destruct H0 as [?|H0]; [done|]. by eapply race_step_ok.
Qed.

(** The string of the last turn is read as it is. *)
Lemma last_turn f i q s : S i = length reqs → reqs !! i = Some q → 0 ∉ f q → 0 ∉ s → bytes_from f i (s ++ [0]) → s = f q.
Proof.
  intros Hi Hq H0 Hs Hb. assert (∀ p b, (s ++ [0]) !! p = Some b → (p ≤ length (f q))%nat → (f q ++ [0]) !! p = Some b) as Hp.
  { intros p b Hp Hl. destruct (Hb q p b Hq Hp Hl) as (j & qj & Hj & Hqj & E). pose proof (lookup_lt_Some _ _ _ Hqj).
    assert (j = i) as -> by lia. by simplify_eq. }
  assert (length s = length (f q)) as Hlen.
  { destruct (Nat.lt_trichotomy (length s) (length (f q))) as [Hlt|[?|Hlt]]; [|done|]; exfalso.
    - pose proof (Hp (length s) 0 (list_lookup_middle s [] 0 _ eq_refl) ltac:(lia)) as E. rewrite lookup_app_l in E by done.
      by apply H0, (list_elem_of_lookup_2 _ _ _ E).
    - destruct (lookup_lt_is_Some_2 s (length (f q)) Hlt) as [b Eb].
      pose proof (Hp (length (f q)) b ltac:(by apply lookup_app_l_Some) ltac:(lia)) as E. rewrite list_lookup_middle in E by done.
      injection E as <-. by apply Hs, (list_elem_of_lookup_2 _ _ _ Eb). }
  apply (list_eq_same_length _ _ (length s)); [done|done|]. intros p b c Hlt E1 E2.
  pose proof (Hp p b ltac:(by apply lookup_app_l_Some) ltac:(lia)) as E. rewrite lookup_app_l, E2 in E by lia. by simplify_eq.
Qed.

(** ** Runs *)

(** An area after the first [k] bytes of a string were written in it. *)
Definition written (k : nat) (s m : bytes) : bytes := take k s ++ drop k m.

Lemma written_S k s m b : s !! k = Some b → (k < length m)%nat → <[k:=b]> (written k s m) = written (S k) s m.
Proof.
  intros Hb Hk. unfold written. pose proof (lookup_lt_Some _ _ _ Hb). destruct (lookup_lt_is_Some_2 m k Hk) as [c Hc].
  rewrite (take_S_r _ _ _ Hb), <-app_assoc, (drop_S _ _ _ Hc).
  rewrite insert_app_r_alt, length_take by (rewrite length_take; lia). by rewrite Nat.min_l, Nat.sub_diag by lia.
Qed.

Lemma copy_name a q x c y ts k n : reqs !! a = Some q → (k + n ≤ S (length (fst q)))%nat → length x = 33%nat →
  rtc race_step (mk_race (MApi a k) (written k (fst q ++ [0]) x) c y ts) (mk_race (MApi a (k + n)) (written (k + n) (fst q ++ [0]) x) c y ts).
Proof.
  intros Hq. revert k. induction n as [|n IH]; intros k Hk Hx; [by rewrite Nat.add_0_r|]. pose proof (req_ok _ _ Hq) as (_ & _ & Hl & _).
  destruct (lookup_lt_is_Some_2 (fst q ++ [0]) k) as [b Hb]; [rewrite length_app; simpl; lia|].
  eapply rtc_l; [by eapply step_api|]. rewrite (written_S _ _ _ _ Hb) by lia. rewrite Nat.add_succ_r. apply (IH (S k)); [lia|done].
Qed.

Lemma copy_text a q x c y ts k n : reqs !! a = Some q → (k + n ≤ S (length (snd q)))%nat → length y = 4062%nat →
  rtc race_step (mk_race (MJson a k) x c (written k (snd q ++ [0]) y) ts) (mk_race (MJson a (k + n)) x c (written (k + n) (snd q ++ [0]) y) ts).
Proof.
  intros Hq. revert k. induction n as [|n IH]; intros k Hk Hy; [by rewrite Nat.add_0_r|]. pose proof (req_ok _ _ Hq) as (_ & _ & _ & Hl).
  destruct (lookup_lt_is_Some_2 (snd q ++ [0]) k) as [b Hb]; [rewrite length_app; simpl; lia|].
  eapply rtc_l; [by eapply step_json|]. rewrite (written_S _ _ _ _ Hb) by lia. rewrite Nat.add_succ_r. apply (IH (S k)); [lia|done].
Qed.

(** An area that holds a string. *)
Definition area (n : nat) (s m : bytes) : Prop := length m = n ∧ ∃ r, m = s ++ 0 :: r.

Lemma written_area n s m : length m = n → (length s < n)%nat → area n s (written (S (length s)) (s ++ [0]) m).
Proof.
  intros Hm Hs. unfold written. rewrite take_ge by (rewrite length_app; simpl; lia). split.
  - rewrite !length_app, length_drop. simpl. lia.
  - eexists. by rewrite <-app_assoc.
Qed.

(** A mixed string: the first [k] bytes of the new one, and the others of the one it is written over. *)
Definition mixed (k : nat) (new old : bytes) : bytes := take k new ++ drop k old.

Lemma mixed_area n k new old m : area n old m → (k ≤ length new)%nat → (k ≤ length old)%nat → area n (mixed k new old) (written k (new ++ [0]) m).
Proof.
  intros [Hm [r ->]] Hn Ho. unfold written, mixed. split.
  - rewrite <-Hm, !length_app, length_take, length_drop, !length_app. simpl. lia.
  - exists r. by rewrite take_app_le, drop_app_le, <-app_assoc by lia.
Qed.

(** A turn of the loop, in its three parts. *)
Lemma name_turn a q x c y ts : reqs !! a = Some q → length x = 33%nat →
  ∃ x', area 33 (fst q) x' ∧ rtc race_step (mk_race (MApi a 0) x c y ts) (mk_race (MJson a 0) x' cmd y ts).
Proof.
  intros Hq Hx. pose proof (req_ok _ _ Hq) as (_ & _ & Hl & _). eexists. split; [by apply written_area|].
  etrans; [apply (copy_name a q x c y ts 0 (S (length (fst q)))); [done|lia|done]|]. cbn [Nat.add].
  eapply rtc_l; [by apply step_api_end|]. apply rtc_once, step_cmd.
Qed.

Lemma text_turn a q x c y ts : reqs !! a = Some q → length y = 4062%nat →
  ∃ y', area 4062 (snd q) y' ∧ rtc race_step (mk_race (MJson a 0) x c y ts) (mk_race (MApi (S a) 0) x c y' (ts ++ [TCreated])).
Proof.
  intros Hq Hy. pose proof (req_ok _ _ Hq) as (_ & _ & _ & Hl). eexists. split; [by apply written_area|].
  etrans; [apply (copy_text a q x c y ts 0 (S (length (snd q)))); [done|lia|done]|]. cbn [Nat.add].
  eapply rtc_l; [by apply step_json_end|]. apply rtc_once, step_create.
Qed.

(** The turns up to [a], with no thread running. *)
Lemma main_run x c y a : length x = 33%nat → length y = 4062%nat → (a ≤ length reqs)%nat →
  ∃ x' c' y', rtc race_step (race_init x c y) (mk_race (MApi a 0) x' c' y' (replicate a TCreated)) ∧
    length x' = 33%nat ∧ length y' = 4062%nat ∧
    (∀ i q, a = S i → reqs !! i = Some q → c' = cmd ∧ area 33 (fst q) x' ∧ area 4062 (snd q) y').
Proof.
  intros Hx Hy. induction a as [|a IH]; intros Ha; [by exists x, c, y|]. destruct IH as (x1 & c1 & y1 & Hr & Hx1 & Hy1 & _); [lia|].
  destruct (lookup_lt_is_Some_2 reqs a) as [q Hq]; [lia|].
  destruct (name_turn a q x1 c1 y1 (replicate a TCreated) Hq Hx1) as (x2 & Hx2 & H2).
  destruct (text_turn a q x2 cmd y1 (replicate a TCreated) Hq Hy1) as (y2 & Hy2 & H3).
  exists x2, cmd, y2. split; [|split_and!; [apply Hx2|apply Hy2|intros i q' [= <-] ?; by simplify_eq]].
  rewrite replicate_S_end. by do 2 (etrans; [eassumption|]).
Qed.

(** What a thread reads in an area that holds a string. *)
Lemma read_name_run pc i t x c y w1 w2 r : x = (w1 ++ w2) ++ 0 :: r → 0 ∉ w2 → ∀ ts, ts !! i = Some (TName t w1) →
  rtc race_step (mk_race pc x c y ts) (mk_race pc x c y (<[i:=TText t (w1 ++ w2) []]> ts)).
Proof.
  revert w1. induction w2 as [|b w2 IH]; intros w1 Hx H0 ts Hi.
  - rewrite app_nil_r in *. apply rtc_once. apply (read_name pc i t w1 0); [done|]. left. rewrite Hx. by apply list_lookup_middle.
  - apply not_elem_of_cons in H0 as [Hb H0]. eapply rtc_l.
    + apply (read_name pc i t w1 b); [done|]. left. rewrite Hx, <-app_assoc. by apply list_lookup_middle.
    + rewrite (proj2 (Z.eqb_neq b 0)) by done. rewrite (cons_middle b w1 w2), app_assoc, <-(list_insert_insert_eq ts i (TText t ((w1 ++ [b]) ++ w2) []) (TName t (w1 ++ [b]))).
      apply IH; [by rewrite Hx, <-!app_assoc|done|]. apply list_lookup_insert_eq. by eapply lookup_lt_Some.
Qed.

Lemma read_text_run pc i t api x c y w1 w2 r : y = (w1 ++ w2) ++ 0 :: r → 0 ∉ w2 → ∀ ts, ts !! i = Some (TText t api w1) →
  rtc race_step (mk_race pc x c y ts) (mk_race pc x c y (<[i:=TSent t api (w1 ++ w2)]> ts)).
Proof.
  revert w1. induction w2 as [|b w2 IH]; intros w1 Hx H0 ts Hi.
  - rewrite app_nil_r in *. apply rtc_once. apply (read_text pc i t api w1 0); [done|]. left. rewrite Hx. by apply list_lookup_middle.
  - apply not_elem_of_cons in H0 as [Hb H0]. eapply rtc_l.
    + apply (read_text pc i t api w1 b); [done|]. left. rewrite Hx, <-app_assoc. by apply list_lookup_middle.
    + rewrite (proj2 (Z.eqb_neq b 0)) by done. rewrite (cons_middle b w1 w2), app_assoc, <-(list_insert_insert_eq ts i (TSent t api ((w1 ++ [b]) ++ w2)) (TText t api (w1 ++ [b]))).
      apply IH; [by rewrite Hx, <-!app_assoc|done|]. apply list_lookup_insert_eq. by eapply lookup_lt_Some.
Qed.

(** A created thread reads the command and the name while the loop stands still, and then the text. *)
Lemma thread_name pc i x c y w ts : area 33 w x → 0 ∉ w → ts !! i = Some TCreated →
  rtc race_step (mk_race pc x c y ts) (mk_race pc x c y (<[i:=TText c w []]> ts)).
Proof.
  intros [_ [r Hx]] Hw Hi. eapply rtc_l; [by apply read_cmd|]. rewrite <-(list_insert_insert_eq ts i (TText c w []) (TName c [])).
  apply (read_name_run pc i c x c y [] w r); [done|done|]. apply list_lookup_insert_eq. by eapply lookup_lt_Some.
Qed.

Lemma thread_text pc i t api x c y w ts : area 4062 w y → 0 ∉ w → ts !! i = Some (TText t api []) →
  rtc race_step (mk_race pc x c y ts) (mk_race pc x c y (<[i:=TSent t api w]> ts)).
Proof. intros [_ [r Hy]] Hw Hi. by apply (read_text_run pc i t api x c y [] w r). Qed.

Lemma mixed_no_nul k new old : 0 ∉ new → 0 ∉ old → 0 ∉ mixed k new old.
Proof.
  intros Hn Ho [H|H]%elem_of_app; [by apply (subseteq_take k new) in H|by apply (subseteq_drop k old) in H].
Qed.

(** The calls that can be reached from the start of the function. *)
Definition calls (x : bytes) (c : Z) (y : bytes) (returned : bool) (i : nat) (t : Z) (api json : bytes) : Prop :=
  ∃ s, rtc race_step (race_init x c y) s ∧ returned = bool_decide (rc_pc s = MReturned) ∧ rc_threads s !! i = Some (TSent t api json).

Lemma calls_before x c y i t api json : length x = 33%nat → length y = 4062%nat → calls x c y false i t api json → ∀ q, reqs !! i = Some q →
  t = cmd ∧ bytes_from fst i (api ++ [0]) ∧ bytes_from snd i (json ++ [0]) ∧ (S i = length reqs → (api, json) = q).
Proof.
  intros Hx Hy (s & Hr & Hpc & Hi) q Hq. symmetry in Hpc. apply bool_decide_eq_false in Hpc.
  destruct (race_reach_ok x c y s Hx Hy Hr) as [?|Hok]; [done|]. destruct (ra_threads s Hok i _ Hi) as (-> & Ha0 & Ha & Hj0 & Hj).
  split_and!; [done..|]. intros Hlast. pose proof (req_ok _ _ Hq) as (H1 & H2 & _).
  rewrite (last_turn fst i q api), (last_turn snd i q json) by done. by destruct q.
Qed.

Lemma calls_later x c y i j q : length x = 33%nat → length y = 4062%nat → (i ≤ j)%nat → reqs !! j = Some q → calls x c y false i cmd (fst q) (snd q).
Proof.
  intros Hx Hy Hij Hq. pose proof (lookup_lt_Some _ _ _ Hq). pose proof (req_ok _ _ Hq) as (H1 & H2 & _).
  destruct (main_run x c y (S j) Hx Hy ltac:(lia)) as (x1 & c1 & y1 & Hr & _ & _ & Hq1). destruct (Hq1 j q eq_refl Hq) as (-> & Hx1 & Hy1).
  eexists. split; [|split]; [etrans; [exact Hr|]; etrans; [apply (thread_name _ i); [exact Hx1|done|apply lookup_replicate_2; lia]|]; 
    apply (thread_text _ i); [exact Hy1|done|]; apply list_lookup_insert_eq; rewrite length_replicate; lia|done|].
  cbn [rc_threads]. apply list_lookup_insert_eq. rewrite !length_insert, length_replicate. lia.
Qed.

Lemma calls_mixed x c y i q1 q2 k1 k2 : length x = 33%nat → length y = 4062%nat → reqs !! i = Some q1 → reqs !! S i = Some q2 →
  (k1 ≤ length (fst q1) ∧ k1 ≤ length (fst q2))%nat → (k2 ≤ length (snd q1) ∧ k2 ≤ length (snd q2))%nat →
  calls x c y false i cmd (mixed k1 (fst q2) (fst q1)) (mixed k2 (snd q2) (snd q1)).
Proof.
  intros Hx Hy Hq1 Hq2 [Hk1 Hk1'] [Hk2 Hk2']. pose proof (lookup_lt_Some _ _ _ Hq1).
  pose proof (req_ok _ _ Hq1) as (H1 & H2 & _). pose proof (req_ok _ _ Hq2) as (H3 & H4 & H5 & _).
  destruct (main_run x c y (S i) Hx Hy ltac:(lia)) as (x1 & c1 & y1 & Hr & Hlx & Hly & Hq). destruct (Hq i q1 eq_refl Hq1) as (-> & Hx1 & Hy1).
  eexists. split; [|split].
  - etrans; [exact Hr|]. etrans; [apply (copy_name (S i) q2 x1 cmd y1 _ 0 k1 Hq2); [lia|done]|]. cbn [Nat.add].
    etrans; [apply (thread_name _ i); [by apply (mixed_area 33 k1 _ (fst q1))|by apply mixed_no_nul|apply lookup_replicate_2; lia]|].
    etrans; [apply (copy_name (S i) q2 x1 cmd y1 _ k1 (S (length (fst q2)) - k1) Hq2); [lia|done]|].
    replace (k1 + (S (length (fst q2)) - k1))%nat with (S (length (fst q2))) by lia.
    eapply rtc_l; [by apply step_api_end|]. eapply rtc_l; [apply step_cmd|].
    etrans; [apply (copy_text (S i) q2 _ cmd y1 _ 0 k2 Hq2); [lia|done]|]. cbn [Nat.add].
    apply (thread_text _ i); [by apply (mixed_area 4062 k2 _ (snd q1))|by apply mixed_no_nul|].
    apply list_lookup_insert_eq. rewrite length_replicate. lia.
  - done.
  - cbn [rc_threads]. apply list_lookup_insert_eq. rewrite !length_insert, length_replicate. lia.
Qed.

Lemma calls_after x c y i t api json : length x = 33%nat → length y = 4062%nat → (i < length reqs)%nat → args_ok (api, json) →
  calls x c y true i t api json.
Proof.
  intros Hx Hy Hi (H1 & H2 & H3 & H4). cbn in *. destruct (main_run x c y (length reqs) Hx Hy (le_n _)) as (x1 & c1 & y1 & Hr & Hlx & Hly & _).
  eexists. split; [|split].
  - etrans; [exact Hr|]. eapply rtc_l; [apply step_return|].
    eapply rtc_l; [apply (step_stack x1 c1 y1 (written (S (length api)) (api ++ [0]) x1) t (written (S (length json)) (json ++ [0]) y1))|].
    + rewrite Hlx. by apply written_area.
    + rewrite Hly. by apply written_area.
    + etrans; [apply (thread_name _ i); [by apply written_area|done|apply lookup_replicate_2; lia]|].
      apply (thread_text _ i); [by apply written_area|done|]. apply list_lookup_insert_eq. rewrite length_replicate. lia.
  - done.
  - cbn [rc_threads]. apply list_lookup_insert_eq. rewrite !length_insert, length_replicate. lia.
Qed.

End race.

(** C35: The threads of an update share one variable for the name of the service, the command and the text, which the
    loop writes byte by byte while they read it, byte by byte too.  Up to the return of the function every call of
    Java has the command of the update, and each byte of its name and of its text, up to the
    lengths of the request of the thread's own turn, is the byte in that place of that request or of a later one: so the
    call of the last thread, and of the only one, has its own request.  But a thread may call with the request
    of any later turn in place of its own, and, read in the middle of the copies of the next turn, with the start of
    the next name or text and the end of its own.  And the function returns without waiting: a thread that
    reads after that calls with whatever is on the stack, command, name and text. *)
Theorem api_threads_race cmd reqs x c y : Forall args_ok reqs → length x = 33%nat → length y = 4062%nat →
  (∀ i q t api json, reqs !! i = Some q → calls cmd reqs x c y false i t api json →
    t = cmd ∧ bytes_from reqs fst i (api ++ [0]) ∧ bytes_from reqs snd i (json ++ [0]) ∧ (S i = length reqs → (api, json) = q)) ∧
  (∀ i j q, (i ≤ j)%nat → reqs !! j = Some q → calls cmd reqs x c y false i cmd (fst q) (snd q)) ∧
  (∀ i q1 q2 k1 k2, reqs !! i = Some q1 → reqs !! S i = Some q2 →
    (k1 ≤ length (fst q1) ∧ k1 ≤ length (fst q2))%nat → (k2 ≤ length (snd q1) ∧ k2 ≤ length (snd q2))%nat →
    calls cmd reqs x c y false i cmd (mixed k1 (fst q2) (fst q1)) (mixed k2 (snd q2) (snd q1))) ∧
  (∀ i t api json, (i < length reqs)%nat → args_ok (api, json) → calls cmd reqs x c y true i t api json).
Proof.
  intros Hreqs Hx Hy. split_and!; intros.
  - by eapply calls_before.
  - by eapply calls_later.
  - by eapply calls_mixed.
  - by eapply calls_after.
Qed.

(** ** A copybook *)

Definition lf : bytes := [10].
Definition ex_copybook : bytes :=
  bs "      *cliente" ++ lf ++ bs "       01 REGISTRO." ++ lf ++ bs "           03 codigo pic 9(003)." ++ lf ++
  bs "           03 nome   pic x(004)." ++ lf.

Definition ex_api : api_t := mk_api (bs "cadastro") (Some (bs "cliente")) [mk_acol (bs "codigo") (ch "9") 3; mk_acol (bs "nome") (ch "x") 4].

Example ex_load : load_cpy (Some ex_copybook) (mk_api (bs "cadastro") None []) = Some ex_api.
Proof. by vm_compute. Qed.

Example ex_json : to_json ex_api (bs "007Ana " ++ [0]) =
  Some (bs "{ " ++ quoted (bs "cliente") ++ bs " : [ {" ++ lf ++ [9] ++ quoted (bs "codigo") ++ bs " : 7," ++ lf ++
        [9] ++ quoted (bs "nome") ++ bs " : " ++ quoted (bs "Ana ") ++ lf ++ bs "} ] }").
Proof. by vm_compute. Qed.

Lemma to_json_parses_witness : ∃ json, to_json ex_api (bs "007Ana " ++ [0]) = Some json ∧
  parse json = inr (true, JE None TP_OBJECT None [JE (Some (bs "cliente")) TP_ARRAY None [JE None TP_OBJECT None
    [JE (Some (bs "codigo")) TOK_NUMBER (Some (bs "7")) []; JE (Some (bs "nome")) TOK_STRING (Some (bs "Ana ")) []]]]).
Proof.
  eexists. split; [reflexivity|]. apply (to_json_parses ex_api (bs "cliente") (bs "007Ana " ++ [0])); [done|..|done].
  - unfold good_text. split_and!; by apply (bool_decide_unpack _).
  - cbn [fields_ok ap_cols ex_api]. unfold good_text. split_and!; first [done|by apply (bool_decide_unpack _)|simpl; lia].
Defined.

(** What becomes of fields that are not plain: a quotation mark ends its text, a backslash hides
    the end of its own, an opening bracket or brace nests what follows it, and the minus sign of a number is read as a boolean. *)
Definition ex_two (tp : Z) : api_t := mk_api (bs "c") (Some (bs "r")) [mk_acol (bs "n") tp 4; mk_acol (bs "m") (ch "x") 4].
Definition read_back (tp : Z) (fields : bytes) : option (fault + (bool * list jelement)) :=
  json ← to_json (ex_two tp) (fields ++ [0]);
  Some (match parse json with inl e => inl e | inr (ok, JE _ _ _ cs) => inr (ok, cs) end).
Definition ex_row (cs : list jelement) : list jelement := [JE (Some (bs "r")) TP_ARRAY None [JE None TP_OBJECT None cs]].

Theorem to_json_unescaped :
  (∃ cs, read_back (ch "x") (bs "A" ++ [QUOTE] ++ bs "B defg") = Some (inr (false, cs))) ∧
  read_back (ch "x") (bs "ABC" ++ [92] ++ bs "defg") = Some (inl Fault) ∧
  read_back (ch "x") (bs "{BC defg") = Some (inl Fault) ∧
  (∃ cs, read_back (ch "x") (bs "[BC defg") = Some (inr (true, ex_row [JE (Some (bs "n")) TP_ARRAY None cs]))) ∧
  read_back (ch "9") (bs "-123defg") =
    Some (inr (true, ex_row [JE (Some (bs "n")) TOK_BOOL (Some (bs "true")) []; JE (Some (bs "m")) TOK_STRING (Some (bs "defg")) []])).
Proof. split_and!; try eexists; by vm_compute. Qed.

Lemma copybook_repeats_witness : loads 3 ex_copybook (mk_api (bs "cadastro") None []) =
  Some (mk_api (bs "cadastro") (Some (bs "cliente")) (mjoin (replicate 3 (ap_cols ex_api)))).
Proof. apply (copybook_repeats 2 ex_copybook (bs "cadastro") ex_api). by vm_compute. Defined.

(** Two services; the first text is longer. *)
Definition ex_reqs : list (bytes * bytes) := [(bs "cadastro", bs "{codigo:7}"); (bs "estoque", bs "{}")].

Lemma api_threads_race_witness :
  calls (ch "i") ex_reqs (replicate 33 0) 0 (replicate 4062 0) false 0 (ch "i") (bs "estoque") (bs "{}") ∧
  calls (ch "i") ex_reqs (replicate 33 0) 0 (replicate 4062 0) false 0 (ch "i") (bs "estastro") (bs "{}odigo:7}") ∧
  calls (ch "i") ex_reqs (replicate 33 0) 0 (replicate 4062 0) true 1 (ch "?") (bs "lixo") (bs "...") ∧
  (∀ t api json, calls (ch "i") ex_reqs (replicate 33 0) 0 (replicate 4062 0) false 1 t api json → (api, json) = (bs "estoque", bs "{}")).
Proof.
  destruct (api_threads_race (ch "i") ex_reqs (replicate 33 0) 0 (replicate 4062 0)) as (H1 & H2 & H3 & H4).
  - repeat (apply Forall_cons; split); [..|constructor]; (split_and!; [by apply (bool_decide_unpack _)..|simpl; lia|simpl; lia]).
  - done.
  - done.
  - split_and!.
    + apply (H2 0%nat 1%nat (bs "estoque", bs "{}")); [lia|done].
    + apply (H3 0%nat (bs "cadastro", bs "{codigo:7}") (bs "estoque", bs "{}") 3%nat 2%nat); [done|done|simpl; lia|simpl; lia].
    + apply H4; [simpl; lia|]. split_and!; [by apply (bool_decide_unpack _)..|simpl; lia|simpl; lia].
    + intros t api json H. by destruct (H1 1%nat (bs "estoque", bs "{}") t api json eq_refl H) as (_ & _ & _ & E); apply E.
Defined.
