(* ===== verification/Terminal.v ===== *)
(** What the terminal emulator (src/putty) adds for the system: the copy of the screen, the
    decimal point of the number under the cursor, and the window that stays open while the
    system runs (src/putty/unix/ava.c, src/putty/windows/ava.c and the lines of
    src/putty/terminal.c and src/putty/unix/gtkwin.c that call them). *)

From stdpp Require Import prelude strings.
From S2P Require Import Prelude Hoare.
Local Open Scope Z_scope.

(** ** The program *)

(** src/putty/unix/ava.c:9-20 globals (and src/putty/terminal.c:66-67): the screen is 25 lines of
    81 bytes, one after the other in memory. *)
Record term := mk_term {
  linhas : bytes; integral : bool; vermelho22 : bool; vermelho23 : bool;
  decimal_point : Z; inativo : bool; t_enviado : Z; t_recebido : Z;
}.

Definition LINES : Z := 25.
Definition WIDTH : Z := 81.

Definition set_linhas l (t : term) : term :=
  mk_term l (integral t) (vermelho22 t) (vermelho23 t) (decimal_point t) (inativo t) (t_enviado t) (t_recebido t).
Definition set_integral b (t : term) : term :=
  mk_term (linhas t) b (vermelho22 t) (vermelho23 t) (decimal_point t) (inativo t) (t_enviado t) (t_recebido t).
Definition set_vermelho22 b (t : term) : term :=
  mk_term (linhas t) (integral t) b (vermelho23 t) (decimal_point t) (inativo t) (t_enviado t) (t_recebido t).
Definition set_vermelho23 b (t : term) : term :=
  mk_term (linhas t) (integral t) (vermelho22 t) b (decimal_point t) (inativo t) (t_enviado t) (t_recebido t).
Definition set_decimal c (t : term) : term :=
  mk_term (linhas t) (integral t) (vermelho22 t) (vermelho23 t) c (inativo t) (t_enviado t) (t_recebido t).

(** src/putty/unix/ava.c:28-30 ava_enviado *)
Definition ava_enviado z (t : term) : term :=
  mk_term (linhas t) (integral t) (vermelho22 t) (vermelho23 t) (decimal_point t) (inativo t) z (t_recebido t).

(** src/putty/unix/ava.c:32-34 ava_recebido *)
Definition ava_recebido z (t : term) : term :=
  mk_term (linhas t) (integral t) (vermelho22 t) (vermelho23 t) (decimal_point t) (inativo t) (t_enviado t) z.

(** The place of [linhas[y][i]] in memory, and its byte: one outside the screen is an error. *)
Definition cell_at (l : bytes) (y i : Z) : option Z :=
  let k := WIDTH * y + i in if k <? 0 then None else l !! Z.to_nat k.
Definition cell (y i : Z) : M term Z := t ← gets linhas; of_option (cell_at t y i).

(** The keys of the toolkit for the decimal point, and those [ava_move] remembers. *)
Record keyset := mk_keys { k_period : Z; k_comma : Z; k_decimal : Z; k_separator : Z }.

(** src/putty/unix/ava.c:52-52 ava_move (the blanks): [for (i = x; linhas[y][i] == ' '; i++)]. *)
Fixpoint skip_sp (fuel : nat) (y i : Z) : M term Z :=
  match fuel with
  | O => stop NoFuel
  | S fuel' => c ← cell y i; if c =? 32 then skip_sp fuel' y (i + 1) else mret i
  end.

(** src/putty/unix/ava.c:78-88 ava_move (the digits after the point): where they end, and whether
    they do at a blank or at the end of the line. *)
Fixpoint fraction (fuel : nat) (y i : Z) : M term (Z * bool) :=
  match fuel with
  | O => stop NoFuel
  | S fuel' =>
      c ← cell y i;
      if negb (c =? 0) && (i <? 80) then
        if c =? 32 then mret (i, true) else if negb (isdigit c) then mret (i, false) else fraction fuel' y (i + 1)
      else mret (i, true)
  end.

(** src/putty/unix/ava.c:72-74 ava_move (the digits around the point): the conditions stop at
    the first that fails. *)
Definition around (y i : Z) : M term bool :=
  a ← cell y (i - 1);
  if negb (isdigit a) then mret false
  else b ← cell y (i + 1); if negb (isdigit b) then mret false else c ← cell y (i + 2); mret (isdigit c).

(** src/putty/unix/ava.c:57-95 ava_move (the loop over the word) *)
Fixpoint move_loop (ks : keyset) (fuel : nat) (y i : Z) : M term unit :=
  match fuel with
  | O => stop NoFuel
  | S fuel' =>
      c ← cell y i;
      if negb (c =? 0) && (i <? 78) then
        if i =? 0 then move_loop ks fuel' y (i + 1)
        else if c =? 32 then mret tt
        else if negb (c =? ch ".") && negb (c =? ch ",") then move_loop ks fuel' y (i + 1)
        else
          ok ← around y i;
          if ok : bool then
            p ← fraction (Z.to_nat (82 - i)) y (i + 2);
            if snd p : bool then modify (set_decimal (if c =? ch "." then k_period ks else k_comma ks))
            else move_loop ks fuel' y (fst p + 1)
          else move_loop ks fuel' y (i + 1)
      else mret tt
  end.

(** src/putty/unix/ava.c:45-101 ava_move (as in src/putty/windows/ava.c) *)
Definition ava_move (ks : keyset) (y x : Z) : M term unit :=
  if 24 <? y then mret tt
  else
    i ← skip_sp (Z.to_nat (LINES * WIDTH + 1 - (WIDTH * y + x))) y x;
    move_loop ks (S (Z.to_nat (78 - i))) y i.

(** src/putty/unix/ava.c:109-113 ava_converte_decimal (the cell before the cursor) *)
Definition typing_unix (c : Z) : bool := isdigit c || (c =? 32) || (c =? ch "|") || (c <=? 31) || (128 <=? c).

(** src/putty/windows/ava.c:80-80 ava_converte_decimal (the cell before the cursor) *)
Definition typing_windows (c : Z) : bool := isdigit c || (c =? 32).

(** src/putty/unix/ava.c:103-127 ava_converte_decimal (as in src/putty/windows/ava.c) : the result is
    converted to a [short] on Unix ([ret] is [s16]), to a [WORD] on Windows ([u16]). The [short] is
    declared [int] where it is used (src/putty/unix/gtkwin.c:1036): what the upper half holds there
    is not defined. *)
Definition ava_converte_decimal (ret : Z → Z) (typing : Z → bool) (ks : keyset) (tecla y x : Z) : M term Z :=
  on ← gets integral; d ← gets decimal_point;
  if negb on || (d =? ch "?") || (24 <? y) || (x =? 0) then mret (ret tecla)
  else
    c ← cell y (x - 1);
    if negb (typing c) then mret (ret tecla)
    else mret (ret (if (tecla =? k_period ks) || (tecla =? k_comma ks) || (tecla =? k_decimal ks) || (tecla =? k_separator ks) then d else tecla)).

(** src/putty/unix/ava.c:160-162 ava_integral (the test of a cell): a colon after a digit after
    an F; the conditions stop at the first that fails. *)
Definition fkey (y i : Z) : M term bool :=
  c ← cell y i;
  if negb (c =? ch ":") then mret false
  else f ← cell y (i - 2); if negb (f =? ch "F") then mret false else d ← cell y (i - 1); mret (isdigit d).

(** src/putty/unix/ava.c:158-169 ava_integral (the loops): each column of the two lines. *)
Fixpoint fkey_loop (n : nat) (i : Z) : M term unit :=
  match n with
  | O => mret tt
  | S n' =>
      a ← fkey 22 i;
      (if a : bool then modify (set_integral true)
       else b ← fkey 23 i; if b : bool then modify (set_integral true) else mret tt);;
      fkey_loop n' (i + 1)
  end.

(** The C string at the start of a line. *)
Definition line_str (l : bytes) (y : nat) : bytes := cstr (drop (81 * y) l).

(** A text without a NUL up to the end of the screen would be read past it. *)
Definition line_ends (l : bytes) (y : nat) : bool := existsb (λ c, c =? 0) (drop (81 * y) l).

(** [strstr(linhas[y], p) != NULL] *)
Definition line_has (y : nat) (p : bytes) : M term bool :=
  l ← gets linhas;
  guard_fault (line_ends l y);;
  mret (bool_decide (is_Some (strstr (line_str l y) p))).

(** src/putty/unix/ava.c:149-152 ava_integral (the texts of the system): the comparisons stop at the
    first that holds. *)
Definition menu_text : M term bool :=
  l ← gets linhas;
  if prefixb (bs "Avanco") (line_str l 22) || prefixb (bs "Avanco") (line_str l 23) then mret true
  else
    a ← line_has 22 (bs "Confirma");
    if a : bool then mret true else line_has 23 (bs "Confirma").

(** src/putty/unix/ava.c:140-178 ava_integral *)
Definition ava_integral : M term unit :=
  off ← gets inativo;
  if off : bool then modify (set_integral false)
  else
    m ← menu_text;
    modify (set_integral m);;
    on ← gets integral;
    if on : bool then mret tt
    else
      fkey_loop 78 2;;
      on ← gets integral;
      if on : bool then mret tt else modify (λ t, set_integral (vermelho22 t || vermelho23 t) t).

(** src/putty/unix/ava.c:129-138 ava_seta_cor *)
Definition ava_seta_cor (y nbg : Z) : M term unit :=
  if y =? 22 then modify (set_vermelho22 (nbg =? 1));; ava_integral
  else if y =? 23 then modify (set_vermelho23 (nbg =? 1));; ava_integral
  else mret tt.

(** src/putty/unix/ava.c:23-26 ava_inativa *)
Definition ava_inativa (t : term) : term :=
  mk_term (linhas t) false (vermelho22 t) (vermelho23 t) (decimal_point t) true (t_enviado t) (t_recebido t).

(** src/putty/unix/ava.c:36-43 ava_tempo_resposta : the seconds are an [int]. *)
Definition ava_tempo_resposta (t : term) : term :=
  let tempo := s32 (t_recebido t - t_enviado t) in
  if (10 <? tempo) || (tempo <? -10) then set_integral false t else t.

(** src/putty/terminal.c:5409-5411 do_paint_draw (the copy of the text) *)
Fixpoint paint_loop (x y i : Z) (s : bytes) : M term unit :=
  match s with
  | [] => mret tt
  | c :: s' =>
      if x + i <? 80 then
        l ← gets linhas;
        let k := WIDTH * y + (x + i) in
        guard_fault ((0 <=? k) && (k <? Z.of_nat (length l)));;
        modify (set_linhas (<[Z.to_nat k := u8 c]> l));;
        paint_loop x y (i + 1) s'
      else mret tt
  end.

(** src/putty/terminal.c:5401-5415 do_paint_draw (before the drawing) *)
Definition paint (x y nbg : Z) (s : bytes) : M term unit :=
  (if y <? 25 then
     (if (x =? 0) && ((y =? 22) || (y =? 23)) then ava_seta_cor y nbg else mret tt);;
     paint_loop x y 0 s
   else mret tt);;
  if (y =? 22) || (y =? 23) then ava_integral else mret tt.

(** A blank line as [strcpy] leaves it. *)
Definition blank_line : bytes := replicate 80 32 ++ [0].

(** src/putty/terminal.c:1298-1301 power_on (the copy of the screen) *)
Definition power_on (t : term) : term := set_linhas (mjoin (replicate 25 blank_line)) t.

(** ** On Windows *)

(** [strncmp(linhas[y], p, length p)], stopping at the first difference. *)
Fixpoint begins (y i : Z) (p : bytes) : M term bool :=
  match p with
  | [] => mret true
  | x :: p' => c ← cell y i; if c =? x then begins y (i + 1) p' else mret false
  end.

(** src/putty/windows/ava.c:113-120 ava_integral (the loop) *)
Fixpoint w_fkey_loop (n : nat) (y i : Z) : M term unit :=
  match n with
  | O => mret tt
  | S n' => a ← fkey y i; if a : bool then modify (set_integral true) else w_fkey_loop n' y (i + 1)
  end.

(** src/putty/windows/ava.c:104-126 ava_integral *)
Definition w_integral (y : Z) : M term unit :=
  b ← begins y 0 (bs "Avanco");
  modify (set_integral b);;
  if b : bool then mret tt
  else
    w_fkey_loop 78 y 2;;
    on ← gets integral;
    if on : bool then mret tt else modify (λ t, set_integral (vermelho22 t || vermelho23 t) t).

(** src/putty/windows/ava.c:95-102 ava_seta_cor *)
Definition w_seta_cor (y r g : Z) : M term unit :=
  (if y =? 22 then modify (set_vermelho22 ((r =? 187) && (g =? 0))) else modify (set_vermelho23 ((r =? 187) && (g =? 0))));;
  w_integral y.

(** src/putty/terminal.c:5401-5415 do_paint_draw (on Windows): the call [ava_integral()] gives no
    argument to the function of one, which finds whatever [y0] the register holds. *)
Definition w_paint (y0 x y : Z) (s : bytes) : M term unit :=
  (if y <? 25 then paint_loop x y 0 s else mret tt);;
  if (y =? 22) || (y =? 23) then w_integral y0 else mret tt.
