(* ===== verification/TerminalSpec.v ===== *)
(** What the additions to the terminal emulator guarantee: the reads of the screen stay inside
    it, the flag of the system is the text of the two last lines, and the decimal point is that
    of the number under the cursor. *)

From stdpp Require Import prelude strings.
From S2P Require Import Prelude Hoare Terminal.
Local Open Scope Z_scope.

(** ** The screen *)

Definition screen_ok (l : bytes) : Prop := length l = 2025%nat ∧ ∀ y, 0 <= y < LINES → cell_at l y 80 = Some 0.

Lemma cell_run t y i c : cell_at (linhas t) y i = Some c → cell y i t = (t, inr c).
Proof. intros H. unfold cell. rewrite (bind_ok _ _ _ _ _ (gets_run _ _)). by rewrite H. Qed.

Lemma cell_total l y i : length l = 2025%nat → 0 <= WIDTH * y + i < 2025 → is_Some (cell_at l y i).
Proof. intros Hl Hi. unfold cell_at. destruct (Z.ltb_spec (WIDTH * y + i) 0); [lia|]. apply lookup_lt_is_Some_2. lia. Qed.

Lemma cell_before t y i : WIDTH * y + i < 0 → cell y i t = (t, inl Fault).
Proof. intros H. unfold cell. rewrite (bind_ok _ _ _ _ _ (gets_run _ _)). unfold cell_at. by rewrite (proj2 (Z.ltb_lt _ _) H). Qed.

Lemma cell_state t y i : fst (cell y i t) = t.
Proof. unfold cell. rewrite (bind_ok _ _ _ _ _ (gets_run _ _)). by destruct (cell_at _ _ _). Qed.

(** A text on a line, from a column on. *)
Definition text (l : bytes) (y i : Z) (w : bytes) : Prop := ∀ k c, w !! k = Some c → cell_at l y (i + Z.of_nat k) = Some c.

Lemma text_cons l y i c w : text l y i (c :: w) ↔ cell_at l y i = Some c ∧ text l y (i + 1) w.
Proof.
  split.
  - intros H. split; [rewrite <-(Z.add_0_r i); by apply (H 0%nat)|]. intros k d E.
    replace (i + 1 + Z.of_nat k) with (i + Z.of_nat (S k)) by lia. by apply H.
  - intros [H0 H] [|k] d; cbn [lookup list_lookup].
    + intros [= <-]. by rewrite Z.add_0_r.
    + intros E. replace (i + Z.of_nat (S k)) with (i + 1 + Z.of_nat k) by lia. by apply H.
Qed.

Lemma text_app l y i v w : text l y i (v ++ w) ↔ text l y i v ∧ text l y (i + Z.of_nat (length v)) w.
Proof.
  revert i. induction v as [|c v IH]; intros i; cbn [app length].
  - rewrite Z.add_0_r. split; [|tauto]. intros H. by split.
  - rewrite !text_cons, IH. replace (i + 1 + Z.of_nat (length v)) with (i + Z.of_nat (S (length v))) by lia. tauto.
Qed.

(** ** The flag of the system *)

Definition fkey_at (l : bytes) (y i : Z) : bool :=
  bool_decide (cell_at l y i = Some (ch ":")) && bool_decide (cell_at l y (i - 2) = Some (ch "F")) &&
  match cell_at l y (i - 1) with Some d => isdigit d | None => false end.

Lemma fkey_run t y i : length (linhas t) = 2025%nat → y = 22 ∨ y = 23 → 2 <= i < 80 → fkey y i t = (t, inr (fkey_at (linhas t) y i)).
Proof.
  intros Hl Hy Hi. assert (∀ j, 0 <= j < 80 → ∃ c, cell_at (linhas t) y j = Some c) as Hc.
  { intros j Hj. apply cell_total; [done|]. unfold WIDTH. destruct Hy as [->| ->]; lia. }
  destruct (Hc i ltac:(lia)) as [c Ec]. destruct (Hc (i - 2) ltac:(lia)) as [f Ef]. destruct (Hc (i - 1) ltac:(lia)) as [d Ed].
  unfold fkey, fkey_at. rewrite (bind_ok _ _ _ _ _ (cell_run _ _ _ _ Ec)), Ec, Ef, Ed.
  destruct (Z.eqb_spec c (ch ":")) as [->|Hne]; cbn [negb]; [|by rewrite bool_decide_false by congruence].
  rewrite (bind_ok _ _ _ _ _ (cell_run _ _ _ _ Ef)).
  destruct (Z.eqb_spec f (ch "F")) as [->|Hne]; cbn [negb]; [|by rewrite (bool_decide_false (Some f = _)), andb_false_r by congruence].
  by rewrite (bind_ok _ _ _ _ _ (cell_run _ _ _ _ Ed)).
Qed.

Fixpoint fkeys (l : bytes) (n : nat) (i : Z) : bool :=
  match n with O => false | S n' => fkey_at l 22 i || fkey_at l 23 i || fkeys l n' (i + 1) end.

Lemma fkeys_spec l n i : fkeys l n i = true ↔ ∃ y j, (y = 22 ∨ y = 23) ∧ i <= j < i + Z.of_nat n ∧ fkey_at l y j = true.
Proof.
  revert i. induction n as [|n IH]; intros i; cbn [fkeys]; [split; [done|intros (y & j & _ & ? & _); lia]|].
  rewrite !orb_true_iff, IH. split.
  - intros [[H|H]|(y & j & Hy & Hj & H)]; [exists 22, i|exists 23, i|exists y, j]; (split; [tauto|]); (split; [lia|done]).
  - intros (y & j & Hy & Hj & H). destruct (decide (j = i)) as [->|Hne]; [destruct Hy as [->| ->]; tauto|]. right. exists y, j. split; [done|]. split; [lia|done].
Qed.

Lemma fkey_loop_run n i t : length (linhas t) = 2025%nat → 2 <= i → i + Z.of_nat n <= 80 →
  fkey_loop n i t = (set_integral (integral t || fkeys (linhas t) n i) t, inr tt).
Proof.
  revert i t. induction n as [|n IH]; intros i t Hl Hi Hn; cbn [fkey_loop fkeys]; [rewrite orb_false_r; by destruct t|].
  rewrite (bind_ok _ _ _ _ _ (fkey_run t 22 i Hl (or_introl eq_refl) ltac:(lia))).
  destruct (fkey_at (linhas t) 22 i) eqn:E22.
  { rewrite (bind_ok _ _ _ _ _ (modify_run _ _)), IH by (done || lia). cbn. by rewrite orb_true_r. }
  rewrite (bind_ok (b ← fkey 23 i; if b : bool then modify (set_integral true) else mret tt) _ t
    (if fkey_at (linhas t) 23 i then set_integral true t else t) tt); last first.
  { rewrite (bind_ok _ _ _ _ _ (fkey_run t 23 i Hl (or_intror eq_refl) ltac:(lia))). by destruct (fkey_at _ 23 i). }
  destruct (fkey_at (linhas t) 23 i) eqn:E23; (rewrite IH by (done || lia)); cbn; [by rewrite orb_true_r|done].
Qed.

(** The texts of the system. *)
Definition shows_text (l : bytes) : bool :=
  prefixb (bs "Avanco") (line_str l 22) || prefixb (bs "Avanco") (line_str l 23) ||
  bool_decide (is_Some (strstr (line_str l 22) (bs "Confirma"))) || bool_decide (is_Some (strstr (line_str l 23) (bs "Confirma"))).

(** A NUL in the last two lines ends both texts. *)
Lemma line_ends_both l : line_ends l 23 = true → line_ends l 22 = true.
Proof.
  unfold line_ends. rewrite !existsb_exists. intros (c & Hc & E). exists c. split; [|done]. apply list_elem_of_In in Hc. apply list_elem_of_In.
  apply list_elem_of_lookup in Hc as [i Hi]. rewrite lookup_drop in Hi. apply (list_elem_of_lookup_2 _ (81 + i)%nat). rewrite lookup_drop. exact Hi.
Qed.

Lemma screen_ends l : screen_ok l → line_ends l 23 = true.
Proof.
  intros [Hl Hz]. apply existsb_exists. exists 0. split; [|done]. apply list_elem_of_In, (list_elem_of_lookup_2 _ 80%nat). rewrite lookup_drop.
  specialize (Hz 23 ltac:(unfold LINES; lia)). unfold cell_at, WIDTH in Hz. rewrite (proj2 (Z.ltb_ge _ _)) in Hz by lia. by rewrite <-Hz.
Qed.

Lemma menu_text_run t : line_ends (linhas t) 23 = true → menu_text t = (t, inr (shows_text (linhas t))).
Proof.
  intros He. pose proof (line_ends_both _ He) as He2. unfold menu_text, shows_text. rewrite (bind_ok _ _ _ _ _ (gets_run _ _)). destruct (_ || _); [done|]. cbn [orb].
  assert (∀ y, line_ends (linhas t) y = true → line_has y (bs "Confirma") t = (t, inr (bool_decide (is_Some (strstr (line_str (linhas t) y) (bs "Confirma")))))) as Hh.
  { intros y Hy. unfold line_has. by rewrite (bind_ok _ _ _ _ _ (gets_run _ _)), Hy. }
  rewrite (bind_ok _ _ _ _ _ (Hh 22%nat He2)). destruct (bool_decide _); [done|]. by rewrite Hh.
Qed.

(** The system is on the screen, or one of the two lines is red. *)
Definition busy (t : term) : bool := shows_text (linhas t) || fkeys (linhas t) 78 2 || (vermelho22 t || vermelho23 t).

Lemma ava_integral_run t : length (linhas t) = 2025%nat → line_ends (linhas t) 23 = true → ava_integral t = (set_integral (negb (inativo t) && busy t) t, inr tt).
Proof.
  intros Hl He. unfold ava_integral. rewrite (bind_ok _ _ _ _ _ (gets_run _ _)). destruct (inativo t) eqn:Hi; [done|]. cbn [negb andb].
  rewrite (bind_ok _ _ _ _ _ (menu_text_run t He)), (bind_ok _ _ _ _ _ (modify_run _ _)), (bind_ok _ _ _ _ _ (gets_run _ _)). unfold busy.
  destruct (shows_text (linhas t)) eqn:Hm; cbn [integral set_integral]; [done|].
  erewrite bind_ok by (apply fkey_loop_run; [done|lia|lia]).
  rewrite (bind_ok _ _ _ _ _ (gets_run _ _)). cbn [integral set_integral linhas orb]. by destruct (fkeys _ _ _).
Qed.

(** A screen whose end holds no NUL is read past its end. *)
Lemma ava_integral_past t : inativo t = false → prefixb (bs "Avanco") (line_str (linhas t) 22) || prefixb (bs "Avanco") (line_str (linhas t) 23) = false →
  line_ends (linhas t) 22 = false → ava_integral t = (t, inl Fault).
Proof.
  intros Hi Hp He. unfold ava_integral. rewrite (bind_ok _ _ _ _ _ (gets_run _ _)), Hi. apply bind_err. unfold menu_text.
  rewrite (bind_ok _ _ _ _ _ (gets_run _ _)), Hp. apply bind_err. unfold line_has. rewrite (bind_ok _ _ _ _ _ (gets_run _ _)), He. done.
Qed.

(** ** The texts *)

(** What a line of the system looks like: its title, a question, or the name of a function key. *)
Definition shows_system (l : bytes) (y : nat) : Prop :=
  (∃ r, line_str l y = bs "Avanco" ++ r) ∨ (∃ a b, line_str l y = a ++ bs "Confirma" ++ b) ∨
  (∃ i d, 0 <= i < 78 ∧ isdigit d = true ∧ text l (Z.of_nat y) i [ch "F"; d; ch ":"]).

Lemma fkey_at_spec l y i : fkey_at l y i = true ↔ ∃ d, isdigit d = true ∧ text l y (i - 2) [ch "F"; d; ch ":"].
Proof.
  unfold fkey_at. rewrite !andb_true_iff, !bool_decide_eq_true. setoid_rewrite text_cons. setoid_rewrite text_cons. setoid_rewrite text_cons.
  replace (i - 2 + 1) with (i - 1) by lia. replace (i - 1 + 1) with i by lia. split.
  - intros [[Hc Hf] Hd]. destruct (cell_at l y (i - 1)) as [d|]; [|done]. exists d. by split_and!.
  - intros (d & Hd & Hf & Ed & Hc & _). by rewrite Ed.
Qed.

Lemma busy_spec t : busy t = true ↔ shows_system (linhas t) 22 ∨ shows_system (linhas t) 23 ∨ vermelho22 t = true ∨ vermelho23 t = true.
Proof.
  unfold busy, shows_text, shows_system. rewrite !orb_true_iff, !bool_decide_eq_true, !prefixb_app, !strstr_spec, fkeys_spec. setoid_rewrite fkey_at_spec. split.
  - intros [[[[[H|H]|H]|H]|(y & j & Hy & Hj & d & Hd & Ht)]|H]; try tauto. destruct Hy as [->| ->].
    + left. right. right. exists (j - 2), d. split; [lia|]. by split.
    + right. left. right. right. exists (j - 2), d. split; [lia|]. by split.
  - intros [[H|[H|(i & d & Hi & Hd & Ht)]]|[[H|[H|(i & d & Hi & Hd & Ht)]]|H]]; try tauto; left; right; [exists 22, (i + 2)|exists 23, (i + 2)];
      (split; [tauto|]); (split; [lia|]); exists d; (split; [done|]); by replace (i + 2 - 2) with i by lia.
Qed.

(** C27: The flag of the system is computed from the screen alone: it is set exactly when, on a
    connection that has not failed, one of the two last lines begins with the title Avanco,
    holds the question Confirma or the name of a function key (an F, a digit and a colon), or
    is red; nothing else of the state changes and every read is inside the screen, as long as its
    end still holds a NUL (column 80 of each line does). Without one, and without the title, the
    search for the question runs past the screen. *)
Theorem integral_shows t : length (linhas t) = 2025%nat →
  (line_ends (linhas t) 23 = true → ∃ b, ava_integral t = (set_integral b t, inr tt) ∧
    (b = true ↔ inativo t = false ∧
      (shows_system (linhas t) 22 ∨ shows_system (linhas t) 23 ∨ vermelho22 t = true ∨ vermelho23 t = true))) ∧
  (line_ends (linhas t) 22 = false → inativo t = false →
    prefixb (bs "Avanco") (line_str (linhas t) 22) || prefixb (bs "Avanco") (line_str (linhas t) 23) = false → ava_integral t = (t, inl Fault)).
Proof.
  intros Hl. split; [|intros He Hi Hp; by apply ava_integral_past]. intros He. eexists. split; [by apply ava_integral_run|].
  rewrite andb_true_iff, negb_true_iff, busy_spec. done.
Qed.

(** On Windows the flag is that of whatever line the missing argument names: one before the
    screen is read. *)
Lemma windows_flag_unset y0 x y t : y = 22 ∨ y = 23 → y0 < 0 → w_paint y0 x y [] t = (t, inl Fault).
Proof.
  intros Hy Hy0. unfold w_paint. destruct Hy as [->| ->]; cbn [Z.ltb Z.compare Pos.compare Pos.compare_cont paint_loop];
    rewrite (bind_ok _ _ t t tt eq_refl); apply bind_err, bind_err, cell_before; unfold WIDTH; lia.
Qed.

(** ** The decimal point *)

Section decimal.
Context (ks : keyset).

Lemma fraction_after fuel y i t t' p : fraction fuel y i t = (t', inr p) → t' = t ∧ i <= fst p.
Proof.
  revert i. induction fuel as [|fuel IH]; intros i; [done|]. cbn [fraction]. intros (t1 & c & E & H)%bind_inv.
  pose proof (cell_state t y i) as Hs. rewrite E in Hs. cbn in Hs. subst t1.
  destruct (negb (c =? 0) && (i <? 80)); [|by injection H as <- <-]. destruct (c =? 32); [by injection H as <- <-|].
  destruct (negb (isdigit c)); [by injection H as <- <-|]. apply IH in H as [-> H]. split; [done|lia].
Qed.

(** More fuel changes nothing. *)
Lemma move_loop_fuel y f1 f2 i t : 78 - i < Z.of_nat f1 → 78 - i < Z.of_nat f2 → (0 < f1)%nat → (0 < f2)%nat →
  move_loop ks f1 y i t = move_loop ks f2 y i t.
Proof.
  revert f2 i t. induction f1 as [|f1 IH]; intros [|f2] i t H1 H2 P1 P2; try lia. cbn [move_loop]. unfold mbind, M_bind.
  destruct (cell y i t) as [t1 [e|c]]; [done|]. destruct (c =? 0); [done|]. cbn [negb andb]. destruct (Z.ltb_spec i 78); [|done].
  assert (∀ j t', i < j → move_loop ks f1 y j t' = move_loop ks f2 y j t') as Hj.
  { intros j t' Hj. apply IH; lia. }
  destruct (i =? 0); [by apply Hj; lia|]. destruct (c =? 32); [done|]. destruct (_ && _); [by apply Hj; lia|].
  destruct (around y i t1) as [t2 [e|[]]]; [done| |by apply Hj; lia].
  destruct (fraction _ y (i + 2) t2) as [t3 [e|p]] eqn:Ef; [done|]. destruct (snd p); [done|]. apply Hj. apply fraction_after in Ef as [_ ?]. lia.
Qed.

Definition loop (y i : Z) : M term unit := move_loop ks (S (Z.to_nat (78 - i))) y i.

Definition is_sep (c : Z) : bool := (c =? ch ".") || (c =? ch ",").
Definition point (c : Z) : Z := if c =? ch "." then k_period ks else k_comma ks.

(** The loop on a character. *)
Lemma loop_past t y i c : cell_at (linhas t) y i = Some c → 78 <= i → loop y i t = (t, inr tt).
Proof.
  intros Hc Hi. unfold loop. cbn [move_loop]. rewrite (bind_ok _ _ _ _ _ (cell_run _ _ _ _ Hc)).
  by rewrite (proj2 (Z.ltb_ge i 78) Hi), andb_false_r.
Qed.

Lemma loop_step t y i c : cell_at (linhas t) y i = Some c → c ≠ 0 → i < 78 →
  loop y i t = (if i =? 0 then loop y (i + 1) else if c =? 32 then mret tt else if negb (is_sep c) then loop y (i + 1)
    else ok ← around y i;
      if ok : bool then
        p ← fraction (Z.to_nat (82 - i)) y (i + 2);
        if snd p : bool then modify (set_decimal (point c)) else loop y (fst p + 1)
      else loop y (i + 1)) t.
Proof.
  intros Hc H0 Hi. unfold loop at 1. cbn [move_loop]. rewrite (bind_ok _ _ _ _ _ (cell_run _ _ _ _ Hc)).
  rewrite (proj2 (Z.eqb_neq _ _) H0), (proj2 (Z.ltb_lt _ _) Hi). cbn [negb andb].
  assert (∀ j t', i < j → move_loop ks (Z.to_nat (78 - i)) y j t' = loop y j t') as Hj.
  { intros j t' Hj. unfold loop. apply move_loop_fuel; lia. }
  destruct (i =? 0); [by apply Hj; lia|]. destruct (c =? 32); [done|]. unfold is_sep. rewrite negb_orb.
  destruct (_ && _); [by apply Hj; lia|]. unfold mbind, M_bind. destruct (around y i t) as [t2 [e|[]]]; [done| |by apply Hj; lia].
  destruct (fraction _ y (i + 2) t2) as [t3 [e|p]] eqn:Ef; [done|]. destruct (snd p); [done|]. apply Hj. apply fraction_after in Ef as [_ ?]. lia.
Qed.

Lemma digit_not c : isdigit c = true → c ≠ 0 ∧ c ≠ 32 ∧ is_sep c = false.
Proof. intros H%isdigit_range. unfold is_sep. repeat split; try lia. apply orb_false_iff. split; apply Z.eqb_neq; change (ch ".") with 46; change (ch ",") with 44; lia. Qed.

Notation digits d := (Forall (λ c, isdigit c = true) d).

Lemma loop_digits d w y i t : digits d → w ≠ [] → 0 <= i → text (linhas t) y i (d ++ w) → loop y i t = loop y (i + Z.of_nat (length d)) t.
Proof.
  intros Hd Hw. revert i. induction Hd as [|c d Hc _ IH]; intros i Hi Ht; cbn [length]; [by rewrite Z.add_0_r|].
  cbn [app] in Ht. apply text_cons in Ht as [H0 Ht]. destruct (digit_not c Hc) as (Hc0 & Hc32 & Hsep).
  replace (i + Z.of_nat (S (length d))) with (i + 1 + Z.of_nat (length d)) by lia. rewrite <-IH by (lia || done).
  destruct (Z.lt_ge_cases i 78) as [Hlt|Hge].
  - rewrite (loop_step t y i c) by done. rewrite Hsep, (proj2 (Z.eqb_neq _ _) Hc32). by destruct (i =? 0).
  - rewrite (loop_past t y i c) by done. destruct d as [|c' d]; [destruct w as [|c' w]; [done|]|]; apply text_cons in Ht as [H1 _]; by rewrite (loop_past t y (i + 1) c') by (done || lia).
Qed.

Lemma fraction_digits d e y i t fuel : digits d → text (linhas t) y i (d ++ [e]) → isdigit e = false → i + Z.of_nat (length d) <= 80 →
  (length d < fuel)%nat → (i + Z.of_nat (length d) = 80 → e = 0) →
  fraction fuel y i t = (t, inr (i + Z.of_nat (length d), (e =? 0) || (e =? 32))).
Proof.
  intros Hd. revert i fuel. induction Hd as [|c d Hc _ IH]; intros i [|fuel] Ht He Hi Hfuel H80; cbn [length app] in *; try lia;
    apply text_cons in Ht as [H0 Ht]; cbn [fraction]; rewrite (bind_ok _ _ _ _ _ (cell_run _ _ _ _ H0)).
  - rewrite Z.add_0_r in *. destruct (Z.eqb_spec e 0) as [->|He0]; [done|]. cbn [negb andb orb].
    rewrite (proj2 (Z.ltb_lt i 80)) by lia. destruct (Z.eqb_spec e 32); [done|]. by rewrite He.
  - destruct (digit_not c Hc) as (Hc0 & Hc32 & _). rewrite (proj2 (Z.eqb_neq _ _) Hc0), (proj2 (Z.eqb_neq _ _) Hc32), (proj2 (Z.ltb_lt i 80)) by lia.
    cbn [negb andb]. rewrite Hc. cbn [negb]. rewrite IH by (done || lia). do 3 f_equal. lia.
Qed.

Lemma around_digits a s b c w y i t : text (linhas t) y (i - 1) (a :: s :: b :: c :: w) → isdigit a = true → isdigit b = true → isdigit c = true →
  around y i t = (t, inr true).
Proof.
  intros (Ha & Ht)%text_cons Da Db Dc. replace (i - 1 + 1) with i in Ht by lia. apply text_cons in Ht as [_ Ht]. apply text_cons in Ht as [Hb Ht].
  replace (i + 1 + 1) with (i + 2) in Ht by lia. apply text_cons in Ht as [Hc _]. unfold around.
  rewrite (bind_ok _ _ _ _ _ (cell_run _ _ _ _ Ha)), Da. cbn [negb]. rewrite (bind_ok _ _ _ _ _ (cell_run _ _ _ _ Hb)), Db. cbn [negb].
  rewrite (bind_ok _ _ _ _ _ (cell_run _ _ _ _ Hc)). by rewrite Dc.
Qed.

(** At a separator with digits around: either the digits end the number, or the scan goes on
    after the character that ends them. *)
Lemma loop_sep a s g e y i t : text (linhas t) y (i - 1) (a :: s :: g ++ [e]) → isdigit a = true → is_sep s = true → digits g → (2 <= length g)%nat →
  isdigit e = false → 1 <= i → i + 1 + Z.of_nat (length g) <= 80 → (i + 1 + Z.of_nat (length g) = 80 → e = 0) →
  loop y i t = (if (e =? 0) || (e =? 32) then modify (set_decimal (point s)) else loop y (i + 2 + Z.of_nat (length g))) t.
Proof.
  intros Ht Ha Hs Hg Hlen He Hi Hend H80. destruct g as [|b g]; [simpl in Hlen; lia|]. destruct g as [|c g]; [simpl in Hlen; lia|].
  pose proof (proj1 (text_cons _ _ _ _ _) Ht) as [_ Ht1]. replace (i - 1 + 1) with i in Ht1 by lia. apply text_cons in Ht1 as [H0 Ht1]. cbn [app] in *.
  apply text_cons in Ht1 as [_ Ht2]. replace (i + 1 + 1) with (i + 2) in Ht2 by lia.
  apply Forall_cons in Hg as [Hb Hg]. cbn [length] in *.
  assert (s ≠ 0 ∧ s ≠ 32) as [Hs0 Hs32].
  { unfold is_sep in Hs. apply orb_true_iff in Hs. rewrite !Z.eqb_eq in Hs. destruct Hs as [->| ->]; done. }
  rewrite (loop_step t y i s) by (done || lia). rewrite (proj2 (Z.eqb_neq i 0)), (proj2 (Z.eqb_neq _ _) Hs32), Hs by lia. cbn [negb].
  rewrite (bind_ok _ _ _ _ _ (around_digits a s b c _ y i t Ht Ha Hb (Forall_inv Hg))).
  rewrite (bind_ok _ _ _ _ _ (fraction_digits (c :: g) e y (i + 2) t (Z.to_nat (82 - i)) Hg Ht2 He ltac:(simpl; lia) ltac:(simpl; lia) ltac:(simpl; lia))).
  cbn [fst snd length]. destruct (_ || _); [done|]. f_equal. lia.
Qed.

(** The groups of digits of a number, each after its separator. *)
Definition groups (gs : list (Z * bytes)) : bytes := mjoin ((λ p, fst p :: snd p) <$> gs).
Definition groups_ok (gs : list (Z * bytes)) : Prop := Forall (λ p, is_sep (fst p) = true ∧ digits (snd p) ∧ (2 <= length (snd p))%nat) gs.

(** What the scan of a number leaves: the last separator when there is an odd number of them. *)
Definition found (gs : list (Z * bytes)) (t : term) : term :=
  if Nat.odd (length gs) then match last gs with Some p => set_decimal (point (fst p)) t | None => t end else t.

Lemma found_two p q gs t : found (p :: q :: gs) t = found gs t.
Proof. unfold found. cbn [length]. rewrite Nat.odd_succ_succ. destruct gs as [|r gs]; [done|]. by rewrite !last_cons_cons. Qed.

Lemma loop_end e y i t : cell_at (linhas t) y i = Some e → e = 0 ∨ e = 32 → 1 <= i → loop y i t = (t, inr tt).
Proof.
  intros Hc He Hi. destruct (Z.lt_ge_cases i 78) as [Hlt|Hge]; [|by eapply loop_past]. destruct He as [->| ->].
  - unfold loop. cbn [move_loop]. by rewrite (bind_ok _ _ _ _ _ (cell_run _ _ _ _ Hc)).
  - rewrite (loop_step t y i 32) by done. by rewrite (proj2 (Z.eqb_neq i 0)) by lia.
Qed.

Lemma digits_last d : digits d → d ≠ [] → ∃ d' a, d = d' ++ [a] ∧ digits d' ∧ isdigit a = true.
Proof.
  intros Hd Hne. destruct (exists_last Hne) as (d' & a & ->). apply Forall_app in Hd as [H1 H2]. exists d', a. split; [done|]. split; [done|]. by apply Forall_inv in H2.
Qed.

Lemma loop_group s g d w e y i t : digits d → d ≠ [] → is_sep s = true → digits g → (2 <= length g)%nat → isdigit e = false →
  0 <= i → text (linhas t) y i (d ++ s :: g ++ e :: w) → let j := i + Z.of_nat (length d) in
  j + 1 + Z.of_nat (length g) <= 80 → (j + 1 + Z.of_nat (length g) = 80 → e = 0) →
  loop y i t = (if (e =? 0) || (e =? 32) then modify (set_decimal (point s)) else loop y (j + 2 + Z.of_nat (length g))) t.
Proof.
  intros Hd Hd0 Hs Hg Hlen He Hi Ht j Hj Hz. rewrite (loop_digits d (s :: g ++ e :: w)) by done. fold j.
  destruct (digits_last d Hd Hd0) as (d' & a & -> & Hd' & Ha).
  assert (j = i + Z.of_nat (length d') + 1) as Ej by (subst j; rewrite length_app; simpl; lia). clearbody j.
  apply (loop_sep a s g e); try done; [|lia]. change (s :: g ++ e :: w) with (s :: g ++ [e] ++ w) in Ht.
  rewrite <-app_assoc in Ht. apply text_app in Ht as [_ Ht].
  replace (i + Z.of_nat (length d')) with (j - 1) in Ht by lia.
  change ([a] ++ s :: g ++ [e] ++ w) with ((a :: s :: g) ++ [e] ++ w) in Ht. rewrite app_assoc in Ht. apply text_app in Ht as [Ht _].
  exact Ht.
Qed.

Lemma groups_run n gs d e y i t : (length gs <= n)%nat → groups_ok gs → digits d → d ≠ [] → e = 0 ∨ e = 32 → 0 <= i →
  text (linhas t) y i (d ++ groups gs ++ [e]) → i + Z.of_nat (length (d ++ groups gs)) <= 80 →
  (i + Z.of_nat (length (d ++ groups gs)) = 80 → e = 0) → loop y i t = (found gs t, inr tt).
Proof.
  revert gs d i. induction n as [|n IH]; intros gs d i Hn Hgs Hd Hd0 He Hi Ht H80 Hz.
  1: destruct gs; [|simpl in Hn; lia].
  2: destruct gs as [|[s g] gs].
  1,2: rewrite (loop_digits d [e]) by done; apply (loop_end e); [|done|destruct d; [done|simpl; lia]];
    cbn [groups mjoin list_join fmap list_fmap app] in Ht; apply text_app in Ht as [_ Ht]; by apply text_cons in Ht as [? _].
  apply Forall_cons in Hgs as [(Hs & Hg & Hlen) Hgs]. cbn [fst snd] in *.
  assert (groups ((s, g) :: gs) = s :: g ++ groups gs) as Eg by done. rewrite Eg in *. clear Eg. cbn [app] in Ht. rewrite <-app_assoc in Ht.
  rewrite !length_app in H80, Hz. cbn [length] in H80, Hz. rewrite !length_app in H80, Hz.
  destruct gs as [|[s' g'] gs].
  - cbn [groups mjoin list_join fmap list_fmap app length] in Ht, H80, Hz.
    rewrite (loop_group s g d [] e) by first [done|lia|by destruct He as [->| ->]|intros; apply Hz; lia].
    by destruct He as [->| ->].
  - apply Forall_cons in Hgs as [(Hs' & Hg' & Hlen') Hgs]. cbn [fst snd] in *.
    assert (groups ((s', g') :: gs) = s' :: g' ++ groups gs) as Eg by done. rewrite Eg in *. clear Eg. cbn [app] in Ht. rewrite <-app_assoc in Ht.
    cbn [length] in H80, Hz. rewrite !length_app in H80, Hz.
    assert (isdigit s' = false ∧ (s' =? 0) || (s' =? 32) = false) as [Ds' Es'].
    { unfold is_sep in Hs'. apply orb_true_iff in Hs'. rewrite !Z.eqb_eq in Hs'. destruct Hs' as [->| ->]; done. }
    rewrite (loop_group s g d (g' ++ groups gs ++ [e]) s') by (done || lia). rewrite Es', found_two.
    apply (IH gs g'); [simpl in Hn; lia|done|done|intros ->; simpl in Hlen'; lia|done|lia| |rewrite length_app; lia|rewrite length_app; intros; apply Hz; lia].
    apply text_app in Ht as [_ Ht]. change (s :: g ++ s' :: g' ++ groups gs ++ [e]) with ((s :: g) ++ [s'] ++ g' ++ groups gs ++ [e]) in Ht.
    apply text_app in Ht as [_ Ht]. apply text_app in Ht as [_ Ht]. cbn [length] in Ht.
    replace (i + Z.of_nat (length d) + 2 + Z.of_nat (length g)) with (i + Z.of_nat (length d) + Z.of_nat (S (length g)) + Z.of_nat 1) by lia. exact Ht.
Qed.

End decimal.

(** ** The move of the cursor *)

Lemma skip_sp_run n c y i t fuel : text (linhas t) y i (replicate n 32 ++ [c]) → c ≠ 32 → (n < fuel)%nat →
  skip_sp fuel y i t = (t, inr (i + Z.of_nat n)).
Proof.
  revert i fuel. induction n as [|n IH]; intros i [|fuel] Ht Hc Hf; try lia; cbn [replicate app] in Ht; apply text_cons in Ht as [H0 Ht];
    cbn [skip_sp]; rewrite (bind_ok _ _ _ _ _ (cell_run _ _ _ _ H0)).
  - by rewrite (proj2 (Z.eqb_neq _ _) Hc), Z.add_0_r.
  - rewrite Z.eqb_refl, IH by (done || lia). do 2 f_equal. lia.
Qed.

(** The line of a screen ends with its NUL: the blanks stop somewhere. *)
Lemma blanks_end l y i : screen_ok l → 0 <= y < LINES → 0 <= i <= 80 →
  ∃ n c, text l y i (replicate n 32 ++ [c]) ∧ c ≠ 32 ∧ i + Z.of_nat n <= 80.
Proof.
  intros [Hl Hz] Hy Hi. remember (Z.to_nat (80 - i)) as k eqn:Ek. revert i Hi Ek. induction k as [|k IH]; intros i Hi Ek.
  - assert (i = 80) as -> by lia. exists 0%nat, 0. split; [|split; [done|lia]]. apply text_cons. split; [by apply Hz|done].
  - destruct (cell_total l y i Hl) as [c Hc]; [unfold WIDTH, LINES in *; lia|]. destruct (decide (c = 32)) as [->|Hne].
    + destruct (IH (i + 1)) as (n & d & Ht & Hd & Hn); [lia|lia|]. exists (S n), d. split; [|split; [done|lia]].
      cbn [replicate app]. by apply text_cons.
    + exists 0%nat, c. split; [|split; [done|lia]]. by apply text_cons.
Qed.

Lemma fraction_in l y i t fuel : linhas t = l → screen_ok l → 0 <= y < LINES → 0 <= i <= 80 → (Z.to_nat (80 - i) < fuel)%nat →
  ∃ j b, fraction fuel y i t = (t, inr (j, b)) ∧ i <= j ∧ (b = false → j < 80).
Proof.
  intros Hl Hs Hy. pose proof Hs as [Hlen Hz]. revert i. induction fuel as [|fuel IH]; intros i Hi Hf; [lia|]. cbn [fraction].
  destruct (cell_total l y i Hlen) as [c Hc]; [unfold WIDTH, LINES in *; lia|]. rewrite <-Hl in Hc. rewrite (bind_ok _ _ _ _ _ (cell_run _ _ _ _ Hc)).
  destruct (Z.eqb_spec c 0) as [->|H0]; cbn [negb andb]; [exists i, true; split; [done|]; split; [lia|done]|].
  destruct (Z.ltb_spec i 80); [|exists i, true; split; [done|]; split; [lia|done]].
  destruct (c =? 32); [exists i, true; split; [done|]; split; [lia|done]|].
  destruct (isdigit c); cbn [negb]; [|by exists i, false].
  destruct (IH (i + 1)) as (j & b & E & Hj & Hb); [lia|lia|]. exists j, b. split; [done|]. split; [lia|done].
Qed.

Lemma around_in l y i t : linhas t = l → screen_ok l → 0 <= y < LINES → 1 <= i < 78 → ∃ b, around y i t = (t, inr b).
Proof.
  intros Hl [Hlen _] Hy Hi. assert (∀ j, 0 <= j <= 80 → ∃ c, cell_at (linhas t) y j = Some c) as Hc.
  { intros j Hj. rewrite Hl. apply cell_total; [done|]. unfold WIDTH, LINES in *. lia. }
  destruct (Hc (i - 1) ltac:(lia)) as [a Ea]. destruct (Hc (i + 1) ltac:(lia)) as [b Eb]. destruct (Hc (i + 2) ltac:(lia)) as [c Ec].
  unfold around. rewrite (bind_ok _ _ _ _ _ (cell_run _ _ _ _ Ea)). destruct (isdigit a); [|by eexists]. cbn [negb].
  rewrite (bind_ok _ _ _ _ _ (cell_run _ _ _ _ Eb)). destruct (isdigit b); [|by eexists]. cbn [negb].
  rewrite (bind_ok _ _ _ _ _ (cell_run _ _ _ _ Ec)). by eexists.
Qed.

Lemma loop_in ks l y i t : linhas t = l → screen_ok l → 0 <= y < LINES → 0 <= i <= 80 → ∃ d, loop ks y i t = (set_decimal d t, inr tt).
Proof.
  intros Hl Hs Hy Hi. pose proof Hs as [Hlen Hz]. remember (Z.to_nat (80 - i)) as k eqn:Ek. revert i Hi Ek.
  induction (lt_wf k) as [k _ IH]. intros i Hi Ek. assert (∃ d, (t, inr tt) = (set_decimal d t, inr (A:=fault) tt)) as Hsame by (exists (decimal_point t); by destruct t).
  destruct (cell_total l y i Hlen) as [c Hc]; [unfold WIDTH, LINES in *; lia|]. rewrite <-Hl in Hc.
  destruct (Z.lt_ge_cases i 78) as [Hlt|Hge]; [|by rewrite (loop_past ks t y i c)].
  assert (∀ j, i < j → j <= 80 → ∃ d, loop ks y j t = (set_decimal d t, inr tt)) as Hj by (intros j H1 H2; apply (IH (Z.to_nat (80 - j))); lia).
  destruct (decide (c = 0)) as [->|H0].
  { unfold loop. cbn [move_loop]. by rewrite (bind_ok _ _ _ _ _ (cell_run _ _ _ _ Hc)). }
  rewrite (loop_step ks t y i c) by done. destruct (Z.eqb_spec i 0); [by apply Hj; lia|]. destruct (c =? 32); [done|]. destruct (is_sep c); cbn [negb]; [|by apply Hj; lia].
  destruct (around_in l y i t Hl Hs Hy ltac:(lia)) as [b Ea]. rewrite (bind_ok _ _ _ _ _ Ea). destruct b; [|by apply Hj; lia].
  destruct (fraction_in l y (i + 2) t (Z.to_nat (82 - i)) Hl Hs Hy ltac:(lia) ltac:(lia)) as (j & b & Ef & Hij & Hb).
  rewrite (bind_ok _ _ _ _ _ Ef). cbn [fst snd]. destruct b; [by eexists|]. apply Hj; [lia|]. specialize (Hb eq_refl). lia.
Qed.

(** C29: A move of the cursor to a place of the screen reads only the screen, whatever is on it, and
    changes nothing but the decimal point; the lines below the screen are left alone. But the
    move is looked at before it is clipped: one above the first line reads before the screen. *)
Theorem ava_move_bounds ks t y x : screen_ok (linhas t) →
  (0 <= y → 0 <= x <= 80 → ∃ d, ava_move ks y x t = (set_decimal d t, inr tt)) ∧ (y <= 24 → WIDTH * y + x < 0 → ava_move ks y x t = (t, inl Fault)).
Proof.
  intros Hs. unfold ava_move. split.
  - intros Hy Hx. destruct (Z.ltb_spec 24 y); [exists (decimal_point t); by destruct t|].
    assert (0 <= y < LINES) as Hy' by (unfold LINES; lia). destruct (blanks_end (linhas t) y x Hs Hy' Hx) as (n & c & Ht & Hc & Hn).
    assert (n < Z.to_nat (LINES * WIDTH + 1 - (WIDTH * y + x)))%nat as Hfuel by (unfold LINES, WIDTH in *; lia).
    rewrite (bind_ok _ _ _ _ _ (skip_sp_run n c y x t _ Ht Hc Hfuel)). eapply loop_in; [done|done|done|lia].
  - intros Hy Hk. rewrite (proj2 (Z.ltb_ge 24 y)) by done.
    destruct (Z.to_nat (LINES * WIDTH + 1 - (WIDTH * y + x))) as [|fuel] eqn:Ef; [unfold LINES, WIDTH in *; lia|]. cbn [skip_sp].
    apply bind_err, bind_err. by apply cell_before.
Qed.

(** ** The decimal point of the system *)

(** C28: The cursor moves to a number - digits in groups of two or more after each point or comma,
    blanks before it, a blank or the end of the line after it. When the number has an odd
    number of separators the last is the decimal point, and until the next number a point, a comma
    or the decimal key of the keypad typed on a field of the system sends it; when it has an even
    number, as 1.234,56 has, the decimal point stays what it was. Every key passes as the 16 bits
    the function returns: on Unix, signed, a key above 32767 - those of the keypad, the function
    keys, the arrows - comes back as another number. *)
Theorem decimal_of_number ret typing ks t y x n d gs e : screen_ok (linhas t) → 0 <= y <= 24 → 0 <= x →
  let w := replicate n 32 ++ d ++ groups gs in
  text (linhas t) y x (w ++ [e]) → x + Z.of_nat (length w) <= 80 →
  groups_ok gs → Forall (λ c, isdigit c = true) d → d ≠ [] → e = 0 ∨ e = 32 →
  ava_move ks y x t = (found ks gs t, inr tt) ∧
  ∀ s g, Nat.odd (length gs) = true → last gs = Some (s, g) → integral t = true → ∀ tecla y' x' c, y' <= 24 → x' ≠ 0 → cell_at (linhas t) y' (x' - 1) = Some c → typing c = true →
    k_period ks ≠ ch "?" → k_comma ks ≠ ch "?" →
    ava_converte_decimal ret typing ks tecla y' x' (found ks gs t) = (found ks gs t, inr (ret (
      if bool_decide (tecla ∈ [k_period ks; k_comma ks; k_decimal ks; k_separator ks]) then point ks s else tecla))).
Proof.
  intros Hs Hy Hx w Ht Hlen Hgs Hd Hd0 He. split.
  - unfold ava_move. rewrite (proj2 (Z.ltb_ge 24 y)) by lia. destruct d as [|c d]; [done|]. subst w. rewrite length_app, length_replicate in Hlen.
    rewrite <-app_assoc in Ht. pose proof (proj1 (text_app _ _ _ _ _) Ht) as [_ Htw]. rewrite length_replicate in Htw. rewrite <-app_assoc in Htw.
    assert (text (linhas t) y x (replicate n 32 ++ [c])) as Htn.
    { rewrite <-!app_assoc in Ht. cbn [app] in Ht. change (c :: d ++ groups gs ++ [e]) with ([c] ++ d ++ groups gs ++ [e]) in Ht.
      rewrite app_assoc in Ht. by apply text_app in Ht as [Ht _]. }
    assert (n < Z.to_nat (LINES * WIDTH + 1 - (WIDTH * y + x)))%nat as Hfuel by (unfold LINES, WIDTH in *; lia).
    destruct (digit_not c (Forall_inv Hd)) as (_ & Hc & _). rewrite (bind_ok _ _ _ _ _ (skip_sp_run n c y x t _ Htn Hc Hfuel)).
    apply (groups_run ks (length gs) gs (c :: d) e); try done; [lia|lia|].
    intros Hend. pose proof (proj1 (text_app _ _ _ _ _) Ht) as [_ Ht2]. rewrite app_assoc in Htw. apply text_app in Htw as [_ Hte]. apply text_cons in Hte as [Hte _].
    rewrite Hend, (proj2 Hs y ltac:(unfold LINES; lia)) in Hte. by injection Hte.
  - intros s g Hodd Hlast Hon tecla y' x' c Hy' Hx' Hc Hty Hp Hq.
    assert (found ks gs t = set_decimal (point ks s) t) as -> by (unfold found; by rewrite Hodd, Hlast). unfold ava_converte_decimal.
    rewrite !(bind_ok _ _ _ _ _ (gets_run _ _)). cbn [integral decimal_point set_decimal]. rewrite Hon.
    assert (point ks s ≠ ch "?") as Hpt by (unfold point; by destruct (s =? ch ".")).
    rewrite (proj2 (Z.eqb_neq _ _) Hpt), (proj2 (Z.ltb_ge 24 y') Hy'), (proj2 (Z.eqb_neq _ _) Hx'). cbn [negb orb].
    erewrite bind_ok by (apply cell_run; exact Hc). rewrite Hty. cbn [negb]. do 3 f_equal.
    case_bool_decide as Hin; rewrite !elem_of_cons, elem_of_nil in Hin.
    + destruct Hin as [->|[->|[->|[->|[]]]]]; by rewrite Z.eqb_refl, ?orb_true_r.
    + rewrite !(proj2 (Z.eqb_neq _ _)) by tauto. done.
Qed.

(** ** A screen *)

(** The blank screen with a text on the third line. *)
Definition ex_screen (s : bytes) : bytes := blit (mjoin (replicate 25 blank_line)) (81 * 2 + 10) s.
Definition ex_term (s : bytes) : term := mk_term (ex_screen s) true false false (ch "?") false 0 0.
Definition ex_keys : keyset := mk_keys (ch ".") (ch ",") 65454 65452.

Lemma ex_screen_ok s : bool_decide (length (ex_screen s) = 2025%nat ∧ Forall (λ y, cell_at (ex_screen s) y 80 = Some 0) (seqZ 0 25)) = true →
  screen_ok (ex_screen s).
Proof.
  intros [Hl H]%bool_decide_eq_true. split; [done|]. intros y Hy. rewrite Forall_forall in H. apply H, elem_of_seqZ. unfold LINES in Hy. lia.
Qed.

Lemma text_check l y i w : bool_decide (Forall (λ p, cell_at l y (i + Z.of_nat (fst p)) = Some (snd p)) (imap pair w)) = true → text l y i w.
Proof.
  intros H%bool_decide_eq_true k c E. rewrite Forall_forall in H. apply (H (k, c)). apply list_elem_of_lookup. exists k. by rewrite list_lookup_imap, E.
Qed.

Example ex_decimal : decimal_point (fst (ava_move ex_keys 2 0 (ex_term (bs "1234,56")))) = ch "," ∧
  decimal_point (fst (ava_move ex_keys 2 0 (ex_term (bs "1.234,56")))) = ch "?" ∧
  decimal_point (fst (ava_move ex_keys 2 0 (ex_term (bs "1.234.567,89")))) = ch ",".
Proof. by vm_compute. Qed.

Lemma ava_move_bounds_witness : ∃ d, ava_move ex_keys 24 80 (ex_term (bs "1.234,56")) = (set_decimal d (ex_term (bs "1.234,56")), inr tt).
Proof. apply (ava_move_bounds ex_keys (ex_term (bs "1.234,56")) 24 80); [apply ex_screen_ok; by vm_compute|lia|lia]. Defined.

Lemma integral_shows_witness : ∃ b, ava_integral (ex_term []) = (set_integral b (ex_term []), inr tt) ∧
  (b = true ↔ inativo (ex_term []) = false ∧
    (shows_system (ex_screen []) 22 ∨ shows_system (ex_screen []) 23 ∨ false = true ∨ false = true)).
Proof. apply (integral_shows (ex_term [])); by vm_compute. Defined.

(** The decimal key of the keypad sends the comma of 1.234.567,89; Return (65293) comes back negative. *)
Example ex_typed : let t := ex_term (bs "1.234.567,89 ") in let t' := fst (ava_move ex_keys 2 0 t) in
  ava_converte_decimal s16 typing_unix ex_keys 65454 2 22 t' = (t', inr (ch ",")) ∧
  ava_converte_decimal s16 typing_unix ex_keys 65293 2 22 t' = (t', inr (-243)).
Proof. by vm_compute. Qed.

Lemma decimal_of_number_witness : ava_move ex_keys 2 0 (ex_term (bs "1.234,56")) = (ex_term (bs "1.234,56"), inr tt).
Proof.
  apply (decimal_of_number s16 typing_unix ex_keys (ex_term (bs "1.234,56")) 2 0 10 (bs "1") [(ch ".", bs "234"); (ch ",", bs "56")] 32).
  - apply ex_screen_ok. by vm_compute.
  - lia.
  - lia.
  - apply text_check. by vm_compute.
  - simpl. lia.
  - repeat constructor.
  - repeat constructor.
  - done.
  - by right.
Defined.
