(* ===== verification/TerminalWindow.v ===== *)
(** The window of the terminal emulator as a state machine (src/putty/unix/gtkwin.c,
    src/putty/unix/uxnet.c with src/putty/unix/ava.c): when it closes. *)

From stdpp Require Import prelude strings.
From S2P Require Import Prelude Hoare Terminal TerminalSpec.
Local Open Scope Z_scope.

(** ** The program *)

(** The dialog shown, if any: the question whether to close ([true]), or the notice to leave the
    system first; [exited] of the window, true when its session is over; the box of a fatal error,
    if any, and whether the window closes with it. *)
Record window := mk_win { w_term : term; w_dialog : option bool; w_exited : bool; w_fatal : option bool; w_open : bool }.

Definition on_term {A} (m : M term A) : M window A := λ w,
  let (t, r) := m (w_term w) in (mk_win t (w_dialog w) (w_exited w) (w_fatal w) (w_open w), r).
Definition set_dialog d (w : window) : window := mk_win (w_term w) d (w_exited w) (w_fatal w) (w_open w).
Definition set_exited b (w : window) : window := mk_win (w_term w) (w_dialog w) b (w_fatal w) (w_open w).
Definition set_fatal d (w : window) : window := mk_win (w_term w) (w_dialog w) (w_exited w) d (w_open w).
Definition destroy (w : window) : window := mk_win (w_term w) (w_dialog w) (w_exited w) (w_fatal w) false.

(** The setting that says what becomes of the window at the end of its session. *)
Inductive close_on_exit := FORCE_OFF | FORCE_ON | AUTO.

#[global] Instance close_on_exit_dec : EqDecision close_on_exit.
Proof. solve_decision. Defined.

(** src/putty/unix/gtkwin.c:640-646 warn_on_close_callback *)
Definition warn_on_close_callback (result : bool) : M window unit :=
  modify (set_dialog None);;
  on ← gets (λ w, integral (w_term w));
  if result && negb on then modify destroy else mret tt.

(** src/putty/unix/gtkwin.c:658-688 delete_window : without the warning the toolkit closes the
    window; a dialog already shown is raised. *)
Definition delete_window (warn_on_close : bool) : M window unit :=
  exited ← gets w_exited;
  if negb exited && warn_on_close then
    d ← gets w_dialog;
    if bool_decide (is_Some d) then mret tt
    else
      on_term (modify ava_tempo_resposta);;
      on ← gets (λ w, integral (w_term w));
      modify (set_dialog (Some (negb on)))
  else modify destroy.

(** src/putty/unix/gtkwin.c:2277-2296 key_pressed *)
Definition key_pressed : M window unit :=
  exited ← gets w_exited;
  if exited : bool then modify destroy else mret tt.

(** src/putty/unix/gtkwin.c:2298-2313 exit_callback ([destroy_inst_connection] sets [exited]) *)
Definition exit_callback (exitcode : Z) (close : close_on_exit) : M window unit :=
  exited ← gets w_exited;
  if negb exited && (0 <=? exitcode) then
    modify (set_exited true);;
    if bool_decide (close = FORCE_ON) || (bool_decide (close = AUTO) && (exitcode =? 0)) then modify destroy else mret tt
  else mret tt.

(** src/putty/unix/gtkwin.c:267-278 gtk_seat_connection_fatal *)
Definition connection_fatal (close : close_on_exit) : M window unit :=
  modify (set_fatal (Some (bool_decide (close = FORCE_ON))));;
  modify (set_exited true).

(** src/putty/unix/gtkwin.c:225-236 post_fatal_message_box (with the one of the box that leaves the
    window, lines 261-265) *)
Definition post_fatal_message_box : M window unit :=
  d ← gets w_fatal;
  modify (set_fatal None);;
  if bool_decide (d = Some true) then modify destroy else mret tt.

(** src/putty/unix/gtkwin.c:4891-4901 restart_session_menuitem *)
Definition restart_session : M window unit :=
  exited ← gets w_exited;
  if exited : bool then on_term (modify power_on);; modify (set_exited false) else mret tt.

(** What happens to the window: text of the server painted, a move of the cursor, a send, a
    receive, an error of the connection, a reset of the terminal, a click to close, an answer to
    the dialog; a key or button, the end of the session, a fatal error, its box put away, a new session. *)
Inductive event :=
  | EPaint (x y nbg : Z) (s : bytes)
  | EMove (y x : Z)
  | ESent (z : Z)
  | EReceived (z : Z)
  | EError
  | EReset
  | EClose (warn_on_close : bool)
  | EAnswer (yes : bool)
  | EKey
  | EExit (exitcode : Z) (close : close_on_exit)
  | EFatal (close : close_on_exit)
  | EFatalDone
  | ERestart.

Definition step (ks : keyset) (e : event) : M window unit :=
  match e with
  | EPaint x y nbg s => on_term (paint x y nbg s)
  | EMove y x => on_term (ava_move ks y x)
  | ESent z => on_term (modify (ava_enviado z))
  | EReceived z => on_term (modify (ava_recebido z))
  | EError => on_term (modify ava_inativa)
  | EReset => on_term (modify power_on)
  | EClose warn => delete_window warn
  | EAnswer yes => d ← gets w_dialog; if bool_decide (is_Some d) then warn_on_close_callback yes else mret tt
  | EKey => key_pressed
  | EExit exitcode close => exit_callback exitcode close
  | EFatal close => connection_fatal close
  | EFatalDone => post_fatal_message_box
  | ERestart => restart_session
  end.

(** The globals at the start, with the screen blank. *)
Definition term0 : term := power_on (mk_term (replicate 2025 0) false false false (ch "?") false 0 0).
Definition window0 : window := mk_win term0 None false None true.

(** src/putty/windows/window.c:2214-2234 WndProc (WM_CLOSE) : [ok] is the button of the box that asks;
    while a box is shown the messages of the window are still handled ([meanwhile]). *)
Definition wm_close (session_closed warn_on_close : bool) (meanwhile : M window unit) (ok : bool) : M window unit :=
  on ← gets (λ w, integral (w_term w));
  if on : bool then meanwhile
  else if session_closed || negb warn_on_close then modify destroy
  else meanwhile;; if ok then modify destroy else mret tt.

(** ** Text painted elsewhere *)

(** The renderer paints inside the window. *)
Definition event_ok (e : event) : Prop := match e with EPaint x y _ _ => 0 <= x ∧ 0 <= y | _ => True end.

Lemma cstr_take n b : (∃ k, (k < n)%nat ∧ b !! k = Some 0) → cstr (take n b) = cstr b.
Proof.
  revert n. induction b as [|c b IH]; intros n (k & Hk & Hb); [done|]. destruct n as [|n]; [lia|]. cbn [take cstr].
  destruct (Z.eqb_spec c 0); [done|]. destruct k as [|k]; [by injection Hb|]. f_equal. apply IH. exists k. split; [lia|done].
Qed.

Lemma cell_lookup l (y i : nat) : cell_at l (Z.of_nat y) (Z.of_nat i) = l !! (81 * y + i)%nat.
Proof. unfold cell_at, WIDTH. destruct (Z.ltb_spec (81 * Z.of_nat y + Z.of_nat i) 0); [lia|]. f_equal. lia. Qed.

Definition same_lines (l l' : bytes) : Prop := ∀ k, (1782 <= k < 1944)%nat → l' !! k = l !! k.

Lemma line_str_same l l' y : screen_ok l → screen_ok l' → same_lines l l' → (y = 22 ∨ y = 23)%nat → line_str l' y = line_str l y.
Proof.
  intros [Hl Hz] [Hl' Hz'] Hs Hy. unfold line_str.
  assert (∀ b : bytes, (∀ z, 0 <= z < LINES → cell_at b z 80 = Some 0) → cstr (drop (81 * y) b) = cstr (take 81 (drop (81 * y) b))) as Hcut.
  { intros b Hb. symmetry. apply cstr_take. exists 80%nat. split; [lia|]. rewrite lookup_drop, <-cell_lookup. apply Hb. unfold LINES. lia. }
  rewrite !Hcut by done. f_equal. apply list_eq. intros k. destruct (decide (k < 81)%nat); [|by rewrite !lookup_take_ge by lia].
  rewrite !lookup_take_lt, !lookup_drop by lia. apply Hs. lia.
Qed.

Lemma cell_same l l' y i : same_lines l l' → y = 22 ∨ y = 23 → 0 <= i < 81 → cell_at l' y i = cell_at l y i.
Proof.
  intros Hs Hy Hi. unfold cell_at, WIDTH. destruct (Z.ltb_spec (81 * y + i) 0); [done|]. apply Hs. destruct Hy as [->| ->]; lia.
Qed.

Lemma fkeys_same l l' n i : same_lines l l' → 2 <= i → i + Z.of_nat n <= 80 → fkeys l' n i = fkeys l n i.
Proof.
  intros Hs. revert i. induction n as [|n IH]; intros i Hi Hn; [done|]. cbn [fkeys]. rewrite IH by lia. unfold fkey_at. do 2 f_equal.
  all: by rewrite !(cell_same l l') by (auto || lia).
Qed.

Lemma busy_same t t' : screen_ok (linhas t) → screen_ok (linhas t') → same_lines (linhas t) (linhas t') → vermelho22 t' = vermelho22 t →
  vermelho23 t' = vermelho23 t → busy t' = busy t.
Proof.
  intros H1 H2 Hs E1 E2. unfold busy, shows_text. rewrite E1, E2, !(line_str_same (linhas t) (linhas t')) by auto. by rewrite (fkeys_same (linhas t)) by (done || lia).
Qed.

Lemma screen_insert l y j c : screen_ok l → 0 <= y → 0 <= j < 80 → WIDTH * y + j < 2025 → screen_ok (<[Z.to_nat (WIDTH * y + j) := c]> l).
Proof.
  intros [Hl Hz] Hy Hj Hk. split; [by rewrite length_insert|]. intros z Hzr. rewrite <-(Hz z Hzr). unfold cell_at.
  destruct (Z.ltb_spec (WIDTH * z + 80) 0); [done|]. rewrite list_lookup_insert_ne; [done|]. unfold WIDTH in *. lia.
Qed.

(** The copy of a text: the flags stay, and so do the other lines. *)
Lemma paint_loop_run x y i s t t' : paint_loop x y i s t = (t', inr tt) → screen_ok (linhas t) → 0 <= x + i → 0 <= y →
  screen_ok (linhas t') ∧ t' = set_linhas (linhas t') t ∧ (y ≠ 22 → y ≠ 23 → same_lines (linhas t) (linhas t')).
Proof.
  revert i t. induction s as [|c s IH]; intros i t E Hs Hi Hy; cbn [paint_loop] in E.
  - injection E as <-. split; [done|]. split; [by destruct t|done].
  - destruct (Z.ltb_spec (x + i) 80); [|injection E as <-; split; [done|]; split; [by destruct t|done]].
    rewrite (bind_ok _ _ _ _ _ (gets_run _ _)) in E. cbv zeta in E.
    destruct ((0 <=? WIDTH * y + (x + i)) && (WIDTH * y + (x + i) <? Z.of_nat (length (linhas t)))) eqn:Eg; cbn [guard_fault] in E; [|done].
    apply andb_true_iff in Eg as [Hk%Z.leb_le Hk2%Z.ltb_lt]. rewrite (proj1 Hs) in Hk2. unfold WIDTH in Hk2.
    change (mret tt ≫= ?f) with (f tt) in E. cbv beta in E. rewrite (bind_ok _ _ _ _ _ (modify_run _ _)) in E.
    apply IH in E as (H1 & H2 & H3); [|apply screen_insert; (done || unfold WIDTH; lia)|lia|done]. split; [done|]. split; [by rewrite H2|].
    intros Hn1 Hn2 k Hkr. rewrite H3 by done. cbn [linhas set_linhas]. apply list_lookup_insert_ne. unfold WIDTH. lia.
Qed.

(** ** When the window closes *)

Lemma screen_blank : screen_ok (mjoin (replicate 25 blank_line)).
Proof.
  split; [done|]. intros y Hy. unfold LINES in Hy.
  assert (Forall (λ z, cell_at (mjoin (replicate 25 blank_line)) z 80 = Some 0) (seqZ 0 25)) as H by (apply (bool_decide_unpack _); by vm_compute).
  rewrite Forall_forall in H. apply H, elem_of_seqZ. lia.
Qed.

Lemma busy_blank t : busy (power_on t) = vermelho22 t || vermelho23 t.
Proof.
  unfold busy. assert (shows_text (linhas (power_on t)) || fkeys (linhas (power_on t)) 78 2 = false) as ->; [|done].
  change (linhas (power_on t)) with (mjoin (replicate 25 blank_line)). by vm_compute.
Qed.

(** The response is too slow when the window is asked to close. *)
Definition slow (e : event) (w : window) : bool :=
  match e with
  | EClose true => negb (w_exited w) && bool_decide (w_dialog w = None) && bool_decide (integral (ava_tempo_resposta (w_term w)) ≠ integral (w_term w))
  | _ => false
  end.

(** The states of the window, and whether a response was once too slow. *)
Inductive reach (ks : keyset) : window → bool → Prop :=
  | reach_start : reach ks window0 false
  | reach_step w b e w' : reach ks w b → event_ok e → step ks e w = (w', inr tt) → reach ks w' (b || slow e w).

(** The system is not forgotten while it shows. *)
Definition known (t : term) (b : bool) : Prop := screen_ok (linhas t) ∧ (busy t = true → integral t = true ∨ inativo t = true ∨ b = true).

Lemma known_weaken t b b' : known t b → known t (b || b').
Proof. intros [Hs H]. split; [done|]. intros Hb. destruct (H Hb) as [?|[?| ->]]; auto. Qed.

Lemma known_integral t b : screen_ok (linhas t) → known (set_integral (negb (inativo t) && busy t) t) b.
Proof.
  intros Hs. split; [done|]. change (busy (set_integral _ t)) with (busy t). intros ->. cbn [integral inativo set_integral].
  destruct (inativo t); auto.
Qed.

Lemma integral_known t t' b : screen_ok (linhas t) → ava_integral t = (t', inr tt) → known t' b.
Proof. intros Hs E. rewrite (ava_integral_run t (proj1 Hs) (screen_ends _ Hs)) in E. injection E as <-. by apply known_integral. Qed.

Lemma paint_known x y nbg s t t' b : known t b → 0 <= x → 0 <= y → paint x y nbg s t = (t', inr tt) → known t' b.
Proof.
  intros [Hs Hk] Hx Hy E. unfold paint in E. apply bind_inv in E as (t1 & [] & E1 & E2).
  assert (screen_ok (linhas t1) ∧ (y ≠ 22 → y ≠ 23 → known t1 b)) as [Hs1 Hk1].
  { destruct (Z.ltb_spec y 25); [|injection E1 as <-; by split]. apply bind_inv in E1 as (t0 & [] & E0 & E1).
    assert (screen_ok (linhas t0) ∧ (y ≠ 22 → y ≠ 23 → t0 = t)) as [Hs0 H0].
    { destruct ((x =? 0) && ((y =? 22) || (y =? 23))) eqn:Ec; [|injection E0 as <-; by split].
      apply andb_true_iff in Ec as [_ Ey%orb_true_iff]. rewrite !Z.eqb_eq in Ey. split; [|tauto]. unfold ava_seta_cor in E0.
      destruct Ey as [->| ->]; cbn [Z.eqb Pos.eqb] in E0; rewrite (bind_ok _ _ _ _ _ (modify_run _ _)) in E0; rewrite ava_integral_run in E0 by (by apply Hs || by apply screen_ends);
        by injection E0 as <-. }
    destruct (paint_loop_run _ _ _ _ _ _ E1 Hs0) as (H1 & H2 & H3); [lia|done|]. split; [done|]. intros Hn1 Hn2. rewrite (H0 Hn1 Hn2) in *.
    rewrite H2. split; [by rewrite H2 in H1|]. rewrite (busy_same t); [exact Hk|done|by rewrite H2 in H1|by apply H3|done|done]. }
  destruct ((y =? 22) || (y =? 23)) eqn:Ey; [by eapply integral_known|]. injection E2 as <-.
  apply orb_false_iff in Ey as [?%Z.eqb_neq ?%Z.eqb_neq]. by apply Hk1.
Qed.

(** A move of the cursor changes the decimal point at most. *)
Definition decimal_only {A} (m : M term A) : Prop := ∀ t, ∃ d, fst (m t) = set_decimal d t.

Lemma decimal_bind {A B} (m : M term A) (f : A → M term B) : decimal_only m → (∀ a, decimal_only (f a)) → decimal_only (m ≫= f).
Proof.
  intros Hm Hf t. unfold mbind, M_bind. destruct (Hm t) as [d E]. destruct (m t) as [t1 [e|a]]; cbn in E; subst t1; [by exists d|].
  destruct (Hf a (set_decimal d t)) as [d' E']. exists d'. by rewrite E'.
Qed.

Lemma decimal_id {A} (m : M term A) : (∀ t, fst (m t) = t) → decimal_only m.
Proof. intros H t. exists (decimal_point t). rewrite H. by destruct t. Qed.

Lemma decimal_cell y i : decimal_only (cell y i).
Proof. apply decimal_id. intros t. apply cell_state. Qed.

Lemma decimal_skip fuel y i : decimal_only (skip_sp fuel y i).
Proof.
  revert i. induction fuel as [|fuel IH]; intros i; [by apply decimal_id|]. apply decimal_bind; [apply decimal_cell|]. intros c.
  destruct (c =? 32); [apply IH|by apply decimal_id].
Qed.

Lemma decimal_fraction fuel y i : decimal_only (fraction fuel y i).
Proof.
  revert i. induction fuel as [|fuel IH]; intros i; [by apply decimal_id|]. apply decimal_bind; [apply decimal_cell|]. intros c.
  repeat case_match; [by apply decimal_id..|apply IH|by apply decimal_id].
Qed.

Lemma decimal_around y i : decimal_only (around y i).
Proof.
  apply decimal_bind; [apply decimal_cell|]. intros a. case_match; [by apply decimal_id|]. apply decimal_bind; [apply decimal_cell|]. intros b.
  case_match; [by apply decimal_id|]. apply decimal_bind; [apply decimal_cell|]. intros c. by apply decimal_id.
Qed.

Lemma decimal_loop ks fuel y i : decimal_only (move_loop ks fuel y i).
Proof.
  revert i. induction fuel as [|fuel IH]; intros i; [by apply decimal_id|]. apply decimal_bind; [apply decimal_cell|]. intros c.
  destruct (_ && _); [|by apply decimal_id]. destruct (i =? 0); [apply IH|]. destruct (c =? 32); [by apply decimal_id|].
  destruct (_ && _); [apply IH|].
  apply decimal_bind; [apply decimal_around|]. intros [|]; [|apply IH]. apply decimal_bind; [apply decimal_fraction|]. intros p.
  case_match; [|apply IH]. intros t. by eexists.
Qed.

Lemma decimal_move ks y x : decimal_only (ava_move ks y x).
Proof. unfold ava_move. case_match; [by apply decimal_id|]. apply decimal_bind; [apply decimal_skip|]. intros i. apply decimal_loop. Qed.

Lemma known_decimal d t b : known t b → known (set_decimal d t) b.
Proof. done. Qed.

Lemma on_term_inv {A} (m : M term A) w w' r : on_term m w = (w', r) → ∃ t, m (w_term w) = (t, r) ∧ w' = mk_win t (w_dialog w) (w_exited w) (w_fatal w) (w_open w).
Proof. unfold on_term. destruct (m (w_term w)) as [t r']. intros [= <- <-]. by exists t. Qed.

Lemma delete_window_run w : w_dialog w = None → w_exited w = false →
  let t := ava_tempo_resposta (w_term w) in
  delete_window true w = (mk_win t (Some (negb (integral t))) (w_exited w) (w_fatal w) (w_open w), inr tt).
Proof. intros Hd He t. destruct w as [t0 d x f o]. cbn in Hd, He. by subst d x. Qed.

Lemma power_on_known t b : known t b → known (power_on t) b.
Proof.
  intros [Hs Hk]. split; [apply screen_blank|]. rewrite busy_blank. intros Hred. apply Hk. unfold busy. by rewrite Hred, orb_true_r.
Qed.

(** The calls that do not touch the terminal. *)
Definition end_event (e : event) : bool :=
  match e with EKey | EExit _ _ | EFatal _ | EFatalDone => true | _ => false end.

Lemma end_event_term ks e w w' : end_event e = true → step ks e w = (w', inr tt) → w_term w' = w_term w.
Proof.
  intros He E. destruct e; try done; cbn [step] in E.
  - unfold key_pressed in E. rewrite (bind_ok _ _ _ _ _ (gets_run _ _)) in E. destruct (w_exited w); by injection E as <-.
  - unfold exit_callback in E. rewrite (bind_ok _ _ _ _ _ (gets_run _ _)) in E. destruct (_ && _); [|by injection E as <-].
    rewrite (bind_ok _ _ _ _ _ (modify_run _ _)) in E. destruct (_ || _); by injection E as <-.
  - unfold connection_fatal in E. rewrite (bind_ok _ _ _ _ _ (modify_run _ _)) in E. by injection E as <-.
  - unfold post_fatal_message_box in E. rewrite (bind_ok _ _ _ _ _ (gets_run _ _)), (bind_ok _ _ _ _ _ (modify_run _ _)) in E.
    case_bool_decide; by injection E as <-.
Qed.

Lemma step_known ks w b e w' : known (w_term w) b → event_ok e → step ks e w = (w', inr tt) → known (w_term w') (b || slow e w).
Proof.
  intros Hk Hok E. destruct (end_event e) eqn:He.
  { rewrite (end_event_term _ _ _ _ He E). by apply known_weaken. }
  destruct e as [x y nbg s|y x|z|z| | |warn|yes| | | | |]; try done; cbn [step] in E.
  - apply on_term_inv in E as (t & E & ->). destruct Hok. apply known_weaken. by apply (paint_known x y nbg s (w_term w)).
  - apply on_term_inv in E as (t & E & ->). apply known_weaken. destruct (decimal_move ks y x (w_term w)) as [d Ed]. rewrite E in Ed. cbn in Ed. subst t. by apply known_decimal.
  - injection E as <-. apply known_weaken. exact Hk.
  - injection E as <-. apply known_weaken. exact Hk.
  - injection E as <-. apply known_weaken. destruct Hk as [Hs _]. split; [exact Hs|]. auto.
  - injection E as <-. by apply known_weaken, power_on_known.
  - assert (delete_window warn w = (w', inr tt)) as E0 by done. unfold delete_window in E0. rewrite (bind_ok _ _ _ _ _ (gets_run _ _)) in E0.
    destruct (w_exited w) eqn:Hx, warn; cbn [negb andb] in E0; try (injection E0 as <-; by apply known_weaken). destruct (w_dialog w) as [d|] eqn:Hd.
    + rewrite (bind_ok _ _ _ _ _ (gets_run _ _)), Hd in E0. injection E0 as <-. by apply known_weaken.
    + rewrite delete_window_run in E by done. injection E as <-. cbn [w_term slow]. rewrite Hd, Hx, (bool_decide_true (None = None)) by done. cbn [andb negb].
      unfold ava_tempo_resposta. destruct (_ || _); [|by apply known_weaken]. destruct Hk as [Hs Hk].
      split; [exact Hs|]. intros Hb. destruct (Hk Hb) as [Hi|[Hi| ->]]; [|by right; left|by right; right].
      right. right. cbn [integral set_integral]. rewrite Hi. by rewrite bool_decide_true, orb_true_r.
  - apply known_weaken. rewrite (bind_ok _ _ _ _ _ (gets_run _ _)) in E. case_bool_decide; [|by injection E as <-].
    unfold warn_on_close_callback in E. rewrite (bind_ok _ _ _ _ _ (modify_run _ _)), (bind_ok _ _ _ _ _ (gets_run _ _)) in E.
    destruct (yes && _) in E; by injection E as <-.
  - apply known_weaken. unfold restart_session in E. rewrite (bind_ok _ _ _ _ _ (gets_run _ _)) in E. destruct (w_exited w); [|by injection E as <-].
    injection E as <-. by apply power_on_known.
Qed.

(** The events that close a window whose session is over, or ends with them. *)
Definition ends (e : event) (w : window) : Prop :=
  match e with
  | EClose warn => w_exited w = true ∨ warn = false
  | EKey => w_exited w = true
  | EExit exitcode close => w_exited w = false ∧ (close = FORCE_ON ∧ 0 <= exitcode ∨ close = AUTO ∧ exitcode = 0)
  | EFatalDone => w_fatal w = Some true
  | _ => False
  end.

Lemma end_closes ks e w w' : end_event e = true → w_open w = true → step ks e w = (w', inr tt) → w_open w' = false → ends e w.
Proof.
  intros He Ho E Hc. destruct e as [| | | | | | | | |exitcode close|close| |]; try done; cbn [step] in E.
  - unfold key_pressed in E. rewrite (bind_ok _ _ _ _ _ (gets_run _ _)) in E. destruct (w_exited w) eqn:Hx; [done|]. injection E as <-. congruence.
  - unfold exit_callback in E. rewrite (bind_ok _ _ _ _ _ (gets_run _ _)) in E. destruct (w_exited w) eqn:Hx; cbn [negb andb] in E; [injection E as <-; congruence|].
    destruct (Z.leb_spec 0 exitcode); [|injection E as <-; congruence]. rewrite (bind_ok _ _ _ _ _ (modify_run _ _)) in E.
    destruct (bool_decide (close = FORCE_ON) || _) eqn:Eb; [|injection E as <-; cbn in Hc; congruence]. cbn [ends]. split; [done|].
    apply orb_true_iff in Eb as [Eb%bool_decide_eq_true|[Eb%bool_decide_eq_true ?%Z.eqb_eq]%andb_true_iff]; [left|right]; by split.
  - injection E as <-. cbn in Hc. congruence.
  - unfold post_fatal_message_box in E. rewrite (bind_ok _ _ _ _ _ (gets_run _ _)), (bind_ok _ _ _ _ _ (modify_run _ _)) in E.
    case_bool_decide; [done|]. injection E as <-. cbn in Hc. congruence.
Qed.

(** C26: While the session of a terminal that warns before it closes goes on, its window is only
    closed by the answer yes to a dialog, and then the two last lines of the screen show nothing of the system - neither its
    title nor a question nor a function key, and neither is red - unless the connection has
    failed or some response once took more than ten seconds when the user asked to close.
    Otherwise the window closes without a question, whatever is on the screen, in these cases only:
    when the session ends and the settings say so (exit_callback), with the box of a fatal error
    (the same settings), at a key, a button or a click to close after the session has ended, or
    at a click to close when no warning is set. *)
Theorem window_stays ks w b e w' : reach ks w b → event_ok e → w_open w = true → step ks e w = (w', inr tt) → w_open w' = false →
  ends e w ∨
  (e = EAnswer true ∧ is_Some (w_dialog w) ∧ integral (w_term w) = false ∧
    ((¬ shows_system (linhas (w_term w)) 22 ∧ ¬ shows_system (linhas (w_term w)) 23 ∧ vermelho22 (w_term w) = false ∧ vermelho23 (w_term w) = false) ∨
      inativo (w_term w) = true ∨ b = true)).
Proof.
  intros Hr Hok Ho E Hc. assert (known (w_term w) b) as [_ Hk].
  { clear E Ho Hc Hok. induction Hr as [|w b e0 w1 _ IH Hok0 E0]; [|by eapply step_known]. split; [apply screen_blank|]. by vm_compute. }
  destruct (end_event e) eqn:He; [left; by eapply end_closes|].
  destruct e as [x y nbg s|y x|z|z| | |warn|yes| | | | |]; try done; cbn [step] in E.
  1,2: apply on_term_inv in E as (t & _ & ->); cbn in Hc; congruence.
  1,2,3,4: injection E as <-; cbn in Hc; congruence.
  - left. cbn [ends]. unfold delete_window in E. rewrite (bind_ok _ _ _ _ _ (gets_run _ _)) in E.
    destruct (w_exited w) eqn:Hx, warn; auto. exfalso. cbn [negb andb] in E.
    rewrite (bind_ok _ _ _ _ _ (gets_run _ _)) in E. case_bool_decide; injection E as <-; cbn in Hc; congruence.
  - right. rewrite (bind_ok _ _ _ _ _ (gets_run _ _)) in E. case_bool_decide as Hd; [|injection E as <-; congruence].
    unfold warn_on_close_callback in E. rewrite (bind_ok _ _ _ _ _ (modify_run _ _)), (bind_ok _ _ _ _ _ (gets_run _ _)) in E.
    cbn [w_term set_dialog] in E. destruct yes, (integral (w_term w)) eqn:Hi; cbn [negb andb] in E; injection E as <-; cbn in Hc; try congruence.
    split; [done|]. split; [done|]. split; [done|]. destruct (busy (w_term w)) eqn:Hb.
    + right. destruct (Hk eq_refl) as [?|?]; [congruence|tauto].
    + left. pose proof (busy_spec (w_term w)) as Hspec. rewrite Hb in Hspec. destruct (vermelho22 (w_term w)), (vermelho23 (w_term w)); naive_solver.
  - exfalso. unfold restart_session in E. rewrite (bind_ok _ _ _ _ _ (gets_run _ _)) in E. destruct (w_exited w); injection E as <-; cbn in Hc; congruence.
Qed.

(** ** The window on Windows *)

(** On Windows the window closes exactly when the system is not on the screen as the user asks, and the
    session is over, no warning is wanted or the answer is OK: the answer does not look at the flag
    again, whatever was painted in the meantime. *)
Theorem windows_close closed warn meanwhile ok w w' : (∀ w1 w2, meanwhile w1 = (w2, inr tt) → w_open w2 = w_open w1) → w_open w = true →
  wm_close closed warn meanwhile ok w = (w', inr tt) →
  (w_open w' = false ↔ integral (w_term w) = false ∧ (closed = true ∨ warn = false ∨ ok = true)).
Proof.
  intros Hm Ho E. unfold wm_close in E. rewrite (bind_ok _ _ _ _ _ (gets_run _ _)) in E. destruct (integral (w_term w)).
  - apply Hm in E. rewrite E, Ho. naive_solver.
  - destruct closed, warn; cbn [orb negb] in E; try (injection E as <-; cbn; naive_solver).
    apply bind_inv in E as (w1 & [] & E1 & E2). apply Hm in E1. destruct ok; injection E2 as <-; cbn; [naive_solver|]. rewrite E1, Ho. naive_solver.
Qed.

(** ** A window *)

Notation ex_steps := (foldl (λ w e, fst (step ex_keys e w))).

Lemma window_stays_witness : ∃ w w', reach ex_keys w false ∧ step ex_keys (EAnswer true) w = (w', inr tt) ∧
  integral (w_term w) = false ∧
    ((¬ shows_system (linhas (w_term w)) 22 ∧ ¬ shows_system (linhas (w_term w)) 23 ∧ vermelho22 (w_term w) = false ∧ vermelho23 (w_term w) = false) ∨
      inativo (w_term w) = true ∨ false = true).
Proof.
  exists (mk_win term0 (Some true) false None true), (mk_win term0 None false None false).
  assert (reach ex_keys (mk_win term0 (Some true) false None true) false) as H.
  { apply (reach_step ex_keys window0 false (EClose true)); [apply reach_start|done|by vm_compute]. }
  split; [exact H|]. assert (step ex_keys (EAnswer true) (mk_win term0 (Some true) false None true) = (mk_win term0 None false None false, inr tt)) as E by by vm_compute.
  split; [exact E|]. destruct (window_stays ex_keys _ false (EAnswer true) _ H I eq_refl E eq_refl) as [[]|(_ & _ & Hi & Hs)]. by split.
Defined.

(** The session ends with the system on the screen: the window closes, or stays for a key. *)
Example ex_session_ends :
  let w := ex_steps window0 [EPaint 0 22 0 (bs "Avanco")] in
  integral (w_term w) = true ∧ w_open (ex_steps w [EExit 0 AUTO]) = false ∧
  w_open (ex_steps w [EExit 1 AUTO]) = true ∧ w_open (ex_steps w [EExit 1 AUTO; EKey]) = false.
Proof. by vm_compute. Qed.

(** The notice to leave the system, answered once the system has left the screen, closes the
    window without a question. *)
Example ex_notice_closes :
  let w := ex_steps window0 [EPaint 0 22 0 (bs "Avanco"); EClose true] in
  w_dialog w = Some false ∧ w_open (ex_steps w [EAnswer true]) = true ∧
  w_open (ex_steps w [EPaint 0 22 0 (bs "      "); EAnswer true]) = false.
Proof. by vm_compute. Qed.

(** On Windows the system comes to the screen while the box is shown, and OK closes the window. *)
Definition ex_arrives : M window unit := on_term (paint 0 22 0 (bs "Avanco");; w_integral 22).

Lemma windows_close_witness : ∃ w', wm_close false true ex_arrives true window0 = (w', inr tt) ∧ integral (w_term w') = true ∧
  (w_open w' = false ↔ integral (w_term window0) = false ∧ (false = true ∨ true = false ∨ true = true)).
Proof.
  eexists. split; [by vm_compute|]. split; [done|]. eapply (windows_close false true ex_arrives true window0); [|done|by vm_compute].
  intros w1 w2 (t & _ & ->)%on_term_inv. done.
Defined.
