(* ===== verification/TerminalCmd.v ===== *)
(** The escape sequence by which the system opens a document on the machine of the user
    (src/putty/terminal.c, the states SEEN_CMD and SEEN_ENDCMD of term_out). *)

From stdpp Require Import prelude strings.
From S2P Require Import Prelude Terminal TerminalSpec.
Local Open Scope Z_scope.

(** ** The program *)

(** src/putty/terminal.h:189-210 termstate (those of the command): [TOPLEVEL] is where the other
    characters of the server are read. *)
Inductive termstate := TOPLEVEL | SEEN_CMD | SEEN_ENDCMD.

(** src/putty/terminal.c:3261-3262 term_out (the locals of the command), the state of the terminal
    and the command lines run. *)
Record out := mk_out { o_state : termstate; o_cmd : bytes; o_icmd : nat; o_ran : list bytes }.

Definition set_state st (o : out) : out := mk_out st (o_cmd o) (o_icmd o) (o_ran o).
Definition set_cmd c i (o : out) : out := mk_out (o_state o) c i (o_ran o).
Definition add_ran l (o : out) : out := mk_out (o_state o) (o_cmd o) (o_icmd o) (o_ran o ++ [l]).

Definition CMD_SIZE : nat := 256.

(** The blanks before the argument are skipped. *)
Fixpoint skip_spaces (s : bytes) : bytes :=
  match s with c :: s' => if c =? 32 then skip_spaces s' else s | [] => [] end.

(** src/putty/terminal.c:4721-4741 term_out (the command line): the program that shows the
    document, on the one system or on the other. *)
Definition command_line (unix : bool) (cmd : bytes) : option bytes :=
  k ← strstr cmd (bs "Exec_RunDLL");
  let p := skip_spaces (drop (k + 11) cmd) in
  Some (if unix then bs "/usr/bin/evince smb:" ++ ((λ c, if c =? ch "\" then ch "/" else c) <$> p) else bs "explorer " ++ p).

(** src/putty/terminal.c:4717-4750 term_out (the end of the command): the texts are bytes of
    buffers of 256. [log1] and [log2] tell whether putty.log can be opened before the command and
    after it: when it cannot, fprintf writes through a null pointer. *)
Definition end_cmd (log1 log2 unix : bool) : M out unit :=
  o ← gets id;
  guard_fault (o_icmd o <? CMD_SIZE)%nat;;
  let cmd := <[o_icmd o := 0]> (o_cmd o) in
  modify (set_cmd cmd (o_icmd o));;
  (match command_line unix (cstr cmd) with
   | None => mret tt
   | Some l => guard_fault log1;; guard_fault (length l <? CMD_SIZE)%nat;; modify (add_ran l);; guard_fault log2
   end);;
  modify (set_state TOPLEVEL).

(** src/putty/terminal.c:4710-4752 term_out (the states of the command): the characters up to the
    end of the command; what follows it is left. *)
Fixpoint term_cmd (log1 log2 unix : bool) (s : bytes) : M out bytes :=
  match s with
  | [] => mret []
  | c :: s' =>
      o ← gets id;
      match o_state o with
      | TOPLEVEL => mret s
      | SEEN_CMD =>
          (if c =? 27 then modify (set_state SEEN_ENDCMD)
           else guard_fault (o_icmd o <? CMD_SIZE)%nat;; modify (set_cmd (<[o_icmd o := c]> (o_cmd o)) (S (o_icmd o))));;
          term_cmd log1 log2 unix s'
      | SEEN_ENDCMD => if c =? ch "*" then end_cmd log1 log2 unix;; mret s' else term_cmd log1 log2 unix s'
      end
  end.

(** src/putty/terminal.c:4704-4707 term_out (the start of the command) *)
Definition start_cmd (o : out) : out := mk_out SEEN_CMD (o_cmd o) 0 (o_ran o).

(** src/putty/terminal.c:3255-3262 term_out (a call): the text read so far is in a local buffer, that
    the next call finds with whatever is on the stack, and from its beginning. *)
Definition next_call (garbage : bytes) (o : out) : out := mk_out (o_state o) garbage 0 (o_ran o).

(** ** The command *)

(** What a command leaves in the program. *)
Definition executed (log1 log2 unix : bool) (u : bytes) (ran : list bytes) : option (list bytes) :=
  if (length u <? CMD_SIZE)%nat then
    match command_line unix (cstr u) with
    | None => Some ran
    | Some l => if log1 && (length l <? CMD_SIZE)%nat && log2 then Some (ran ++ [l]) else None
    end
  else None.

Lemma cmd_store_run log1 log2 unix u v g i ran : length g = CMD_SIZE → 27 ∉ u → (i + length u <= CMD_SIZE)%nat →
  ∃ g', length g' = CMD_SIZE ∧ take (i + length u) g' = take i g ++ u ∧
    term_cmd log1 log2 unix (u ++ v) (mk_out SEEN_CMD g i ran) = term_cmd log1 log2 unix v (mk_out SEEN_CMD g' (i + length u) ran).
Proof.
  revert g i. induction u as [|c u IH]; intros g i Hg Hu Hi.
  - exists g. split; [done|]. cbn [length app]. by rewrite Nat.add_0_r, app_nil_r.
  - apply not_elem_of_cons in Hu as [Hc Hu]. cbn [length app] in *. destruct (IH (<[i := c]> g) (S i)) as (g' & Hg' & Ht & E); [by rewrite length_insert|done|lia|].
    exists g'. split; [done|]. replace (i + S (length u))%nat with (S i + length u)%nat by lia. split.
    + rewrite Ht. rewrite (take_S_r _ _ c) by (apply list_lookup_insert_eq; lia). rewrite take_insert_ge by lia. by rewrite <-app_assoc.
    + cbn [term_cmd]. rewrite (bind_ok _ _ _ _ _ (gets_run _ _)). cbn [id o_state o_icmd o_cmd].
      rewrite (proj2 (Z.eqb_neq c 27)) by congruence. rewrite (proj2 (Nat.ltb_lt _ _)) by lia. cbn [guard_fault]. exact E.
Qed.

Lemma store_full log1 log2 unix u v g i ran : length g = CMD_SIZE → 27 ∉ u → (CMD_SIZE < i + length u)%nat → (i <= CMD_SIZE)%nat →
  ∃ o, term_cmd log1 log2 unix (u ++ v) (mk_out SEEN_CMD g i ran) = (o, inl Fault).
Proof.
  intros Hg Hu Hi Hi'. destruct (lt_dec i CMD_SIZE) as [Hlt|Hge].
  - rewrite <-(take_drop (CMD_SIZE - i) u) in Hu |- *. apply not_elem_of_app in Hu as [Hu1 Hu2]. rewrite <-app_assoc.
    destruct (cmd_store_run log1 log2 unix (take (CMD_SIZE - i) u) (drop (CMD_SIZE - i) u ++ v) g i ran Hg Hu1) as (g' & _ & _ & ->); [rewrite length_take; lia|].
    rewrite length_take. replace (i + (CMD_SIZE - i) `min` length u)%nat with CMD_SIZE by lia.
    destruct (drop (CMD_SIZE - i) u) as [|c w] eqn:Ed; [apply (f_equal length) in Ed; rewrite length_drop in Ed; simpl in Ed; lia|].
    apply not_elem_of_cons in Hu2 as [Hc _]. cbn [app term_cmd]. rewrite (bind_ok _ _ _ _ _ (gets_run _ _)). cbn [id o_state].
    rewrite (proj2 (Z.eqb_neq c 27)) by congruence. by eexists.
  - assert (i = CMD_SIZE) as -> by lia. destruct u as [|c w]; [cbn [length] in Hi; lia|]. apply not_elem_of_cons in Hu as [Hc _].
    cbn [app term_cmd]. rewrite (bind_ok _ _ _ _ _ (gets_run _ _)). cbn [id o_state]. rewrite (proj2 (Z.eqb_neq c 27)) by congruence. by eexists.
Qed.

Lemma junk_run log1 log2 unix junk v o : o_state o = SEEN_ENDCMD → ch "*" ∉ junk → term_cmd log1 log2 unix (junk ++ v) o = term_cmd log1 log2 unix v o.
Proof.
  intros Ho. induction junk as [|c junk IH]; intros Hj; [done|]. apply not_elem_of_cons in Hj as [Hc Hj]. cbn [app term_cmd].
  rewrite (bind_ok _ _ _ _ _ (gets_run _ _)). cbn [id]. rewrite Ho, (proj2 (Z.eqb_neq c (ch "*"))) by congruence. by apply IH.
Qed.

Lemma cstr_insert u g n : length g = CMD_SIZE → (n < CMD_SIZE)%nat → take n g = u → cstr (<[n := 0]> g) = cstr u.
Proof.
  intros Hg Hn <-. revert n Hn Hg. generalize CMD_SIZE. intros N. revert N.
  induction g as [|c g IH]; intros N [|n] Hn Hg; cbn [length] in Hg; try lia; [done|].
  change (<[S n:=0]> (c :: g)) with (c :: <[n:=0]> g). cbn [take cstr]. destruct (c =? 0); [done|]. f_equal. by apply (IH (pred N)); lia.
Qed.

Lemma end_cmd_run log1 log2 unix u g ran : length g = CMD_SIZE → take (length u) g = u → (length u <= CMD_SIZE)%nat →
  ∃ o, (end_cmd log1 log2 unix (mk_out SEEN_ENDCMD g (length u) ran)) = (o, match executed log1 log2 unix u ran with Some _ => inr tt | None => inl Fault end) ∧
    (∀ ran', executed log1 log2 unix u ran = Some ran' → o_state o = TOPLEVEL ∧ o_ran o = ran') ∧ (log1 = false → o_ran o = ran).
Proof.
  intros Hg Ht Hu. unfold end_cmd, executed. rewrite (bind_ok _ _ _ _ _ (gets_run _ _)). cbn [id o_icmd o_cmd].
  destruct (Nat.ltb_spec (length u) CMD_SIZE) as [Hlt|Hge]; [|by eexists]. cbn [guard_fault]. rewrite ret_bind, (bind_ok _ _ _ _ _ (modify_run _ _)).
  rewrite (cstr_insert u) by done. destruct (command_line unix (cstr u)) as [l|].
  - destruct log1, (length l <? CMD_SIZE)%nat, log2; cbn [andb]; try (by eexists); (eexists; split; [reflexivity|]); (split; [by intros ran' [= <-]|done]).
  - eexists. split; [reflexivity|]. split; [by intros ran' [= <-]|done].
Qed.

Lemma command_run log1 log2 unix u junk rest g ran : length g = CMD_SIZE → 27 ∉ u → ch "*" ∉ junk →
  ∃ o, term_cmd log1 log2 unix (u ++ [27] ++ junk ++ [ch "*"] ++ rest) (mk_out SEEN_CMD g 0 ran) =
      (o, match executed log1 log2 unix u ran with Some _ => inr rest | None => inl Fault end) ∧
    (∀ ran', executed log1 log2 unix u ran = Some ran' → o_state o = TOPLEVEL ∧ o_ran o = ran') ∧
    ((length u < CMD_SIZE)%nat → log1 = false → o_ran o = ran).
Proof.
  intros Hg Hu Hj. destruct (Nat.le_gt_cases (length u) CMD_SIZE) as [Hle|Hgt].
  - destruct (cmd_store_run log1 log2 unix u ([27] ++ junk ++ [ch "*"] ++ rest) g 0 ran Hg Hu Hle) as (g' & Hg' & Ht & ->). cbn [app Nat.add take] in *.
    change (term_cmd log1 log2 unix (27 :: ?s) (mk_out SEEN_CMD g' (length u) ran)) with (term_cmd log1 log2 unix s (mk_out SEEN_ENDCMD g' (length u) ran)).
    rewrite junk_run by done. cbn [term_cmd]. rewrite (bind_ok _ _ _ _ _ (gets_run _ _)). cbn [id o_state]. rewrite Z.eqb_refl.
    destruct (end_cmd_run log1 log2 unix u g' ran Hg' Ht Hle) as (o & E & Ho & Hn). exists o. split; [|split; [exact Ho|auto]].
    destruct (executed log1 log2 unix u ran); [by rewrite (bind_ok _ _ _ _ _ E)|by apply bind_err].
  - destruct (store_full log1 log2 unix u ([27] ++ junk ++ [ch "*"] ++ rest) g 0 ran Hg Hu ltac:(lia) ltac:(lia)) as (o & E).
    exists o. unfold executed. rewrite (proj2 (Nat.ltb_ge _ _)) by lia. split; [done|]. split; [done|lia].
Qed.

(** ** The document *)

Notation keyword := (bs "Exec_RunDLL").

(** The keyword is in the text once, after [pre]. *)
Definition once (u pre : bytes) : Prop := (∃ b, u = pre ++ keyword ++ b) ∧ ∀ a b, u = a ++ keyword ++ b → a = pre.

(** The program that shows a document. *)
Definition viewer (unix : bool) (p : bytes) : bytes :=
  if unix then bs "/usr/bin/evince smb:" ++ ((λ c, if c =? ch "\" then ch "/" else c) <$> p) else bs "explorer " ++ p.

Lemma strstr_at s p k : strstr s p = Some k → ∃ b, s = take k s ++ p ++ b.
Proof.
  revert k. induction s as [|c s IH]; intros k; cbn [strstr]; destruct (prefixb p _) eqn:E; try done.
  1,2: intros [= <-]; by apply prefixb_app.
  destruct (strstr s p) as [j|] eqn:Ej; [|done]. intros [= <-]. destruct (IH j eq_refl) as [b Hb]. exists b. cbn [take app]. by rewrite <-Hb.
Qed.

Lemma strstr_once u pre : once u pre → strstr u keyword = Some (length pre).
Proof.
  intros [[b Hb] H]. destruct (strstr u keyword) as [k|] eqn:E.
  - destruct (strstr_at _ _ _ E) as [b' Hb']. pose proof (H _ _ Hb') as Hk. apply (f_equal length) in Hb'. rewrite !length_app, length_take in Hb'.
    rewrite <-Hk, length_take. f_equal. change (length keyword) with 11%nat in Hb'. lia.
  - assert (is_Some (strstr u keyword)) as [k Hk] by (apply strstr_spec; by exists pre, b). congruence.
Qed.

Lemma strstr_never u : (∀ a b, u ≠ a ++ keyword ++ b) → strstr u keyword = None.
Proof. intros H. destruct (strstr u keyword) as [k|] eqn:E; [|done]. apply strstr_at in E as [b Hb]. by apply H in Hb. Qed.

Lemma once_drop u pre k : once u pre → (k ≤ length pre)%nat → once (drop k u) (drop k pre).
Proof.
  intros [[b Hb] H] Hk. split.
  - exists b. by rewrite Hb, drop_app_le.
  - intros a b' E. rewrite <-(take_drop k u), E in H. specialize (H (take k u ++ a) b'). rewrite <-app_assoc in H. specialize (H eq_refl).
    rewrite <-H, drop_app_length'; [done|]. rewrite length_take. apply (f_equal length) in Hb. rewrite !length_app in Hb. lia.
Qed.

Lemma once_past u pre k a b : once u pre → (length pre < k ≤ length u)%nat → drop k u ≠ a ++ keyword ++ b.
Proof.
  intros [_ H] Hk E. rewrite <-(take_drop k u), E in H. specialize (H (take k u ++ a) b). rewrite <-app_assoc in H. specialize (H eq_refl).
  apply (f_equal length) in H. rewrite length_app, length_take in H. lia.
Qed.

Lemma skip_replicate n p : head p ≠ Some 32 → skip_spaces (replicate n 32 ++ p) = p.
Proof. intros Hp. induction n as [|n IH]; [|exact IH]. destruct p as [|c p]; [done|]. cbn. by rewrite (proj2 (Z.eqb_neq c 32)) by naive_solver. Qed.

Lemma command_line_once unix pre n p : once (pre ++ keyword ++ replicate n 32 ++ p) pre → head p ≠ Some 32 →
  command_line unix (pre ++ keyword ++ replicate n 32 ++ p) = Some (viewer unix p).
Proof.
  intros H Hp. unfold command_line. rewrite (strstr_once _ _ H). cbn [mbind option_bind].
  rewrite app_assoc, drop_app_length' by (rewrite length_app; done). by rewrite skip_replicate.
Qed.

(** C30: The sequence ESC [ ] text ESC * : a text of up to 255 characters with the word Exec_RunDLL in
    it, arriving in one read, runs the program that shows the document named after the word, exactly
    once, and gives back what follows; whatever was in the buffer before. A longer text, or a name
    that with the program does not fit in 255 characters, writes past a buffer; and when the file
    putty.log cannot be opened, the emulator writes through a null pointer before it runs anything. *)
Theorem exec_command log1 log2 unix pre n p junk rest g ran : let u := pre ++ keyword ++ replicate n 32 ++ p in
  length g = CMD_SIZE → 27 ∉ u → 0 ∉ u → ch "*" ∉ junk → once u pre → head p ≠ Some 32 →
  ∃ o, term_cmd log1 log2 unix (u ++ [27] ++ junk ++ [ch "*"] ++ rest) (mk_out SEEN_CMD g 0 ran) =
      (o, if bool_decide (length u < CMD_SIZE ∧ length (viewer unix p) < CMD_SIZE)%nat && log1 && log2 then inr rest else inl Fault) ∧
    ((length u < CMD_SIZE ∧ length (viewer unix p) < CMD_SIZE)%nat → log1 = true → log2 = true → o_state o = TOPLEVEL ∧ o_ran o = ran ++ [viewer unix p]) ∧
    ((length u < CMD_SIZE)%nat → log1 = false → o_ran o = ran).
Proof.
  intros u Hg Hu H0 Hj Honce Hp. destruct (command_run log1 log2 unix u junk rest g ran Hg Hu Hj) as (o & E & Ho & Hn). exists o. rewrite E.
  unfold executed in *. rewrite (cstr_id u H0) in *. unfold u in *. rewrite (command_line_once _ _ _ _ Honce Hp) in *. clear E.
  destruct (Nat.ltb_spec (length (pre ++ keyword ++ replicate n 32 ++ p)) CMD_SIZE), (Nat.ltb_spec (length (viewer unix p)) CMD_SIZE), log1, log2;
    first [rewrite bool_decide_true by done|rewrite bool_decide_false by lia]; cbn [andb] in *;
    (split; [done|]); (split; [intros [? ?] ? ?; first [lia|done|by apply Ho]|exact Hn]).
Qed.

(** C31: The same text arriving in two reads: the part of the first is lost, because the buffer and
    its length are locals of the function. The document is shown if the word Exec_RunDLL and the
    name after it are all in the second read; otherwise nothing is run. (The file putty.log can be
    opened.) *)
Theorem exec_split unix pre n p junk rest g g2 ran k : let u := pre ++ keyword ++ replicate n 32 ++ p in
  length g = CMD_SIZE → length g2 = CMD_SIZE → 27 ∉ u → 0 ∉ u → ch "*" ∉ junk → once u pre → head p ≠ Some 32 →
  (length u < CMD_SIZE)%nat → (length (viewer unix p) < CMD_SIZE)%nat → (k ≤ length u)%nat →
  ∃ o o2, term_cmd true true unix (take k u) (mk_out SEEN_CMD g 0 ran) = (o, inr []) ∧
    term_cmd true true unix (drop k u ++ [27] ++ junk ++ [ch "*"] ++ rest) (next_call g2 o) = (o2, inr rest) ∧
    o_state o2 = TOPLEVEL ∧ o_ran o2 = if bool_decide (k ≤ length pre)%nat then ran ++ [viewer unix p] else ran.
Proof.
  intros u Hg Hg2 Hu H0 Hj Honce Hp Hlen Hv Hk. pose proof (take_drop k u) as Etd.
  assert (27 ∉ take k u ∧ 27 ∉ drop k u ∧ 0 ∉ drop k u) as (Hu1 & Hu2 & H02).
  { rewrite <-Etd in Hu, H0. apply not_elem_of_app in Hu, H0. tauto. }
  destruct (cmd_store_run true true unix (take k u) [] g 0 ran Hg Hu1) as (g1 & _ & _ & E1); [rewrite length_take; lia|]. rewrite app_nil_r in E1.
  eexists. destruct (command_run true true unix (drop k u) junk rest g2 ran Hg2 Hu2 Hj) as (o2 & E2 & Ho2 & _). exists o2. split; [exact E1|].
  change (next_call g2 _) with (mk_out SEEN_CMD g2 0 ran). rewrite E2. clear E1 E2. unfold executed in *.
  rewrite (cstr_id _ H02) in *. rewrite length_drop in *. rewrite (proj2 (Nat.ltb_lt _ _)) in * by lia.
  assert (command_line unix (drop k u) = if bool_decide (k ≤ length pre)%nat then Some (viewer unix p) else None) as Ec.
  { case_bool_decide as Hkp.
    - pose proof (once_drop u pre k Honce Hkp) as Hd. unfold u in *. rewrite drop_app_le in * by done. by apply command_line_once.
    - unfold command_line. rewrite strstr_never; [done|]. intros a b. apply (once_past u pre); [done|lia]. }
  rewrite Ec in *. case_bool_decide; [rewrite (proj2 (Nat.ltb_lt _ _) Hv) in *|]; (split; [done|]); by apply Ho2.
Qed.

(** ** A document *)

Lemma strstr_min s p k a b : strstr s p = Some k → s = a ++ p ++ b → (k ≤ length a)%nat.
Proof.
  revert k a. induction s as [|c s IH]; intros k a Hk E; cbn [strstr] in Hk; destruct (prefixb p _) eqn:Ep; try (injection Hk as <-; lia); [done|].
  destruct (strstr s p) as [j|]; [|done]. injection Hk as <-. destruct a as [|x a].
  - exfalso. assert (prefixb p (c :: s) = true) as Hp by (apply prefixb_app; by exists b). congruence.
  - injection E as <- E. cbn [length]. specialize (IH j a eq_refl E). lia.
Qed.

Lemma once_check u pre : strstr u keyword = Some (length pre) → prefixb pre u = true → strstr (drop (S (length pre)) u) keyword = None → once u pre.
Proof.
  intros Hk Hp Hn. apply prefixb_app in Hp as [r Hr]. split.
  - destruct (strstr_at _ _ _ Hk) as [b Hb]. exists b. rewrite Hb. do 2 f_equal. by rewrite Hr, take_app_length.
  - intros a b E. pose proof (strstr_min _ _ _ _ _ Hk E) as Hle. destruct (decide (length a = length pre)) as [El|Hne].
    + rewrite Hr in E. by destruct (app_inj_1 _ _ _ _ (eq_sym El) E).
    + exfalso. assert (is_Some (strstr (drop (S (length pre)) u) keyword)) as [j Hj]; [|congruence].
      apply strstr_spec. exists (drop (S (length pre)) a), b. by rewrite E, drop_app_le by lia.
Qed.

Definition ex_cmd : bytes := bs "rundll32 Exec_RunDLL  \\srv\doc.pdf".
Definition ex_stack : bytes := replicate 256 255.

Lemma ex_once : once (bs "rundll32 " ++ keyword ++ replicate 2 32 ++ bs "\\srv\doc.pdf") (bs "rundll32 ").
Proof. by apply once_check; vm_compute. Qed.

Lemma exec_command_witness : ∃ o, term_cmd true true true (ex_cmd ++ [27] ++ bs "\" ++ [ch "*"] ++ bs "ok") (mk_out SEEN_CMD ex_stack 0 []) = (o, inr (bs "ok")) ∧
  o_ran o = [bs "/usr/bin/evince smb://srv/doc.pdf"].
Proof.
  destruct (exec_command true true true (bs "rundll32 ") 2 (bs "\\srv\doc.pdf") (bs "\") (bs "ok") ex_stack []) as (o & E & Ho & _).
  - done.
  - by apply (bool_decide_unpack _).
  - by apply (bool_decide_unpack _).
  - by apply (bool_decide_unpack _).
  - exact ex_once.
  - done.
  - exists o. split; [exact E|]. apply Ho; [|done|done]. simpl. unfold CMD_SIZE. lia.
Defined.

Lemma exec_split_witness : ∃ o o2, term_cmd true true true (take 12 ex_cmd) (mk_out SEEN_CMD ex_stack 0 []) = (o, inr []) ∧
  term_cmd true true true (drop 12 ex_cmd ++ [27] ++ bs "\" ++ [ch "*"] ++ bs "ok") (next_call ex_stack o) = (o2, inr (bs "ok")) ∧ o_state o2 = TOPLEVEL ∧ o_ran o2 = [].
Proof.
  apply (exec_split true (bs "rundll32 ") 2 (bs "\\srv\doc.pdf") (bs "\") (bs "ok") ex_stack ex_stack [] 12).
  - done.
  - done.
  - by apply (bool_decide_unpack _).
  - by apply (bool_decide_unpack _).
  - by apply (bool_decide_unpack _).
  - exact ex_once.
  - done.
  - simpl. unfold CMD_SIZE. lia.
  - simpl. unfold CMD_SIZE. lia.
  - simpl. lia.
Defined.
