(* ===== verification/ErrLog.v ===== *)
(** The error logs of mode W (src/pqfh.c): one file for each day of the week and one for each day
    of the month, and the reports of the signals. *)

From stdpp Require Import prelude gmap strings.
From S2P Require Import Prelude Fhtypes Fcd Pqfh.
Local Open Scope Z_scope.

(** ** The program *)

(** The files of the directory. *)
Abbreviation files := (gmap bytes bytes).

(** What a report finds: the mode, the clock, the name of the user, the program on the top of the
    stack, and whether the files open. *)
Record report_t := mk_report {
  r_mode : Z; r_wday : Z; r_mday : Z; r_time : Z; r_user : option bytes; r_program : option bytes; r_opens : bool;
}.

Definition week_name (n : Z) : bytes := bs "pqfh_" ++ fmt_d n ++ bs ".err".
Definition month_name (n : Z) : bytes := bs "pqfh_bd_" ++ fmt_d n ++ bs ".err".

(** [fopen(name, "a")]: the file is there, with what it has. *)
Definition open_append (name : bytes) (fs : files) : files := <[name := default [] (fs !! name)]> fs.
Definition append_to (name text : bytes) (fs : files) : files := <[name := default [] (fs !! name) ++ text]> fs.

(** src/pqfh.c:362-385 erropen (the files removed): that of tomorrow. *)
Definition week_gone (today : Z) : list bytes := [week_name (if 6 <? today + 1 then 0 else today + 1)].

(** src/pqfh.c:387-415 erropenbd (the files removed): that of tomorrow, and from the 28th on that of
    the first. *)
Definition month_gone (today : Z) : list bytes :=
  month_name (today + 1) :: (if 28 <? today + 1 then [month_name 1] else []).

Definition remove_all (names : list bytes) (fs : files) : files := foldl (λ fs n, delete n fs) fs names.

(** src/pqfh.c:362-385 erropen : the name of the file, or none when it does not open. *)
Definition erropen (r : report_t) : M files (option bytes) :=
  modify (remove_all (week_gone (r_wday r)));;
  if r_opens r then modify (open_append (week_name (r_wday r)));; mret (Some (week_name (r_wday r))) else mret None.

(** src/pqfh.c:387-415 erropenbd *)
Definition erropenbd (r : report_t) : M files (option bytes) :=
  modify (remove_all (month_gone (r_mday r)));;
  if r_opens r then modify (open_append (month_name (r_mday r)));; mret (Some (month_name (r_mday r))) else mret None.

(** A name copied with [strcpy] to a buffer of 4097 bytes; none is the empty text. *)
Definition copied (s : option bytes) : M files bytes :=
  let t := cstr (default [] s) in
  guard_fault (length t <? 4097)%nat;; mret t.

Definition hex_digit (n : Z) : Z := if n <? 10 then 48 + n else 87 + n.

(** [%04x] of an unsigned short. *)
Definition hex4 (n : Z) : bytes := hex_digit (n / 4096 mod 16) :: hex_digit (n / 256 mod 16) :: hex_digit (n / 16 mod 16) :: [hex_digit (n mod 16)].

Definition square (s : bytes) : bytes := bs "[" ++ s ++ bs "]".
Definition NL : bytes := [10].

(** The file name of a control block in a buffer of 4097 bytes: a length that is not of it is an
    error. *)
Definition fcd_filename (fcd : fcd_t) : option bytes :=
  let fnlen := s16 (getshort (file_name_len fcd)) in
  if (0 <=? fnlen) && (fnlen <=? 4096) then cstr <$> sub_bytes (file_name fcd) 0 fnlen else None.

Definition isam_line (r : report_t) (user prog filename : bytes) (op : Z) (st : bytes) : bytes :=
  fmt_d (r_time r) ++ bs " " ++ square user ++ bs " " ++ square prog ++ bs " " ++ square filename ++ bs " " ++ hex4 op ++ bs " " ++ take 2 st ++ NL ++ NL.

(** src/pqfh.c:417-447 errorisam *)
Definition errorisam (r : report_t) (opcode : Z) (fcd : fcd_t) : M files unit :=
  if negb (r_mode r =? ch "W") then mret tt
  else
    f ← erropen r;
    match f with
    | None => mret tt
    | Some name =>
        prog ← copied (r_program r);
        user ← copied (r_user r);
        filename ← of_option (fcd_filename fcd);
        modify (append_to name (isam_line r user prog filename opcode (status fcd)))
    end.

(** The two reports of the database: the same text in the two logs, with BD after the time in the
    one of the week. *)
Definition both_logs (r : report_t) (text : bytes → bytes → bytes) : M files unit :=
  if negb (r_mode r =? ch "W") then mret tt
  else
    f ← erropen r;
    match f with
    | None => mret tt
    | Some name =>
        prog ← copied (r_program r);
        user ← copied (r_user r);
        modify (append_to name (fmt_d (r_time r) ++ bs " BD" ++ text user prog));;
        f ← erropenbd r;
        match f with
        | None => mret tt
        | Some name => modify (append_to name (fmt_d (r_time r) ++ text user prog))
        end
    end.

(** src/pqfh.c:450-480 errorbd : with the message of the connection. *)
Definition errorbd (r : report_t) (command message : bytes) : M files unit :=
  both_logs r (λ user prog, bs " " ++ square user ++ bs " " ++ square prog ++ NL ++ cstr command ++ NL ++ cstr message ++ NL ++ NL).

(** src/pqfh.c:482-512 warningbd *)
Definition warningbd (r : report_t) (command tabname key st : bytes) : M files unit :=
  both_logs r (λ user prog, bs " " ++ square user ++ bs " " ++ square prog ++ bs " " ++ cstr command ++ bs " " ++ square (cstr tabname) ++ bs " " ++ square (cstr key) ++
    bs " st=" ++ take 2 st ++ NL ++ NL).

(** src/validador.c:11-41 valida_comando : the values refused since the last report, in any mode; the name of
    the user is copied to a buffer of 257 bytes, and a fatal error ends the program.  What it does
    to the list of errors is in the definition of the same name of the database operations. *)
Definition valida_report (r : report_t) (comando tabela : bytes) (erros : list bytes) (fatal : bool) : M files unit :=
  match erros with
  | [] => mret tt
  | _ =>
      f ← erropen r;
      match f with
      | None => mret tt
      | Some name =>
          let user := cstr (default [] (r_user r)) in
          guard_fault (length user <? 257)%nat;;
          modify (append_to name (fmt_d (r_time r) ++ bs " " ++ square user ++ NL ++
            bs "ERRO DE VALIDACAO " ++ cstr comando ++ bs " " ++ cstr tabela ++ bs " " ++ fmt_d (if fatal then 1 else 0) ++ NL ++
            mjoin ((λ e, cstr e ++ NL) <$> erros) ++ NL));;
          if fatal then stop Exit else mret tt
      end
  end.

(** src/pqfh.c:577-619 trata114 : the report of a crash, in the call of a control block; [date] is the
    text of the clock. *)
Definition trata114 (date : bytes) (user prog : option bytes) (op : Z) (fcd : fcd_t) (funcao tempo : Z) : M files unit :=
  modify (open_append (bs "pqfh114.log"));;
  prog ← copied prog;
  filename ← of_option (fcd_filename fcd);
  let reclen := s16 (getshort (rec_len fcd)) in
  guard_fault ((0 <=? reclen) && (reclen <=? MAX_REC_LEN));;
  _ ← of_option (sub_bytes (record fcd) 0 reclen);
  modify (append_to (bs "pqfh114.log") (date ++ NL ++
    match user with Some u => bs "usuario=" ++ cstr u ++ bs " programa=" ++ prog ++ NL | None => [] end ++
    bs "op=" ++ hex4 op ++ NL ++ bs "arquivo=" ++ filename ++ NL ++ bs "registro=" ++ square filename ++ NL ++
    bs "funcao=" ++ fmt_d funcao ++ NL ++ bs "tempo=" ++ fmt_d tempo ++ NL ++ NL));;
  stop Exit.

(** src/pqfh.c:547-575 trataHUP *)
Definition trataHUP (date : bytes) (user prog : option bytes) : M files unit :=
  modify (open_append (bs "pqfh114.log"));;
  prog ← copied prog;
  modify (append_to (bs "pqfh114.log") (date ++ NL ++
    match user with Some u => bs "usuario=" ++ cstr u ++ bs " programa=" ++ prog ++ bs " HANGUP" | None => bs "HANGUP" end ++ NL ++ NL));;
  stop Exit.

(** ** The files of a day *)

Section daily.
Context {C : Type} (eff : C → files → files) (key : bytes) (text : C → bytes).

(** The file of a day whose reports add to it, when a report of the day before removed it. *)
Lemma daily_run eve c0 today fs : (∀ fs, eff c0 fs !! key = None) → today ≠ [] →
  (∀ c, c ∈ today → ∀ fs, eff c fs !! key = Some (default [] (fs !! key) ++ text c)) →
  foldl (λ fs c, eff c fs) fs (eve ++ c0 :: today) !! key = Some (mjoin (text <$> today)).
Proof.
  intros H0 Hne Ht. rewrite foldl_app. cbn [foldl]. generalize (foldl (λ fs c, eff c fs) fs eve). intros fs0. specialize (H0 fs0).
  revert H0. generalize (eff c0 fs0). clear fs fs0. intros fs H0.
  assert (∀ acc fs, default [] (fs !! key) = acc → foldl (λ fs c, eff c fs) fs today !! key = Some (acc ++ mjoin (text <$> today))) as H; [|apply (H [] fs); by rewrite H0].
  destruct today as [|c today]; [done|]. clear Hne fs H0. revert c Ht. induction today as [|d today IH]; intros c Ht acc fs Hacc.
  - cbn. rewrite Ht, Hacc by by left. by rewrite app_nil_r.
  - cbn [foldl fmap list_fmap mjoin list_join] in *. rewrite (IH d (λ x Hx, Ht x (list_elem_of_further _ _ _ Hx)) (acc ++ text c)); [by rewrite <-app_assoc|].
    rewrite Ht, Hacc by by left. done.
Qed.

End daily.

(** ** The reports *)

Inductive call_t :=
  | CIsam (r : report_t) (opcode : Z) (fcd : fcd_t)
  | CBd (r : report_t) (command message : bytes)
  | CWarning (r : report_t) (command tabname key st : bytes)
  | CValid (r : report_t) (comando tabela : bytes) (erros : list bytes) (fatal : bool).

Definition report_of (c : call_t) : report_t := match c with CIsam r _ _ | CBd r _ _ | CWarning r _ _ _ _ | CValid r _ _ _ _ => r end.
Definition log_call (c : call_t) : M files unit :=
  match c with
  | CIsam r op fcd => errorisam r op fcd
  | CBd r command message => errorbd r command message
  | CWarning r command tabname key st => warningbd r command tabname key st
  | CValid r comando tabela erros fatal => valida_report r comando tabela erros fatal
  end.

Fixpoint log_calls (cs : list call_t) : M files unit := match cs with [] => mret tt | c :: cs' => log_call c;; log_calls cs' end.

Definition is_db (c : call_t) : bool := match c with CIsam _ _ _ | CValid _ _ _ _ _ => false | _ => true end.

(** The text of a report after the time and the mark of the database. *)
Definition body (c : call_t) : bytes :=
  let r := report_of c in
  let user := cstr (default [] (r_user r)) in
  let prog := cstr (default [] (r_program r)) in
  bs " " ++ square user ++
  match c with CValid _ _ _ _ _ => [] | _ => bs " " ++ square prog end ++
  match c with
  | CIsam _ op fcd => bs " " ++ square (default [] (fcd_filename fcd)) ++ bs " " ++ hex4 op ++ bs " " ++ take 2 (status fcd) ++ NL ++ NL
  | CBd _ command message => NL ++ cstr command ++ NL ++ cstr message ++ NL ++ NL
  | CWarning _ command tabname key st => bs " " ++ cstr command ++ bs " " ++ square (cstr tabname) ++ bs " " ++ square (cstr key) ++
      bs " st=" ++ take 2 st ++ NL ++ NL
  | CValid _ comando tabela erros fatal => NL ++ bs "ERRO DE VALIDACAO " ++ cstr comando ++ bs " " ++ cstr tabela ++ bs " " ++
      fmt_d (if fatal then 1 else 0) ++ NL ++ mjoin ((λ e, cstr e ++ NL) <$> erros) ++ NL
  end.

Definition week_text (c : call_t) : bytes := fmt_d (r_time (report_of c)) ++ (if is_db c then bs " BD" else []) ++ body c.
Definition month_text (c : call_t) : bytes := fmt_d (r_time (report_of c)) ++ body c.

(** A report with names that fit, when the files open: in mode W, or of values refused, none of them
    fatal. *)
Definition call_good (c : call_t) : Prop :=
  let r := report_of c in
  r_opens r = true ∧
  match c with
  | CValid _ _ _ erros fatal => erros ≠ [] ∧ fatal = false ∧ (length (cstr (default [] (r_user r))) < 257)%nat
  | _ => r_mode r = ch "W" ∧ (length (cstr (default [] (r_user r))) < 4097)%nat ∧ (length (cstr (default [] (r_program r))) < 4097)%nat ∧
      match c with CIsam _ _ fcd => is_Some (fcd_filename fcd) | _ => True end
  end.

(** The files after a report. *)
Definition log_one (name text : bytes) (gone : list bytes) (fs : files) : files := append_to name text (open_append name (remove_all gone fs)).
Definition effect (c : call_t) (fs : files) : files :=
  let r := report_of c in
  let fs := log_one (week_name (r_wday r)) (week_text c) (week_gone (r_wday r)) fs in
  if is_db c then log_one (month_name (r_mday r)) (month_text c) (month_gone (r_mday r)) fs else fs.

Lemma copied_run (s : option bytes) (fs : files) : (length (cstr (default [] s)) < 4097)%nat → copied s fs = (fs, inr (cstr (default [] s))).
Proof. intros H. unfold copied. by rewrite (proj2 (Nat.ltb_lt _ _) H). Qed.

Lemma erropen_run r fs : r_opens r = true →
  erropen r fs = (open_append (week_name (r_wday r)) (remove_all (week_gone (r_wday r)) fs), inr (Some (week_name (r_wday r)))).
Proof. intros H. unfold erropen. rewrite (bind_ok _ _ _ _ _ (modify_run _ _)), H. by rewrite (bind_ok _ _ _ _ _ (modify_run _ _)). Qed.

Lemma erropenbd_run r fs : r_opens r = true →
  erropenbd r fs = (open_append (month_name (r_mday r)) (remove_all (month_gone (r_mday r)) fs), inr (Some (month_name (r_mday r)))).
Proof. intros H. unfold erropenbd. rewrite (bind_ok _ _ _ _ _ (modify_run _ _)), H. by rewrite (bind_ok _ _ _ _ _ (modify_run _ _)). Qed.

Lemma both_run c text fs : is_db c = true → call_good c →
  body c = text (cstr (default [] (r_user (report_of c)))) (cstr (default [] (r_program (report_of c)))) →
  both_logs (report_of c) text fs = (effect c fs, inr tt).
Proof.
  intros Hdb Hg Hb. assert (r_opens (report_of c) = true ∧ r_mode (report_of c) = ch "W" ∧
    (length (cstr (default [] (r_user (report_of c)))) < 4097)%nat ∧ (length (cstr (default [] (r_program (report_of c)))) < 4097)%nat) as (Ho & Hm & Hu & Hp).
  { destruct c; try done; destruct Hg as (? & ? & ? & ? & _); done. }
  unfold both_logs, effect, week_text, month_text. rewrite Hm, Hdb, Hb. change (ch "W" =? ch "W") with true. cbn [negb].
  rewrite (bind_ok _ _ _ _ _ (erropen_run _ _ Ho)), (bind_ok _ _ _ _ _ (copied_run _ _ Hp)), (bind_ok _ _ _ _ _ (copied_run _ _ Hu)).
  rewrite (bind_ok _ _ _ _ _ (modify_run _ _)). by rewrite (bind_ok _ _ _ _ _ (erropenbd_run _ _ Ho)).
Qed.

Lemma call_run c fs : call_good c → log_call c fs = (effect c fs, inr tt).
Proof.
  intros Hg. destruct c as [r op fcd|r command message|r command tabname key st|r comando tabela erros fatal].
  - destruct Hg as (Ho & Hm & Hu & Hp & [f Hf]). cbn [report_of] in *. unfold log_call, errorisam, effect, week_text, body. cbn [report_of is_db].
    rewrite Hm. change (ch "W" =? ch "W") with true. cbn [negb]. rewrite (bind_ok _ _ _ _ _ (erropen_run _ _ Ho)), (bind_ok _ _ _ _ _ (copied_run _ _ Hp)),
      (bind_ok _ _ _ _ _ (copied_run _ _ Hu)), Hf. cbn [of_option default app]. rewrite ret_bind. unfold isam_line, log_one, modify. done.
  - by apply (both_run (CBd r command message)).
  - by apply (both_run (CWarning r command tabname key st)).
  - destruct Hg as (Ho & He & -> & Hu). cbn [report_of] in *. unfold log_call, valida_report, effect, week_text, body, log_one. cbn [report_of is_db].
    destruct erros as [|e erros]; [done|]. rewrite (bind_ok _ _ _ _ _ (erropen_run _ _ Ho)), (proj2 (Nat.ltb_lt _ _) Hu). cbn [guard_fault].
    by rewrite ret_bind, (bind_ok _ _ _ _ _ (modify_run _ _)).
Qed.

Lemma calls_run cs fs : Forall call_good cs → log_calls cs fs = (foldl (λ fs c, effect c fs) fs cs, inr tt).
Proof. intros H. revert fs. induction H as [|c cs Hc _ IH]; intros fs; [done|]. cbn [log_calls foldl]. by rewrite (bind_ok _ _ _ _ _ (call_run c fs Hc)). Qed.

(** ** The names *)

Definition next_wday (d : Z) : Z := if 6 <? d + 1 then 0 else d + 1.
(** The day of the month after another. *)
Definition next_mday (d d' : Z) : Prop := 1 <= d <= 31 ∧ (d' = d + 1 ∨ 28 <= d ∧ d' = 1).

Lemma seqZ_all (P : Z → Prop) `{!∀ x, Decision (P x)} a n x : bool_decide (Forall P (seqZ a n)) = true → a <= x < a + n → P x.
Proof. intros Hall%bool_decide_eq_true Hx. rewrite Forall_forall in Hall. apply Hall, elem_of_seqZ. lia. Qed.

Lemma week_distinct d : 0 <= d < 7 → week_name d ≠ week_name (next_wday d).
Proof. intros Hd. by apply (seqZ_all (λ d, week_name d ≠ week_name (next_wday d)) 0 7). Qed.

Lemma month_inj a b : 1 <= a <= 32 → 1 <= b <= 32 → month_name a = month_name b → a = b.
Proof.
  intros Ha Hb E. assert (NoDup (month_name <$> seqZ 1 32)) as Hnd by (apply (bool_decide_unpack _); by vm_compute).
  assert (∀ x, 1 <= x <= 32 → (month_name <$> seqZ 1 32) !! Z.to_nat (x - 1) = Some (month_name x)) as Hx.
  { intros x Hr. rewrite list_lookup_fmap, lookup_seqZ_lt by lia. by replace (1 + Z.of_nat (Z.to_nat (x - 1))) with x by lia. }
  pose proof (NoDup_lookup _ _ _ _ Hnd (Hx a Ha) (eq_trans (Hx b Hb) (f_equal Some (eq_sym E)))). lia.
Qed.

Lemma week_not_month d m : 0 <= d < 7 → week_name d ≠ month_name m.
Proof.
  intros Hd E. assert (week_name d !! 5%nat ≠ Some (ch "b")) as H by (by apply (seqZ_all (λ d, week_name d !! 5%nat ≠ Some (ch "b")) 0 7)).
  apply H. by rewrite E.
Qed.

Lemma remove_all_other names key fs : key ∉ names → remove_all names fs !! key = fs !! key.
Proof.
  revert fs. induction names as [|n names IH]; intros fs H; [done|]. apply not_elem_of_cons in H as [Hn H]. cbn [remove_all foldl].
  change (remove_all names (delete n fs) !! key = fs !! key). by rewrite IH, lookup_delete_ne.
Qed.

Lemma remove_all_in names key fs : key ∈ names → remove_all names fs !! key = None.
Proof.
  revert fs. induction names as [|n names IH]; intros fs H; [by apply elem_of_nil in H|]. cbn [remove_all foldl].
  change (remove_all names (delete n fs) !! key = None). destruct (decide (key ∈ names)); [by apply IH|].
  apply elem_of_cons in H as [->|H]; [|done]. by rewrite remove_all_other, lookup_delete_eq.
Qed.

Lemma log_one_this name text gone fs : name ∉ gone → log_one name text gone fs !! name = Some (default [] (fs !! name) ++ text).
Proof. intros H. unfold log_one, append_to, open_append. rewrite !lookup_insert_eq. cbn [default]. by rewrite remove_all_other. Qed.

Lemma log_one_gone name text gone fs key : key ≠ name → key ∈ gone → log_one name text gone fs !! key = None.
Proof. intros Hn H. unfold log_one, append_to, open_append. rewrite !lookup_insert_ne by done. by apply remove_all_in. Qed.

Lemma log_one_other name text gone fs key : key ≠ name → key ∉ gone → log_one name text gone fs !! key = fs !! key.
Proof. intros Hn H. unfold log_one, append_to, open_append. rewrite !lookup_insert_ne by done. by apply remove_all_other. Qed.

(** The report of a day on the log of the week. *)
Lemma effect_week c fs d : 0 <= d < 7 → r_wday (report_of c) = d →
  effect c fs !! week_name d = Some (default [] (fs !! week_name d) ++ week_text c) ∧ effect c fs !! week_name (next_wday d) = None.
Proof.
  intros Hd Hc. unfold effect. rewrite Hc. pose proof (week_distinct d Hd) as Hne.
  assert (0 <= next_wday d < 7) as Hd' by (unfold next_wday; destruct (Z.ltb_spec 6 (d + 1)); lia).
  assert (∀ w fs', 0 <= w < 7 → log_one (month_name (r_mday (report_of c))) (month_text c) (month_gone (r_mday (report_of c))) fs' !! week_name w = fs' !! week_name w) as Hm.
  { intros w fs' Hw. apply log_one_other; [by apply week_not_month|]. unfold month_gone. intros [E|E]%elem_of_cons; [by eapply week_not_month|].
    destruct (28 <? _); [apply list_elem_of_singleton in E; by eapply week_not_month|by apply elem_of_nil in E]. }
  assert (log_one (week_name d) (week_text c) (week_gone d) fs !! week_name d = Some (default [] (fs !! week_name d) ++ week_text c)) as H1.
  { apply log_one_this. unfold week_gone. fold (next_wday d). by intros E%list_elem_of_singleton. }
  assert (log_one (week_name d) (week_text c) (week_gone d) fs !! week_name (next_wday d) = None) as H2.
  { apply log_one_gone; [congruence|]. unfold week_gone. fold (next_wday d). by apply list_elem_of_singleton. }
  destruct (is_db c); [|done]. by rewrite !Hm.
Qed.

(** One of the database on the log of the month. *)
Lemma effect_month c fs d : is_db c = true → 1 <= d <= 31 → r_mday (report_of c) = d →
  effect c fs !! month_name d = Some (default [] (fs !! month_name d) ++ month_text c) ∨ r_wday (report_of c) < 0 ∨ 6 < r_wday (report_of c).
Proof.
  intros Hdb Hd Hc. destruct (decide (0 <= r_wday (report_of c) < 7)) as [Hw|Hw]; [|right; lia]. left. unfold effect. rewrite Hdb, Hc.
  rewrite log_one_this.
  - rewrite log_one_other; [done| |].
    + intros E. symmetry in E. by eapply week_not_month.
    + unfold week_gone. fold (next_wday (r_wday (report_of c))). intros E%list_elem_of_singleton. symmetry in E. eapply week_not_month, E.
      unfold next_wday. destruct (Z.ltb_spec 6 (r_wday (report_of c) + 1)); lia.
  - unfold month_gone. intros [E|E]%elem_of_cons.
    + apply month_inj in E; lia.
    + destruct (Z.ltb_spec 28 (d + 1)); [|by apply elem_of_nil in E]. apply list_elem_of_singleton in E. apply month_inj in E; lia.
Qed.

Lemma effect_month_gone c fs d d' : is_db c = true → next_mday d d' → r_mday (report_of c) = d → effect c fs !! month_name d' = None.
Proof.
  intros Hdb (Hd & Hnext) Hc. unfold effect. rewrite Hdb, Hc. apply log_one_gone.
  - intros E. apply month_inj in E; lia.
  - unfold month_gone. destruct Hnext as [->|[H28 ->]]; [by left|]. right. rewrite (proj2 (Z.ltb_lt 28 (d + 1))) by lia. by left.
Qed.

(** C32: The reports of errors - of mode W, and of values refused in any mode - are kept by day. After any reports of which the last is of the day
    before, and those of a day, the file of that day of the week has exactly the reports of the day, in
    order - the file of a week ago was removed the day before - and, when the reports are of
    the database, the file of that day of the month has them too, across the end of a month of any
    length. *)
Theorem error_logs_daily eve c0 today fs d m : let cs := eve ++ c0 :: today in
  Forall call_good cs → today ≠ [] → 0 <= r_wday (report_of c0) < 7 → d = next_wday (r_wday (report_of c0)) →
  Forall (λ c, r_wday (report_of c) = d ∧ r_mday (report_of c) = m) today → next_mday (r_mday (report_of c0)) m → m <= 31 →
  ∃ fs', log_calls cs fs = (fs', inr tt) ∧ fs' !! week_name d = Some (mjoin (week_text <$> today)) ∧
    (Forall (λ c, is_db c = true) (c0 :: today) → fs' !! month_name m = Some (mjoin (month_text <$> today))).
Proof.
  intros cs Hgood Hne Hw0 Hd Htoday Hnext Hm. rewrite Forall_forall in Htoday. exists (foldl (λ fs c, effect c fs) fs cs).
  assert (0 <= d < 7) as Hdr by (subst d; unfold next_wday; destruct (Z.ltb_spec 6 (r_wday (report_of c0) + 1)); lia).
  split; [by apply calls_run|]. split.
  - apply daily_run; [|done|].
    + intros fs0. subst d. by apply effect_week.
    + intros c Hc fs0. destruct (Htoday c Hc) as [Hcd _]. by apply effect_week.
  - intros [Hdb0 Hdb]%Forall_cons. rewrite Forall_forall in Hdb. apply daily_run; [|done|].
    + intros fs0. by eapply effect_month_gone.
    + intros c Hc fs0. destruct (Htoday c Hc) as [Hcd Hcm]. destruct Hnext as [? ?].
      destruct (effect_month c fs0 m (Hdb c Hc)) as [Hok|Hbad]; [lia|done|done|lia].
Qed.

(** The report of a crash does not have the record it reads: its line has the name of the file. *)
Lemma trata114_record date user prog op fcd funcao tempo fs r : length r = length (record fcd) →
  trata114 date user prog op (set_rec r fcd) funcao tempo fs = trata114 date user prog op fcd funcao tempo fs.
Proof.
  intros Hl. unfold trata114. change (fcd_filename (set_rec r fcd)) with (fcd_filename fcd). cbn [rec_len set_rec record].
  unfold sub_bytes. rewrite Hl. by destruct (_ && (0 + _ <=? _)).
Qed.

(** ** Two days *)

Definition ex_report (wday mday time : Z) : report_t := mk_report (ch "W") wday mday time (Some (bs "ana")) None true.
Definition ex_log_fcd : fcd_t :=
  mk_fcd (bs "9A") 2 4 2 (putshort 7) 0 (replicate 8 0) (putshort 7) (putshort 0) (bs "000    ") (bs "cliente") [] (putint 0) 0 0 (replicate 4 0) 0 0.

Definition ex_eve : call_t := CBd (ex_report 6 28 100) (bs "select 1") (bs "gone").
Definition ex_today : list call_t := [CBd (ex_report 0 1 200) (bs "select 2") (bs "gone"); CWarning (ex_report 0 1 300) (bs "start") (bs "cliente") (bs "007") (bs "23")].

Lemma error_logs_daily_witness : ∃ fs', log_calls ([CIsam (ex_report 6 28 50) OP_WRITE ex_log_fcd] ++ ex_eve :: ex_today) ∅ = (fs', inr tt) ∧
  fs' !! bs "pqfh_0.err" = Some (mjoin (week_text <$> ex_today)) ∧
  (Forall (λ c, is_db c = true) (ex_eve :: ex_today) → fs' !! bs "pqfh_bd_1.err" = Some (mjoin (month_text <$> ex_today))).
Proof.
  apply (error_logs_daily [CIsam (ex_report 6 28 50) OP_WRITE ex_log_fcd] ex_eve ex_today ∅ 0 1).
  - repeat (apply Forall_cons; split); [..|constructor]; (split; [done|]; split; [done|]; split; [simpl; lia|]; split; [simpl; lia|]); [|done..].
    by eexists.
  - done.
  - simpl. lia.
  - done.
  - by repeat constructor.
  - split; [simpl; lia|]. right. split; [simpl; lia|done].
  - lia.
Defined.

(** A day without reports: what the file of the week had a week ago stays under the new reports. *)
Example ex_day_skipped : (fst (log_calls [CBd (ex_report 0 1 100) (bs "a") []; CBd (ex_report 5 6 500) (bs "b") []; CBd (ex_report 0 8 700) (bs "c") []] ∅)) !! bs "pqfh_0.err" =
  Some (week_text (CBd (ex_report 0 1 100) (bs "a") []) ++ week_text (CBd (ex_report 0 8 700) (bs "c") [])).
Proof. by vm_compute. Qed.
