(* ===== verification/Debug.v ===== *)
(** What the program tells of itself (src/pqfh.c): the settings of the environment, the tables
    whose calls are logged, and the counters of the calls with their times. *)

From stdpp Require Import prelude strings.
From S2P Require Import Prelude Fhtypes Fcd Pqfh.
Local Open Scope Z_scope.

(** ** The settings *)

(** src/pqfh.c:23-36 globals (those of the log) *)
Record settings := mk_settings {
  dbg : Z; dbg_upd : Z; dbg_times : Z; dbg_cmp : Z; dbg_lock : Z;
  dbg_tables : option bytes; to_file : option bytes; force_bd : bool; api : option bytes;
}.

Definition number_of (getenv : string → option bytes) (name : string) : Z := match getenv name with Some v => atoi v | None => 0 end.

(** src/pqfh.c:297-360 get_debug : [to_file] is the file of the log when there is one to write
    and it opens. *)
Definition get_debug (getenv : string → option bytes) (opens : bool) : settings :=
  let dbg := number_of getenv "PQFH_DBG" in
  let tables := (λ env, bs "," ++ cstr env ++ bs ",") <$> getenv "PQFH_DBG_TABLES"%string in
  let upd := number_of getenv "PQFH_DBG_UPD" in
  let times := number_of getenv "PQFH_DBG_TIMES" in
  let cmp := number_of getenv "PQFH_DBG_CMP" in
  let lock := number_of getenv "PQFH_DBG_LOCK" in
  let some := (0 <? dbg) || (0 <? upd) || (0 <? times) || (0 <? cmp) || (0 <? lock) in
  mk_settings dbg upd times cmp lock tables (if some && opens then getenv "PQFH_LOGNAME"%string else None)
    (match getenv "PQFH_FORCE_BD"%string with Some v => bool_decide (cstr v = bs "S") | None => false end) (getenv "PQFH_API"%string).

(** src/pqfh.c:515-521 dbg_status : the text of the log, when the file is one of those logged. *)
Definition dbg_status (s : settings) (msg : bytes) (executed : bool) (fcd : fcd_t) : option bytes :=
  let reclen := s16 (getshort (rec_len fcd)) in
  if (0 <=? reclen) && (reclen <=? MAX_REC_LEN) then
    aux ← sub_bytes (record fcd) 0 reclen;
    logged ← log_fcd (dbg_tables s) fcd;
    Some (if logged : bool then cstr msg ++ bs " st=" ++ take 2 (status fcd) ++ bs " [" ++ cstr aux ++ bs "] exec=" ++ (if executed then bs "1" else bs "0") ++ [10; 10]
          else [])
  else None.

(** ** The counters *)

Inductive kind := KOpen | KClose | KStart | KNextPrev | KRead | KWrite | KRewrite | KDelete | KIsam | KCobolpost.
#[global] Instance kind_eq_dec : EqDecision kind.
Proof. solve_decision. Defined.

(** src/pqfh.c:209-212 globals (the times and the numbers of calls) *)
Record counters := mk_counters { c_total : Z * Z; c_of : kind → Z * Z }.

Definition counters0 : counters := mk_counters (0, 0) (λ _, (0, 0)).

(** A 64-bit [long]. *)
Definition s64 (z : Z) : Z := let w := z mod 2 ^ 64 in if w <? 2 ^ 63 then w else w - 2 ^ 64.

Definition add_call (tempo : Z) (p : Z * Z) : Z * Z := (s64 (fst p + tempo), s32 (snd p + 1)).

(** src/pqfh.c:1280-1346 pqfh (the switch of the counters): the counter of an operation; in mode W
    the reads and the starts have none. *)
Definition kind_of (md op : Z) : option kind :=
  if (op =? OP_OPEN_INPUT) || (op =? OP_OPEN_OUTPUT) || (op =? OP_OPEN_IO) || (op =? OP_OPEN_EXTEND) then Some KOpen
  else if op =? OP_CLOSE then Some KClose
  else if (op =? OP_START_GT) || (op =? OP_START_GE) || (op =? OP_START_LT) || (op =? OP_START_LE) || (op =? OP_START_EQ) then
    if md =? ch "W" then None else Some KStart
  else if (op =? OP_READ_NEXT) || (op =? OP_READ_PREVIOUS) then if md =? ch "W" then None else Some KNextPrev
  else if op =? OP_READ_RANDOM then if md =? ch "W" then None else Some KRead
  else if op =? OP_REWRITE then Some KRewrite
  else if op =? OP_WRITE then Some KWrite
  else if op =? OP_DELETE then Some KDelete
  else None.

(** src/pqfh.c:1275-1346 pqfh (the counters): at the end of a call that took [tempo] microseconds. *)
Definition count_call (md op tempo : Z) (c : counters) : counters :=
  mk_counters (add_call tempo (c_total c)) (match kind_of md op with
    | None => c_of c
    | Some k => λ k', if decide (k' = k) then add_call tempo (c_of c k') else c_of c k'
    end).

Definition counter_line (name : string) (p : Z * Z) : bytes := bs "tempo_" ++ bs name ++ bs "=" ++ fmt_d (fst p) ++ bs " " ++ fmt_d (snd p) ++ [10].

(** src/pqfh.c:523-538 mostra_tempos *)
Definition mostra_tempos (s : settings) (c : counters) : bytes :=
  if dbg_times s =? 0 then []
  else counter_line "total" (c_total c) ++ counter_line "open" (c_of c KOpen) ++ counter_line "close" (c_of c KClose) ++
    counter_line "start" (c_of c KStart) ++ counter_line "next_prev" (c_of c KNextPrev) ++ counter_line "read" (c_of c KRead) ++
    counter_line "write" (c_of c KWrite) ++ counter_line "rewrite" (c_of c KRewrite) ++ counter_line "delete" (c_of c KDelete) ++
    counter_line "isam" (c_of c KIsam) ++ counter_line "cobolpost" (c_of c KCobolpost).

(** ** The tables logged *)

(** Names, each with a comma after it. *)
Definition commas (names : list bytes) : bytes := mjoin ((λ n, n ++ [44]) <$> names).

Lemma first_comma (n f r r' : bytes) : 44 ∉ n → 44 ∉ f → n ++ 44 :: r = f ++ 44 :: r' → n = f ∧ r = r'.
Proof.
  revert f. induction n as [|x n IH]; intros [|y f] Hn Hf E; cbn [app] in E.
  - by injection E.
  - injection E as <- _. by apply not_elem_of_cons in Hf as [? _].
  - injection E as -> _. by apply not_elem_of_cons in Hn as [? _].
  - apply not_elem_of_cons in Hn as [_ Hn]. apply not_elem_of_cons in Hf as [_ Hf]. injection E as <- E. by destruct (IH f Hn Hf E) as [-> ->].
Qed.

Lemma listed names f : Forall (λ n, 44 ∉ n) names → 44 ∉ f → (∃ a b, 44 :: commas names = a ++ (44 :: f ++ [44]) ++ b) ↔ f ∈ names.
Proof.
  intros Hn Hf. split.
  - intros (a & b & E). revert a E. induction Hn as [|n names Hn _ IH]; intros a E.
    + exfalso. apply (f_equal length) in E. cbn in E. rewrite length_app in E. cbn in E. rewrite !length_app in E. cbn in E. lia.
    + change (commas (n :: names)) with ((n ++ [44]) ++ commas names) in E. rewrite <-app_assoc in E. cbn [app] in E. destruct a as [|x a].
      * cbn [app] in E. injection E as E. rewrite <-app_assoc in E. destruct (first_comma n f _ _ Hn Hf E) as [-> _]. by left.
      * cbn [app] in E. injection E as <- E. right. destruct (Nat.lt_ge_cases (length a) (length n)) as [Hlt|Hge].
        { exfalso. apply Hn. apply list_elem_of_lookup. exists (length a). apply (f_equal (λ l, l !! length a)) in E.
          rewrite lookup_app_l in E by done. rewrite lookup_app_r, Nat.sub_diag in E by done. exact E. }
        assert (take (length n) a = n) as Ht.
        { apply (f_equal (take (length n))) in E. rewrite take_app_length, take_app_le in E by done. done. }
        apply (IH (drop (length n) a)). apply (f_equal (drop (length n))) in E. rewrite drop_app_length, drop_app_le in E by done. exact E.
  - intros Hin. clear Hn. induction names as [|n names IH]; [by apply elem_of_nil in Hin|].
    change (commas (n :: names)) with ((n ++ [44]) ++ commas names). apply elem_of_cons in Hin as [->|Hin].
    + exists [], (commas names). done.
    + destruct (IH Hin) as (a & b & E). exists (44 :: n ++ a), b. cbn [app]. rewrite <-!app_assoc. cbn [app]. rewrite E. cbn [app]. by rewrite <-!app_assoc.
Qed.

(** With PQFH_DBG_TABLES set to a list of names between commas, the calls logged are those of
    the files of these names, without their directories; a call without a name, and every call
    when the variable is not set, is logged. *)
Theorem log_table_listed getenv opens names env filename :
  let tables := dbg_tables (get_debug getenv opens) in let f := cstr filename in
  (getenv "PQFH_DBG_TABLES"%string = None → log_table tables filename = true) ∧
  (getenv "PQFH_DBG_TABLES"%string = Some env → cstr env ++ [44] = commas names → Forall (λ n, 44 ∉ n) names → 44 ∉ basename f →
    log_table tables filename = bool_decide (f = [] ∨ head f = Some 32 ∨ basename f ∈ names)).
Proof.
  intros tables f. unfold tables, get_debug. cbn [dbg_tables]. split; [by intros ->|]. intros -> Henv Hn Hf. cbn [fmap option_fmap option_map].
  unfold log_table. fold f. destruct f as [|c s] eqn:Ef; [by rewrite bool_decide_true by by left|].
  destruct (Z.eqb_spec c 32) as [->|Hc]; [by rewrite bool_decide_true by by right; left|].
  assert (bs "," ++ cstr env ++ bs "," = 44 :: commas names) as -> by (by rewrite <-Henv).
  pose proof (listed names _ Hn Hf) as Hl. change (44 :: ?x ++ [44]) with (bs "," ++ x ++ bs ",") in Hl. rewrite <-strstr_spec in Hl.
  destruct (strstr _ _) as [k|] eqn:E.
  - rewrite bool_decide_true; [done|]. right. right. apply Hl. by eexists.
  - rewrite bool_decide_false; [done|]. intros [?|[[= ?]|Hin]]; [done|congruence|]. apply Hl in Hin as [k Hk]. congruence.
Qed.

(** ** The counters of a run *)

Definition count_all (cs : list (Z * Z * Z)) (c : counters) : counters := foldl (λ c '(md, op, tempo), count_call md op tempo c) c cs.

Lemma s64_add a b : s64 (s64 a + b) = s64 (a + b).
Proof.
  assert (s64 a mod 2 ^ 64 = a mod 2 ^ 64) as E.
  { unfold s64. destruct (Z.ltb_spec (a mod 2 ^ 64) (2 ^ 63)); [by rewrite Z.mod_mod|]. rewrite Zminus_mod, Z.mod_same, Z.sub_0_r, !Z.mod_mod by done. done. }
  unfold s64 at 1 3. by rewrite <-(Z.add_mod_idemp_l a), <-E, Z.add_mod_idemp_l.
Qed.

Lemma s32_add a b : s32 (s32 a + b) = s32 (a + b).
Proof.
  assert (u32 (s32 a) = u32 a) as E.
  { unfold s32, u32. destruct (Z.ltb_spec (a mod 2 ^ 32) (2 ^ 31)); [by rewrite Z.mod_mod|]. rewrite Zminus_mod, Z.mod_same, Z.sub_0_r, !Z.mod_mod by done. done. }
  unfold s32 at 1 3. unfold u32 in *. by rewrite <-(Z.add_mod_idemp_l a), <-E, Z.add_mod_idemp_l.
Qed.

(** The calls of a kind, and the sum of their times. *)
Definition of_kind (k : option kind) (cs : list (Z * Z * Z)) : list (Z * Z * Z) :=
  match k with None => cs | Some k => filter (λ c, kind_of (fst (fst c)) (snd (fst c)) = Some k) cs end.
Definition times (cs : list (Z * Z * Z)) : Z := foldr (λ c acc, snd c + acc) 0 cs.
Definition total_of (cs : list (Z * Z * Z)) : Z * Z := (s64 (times cs), s32 (Z.of_nat (length cs))).

Definition shifted (p q : Z * Z) : Z * Z := (s64 (fst p + fst q), s32 (snd p + snd q)).

Lemma add_shifted tempo p q : shifted (add_call tempo p) q = shifted p (tempo + fst q, 1 + snd q).
Proof. unfold shifted, add_call. cbn [fst snd]. rewrite s64_add, s32_add. do 2 f_equal; lia. Qed.

Lemma count_run cs c : (∀ k, c_of c k = shifted (c_of c k) (0, 0)) → c_total c = shifted (c_total c) (0, 0) →
  c_total (count_all cs c) = shifted (c_total c) (times cs, Z.of_nat (length cs)) ∧
  ∀ k, c_of (count_all cs c) k = shifted (c_of c k) (times (of_kind (Some k) cs), Z.of_nat (length (of_kind (Some k) cs))).
Proof.
  revert c. induction cs as [|[[md op] tempo] cs IH]; intros c Hk Ht; [done|]. cbn [count_all foldl]. change (foldl _ ?c0 cs) with (count_all cs c0).
  assert (∀ p, add_call tempo p = shifted (add_call tempo p) (0, 0)) as Hadd.
  { intros p. unfold shifted, add_call. cbn [fst snd]. by rewrite s64_add, s32_add, !Z.add_0_r. }
  destruct (IH (count_call md op tempo c)) as [H1 H2].
  { intros k. unfold count_call. cbn [c_of]. destruct (kind_of md op); [|apply Hk]. case_decide; [apply Hadd|apply Hk]. }
  { apply Hadd. }
  split.
  - rewrite H1. unfold count_call. cbn [c_total]. rewrite add_shifted. cbn [fst snd times foldr length]. do 2 f_equal. lia.
  - intros k. rewrite H2. unfold count_call. cbn [c_of]. unfold of_kind. rewrite filter_cons. cbn [fst snd].
    destruct (kind_of md op) as [k'|]; [|by rewrite decide_False]. destruct (decide (k = k')) as [->|Hne].
    + rewrite (decide_True (P := Some k' = Some k')) by done. rewrite add_shifted. cbn [fst snd times foldr length]. do 2 f_equal. lia.
    + by rewrite decide_False by congruence.
Qed.

(** After any calls the counter of each kind has the number of the calls of the kind and the sum of
    their times, and the total has those of all calls, each in the width of its type. *)
Theorem counters_correct cs :
  c_total (count_all cs counters0) = total_of cs ∧ ∀ k, c_of (count_all cs counters0) k = total_of (of_kind (Some k) cs).
Proof. destruct (count_run cs counters0) as [H1 H2]; [done|done|]. split; [by rewrite H1|]. intros k. by rewrite H2. Qed.

(** ** Settings *)

Definition ex_getenv (name : string) : option bytes := if String.eqb name "PQFH_DBG_TABLES" then Some (bs "cliente,produto") else None.

Lemma log_table_listed_witness : log_table (dbg_tables (get_debug ex_getenv true)) (bs "dados/produto") = true ∧
  log_table (dbg_tables (get_debug ex_getenv true)) (bs "dados/prod") = false.
Proof.
  split.
  - apply (proj2 (log_table_listed ex_getenv true [bs "cliente"; bs "produto"] (bs "cliente,produto") (bs "dados/produto"))); try done;
      [apply (bool_decide_unpack _); by vm_compute..].
  - apply (proj2 (log_table_listed ex_getenv true [bs "cliente"; bs "produto"] (bs "cliente,produto") (bs "dados/prod"))); try done;
      [apply (bool_decide_unpack _); by vm_compute..].
Defined.
