(* ===== verification/Commit.v ===== *)
(** Transactions (src/pqfh.c): the calls of the program and the thread that commits once a
    second share the connection, the counter of pending updates and a mutex.  The two
    threads are a step relation; what the server does with a transaction is the list of
    updates it has committed and the list of those still open, which a statement the server
    refuses condemns: the COMMIT after it is a rollback. *)

From stdpp Require Import prelude gmap strings relations.
From S2P Require Import Prelude.

Section commit.
Context {U : Type}.

Inductive thread := Main | Timer.

#[global] Instance thread_eq_dec : EqDecision thread.
Proof. solve_decision. Defined.

(** What an operation does while it holds the mutex, one step each: a statement the server
    does, one that no counter will count, one it refuses; [pending_commits++]; commit(), a
    COMMIT and BEGIN of its own that leave the counter, a rollback; the flag [fatal]; the end
    of the process; the call of pqfh_rollback from a command. *)
Inductive act :=
  | ASend (u : U) | ASendUncounted (u : U) | AFail | ACount | ACommit | ACommitOnly | ARollback | AFatal | AExit | ANested.

(** The calls of the program: those of the transaction interface; a write, rewrite or delete the
    server does, of a row or of none, and one it refuses; a call that only reads, or whose only
    statement is refused; the end of a lock; an open that empties the table, and one that creates
    it, whole or up to a statement that is refused; the removal of a table; a number that is not
    one in a key, with the file of the errors or without; and the commands written to the file
    [pqfh], which run inside a file operation. *)
Inductive call :=
  | CBegin | CCommit | CRollback
  | COp (u : option U) | CRefused | CRead (accepted : bool) | CUnlock
  | CTruncate (u : U) | CCreate (us : list U) (refused : bool) | CDeleteFile (u : U)
  | CInvalid (logged : bool) (u : option U)
  | CCmdCommit | CCmdRollback | CCmdCopy (us : list U) (refused : bool) | CCmdLoad (emptied : list U) (rows : list (option U)).

(** An update of a row, counted; the server may refuse it. *)
Definition row_acts (u : option U) : list act := match u with Some u => [ASend u; ACount] | None => [AFail; ACount] end.

(** src/op_write.c:176-197 op_write (the statement and the counter; src/op_rewrite.c:220-250,
    src/op_delete.c:130-148 the same) *)
Definition update_acts (u : option U) : list act := match u with Some u => [ASend u; ACount] | None => [ACount] end.

(** src/pqfh.c:197-199 unlock *)
Definition unlock_acts : list act := [ACount].

(** src/op_open.c:85-90 op_open (an open for output empties the table and counts nothing) *)
Definition output_acts (u : U) : list act := [ASendUncounted u].

(** src/create_table.c:88-104 create_table (the commit at its end, which leaves the counter) *)
Definition create_acts (us : list U) (refused : bool) : list act :=
  (ASendUncounted <$> us) ++ (if refused then [AFail; ACommitOnly] else [ACommitOnly]).

(** src/delete_file.c:74-86 op_delete_file (the table is dropped) *)
Definition delete_file_acts (u : U) : list act := [ASend u; ACount; ACommit].

(** src/validador.c:15-39 valida_comando (after a key with an invalid number: without the file of
    the errors the operation goes on) *)
Definition invalid_acts (logged : bool) (u : option U) : list act := AFatal :: if logged then [AExit] else update_acts u.

(** src/command.c:52-64 command (COPY; src/copy_table.c:47-59 commits too) *)
Definition copy_acts (us : list U) (refused : bool) : list act :=
  (ASendUncounted <$> us) ++ (if refused then [AFail; ACommit] else [ACount; ACommit; ACommit]).

(** src/command.c:66-72 command (LOAD; SYNC, at line 94, the same without the empty table) *)
Definition load_acts (emptied : list U) (rows : list (option U)) : list act :=
  (ASendUncounted <$> emptied) ++ (rows ≫= row_acts) ++ [ACommit].

(** The steps of a call once it has the mutex. *)
Definition acts (c : call) : list act :=
  match c with
  | CBegin | CCommit | CCmdCommit => [ACommit]
  | CRollback => [ARollback]
  | COp u => update_acts u
  | CRefused => row_acts None
  | CRead accepted => if accepted then [] else [AFail]
  | CUnlock => unlock_acts
  | CTruncate u => output_acts u
  | CCreate us refused => create_acts us refused
  | CDeleteFile u => delete_file_acts u
  | CInvalid logged u => invalid_acts logged u
  | CCmdRollback => [ANested]
  | CCmdCopy us refused => copy_acts us refused
  | CCmdLoad emptied rows => load_acts emptied rows
  end.

(** Where each thread is: outside, waiting for the mutex, holding it with steps to do, about to
    unlock; [MNested] waits for the mutex a second time, [TExit] is past its last commit. *)
Inductive main_pc := MIdle | MWait (c : call) | MRun (rest : list act) | MUnlock | MNested.
Inductive timer_pc := TIdle | TWait | THold | TUnlock | TExit.

(** src/pqfh.c:43-52 pending_commits : the globals of the transactions, the two threads and
    the server's side of the connection.  [x_uncounted], which no code reads, is the number of
    open updates that were not counted. *)
Record state := mk_state {
  x_lock : option thread;
  x_in_transaction : bool;
  x_pending : nat;
  x_uncounted : nat;
  x_fatal : bool;
  x_alive : bool;
  x_main : main_pc;
  x_timer : timer_pc;
  x_failed : bool;
  x_committed : list U;
  x_open : list U;
}.

Definition set_main (p : main_pc) (s : state) : state :=
  mk_state (x_lock s) (x_in_transaction s) (x_pending s) (x_uncounted s) (x_fatal s) (x_alive s) p (x_timer s) (x_failed s) (x_committed s) (x_open s).
Definition set_timer (p : timer_pc) (s : state) : state :=
  mk_state (x_lock s) (x_in_transaction s) (x_pending s) (x_uncounted s) (x_fatal s) (x_alive s) (x_main s) p (x_failed s) (x_committed s) (x_open s).
Definition set_lock (l : option thread) (s : state) : state :=
  mk_state l (x_in_transaction s) (x_pending s) (x_uncounted s) (x_fatal s) (x_alive s) (x_main s) (x_timer s) (x_failed s) (x_committed s) (x_open s).
Definition set_in (b : bool) (s : state) : state :=
  mk_state (x_lock s) b (x_pending s) (x_uncounted s) (x_fatal s) (x_alive s) (x_main s) (x_timer s) (x_failed s) (x_committed s) (x_open s).
Definition set_pending (n : nat) (s : state) : state :=
  mk_state (x_lock s) (x_in_transaction s) n (x_uncounted s) (x_fatal s) (x_alive s) (x_main s) (x_timer s) (x_failed s) (x_committed s) (x_open s).
Definition set_fatal (b : bool) (s : state) : state :=
  mk_state (x_lock s) (x_in_transaction s) (x_pending s) (x_uncounted s) b (x_alive s) (x_main s) (x_timer s) (x_failed s) (x_committed s) (x_open s).

(** The transaction of the server: what it has committed, what is open and how much of that no
    counter counts, whether a statement was refused. *)
Definition set_server (committed open : list U) (uncounted : nat) (failed : bool) (s : state) : state :=
  mk_state (x_lock s) (x_in_transaction s) (x_pending s) uncounted (x_fatal s) (x_alive s) (x_main s) (x_timer s) failed committed open.

(** The end of the process: the server forgets what is open. *)
Definition exited (s : state) : state :=
  mk_state (x_lock s) (x_in_transaction s) (x_pending s) 0 (x_fatal s) false (x_main s) (x_timer s) false (x_committed s) [].

(** COMMIT, then BEGIN: a transaction with a refused statement is rolled back. *)
Definition end_transaction (s : state) : state :=
  set_server (x_committed s ++ (if x_failed s then [] else x_open s)) [] 0 false s.

(** src/pqfh.c:69-83 commit : COMMIT, then BEGIN. *)
Definition do_commit (s : state) : state := set_pending 0 (end_transaction s).

(** src/pqfh.c:147-154 pqfh_rollback (ROLLBACK, then BEGIN) *)
Definition do_rollback (s : state) : state := set_pending 0 (set_server (x_committed s) [] 0 false s).

(** A statement: the server does none in a transaction that failed. *)
Definition send (counted : bool) (u : U) (s : state) : state :=
  if x_failed s then s
  else set_server (x_committed s) (x_open s ++ [u]) (if counted then x_uncounted s else S (x_uncounted s)) false s.

(** One step of a call that holds the mutex, with the steps [rest] to do. *)
Definition run_act (a : act) (rest : list act) (s : state) : state :=
  match a with
  | ASend u => set_main (MRun rest) (send true u s)
  | ASendUncounted u => set_main (MRun rest) (send false u s)
  | AFail => set_main (MRun rest) (set_server (x_committed s) (x_open s) (x_uncounted s) true s)
  | ACount => set_main (MRun rest) (set_pending (S (x_pending s)) s)
  | ACommit => set_main (MRun rest) (do_commit s)
  | ACommitOnly => set_main (MRun rest) (end_transaction s)
  | ARollback => set_main (MRun rest) (do_rollback s)
  | AFatal => set_main (MRun rest) (set_fatal true s)
  | AExit => exited s
  | ANested => set_main MNested (set_in false s)
  end.

(** The flag each call sets before it asks for the mutex. *)
Definition enter (c : call) (s : state) : state :=
  match c with
  | CBegin => set_in true s
  | CCommit | CRollback => set_in false s
  | _ => s
  end.

(** The end of the process for a call that finds [fatal], without the mutex. *)
Definition fatal_exit (c : call) (s : state) : state :=
  match c with
  | CCommit => exited (do_commit (set_in false s))
  | CRollback => exited (do_rollback (set_in false s))
  | CBegin => exited (set_in true s)
  | _ => exited s
  end.

(** src/pqfh.c:105-156 pqfh_begin_transaction (with [pqfh_commit], [pqfh_rollback] and the
    operations between lines 922 and 1356): a step of the program. *)
Inductive main_step : option call → state → state → Prop :=
  | m_call c s : x_alive s = true → x_main s = MIdle → x_fatal s = false →
      main_step (Some c) s (set_main (MWait c) (enter c s))
  | m_fatal c s : x_alive s = true → x_main s = MIdle → x_fatal s = true →
      main_step (Some c) s (fatal_exit c s)
  | m_lock c s : x_alive s = true → x_main s = MWait c → x_lock s = None →
      main_step None s (set_lock (Some Main) (set_main (MRun (acts c)) s))
  | m_run a rest s : x_alive s = true → x_main s = MRun (a :: rest) →
      main_step None s (run_act a rest s)
  | m_end s : x_alive s = true → x_main s = MRun [] →
      main_step None s (set_main MUnlock s)
  | m_unlock s : x_alive s = true → x_main s = MUnlock →
      main_step None s (set_lock None (set_main MIdle s))
  | m_nested s : x_alive s = true → x_main s = MNested → x_lock s = None →
      main_step None s (set_lock (Some Main) (set_main (MRun [ARollback]) s)).

(** src/pqfh.c:85-103 thread_commit : a step of the thread; the condition is read before
    the mutex is asked for, and the last commit, of a thread that finds [fatal], does not ask. *)
Inductive timer_step : state → state → Prop :=
  | t_fatal s : x_alive s = true → x_timer s = TIdle → x_fatal s = true → timer_step s (set_timer TExit (do_commit s))
  | t_exit s : x_alive s = true → x_timer s = TExit → timer_step s (exited s)
  | t_check s : x_alive s = true → x_timer s = TIdle → x_fatal s = false → (0 < x_pending s)%nat →
      x_in_transaction s = false → timer_step s (set_timer TWait s)
  | t_lock s : x_alive s = true → x_timer s = TWait → x_lock s = None →
      timer_step s (set_lock (Some Timer) (set_timer THold s))
  | t_commit s : x_alive s = true → x_timer s = THold → timer_step s (set_timer TUnlock (do_commit s))
  | t_unlock s : x_alive s = true → x_timer s = TUnlock → timer_step s (set_lock None (set_timer TIdle s)).

(** A step of the process; the label is the call the program begins, if any. *)
Inductive step : option call → state → state → Prop :=
  | s_main l s s' : main_step l s s' → step l s s'
  | s_timer s s' : timer_step s s' → step None s s'.

Definition some_step (s s' : state) : Prop := ∃ l, step l s s'.

Definition initial : state := mk_state None false 0 0 false true MIdle TIdle false [] [].

(** ** The invariant of the process *)

Definition main_has (p : main_pc) : bool :=
  match p with MRun _ | MUnlock | MNested => true | _ => false end.
Definition timer_has (p : timer_pc) : bool := match p with THold | TUnlock => true | _ => false end.

(** The steps a call has still to do. *)
Definition rest_of (p : main_pc) : list act := match p with MRun l => l | _ => [] end.

(** With [o] updates open and [p] known, the steps of [l] leave none that is not. *)
Fixpoint settles (o p : nat) (l : list act) : Prop :=
  match l with
  | [] => (o ≤ p)%nat
  | ASend _ :: l => settles (S o) p l
  | ASendUncounted _ :: l => settles (S o) (S p) l
  | ACount :: l => settles o (S p) l
  | (ACommit | ACommitOnly | ARollback) :: l => settles 0 0 l
  | (AFail | AFatal) :: l => settles o p l
  | AExit :: _ => True
  | ANested :: _ => (o ≤ p)%nat
  end.

Fixpoint safe (l : list act) : Prop := settles 0 0 l ∧ match l with [] => True | _ :: l => safe l end.

Lemma settles_shift l o p o' p' : settles o p l → (o' + p ≤ o + p')%nat → settles o' p' l.
Proof.
  revert o p o' p'. induction l as [|a l IH]; intros o p o' p'; [simpl; lia|].
  destruct a; cbn [settles]; try (intros; eapply IH; [eassumption|lia]); intros; first [done|lia].
Qed.

Lemma safe_settles l o p : safe l → (o ≤ p)%nat → settles o p l.
Proof. intros H Hp. apply (settles_shift l 0 0); [by destruct l; destruct H|lia]. Qed.

Lemma safe_sends us l : safe l → safe ((ASendUncounted <$> us) ++ l).
Proof. intros H. induction us as [|u us IH]; [done|]. split; [|exact IH]. cbn. by apply safe_settles. Qed.

Lemma safe_rows us l : safe l → safe ((us ≫= row_acts) ++ l).
Proof.
  intros H. induction us as [|[u|] us IH]; [done|..]; rewrite bind_cons, <-app_assoc; cbn; split_and!; try exact IH; apply safe_settles; done || lia.
Qed.

Lemma acts_safe c : safe (acts c).
Proof.
  destruct c as [| | |[u|]| |[]| |u|us []|u|[] [u|]| | |us []|us rows]; unfold acts, create_acts, copy_acts, load_acts; try (cbn; lia); apply safe_sends; try apply safe_rows; cbn; lia.
Qed.

(** The mutex belongs to the thread between its lock and its unlock, and what is open is
    counted, or of a call that is not; only a fatal error ends the thread. *)
Definition state_ok (s : state) : Prop :=
  (x_timer s = TExit → x_fatal s = true) ∧
  x_lock s = (if main_has (x_main s) then Some Main else if timer_has (x_timer s) then Some Timer else None) ∧
  (main_has (x_main s) && timer_has (x_timer s)) = false ∧
  (x_alive s = true → settles (length (x_open s)) (x_pending s + x_uncounted s) (rest_of (x_main s)) ∧ safe (rest_of (x_main s))).

Lemma run_ok a rest s : settles (length (x_open s)) (x_pending s + x_uncounted s) (a :: rest) → safe (a :: rest) →
  let s' := run_act a rest s in
  x_alive s' = true → settles (length (x_open s')) (x_pending s' + x_uncounted s') (rest_of (x_main s')) ∧ safe (rest_of (x_main s')).
Proof.
  intros Hs [_ Hsafe]. destruct a; cbn; try done.
  - intros _. split; [|by unfold send; destruct (x_failed s)]. unfold send. cbn in Hs. destruct (x_failed s); cbn; [eapply settles_shift; [exact Hs|lia]|].
    rewrite length_app. cbn. eapply settles_shift; [exact Hs|lia].
  - intros _. split; [|by unfold send; destruct (x_failed s)]. unfold send. cbn in Hs. destruct (x_failed s); cbn; [eapply settles_shift; [exact Hs|lia]|].
    rewrite length_app. cbn. eapply settles_shift; [exact Hs|lia].
  - intros _. split; [|done]. eapply settles_shift; [exact Hs|lia].
Qed.

Lemma main_ok l s s' : state_ok s → main_step l s s' → state_ok s'.
Proof.
  intros Hok H. revert Hok.
  destruct H as [c s0 _ Hm _|c s0 Ha Hm Hf|c s0 Ha Hm Hk|a rest s0 Ha Hm|s0 _ Hm|s0 _ Hm|s0 Ha Hm Hk]; intros (Hte & Hl & Hex & Hp); unfold state_ok; rewrite Hm in *.
  - destruct c; by split_and!.
  - destruct c; simpl; rewrite ?Hm; by split_and!.
  - rewrite Hk in Hl. simpl in *. split_and!; [done|done|by destruct (timer_has _)|]. intros _. split; [|apply acts_safe].
    apply safe_settles; [apply acts_safe|]. by apply Hp.
  - destruct (Hp Ha) as [H1 H2]. pose proof (run_ok a rest s0 H1 H2) as H3. split_and!; [..|exact H3];
      destruct a; simpl; unfold send; try (destruct (x_failed s0)); simpl; rewrite ?Hm; done.
  - done.
  - simpl in *. rewrite Hex. by split_and!.
  - rewrite Hk in Hl. done.
Qed.

Lemma timer_ok s s' : state_ok s → timer_step s s' → state_ok s'.
Proof.
  intros Hok H. revert Hok.
  destruct H as [s0 Ha Ht Hf|s0 _ Ht|s0 _ Ht _ _ _|s0 _ Ht Hk|s0 Ha Ht|s0 _ Ht]; intros (Hte & Hl & Hex & Hp); unfold state_ok in *;
    rewrite ?Ht in *; simpl in *; rewrite ?Ht, ?andb_true_r in *; simpl; try done.
  - split_and!; [done..|]. intros _. destruct (Hp Ha) as [_ Hs]. split; [|done]. by apply safe_settles.
  - rewrite Hk in Hl. by destruct (main_has (x_main s0)).
  - split_and!; [done..|]. intros _. destruct (Hp Ha) as [_ Hs]. split; [|done]. by apply safe_settles.
  - rewrite Hex, andb_false_r. by split_and!.
Qed.

Lemma step_ok l s s' : state_ok s → step l s s' → state_ok s'.
Proof. intros Hok Hs. revert Hok. destruct Hs as [? ? ? H|? ? H]; intros Hok; [by eapply main_ok|by eapply timer_ok]. Qed.

Lemma reach_ok s s' : state_ok s → rtc some_step s s' → state_ok s'.
Proof. intros Hok. induction 1 as [|x y z [l Hs] _ IH]; [done|]. eapply IH, step_ok; eauto. Qed.

Lemma initial_ok : state_ok initial.
Proof. by split_and!; cbn. Qed.

(** C13: In every state the process reaches, the mutex belongs to the thread that is between
    its lock and its unlock, never to both, so that outside a fatal error the thread commits
    nothing while a call of the program has it (its last commit, after a fatal error, does not
    ask for the mutex); and between calls every open update is known to [pending_commits] but
    those no line counts: the emptied tables of OPEN OUTPUT and of LOAD, those COPY replaces
    and those an OPEN creates. *)
Theorem commit_invariant s : rtc some_step initial s →
  (main_has (x_main s) && timer_has (x_timer s)) = false ∧
  x_lock s = (if main_has (x_main s) then Some Main else if timer_has (x_timer s) then Some Timer else None) ∧
  (∀ s', timer_step s s' → x_committed s' ≠ x_committed s → main_has (x_main s) = false ∨ x_fatal s = true) ∧
  (x_alive s = true → main_has (x_main s) = false → (length (x_open s) ≤ x_pending s + x_uncounted s)%nat).
Proof.
  intros H. destruct (reach_ok _ _ initial_ok H) as (_ & H1 & H2 & H3). split; [done|]. split; [done|]. split.
  - intros s' Hs Hne. destruct Hs as [s0 _ _ Hf|s0|s0|s0|s0 _ Ht|s0]; try done; [by right|]. left. rewrite Ht in H2. by destruct (main_has _).
  - intros Ha Hm. destruct (H3 Ha) as [Hc _]. by destruct (x_main s).
Qed.

(** ** A transaction of the program *)

(** The steps that neither commit nor end the process, and the calls made of such steps. *)
Definition quiet_act (a : act) : bool := match a with ASend _ | ASendUncounted _ | AFail | ACount => true | _ => false end.
Definition quiet (c : call) : bool := forallb quiet_act (acts c).

(** A transaction is open and the thread did not see the counter before it. *)
Definition in_tx (committed : list U) (s : state) : Prop :=
  x_in_transaction s = true ∧ x_timer s = TIdle ∧ x_fatal s = false ∧ x_committed s = committed ∧
  (x_main s = MIdle ∨ x_main s = MUnlock ∨ (∃ c, x_main s = MWait c ∧ quiet c = true) ∨ ∃ l, x_main s = MRun l ∧ forallb quiet_act l = true).

(** Steps in which the program makes such calls only. *)
Definition op_step (s s' : state) : Prop :=
  ∃ l, step l s s' ∧ match l with Some c => quiet c = true | None => True end.

Lemma quiet_enter c s : quiet c = true → enter c s = s.
Proof. by destruct c. Qed.

Lemma in_tx_step c s s' : in_tx c s → op_step s s' → in_tx c s' ∧ ∃ us, x_open s' = x_open s ++ us.
Proof.
  assert (∀ l : list U, ∃ us, l = l ++ us) as Hnil by (intros l; exists []; by rewrite app_nil_r).
  intros Htx (l & Hs & Hl). revert Htx Hl. unfold in_tx. destruct Hs as [l s s' Hs|s s' Hs].
  - destruct Hs as [k s _ Hm' _|k s _ Hm' Hf'|k s _ Hm' Hk|a rest s _ Hm'|s _ Hm'|s _ Hm'|s _ Hm' Hk]; intros (Hi & Ht & Hf & Hc & Hm) Hl; [|congruence|..];
      rewrite Hm' in Hm; destruct Hm as [?|[?|[(k2 & [= <-] & Hq)|(l2 & [= <-] & Hq)]]]; try done.
    + rewrite quiet_enter by done. split; [|apply Hnil]. do 4 (split; [done|]). right. right. left. by exists k.
    + split; [|apply Hnil]. do 4 (split; [done|]). right. right. right. by exists (acts k).
    + cbn in Hq. apply andb_true_iff in Hq as [Hqa Hq]. destruct a; try done; cbn; unfold send; try destruct (x_failed s);
        (split; [do 4 (split; [done|]); right; right; right; by exists rest|]); cbn; first [by apply Hnil|by eexists].
    + split; [|apply Hnil]. do 4 (split; [done|]). right. by left.
    + split; [|apply Hnil]. do 4 (split; [done|]). by left.
  - destruct Hs; intros (Hi & Ht & Hf & Hc & Hm) _; congruence.
Qed.


(** *** The calls that commit *)

(** What such a call sends, when the server refuses none of it. *)
Definition commits (c : call) : option (list U) :=
  match c with
  | CCreate us false | CCmdCopy us false => Some us
  | CDeleteFile u => Some [u]
  | CCmdCommit => Some []
  | CCmdLoad emptied rows => rows ← mapM id rows; Some (emptied ++ rows)
  | _ => None
  end.

Notation goes := (rtc some_step).

Lemma goes_act a rest s : x_alive s = true → x_main s = MRun (a :: rest) → goes s (run_act a rest s).
Proof. intros Ha Hm. apply rtc_once. exists None. by apply s_main, m_run. Qed.

(** A run of the program from a state, holding the mutex, with the statements [sent] done. *)
Definition running (s : state) (sent : list U) (rest : list act) (s' : state) : Prop :=
  goes s s' ∧ x_main s' = MRun rest ∧ x_alive s' = true ∧ x_failed s' = false ∧ x_in_transaction s' = x_in_transaction s ∧
  x_committed s' = x_committed s ∧ x_open s' = x_open s ++ sent.

Lemma running_act s sent a rest s1 sent' : running s sent (a :: rest) s1 →
  match a with ASend u | ASendUncounted u => sent' = sent ++ [u] | ACount => sent' = sent | _ => False end →
  ∃ s2, running s sent' rest s2.
Proof.
  intros (Hg & Hm & Ha & Hf & Hi & Hc & Ho) Hs. exists (run_act a rest s1).
  destruct a; try done; subst sent'; (split; [etrans; [exact Hg|by apply goes_act]|]); cbn; unfold send; rewrite ?Hf; cbn; rewrite ?Ho, ?app_assoc; by split_and!.
Qed.

Lemma running_sends us : ∀ s sent rest s1, running s sent ((ASendUncounted <$> us) ++ rest) s1 → ∃ s2, running s (sent ++ us) rest s2.
Proof.
  induction us as [|u us IH]; intros s sent rest s1 H; [exists s1; by rewrite app_nil_r|].
  destruct (running_act s sent _ _ s1 _ H eq_refl) as (s2 & H2). destruct (IH _ _ _ _ H2) as (s3 & H3). exists s3. by rewrite <-app_assoc in H3.
Qed.

Lemma running_rows rows : ∀ us s sent rest s1, mapM id rows = Some us → running s sent ((rows ≫= row_acts) ++ rest) s1 → ∃ s2, running s (sent ++ us) rest s2.
Proof.
  induction rows as [|[u|] rows IH]; intros us s sent rest s1 Hm H; [injection Hm as <-; exists s1; by rewrite app_nil_r| |done].
  apply bind_Some in Hm as (? & [= <-] & (us' & Hm & [= <-])%bind_Some). rewrite bind_cons, <-app_assoc in H.
  destruct (running_act s sent _ _ s1 _ H eq_refl) as (s2 & H2). destruct (running_act s _ _ _ s2 _ H2 eq_refl) as (s3 & H3).
  destruct (IH us' _ _ _ _ Hm H3) as (s4 & H4). exists s4. by rewrite <-app_assoc in H4.
Qed.

Lemma goes_end s : x_alive s = true → x_main s = MRun [] → goes s (set_lock None (set_main MIdle s)).
Proof.
  intros Ha Hm. eapply rtc_l; [exists None; by eapply s_main, m_end|]. eapply rtc_l; [exists None; by eapply s_main, m_unlock|]. apply rtc_refl.
Qed.

(** The commit at the end of a call, once or twice. *)
Lemma running_commit s sent rest s1 : running s sent rest s1 → rest = [ACommit] ∨ rest = [ACommitOnly] ∨ rest = [ACommit; ACommit] →
  ∃ s2, goes s s2 ∧ x_main s2 = MIdle ∧ x_in_transaction s2 = x_in_transaction s ∧ x_committed s2 = x_committed s ++ x_open s ++ sent ∧ x_open s2 = [].
Proof.
  intros (Hg & Hm & Ha & Hf & Hi & Hc & Ho) Hr.
  assert (∃ s2, goes s1 s2 ∧ x_main s2 = MRun [] ∧ x_alive s2 = true ∧ x_in_transaction s2 = x_in_transaction s1 ∧
    x_committed s2 = x_committed s1 ++ x_open s1 ∧ x_open s2 = []) as (s2 & Hg2 & Hm2 & Ha2 & Hi2 & Hc2 & Ho2).
  { destruct Hr as [->|[->| ->]].
    - exists (run_act ACommit [] s1). split; [by apply goes_act|]. cbn. rewrite Hf. by split_and!.
    - exists (run_act ACommitOnly [] s1). split; [by apply goes_act|]. cbn. rewrite Hf. by split_and!.
    - exists (run_act ACommit [] (run_act ACommit [ACommit] s1)). split; [etrans; by apply goes_act|]. cbn. rewrite Hf, app_nil_r. by split_and!. }
  exists (set_lock None (set_main MIdle s2)). split; [etrans; [exact Hg|]; etrans; [exact Hg2|]; by apply goes_end|].
  cbn. rewrite Hi2, Hc2, Hc, Ho. by split_and!.
Qed.

(** C19: The removal of a table, an open that creates its table and the commands COMMIT, COPY, LOAD
    and SYNC commit: called inside a transaction, whose statements so far the server accepted, they
    commit these and their own, and the program goes on as if its transaction were still open. *)
Theorem transaction_broken s c us : in_tx (x_committed s) s → x_main s = MIdle → x_lock s = None → x_alive s = true → x_failed s = false →
  commits c = Some us →
  ∃ s', rtc some_step s s' ∧ x_main s' = MIdle ∧ x_in_transaction s' = true ∧ x_committed s' = x_committed s ++ x_open s ++ us ∧ x_open s' = [].
Proof.
  intros (Hi & _ & Hf & _) Hm Hl Ha Hfa Hc.
  assert (enter c s = s) as He by by destruct c.
  assert (running s [] (acts c) (set_lock (Some Main) (set_main (MRun (acts c)) (set_main (MWait c) s)))) as Hr.
  { split; [|split_and!; try done; by rewrite app_nil_r].
    eapply rtc_l; [exists (Some c); by apply s_main, m_call|]. rewrite He. eapply rtc_l; [exists None; by eapply s_main, m_lock|]. apply rtc_refl. }
  revert Hr. generalize (set_lock (Some Main) (set_main (MRun (acts c)) (set_main (MWait c) s))). intros s1 Hr. rewrite <-Hi.
  destruct c as [| | | | | | | |us' []|u| | | |us' []|e rows]; try done; cbn [commits acts] in *; unfold create_acts, copy_acts, load_acts in Hr.
  - injection Hc as ->. destruct (running_sends _ _ _ _ _ Hr) as (s2 & H2). eapply running_commit; [exact H2|tauto].
  - injection Hc as <-. destruct (running_act _ _ _ _ _ _ Hr eq_refl) as (s2 & H2). destruct (running_act _ _ _ _ _ _ H2 eq_refl) as (s3 & H3).
    eapply running_commit; [exact H3|tauto].
  - injection Hc as <-. eapply running_commit; [exact Hr|tauto].
  - injection Hc as ->. destruct (running_sends _ _ _ _ _ Hr) as (s2 & H2). destruct (running_act _ _ _ _ _ _ H2 eq_refl) as (s3 & H3).
    eapply running_commit; [exact H3|tauto].
  - apply bind_Some in Hc as (us' & Hc & [= <-]). destruct (running_sends _ _ _ _ _ Hr) as (s2 & H2).
    destruct (running_rows _ _ _ _ _ _ Hc H2) as (s3 & H3). eapply running_commit; [exact H3|tauto].
Qed.

(** C38: The thread may commit inside a transaction: it can see a pending update before the
    transaction begins and take the mutex after, so that an update of the transaction is
    committed before its end. *)
Theorem transaction_race (u v : U) : ∃ s, rtc some_step initial s ∧
  x_in_transaction s = true ∧ x_committed s = [u; v] ∧ x_open s = [] ∧
  ∃ s0, rtc some_step initial s0 ∧ rtc op_step s0 s ∧ x_in_transaction s0 = true ∧ x_committed s0 = [u].
Proof.
  pose (s0 := mk_state None true 0 0 false true MIdle TWait false [u] ([] : list U)).
  assert (rtc some_step initial s0) as H0.
  { eapply rtc_l; [exists (Some (COp (Some u))); by apply s_main, m_call|].
    eapply rtc_l; [exists None; by eapply s_main, m_lock|]. do 2 (eapply rtc_l; [exists None; by eapply s_main, m_run|]).
    eapply rtc_l; [exists None; by apply s_main, m_end|]. eapply rtc_l; [exists None; by apply s_main, m_unlock|].
    eapply rtc_l; [exists None; apply s_timer, t_check; simpl; (done || lia)|].
    eapply rtc_l; [exists (Some CBegin); by apply s_main, m_call|].
    eapply rtc_l; [exists None; by eapply s_main, m_lock|]. eapply rtc_l; [exists None; by eapply s_main, m_run|].
    eapply rtc_l; [exists None; by apply s_main, m_end|]. eapply rtc_l; [exists None; by apply s_main, m_unlock|]. apply rtc_refl. }
  assert (rtc op_step s0 (mk_state (Some Timer) true 0 0 false true MIdle TUnlock false [u; v] [])) as H1.
  { eapply rtc_l; [exists (Some (COp (Some v))); split; [by apply s_main, m_call|done]|].
    eapply rtc_l; [exists None; split; [by eapply s_main, m_lock|done]|].
    do 2 (eapply rtc_l; [exists None; split; [by eapply s_main, m_run|done]|]).
    eapply rtc_l; [exists None; split; [by apply s_main, m_end|done]|]. eapply rtc_l; [exists None; split; [by apply s_main, m_unlock|done]|].
    eapply rtc_l; [exists None; split; [by apply s_timer, t_lock|done]|].
    eapply rtc_l; [exists None; split; [by apply s_timer, t_commit|done]|]. apply rtc_refl. }
  exists (mk_state (Some Timer) true 0 0 false true MIdle TUnlock false [u; v] []). split; [|do 3 (split; [done|])].
  - etrans; [exact H0|]. clear - H1. induction H1 as [|x y z (l & Hs & _) _ IH]; [done|].
    eapply rtc_l; [by exists l|exact IH].
  - exists s0. done.
Qed.

(** ** The process left alone *)

(** The steps of both threads when the program makes no call. *)
Notation silent := (step None).

Definition act_weight (a : act) : nat := match a with ANested => 20 | _ => 6 end.
Definition acts_weight (l : list act) : nat := sum_list (act_weight <$> l).
Definition main_weight (p : main_pc) : nat :=
  match p with MIdle => 0 | MWait c => acts_weight (acts c) + 4 | MRun l => acts_weight l + 2 | MUnlock => 1 | MNested => 10 end.
Definition timer_weight (p : timer_pc) (pending : nat) : nat :=
  let due := if (0 <? pending)%nat then 4%nat else 0%nat in
  match p with TIdle => 2 + due | TWait => 5 | THold => 4 | TUnlock => 3 + due | TExit => 1 end.

(** No more steps than this are left. *)
Definition measure (s : state) : nat :=
  if x_alive s then S (main_weight (x_main s) + timer_weight (x_timer s) (x_pending s)) else 0.

Lemma timer_weight_le p n m : (timer_weight p n ≤ timer_weight p m + 4)%nat.
Proof. unfold timer_weight. destruct (0 <? n)%nat, (0 <? m)%nat, p; lia. Qed.

Lemma run_measure a rest s : x_alive s = true → x_main s = MRun (a :: rest) → (measure (run_act a rest s) < measure s)%nat.
Proof.
  intros Ha Hm. unfold measure. rewrite Ha, Hm. unfold main_weight, acts_weight. rewrite fmap_cons. simpl.
  destruct a; cbn; unfold send; try destruct (x_failed s); cbn; rewrite ?Ha; try lia;
    match goal with |- context [timer_weight (x_timer s) ?n] => first [is_evar n | pose proof (timer_weight_le (x_timer s) n (x_pending s)); lia] end.
Qed.

Lemma silent_measure s s' : silent s s' → (measure s' < measure s)%nat.
Proof.
  intros H. inversion H as [l s0 s1 Hs|s0 s1 Hs]; subst.
  - inversion Hs as [| |c s2 Ha Hm|a rest s2 Ha Hm|s2 Ha Hm|s2 Ha Hm|s2 Ha Hm]; subst; [..|by apply run_measure| | |]; unfold measure; cbn; rewrite Ha, Hm; cbn; lia.
  - destruct Hs as [s Ha Ht|s Ha Ht|s Ha Ht Hf Hp|s Ha Ht|s Ha Ht|s Ha Ht]; unfold measure; cbn; rewrite ?Ha, ?Ht; cbn; destruct (x_pending s); cbn; lia.
Qed.

Lemma silent_steps n s s' : nsteps silent n s s' → (n + measure s' ≤ measure s)%nat.
Proof. induction 1 as [|n x y z Hs _ IH]; [lia|]. pose proof (silent_measure _ _ Hs). lia. Qed.

(** Where the process stops when no call is made. *)
Definition at_rest (s : state) : Prop := ∀ s', ¬ silent s s'.

Lemma rest_cases s : state_ok s → at_rest s →
  x_alive s = false ∨ x_main s = MNested ∨
  (x_main s = MIdle ∧ x_timer s = TIdle ∧ x_lock s = None ∧ x_fatal s = false ∧ (x_in_transaction s = true ∨ x_pending s = 0%nat)).
Proof.
  intros (_ & Hl & Hex & _) Hr. destruct (x_alive s) eqn:Ha; [|by left]. right.
  assert (x_timer s ≠ TExit ∧ x_timer s ≠ THold ∧ x_timer s ≠ TUnlock) as (T1 & T2 & T3).
  { split_and!; intros Ht; eapply Hr; apply s_timer; [by apply t_exit|by apply t_commit|by apply t_unlock]. }
  assert (timer_has (x_timer s) = false) as Hth by by destruct (x_timer s).
  destruct (x_main s) as [|c|[|a rest]| |] eqn:Hm; cbn in Hl; rewrite ?Hth in Hl.
  - right. assert (x_timer s = TIdle) as Ht.
    { destruct (x_timer s) eqn:Ht; try done. exfalso. eapply Hr, s_timer. by apply t_lock. }
    destruct (x_fatal s) eqn:Hf; [exfalso; eapply Hr, s_timer; by apply t_fatal|]. split_and!; try done.
    destruct (x_in_transaction s) eqn:Hi; [by left|right]. destruct (x_pending s) as [|n] eqn:Hp; [done|].
    exfalso. eapply Hr, s_timer, t_check; first [done|lia].
  - exfalso. eapply Hr, s_main. by eapply m_lock.
  - exfalso. eapply Hr, s_main. by eapply m_end.
  - exfalso. eapply Hr, s_main. by eapply m_run.
  - exfalso. eapply Hr, s_main. by eapply m_unlock.
  - by left.
Qed.

(** The thread alone, with an update pending: its commit is to come, or done. *)
Definition due (s s' : state) : Prop :=
  x_main s' = MIdle ∧ x_fatal s' = false ∧ x_in_transaction s' = false ∧ (x_timer s' ≠ TExit) ∧ x_alive s' = true ∧
  ((x_committed s' = x_committed s ∧ x_open s' = x_open s ∧ x_failed s' = x_failed s ∧ x_pending s' = x_pending s) ∨
   (x_committed s' = x_committed s ++ (if x_failed s then [] else x_open s) ∧ x_open s' = [])).

Lemma due_step s s1 s2 : due s s1 → silent s1 s2 → due s s2.
Proof.
  intros (Hm & Hf & Hi & Hx & Ha & Hd) H. inversion H as [l s0 s3 Hs|s0 s3 Hs]; subst.
  - inversion Hs; congruence.
  - destruct Hs as [s1|s1|s1|s1|s1|s1]; try congruence; (split_and!; [done..|]); cbn; try exact Hd.
    right. destruct Hd as [(-> & -> & -> & _)|(-> & ->)]; [done|]. by destruct (x_failed s1); rewrite app_nil_r.
Qed.

(** C37: Left alone, with no further call of the program, the two threads stop after at most
    [measure s] steps in whatever order they run; then the process has ended, or it is stuck in a
    ROLLBACK command, or both threads are outside, the mutex is free and, unless a transaction of
    the program is open, no update is pending: what is open was never counted.  When the program
    is outside the file handler, outside a transaction, no error is fatal and an update is
    pending, everything that was open has been committed by then - or, when the server refused one
    of its statements, lost as a whole. *)
Theorem comes_to_rest s : rtc some_step initial s →
  (∀ n s', nsteps silent n s s' → (n ≤ measure s)%nat) ∧
  (∀ s', rtc silent s s' → at_rest s' →
    (x_alive s' = false ∨ x_main s' = MNested ∨
      (x_main s' = MIdle ∧ x_timer s' = TIdle ∧ x_lock s' = None ∧
        (x_in_transaction s' = true ∨ (x_pending s' = 0%nat ∧ (length (x_open s') ≤ x_uncounted s')%nat)))) ∧
    (x_alive s = true → x_main s = MIdle → x_in_transaction s = false → x_fatal s = false → (0 < x_pending s)%nat →
      x_committed s' = x_committed s ++ (if x_failed s then [] else x_open s) ∧ x_open s' = [])).
Proof.
  intros Hr. pose proof (reach_ok _ _ initial_ok Hr) as Hok. split.
  - intros n s' Hn. pose proof (silent_steps _ _ _ Hn). lia.
  - intros s' Hs Hrest. assert (state_ok s') as Hok'.
    { apply (reach_ok s); [done|]. clear - Hs. induction Hs as [|x y z H _ IH]; [done|]. eapply rtc_l; [by exists None|exact IH]. }
    pose proof (rest_cases s' Hok' Hrest) as Hc. split.
    + destruct Hc as [?|[?|(Hm & Ht & Hl & _ & Hi)]]; [by left|right; by left|]. destruct (x_alive s') eqn:Ha; [|by left].
      right. right. split_and!; try done. destruct Hi as [Hi|Hi]; [by left|right]. split; [done|].
      destruct Hok' as (_ & _ & _ & Hcount). destruct (Hcount Ha) as [Hcnt _]. rewrite Hm, Hi in Hcnt. exact Hcnt.
    + intros Ha Hm Hi Hf Hp. assert (due s s') as (Hm' & _ & Hi' & _ & Ha' & Hd).
      { assert (due s s) as Hd. { split_and!; try done; [|by left]. intros Ht. by rewrite (proj1 Hok Ht) in Hf. }
        clear - Hs Hd. revert Hd. assert (∀ s1, rtc silent s1 s' → due s s1 → due s s') as H; [|by apply H].
        clear. intros s1 Hs. induction Hs as [|x y z H _ IH]; [done|]. intros Hd. by eapply IH, due_step. }
      destruct Hd as [(_ & _ & _ & Hpend)|Hd]; [|done]. destruct Hc as [?|[?|(_ & _ & _ & _ & [?|?])]]; congruence || lia.
Qed.

(** C39: A ROLLBACK written to the command file stops the program for good: it runs inside
    a file operation, which holds the mutex, and asks for it again; in no state reached
    afterwards has the program gone on, and no commit of the thread happens either. *)
Theorem rollback_command_deadlock s s' : rtc some_step initial s → x_main s = MNested → x_fatal s = false →
  rtc some_step s s' → x_main s' = MNested ∧ x_committed s' = x_committed s ∧ x_open s' = x_open s.
Proof.
  intros Hr Hm Hf Hs. pose proof (reach_ok _ _ initial_ok Hr) as Hok.
  assert (x_main s' = MNested ∧ x_fatal s' = false ∧ x_committed s' = x_committed s ∧ x_open s' = x_open s) as (?&?&?&?); [|done].
  revert Hm Hf Hok. clear Hr. induction Hs as [s|s s1 s' [l Hs] _ IH]; intros Hm Hf Hok; [done|].
  assert (x_main s1 = MNested ∧ x_fatal s1 = false ∧ x_committed s1 = x_committed s ∧ x_open s1 = x_open s) as (H1 & H2 & H3 & H4).
  { pose proof Hok as (Hte & Hl & Hex & _). rewrite Hm in Hl, Hex; simpl in Hl, Hex.
    inversion Hs as [l0 s2 s3 H|s2 s3 H]; subst; inversion H as [? ? ? Hx|? ? ? Hx|? ? ? Hx|? ? ? ? Hx|? ? Hx|? ? Hx|? ? Hx Hk] || inversion H as [? ? Hx|? ? Hx|? ? Hx|? ? Hx|? ? Hx|? ? Hx]; subst;
      try congruence; try done; rewrite Hx in *; try done; by rewrite Hte in Hf. }
  destruct (IH H1 H2 ltac:(by eapply step_ok)) as (? & ? & ? & ?). split_and!; congruence.
Qed.

End commit.

(** ** Concrete runs *)

(** One update, done. *)
Definition ex_updated : state (U:=nat) := mk_state None false 1 0 false true MIdle TIdle false [] [7%nat].

Lemma ex_updated_reached : rtc some_step initial ex_updated.
Proof.
  eapply rtc_l; [exists (Some (COp (Some 7%nat))); by apply s_main, m_call|].
  eapply rtc_l; [exists None; by eapply s_main, m_lock|]. do 2 (eapply rtc_l; [exists None; by eapply s_main, m_run|]).
  eapply rtc_l; [exists None; by apply s_main, m_end|]. eapply rtc_l; [exists None; by apply s_main, m_unlock|]. apply rtc_refl.
Qed.

(** An open that empties the table: nothing is pending, one update is open. *)
Definition ex_emptied : state (U:=nat) := mk_state None false 0 1 false true MIdle TIdle false [] [7%nat].

Lemma ex_emptied_reached : rtc some_step initial ex_emptied.
Proof.
  eapply rtc_l; [exists (Some (CTruncate 7%nat)); by apply s_main, m_call|].
  eapply rtc_l; [exists None; by eapply s_main, m_lock|]. eapply rtc_l; [exists None; by eapply s_main, m_run|].
  eapply rtc_l; [exists None; by apply s_main, m_end|]. eapply rtc_l; [exists None; by apply s_main, m_unlock|]. apply rtc_refl.
Qed.

(** The emptied table of an open for output is not committed however long the thread runs. *)
Lemma truncate_not_committed : rtc some_step initial ex_emptied ∧ x_open ex_emptied = [7%nat] ∧ at_rest ex_emptied.
Proof.
  split; [apply ex_emptied_reached|]. split; [done|]. intros s' H. inversion H as [l s0 s1 Hs|s0 s1 Hs]; subst; inversion Hs; subst; try done. cbn in *. lia.
Qed.

(** A write the server refuses after one it did: the commit of the thread loses both. *)
Definition ex_refused : state (U:=nat) := mk_state None false 2 0 false true MIdle TIdle true [] [7%nat].

Lemma ex_refused_reached : rtc some_step initial ex_refused.
Proof.
  etrans; [apply ex_updated_reached|].
  eapply rtc_l; [exists (Some CRefused); by apply s_main, m_call|].
  eapply rtc_l; [exists None; by eapply s_main, m_lock|]. do 2 (eapply rtc_l; [exists None; by eapply s_main, m_run|]).
  eapply rtc_l; [exists None; by apply s_main, m_end|]. eapply rtc_l; [exists None; by apply s_main, m_unlock|]. apply rtc_refl.
Qed.

Lemma refused_loses : ∃ s' : state (U:=nat), rtc (step None) ex_refused s' ∧ x_pending s' = 0%nat ∧ x_committed s' = [] ∧ x_open s' = [].
Proof.
  eexists. split.
  - eapply rtc_l; [apply s_timer, t_check; simpl; (done || lia)|]. eapply rtc_l; [by apply s_timer, t_lock|].
    eapply rtc_l; [by apply s_timer, t_commit|]. apply rtc_refl.
  - done.
Qed.

(** The program inside a ROLLBACK command. *)
Definition ex_nested : state (U:=nat) := mk_state (Some Main) false 1 0 false true MNested TIdle false [] [7%nat].

Lemma ex_nested_reached : rtc some_step initial ex_nested.
Proof.
  etrans; [apply ex_updated_reached|].
  eapply rtc_l; [exists (Some CCmdRollback); by apply s_main, m_call|].
  eapply rtc_l; [exists None; by eapply s_main, m_lock|]. eapply rtc_l; [exists None; by eapply s_main, m_run|]. apply rtc_refl.
Qed.

Lemma commit_invariant_witness : rtc some_step initial ex_emptied ∧ (length (x_open ex_emptied) ≤ x_pending ex_emptied + x_uncounted ex_emptied)%nat.
Proof. split; [apply ex_emptied_reached|]. by apply (commit_invariant ex_emptied ex_emptied_reached). Defined.

(** A transaction of the program, after its first call. *)
Definition ex_in_tx : state (U:=nat) := mk_state None true 0 0 false true MIdle TIdle false [7%nat] [].


Lemma transaction_broken_witness : ∃ s', rtc some_step ex_in_tx s' ∧ x_in_transaction s' = true ∧ x_committed s' = [7%nat; 9%nat].
Proof.
  destruct (transaction_broken ex_in_tx (CDeleteFile 9%nat) [9%nat]) as (s' & H & _ & Hi & Hc & _); try done.
  - split_and!; try done. by left.
  - exists s'. split; [exact H|]. split; [exact Hi|exact Hc].
Defined.

Lemma comes_to_rest_witness : ∃ s', rtc (step None) ex_updated s' ∧ at_rest s' ∧ x_committed s' = [7%nat] ∧ x_open s' = [].
Proof.
  pose (s' := mk_state None false 0 0 false true MIdle TIdle false [7%nat] ([] : list nat)).
  assert (rtc (step None) ex_updated s') as H.
  { eapply rtc_l; [apply s_timer, t_check; simpl; (done || lia)|]. eapply rtc_l; [by apply s_timer, t_lock|].
    eapply rtc_l; [by apply s_timer, t_commit|]. eapply rtc_l; [by apply s_timer, t_unlock|]. apply rtc_refl. }
  assert (at_rest s') as Hr.
  { intros s2 H2. inversion H2 as [l s0 s1 Hs|s0 s1 Hs]; subst; inversion Hs; subst; try done. cbn in *. lia. }
  exists s'. split; [exact H|]. split; [exact Hr|].
  apply (proj2 (comes_to_rest ex_updated ex_updated_reached) s' H Hr); try done. simpl. lia.
Defined.

Lemma rollback_command_deadlock_witness : rtc some_step initial ex_nested ∧ x_committed ex_nested = [].
Proof.
  split; [apply ex_nested_reached|].
  apply (rollback_command_deadlock ex_nested ex_nested); [apply ex_nested_reached|done|done|apply rtc_refl].
Defined.
