(* ===== verification/Memfh.v ===== *)
(** In-memory files (src/memfh.c, and the creation of an index on demand of
    src/memfh_idx.c): a list of records and one page index per key.  Each index has
    its own page heap; records live in a heap of buffers. *)

From stdpp Require Import prelude gmap strings sorting.
From S2P Require Import Prelude MemfhIdx.
Local Open Scope Z_scope.

(** A key: [keys[k][0]] components, each an offset and a length in the record. *)
Abbreviation keydef := (list (Z * Z)).

(** src/memfh.h:37-49 memfh_hdr_t : [head], [tail] and the [next] links are the
    list of record buffers in order of creation; the cursor arrays of key [k] are
    inside its index. *)
Record memfh_hdr_t := mk_hdr {
  h_filename : bytes;
  h_count : Z;
  h_reclen : nat;
  h_keys : list keydef;
  h_data : list ptr;
  h_records : gmap ptr bytes;
  h_brk : ptr;
  h_idx : list (option ixst);
}.

Definition set_count (n : Z) (h : memfh_hdr_t) : memfh_hdr_t :=
  mk_hdr (h_filename h) n (h_reclen h) (h_keys h) (h_data h) (h_records h) (h_brk h) (h_idx h).
Definition set_idx (k : nat) (s : ixst) (h : memfh_hdr_t) : memfh_hdr_t :=
  mk_hdr (h_filename h) (h_count h) (h_reclen h) (h_keys h) (h_data h) (h_records h) (h_brk h)
         (<[k := Some s]> (h_idx h)).
Definition set_record (p : ptr) (r : bytes) (h : memfh_hdr_t) : memfh_hdr_t :=
  mk_hdr (h_filename h) (h_count h) (h_reclen h) (h_keys h) (h_data h) (<[p := r]> (h_records h))
         (h_brk h) (h_idx h).

(** Run an operation on index [k]; [hdr->idx[k]] is not NULL. *)
Definition on_idx {A} (k : nat) (m : M ixst A) : M memfh_hdr_t A := λ h,
  match h_idx h !! k with
  | Some (Some s) => let '(s', r) := m s in (set_idx k s' h, r)
  | _ => (h, inl Fault)
  end.

(** A page that [malloc] returned: one leaf without items. *)
Definition fresh_index : ixst :=
  mk_ix 2 {[ 1%Z := mk_page MEMFH_LEAF 0 0 0 [] ]} 1 ∅ ∅ 0 0 0.

(** [hdr->idx[k]->keylen = len]. *)
Definition set_keylen (len : nat) : M ixst unit :=
  r ← gets root;
  pg ← load_page r;
  store_page r (mk_page (idx_tp pg) len (idx_n pg) (idx_next pg) (idx_buf pg)).

(** src/memfh.c:15-51 memfh_open *)
Definition memfh_open (filename : bytes) (reclen : nat) (keys : list keydef) : memfh_hdr_t :=
  mk_hdr filename 0 reclen keys [] ∅ 1
         (Some fresh_index :: replicate (length keys - 1) None).

(** src/memfh.c:53-99 memfh_close : the record buffers, the root page of each
    index, the key tables and the header are freed; the pages below a root are not. *)
Definition free_root (o : option ixst) : option ixst :=
  match o with
  | Some s => Some (mk_ix (brk s) (delete (root s) (pages s)) 0 (path s) (pos s) (depth s)
                          (num_writes s) (num_reads s))
  | None => None
  end.

Fixpoint free_records (l : list ptr) (rs : gmap ptr bytes) : gmap ptr bytes :=
  match l with [] => rs | p :: l' => free_records l' (delete p rs) end.

Definition memfh_close (h : memfh_hdr_t) : memfh_hdr_t :=
  mk_hdr [] (h_count h) (h_reclen h) [] [] (free_records (h_data h) (h_records h)) (h_brk h)
         (free_root <$> h_idx h).

(** src/memfh.c:101-116 memfh_list : the records it prints. *)
Definition memfh_list : M memfh_hdr_t (list bytes) :=
  l ← gets h_data;
  rs ← gets h_records;
  of_option (mapM (λ p, rs !! p) l).

(** The bytes of component [c] of a record; reading outside it is a fault. *)
Definition comp_bytes (record : bytes) (c : Z * Z) : option bytes :=
  let '(off, len) := c in
  if (0 <=? off) && (0 <=? len) && (off + len <=? Z.of_nat (length record))
  then Some (take (Z.to_nat len) (drop (Z.to_nat off) record)) else None.

(** src/memfh.c:138-144 memfh_write (the key of a record, in a 257-byte buffer) *)
Fixpoint build_key (comps : keydef) (record acc : bytes) : option bytes :=
  match comps with
  | [] => Some acc
  | c :: comps' =>
      b ← comp_bytes record c;
      if (length (acc ++ b) <=? 256)%nat then build_key comps' record (acc ++ b) else None
  end.

Definition make_key (k : nat) (record : bytes) : M memfh_hdr_t bytes :=
  ks ← gets h_keys;
  comps ← of_option (ks !! k);
  of_option (build_key comps record []).

Definition malloc_record (r : bytes) : M memfh_hdr_t ptr :=
  p ← gets h_brk;
  modify (λ h, mk_hdr (h_filename h) (h_count h) (h_reclen h) (h_keys h) (h_data h)
                      (<[p := r]> (h_records h)) (h_brk h + 1) (h_idx h));;
  mret p.

(** Link a new element: as [head] and [tail], or after [tail]. *)
Definition append_data (p : ptr) : M memfh_hdr_t unit :=
  modify (λ h, mk_hdr (h_filename h) (h_count h) (h_reclen h) (h_keys h)
                      (if h_count h =? 0 then [p] else h_data h ++ [p])
                      (h_records h) (h_brk h) (h_idx h)).

(** src/memfh.c:118-149 memfh_write *)
Definition memfh_write (record : bytes) : M memfh_hdr_t unit :=
  reclen ← gets h_reclen;
  guard_fault (reclen <=? length record)%nat;;
  data ← malloc_record (take reclen record);
  append_data data;;
  key ← make_key 0 record;
  on_idx 0 (set_keylen (length key));;
  on_idx 0 (memfh_idx_write key data);;
  modify (λ h, set_count (h_count h + 1) h).

Definition load_record (p : ptr) : M memfh_hdr_t bytes :=
  o ← gets (λ h, h_records h !! p); of_option o.

(** [memcpy(record, buf, reclen)]: the caller's area is overwritten from its start. *)
Definition copy_out (buf record : bytes) : M memfh_hdr_t bytes :=
  reclen ← gets h_reclen;
  guard_fault (reclen <=? length record)%nat;;
  mret (blit record 0 (take reclen buf)).

(** src/memfh.c:151-189 memfh_read : the new contents of the caller's record area
    and the result. *)
Definition memfh_read (record : bytes) (update : bool) : M memfh_hdr_t (bytes * bool) :=
  key ← make_key 0 record;
  ret ← on_idx 0 (memfh_idx_search key);
  if bool_decide (ret = 0) then
    it ← on_idx 0 current_item;
    buf ← load_record (snd it);
    if update then
      (if memeq buf record (length (fst it)) then
         reclen ← gets h_reclen;
         guard_fault (reclen <=? length record)%nat;;
         modify (set_record (snd it) (take reclen record));;
         mret (record, true)
       else stop Exit)
    else (r ← copy_out buf record; mret (r, true))
  else mret (record, false).

(** The key and record of the item under the cursor of the primary index. *)
Definition pk_record : M memfh_hdr_t (ptr * bytes) :=
  it ← on_idx 0 current_item;
  r ← load_record (snd it);
  mret (snd it, r).

Fixpoint create_loop (fuel k : nat) : M memfh_hdr_t unit :=
  match fuel with
  | O => stop NoFuel
  | S fuel' =>
      more ← on_idx 0 (d ← gets depth; idx ← get_path d; memfh_idx_next idx);
      if more : bool then
        pr ← pk_record;
        key ← make_key k (snd pr);
        on_idx k (memfh_idx_write key (fst pr));;
        create_loop fuel' k
      else mret tt
  end.

(** src/memfh_idx.c:102-168 memfh_idx_create *)
Definition memfh_idx_create (k : nat) : M memfh_hdr_t unit :=
  modify (set_idx k fresh_index);;
  more ← on_idx 0 memfh_idx_first;
  if more : bool then
    pr ← pk_record;
    key ← make_key k (snd pr);
    on_idx k (set_keylen (length key));;
    on_idx k (memfh_idx_write key (fst pr));;
    n ← gets (λ h, length (h_data h));
    create_loop n k
  else mret tt.

(** The first item of the page under the cursor. *)
Definition page_first_item : M ixst slot :=
  d ← gets depth;
  idx ← get_path d;
  pg ← load_page idx;
  s ← of_option (idx_buf pg !! 0%nat);
  mret (take (idx_keylen pg) (fst s), snd s).

(** src/memfh.c:191-225 memfh_start *)
Definition memfh_start (record : bytes) (k : nat) : M memfh_hdr_t (bytes * bool) :=
  o ← gets (λ h, h_idx h !! k);
  o ← of_option o;
  (if (0 <? k)%nat then (if o is None then memfh_idx_create k else mret tt) else mret tt);;
  key ← make_key k record;
  ret ← on_idx k (memfh_idx_search key);
  if ret <=? 0 then
    it ← on_idx k page_first_item;
    buf ← load_record (snd it);
    r ← copy_out buf record;
    mret (r, true)
  else mret (record, false).

(** src/memfh.c:227-247 memfh_next *)
Definition memfh_next (record : bytes) (k : nat) : M memfh_hdr_t (bytes * bool) :=
  ret ← on_idx k (d ← gets depth; idx ← get_path d; load_page idx;; memfh_idx_next idx);
  if ret : bool then
    it ← on_idx k current_item;
    buf ← load_record (snd it);
    r ← copy_out buf record;
    mret (r, true)
  else mret (record, false).
