(* ===== verification/MemfhFile.v ===== *)
(** In-memory files implement a map from keys to records (src/memfh.c): what write,
    read, rewrite, start and next do to a file given as its records in key order. *)

From stdpp Require Import prelude gmap strings sorting.
From S2P Require Import Prelude MemfhIdx MemfhTree MemfhPage MemfhInv MemfhWrite Memfh.
Local Open Scope Z_scope.

(** ** Keys of records *)

(** The length of the keys a definition builds. *)
Definition key_len (comps : keydef) : nat := sum_list_with (λ c, Z.to_nat (snd c)) comps.

Lemma comp_bytes_length r c b : comp_bytes r c = Some b → length b = Z.to_nat (snd c).
Proof.
  destruct c as [off len]. unfold comp_bytes.
  destruct (Z.leb_spec 0 off), (Z.leb_spec 0 len), (Z.leb_spec (off + len) (Z.of_nat (length r)));
    simpl; try done. intros [= <-]. rewrite length_take, length_drop. lia.
Qed.

Lemma build_key_length comps r acc k :
  build_key comps r acc = Some k → length k = (length acc + key_len comps)%nat.
Proof.
  revert acc. induction comps as [|c comps IH]; intros acc; simpl.
  { intros [= <-]. unfold key_len. simpl. lia. }
  destruct (comp_bytes r c) as [b|] eqn:E; [|done]. simpl.
  destruct (Nat.leb_spec (length (acc ++ b)) 256); [|done].
  intros H1%IH. rewrite H1, length_app, (comp_bytes_length _ _ _ E). unfold key_len. simpl. lia.
Qed.

Lemma build_key_le comps r acc k :
  (length acc ≤ 256)%nat → build_key comps r acc = Some k → (length k ≤ 256)%nat.
Proof.
  revert acc. induction comps as [|c comps IH]; intros acc Hacc; simpl; [by intros [= <-]|].
  destruct (comp_bytes r c) as [b|]; [|done]. simpl.
  destruct (Nat.leb_spec (length (acc ++ b)) 256); [|done]. by apply IH.
Qed.

Lemma comp_bytes_prefix r r' c b :
  (∃ t, r' = r ++ t) → comp_bytes r c = Some b → comp_bytes r' c = Some b.
Proof.
  intros [t ->]. destruct c as [off len]. unfold comp_bytes. rewrite length_app.
  destruct (Z.leb_spec 0 off), (Z.leb_spec 0 len), (Z.leb_spec (off + len) (Z.of_nat (length r)));
    simpl; try done. intros [= <-].
  destruct (Z.leb_spec (off + len) (Z.of_nat (length r + length t))); [|lia].
  f_equal. rewrite drop_app_le, take_app_le by (rewrite ?length_drop; lia). done.
Qed.

(** The caller's area may be longer than the record. *)
Lemma build_key_prefix comps r r' acc k :
  (∃ t, r' = r ++ t) → build_key comps r acc = Some k → build_key comps r' acc = Some k.
Proof.
  intros Hp. revert acc. induction comps as [|c comps IH]; intros acc; simpl; [done|].
  destruct (comp_bytes r c) as [b|] eqn:E; [|done]. simpl.
  rewrite (comp_bytes_prefix _ _ _ _ Hp E). simpl. destruct (_ <=? _)%nat; [|done]. apply IH.
Qed.

(** ** The file as a list of records in key order *)

Abbreviation file := (list (bytes * bytes)).

Definition key_of (comps : keydef) (r : bytes) : option bytes := build_key comps r [].

(** The page [memfh_open] allocated, its key length not set yet. *)
Definition fresh_like (s : ixst) : Prop :=
  brk s = 2 ∧ pages s = pages fresh_index ∧ root s = 1.

(** The index holds [its], or nothing was written yet. *)
Definition idx_state (kl : nat) (s : ixst) (its : list slot) : Prop :=
  is_index kl s its ∨ fresh_like s ∧ its = [].

(** An item points to the record with its key. *)
Definition refers (rs : gmap ptr bytes) (it : slot) (kr : bytes * bytes) : Prop :=
  fst it = fst kr ∧ rs !! snd it = Some (snd kr).

(** [its] are the items of index [k] for the records [f], in the order of its keys. *)
Record idx_ok (h : memfh_hdr_t) (k : nat) (comps : keydef) (s : ixst) (its : list slot) (f : file) : Prop := {
  io_comps : h_keys h !! k = Some comps;
  io_idx : h_idx h !! k = Some (Some s);
  io_refers : Forall2 (refers (h_records h)) its f;
  io_keys : Forall (λ kr, key_of comps (snd kr) = Some (fst kr) ∧ length (snd kr) = h_reclen h) f;
}.

Record mem_ok (h : memfh_hdr_t) (comps : keydef) (s : ixst) (its : list slot) (f : file) : Prop := {
  mo_idx : idx_ok h 0 comps s its f;
  mo_state : idx_state (key_len comps) s its;
  mo_nodup : NoDup (snd <$> its);
  mo_brk : ∀ p, h_brk h ≤ p → h_records h !! p = None;
  mo_count : h_count h = Z.of_nat (length f);
  mo_data : length (h_data h) = length f;
}.

(** [h] is a file of records [f], in the order of the primary key [comps]. *)
Definition mem_file (h : memfh_hdr_t) (comps : keydef) (f : file) : Prop :=
  ∃ s its, mem_ok h comps s its f.

Lemma on_idx_run {A} k (m : M ixst A) h s s' r :
  h_idx h !! k = Some (Some s) → m s = (s', r) → on_idx k m h = (set_idx k s' h, r).
Proof. intros Hk Hm. unfold on_idx. by rewrite Hk, Hm. Qed.

Lemma make_key_run k h comps r key :
  h_keys h !! k = Some comps → build_key comps r [] = Some key → make_key k r h = (h, inr key).
Proof.
  intros Hk Hb. unfold make_key. erewrite bind_ok by apply gets_run. rewrite Hk.
  erewrite bind_ok by done. by rewrite Hb.
Qed.

Lemma refers_keys rs its f : Forall2 (refers rs) its f → fst <$> its = fst <$> f.
Proof. induction 1 as [|it kr its f [E _] _ IH]; [done|]. by rewrite !fmap_cons, E, IH. Qed.

Lemma lower_ix_keys {A B} κ (its : list (bytes * A)) (f : list (bytes * B)) :
  fst <$> its = fst <$> f → lower_ix κ its = lower_ix κ f.
Proof.
  revert f. induction its as [|x its IH]; intros [|y f]; simpl; try done.
  intros [= E1 E2]. rewrite E1. by rewrite (IH f E2).
Qed.

Lemma capacity_pos kl : (kl ≤ 256)%nat → (644 ≤ capacity kl)%nat.
Proof. intros Hkl. pose proof (half_ge kl Hkl) as Hh. unfold capacity. nia. Qed.

Lemma fresh_index_0 s : fresh_like s → is_index 0 s [].
Proof.
  intros (Hb & Hp & Hr). apply (one_leaf_index 0 s (mk_page MEMFH_LEAF 0 0 0 [])); try done.
  - lia.
  - by rewrite Hp, Hr.
  - constructor.
  - pose proof (max_items_pos 0). simpl. lia.
  - lia.
Qed.

(** A search of the primary index. *)
Lemma mem_search kl s its key :
  idx_state kl s its → (kl ≤ 256)%nat → (length its < capacity kl)%nat → length key = kl →
  ∃ s' r, memfh_idx_search key s = (s', inr r) ∧ (r = 0 ↔ key ∈ fst <$> its) ∧
    idx_state kl s' its ∧
    (r = 0 → on_item kl s' its (lower_ix key its)).
Proof.
  intros [Hidx|[(Hb & Hp & Hr) ->]] Hkl Hcap Hlen.
  - destruct Hidx as [nb Hidx]. pose proof (capacity_nb _ _ _ _ Hidx Hcap) as Hnb.
    destruct (memfh_idx_search_correct_aux _ _ _ _ key Hidx Hnb) as (s' & r & Hrun & Hr & Hp & Hrt & Hc); [lia|].
    rewrite take_ge in Hr, Hc by lia. exists s', r. split; [done|]. split; [done|].
    destruct (bool_decide_reflect (r ≤ 0)) as [E|E].
    + split; [|intros _; by exists nb]. left. exists nb. by eapply on_item_index.
    + split; [|lia]. left. destruct Hc as (a & n & (T & C1 & l & C2 & order & π & Hi & He & Hs & _) & _).
      exists nb, T, (C1 ++ l :: C2), order. done.
  - assert (fresh_like s) as Hf by done.
    destruct (fresh_index_0 s Hf) as (nb & T & ch & order & Hinv & Hits & Hs).
    assert (nb ≤ 15)%nat as Hnb.
    { apply (capacity_nb 0 s [] nb); [by exists T, ch, order|].
      pose proof (capacity_pos 0). simpl. lia. }
    destruct (search_run _ _ _ _ _ _ key Hinv) as (π & l & P & Q & Hro & Hrun & _);
      [destruct Hs as [-> _]; lia|lia|].
    eexists _, _. split; [exact Hrun|].
    destruct (route_owns _ _ _ _ _ _ Hro) as [Hl _].
    assert (l_items l = []) as ->.
    { apply list_elem_of_split in Hl as (C1 & C2 & ->). rewrite entries_app in Hits.
      apply app_nil in Hits as [_ Hits]. unfold entries in Hits. simpl in Hits. by apply app_nil in Hits as [? _]. }
    split; [|split; [by right|done]]. split; [done|]. by intros ?%not_elem_of_nil.
Qed.

(** Setting the length of the keys before the first write. *)
Lemma set_keylen_run kl s its : (kl ≤ 256)%nat →
  idx_state kl s its → ∃ s', set_keylen kl s = (s', inr tt) ∧ is_index kl s' its.
Proof.
  intros Hkl [Hidx|[(Hb & Hp & Hr) ->]].
  - exists s. split; [|done]. destruct Hidx as (nb & T & ch & order & Hinv & _).
    assert (∃ pg, pages s !! root s = Some pg ∧ idx_keylen pg = kl) as (pg & Hpg & Hk).
    { destruct Hinv as [_ Hrep Htr _]. pose proof (t_root _ _ _ _ _ Htr) as Hroot.
      destruct order as [|r order].
      - destruct Hroot as (l & -> & ->).
        destruct (r_leaf _ _ _ _ _ Hrep l) as (pg & ? & Hlp & _); [set_solver|].
        exists pg. split; [done|]. apply Hlp.
      - subst r. destruct (order_branch Htr (root s)) as (ks & cs & Hrt); [set_solver|].
        destruct (r_branch _ _ _ _ _ Hrep _ _ _ Hrt) as (pg & ? & Hbp & _).
        exists pg. split; [done|]. apply Hbp. }
    unfold set_keylen. erewrite bind_ok by apply gets_run. erewrite bind_ok by by apply load_page_run.
    erewrite store_page_run by done. rewrite <-Hk.
    replace (mk_page _ _ _ _ _) with pg by by destruct pg.
    rewrite insert_id by done. by destruct s.
  - assert (pages s !! 1 = Some (mk_page MEMFH_LEAF 0 0 0 [])) as Hpg by (rewrite Hp; apply lookup_singleton_eq).
    exists (with_pages s (<[1 := mk_page MEMFH_LEAF kl 0 0 []]> (pages s))). split.
    + unfold set_keylen. erewrite bind_ok by apply gets_run. rewrite Hr.
      erewrite bind_ok by by apply load_page_run. by erewrite store_page_run.
    + apply (one_leaf_index kl _ (mk_page MEMFH_LEAF kl 0 0 [])); try done.
      * simpl. rewrite Hr, Hp. apply insert_singleton_eq.
      * constructor.
      * simpl. pose proof (max_items_pos kl Hkl). lia.
      * simpl. lia.
Qed.

(** ** Write *)

Lemma refers_weaken rs p r its f :
  rs !! p = None → Forall2 (refers rs) its f → Forall2 (refers (<[p := r]> rs)) its f.
Proof.
  intros Hp H. eapply Forall2_impl; [exact H|]. intros it kr [E Hr]. split; [done|].
  rewrite lookup_insert_ne; [done|]. intros ->. congruence.
Qed.

Lemma refers_item rs its f it :
  Forall2 (refers rs) its f → it ∈ its → ∃ kr, kr ∈ f ∧ refers rs it kr.
Proof.
  intros H [i Hi]%list_elem_of_lookup. destruct (Forall2_lookup_l _ _ _ _ _ H Hi) as (kr & Hk & Hr).
  exists kr. split; [by eapply list_elem_of_lookup_2|done].
Qed.

Lemma refers_rec rs its f kr :
  Forall2 (refers rs) its f → kr ∈ f → ∃ it, it ∈ its ∧ refers rs it kr.
Proof.
  intros H [i Hi]%list_elem_of_lookup. destruct (Forall2_lookup_r _ _ _ _ _ H Hi) as (it & Hk & Hr).
  exists it. split; [by eapply list_elem_of_lookup_2|done].
Qed.

Lemma refers_ins rs its f key p r :
  Forall2 (refers rs) its f → rs !! p = Some r →
  Forall2 (refers rs) (ins_item key p its) (ins_item key r f).
Proof.
  intros H Hp. unfold ins_item. rewrite (lower_ix_keys _ its f) by by eapply refers_keys.
  apply Forall2_app; [by apply Forall2_take|]. constructor; [done|by apply Forall2_drop].
Qed.

Lemma ins_item_elem {A} key (r : A) its x : x ∈ ins_item key r its ↔ x = (key, r) ∨ x ∈ its.
Proof. by rewrite (ins_item_perm key r its), elem_of_cons. Qed.

Lemma key_of_record comps r reclen key :
  (reclen ≤ length r)%nat → key_of comps (take reclen r) = Some key → key_of comps r = Some key.
Proof. intros Hl. apply build_key_prefix. exists (drop reclen r). by rewrite take_drop. Qed.

(** [memfh_write] of a record whose key is new adds it to the file at its
    place in key order, whatever was written before. *)
Lemma memfh_write_aux h comps f record key :
  mem_file h comps f → (h_reclen h ≤ length record)%nat →
  key_of comps (take (h_reclen h) record) = Some key → key ∉ fst <$> f →
  (length f < capacity (key_len comps))%nat →
  ∃ h', memfh_write record h = (h', inr tt) ∧
    mem_file h' comps (ins_item key (take (h_reclen h) record) f) ∧ h_reclen h' = h_reclen h.
Proof.
  intros (s & its & [[Hc Hi Href Hkeys] Hst Hnd Hbrk Hcnt Hdata]) Hlen Hkey Hnew Hcap.
  set (r := take (h_reclen h) record) in *. set (kl := key_len comps) in *.
  pose proof (build_key_length _ _ _ _ Hkey) as Hkl. simpl in Hkl. fold kl in Hkl.
  pose proof (build_key_le _ _ [] _ ltac:(simpl; lia) Hkey) as Hk256.
  pose proof (refers_keys _ _ _ Href) as Hfst. pose proof (Forall2_length _ _ _ Href) as Hits.
  destruct (set_keylen_run kl s its ltac:(lia) Hst) as (s1 & Hset & [nb Hidx1]).
  destruct (memfh_idx_write_aux kl s1 its nb key (h_brk h) Hidx1) as (s2 & Hw & Hidx2);
    [apply (capacity_nb _ _ _ _ Hidx1); lia|lia|by rewrite take_ge, Hfst by lia|].
  rewrite take_ge in Hidx2 by lia.
  set (h1 := mk_hdr (h_filename h) (h_count h) (h_reclen h) (h_keys h)
    (if h_count h =? 0 then [h_brk h] else h_data h ++ [h_brk h])
    (<[h_brk h := r]> (h_records h)) (h_brk h + 1) (h_idx h)).
  exists (set_count (h_count h + 1) (set_idx 0 s2 (set_idx 0 s1 h1))). split; [|split; [|done]].
  - unfold memfh_write. erewrite bind_ok by apply gets_run.
    rewrite (proj2 (Nat.leb_le _ _) Hlen). erewrite bind_ok by done.
    erewrite bind_ok by done. erewrite bind_ok by done.
    assert (make_key 0 record h1 = (h1, inr key)) as Hmk.
    { eapply make_key_run; [exact Hc|]. by eapply key_of_record. }
    rewrite (bind_ok _ _ _ _ _ Hmk), Hkl.
    assert (length (h_idx h) ≠ 0%nat) as Hil by (intros E; apply length_zero_iff_nil in E; by rewrite E in Hi).
    erewrite bind_ok by (by eapply on_idx_run).
    erewrite bind_ok by (eapply on_idx_run; [simpl; by rewrite list_lookup_insert_eq by lia|exact Hw]).
    done.
  - assert (h_records h !! h_brk h = None) as Hfr by (apply Hbrk; lia).
    assert (length (h_idx h) ≠ 0%nat) as Hil by (intros E; apply length_zero_iff_nil in E; by rewrite E in Hi).
    exists s2, (ins_item key (h_brk h) its). split; [split| | | | |]; simpl.
    + done.
    + rewrite list_insert_insert_eq, list_lookup_insert_eq by lia. done.
    + apply refers_ins; [by apply refers_weaken|apply lookup_insert_eq].
    + rewrite (ins_item_perm key r f), Forall_cons. split; [|done]. split; [done|].
      simpl. subst r. rewrite length_take. lia.
    + by left.
    + rewrite (ins_item_perm key (h_brk h) its). simpl. apply NoDup_cons. split; [|done].
      intros (it & E & Hin)%list_elem_of_fmap.
      destruct (refers_item _ _ _ _ Href Hin) as (kr & _ & _ & Hr). rewrite <-E in Hr. congruence.
    + intros p Hp. rewrite lookup_insert_ne by lia. apply Hbrk. lia.
    + rewrite (ins_item_perm key r f). simpl. lia.
    + rewrite (ins_item_perm key r f). simpl. destruct (Z.eqb_spec (h_count h) 0).
      * destruct f; [done|]. simpl in Hcnt. lia.
      * rewrite length_app. simpl. lia.
Qed.

(** A write of a key the file has stops the program. *)
Lemma memfh_write_exists h comps f record key :
  mem_file h comps f → (h_reclen h ≤ length record)%nat →
  key_of comps (take (h_reclen h) record) = Some key → key ∈ fst <$> f →
  (length f < capacity (key_len comps))%nat → ∃ h', memfh_write record h = (h', inl Exit).
Proof.
  intros (s & its & [[Hc Hi Href Hkeys] Hst Hnd Hbrk Hcnt Hdata]) Hlen Hkey Hin Hcap.
  set (kl := key_len comps) in *. pose proof (build_key_length _ _ _ _ Hkey) as Hkl. simpl in Hkl. fold kl in Hkl.
  pose proof (build_key_le _ _ [] _ ltac:(simpl; lia) Hkey) as Hk256.
  pose proof (refers_keys _ _ _ Href) as Hfst. pose proof (Forall2_length _ _ _ Href) as Hits.
  destruct (set_keylen_run kl s its ltac:(lia) Hst) as (s1 & Hset & [nb Hidx1]).
  destruct (write_duplicate kl s1 its nb key (h_brk h) Hidx1) as (s2 & Hw & _);
    [apply (capacity_nb _ _ _ _ Hidx1); lia|lia|by rewrite take_ge, Hfst by lia|].
  assert (length (h_idx h) ≠ 0%nat) as Hil by (intros E; apply length_zero_iff_nil in E; by rewrite E in Hi).
  unfold memfh_write. erewrite bind_ok by apply gets_run. rewrite (proj2 (Nat.leb_le _ _) Hlen). do 3 (erewrite bind_ok by done).
  erewrite bind_ok by (eapply make_key_run; [exact Hc|by eapply key_of_record]). rewrite Hkl.
  erewrite bind_ok by (by eapply on_idx_run). eexists. erewrite bind_err; [done|].
  eapply on_idx_run; [simpl; by rewrite list_lookup_insert_eq by lia|exact Hw].
Qed.

(** The cursor of index [k] is on record [i] of [f]. *)
Definition file_cursor (h : memfh_hdr_t) (k : nat) (comps : keydef) (f : file) (i : nat) : Prop :=
  ∃ s its, idx_ok h k comps s its f ∧ on_item (key_len comps) s its i.

Lemma idx_ok_set h k comps s s' its f : idx_ok h k comps s its f → idx_ok (set_idx k s' h) k comps s' its f.
Proof.
  intros [? Hi ? ?]. split; try done. simpl.
  assert (k < length (h_idx h))%nat by (by eapply lookup_lt_Some). by apply list_lookup_insert_eq.
Qed.

(** ** Read and rewrite *)

Fixpoint file_get (key : bytes) (f : file) : option bytes :=
  match f with
  | [] => None
  | (k, r) :: f' => if bool_decide (k = key) then Some r else file_get key f'
  end.

Definition file_put (key r : bytes) (f : file) : file :=
  (λ kr, if bool_decide (fst kr = key) then (key, r) else kr) <$> f.

Lemma file_get_none key f : file_get key f = None ↔ key ∉ fst <$> f.
Proof.
  induction f as [|[k r] f IH]; simpl; [split; [by intros _ ?%not_elem_of_nil|done]|].
  rewrite not_elem_of_cons. destruct (bool_decide_reflect (k = key)); naive_solver.
Qed.

Lemma file_get_some key f r : NoDup (fst <$> f) → file_get key f = Some r ↔ (key, r) ∈ f.
Proof.
  induction f as [|[k r'] f IH]; simpl; intros Hnd; [split; [done|by intros ?%not_elem_of_nil]|].
  apply NoDup_cons in Hnd as [Hn Hnd]. rewrite elem_of_cons.
  destruct (bool_decide_reflect (k = key)) as [->|Hne].
  - split; [intros [= ->]; by left|]. intros [[= <-]|Hin]; [done|].
    destruct Hn. by apply (list_elem_of_fmap_2 fst) in Hin.
  - rewrite IH by done. naive_solver.
Qed.

Lemma keys_sorted_nodup (its : list slot) : keys_sorted its → NoDup (fst <$> its).
Proof.
  unfold keys_sorted. induction (fst <$> its) as [|k l IH]; intros H; [constructor|].
  inversion H as [|? ? H1 H2]; subst. apply NoDup_cons. split; [|auto].
  intros Hin. rewrite Forall_forall in H2. by destruct (irreflexivity lex_lt k); apply H2.
Qed.

Lemma mem_ok_keys h comps s its f : mem_ok h comps s its f → NoDup (fst <$> f).
Proof.
  intros [[_ _ Href _] Hst _ _ _ _]. rewrite <-(refers_keys _ _ _ Href).
  destruct Hst as [[nb Hidx]|[_ ->]]; [|constructor].
  by eapply keys_sorted_nodup, is_index_sorted.
Qed.

(** The search of [memfh_read], and the record it finds. *)
Lemma mem_find h comps s its f record key :
  mem_ok h comps s its f → key_of comps record = Some key →
  (length f < capacity (key_len comps))%nat →
  ∃ s' ret, make_key 0 record h = (h, inr key) ∧
    on_idx 0 (memfh_idx_search key) h = (set_idx 0 s' h, inr ret) ∧
    mem_ok (set_idx 0 s' h) comps s' its f ∧
    match file_get key f with
    | None => ret ≠ 0
    | Some r => ret = 0 ∧ ∃ it, on_idx 0 current_item (set_idx 0 s' h) = (set_idx 0 s' h, inr it) ∧
        fst it = key ∧ h_records h !! snd it = Some r ∧ it ∈ its ∧ on_item (key_len comps) s' its (lower_ix key f)
    end.
Proof.
  intros Hok Hkey Hcap. pose proof (mem_ok_keys _ _ _ _ _ Hok) as Hnd.
  destruct Hok as [[Hc Hi Href Hkeys] Hst Hndp Hbrk Hcnt Hdata].
  pose proof (build_key_length _ _ _ _ Hkey) as Hkl. simpl in Hkl.
  pose proof (build_key_le _ _ [] _ ltac:(simpl; lia) Hkey) as Hk256.
  pose proof (refers_keys _ _ _ Href) as Hfst. pose proof (Forall2_length _ _ _ Href) as Hits.
  destruct (mem_search (key_len comps) s its key Hst) as (s' & ret & Hs & Hr & Hst' & Hon); [lia|lia|done|].
  assert (length (h_idx h) ≠ 0%nat) as Hil by (intros E; apply length_zero_iff_nil in E; by rewrite E in Hi).
  assert (h_idx (set_idx 0 s' h) !! 0%nat = Some (Some s')) as Hi'
    by (simpl; by rewrite list_lookup_insert_eq by lia).
  exists s', ret. split; [by eapply make_key_run|]. split; [by eapply on_idx_run|]. split.
  { by split. }
  destruct (file_get key f) as [r|] eqn:E.
  - apply file_get_some in E; [|done]. assert (ret = 0) as H0.
    { apply Hr. rewrite Hfst. by apply (list_elem_of_fmap_2 fst) in E. }
    split; [done|]. destruct (refers_rec _ _ _ _ Href E) as ([k p] & Hin & Ek & Hrec). simpl in *. subst k.
    exists (key, p). destruct (Hon H0) as [nb Hon']. split; [|split_and!; try done; rewrite <-(lower_ix_keys key its f) by done; by exists nb].
    pose proof (on_item_index _ _ _ _ _ Hon') as Hidx.
    pose proof (cursor_current _ _ _ _ key p Hon' (is_index_sorted _ _ _ _ Hidx) Hin) as Hcur.
    rewrite (on_idx_run 0 current_item (set_idx 0 s' h) s' s' (inr (key, p)) Hi' Hcur).
    f_equal. unfold set_idx. simpl. by rewrite list_insert_insert_eq.
  - apply file_get_none in E. rewrite <-Hfst in E. tauto.
Qed.

Lemma set_idx_same k s h : h_idx h !! k = Some (Some s) → set_idx k s h = h.
Proof. intros Hk. unfold set_idx. rewrite list_insert_id by done. by destruct h. Qed.

(** [memfh_read] answers whether the file has a record under the key of the
    caller's area, fills the area with that record, and leaves the file as it was. *)
Lemma memfh_read_aux h comps f record key :
  mem_file h comps f → (h_reclen h ≤ length record)%nat → key_of comps record = Some key →
  (length f < capacity (key_len comps))%nat →
  ∃ h', memfh_read record false h = (h', inr
      match file_get key f with Some r => (blit record 0 r, true) | None => (record, false) end) ∧
    mem_file h' comps f ∧ h_records h' = h_records h ∧ (is_Some (file_get key f) → file_cursor h' 0 comps f (lower_ix key f)).
Proof.
  intros (s & its & Hok) Hlen Hkey Hcap.
  destruct (mem_find _ _ _ _ _ _ _ Hok Hkey Hcap) as (s' & ret & Hmk & Hs & Hok' & Hfind).
  exists (set_idx 0 s' h). split; [|split; [by exists s', its|split; [done|]]].
  2:{ intros [r E]. rewrite E in Hfind. destruct Hfind as (_ & it & _ & _ & _ & _ & Hon). exists s', its. split; [apply Hok'|done]. }
  unfold memfh_read. rewrite (bind_ok _ _ _ _ _ Hmk), (bind_ok _ _ _ _ _ Hs).
  destruct (file_get key f) as [r|] eqn:E; [|by rewrite bool_decide_false].
  destruct Hfind as (-> & it & Hcur & Hk & Hrec & Hin & Hon). rewrite bool_decide_true by done.
  rewrite (bind_ok _ _ _ _ _ Hcur).
  erewrite bind_ok by (unfold load_record; erewrite bind_ok by apply gets_run; simpl; rewrite Hrec; done).
  assert (length r = h_reclen h) as Hr.
  { destruct Hok as [[_ _ _ Hkeys] _ _ _ _ _]. apply file_get_some in E; [|by eapply mem_ok_keys].
    rewrite Forall_forall in Hkeys. by apply (Hkeys _ E). }
  erewrite bind_ok.
  2: { unfold copy_out. erewrite bind_ok by apply gets_run. simpl.
       rewrite (proj2 (Nat.leb_le _ _) Hlen). erewrite bind_ok by done. done. }
  by rewrite take_ge by lia.
Qed.

Lemma file_put_get key r f :
  key ∈ fst <$> f → NoDup (fst <$> f) → file_get key (file_put key r f) = Some r.
Proof.
  induction f as [|[k r'] f IH]; simpl; intros Hin Hnd; [by apply not_elem_of_nil in Hin|].
  apply NoDup_cons in Hnd as [Hn Hnd]. unfold file_put in *. simpl.
  destruct (bool_decide_reflect (k = key)) as [->|Hne]; simpl.
  - by rewrite bool_decide_true.
  - rewrite bool_decide_false by done. apply IH; [|done]. set_solver.
Qed.

Lemma file_put_keys key r f : fst <$> file_put key r f = fst <$> f.
Proof.
  unfold file_put. rewrite <-list_fmap_compose. apply list_fmap_ext. intros i [k r'] _. simpl.
  by destruct (bool_decide_reflect (k = key)) as [->|].
Qed.

(** [memfh_read] with [update] replaces the record under the key of the area,
    when the bytes the program compares (the first ones of the record, as many as
    the key has) are unchanged; when they differ it stops the program, even if the
    key is elsewhere in the record. *)
Lemma memfh_update_aux h comps f record key :
  mem_file h comps f → (h_reclen h ≤ length record)%nat →
  key_of comps (take (h_reclen h) record) = Some key →
  (length f < capacity (key_len comps))%nat →
  ∃ h', match file_get key f with
    | None => memfh_read record true h = (h', inr (record, false)) ∧ mem_file h' comps f
    | Some old =>
        if memeq old record (length key) then
          memfh_read record true h = (h', inr (record, true)) ∧
          mem_file h' comps (file_put key (take (h_reclen h) record) f) ∧
          file_cursor h' 0 comps (file_put key (take (h_reclen h) record) f) (lower_ix key f)
        else memfh_read record true h = (h', inl Exit)
    end.
Proof.
  intros (s & its & Hok) Hlen Hkey Hcap. set (r := take (h_reclen h) record) in *.
  pose proof (key_of_record _ _ _ _ Hlen Hkey) as Hkey'.
  destruct (mem_find _ _ _ _ _ _ _ Hok Hkey' Hcap) as (s' & ret & Hmk & Hs & Hok' & Hfind).
  unfold memfh_read. rewrite (bind_ok _ _ _ _ _ Hmk), (bind_ok _ _ _ _ _ Hs).
  destruct (file_get key f) as [old|] eqn:E.
  2: { exists (set_idx 0 s' h). rewrite bool_decide_false by done. split; [done|]. by exists s', its. }
  destruct Hfind as (-> & it & Hcur & Hk & Hrec & Hin & Hon). rewrite bool_decide_true by done.
  rewrite (bind_ok _ _ _ _ _ Hcur).
  erewrite bind_ok by (unfold load_record; erewrite bind_ok by apply gets_run; simpl; rewrite Hrec; done).
  rewrite Hk. destruct (memeq old record (length key)); [|by eexists].
  erewrite bind_ok by apply gets_run. simpl. rewrite (proj2 (Nat.leb_le _ _) Hlen).
  erewrite bind_ok by done. eexists. split; [done|].
  assert (∀ h2, mem_ok h2 comps s' its (file_put key r f) → mem_file h2 comps (file_put key r f) ∧ file_cursor h2 0 comps (file_put key r f) (lower_ix key f)) as Hboth.
  { intros h2 Hok2. split; [by exists s', its|]. exists s', its. split; [apply Hok2|done]. }
  apply Hboth. clear Hboth.
  destruct Hok' as [[Hc Hi Href Hkeys] Hst Hnd Hbrk Hcnt Hdata]. split; [split| | | | |]; simpl; try done.
  - fold r. apply Forall2_fmap_r. apply Forall2_same_length_lookup. split; [by eapply Forall2_length|].
    intros i [k p] [k' r'] Hit Hkr. destruct (Forall2_lookup_lr _ _ _ _ _ _ Href Hit Hkr) as [Ek Hr].
    simpl in *. subst k'. destruct (decide (p = snd it)) as [->|Hne].
    + assert (k = key) as ->.
      { apply list_elem_of_lookup in Hin as [j Hj].
        assert (i = j) as ->.
        { eapply (NoDup_lookup (snd <$> its)); [exact Hnd| |]; rewrite list_lookup_fmap;
            [by rewrite Hit|by rewrite Hj]. }
        rewrite Hit in Hj. injection Hj as Hj. rewrite <-Hj in Hk. exact Hk. }
      rewrite bool_decide_true by done. split; [done|]. simpl. by rewrite lookup_insert_eq.
    + rewrite bool_decide_false.
      * split; [done|]. simpl. by rewrite lookup_insert_ne.
      * intros ->. apply Hne.
        pose proof (mem_ok_keys _ _ _ _ _ Hok) as Hndk. rewrite <-(refers_keys _ _ _ Href) in Hndk.
        apply list_elem_of_lookup in Hin as [j Hj].
        assert (i = j) as ->.
        { eapply (NoDup_lookup (fst <$> its)); [exact Hndk| |]; rewrite list_lookup_fmap;
            [by rewrite Hit|rewrite Hj; simpl; by rewrite Hk]. }
        rewrite Hit in Hj. by injection Hj as <-.
  - unfold file_put. rewrite Forall_fmap. eapply Forall_impl; [exact Hkeys|]. intros [k r'] [H1 H2]. simpl in *.
    destruct (bool_decide_reflect (k = key)) as [->|]; simpl; [|done]. split; [done|].
    subst r. rewrite length_take. lia.
  - intros p Hp. rewrite lookup_insert_ne; [by apply Hbrk|]. intros <-. rewrite Hbrk in Hrec by done. done.
  - unfold file_put. by rewrite length_fmap.
  - unfold file_put. by rewrite length_fmap.
Qed.

(** ** Sequential reading *)

Lemma idx_ok_length h k comps s its f : idx_ok h k comps s its f → length its = length f.
Proof. intros [_ _ H _]. by eapply Forall2_length. Qed.

(** The record of the item under the cursor. *)
Lemma copy_item h k comps s its f i m record :
  idx_ok h k comps s its f → (∀ x, its !! i = Some x → m s = (s, inr x)) →
  (h_reclen h ≤ length record)%nat →
  match f !! i with
  | Some (_, r) =>
      (it ← on_idx k m; buf ← load_record (snd it); r' ← copy_out buf record; mret (r', true)) h =
      (h, inr (blit record 0 r, true))
  | None => True
  end.
Proof.
  intros [Hc Hi Href Hkeys] Hm Hlen. destruct (f !! i) as [[key r]|] eqn:E; [|done].
  destruct (Forall2_lookup_r _ _ _ _ _ Href E) as ([key' p] & Hit & Ek & Hrec). simpl in *.
  rewrite (bind_ok _ _ _ _ _ (on_idx_run k m h s s _ Hi (Hm _ Hit))), set_idx_same by done. simpl.
  erewrite bind_ok by (unfold load_record; erewrite bind_ok by apply gets_run; rewrite Hrec; done).
  pose proof (Forall_lookup_1 _ _ _ _ Hkeys E) as [_ Hr]. simpl in Hr.
  erewrite bind_ok.
  2: { unfold copy_out. erewrite bind_ok by apply gets_run.
       rewrite (proj2 (Nat.leb_le _ _) Hlen). by erewrite bind_ok by done. }
  by rewrite take_ge by lia.
Qed.

(** Only the cursor of index [k] moves. *)
Definition cursor_moved (k : nat) (h h' : memfh_hdr_t) : Prop :=
  ∃ s s', h_idx h !! k = Some (Some s) ∧ h' = set_idx k s' h ∧ pages s' = pages s ∧ root s' = root s ∧ brk s' = brk s.

(** A file is its records and pages: a cursor does not matter. *)
Lemma mem_ok_moved h h' comps s its f : mem_ok h comps s its f → cursor_moved 0 h h' → mem_file h' comps f.
Proof.
  intros [Hio Hst Hnd Hbrk Hcnt Hdata] (s0 & s' & E & -> & Hp & Hr & Hb).
  assert (s0 = s) as -> by (pose proof (io_idx _ _ _ _ _ _ Hio); congruence).
  exists s', its. split; try done; [by eapply idx_ok_set|]. destruct Hst as [Hidx|[(F1 & F2 & F3) ->]].
  - left. by eapply is_index_pages.
  - right. split; [|done]. unfold fresh_like. by rewrite Hp, Hr, Hb.
Qed.

(** [memfh_next] fills the caller's area with the record that follows the
    cursor in the order of key [k], and answers false after the last one. *)
Lemma memfh_next_aux h k comps f i record :
  file_cursor h k comps f i → (length f < capacity (key_len comps))%nat →
  (h_reclen h ≤ length record)%nat →
  ∃ h', match f !! S i with
    | Some (_, r) => memfh_next record k h = (h', inr (blit record 0 r, true)) ∧ file_cursor h' k comps f (S i)
    | None => memfh_next record k h = (h', inr (record, false))
    end ∧ h_reclen h' = h_reclen h ∧ cursor_moved k h h'.
Proof.
  intros (s & its & Hio & nb & Hon) Hcap Hlen.
  pose proof (idx_ok_length _ _ _ _ _ _ Hio) as Hil.
  pose proof (on_item_index _ _ _ _ _ Hon) as Hidx.
  assert (nb ≤ 15)%nat as Hnb by (apply (capacity_nb _ _ _ _ Hidx); lia).
  destruct (on_item_path _ _ _ _ _ Hon) as [idx Hpath].
  destruct (memfh_idx_next_correct_aux _ _ _ _ _ _ Hon Hnb Hpath) as (s' & b & Hrun & Hp & Hrt & Hbk & Hb).
  assert (∃ pg, pages s !! idx = Some pg) as [pg Hpg].
  { destruct Hon as (a & n & (T & C1 & l & C2 & order & π & Hinv & _ & _ & _ & (_ & Hp' & _) & Hd & _) & _).
    rewrite Hd in Hpath. simpl in Hp'. simplify_eq.
    destruct (r_leaf _ _ _ _ _ (i_repr _ _ _ _ _ _ Hinv) l) as (pg & ? & _); [clear; set_solver|eauto]. }
  pose proof Hio as [Hc Hi Href Hkeys].
  exists (set_idx k s' h). split; [|by split; [|exists s, s']].
  assert (on_idx k (d ← gets depth; idx ← get_path d; load_page idx;; memfh_idx_next idx) h =
    (set_idx k s' h, inr b)) as Hstep.
  { eapply on_idx_run; [done|]. erewrite bind_ok by apply gets_run.
    erewrite bind_ok by (unfold get_path; erewrite bind_ok by apply gets_run; by rewrite Hpath).
    by erewrite bind_ok by by apply load_page_run. }
  unfold memfh_next. rewrite (bind_ok _ _ _ _ _ Hstep). destruct b.
  - destruct (on_item_current _ _ _ _ _ Hb) as (x & Hcx & Hx).
    pose proof (copy_item (set_idx k s' h) k comps s' its f (S i) current_item record
      (idx_ok_set _ _ _ _ _ _ _ Hio)) as Hcopy.
    apply lookup_lt_Some in Hx as Hlt.
    destruct (lookup_lt_is_Some_2 f (S i)) as [[key r] Hf]; [lia|]. rewrite Hf in *.
    split; [|exists s', its; split; [by eapply idx_ok_set|by exists nb]].
    apply Hcopy; [|done]. intros y Hy. by simplify_eq.
  - rewrite (lookup_ge_None_2 f) by lia. done.
Qed.

Lemma page_first_run kl s its nb i a n :
  cursor_in kl s its nb i a n → (0 < n)%nat →
  ∃ x, page_first_item s = (s, inr x) ∧ its !! (i - a)%nat = Some x.
Proof.
  intros (T & C1 & l & C2 & order & π & Hinv & Hits & _ & _ & (_ & Hp & Hq) & Hdep & Hlen & Hi) Hn.
  assert (l ∈ C1 ++ l :: C2) as Hl by (clear; set_solver).
  destruct (r_leaf _ _ _ _ _ (i_repr _ _ _ _ _ _ Hinv) l Hl) as (pg & Hpg & Hlp & _).
  destruct (lookup_lt_is_Some_2 (l_items l) 0) as [[k x] Hx]; [lia|].
  pose proof Hlp as [_ Hkl Hn' Eits]. simpl in Hp, Hq.
  exists (k, x). split.
  - unfold page_first_item. erewrite bind_ok by apply gets_run.
    erewrite bind_ok by (unfold get_path; erewrite bind_ok by apply gets_run; by rewrite Hdep, Hp).
    erewrite bind_ok by by apply load_page_run.
    erewrite bind_ok by (apply of_option_run; by eapply leaf_head).
    cbn [fst snd]. rewrite Hkl, take_ge; [done|].
    pose proof (t_leaves _ _ _ _ _ (i_tree _ _ _ _ _ _ Hinv)) as Hlv. rewrite Forall_forall in Hlv.
    pose proof (Forall_lookup_1 _ _ _ _ (lf_len _ _ (Hlv l Hl)) Hx) as Hk. simpl in Hk. lia.
  - rewrite <-Hits, entries_app, lookup_app_r by lia. subst i.
    replace (_ + a - a - _)%nat with 0%nat by lia.
    change (entries (l :: C2)) with (l_items l ++ entries C2). rewrite lookup_app_l by lia. done.
Qed.

(** [memfh_start] by a key the index has (or one below it in the same page)
    leaves the cursor on the first record not below the key, but fills the area with
    the first record of that record's page, [a] records before. *)
Lemma memfh_start_aux h k comps s its f record key :
  idx_ok h k comps s its f → is_index (key_len comps) s its → key_of comps record = Some key →
  (length f < capacity (key_len comps))%nat → (h_reclen h ≤ length record)%nat →
  let i := lower_ix key f in
  ∃ h' a b, (h_reclen h' = h_reclen h ∧ cursor_moved k h h') ∧
    (a ≤ i)%nat ∧ (key ∈ fst <$> f ∨ f ≠ [] ∧ i = 0%nat → b = true) ∧
    if b : bool then
      match f !! (i - a)%nat with
      | Some (_, r) => memfh_start record k h = (h', inr (blit record 0 r, true)) ∧ file_cursor h' k comps f i
      | None => False
      end
    else memfh_start record k h = (h', inr (record, false)).
Proof.
  intros Hio [nb Hidx] Hkey Hcap Hlen i. pose proof Hio as [Hc Hi Href Hkeys].
  pose proof (idx_ok_length _ _ _ _ _ _ Hio) as Hil. pose proof (refers_keys _ _ _ Href) as Hfst.
  assert (nb ≤ 15)%nat as Hnb by (apply (capacity_nb _ _ _ _ Hidx); lia).
  pose proof (build_key_length _ _ _ _ Hkey) as Hkl. simpl in Hkl.
  destruct (search_cursor _ _ _ _ key Hidx Hnb) as (s' & r & a & n & Hrun & Hr & Hp & Hrt & Hbk & Hcur & Ha & Han); [lia|].
  rewrite take_ge in Hr, Hcur by lia.
  assert (lower_ix key its = i) as Ei by by apply lower_ix_keys. rewrite Ei in Hcur.
  pose proof (idx_ok_set _ _ _ _ s' _ _ Hio) as Hio'.
  assert (a ≤ i)%nat as Hai.
  { destruct Hcur as (T & C1 & l & C2 & order & π & _ & _ & _ & _ & _ & _ & _ & Hi'). lia. }
  exists (set_idx k s' h), a, (bool_decide (r ≤ 0)). split; [by split; [|exists s, s']|]. split; [done|]. split.
  { rewrite <-Hfst. intros [Hin|[Hne Hi0]]; [by apply Hr in Hin as ->|].
    apply bool_decide_eq_true, Han.
    destruct Hcur as (T & C1 & l & C2 & order & π & Hinv & Hits & _ & _ & _ & _ & Hn & _).
    assert (l_items l ≠ []) as Hl.
    { eapply index_nonempty; [exact Hinv| |clear; set_solver].
      rewrite Hits. intros ->. destruct f; [done|]. by simpl in Hil. }
    destruct (l_items l); [done|]. simpl in Hn. lia. }
  assert (memfh_start record k h = (if r <=? 0 then
    it ← on_idx k page_first_item; buf ← load_record (snd it); r ← copy_out buf record; mret (r, true)
    else mret (record, false)) (set_idx k s' h)) as ->.
  { unfold memfh_start. erewrite bind_ok by apply gets_run. rewrite Hi. erewrite bind_ok by done.
    erewrite bind_ok by by destruct (0 <? k)%nat.
    rewrite (bind_ok _ _ _ _ _ (make_key_run _ _ _ _ _ Hc Hkey)).
    by rewrite (bind_ok _ _ _ _ _ (on_idx_run _ _ _ _ _ _ Hi Hrun)). }
  destruct (Z.leb_spec r 0) as [Hr0|Hr0]; [rewrite bool_decide_true by done|by rewrite bool_decide_false by lia].
  assert (a < n)%nat as Halt by by apply Han.
  destruct (page_first_run _ _ _ _ _ _ _ Hcur) as (x & Hx & Hxi); [lia|].
  apply lookup_lt_Some in Hxi as Hlt.
  destruct (lookup_lt_is_Some_2 f (i - a)) as [[key' r'] Hf]; [lia|]. 
  pose proof (copy_item _ _ _ _ _ _ (i - a) page_first_item record Hio') as Hcopy. rewrite Hf in *.
  split.
  - apply Hcopy; [|done]. intros y Hy. by simplify_eq.
  - exists s', its. split; [done|]. exists nb, a, n. done.
Qed.

(** On a file without records a start finds nothing. *)
Lemma memfh_start_empty h comps s its record key :
  mem_ok h comps s its [] → key_of comps record = Some key → (h_reclen h ≤ length record)%nat → (0 < capacity (key_len comps))%nat →
  ∃ h', memfh_start record 0 h = (h', inr (record, false)) ∧ cursor_moved 0 h h'.
Proof.
  intros Hok Hkey Hlen Hcap. pose proof (mo_idx _ _ _ _ _ Hok) as Hio. destruct (mo_state _ _ _ _ _ Hok) as [Hidx|[(Hb & Hp & Hr) ->]].
  - destruct (memfh_start_aux h 0 comps s its [] record key Hio Hidx Hkey Hcap Hlen) as (h' & a & b & [_ Hm] & _ & _ & H).
    exists h'. destruct b; [by rewrite lookup_nil in H|by split].
  - pose proof Hio as [Hc Hi _ _]. assert (∃ s', memfh_idx_search key s = (s', inr 1) ∧ pages s' = pages s ∧ root s' = root s ∧ brk s' = brk s) as (s' & Hs & Hs').
    { assert (pages s !! 1 = Some (mk_page MEMFH_LEAF 0 0 0 [])) as Hpg by (rewrite Hp; apply lookup_singleton_eq).
      unfold memfh_idx_search, max_fuel. erewrite bind_ok by apply gets_run. rewrite Hr. eexists. split.
      - do 3 (erewrite bind_ok by done). cbn [memfh_idx_search_page]. erewrite bind_ok by by apply load_page_run.
        erewrite bind_ok by apply gets_run. cbn [scan_loop idx_n]. erewrite bind_ok by done. reflexivity.
      - done. }
    exists (set_idx 0 s' h). split; [|by exists s, s'].
    unfold memfh_start. erewrite bind_ok by apply gets_run. rewrite Hi. erewrite bind_ok by done. erewrite bind_ok by done.
    rewrite (bind_ok _ _ _ _ _ (make_key_run _ _ _ _ _ Hc Hkey)). by rewrite (bind_ok _ _ _ _ _ (on_idx_run _ _ _ _ _ _ Hi Hs)).
Qed.

(** Reading to the end: the contents of the area after each call. *)
Fixpoint next_all (fuel k : nat) (record : bytes) : M memfh_hdr_t (list bytes) :=
  match fuel with
  | O => stop NoFuel
  | S fuel' =>
      r ← memfh_next record k;
      if (snd r : bool) then (rs ← next_all fuel' k (fst r); mret (fst r :: rs)) else mret []
  end.

Definition start_scan (fuel k : nat) (record : bytes) : M memfh_hdr_t (list bytes) :=
  r ← memfh_start record k;
  if (snd r : bool) then (rs ← next_all fuel k (fst r); mret (fst r :: rs)) else mret [].

Lemma blit_again record r r' :
  length r = length r' → (length r ≤ length record)%nat →
  blit (blit record 0 r) 0 r' = blit record 0 r'.
Proof.
  intros Hl Hle. unfold blit. simpl. f_equal. rewrite <-Hl.
  rewrite drop_app_ge, drop_drop by lia. f_equal. lia.
Qed.

Lemma next_all_run k comps f fuel : ∀ h i record,
  file_cursor h k comps f i → (length f < capacity (key_len comps))%nat →
  (h_reclen h ≤ length record)%nat → (length f ≤ fuel + i)%nat →
  ∃ h', next_all fuel k record h = (h', inr ((λ kr : bytes * bytes, blit record 0 (snd kr)) <$> drop (S i) f)).
Proof.
  induction fuel as [|fuel IH]; intros h i record Hcur Hcap Hlen Hfuel.
  { destruct Hcur as (s & its & Hio & nb & Hon). destruct (on_item_current _ _ _ _ _ Hon) as (x & _ & Hx).
    apply lookup_lt_Some in Hx. pose proof (idx_ok_length _ _ _ _ _ _ Hio). lia. }
  destruct (memfh_next_aux _ _ _ _ _ _ Hcur Hcap Hlen) as (h' & Hn & Hrl & _). simpl next_all.
  destruct (f !! S i) as [[key r]|] eqn:E.
  - destruct Hn as [Hrun Hcur']. rewrite (bind_ok _ _ _ _ _ Hrun). simpl.
    assert (∀ key r, (key, r) ∈ f → length r = h_reclen h) as Hrs.
    { destruct Hcur as (s & its & [_ _ _ Hkeys] & _). rewrite Forall_forall in Hkeys.
      intros key' r' Hin. by apply (Hkeys _ Hin). }
    pose proof (Hrs key r ltac:(by eapply list_elem_of_lookup_2)) as Hr.
    destruct (IH h' (S i) (blit record 0 r) Hcur' Hcap) as (h2 & Hall);
      [rewrite Hrl, blit_length; lia|lia|].
    exists h2. rewrite (bind_ok _ _ _ _ _ Hall). rewrite (drop_S _ _ _ E). simpl.
    unfold mret, M_ret. do 3 f_equal. apply list_fmap_ext. intros j [key' r'] Hj. simpl.
    apply blit_again; [|lia]. rewrite Hr. symmetry. apply (Hrs key').
    apply (list_elem_of_lookup_2 _ (S (S i) + j)). by rewrite <-lookup_drop.
  - exists h'. rewrite (bind_ok _ _ _ _ _ Hn). simpl. rewrite drop_ge; [done|].
    by apply lookup_ge_None_1.
Qed.

(** a start at a key not above the first one, followed by reads of the next
    record until the end, returns every record of the file once, in the order of the
    key, whatever splits the index went through. *)
Lemma start_scan_aux h k comps s its f record key fuel :
  idx_ok h k comps s its f → is_index (key_len comps) s its → key_of comps record = Some key →
  (length f < capacity (key_len comps))%nat → (h_reclen h ≤ length record)%nat →
  lower_ix key f = 0%nat → f ≠ [] → (length f ≤ fuel)%nat →
  ∃ h', start_scan fuel k record h = (h', inr ((λ kr : bytes * bytes, blit record 0 (snd kr)) <$> f)).
Proof.
  intros Hio Hidx Hkey Hcap Hlen Hlow Hne Hfuel.
  destruct (memfh_start_aux _ _ _ _ _ _ _ _ Hio Hidx Hkey Hcap Hlen) as (h' & a & b & [Hrl _] & Ha & Hb & Hrun).
  rewrite Hlow in *. rewrite (Hb (or_intror (conj Hne eq_refl))) in Hrun.
  assert (a = 0%nat) as -> by lia. simpl in Hrun.
  destruct f as [|[key0 r0] f]; [done|]. simpl in Hrun. destruct Hrun as [Hrun Hcur].
  unfold start_scan. rewrite (bind_ok _ _ _ _ _ Hrun). simpl.
  assert (∀ key r, (key, r) ∈ (key0, r0) :: f → length r = h_reclen h) as Hrs.
  { destruct Hio as [_ _ _ Hkeys]. rewrite Forall_forall in Hkeys.
    intros key' r' Hin. by apply (Hkeys _ Hin). }
  pose proof (Hrs key0 r0 ltac:(by left)) as Hr0.
  destruct (next_all_run k comps _ fuel h' 0 (blit record 0 r0) Hcur Hcap) as (h2 & Hall);
    [rewrite Hrl, blit_length; lia|lia|].
  exists h2. rewrite (bind_ok _ _ _ _ _ Hall). simpl. rewrite drop_0.
  unfold mret, M_ret. do 3 f_equal. apply list_fmap_ext. intros j [key' r'] Hj. simpl.
  apply blit_again; [|lia]. rewrite Hr0. symmetry. apply (Hrs key'). right.
  by eapply list_elem_of_lookup_2.
Qed.

(** ** An index created on demand *)

(** The records of [l] added one after the other, by their key [comps]. *)
Definition resort (comps : keydef) (l acc : file) : file :=
  fold_left (λ acc kr, match key_of comps (snd kr) with
                       | Some key => ins_item key (snd kr) acc
                       | None => acc
                       end) l acc.

Lemma resort_snoc comps l kr acc key :
  key_of comps (snd kr) = Some key →
  resort comps (l ++ [kr]) acc = ins_item key (snd kr) (resort comps l acc).
Proof. intros Hk. unfold resort. rewrite fold_left_app. simpl. by rewrite Hk. Qed.

Lemma set_idx_ne h k k' s : k ≠ k' → h_idx (set_idx k s h) !! k' = h_idx h !! k'.
Proof. intros. simpl. by rewrite list_lookup_insert_ne. Qed.

Lemma idx_ok_other h k k' comps s s' its f :
  k ≠ k' → idx_ok h k' comps s its f → idx_ok (set_idx k s' h) k' comps s its f.
Proof. intros Hne [? ? ? ?]. split; try done. by rewrite set_idx_ne. Qed.

(** The keys of the records of [l] under [comps]: defined and distinct. *)
Definition keys_of (comps : keydef) (l : file) (ks : list bytes) : Prop :=
  Forall2 (λ kr key, key_of comps (snd kr) = Some key) l ks.
Definition distinct_keys (comps : keydef) (l : file) : Prop := ∃ ks, keys_of comps l ks ∧ NoDup ks.

Lemma keys_of_take comps l ks n : keys_of comps l ks → NoDup (take n ks) → distinct_keys comps (take n l).
Proof. intros H Hn. exists (take n ks). split; [by apply Forall2_take|done]. Qed.

Lemma distinct_keys_app comps l1 kr l2 :
  distinct_keys comps (l1 ++ kr :: l2) →
  ∃ key, key_of comps (snd kr) = Some key ∧ distinct_keys comps (l1 ++ [kr]) ∧
    ∀ kr', kr' ∈ l1 → key_of comps (snd kr') ≠ Some key.
Proof.
  intros (ks & H & Hnd). apply Forall2_app_inv_l in H as (k1 & k2 & H1 & H2 & ->).
  inversion H2 as [|? key ? k2' Hk Hk2]; subst. exists key. split; [done|]. split.
  - exists (k1 ++ [key]). split; [apply Forall2_app; [done|by constructor]|].
    replace (k1 ++ key :: k2') with ((k1 ++ [key]) ++ k2') in Hnd by by rewrite <-app_assoc.
    by apply NoDup_app in Hnd as [? _].
  - intros kr' [i Hi]%list_elem_of_lookup Heq.
    destruct (Forall2_lookup_l _ _ _ _ _ H1 Hi) as (key' & Hk' & E). simpl in E.
    assert (key' = key) as -> by congruence.
    apply NoDup_app in Hnd as (_ & Hd & _). apply (Hd key); [by eapply list_elem_of_lookup_2|by left].
Qed.

(** The secondary index holds the records of [l]; the primary cursor is on record [i]. *)
Record creating (h : memfh_hdr_t) (k : nat) (comps0 comps : keydef) (s0 s : ixst)
    (its0 its : list slot) (f l : file) : Prop := {
  cr_pk : idx_ok h 0 comps0 s0 its0 f;
  cr_sk : idx_ok h k comps s its (resort comps l []);
  cr_index : is_index (key_len comps) s its;
  cr_mem : ∀ fk, fk ∈ fst <$> resort comps l [] → ∃ kr, kr ∈ l ∧ key_of comps (snd kr) = Some fk;
}.

Lemma resort_length comps l acc :
  (∀ kr, kr ∈ l → is_Some (key_of comps (snd kr))) → length (resort comps l acc) = (length l + length acc)%nat.
Proof.
  revert acc. induction l as [|kr l IH]; intros acc H; simpl; [done|].
  destruct (H kr ltac:(by left)) as [key Hk]. rewrite Hk, IH by (intros; apply H; by right).
  rewrite (ins_item_perm key (snd kr) acc). simpl. lia.
Qed.

(** Adding the record under the primary cursor to index [k]. *)
Lemma create_step h k comps0 comps s0 s its0 its f l kr i p key :
  k ≠ 0%nat → creating h k comps0 comps s0 s its0 its f l →
  f !! i = Some kr → its0 !! i = Some (fst kr, p) →
  distinct_keys comps (l ++ [kr]) → (length l < capacity (key_len comps))%nat →
  key_of comps (snd kr) = Some key → ∃ s1,
    on_idx k (memfh_idx_write key p) h = (set_idx k s1 h, inr tt) ∧
    creating (set_idx k s1 h) k comps0 comps s0 s1 its0 (ins_item key p its) f (l ++ [kr]).
Proof.
  intros Hk0 [Hpk Hsk [nb Hidx] Hmem] Hf Hit Hdis Hcap Hkey.
  pose proof Hsk as [Hc Hi Href Hkeys]. pose proof Hpk as [_ _ Href0 Hkeys0].
  pose proof (build_key_length _ _ _ _ Hkey) as Hkl. simpl in Hkl.
  destruct (distinct_keys_app _ _ _ _ Hdis) as (key' & Hkey' & _ & Hnew). assert (key' = key) as -> by congruence.
  assert (length its = length l) as Hits.
  { rewrite (idx_ok_length _ _ _ _ _ _ Hsk), resort_length; [simpl; lia|].
    intros kr' Hin. destruct Hdis as (ks & H & _). apply Forall2_app_inv_l in H as (k1 & k2 & H1 & _ & _).
    apply list_elem_of_lookup in Hin as [j Hj]. destruct (Forall2_lookup_l _ _ _ _ _ H1 Hj) as (y & _ & E).
    by eexists. }
  destruct (memfh_idx_write_aux (key_len comps) s its nb key p Hidx) as (s1 & Hw & Hidx1).
  - apply (capacity_nb _ _ _ _ Hidx). lia.
  - lia.
  - rewrite take_ge, (refers_keys _ _ _ Href) by lia. intros Hin.
    destruct (Hmem _ Hin) as (kr' & Hin' & E). by apply (Hnew kr').
  - rewrite take_ge in Hidx1 by lia. exists s1. split.
    + by eapply on_idx_run.
    + split.
      * by apply idx_ok_other.
      * pose proof (idx_ok_set _ _ _ _ s1 _ _ Hsk) as [? Hi1 _ _].
        rewrite (resort_snoc _ _ _ _ _ Hkey). split; [done|done| |].
        -- apply refers_ins; [done|]. destruct (Forall2_lookup_lr _ _ _ _ _ _ Href0 Hit Hf) as [_ Hr]. done.
        -- rewrite (ins_item_perm key (snd kr) (resort comps l [])), Forall_cons. split; [|done]. split; [done|].
           by apply (Forall_lookup_1 _ _ _ _ Hkeys0 Hf).
      * done.
      * intros fk. rewrite (resort_snoc _ _ _ _ _ Hkey), (ins_item_perm key (snd kr) (resort comps l [])).
        rewrite fmap_cons, elem_of_cons. intros [->|Hin].
        -- exists kr. split; [set_solver|done].
        -- destruct (Hmem _ Hin) as (kr' & ? & ?). exists kr'. split; [set_solver|done].
Qed.

(** Every key of the records is in the index. *)
Lemma resort_keys comps l acc kr key : kr ∈ l → key_of comps (snd kr) = Some key →
  (∀ kr, kr ∈ l → is_Some (key_of comps (snd kr))) → key ∈ fst <$> resort comps l acc.
Proof.
  assert (∀ l acc k, k ∈ fst <$> acc → (∀ kr, kr ∈ l → is_Some (key_of comps (snd kr))) → k ∈ fst <$> resort comps l acc) as Hacc.
  { clear. intros l. induction l as [|kr l IH]; intros acc k Hk Hl; [done|]. simpl. destruct (Hl kr ltac:(by left)) as [key ->].
    apply IH; [|intros; apply Hl; by right]. rewrite (ins_item_perm key (snd kr) acc), fmap_cons. by right. }
  revert acc. induction l as [|kr' l IH]; intros acc Hin Hk Hl; [by apply not_elem_of_nil in Hin|]. simpl. destruct (Hl kr' ltac:(by left)) as [key' E].
  rewrite E. apply elem_of_cons in Hin as [->|Hin].
  - assert (key' = key) as -> by congruence. apply Hacc; [|intros; apply Hl; by right]. rewrite (ins_item_perm key (snd kr') acc), fmap_cons. by left.
  - apply IH; [done|done|]. intros; apply Hl; by right.
Qed.

(** A second record with the same key stops the program. *)
Lemma create_dup h k comps0 comps s0 s its0 its f l ks kr p key :
  creating h k comps0 comps s0 s its0 its f l → keys_of comps l ks → (length l < capacity (key_len comps))%nat →
  key ∈ ks → key_of comps (snd (kr : bytes * bytes)) = Some key → ∃ h', on_idx k (memfh_idx_write key p) h = (h', inl Exit).
Proof.
  intros [_ Hsk [nb Hidx] _] Hks Hcap Hin Hkey. pose proof Hsk as [Hc Hi Href Hkeys].
  pose proof (build_key_length _ _ _ _ Hkey) as Hkl. simpl in Hkl.
  assert (∀ kr : bytes * bytes, kr ∈ l → is_Some (key_of comps (snd kr))) as Hall.
  { intros kr' [j Hj]%list_elem_of_lookup. destruct (Forall2_lookup_l _ _ _ _ _ Hks Hj) as (y & _ & E). by eexists. }
  assert (length its = length l) as Hits by (rewrite (idx_ok_length _ _ _ _ _ _ Hsk), resort_length; [simpl; lia|done]).
  apply list_elem_of_lookup in Hin as [j Hj]. destruct (Forall2_lookup_r _ _ _ _ _ Hks Hj) as (kr' & Hl & E). simpl in E.
  destruct (write_duplicate (key_len comps) s its nb key p Hidx) as (s1 & Hw & _).
  - apply (capacity_nb _ _ _ _ Hidx). lia.
  - lia.
  - rewrite take_ge, (refers_keys _ _ _ Href) by lia. by eapply resort_keys; [eapply list_elem_of_lookup_2| |].
  - eexists. by eapply on_idx_run.
Qed.

Lemma creating_pk h k comps0 comps s0 s0' s its0 its f l :
  k ≠ 0%nat → creating h k comps0 comps s0 s its0 its f l →
  creating (set_idx 0 s0' h) k comps0 comps s0' s its0 its f l.
Proof.
  intros Hk [? ? ? ?]. split; [by eapply idx_ok_set|by apply idx_ok_other|done|done].
Qed.

Lemma pk_record_run h comps0 s0 its0 f nb i :
  idx_ok h 0 comps0 s0 its0 f → on_item_nb (key_len comps0) s0 its0 nb i →
  ∃ kr p, pk_record h = (h, inr (p, snd kr)) ∧ f !! i = Some kr ∧ its0 !! i = Some (fst kr, p).
Proof.
  intros [Hc Hi Href Hkeys] Hon. destruct (on_item_current _ _ _ _ _ Hon) as ([k0 p] & Hcur & Hit).
  destruct (Forall2_lookup_l _ _ _ _ _ Href Hit) as (kr & Hf & Ek & Hrec). simpl in *. subst k0.
  exists kr, p. split; [|done]. unfold pk_record.
  rewrite (bind_ok _ _ _ _ _ (on_idx_run 0 current_item h s0 s0 _ Hi Hcur)), set_idx_same by done.
  cbn [fst snd].
  erewrite bind_ok by (unfold load_record; erewrite bind_ok by apply gets_run; rewrite Hrec; done).
  done.
Qed.

Lemma create_loop_run k comps0 comps its0 f ks fuel : k ≠ 0%nat →
  keys_of comps f ks → (length f < capacity (key_len comps0))%nat →
  (length f < capacity (key_len comps))%nat →
  ∀ h s0 s its nb i,
  creating h k comps0 comps s0 s its0 its f (take (S i) f) → NoDup (take (S i) ks) →
  on_item_nb (key_len comps0) s0 its0 nb i → (length f ≤ fuel + i)%nat →
  ∃ h', if decide (NoDup ks) then ∃ s0' s' its', create_loop fuel k h = (h', inr tt) ∧
      creating h' k comps0 comps s0' s' its0 its' f f ∧ h_reclen h' = h_reclen h
    else create_loop fuel k h = (h', inl Exit).
Proof.
  intros Hk Hks Hcap0 Hcap. induction fuel as [|fuel IH]; intros h s0 s its nb i Hcr Hnd Hon Hfuel.
  { destruct (on_item_current _ _ _ _ _ Hon) as (x & _ & Hx). apply lookup_lt_Some in Hx.
    pose proof (idx_ok_length _ _ _ _ _ _ (cr_pk _ _ _ _ _ _ _ _ _ _ Hcr)). lia. }
  pose proof (cr_pk _ _ _ _ _ _ _ _ _ _ Hcr) as Hpk. pose proof (idx_ok_length _ _ _ _ _ _ Hpk) as Hil.
  pose proof (on_item_index _ _ _ _ _ Hon) as Hidx0.
  assert (nb ≤ 15)%nat as Hnb by (apply (capacity_nb _ _ _ _ Hidx0); lia).
  destruct (on_item_path _ _ _ _ _ Hon) as [idx Hpath].
  destruct (memfh_idx_next_correct_aux _ _ _ _ _ _ Hon Hnb Hpath) as (s0' & b & Hrun & _ & _ & _ & Hb).
  simpl create_loop.
  assert (on_idx 0 (d ← gets depth; idx ← get_path d; memfh_idx_next idx) h =
    (set_idx 0 s0' h, inr b)) as Hstep.
  { eapply on_idx_run; [apply Hpk|]. erewrite bind_ok by apply gets_run.
    erewrite bind_ok by (unfold get_path; erewrite bind_ok by apply gets_run; by rewrite Hpath). done. }
  rewrite (bind_ok _ _ _ _ _ Hstep). pose proof (creating_pk _ _ _ _ _ s0' _ _ _ _ _ Hk Hcr) as Hcr'.
  destruct b.
  - destruct (pk_record_run _ _ _ _ _ _ _ (cr_pk _ _ _ _ _ _ _ _ _ _ Hcr') Hb) as (kr & p & Hpkr & Hf & Hit).
    rewrite (bind_ok _ _ _ _ _ Hpkr). cbn [fst snd].
    assert (take (S (S i)) f = take (S i) f ++ [kr]) as Etake by by apply take_S_r.
    destruct (Forall2_lookup_l _ _ _ _ _ Hks Hf) as (key & Hkk & Hkey). simpl in Hkey.
    assert (take (S (S i)) ks = take (S i) ks ++ [key]) as Ektake by by apply take_S_r.
    pose proof (make_key_run _ _ _ _ _ (io_comps _ _ _ _ _ _ (cr_sk _ _ _ _ _ _ _ _ _ _ Hcr')) Hkey) as Hmk.
    destruct (decide (key ∈ take (S i) ks)) as [Hdup|Hnew].
    { destruct (create_dup _ _ _ _ _ _ _ _ _ _ (take (S i) ks) kr p key Hcr') as [h' Hw]; [by apply Forall2_take| |done|done|].
      { rewrite length_take. lia. }
      exists h'. rewrite decide_False; [by rewrite (bind_ok _ _ _ _ _ Hmk), (bind_err _ _ _ _ _ Hw)|].
      intros Hall. rewrite <-(take_drop (S (S i)) ks), Ektake in Hall. apply NoDup_app in Hall as [Hall _].
      apply NoDup_app in Hall as (_ & Hall & _). apply (Hall key Hdup). by left. }
    assert (NoDup (take (S (S i)) ks)) as Hnd'.
    { rewrite Ektake. apply NoDup_app. split; [done|]. split; [|apply NoDup_singleton]. by intros x Hx ->%list_elem_of_singleton. }
    pose proof (keys_of_take _ _ _ _ Hks Hnd') as Hdis1. rewrite Etake in Hdis1.
    destruct (create_step _ _ _ _ _ _ _ _ _ _ kr (S i) p key Hk Hcr' Hf Hit Hdis1) as (s1 & Hw & Hcr1); [|done|].
    { rewrite length_take. lia. }
    rewrite (bind_ok _ _ _ _ _ Hmk), (bind_ok _ _ _ _ _ Hw). rewrite <-Etake in Hcr1.
    destruct (IH _ _ _ _ nb (S i) Hcr1 Hnd' Hb ltac:(lia)) as (h' & Hl). exists h'. by destruct (decide (NoDup ks)).
  - pose proof (Forall2_length _ _ _ Hks) as Hkl. rewrite take_ge in Hnd by lia. exists (set_idx 0 s0' h). rewrite decide_True by done.
    exists s0', s, its. split; [done|]. split; [|done]. rewrite take_ge in Hcr' by lia. done.
Qed.

(** The index that [memfh_idx_create] builds for another key on the first start
    by it holds every record of the file once, in the order of that key; two records with
    the same key stop the program. *)
Lemma memfh_idx_create_any h comps0 s0 its0 f k comps ks :
  mem_ok h comps0 s0 its0 f → k ≠ 0%nat → (k < length (h_idx h))%nat →
  h_keys h !! k = Some comps → f ≠ [] →
  keys_of comps f ks → (length f < capacity (key_len comps0))%nat →
  (length f < capacity (key_len comps))%nat →
  ∃ h', if decide (NoDup ks) then ∃ s its, memfh_idx_create k h = (h', inr tt) ∧
      idx_ok h' k comps s its (resort comps f []) ∧ is_index (key_len comps) s its ∧ h_reclen h' = h_reclen h
    else memfh_idx_create k h = (h', inl Exit).
Proof.
  intros [Hpk Hst Hnd Hbrk Hcnt Hdata] Hk Hkl Hc Hne Hks Hcap0 Hcap.
  pose proof (idx_ok_length _ _ _ _ _ _ Hpk) as Hil.
  destruct Hst as [[nb Hidx0]|[_ ->]]; [|by destruct f].
  assert (nb ≤ 15)%nat as Hnb by (apply (capacity_nb _ _ _ _ Hidx0); lia).
  destruct (memfh_idx_first_correct_aux _ _ _ _ Hidx0 Hnb) as (s1 & b & Hfirst & _ & _ & Hb).
  destruct b; [|destruct Hb as [-> _]; by destruct f].
  set (h1 := set_idx k fresh_index h). set (h2 := set_idx 0 s1 h1).
  assert (idx_ok h1 0 comps0 s0 its0 f) as Hpk1 by by apply idx_ok_other.
  assert (idx_ok h2 0 comps0 s1 its0 f) as Hpk2 by by eapply idx_ok_set.
  destruct (pk_record_run _ _ _ _ _ _ _ Hpk2 Hb) as (kr & p & Hpkr & Hf & Hit).
  destruct f as [|kr' f']; [done|]. simpl in Hf. injection Hf as ->.
  destruct ks as [|key ks']; [by inversion Hks|]. assert (key_of comps (snd kr) = Some key) as Hkey by by inversion Hks.
  assert (NoDup (take 1 (key :: ks'))) as Hnd1 by apply NoDup_singleton.
  pose proof (keys_of_take _ _ _ 1 Hks Hnd1) as Hdis1. cbn [take] in Hdis1.
  pose proof (build_key_length _ _ _ _ Hkey) as Hklen. simpl in Hklen.
  pose proof (build_key_le _ _ [] _ ltac:(simpl; lia) Hkey) as Hk256.
  destruct (set_keylen_run (key_len comps) fresh_index [] ltac:(lia)) as (s2 & Hset & Hidx2).
  { right. done. }
  assert (h_idx h2 !! k = Some (Some fresh_index)) as Hi2.
  { unfold h2. rewrite set_idx_ne by done. simpl. by rewrite list_lookup_insert_eq by lia. }
  set (h3 := set_idx k s2 h2).
  assert (creating h3 k comps0 comps s1 s2 its0 [] (kr :: f') []) as Hcr.
  { split.
    - apply idx_ok_other; [congruence|done].
    - split; [done| |constructor|constructor]. unfold h3. simpl. rewrite list_lookup_insert_eq; [done|].
      rewrite !length_insert. done.
    - done.
    - by intros fk ?%not_elem_of_nil. }
  destruct (create_step _ _ _ _ _ _ _ _ _ _ kr 0 p key Hk Hcr eq_refl Hit Hdis1) as (s3 & Hw & Hcr1);
    [simpl; pose proof (capacity_pos (key_len comps)); lia|done|].
  destruct (create_loop_run k comps0 comps its0 (kr :: f') (key :: ks') (length (h_data h)) Hk Hks Hcap0 Hcap
    _ _ _ _ nb 0 Hcr1 Hnd1 Hb) as (h' & Hl); [simpl in *; lia|]. exists h'.
  assert (memfh_idx_create k h = create_loop (length (h_data h)) k (set_idx k s3 h3)) as ->.
  2:{ destruct (decide _); [|exact Hl]. destruct Hl as (s0' & s' & its' & Hl & Hcr2 & Hrl). exists s', its'.
      split; [exact Hl|split; [apply Hcr2|split; [apply Hcr2|by rewrite Hrl]]]. }
  unfold memfh_idx_create. erewrite bind_ok by apply modify_run. fold h1.
  rewrite (bind_ok _ _ _ _ _ (on_idx_run 0 memfh_idx_first h1 s0 s1 (inr true) (io_idx _ _ _ _ _ _ Hpk1) Hfirst)).
  fold h2. rewrite (bind_ok _ _ _ _ _ Hpkr). cbn [fst snd].
  assert (h_keys h2 !! k = Some comps) as Hc2 by done.
  rewrite (bind_ok _ _ _ _ _ (make_key_run _ _ _ _ _ Hc2 Hkey)), Hklen.
  rewrite (bind_ok _ _ _ _ _ (on_idx_run k (set_keylen (key_len comps)) h2 _ _ _ Hi2 Hset)). fold h3.
  rewrite (bind_ok _ _ _ _ _ Hw). by erewrite bind_ok by apply gets_run.
Qed.

Lemma memfh_idx_create_aux h comps0 s0 its0 f k comps :
  mem_ok h comps0 s0 its0 f → k ≠ 0%nat → (k < length (h_idx h))%nat →
  h_keys h !! k = Some comps → f ≠ [] →
  distinct_keys comps f → (length f < capacity (key_len comps0))%nat →
  (length f < capacity (key_len comps))%nat →
  ∃ h' s its, memfh_idx_create k h = (h', inr tt) ∧
    idx_ok h' k comps s its (resort comps f []) ∧ is_index (key_len comps) s its ∧
    h_reclen h' = h_reclen h.
Proof.
  intros Hok Hk Hkl Hc Hne (ks & Hks & Hnd) Hcap0 Hcap.
  destruct (memfh_idx_create_any _ _ _ _ _ _ _ _ Hok Hk Hkl Hc Hne Hks Hcap0 Hcap) as [h' H].
  rewrite decide_True in H by done. by exists h'.
Qed.

(** ** The properties *)

(** A start by a key without index builds the index first. *)
Lemma memfh_start_create record k h h' s :
  k ≠ 0%nat → h_idx h !! k = Some None → memfh_idx_create k h = (h', inr tt) →
  h_idx h' !! k = Some (Some s) → memfh_start record k h = memfh_start record k h'.
Proof.
  intros Hk Hn Hcr Hs.
  assert ((0 <? k)%nat = true) as Hk0 by (apply Nat.ltb_lt; lia).
  unfold memfh_start.
  etrans; [apply bind_ok, gets_run|]. etrans; [apply bind_ok; by rewrite Hn|].
  etrans; [apply bind_ok; rewrite Hk0; exact Hcr|]. symmetry.
  etrans; [apply bind_ok, gets_run|]. etrans; [apply bind_ok; by rewrite Hs|].
  etrans; [apply bind_ok; rewrite Hk0; done|]. done.
Qed.

Lemma memfh_open_file filename reclen comps rest :
  mem_file (memfh_open filename reclen (comps :: rest)) comps [].
Proof.
  exists fresh_index, []. split; [|by right|constructor|done|done|done].
  split; [done|done|constructor|constructor].
Qed.

(** [memfh_write] of a record whose key is new adds it to the file at its
    place in key order, whatever was written before; it returns. *)
Theorem memfh_write_correct h comps f record key :
  mem_file h comps f → (h_reclen h ≤ length record)%nat →
  key_of comps (take (h_reclen h) record) = Some key → key ∉ fst <$> f →
  (length f < capacity (key_len comps))%nat →
  ∃ h', memfh_write record h = (h', inr tt) ∧
    mem_file h' comps (ins_item key (take (h_reclen h) record) f) ∧ h_reclen h' = h_reclen h.
Proof. apply memfh_write_aux. Qed.

(** [memfh_read] answers whether the file has a record under the key of the
    caller's area, fills the area with that record, and leaves the file as it was. *)
Theorem memfh_read_correct h comps f record key :
  mem_file h comps f → (h_reclen h ≤ length record)%nat → key_of comps record = Some key →
  (length f < capacity (key_len comps))%nat →
  ∃ h', memfh_read record false h = (h', inr
      match file_get key f with Some r => (blit record 0 r, true) | None => (record, false) end) ∧
    mem_file h' comps f ∧ h_records h' = h_records h.
Proof.
  intros Hf Hlen Hkey Hcap. destruct (memfh_read_aux _ _ _ _ _ Hf Hlen Hkey Hcap) as (h' & E & H1 & H2 & _). by exists h'.
Qed.

(** [memfh_read] with [update] replaces the record under the key of the area,
    and a later lookup gives the new one, when the bytes the program compares (the
    first ones of the record, as many as the key has) are unchanged; when they
    differ it stops the program, even if the key is elsewhere in the record. *)
Theorem memfh_update_correct h comps f record key :
  mem_file h comps f → (h_reclen h ≤ length record)%nat →
  key_of comps (take (h_reclen h) record) = Some key →
  (length f < capacity (key_len comps))%nat →
  ∃ h', match file_get key f with
    | None => memfh_read record true h = (h', inr (record, false)) ∧ mem_file h' comps f
    | Some old =>
        if memeq old record (length key) then
          memfh_read record true h = (h', inr (record, true)) ∧
          mem_file h' comps (file_put key (take (h_reclen h) record) f) ∧
          file_get key (file_put key (take (h_reclen h) record) f) = Some (take (h_reclen h) record)
        else memfh_read record true h = (h', inl Exit)
    end.
Proof.
  intros Hf Hlen Hkey Hcap. destruct (memfh_update_aux _ _ _ _ _ Hf Hlen Hkey Hcap) as [h' Hu].
  exists h'. destruct (file_get key f) as [old|] eqn:E; [|done].
  destruct (memeq old record (length key)); [|done]. destruct Hu as (? & ? & _). split; [done|]. split; [done|].
  destruct Hf as (s & its & Hok). apply file_put_get; [|by eapply mem_ok_keys].
  apply file_get_some in E; [|by eapply mem_ok_keys]. by apply (list_elem_of_fmap_2 fst) in E.
Qed.


(** [memfh_start] by a key the file has leaves the cursor on its record, but
    fills the area with the first record of the index page, [a] records before. *)
Theorem memfh_start_correct h k comps s its f record key :
  idx_ok h k comps s its f → is_index (key_len comps) s its → key_of comps record = Some key →
  (length f < capacity (key_len comps))%nat → (h_reclen h ≤ length record)%nat →
  key ∈ fst <$> f →
  ∃ h' a r, (a ≤ lower_ix key f)%nat ∧ snd <$> f !! (lower_ix key f - a)%nat = Some r ∧
    memfh_start record k h = (h', inr (blit record 0 r, true)) ∧
    file_cursor h' k comps f (lower_ix key f).
Proof.
  intros Hio Hidx Hkey Hcap Hlen Hin.
  destruct (memfh_start_aux _ _ _ _ _ _ _ _ Hio Hidx Hkey Hcap Hlen) as (h' & a & b & _ & Ha & Hb & Hrun).
  rewrite (Hb (or_introl Hin)) in Hrun. destruct (f !! _) as [[k' r]|] eqn:E; [|done].
  exists h', a, r. simpl. rewrite E. split_and!; [done|done|apply Hrun|apply Hrun].
Qed.

(** ** Concrete instances *)

(** A file of 4-byte records: primary key the first two bytes, another key the
    last two and the first two. *)
Definition ex_keys : list keydef := [[(0, 2)]; [(2, 2); (0, 2)]].
Definition ex_open : memfh_hdr_t := memfh_open (bs "totitem") 4 ex_keys.
Definition ex_comps : keydef := [(0, 2)].

Lemma memfh_write_correct_witness :
  ∃ h', memfh_write (bs "k2aa") ex_open = (h', inr tt) ∧
    mem_file h' ex_comps [(bs "k2", bs "k2aa")] ∧ h_reclen h' = 4%nat.
Proof.
  apply (memfh_write_correct ex_open ex_comps [] (bs "k2aa") (bs "k2")).
  - apply memfh_open_file.
  - simpl. lia.
  - done.
  - apply not_elem_of_nil.
  - apply Nat.ltb_lt. by vm_compute.
Defined.

Lemma ex_capacity n : (n < 644)%nat → (n < capacity (key_len ex_comps))%nat.
Proof. pose proof (capacity_pos (key_len ex_comps)) as H. unfold ex_comps, key_len in *. simpl in *. lia. Qed.

Lemma ex_two : ∃ h, memfh_write (bs "k2aa") ex_open = (fst (memfh_write (bs "k2aa") ex_open), inr tt) ∧
  memfh_write (bs "k1bb") (fst (memfh_write (bs "k2aa") ex_open)) = (h, inr tt) ∧
  mem_file h ex_comps [(bs "k1", bs "k1bb"); (bs "k2", bs "k2aa")] ∧ h_reclen h = 4%nat.
Proof.
  destruct (memfh_write_aux ex_open ex_comps [] (bs "k2aa") (bs "k2")) as (h1 & E1 & H1 & R1);
    [apply memfh_open_file|simpl; lia|done|apply not_elem_of_nil|apply ex_capacity; simpl; lia|].
  rewrite E1. destruct (memfh_write_aux h1 ex_comps _ (bs "k1bb") (bs "k1") H1) as (h2 & E2 & H2 & R2).
  - rewrite R1. simpl. lia.
  - by rewrite R1.
  - simpl. set_solver.
  - apply ex_capacity. simpl. lia.
  - exists h2. simpl. split_and!; [done|done| |by rewrite R2]. by rewrite R1 in H2.
Qed.

Lemma memfh_read_correct_witness :
  ∃ h, mem_file h ex_comps [(bs "k1", bs "k1bb"); (bs "k2", bs "k2aa")] ∧
  ∃ h', memfh_read (bs "k2..") false h = (h', inr (bs "k2aa", true)).
Proof.
  destruct ex_two as (h & _ & _ & Hf & Hr). exists h. split; [exact Hf|].
  destruct (memfh_read_correct h ex_comps _ (bs "k2..") (bs "k2") Hf) as (h' & Hrun & _).
  - rewrite Hr. simpl. lia.
  - done.
  - apply ex_capacity. simpl. lia.
  - exists h'. exact Hrun.
Defined.

Lemma memfh_update_correct_witness :
  ∃ h, mem_file h ex_comps [(bs "k1", bs "k1bb"); (bs "k2", bs "k2aa")] ∧
  ∃ h', memfh_read (bs "k2zz") true h = (h', inr (bs "k2zz", true)) ∧
    mem_file h' ex_comps [(bs "k1", bs "k1bb"); (bs "k2", bs "k2zz")].
Proof.
  destruct ex_two as (h & _ & _ & Hf & Hr). exists h. split; [exact Hf|].
  destruct (memfh_update_correct h ex_comps _ (bs "k2zz") (bs "k2") Hf) as (h' & Hrun).
  - rewrite Hr. simpl. lia.
  - by rewrite Hr.
  - apply ex_capacity. simpl. lia.
  - exists h'. rewrite Hr in Hrun. destruct Hrun as (? & ? & _). by split.
Defined.

Lemma ex_two_ok : ∃ h s its, mem_ok h ex_comps s its [(bs "k1", bs "k1bb"); (bs "k2", bs "k2aa")] ∧
  h_reclen h = 4%nat ∧ h_keys h = ex_keys ∧ h_idx h !! 1%nat = Some None.
Proof.
  destruct ex_two as (h & E1 & E2 & (s & its & Hok) & Hr). exists h, s, its.
  split; [done|]. split; [done|].
  assert (h = fst (memfh_write (bs "k1bb") (fst (memfh_write (bs "k2aa") ex_open)))) as -> by by rewrite E2.
  clear. split; by vm_compute.
Qed.

Lemma memfh_start_correct_witness :
  ∃ h s its, idx_ok h 0 ex_comps s its [(bs "k1", bs "k1bb"); (bs "k2", bs "k2aa")] ∧
  ∃ h' a r, (a ≤ 1)%nat ∧
    snd <$> [(bs "k1", bs "k1bb"); (bs "k2", bs "k2aa")] !! (1 - a)%nat = Some r ∧
    memfh_start (bs "k2..") 0 h = (h', inr (r, true)).
Proof.
  destruct ex_two_ok as (h & s & its & Hok & Hr & _ & _). exists h, s, its.
  pose proof (mo_idx _ _ _ _ _ Hok) as Hio. split; [exact Hio|].
  destruct (memfh_start_correct h 0 ex_comps s its _ (bs "k2..") (bs "k2") Hio)
    as (h' & a & r & Ha & Hl & Hrun & _).
  - destruct (mo_state _ _ _ _ _ Hok) as [?|[_ ->]]; [done|].
    by pose proof (Forall2_length _ _ _ (io_refers _ _ _ _ _ _ Hio)).
  - done.
  - apply ex_capacity. simpl. lia.
  - rewrite Hr. simpl. lia.
  - simpl. set_solver.
  - exists h', a, r. simpl in Ha, Hl. split; [exact Ha|]. split; [exact Hl|].
    rewrite Hrun. destruct a as [|[|a]]; [| |lia]; simpl in Hl; by injection Hl as <-.
Defined.

