(* ===== verification/MemfhCbl.v ===== *)
(** The COBOL interface of the in-memory files (src/memfh_cbl.c): the table of open
    headers and the dispatcher of the operations of modes [M] and [F]. *)

From stdpp Require Import prelude gmap strings sorting.
From S2P Require Import Prelude Fhtypes Fcd MemfhIdx MemfhInv MemfhWrite Memfh MemfhFile.
Local Open Scope Z_scope.

Definition MAX_HDRS : nat := 128.

(** src/memfh_cbl.c:7-13 hdrs : the globals of the file, with the headers that were
    allocated; a header is named by its address, 0 is the null pointer. *)
Record cbl_state := mk_cbl {
  hdrs : list Z;
  nhdrs : Z;
  start : bool;
  objs : gmap Z memfh_hdr_t;
  next_hdr : Z;
}.

Definition cbl_init : cbl_state := mk_cbl (replicate MAX_HDRS 0) 0 false ∅ 4096.

Definition set_start (b : bool) (st : cbl_state) : cbl_state :=
  mk_cbl (hdrs st) (nhdrs st) b (objs st) (next_hdr st).
Definition set_obj (p : Z) (h : memfh_hdr_t) (st : cbl_state) : cbl_state :=
  mk_cbl (hdrs st) (nhdrs st) (start st) (<[p := h]> (objs st)) (next_hdr st).
Definition set_table (l : list Z) (n : Z) (st : cbl_state) : cbl_state :=
  mk_cbl l n (start st) (objs st) (next_hdr st).

(** Run a memfh.c operation on the header at [p]. *)
Definition on_hdr {A} (p : Z) (m : M memfh_hdr_t A) : M cbl_state A := λ st,
  match objs st !! p with
  | Some h => let '(h', r) := m h in (set_obj p h' st, r)
  | None => (st, inl Fault)
  end.

(** [for (i...) if ((hdrs[i] != 0) && !strcmp(hdrs[i]->filename, filename))] *)
Fixpoint find_name (l : list Z) (os : gmap Z memfh_hdr_t) (filename : bytes) : option (option Z) :=
  match l with
  | [] => Some None
  | p :: l' =>
      if p =? 0 then find_name l' os filename
      else h ← os !! p;
           if bool_decide (cstr (h_filename h) = cstr filename) then Some (Some p)
           else find_name l' os filename
  end.

Definition opened (fcd : fcd_t) (om p : Z) : fcd_t :=
  set_file_id (putint p) (set_open_mode om (set_status ST_OK fcd)).

(** src/memfh_cbl.c:17-31 memfh_cbl_open_input *)
Definition memfh_cbl_open_input (fcd : fcd_t) (filename : bytes) : M cbl_state fcd_t :=
  st ← gets id;
  r ← of_option (find_name (hdrs st) (objs st) filename);
  match r with
  | Some p => mret (opened fcd 0 p)
  | None => mret (set_status ST_FILE_NOT_FOUND fcd)
  end.

(** The components of a key in the key definition block. *)
Fixpoint read_comps (kdb : bytes) (cdaoffset : Z) (c n : nat) : option keydef :=
  match n with
  | O => Some []
  | S n' =>
      let cda := cdaoffset + Z.of_nat c * 10 in
      offset ← int_at kdb (cda + 2);
      len ← int_at kdb (cda + 6);
      rest ← read_comps kdb cdaoffset (S c) n';
      Some ((s32 offset, s32 len) :: rest)
  end.

(** The [k]-th key definition area, its components not yet extended. *)
Definition read_key (kdb : bytes) (k : nat) : option keydef :=
  let kda := 14 + Z.of_nat k * 16 in
  ncomps ← short_at kdb kda;
  cdaoffset ← short_at kdb (kda + 2);
  if 0 <=? s16 ncomps then read_comps kdb (s16 cdaoffset) 0 (Z.to_nat (s16 ncomps)) else None.

(** The keys from the [k]-th on: a secondary key gets the first component of the
    primary key ([keys[0][1]], [keys[0][2]]) after its own. *)
Fixpoint read_keys (kdb : bytes) (pk : keydef) (k n : nat) : option (list keydef) :=
  match n with
  | O => Some []
  | S n' =>
      comps ← read_key kdb k;
      c0 ← head pk;
      rest ← read_keys kdb pk (S k) n';
      Some ((comps ++ [c0]) :: rest)
  end.

(** src/memfh_cbl.c:60-92 memfh_cbl_open_output (the keys it builds) *)
Definition cbl_keys (kdb : bytes) : option (list keydef) :=
  nkeys ← short_at kdb 6;
  if 0 <? s16 nkeys then
    pk ← read_key kdb 0;
    rest ← read_keys kdb pk 1 (Z.to_nat (s16 nkeys) - 1);
    Some (pk :: rest)
  else None.

(** [hdr = memfh_open(...)]: a header at a fresh address. *)
Definition alloc_hdr (h : memfh_hdr_t) : M cbl_state Z :=
  st ← gets id;
  let p := next_hdr st in
  modify (λ st, mk_cbl (hdrs st) (nhdrs st) (start st) (<[p := h]> (objs st)) (p + 1));;
  mret p.

(** The header takes the first free entry of the table, if any. *)
Fixpoint first_free (l : list Z) : option nat :=
  match l with
  | [] => None
  | p :: l' => if p =? 0 then Some 0%nat else S <$> first_free l'
  end.

Definition enter_hdr (p : Z) (st : cbl_state) : cbl_state :=
  let l := if nhdrs st =? 0 then replicate MAX_HDRS 0 else hdrs st in
  match first_free l with
  | Some i => set_table (<[i := p]> l) (nhdrs st + 1) st
  | None => set_table l (nhdrs st) st
  end.

(** src/memfh_cbl.c:49-113 memfh_cbl_open_output *)
Definition memfh_cbl_open_output (fcd : fcd_t) (filename : bytes) : M cbl_state fcd_t :=
  reclen ← of_option (short_at (rec_len fcd) 0);
  keys ← of_option (cbl_keys (kdb fcd));
  guard_fault (0 <=? s16 reclen);;
  p ← alloc_hdr (memfh_open filename (Z.to_nat (s16 reclen)) keys);
  modify (enter_hdr p);;
  mret (opened fcd 2 p).

(** src/memfh_cbl.c:33-47 memfh_cbl_open_io *)
Definition memfh_cbl_open_io (fcd : fcd_t) (filename : bytes) : M cbl_state fcd_t :=
  st ← gets id;
  r ← of_option (find_name (hdrs st) (objs st) filename);
  match r with
  | Some p => mret (opened fcd 1 p)
  | None => memfh_cbl_open_output fcd filename
  end.

(** Position of a header in the table. *)
Fixpoint find_hdr (l : list Z) (p : Z) : option nat :=
  match l with
  | [] => None
  | q :: l' => if q =? p then Some 0%nat else S <$> find_hdr l' p
  end.

(** src/memfh_cbl.c:115-142 memfh_cbl_write *)
Definition memfh_cbl_write (fcd : fcd_t) : M cbl_state fcd_t :=
  if open_mode fcd =? 128 then mret (set_status ST_NOT_OPENED_WRITE fcd)
  else
    let p := getint (file_id fcd) in
    st ← gets id;
    match find_hdr (hdrs st) p with
    | Some _ => on_hdr p (memfh_write (record fcd));; mret (set_status ST_OK fcd)
    | None => mret (set_status ST_NOT_OPENED_WRITE fcd)
    end.

(** [memfh_close(hdr); hdrs[i] = 0; nhdrs--;] *)
Definition drop_hdr (i : nat) (p : Z) (st : cbl_state) : cbl_state :=
  mk_cbl (<[i := 0]> (hdrs st)) (nhdrs st - 1) (start st) (delete p (objs st)) (next_hdr st).

(** src/memfh_cbl.c:144-180 memfh_cbl_close : [free] in mode F only. *)
Definition memfh_cbl_close (fcd : fcd_t) (free : bool) : M cbl_state fcd_t :=
  if open_mode fcd =? 128 then mret (set_status ST_ALREADY_CLOSED fcd)
  else
    let p := getint (file_id fcd) in
    if negb free then mret (set_open_mode 128 (set_status ST_OK fcd))
    else
      st ← gets id;
      match find_hdr (hdrs st) p with
      | Some i =>
          (if p =? 0 then mret tt else on_hdr p (modify memfh_close));;
          modify (drop_hdr i p);;
          mret (set_open_mode 128 (set_status ST_OK fcd))
      | None => mret (set_status ST_ALREADY_CLOSED fcd)
      end.

(** src/memfh_cbl.c:182-204 memfh_cbl_rewrite *)
Definition memfh_cbl_rewrite (fcd : fcd_t) : M cbl_state fcd_t :=
  if open_mode fcd =? 128 then mret (set_status ST_NOT_OPENED_WRITE fcd)
  else
    r ← on_hdr (getint (file_id fcd)) (memfh_read (record fcd) true);
    mret (set_status (if snd r : bool then ST_OK else ST_REC_NOT_FOUND) (set_rec (fst r) fcd)).

(** src/memfh_cbl.c:206-228 memfh_cbl_read *)
Definition memfh_cbl_read (fcd : fcd_t) : M cbl_state fcd_t :=
  if open_mode fcd =? 128 then mret (set_status ST_NOT_OPENED_READ fcd)
  else
    r ← on_hdr (getint (file_id fcd)) (memfh_read (record fcd) false);
    mret (set_status (if snd r : bool then ST_OK else ST_REC_NOT_FOUND) (set_rec (fst r) fcd)).

(** [keyid] is a [short] that indexes arrays; a negative one is out of range. *)
Definition key_index (fcd : fcd_t) : option nat :=
  keyid ← short_at (key_id fcd) 0;
  if 0 <=? s16 keyid then Some (Z.to_nat (s16 keyid)) else None.

(** src/memfh_cbl.c:230-255 memfh_cbl_start *)
Definition memfh_cbl_start (fcd : fcd_t) : M cbl_state fcd_t :=
  if open_mode fcd =? 128 then mret (set_status ST_NOT_OPENED_READ fcd)
  else
    keyid ← of_option (key_index fcd);
    r ← on_hdr (getint (file_id fcd)) (memfh_start (record fcd) keyid);
    if snd r : bool then
      modify (set_start true);; mret (set_status ST_OK (set_rec (fst r) fcd))
    else mret (set_status ST_EOF (set_rec (fst r) fcd)).

(** src/memfh_cbl.c:257-286 memfh_cbl_next : the read after a start only reports
    that the record is there. *)
Definition memfh_cbl_next (fcd : fcd_t) : M cbl_state fcd_t :=
  if open_mode fcd =? 128 then mret (set_status ST_NOT_OPENED_READ fcd)
  else
    s ← gets start;
    if s : bool then modify (set_start false);; mret (set_status ST_OK fcd)
    else
      keyid ← of_option (key_index fcd);
      r ← on_hdr (getint (file_id fcd)) (memfh_next (record fcd) keyid);
      mret (set_status (if snd r : bool then ST_OK else ST_EOF) (set_rec (fst r) fcd)).

(** src/memfh_cbl.c:288-338 memfh_cbl *)
Definition memfh_cbl (md op : Z) (fcd : fcd_t) (filename : bytes) : M cbl_state fcd_t :=
  if op =? OP_OPEN_INPUT then memfh_cbl_open_input fcd filename
  else if op =? OP_OPEN_IO then memfh_cbl_open_io fcd filename
  else if op =? OP_OPEN_OUTPUT then memfh_cbl_open_output fcd filename
  else if op =? OP_WRITE then memfh_cbl_write fcd
  else if op =? OP_REWRITE then memfh_cbl_rewrite fcd
  else if op =? OP_READ_RANDOM then memfh_cbl_read fcd
  else if op =? OP_START_GE then memfh_cbl_start fcd
  else if op =? OP_READ_NEXT then memfh_cbl_next fcd
  else if op =? OP_CLOSE then memfh_cbl_close fcd (md =? ch "F")
  else mret fcd.

(** ** The table of headers *)

Definition used (l : list Z) : list Z := filter (λ p, p ≠ 0) l.

(** Every entry in use is a distinct live header, and [nhdrs] counts them. *)
Record cbl_ok (st : cbl_state) : Prop := {
  co_len : length (hdrs st) = MAX_HDRS;
  co_count : nhdrs st = Z.of_nat (length (used (hdrs st)));
  co_nodup : NoDup (used (hdrs st));
  co_live : ∀ p, p ∈ used (hdrs st) → is_Some (objs st !! p);
  co_next : 0 < next_hdr st;
  co_fresh : ∀ p, p ∈ dom (objs st) → 0 < p < next_hdr st;
}.

Lemma cbl_init_ok : cbl_ok cbl_init.
Proof. split; [by vm_compute|by vm_compute|by vm_compute; constructor| | |]; simpl; [by vm_compute; intros ? ?%elem_of_nil|done|set_solver]. Qed.

Lemma used_zero l : used l = [] → l = replicate (length l) 0.
Proof.
  induction l as [|p l IH]; [done|]. unfold used. rewrite filter_cons.
  destruct (decide (p ≠ 0)); [done|]. intros H. simpl. rewrite <-(IH H). f_equal. lia.
Qed.

Lemma first_free_spec l i :
  first_free l = Some i → ∃ l1 l2, l = l1 ++ 0 :: l2 ∧ length l1 = i.
Proof.
  revert i. induction l as [|p l IH]; intros i; simpl; [done|].
  destruct (Z.eqb_spec p 0) as [->|].
  - intros [= <-]. by exists [], l.
  - destruct (first_free l) as [j|] eqn:E; simpl; [|done]. intros [= <-].
    destruct (IH j eq_refl) as (l1 & l2 & -> & <-). by exists (p :: l1), l2.
Qed.

Lemma find_hdr_spec l p i :
  find_hdr l p = Some i → ∃ l1 l2, l = l1 ++ p :: l2 ∧ length l1 = i.
Proof.
  revert i. induction l as [|q l IH]; intros i; simpl; [done|].
  destruct (Z.eqb_spec q p) as [->|].
  - intros [= <-]. by exists [], l.
  - destruct (find_hdr l p) as [j|] eqn:E; simpl; [|done]. intros [= <-].
    destruct (IH j eq_refl) as (l1 & l2 & -> & <-). by exists (q :: l1), l2.
Qed.

Lemma find_hdr_elem l p : p ∈ l ↔ is_Some (find_hdr l p).
Proof.
  induction l as [|q l IH]; simpl.
  - split; [intros []%not_elem_of_nil|by intros [? ?]].
  - rewrite elem_of_cons, IH. unfold is_Some.
    destruct (Z.eqb_spec q p), (find_hdr l p); simpl; naive_solver.
Qed.

Lemma used_app l1 l2 : used (l1 ++ l2) = used l1 ++ used l2.
Proof. apply filter_app. Qed.

Lemma used_cons p l : used (p :: l) = if decide (p = 0) then used l else p :: used l.
Proof. unfold used. rewrite filter_cons. destruct (decide (p = 0)), (decide (p ≠ 0)); done. Qed.

Lemma on_hdr_ok {A} p (m : M memfh_hdr_t A) st st' r :
  on_hdr p m st = (st', r) → cbl_ok st →
  cbl_ok st' ∧ hdrs st' = hdrs st ∧ nhdrs st' = nhdrs st ∧ next_hdr st' = next_hdr st.
Proof.
  unfold on_hdr. intros H Hok. destruct (objs st !! p) as [h|] eqn:E; [|by injection H as <- <-].
  destruct (m h) as [h' r']. injection H as <- <-. destruct Hok. split; [|done]. split; try done.
  - intros q Hq. simpl. rewrite lookup_insert_is_Some'. by right; auto.
  - simpl. intros q. rewrite dom_insert, elem_of_union, elem_of_singleton. intros [->|?]; [|auto].
    apply co_fresh0. by apply elem_of_dom_2 in E.
Qed.

Lemma set_start_ok b st : cbl_ok st → cbl_ok (set_start b st).
Proof. by intros []. Qed.

Lemma enter_hdr_ok h st :
  cbl_ok st →
  cbl_ok (enter_hdr (next_hdr st)
    (mk_cbl (hdrs st) (nhdrs st) (start st) (<[next_hdr st := h]> (objs st)) (next_hdr st + 1))).
Proof.
  intros [Hlen Hcnt Hnd Hlive Hnext Hfresh]. set (p := next_hdr st).
  assert (p ∉ dom (objs st)) as Hp by (intros H%Hfresh; unfold p in *; lia).
  assert (∀ q, q ∈ dom (<[p := h]> (objs st)) → 0 < q < p + 1) as Hf'.
  { intros q. rewrite dom_insert, elem_of_union, elem_of_singleton. intros [->|?%Hfresh]; unfold p in *; lia. }
  unfold enter_hdr. cbn [nhdrs hdrs].
  replace (if nhdrs st =? 0 then replicate MAX_HDRS 0 else hdrs st) with (hdrs st).
  2:{ destruct (Z.eqb_spec (nhdrs st) 0) as [E|]; [|done].
      rewrite <-Hlen. apply used_zero, length_zero_iff_nil. lia. }
  destruct (first_free (hdrs st)) as [i|] eqn:E.
  - apply first_free_spec in E as (l1 & l2 & El & <-). rewrite El in *. rewrite used_app, used_cons in *.
    rewrite insert_app_r_alt by lia. rewrite Nat.sub_diag. simpl in *.
    assert (∀ q, q ∈ used l1 ++ used l2 → q ≠ p) as Hne.
    { intros q Hq ->. by apply Hp, elem_of_dom, Hlive. }
    split; simpl; rewrite ?used_app, ?used_cons; destruct (decide (p = 0)); try (unfold p in *; lia).
    + by rewrite length_app in *.
    + rewrite Hcnt, !length_app. simpl. lia.
    + rewrite <-Permutation_middle. constructor; [|done]. intros Hin. by apply (Hne p).
    + intros q. rewrite <-Permutation_middle, elem_of_cons, lookup_insert_is_Some'. naive_solver.
    + done.
  - split; simpl; try done; [|lia]. intros q Hq. rewrite lookup_insert_is_Some'. auto.
Qed.

Lemma drop_hdr_ok i p st :
  cbl_ok st → p ≠ 0 → find_hdr (hdrs st) p = Some i → cbl_ok (drop_hdr i p st).
Proof.
  intros [Hlen Hcnt Hnd Hlive Hnext Hfresh] Hp (l1 & l2 & El & <-)%find_hdr_spec.
  unfold drop_hdr. rewrite El in *. rewrite used_app, used_cons in *. destruct (decide (p = 0)) as [|_]; [done|].
  split; simpl; rewrite ?insert_app_r_alt, ?Nat.sub_diag by lia; simpl; rewrite ?used_app, ?used_cons; simpl.
  - by rewrite length_app in *.
  - rewrite Hcnt, !length_app. simpl. lia.
  - rewrite <-Permutation_middle in Hnd. by apply NoDup_cons in Hnd as [_ ?].
  - intros q Hq. rewrite lookup_delete_is_Some. split.
    + intros ->. rewrite <-Permutation_middle in Hnd. by apply NoDup_cons in Hnd as [? _].
    + apply Hlive. rewrite <-Permutation_middle. by right.
  - done.
  - intros q. rewrite dom_delete. set_solver.
Qed.

(** ** Files open in the table *)

(** The header at [p] holds the records [f], in the order of the primary key. *)
Definition file_at (st : cbl_state) (p : Z) (comps : keydef) (f : file) : Prop :=
  ∃ h, objs st !! p = Some h ∧ mem_file h comps f.

(** The length of the records of the file at [p]. *)
Definition reclen_at (st : cbl_state) (p : Z) (n : nat) : Prop :=
  ∃ h, objs st !! p = Some h ∧ h_reclen h = n.

Lemma on_hdr_run {A} p (m : M memfh_hdr_t A) st h h' r :
  objs st !! p = Some h → m h = (h', r) → on_hdr p m st = (set_obj p h' st, r).
Proof. intros Hp Hm. unfold on_hdr. by rewrite Hp, Hm. Qed.

Lemma set_obj_self p h st : objs (set_obj p h st) !! p = Some h.
Proof. simpl. apply lookup_insert_eq. Qed.

Lemma set_obj_twice p h h' st : set_obj p h' (set_obj p h st) = set_obj p h' st.
Proof. unfold set_obj. simpl. f_equal. apply insert_insert_eq. Qed.

Lemma find_name_app l1 l2 os name :
  (∀ p, p ∈ used l1 → ∃ h, os !! p = Some h ∧ cstr (h_filename h) ≠ cstr name) →
  find_name (l1 ++ l2) os name = find_name l2 os name.
Proof.
  induction l1 as [|p l1 IH]; intros Hl; [done|]. rewrite used_cons in Hl. simpl.
  destruct (Z.eqb_spec p 0) as [->|Hp]; [by apply IH|]. destruct (decide (p = 0)); [done|].
  destruct (Hl p) as (h & -> & Hne); [by left|]. simpl. rewrite bool_decide_false by done.
  apply IH. intros q Hq. apply Hl. by right.
Qed.

Definition name_free (st : cbl_state) (name : bytes) : Prop :=
  ∀ p, p ∈ used (hdrs st) → ∃ h, objs st !! p = Some h ∧ cstr (h_filename h) ≠ cstr name.

Lemma find_name_free st name : name_free st name → find_name (hdrs st) (objs st) name = Some None.
Proof. intros H. rewrite <-(app_nil_r (hdrs st)). by rewrite find_name_app. Qed.

Lemma first_free_some l : (length (used l) < length l)%nat → is_Some (first_free l).
Proof.
  induction l as [|p l IH]; simpl; [lia|]. rewrite used_cons.
  destruct (Z.eqb_spec p 0), (decide (p = 0)); try done. simpl. intros H.
  destruct IH as [i Hi]; [lia|]. rewrite Hi. by eexists.
Qed.

(** The state after [memfh_cbl_open_output] of a new name. *)
Lemma enter_find st name h :
  cbl_ok st → name_free st name → (length (used (hdrs st)) < MAX_HDRS)%nat →
  cstr (h_filename h) = cstr name →
  let p := next_hdr st in
  let st' := enter_hdr p (mk_cbl (hdrs st) (nhdrs st) (start st) (<[p := h]> (objs st)) (p + 1)) in
  objs st' = <[p := h]> (objs st) ∧ p ∈ hdrs st' ∧ find_name (hdrs st') (objs st') name = Some (Some p).
Proof.
  intros [Hlen Hcnt Hnd Hlive Hnext Hfresh] Hfree Hroom Hname p. unfold enter_hdr. cbn [nhdrs hdrs].
  replace (if nhdrs st =? 0 then replicate MAX_HDRS 0 else hdrs st) with (hdrs st).
  2:{ destruct (Z.eqb_spec (nhdrs st) 0) as [E|]; [|done].
      rewrite <-Hlen. apply used_zero, length_zero_iff_nil. lia. }
  rewrite <-Hlen in Hroom. destruct (first_free_some _ Hroom) as [i E]. rewrite E.
  apply first_free_spec in E as (l1 & l2 & El & <-).
  rewrite El, insert_app_r_alt, Nat.sub_diag by lia. cbn [hdrs objs set_table list_insert].
  split; [done|]. split; [apply elem_of_app; right; by left|].
  rewrite find_name_app.
  - simpl. assert (p ≠ 0) by (unfold p; lia). destruct (Z.eqb_spec p 0); [done|].
    rewrite lookup_insert_eq. simpl. by rewrite bool_decide_true.
  - intros q Hq. assert (q ∈ used (hdrs st)) as Hq' by (rewrite El, used_app, elem_of_app; by left).
    destruct (Hfree q Hq') as (hq & Hl & Hne). exists hq. split; [|done].
    rewrite lookup_insert_ne; [done|]. intros <-.
    apply elem_of_dom_2, Hfresh in Hl. unfold p in *. lia.
Qed.

Lemma getint_opened fcd om p : 0 <= p < 2 ^ 32 → getint (file_id (opened fcd om p)) = p.
Proof. intros. simpl. rewrite <-(app_nil_r (putint p)). by apply getint_putint. Qed.

Lemma memfh_cbl_open_output_run fcd name st n keys :
  short_at (rec_len fcd) 0 = Some n → 0 <= s16 n → cbl_keys (kdb fcd) = Some keys →
  memfh_cbl_open_output fcd name st =
    (enter_hdr (next_hdr st) (mk_cbl (hdrs st) (nhdrs st) (start st)
       (<[next_hdr st := memfh_open name (Z.to_nat (s16 n)) keys]> (objs st)) (next_hdr st + 1)),
     inr (opened fcd 2 (next_hdr st))).
Proof.
  intros Hn Hpos Hk. unfold memfh_cbl_open_output. rewrite Hn, Hk.
  erewrite bind_ok by done. erewrite bind_ok by done.
  rewrite (proj2 (Z.leb_le 0 (s16 n)) Hpos). erewrite bind_ok by done. done.
Qed.

Lemma open_output_ok fcd name st st' r :
  memfh_cbl_open_output fcd name st = (st', r) → cbl_ok st → cbl_ok st'.
Proof.
  unfold memfh_cbl_open_output. intros H Hok. revert H.
  destruct (short_at (rec_len fcd) 0) as [n|]; [|by intros [= <- <-]].
  destruct (cbl_keys (kdb fcd)) as [keys|]; [|by intros [= <- <-]].
  unfold mbind, M_bind, of_option, mret, M_ret, guard_fault.
  destruct (0 <=? s16 n); intros [= <- <-]; [by apply enter_hdr_ok|done].
Qed.

Lemma on_hdr_bind_ok {A} p (m : M memfh_hdr_t A) (f : A → M cbl_state fcd_t) st st' r :
  (on_hdr p m ≫= f) st = (st', r) → cbl_ok st →
  (∀ a s, cbl_ok s → cbl_ok (fst (f a s))) → cbl_ok st'.
Proof.
  unfold mbind, M_bind. intros H Hok Hall. destruct (on_hdr p m st) as [s [e|a]] eqn:E.
  - injection H as <- <-. by eapply on_hdr_ok.
  - destruct (on_hdr_ok _ _ _ _ _ E Hok) as [Hs _]. specialize (Hall a s Hs). by rewrite H in Hall.
Qed.

(** ** The properties *)

(** The table of headers stays well formed under every operation: the entries
    in use are distinct live headers and [nhdrs] counts them; closing needs the file
    id of a header. *)
Theorem memfh_cbl_table_ok md op fcd name st st' r :
  cbl_ok st → memfh_cbl md op fcd name st = (st', r) →
  (op = OP_CLOSE → getint (file_id fcd) ≠ 0) → cbl_ok st'.
Proof.
  intros Hok Hrun Hid. revert Hrun. unfold memfh_cbl.
  pose proof (λ f, open_output_ok f name st) as Hout. pose proof (@on_hdr_bind_ok) as Hon.
  destruct (op =? OP_OPEN_INPUT).
  { unfold memfh_cbl_open_input, mbind, M_bind, gets, of_option. simpl.
    destruct (find_name _ _ _) as [[p|]|]; by intros [= <- <-]. }
  destruct (op =? OP_OPEN_IO).
  { unfold memfh_cbl_open_io, mbind, M_bind, gets, of_option. simpl.
    destruct (find_name _ _ _) as [[p|]|]; [by intros [= <- <-]|intros H; eapply Hout; [exact H|exact Hok]|by intros [= <- <-]]. }
  destruct (op =? OP_OPEN_OUTPUT); [intros H; eapply Hout; [exact H|exact Hok]|].
  destruct (op =? OP_WRITE).
  { unfold memfh_cbl_write. destruct (open_mode fcd =? 128); [by intros [= <- <-]|].
    erewrite bind_ok by done. destruct (find_hdr _ _); [|by intros [= <- <-]].
    intros H. eapply Hon; [exact H|exact Hok|done]. }
  destruct (op =? OP_REWRITE).
  { unfold memfh_cbl_rewrite. destruct (open_mode fcd =? 128); [by intros [= <- <-]|].
    intros H. eapply Hon; [exact H|exact Hok|done]. }
  destruct (op =? OP_READ_RANDOM).
  { unfold memfh_cbl_read. destruct (open_mode fcd =? 128); [by intros [= <- <-]|].
    intros H. eapply Hon; [exact H|exact Hok|done]. }
  destruct (op =? OP_START_GE).
  { unfold memfh_cbl_start. destruct (open_mode fcd =? 128); [by intros [= <- <-]|].
    destruct (key_index fcd); [|by intros [= <- <-]]. erewrite bind_ok by done.
    intros H. eapply Hon; [exact H|exact Hok|]. intros [? []] s Hs; simpl; [by apply set_start_ok|done]. }
  destruct (op =? OP_READ_NEXT).
  { unfold memfh_cbl_next. destruct (open_mode fcd =? 128); [by intros [= <- <-]|].
    erewrite bind_ok by done. destruct (start st).
    { intros [= <- <-]. by apply set_start_ok. }
    destruct (key_index fcd); [|by intros [= <- <-]]. erewrite bind_ok by done.
    intros H. eapply Hon; [exact H|exact Hok|done]. }
  destruct (Z.eqb_spec op OP_CLOSE) as [->|]; [|by intros [= <- <-]].
  specialize (Hid eq_refl). unfold memfh_cbl_close. destruct (open_mode fcd =? 128); [by intros [= <- <-]|].
  destruct (md =? ch "F"); cbv zeta; cbn [negb]; cbv iota; [|by intros [= <- <-]].
  rewrite (bind_ok _ _ _ _ _ (gets_run id st)). destruct (find_hdr _ _) as [i|] eqn:Ef; [|by intros [= <- <-]].
  destruct (Z.eqb_spec (getint (file_id fcd)) 0); [done|]. unfold mbind, M_bind at 1.
  destruct (on_hdr _ _ st) as [s [e|a]] eqn:E.
  - intros [= <- <-]. by eapply on_hdr_ok.
  - destruct (on_hdr_ok _ _ _ _ _ E Hok) as (Hs & Eh & _). intros [= <- <-].
    apply drop_hdr_ok; [done|done|]. by rewrite Eh.
Qed.

(** An OPEN OUTPUT of a new name creates an empty file with the keys of the
    key definition block; OPEN INPUT finds it by its name from then on, and did not
    before. *)
Theorem memfh_cbl_open_output_correct md fcd name st n comps rest :
  cbl_ok st → name_free st name → (length (used (hdrs st)) < MAX_HDRS)%nat →
  next_hdr st < 2 ^ 32 → short_at (rec_len fcd) 0 = Some n → 0 <= s16 n →
  cbl_keys (kdb fcd) = Some (comps :: rest) →
  ∃ st' p, memfh_cbl md OP_OPEN_OUTPUT fcd name st = (st', inr (opened fcd 2 p)) ∧
    getint (file_id (opened fcd 2 p)) = p ∧ objs st !! p = None ∧
    file_at st' p comps [] ∧ reclen_at st' p (Z.to_nat (s16 n)) ∧ p ∈ hdrs st' ∧
    ∀ fcd2, memfh_cbl md OP_OPEN_INPUT fcd2 name st = (st, inr (set_status ST_FILE_NOT_FOUND fcd2)) ∧
            memfh_cbl md OP_OPEN_INPUT fcd2 name st' = (st', inr (opened fcd2 0 p)).
Proof.
  intros Hok Hfree Hroom H32 Hn Hpos Hkeys. eexists _, (next_hdr st).
  split; [by apply memfh_cbl_open_output_run|].
  destruct (enter_find st name (memfh_open name (Z.to_nat (s16 n)) (comps :: rest)) Hok Hfree Hroom eq_refl)
    as (Hobjs & Hin & Hfind). destruct Hok. split; [apply getint_opened; lia|]. split.
  { apply not_elem_of_dom. intros H%co_fresh0. lia. }
  split; [eexists; rewrite Hobjs, lookup_insert_eq; split; [done|apply memfh_open_file]|].
  split; [eexists; rewrite Hobjs, lookup_insert_eq; by split|]. split; [done|]. intros fcd2. split.
  - change (memfh_cbl md OP_OPEN_INPUT fcd2 name) with (memfh_cbl_open_input fcd2 name).
    unfold memfh_cbl_open_input. erewrite bind_ok by done. by rewrite find_name_free.
  - change (memfh_cbl md OP_OPEN_INPUT fcd2 name) with (memfh_cbl_open_input fcd2 name).
    unfold memfh_cbl_open_input. erewrite bind_ok by done. unfold id. by rewrite Hfind.
Qed.

(** ** Operations on an open file *)

(** The control block of a program that has the file at [p] open. *)
Definition opened_at (fcd : fcd_t) (p : Z) : Prop := open_mode fcd ≠ 128 ∧ getint (file_id fcd) = p.

Lemma mem_file_nodup h comps f : mem_file h comps f → NoDup (fst <$> f).
Proof. intros (s & its & Hok). by eapply mem_ok_keys. Qed.

Lemma ins_item_get h comps key r f :
  mem_file h comps (ins_item key r f) → file_get key (ins_item key r f) = Some r.
Proof.
  intros Hf. apply file_get_some; [by eapply mem_file_nodup|]. apply ins_item_elem. by left.
Qed.

Lemma find_hdr_some l p : p ∈ l → ∃ i, find_hdr l p = Some i.
Proof. intros H%find_hdr_elem. by destruct H as [i ?]; exists i. Qed.

Lemma memfh_cbl_read_run md fcd name st p h h' r :
  opened_at fcd p → objs st !! p = Some h → memfh_read (record fcd) false h = (h', inr r) →
  memfh_cbl md OP_READ_RANDOM fcd name st = (set_obj p h' st,
    inr (set_status (if snd r : bool then ST_OK else ST_REC_NOT_FOUND) (set_rec (fst r) fcd))).
Proof.
  intros [Hom <-] Hp Hr. change (memfh_cbl md OP_READ_RANDOM fcd name) with (memfh_cbl_read fcd).
  unfold memfh_cbl_read. destruct (Z.eqb_spec (open_mode fcd) 128); [done|].
  rewrite (bind_ok _ _ _ _ _ (on_hdr_run _ _ _ _ _ _ Hp Hr)). done.
Qed.

(** READ RANDOM through any control block that has the file open gives status
    00 and the record under the key of the record area, or status 23 when there is
    none; the file and the other files stay as they were. *)
Theorem memfh_cbl_read_correct md fcd name st p comps f n key :
  opened_at fcd p → file_at st p comps f → reclen_at st p n → (n ≤ length (record fcd))%nat →
  key_of comps (record fcd) = Some key → (length f < capacity (key_len comps))%nat →
  ∃ st', memfh_cbl md OP_READ_RANDOM fcd name st = (st', inr
      match file_get key f with
      | Some r => set_status ST_OK (set_rec (blit (record fcd) 0 r) fcd)
      | None => set_status ST_REC_NOT_FOUND (set_rec (record fcd) fcd)
      end) ∧
    file_at st' p comps f ∧ ∀ q, q ≠ p → objs st' !! q = objs st !! q.
Proof.
  intros Hop (h & Hp & Hf) (h0 & Hp0 & <-) Hlen Hkey Hcap. rewrite Hp in Hp0. injection Hp0 as <-.
  destruct (memfh_read_aux _ _ _ _ _ Hf Hlen Hkey Hcap) as (h' & Hrun & Hf' & _).
  exists (set_obj p h' st). rewrite (memfh_cbl_read_run _ _ _ _ _ _ _ _ Hop Hp Hrun).
  split; [by destruct (file_get key f)|]. split; [exists h'; by rewrite set_obj_self|].
  intros q Hq. simpl. by rewrite lookup_insert_ne.
Qed.

(** A WRITE of a record with a new key gives status 00, adds it to the file in
    key order and leaves the other files alone; a READ RANDOM of its key, through any
    control block that has the file open, then returns it. *)
Theorem memfh_cbl_write_read md fcd name st p comps f n key :
  opened_at fcd p → p ∈ hdrs st → file_at st p comps f → reclen_at st p n →
  (n ≤ length (record fcd))%nat → key_of comps (take n (record fcd)) = Some key →
  key ∉ fst <$> f → (S (length f) < capacity (key_len comps))%nat →
  ∃ st', memfh_cbl md OP_WRITE fcd name st = (st', inr (set_status ST_OK fcd)) ∧
    file_at st' p comps (ins_item key (take n (record fcd)) f) ∧
    (∀ q, q ≠ p → objs st' !! q = objs st !! q) ∧
    ∀ fcd2, opened_at fcd2 p → (n ≤ length (record fcd2))%nat → key_of comps (record fcd2) = Some key →
      ∃ st2, memfh_cbl md OP_READ_RANDOM fcd2 name st' =
        (st2, inr (set_status ST_OK (set_rec (blit (record fcd2) 0 (take n (record fcd))) fcd2))).
Proof.
  intros [Hom Hid] Hin (h & Hp & Hf) (h0 & Hp0 & <-) Hlen Hkey Hnew Hcap.
  rewrite Hp in Hp0. injection Hp0 as <-.
  destruct (memfh_write_aux _ _ _ _ _ Hf Hlen Hkey Hnew ltac:(lia)) as (h' & Hrun & Hf' & Hrl).
  exists (set_obj p h' st). split.
  { change (memfh_cbl md OP_WRITE fcd name) with (memfh_cbl_write fcd).
    unfold memfh_cbl_write. destruct (Z.eqb_spec (open_mode fcd) 128); [done|]. cbv zeta.
    rewrite Hid, (bind_ok _ _ _ _ _ (gets_run id st)). unfold id.
    destruct (find_hdr_some _ _ Hin) as [i ->].
    rewrite (bind_ok _ _ _ _ _ (on_hdr_run _ _ _ _ _ _ Hp Hrun)). done. }
  split; [exists h'; by rewrite set_obj_self|].
  split; [intros q Hq; simpl; by rewrite lookup_insert_ne|].
  intros fcd2 Hop2 Hlen2 Hkey2.
  destruct (memfh_read_aux _ _ _ _ _ Hf' ltac:(rewrite Hrl; exact Hlen2) Hkey2) as (h2 & Hrun2 & _).
  { rewrite (Permutation_length (ins_item_perm _ _ _)). simpl. lia. }
  rewrite (ins_item_get _ _ _ _ _ Hf') in Hrun2. eexists.
  rewrite (memfh_cbl_read_run _ _ _ _ _ _ _ _ Hop2 (set_obj_self _ _ _) Hrun2). done.
Qed.

(** A program that reads the next record until the status is not 00. *)
Fixpoint cbl_next_all (fuel : nat) (md : Z) (fcd : fcd_t) (name : bytes) : M cbl_state (list bytes * bytes) :=
  match fuel with
  | O => stop NoFuel
  | S fuel' =>
      fcd' ← memfh_cbl md OP_READ_NEXT fcd name;
      if bool_decide (status fcd' = ST_OK) then
        rs ← cbl_next_all fuel' md fcd' name;
        mret (record fcd' :: fst rs, snd rs)
      else mret ([], status fcd')
  end.

(** A start, then reads of the next record to the end: the records and the last status. *)
Definition cbl_scan (fuel : nat) (md : Z) (fcd : fcd_t) (name : bytes) : M cbl_state (list bytes * bytes) :=
  fcd' ← memfh_cbl md OP_START_GE fcd name;
  if bool_decide (status fcd' = ST_OK) then cbl_next_all fuel md fcd' name
  else mret ([], status fcd').

Lemma cbl_next_all_run md name p k fuel : ∀ fcd st h h' rs,
  opened_at fcd p → key_index fcd = Some k → start st = false → objs st !! p = Some h →
  next_all fuel k (record fcd) h = (h', inr rs) →
  ∃ st', cbl_next_all fuel md fcd name st = (st', inr (rs, ST_EOF)).
Proof.
  induction fuel as [|fuel IH]; intros fcd st h h' rs Hop Hk Hst Hp Hrun; [done|].
  cbn [cbl_next_all next_all] in *.
  change (memfh_cbl md OP_READ_NEXT fcd name) with (memfh_cbl_next fcd).
  unfold memfh_cbl_next. pose proof Hop as [Hom Hid]. destruct (Z.eqb_spec (open_mode fcd) 128); [done|].
  inv_bind Hrun. destruct a as [rec ok]. unfold mbind at 1, M_bind at 1.
  erewrite bind_ok by (apply gets_run). rewrite Hst, Hk. erewrite bind_ok by done.
  rewrite Hid, (bind_ok _ _ _ _ _ (on_hdr_run _ _ _ _ _ _ Hp Hm)). destruct ok; simpl in *.
  - inv_bind Hrun. injection Hrun as <- <-.
    destruct (IH (set_status ST_OK (set_rec rec fcd)) (set_obj p s st) s s0 a) as [st' Hrec];
      [by split|done|done|apply set_obj_self|done|].
    exists st'. by rewrite (bind_ok _ _ _ _ _ Hrec).
  - injection Hrun as <- <-. by eexists.
Qed.

(** A START not less than a key not above the first one, followed by READ
    NEXT until it fails, delivers every record of the file once, in the order of the
    primary key, and ends with status 10: the first READ NEXT delivers the record of
    the start and does not skip it. *)
Theorem memfh_cbl_scan md fcd name st p comps f n key fuel :
  opened_at fcd p → file_at st p comps f → reclen_at st p n → (n ≤ length (record fcd))%nat →
  key_id fcd = putshort 0 → key_of comps (record fcd) = Some key →
  f ≠ [] → lower_ix key f = 0%nat → (length f < capacity (key_len comps))%nat →
  (length f ≤ fuel)%nat →
  ∃ st', cbl_scan (S fuel) md fcd name st = (st', inr
    ((λ kr : bytes * bytes, blit (record fcd) 0 (snd kr)) <$> f, ST_EOF)).
Proof.
  intros Hop (h & Hp & Hf) (h0 & Hp0 & <-) Hlen Hk Hkey Hne Hlow Hcap Hfuel.
  rewrite Hp in Hp0. injection Hp0 as <-. destruct Hf as (s & its & Hok).
  pose proof (mo_idx _ _ _ _ _ Hok) as Hio.
  assert (is_index (key_len comps) s its) as Hidx.
  { destruct (mo_state _ _ _ _ _ Hok) as [?|[_ ->]]; [done|].
    pose proof (idx_ok_length _ _ _ _ _ _ Hio) as E. by destruct f. }
  destruct (start_scan_aux h 0 comps s its f _ key fuel Hio Hidx Hkey Hcap Hlen Hlow Hne Hfuel) as (h' & Hrun).
  assert (key_index fcd = Some 0%nat) as Hki by (unfold key_index; by rewrite Hk).
  unfold start_scan in Hrun. inv_bind Hrun. destruct a as [rec ok]. simpl in Hrun.
  destruct ok; [|by destruct f]. inv_bind Hrun. injection Hrun as <- Hrs.
  unfold cbl_scan. change (memfh_cbl md OP_START_GE fcd name) with (memfh_cbl_start fcd).
  pose proof Hop as [Hom Hid]. unfold memfh_cbl_start. destruct (Z.eqb_spec (open_mode fcd) 128); [done|].
  unfold mbind at 1, M_bind at 1. rewrite Hki. erewrite bind_ok by done.
  rewrite Hid, (bind_ok _ _ _ _ _ (on_hdr_run _ _ _ _ _ _ Hp Hm)).
  unfold mbind at 1, M_bind at 1. simpl. set (fcd1 := set_status ST_OK (set_rec rec fcd)).
  change (memfh_cbl md OP_READ_NEXT fcd1 name) with (memfh_cbl_next fcd1).
  unfold memfh_cbl_next. destruct (Z.eqb_spec (open_mode fcd1) 128); [done|].
  unfold mbind at 1, M_bind at 1. simpl.
  destruct (cbl_next_all_run md name p 0 fuel (set_status ST_OK fcd1)
    (set_start false (set_start true (set_obj p s0 st))) s0 s1 a) as [st' Hall];
    [by split|done|done|apply set_obj_self|done|].
  exists st'. rewrite (bind_ok _ _ _ _ _ Hall). simpl.
  by rewrite Hrs.
Qed.

(** ** Concrete instances *)

(** A key definition block: one key of one component, the first two bytes. *)
Definition ex_kdb : bytes :=
  [0; 0; 0; 0; 0; 0] ++ putshort 1 ++ [0; 0; 0; 0; 0; 0] ++
  putshort 1 ++ putshort 30 ++ replicate 12 0 ++ [0; 0] ++ putint 0 ++ putint 2.

Definition ex_fcd (rec : bytes) : fcd_t :=
  mk_fcd (bs "00") 0 0 128 (putshort 7) 0 (replicate 8 0) (putshort 4) (putshort 0) rec (bs "totitem")
    ex_kdb (putint 0) 0 0 (replicate 4 0) 0 0.

(** One file in the table, at address 4096. *)
Definition ex_cbl (h : memfh_hdr_t) : cbl_state :=
  mk_cbl (4096 :: replicate 127 0) 1 false {[ 4096 := h ]} 4097.

Lemma memfh_cbl_table_ok_witness :
  cbl_ok (fst (memfh_cbl (ch "M") OP_OPEN_OUTPUT (ex_fcd (bs "k1aa")) (bs "totitem") cbl_init)).
Proof.
  eapply (memfh_cbl_table_ok (ch "M") OP_OPEN_OUTPUT (ex_fcd (bs "k1aa")) (bs "totitem") cbl_init).
  - apply cbl_init_ok.
  - apply surjective_pairing.
  - done.
Defined.

Lemma memfh_cbl_open_output_correct_witness :
  ∃ st' p, memfh_cbl (ch "M") OP_OPEN_OUTPUT (ex_fcd (bs "k1aa")) (bs "totitem") cbl_init =
      (st', inr (opened (ex_fcd (bs "k1aa")) 2 p)) ∧ file_at st' p ex_comps [].
Proof.
  destruct (memfh_cbl_open_output_correct (ch "M") (ex_fcd (bs "k1aa")) (bs "totitem") cbl_init 4 ex_comps [])
    as (st' & p & Hrun & _ & _ & Hf & _).
  - apply cbl_init_ok.
  - intros p Hp. exfalso. revert Hp. vm_compute. apply not_elem_of_nil.
  - apply Nat.ltb_lt. by vm_compute.
  - by vm_compute.
  - by vm_compute.
  - by vm_compute.
  - by vm_compute.
  - exists st', p. by split.
Defined.

Definition ex_open_fcd (rec : bytes) : fcd_t := opened (ex_fcd rec) 0 4096.

Lemma ex_opened_at rec : opened_at (ex_open_fcd rec) 4096.
Proof. split; by vm_compute. Qed.

Lemma memfh_cbl_read_correct_witness :
  ∃ h, mem_file h ex_comps [(bs "k1", bs "k1bb"); (bs "k2", bs "k2aa")] ∧
  ∃ st', memfh_cbl (ch "M") OP_READ_RANDOM (ex_open_fcd (bs "k2..")) (bs "totitem") (ex_cbl h) =
    (st', inr (set_status ST_OK (set_rec (bs "k2aa") (ex_open_fcd (bs "k2.."))))).
Proof.
  destruct ex_two as (h & _ & _ & Hf & Hr). exists h. split; [exact Hf|].
  destruct (memfh_cbl_read_correct (ch "M") (ex_open_fcd (bs "k2..")) (bs "totitem") (ex_cbl h) 4096
    ex_comps [(bs "k1", bs "k1bb"); (bs "k2", bs "k2aa")] 4 (bs "k2")) as (st' & Hrun & _).
  - apply ex_opened_at.
  - exists h. split; [done|exact Hf].
  - exists h. by split.
  - simpl. lia.
  - done.
  - apply ex_capacity. simpl. lia.
  - exists st'. exact Hrun.
Defined.

Lemma memfh_cbl_write_read_witness :
  ∃ st', memfh_cbl (ch "M") OP_WRITE (ex_open_fcd (bs "k2aa")) (bs "totitem") (ex_cbl ex_open) =
    (st', inr (set_status ST_OK (ex_open_fcd (bs "k2aa")))) ∧ file_at st' 4096 ex_comps [(bs "k2", bs "k2aa")].
Proof.
  destruct (memfh_cbl_write_read (ch "M") (ex_open_fcd (bs "k2aa")) (bs "totitem") (ex_cbl ex_open) 4096
    ex_comps [] 4 (bs "k2")) as (st' & Hrun & Hf & _).
  - apply ex_opened_at.
  - simpl. by left.
  - exists ex_open. split; [done|apply memfh_open_file].
  - by exists ex_open.
  - simpl. lia.
  - done.
  - apply not_elem_of_nil.
  - apply ex_capacity. simpl. lia.
  - exists st'. split; [exact Hrun|exact Hf].
Defined.

Lemma memfh_cbl_scan_witness :
  ∃ h, mem_file h ex_comps [(bs "k1", bs "k1bb"); (bs "k2", bs "k2aa")] ∧
  ∃ st', cbl_scan 3 (ch "M") (ex_open_fcd (bs "....")) (bs "totitem") (ex_cbl h) =
    (st', inr ([bs "k1bb"; bs "k2aa"], ST_EOF)).
Proof.
  destruct ex_two as (h & _ & _ & Hf & Hr). exists h. split; [exact Hf|].
  destruct (memfh_cbl_scan (ch "M") (ex_open_fcd (bs "....")) (bs "totitem") (ex_cbl h) 4096
    ex_comps [(bs "k1", bs "k1bb"); (bs "k2", bs "k2aa")] 4 (bs "..") 2) as (st' & Hrun).
  - apply ex_opened_at.
  - exists h. split; [done|exact Hf].
  - exists h. by split.
  - simpl. lia.
  - done.
  - done.
  - done.
  - by vm_compute.
  - apply ex_capacity. simpl. lia.
  - simpl. lia.
  - exists st'. exact Hrun.
Defined.
