(* ===== verification/MemfhSession.v ===== *)
(** Sessions of COBOL programs on a file in memory (src/memfh_cbl.c over src/memfh.c): from the open to the
    close, the operations are those of an abstract file, whose records live until the close in
    mode F and beyond it in mode M. *)

From stdpp Require Import prelude gmap strings sorting.
From S2P Require Import Prelude Hoare Fhtypes Fcd MemfhIdx MemfhInv MemfhWrite Memfh MemfhFile MemfhCbl.
Local Open Scope Z_scope.

(** ** The abstract file *)

(** What a program asks, with the record area it has. *)
Inductive mem_req :=
  | QRead (area : bytes) | QWrite (area : bytes) | QRewrite (area : bytes)
  | QStart (area : bytes) | QNext (area : bytes) | QDelete (area : bytes).

Definition area_of (q : mem_req) : bytes :=
  match q with QRead a | QWrite a | QRewrite a | QStart a | QNext a | QDelete a => a end.

Definition op_of (q : mem_req) : Z :=
  match q with
  | QRead _ => OP_READ_RANDOM | QWrite _ => OP_WRITE | QRewrite _ => OP_REWRITE
  | QStart _ => OP_START_GE | QNext _ => OP_READ_NEXT | QDelete _ => OP_DELETE
  end.

(** The records in key order; the one the cursor is on, when there is one; and the flag a START sets,
    which is one for all files. *)
Record mfile := mk_mfile { m_recs : file; m_pos : option nat; m_start : bool }.

Section contract.
Context (comps : keydef) (n : nat).

(** The requests the operations are defined on: a whole record with a key; for a WRITE of a new key
    room for it; a READ NEXT while the flag is set or with the cursor on a record (before that the
    code follows a path no search has written, after an end of file or a WRITE one that is not on a record). *)
Definition allowed (m : mfile) (q : mem_req) : Prop :=
  (n ≤ length (area_of q))%nat ∧
  match q with
  | QRead area | QStart area => is_Some (key_of comps area)
  | QWrite area => is_Some (key_of comps (take n area)) ∧ (S (length (m_recs m)) < capacity (key_len comps))%nat
  | QRewrite area => is_Some (key_of comps (take n area))
  | QNext _ => m_start m = true ∨ is_Some (m_pos m)
  | QDelete _ => True
  end.

(** The requests that end the process: a WRITE of a key the file has, a REWRITE whose area does
    not begin, as far as the length of the key, as the record does. *)
Definition stops (m : mfile) (q : mem_req) : bool :=
  match q with
  | QWrite area => match key_of comps (take n area) with Some key => bool_decide (key ∈ fst <$> m_recs m) | None => false end
  | QRewrite area =>
      match key_of comps (take n area) with
      | Some key => match file_get key (m_recs m) with Some old => negb (memeq old area (length key)) | None => false end
      | None => false
      end
  | _ => false
  end.

(** What a request answers - the status and the record area - and the file after it. START goes to
    the first record not below the key but answers with one before it ([a] of the page), or fails
    when it is past the records of its page; the READ NEXT after it answers that the record
    is there and leaves the area alone; a READ or REWRITE of a record puts the cursor on it;
    DELETE does nothing. *)
Inductive mem_step : mfile → mem_req → bytes → bytes → mfile → Prop :=
  | ms_read_found f pos b area key r : key_of comps area = Some key → file_get key f = Some r →
      mem_step (mk_mfile f pos b) (QRead area) ST_OK (blit area 0 r) (mk_mfile f (Some (lower_ix key f)) b)
  | ms_read_missing f pos b area key : key_of comps area = Some key → file_get key f = None →
      mem_step (mk_mfile f pos b) (QRead area) ST_REC_NOT_FOUND area (mk_mfile f None b)
  | ms_write f pos b area key : key_of comps (take n area) = Some key →
      mem_step (mk_mfile f pos b) (QWrite area) ST_OK area (mk_mfile (ins_item key (take n area) f) None b)
  | ms_rewrite f pos b area key old : key_of comps (take n area) = Some key → file_get key f = Some old →
      mem_step (mk_mfile f pos b) (QRewrite area) ST_OK area (mk_mfile (file_put key (take n area) f) (Some (lower_ix key f)) b)
  | ms_rewrite_missing f pos b area key : key_of comps (take n area) = Some key → file_get key f = None →
      mem_step (mk_mfile f pos b) (QRewrite area) ST_REC_NOT_FOUND area (mk_mfile f None b)
  | ms_start f pos b area key a k r : key_of comps area = Some key → (a ≤ lower_ix key f)%nat →
      f !! (lower_ix key f - a)%nat = Some (k, r) →
      mem_step (mk_mfile f pos b) (QStart area) ST_OK (blit area 0 r) (mk_mfile f (Some (lower_ix key f)) true)
  | ms_start_past f pos b area key : key_of comps area = Some key → key ∉ fst <$> f → f = [] ∨ lower_ix key f ≠ 0%nat →
      mem_step (mk_mfile f pos b) (QStart area) ST_EOF area (mk_mfile f None b)
  | ms_next_started f pos area :
      mem_step (mk_mfile f pos true) (QNext area) ST_OK area (mk_mfile f pos false)
  | ms_next f i area k r : f !! S i = Some (k, r) →
      mem_step (mk_mfile f (Some i) false) (QNext area) ST_OK (blit area 0 r) (mk_mfile f (Some (S i)) false)
  | ms_next_end f i area : f !! S i = None →
      mem_step (mk_mfile f (Some i) false) (QNext area) ST_EOF area (mk_mfile f None false)
  | ms_delete m area : mem_step m (QDelete area) ST_OK area m.

(** A program whose every request is one of those, whatever the answers before. *)
Fixpoint safe (m : mfile) (qs : list mem_req) : Prop :=
  match qs with
  | [] => True
  | q :: qs' => allowed m q ∧ (stops m q = false → ∀ st area m', mem_step m q st area m' → safe m' qs')
  end.

(** The answers, and the file at the end, or the request that ends the process. *)
Inductive mem_run : mfile → list mem_req → list (bytes * bytes) → option mfile → Prop :=
  | mr_nil m : mem_run m [] [] (Some m)
  | mr_stop m q qs : stops m q = true → mem_run m (q :: qs) [] None
  | mr_cons m m1 o q qs st area outs : stops m q = false → mem_step m q st area m1 → mem_run m1 qs outs o →
      mem_run m (q :: qs) ((st, area) :: outs) o.

End contract.

(** ** The operations keep the name and the length of the records *)

Definition same_header (fn : bytes) (n : nat) (h : memfh_hdr_t) : Prop := h_filename h = fn ∧ h_reclen h = n.

Section header.
Context (fn : bytes) (n : nat).
Notation kept m := (keeps (same_header fn n) m (λ _, True)).

Lemma on_idx_kept {A} k (m : M ixst A) : kept (on_idx k m).
Proof.
  intros h h' a Hh E. unfold on_idx in E. destruct (h_idx h !! k) as [[s|]|]; [|done..].
  destruct (m s) as [s' r]. by injection E as <- ->.
Qed.

Lemma gets_kept {A} (f : memfh_hdr_t → A) : kept (gets f).
Proof. by apply keeps_gets. Qed.

Lemma option_kept {A} (o : option A) : kept (of_option o).
Proof. by apply keeps_option. Qed.

Lemma guard_kept b : kept (guard_fault b).
Proof. by apply (keeps_weaken _ _ _ _ (keeps_guard _ b)). Qed.

Lemma ret_kept {A} (a : A) : kept (mret a).
Proof. by apply keeps_ret. Qed.

Lemma bind_kept {A B} (m : M memfh_hdr_t A) (f : A → M memfh_hdr_t B) : kept m → (∀ a, kept (f a)) → kept (m ≫= f).
Proof. intros Hm Hf. by eapply keeps_bind; [exact Hm|]. Qed.

Lemma modify_kept f : (∀ h, same_header fn n h → same_header fn n (f h)) → kept (modify f).
Proof. apply keeps_modify. Qed.

Lemma stop_kept {A} e : kept (stop e : M memfh_hdr_t A).
Proof. apply keeps_stop. Qed.
End header.

#[local] Hint Resolve on_idx_kept gets_kept option_kept guard_kept ret_kept stop_kept : keeps.

Ltac kept_tac := repeat first [progress cbv beta zeta | done
  | apply bind_kept; [|intros ?] | apply modify_kept | case_match | solve [auto with keeps]].

Lemma memfh_write_kept fn n record : keeps (same_header fn n) (memfh_write record) (λ _, True).
Proof. unfold memfh_write, malloc_record, append_data, make_key. kept_tac. Qed.

Lemma memfh_read_kept fn n record u : keeps (same_header fn n) (memfh_read record u) (λ _, True).
Proof. unfold memfh_read, make_key, load_record, copy_out. kept_tac. Qed.

(** ** One request *)

Section session.
Context (comps : keydef) (n : nat) (name : bytes).
Notation mem_step := (mem_step comps n).
Notation mem_run := (mem_run comps n).
Notation allowed := (allowed comps n).
Notation stops := (stops comps n).
Notation safe := (safe comps n).

(** A header of the file with records [f]. *)
Record head_at (h : memfh_hdr_t) (f : file) : Prop := {
  ha_name : cstr (h_filename h) = cstr name;
  ha_len : h_reclen h = n;
  ha_file : mem_file h comps f;
  ha_room : (length f < capacity (key_len comps))%nat;
}.

(** The file at [p] of the table is the abstract one. *)
Definition mem_at (st : cbl_state) (p : Z) (m : mfile) : Prop :=
  p ∈ hdrs st ∧ ∃ h, objs st !! p = Some h ∧ head_at h (m_recs m) ∧
    start st = m_start m ∧ match m_pos m with Some i => file_cursor h 0 comps (m_recs m) i | None => True end.

(** Only the file at [p] changes. *)
Definition only_at (p : Z) (st st' : cbl_state) : Prop :=
  hdrs st' = hdrs st ∧ nhdrs st' = nhdrs st ∧ next_hdr st' = next_hdr st ∧ ∀ q, q ≠ p → objs st' !! q = objs st !! q.

Lemma only_refl p st : only_at p st st.
Proof. done. Qed.

Lemma only_trans p st1 st2 st3 : only_at p st1 st2 → only_at p st2 st3 → only_at p st1 st3.
Proof.
  intros (A1 & A2 & A3 & A4) (B1 & B2 & B3 & B4). split_and!; try congruence. intros q Hq. by rewrite B4, A4.
Qed.

Lemma only_set p h b st : only_at p st (set_start b (set_obj p h st)).
Proof. split_and!; try done. intros q Hq. cbn. by rewrite lookup_insert_ne. Qed.

Lemma only_obj p h st : only_at p st (set_obj p h st).
Proof. split_and!; try done. intros q Hq. cbn. by rewrite lookup_insert_ne. Qed.

(** The header after an operation of memfh.c that keeps it one of the file. *)
Lemma at_obj st p h f b o : p ∈ hdrs st → head_at h f → start st = b →
  match o with Some i => file_cursor h 0 comps f i | None => True end → mem_at (set_obj p h st) p (mk_mfile f o b).
Proof. intros Hp Hh Hb Ho. split; [done|]. exists h. by rewrite set_obj_self. Qed.

Lemma at_cursor st p h f i b : p ∈ hdrs st → head_at h f → file_cursor h 0 comps f i →
  mem_at (set_start b (set_obj p h st)) p (mk_mfile f (Some i) b).
Proof. intros Hp Hh Hc. split; [done|]. exists h. split; [apply set_obj_self|]. by split; [|split]. Qed.

Lemma head_kept {A} (m : M memfh_hdr_t A) h h' a f f' : head_at h f → m h = (h', inr a) →
  keeps (same_header (h_filename h) (h_reclen h)) m (λ _, True) → mem_file h' comps f' → (length f' < capacity (key_len comps))%nat → head_at h' f'.
Proof.
  intros [H1 H2 _ _] Hm Hk Hf Hc. destruct (Hk h h' a) as [[E1 E2] _]; [by split|done|]. split; [congruence|congruence|done..].
Qed.

Lemma head_moved h h' f : head_at h f → cursor_moved 0 h h' → head_at h' f.
Proof.
  intros [H1 H2 (s & its & Hf) H4] Hm. split; [| |by eapply mem_ok_moved|done]; by destruct Hm as (? & ? & ? & -> & ?).
Qed.

(** The control block of a program that has the file open. *)
Definition program (fcd : fcd_t) (p : Z) : Prop := opened_at fcd p ∧ key_id fcd = putshort 0 ∧ status fcd = ST_OK.

Lemma not_closed {A} fcd p (x y : A) : program fcd p → (if open_mode fcd =? 128 then x else y) = y.
Proof. intros [[Ho _] _]. by rewrite (proj2 (Z.eqb_neq _ _) Ho). Qed.

Lemma program_id fcd p : program fcd p → getint (file_id fcd) = p.
Proof. by intros [[_ H] _]. Qed.

Lemma program_key fcd p area : program fcd p → key_index (set_rec area fcd) = Some 0%nat.
Proof. intros (_ & Hk & _). unfold key_index. cbn [key_id set_rec]. by rewrite Hk. Qed.

(** A request and what it does. *)
Definition does (md : Z) (fcd : fcd_t) (p : Z) (m : mfile) (q : mem_req) (st : cbl_state) : Prop :=
  if stops m q then ∃ st', memfh_cbl md (op_of q) (set_rec (area_of q) fcd) name st = (st', inl Exit)
  else ∃ st' f m', memfh_cbl md (op_of q) (set_rec (area_of q) fcd) name st = (st', inr f) ∧
    mem_step m q (status f) (record f) m' ∧ mem_at st' p m' ∧ only_at p st st'.

Lemma on_hdr_exit {A} p (m : M memfh_hdr_t A) st h h' : objs st !! p = Some h → m h = (h', inl Exit) → ∃ st', on_hdr p m st = (st', inl Exit).
Proof. intros Eh Hm. eexists. by apply (on_hdr_run _ _ _ _ _ _ Eh Hm). Qed.

Lemma does_read md fcd p m st area : program fcd p → mem_at st p m → allowed m (QRead area) → does md fcd p m (QRead area) st.
Proof.
  intros Hp [Hin (h & Eh & Hh & Hst & _)] [Hlen [key Hkey]]. pose proof Hh as [Hn Hl Hf Hc].
  destruct (memfh_read_aux h comps (m_recs m) area key Hf ltac:(by rewrite Hl) Hkey Hc) as (h' & Hrun & Hf' & _ & Hcur).
  pose proof (head_kept _ _ _ _ _ _ Hh Hrun (memfh_read_kept _ _ _ _) Hf' Hc) as Hh'. unfold does. cbn [stops].
  pose proof (memfh_cbl_read_run md (set_rec area fcd) name st p h h' _ (proj1 Hp) Eh Hrun) as E0. destruct m as [f pos b]. cbn [m_recs m_start] in *.
  destruct (file_get key f) as [r|] eqn:E; eexists (set_obj p h' st), _, _; (split; [exact E0|]); cbn.
  - split; [by eapply ms_read_found|]. split; [|apply only_obj]. apply at_obj; try done. by apply Hcur.
  - split; [by eapply ms_read_missing|]. split; [|apply only_obj]. by apply at_obj.
Qed.

Lemma does_write md fcd p m st area : program fcd p → mem_at st p m → allowed m (QWrite area) → does md fcd p m (QWrite area) st.
Proof.
  intros Hp [Hin (h & Eh & Hh & Hst & _)] [Hlen [[key Hkey] Hcap]]. pose proof Hh as [Hn Hl Hf Hc]. cbn [area_of] in Hlen.
  assert (∀ r, (∃ h', memfh_write area h = (h', r)) → ∃ h', memfh_write area h = (h', r) ∧
    memfh_cbl md (op_of (QWrite area)) (set_rec area fcd) name st = (set_obj p h' st, match r with inr _ => inr (set_status ST_OK (set_rec area fcd)) | inl e => inl e end)) as Hgo.
  { intros r [h' Hrun]. exists h'. split; [done|]. change (memfh_cbl md (op_of (QWrite area)) ?f name) with (memfh_cbl_write f). unfold memfh_cbl_write.
    cbn [open_mode set_rec area_of]. rewrite (not_closed _ _ _ _ Hp). cbv zeta. cbn [file_id set_rec record].
    rewrite (program_id _ _ Hp), (bind_ok _ _ _ _ _ (gets_run id st)). unfold id. destruct (find_hdr_some _ _ Hin) as [i ->].
    unfold mbind, M_bind. rewrite (on_hdr_run _ _ _ _ _ _ Eh Hrun). by destruct r. }
  unfold does. cbn [stops area_of]. rewrite Hkey. destruct (bool_decide_reflect (key ∈ fst <$> m_recs m)) as [Hin2|Hnew].
  - destruct (Hgo (inl Exit)) as (h' & _ & E0); [|by eexists].
    eapply memfh_write_exists; [exact Hf|by rewrite Hl|by rewrite Hl|done|lia].
  - destruct (memfh_write_aux h comps (m_recs m) area key Hf ltac:(by rewrite Hl) ltac:(by rewrite Hl) Hnew Hc) as (h1 & Hrun & Hf' & _).
    destruct (Hgo (inr tt)) as (h' & Hrun' & E0); [by eexists|]. rewrite Hrun in Hrun'. injection Hrun' as ->.
    rewrite Hl in Hf'. assert (head_at h' (ins_item key (take n area) (m_recs m))) as Hh'.
    { eapply head_kept; [exact Hh|exact Hrun|apply memfh_write_kept|exact Hf'|]. by rewrite (Permutation_length (ins_item_perm _ _ _)). }
    destruct m as [f pos b]. eexists _, _, _. split; [exact E0|]. split; [by apply ms_write|]. split; [by apply at_obj|apply only_obj].
Qed.

Lemma file_put_length key r f : length (file_put key r f) = length f.
Proof. apply length_fmap. Qed.

Lemma does_rewrite md fcd p m st area : program fcd p → mem_at st p m → allowed m (QRewrite area) → does md fcd p m (QRewrite area) st.
Proof.
  intros Hp [Hin (h & Eh & Hh & Hst & _)] [Hlen [key Hkey]]. pose proof Hh as [Hn Hl Hf Hc]. cbn [area_of] in Hlen.
  destruct (memfh_update_aux h comps (m_recs m) area key Hf ltac:(by rewrite Hl) ltac:(by rewrite Hl) Hc) as (h' & Hu).
  rewrite Hl in Hu. assert (∀ r, memfh_read area true h = (h', r) → memfh_cbl md (op_of (QRewrite area)) (set_rec area fcd) name st =
    (set_obj p h' st, match r with inr (a, b) => inr (set_status (if b : bool then ST_OK else ST_REC_NOT_FOUND) (set_rec a (set_rec area fcd))) | inl e => inl e end)) as Hgo.
  { intros r Hrun. change (memfh_cbl md (op_of (QRewrite area)) ?f name) with (memfh_cbl_rewrite f). unfold memfh_cbl_rewrite.
    cbn [open_mode set_rec area_of]. rewrite (not_closed _ _ _ _ Hp). cbn [file_id set_rec record]. rewrite (program_id _ _ Hp).
    unfold mbind, M_bind. rewrite (on_hdr_run _ _ _ _ _ _ Eh Hrun). by destruct r as [|[]]. }
  unfold does. cbn [stops]. rewrite Hkey. destruct m as [f pos b]. cbn [m_recs m_start] in *. destruct (file_get key f) as [old|] eqn:E.
  - destruct (memeq old area (length key)); cbn [negb]; [|eexists; exact (Hgo _ Hu)].
    destruct Hu as (Hrun & Hf' & Hcur). eexists _, _, _. split; [exact (Hgo _ Hrun)|]. split; [by eapply ms_rewrite|]. split; [|apply only_obj].
    apply at_obj; [done| |done|exact Hcur]. eapply head_kept; [exact Hh|exact Hrun|apply memfh_read_kept|exact Hf'|]. by rewrite file_put_length.
  - destruct Hu as [Hrun Hf']. eexists _, _, _. split; [exact (Hgo _ Hrun)|]. split; [by eapply ms_rewrite_missing|]. split; [|apply only_obj].
    apply at_obj; [done| |done|done]. eapply head_kept; [exact Hh|exact Hrun|apply memfh_read_kept|exact Hf'|done].
Qed.

(** What memfh_start does to a file, empty or not. *)
Lemma start_any h f area key : mem_file h comps f → (h_reclen h ≤ length area)%nat → key_of comps area = Some key →
  (length f < capacity (key_len comps))%nat → ∃ h' a b, cursor_moved 0 h h' ∧ (a ≤ lower_ix key f)%nat ∧
    if b : bool then match f !! (lower_ix key f - a)%nat with
      | Some (_, r) => memfh_start area 0 h = (h', inr (blit area 0 r, true)) ∧ file_cursor h' 0 comps f (lower_ix key f) | None => False end
    else memfh_start area 0 h = (h', inr (area, false)) ∧ key ∉ fst <$> f ∧ (f = [] ∨ lower_ix key f ≠ 0%nat).
Proof.
  intros (s & its & Hf) Hlen Hkey Hc. destruct (decide (f = [])) as [->|Hne].
  - destruct (memfh_start_empty h comps s its area key Hf Hkey Hlen Hc) as (h' & E & Hm). exists h', 0%nat, false.
    split; [done|]. split; [simpl; lia|]. split; [done|]. split; [apply not_elem_of_nil|by left].
  - pose proof (mo_idx _ _ _ _ _ Hf) as Hio. assert (is_index (key_len comps) s its) as Hidx.
    { destruct (mo_state _ _ _ _ _ Hf) as [?|[_ ->]]; [done|]. pose proof (idx_ok_length _ _ _ _ _ _ Hio) as E. by destruct f. }
    destruct (memfh_start_aux h 0 comps s its f area key Hio Hidx Hkey Hc Hlen) as (h' & a & b & [_ Hmv] & Ha & Hb & Hrun).
    exists h', a, b. split; [done|]. split; [done|]. destruct b; [done|]. split; [done|].
    split; [intros Hi; by discriminate (Hb (or_introl Hi))|]. right. intros Hi. by discriminate (Hb (or_intror (conj Hne Hi))).
Qed.

Lemma does_start md fcd p m st area : program fcd p → mem_at st p m → allowed m (QStart area) → does md fcd p m (QStart area) st.
Proof.
  intros Hp [Hin (h & Eh & Hh & Hst & _)] [Hlen [key Hkey]]. pose proof Hh as [Hn Hl Hf Hc]. cbn [area_of] in Hlen.
  destruct (start_any h (m_recs m) area key Hf ltac:(by rewrite Hl) Hkey Hc) as (h' & a & b & Hmv & Ha & Hrun).
  pose proof (head_moved _ _ _ Hh Hmv) as Hh'.
  assert (∀ r (b : bool), memfh_start area 0 h = (h', inr (r, b)) → memfh_cbl md (op_of (QStart area)) (set_rec area fcd) name st =
    (if b then set_start true (set_obj p h' st) else set_obj p h' st, inr (set_status (if b then ST_OK else ST_EOF) (set_rec r fcd)))) as Hgo.
  { intros r b' Hm. change (memfh_cbl md (op_of (QStart area)) ?f name) with (memfh_cbl_start f). unfold memfh_cbl_start.
    cbn [open_mode set_rec]. rewrite (not_closed _ _ _ _ Hp). rewrite (program_key _ _ _ Hp). erewrite bind_ok by done.
    cbn [file_id set_rec record]. rewrite (program_id _ _ Hp), (bind_ok _ _ _ _ _ (on_hdr_run _ _ _ _ _ _ Eh Hm)). by destruct b'. }
  unfold does. cbn [stops]. destruct m as [f pos b0]. cbn [m_recs m_start] in *. destruct b.
  - destruct (f !! _) as [[k r]|] eqn:E; [|done]. destruct Hrun as [Hrun Hcur]. eexists _, _, _. split; [exact (Hgo _ true Hrun)|].
    split; [by eapply ms_start|]. split; [by apply at_cursor|apply only_set].
  - destruct Hrun as (Hrun & Hnk & Hz). eexists _, _, _. split; [exact (Hgo _ false Hrun)|]. split; [by eapply ms_start_past|]. split; [by apply at_obj|apply only_obj].
Qed.

Lemma does_next md fcd p m st area : program fcd p → mem_at st p m → allowed m (QNext area) → does md fcd p m (QNext area) st.
Proof.
  intros Hp [Hin (h & Eh & Hh & Hst & Hpos)] [Hlen Hs]. destruct m as [f pos b]. cbn [m_recs m_pos m_start area_of] in *.
  pose proof Hh as [Hn Hl Hf Hc]. unfold does. cbn [stops].
  assert (memfh_cbl md (op_of (QNext area)) (set_rec area fcd) name st = memfh_cbl_next (set_rec area fcd) st) as E0 by done.
  unfold memfh_cbl_next in E0. cbn [open_mode set_rec] in E0. rewrite (not_closed _ _ _ _ Hp), (bind_ok _ _ _ _ _ (gets_run _ _)), Hst in E0. destruct b.
  - rewrite (bind_ok _ _ _ _ _ (modify_run _ _)) in E0. exists (set_start false st). eexists _, (mk_mfile f pos false). split; [exact E0|]. split; [apply ms_next_started|].
    split; [|by split_and!]. split; [done|]. by exists h.
  - destruct Hs as [?|[i ->]]; [done|].
    rewrite (program_key _ _ _ Hp) in E0. erewrite bind_ok in E0 by done. cbn [file_id set_rec record] in E0. rewrite (program_id _ _ Hp) in E0.
    destruct (memfh_next_aux h 0 comps f i area Hpos Hc ltac:(by rewrite Hl)) as (h' & Hrun & _ & Hmv).
    pose proof (head_moved _ _ _ Hh Hmv) as Hh'. destruct (f !! S i) as [[k r]|] eqn:E.
    + destruct Hrun as [Hrun Hcur']. rewrite (bind_ok _ _ _ _ _ (on_hdr_run _ _ _ _ _ _ Eh Hrun)) in E0. eexists _, _, _. split; [exact E0|].
      split; [by eapply ms_next|]. split; [by apply at_obj|apply only_obj].
    + rewrite (bind_ok _ _ _ _ _ (on_hdr_run _ _ _ _ _ _ Eh Hrun)) in E0. eexists _, _, _. split; [exact E0|].
      split; [by apply ms_next_end|]. split; [by apply at_obj|apply only_obj].
Qed.

Lemma mem_step_run md fcd st p m q : program fcd p → mem_at st p m → allowed m q → does md fcd p m q st.
Proof.
  intros Hp Hm Hq. destruct q as [area|area|area|area|area|area];
    [by apply does_read|by apply does_write|by apply does_rewrite|by apply does_start|by apply does_next|].
  exists st, (set_rec area fcd), m. split; [done|]. split; [|by split; [|apply only_refl]].
  destruct Hp as (_ & _ & Hs). cbn [status record set_rec]. rewrite Hs. apply ms_delete.
Qed.

(** ** A session *)

(** No other file of the table has the name. *)
Definition others_free (st : cbl_state) (p : Z) : Prop :=
  ∀ q, q ∈ used (hdrs st) → q ≠ p → ∃ h, objs st !! q = Some h ∧ cstr (h_filename h) ≠ cstr name.

(** The table while a program has the file open. *)
Record in_session (st : cbl_state) (p : Z) (m : mfile) : Prop := {
  is_ok : cbl_ok st;
  is_at : mem_at st p m;
  is_others : others_free st p;
  is_ptr : 0 < p < 2 ^ 32;
}.

(** The table between sessions: the file has its records, or is not there; and the flag of START. *)
Definition store (st : cbl_state) (fo : option file) (b : bool) : Prop :=
  match fo with
  | Some f => ∃ p, in_session st p (mk_mfile f None b)
  | None => cbl_ok st ∧ name_free st name ∧ (length (used (hdrs st)) < MAX_HDRS)%nat ∧ start st = b
  end.

(** The files of other names stay as they are. *)
Definition others_kept (st st' : cbl_state) : Prop := ∀ q h, q ∈ used (hdrs st) → objs st !! q = Some h →
  cstr (h_filename h) ≠ cstr name → q ∈ used (hdrs st') ∧ objs st' !! q = Some h.

#[local] Instance others_kept_preorder : PreOrder others_kept.
Proof.
  split; [done|]. intros s1 s2 s3 H1 H2 q h Hq Hh Hn. destruct (H1 q h Hq Hh Hn) as [Hq2 Hh2]. by apply H2.
Qed.

Lemma only_kept st st' p m : mem_at st p m → only_at p st st' → others_kept st st'.
Proof.
  intros [_ (h & Eh & Hh & _)] (Hl & _ & _ & Ho) q h' Hq Hh' Hn. rewrite Hl. split; [done|]. rewrite Ho; [done|].
  intros ->. destruct Hh as [Hname _ _ _]. rewrite Eh in Hh'. injection Hh' as <-. done.
Qed.

Lemma only_others st st' p : only_at p st st' → others_free st p → others_free st' p.
Proof. intros (Hl & _ & _ & Ho) H q Hq Hne. rewrite Hl in Hq. rewrite Ho by done. by apply H. Qed.

(** The requests of a program, one after the other: what each answers. *)
Fixpoint cbl_perform (md : Z) (fcd : fcd_t) (qs : list mem_req) : M cbl_state (list (bytes * bytes)) :=
  match qs with
  | [] => mret []
  | q :: qs' =>
      f ← memfh_cbl md (op_of q) (set_rec (area_of q) fcd) name;
      outs ← cbl_perform md fcd qs';
      mret ((status f, record f) :: outs)
  end.

Lemma request_run md fcd st p m q : program fcd p → in_session st p m → allowed m q →
  if stops m q then ∃ st', memfh_cbl md (op_of q) (set_rec (area_of q) fcd) name st = (st', inl Exit)
  else ∃ st' f m', memfh_cbl md (op_of q) (set_rec (area_of q) fcd) name st = (st', inr f) ∧
    mem_step m q (status f) (record f) m' ∧ in_session st' p m' ∧ others_kept st st' ∧ next_hdr st' = next_hdr st.
Proof.
  intros Hp [Hok Hat Hoth Hptr] Hq. pose proof (mem_step_run md fcd st p m q Hp Hat Hq) as Hd. unfold does in Hd. destruct (stops m q); [done|].
  destruct Hd as (st' & f & m' & E & Hs & Hat' & Hon).
  exists st', f, m'. split; [done|]. split; [done|]. split; [split; try done|split; [by eapply only_kept|apply Hon]].
  - eapply memfh_cbl_table_ok; [exact Hok|exact E|]. by destruct q.
  - by eapply only_others.
Qed.

Lemma mem_perform_run md fcd p qs : program fcd p → ∀ st m, in_session st p m → safe m qs →
  ∃ st' outs o, mem_run m qs outs o ∧ match o with
    | Some m' => cbl_perform md fcd qs st = (st', inr outs) ∧ in_session st' p m' ∧ others_kept st st' ∧ next_hdr st' = next_hdr st
    | None => cbl_perform md fcd qs st = (st', inl Exit) end.
Proof.
  intros Hp. induction qs as [|q qs IH]; intros st m Hs Hsafe.
  - exists st, [], (Some m). split; [constructor|]. by split; [|split].
  - destruct Hsafe as [Hq Hsafe]. pose proof (request_run md fcd st p m q Hp Hs Hq) as Hr. destruct (stops m q) eqn:Est.
    + destruct Hr as [st' E]. exists st', [], None. split; [by apply mr_stop|]. cbn [cbl_perform]. by rewrite (bind_err _ _ _ _ _ E).
    + destruct Hr as (st1 & f & m1 & E1 & Hstep & Hs1 & Hk1 & Hn1).
      destruct (IH st1 m1 Hs1 (Hsafe eq_refl _ _ _ Hstep)) as (st2 & outs & o & Hrun & H2).
      exists st2. eexists _, o. split; [by econstructor|]. cbn [cbl_perform]. rewrite (bind_ok _ _ _ _ _ E1). destruct o as [m2|].
      * destruct H2 as (E2 & Hs2 & Hk2 & Hn2). rewrite (bind_ok _ _ _ _ _ E2). split; [done|]. split; [done|]. split; [by etrans|congruence].
      * by rewrite (bind_err _ _ _ _ _ H2).
Qed.

(** *** The open *)

(** The control block of a program that wants the file: its key is the first one, of [comps]. *)
Record mem_block (fcd : fcd_t) : Prop := {
  mb_keys : ∃ rest, cbl_keys (kdb fcd) = Some (comps :: rest);
  mb_len : ∃ l, short_at (rec_len fcd) 0 = Some l ∧ 0 <= s16 l ∧ Z.to_nat (s16 l) = n;
  mb_key : key_id fcd = putshort 0;
  mb_kl : (key_len comps ≤ 256)%nat;
}.

Lemma used_in l p : p ∈ used l ↔ p ≠ 0 ∧ p ∈ l.
Proof. unfold used. by rewrite list_elem_of_filter. Qed.

Lemma find_name_at st p m : in_session st p m → find_name (hdrs st) (objs st) name = Some (Some p).
Proof.
  intros [[_ _ Hnd _ _ _] [Hin (h & Eh & [Hname _ _ _] & _)] Hoth Hptr].
  destruct (list_elem_of_split _ _ Hin) as (l1 & l2 & El). rewrite El in *. rewrite used_app, used_cons in *.
  destruct (decide (p = 0)); [lia|]. rewrite find_name_app.
  - cbn [find_name]. rewrite (proj2 (Z.eqb_neq _ _)) by done. rewrite Eh. cbn [mbind option_bind]. by rewrite bool_decide_true.
  - intros q Hq. apply Hoth; [rewrite El, used_app; apply elem_of_app; by left|]. intros ->.
    rewrite <-Permutation_middle in Hnd. apply NoDup_cons in Hnd as [Hni _]. apply Hni, elem_of_app. by left.
Qed.

Lemma capacity_room : (key_len comps ≤ 256)%nat → (0 < capacity (key_len comps))%nat.
Proof. intros H. pose proof (capacity_pos _ H). lia. Qed.

(** A new file, in the first free place of the table. *)
Lemma created_session st h : cbl_ok st → name_free st name → (length (used (hdrs st)) < MAX_HDRS)%nat → next_hdr st < 2 ^ 32 →
  head_at h [] → let p := next_hdr st in
  let st' := enter_hdr p (mk_cbl (hdrs st) (nhdrs st) (start st) (<[p := h]> (objs st)) (p + 1)) in
  in_session st' p (mk_mfile [] None (start st)) ∧ others_kept st st' ∧ next_hdr st' = p + 1.
Proof.
  intros Hok Hfree Hroom H32 Hh p st'. pose proof Hok as [Hlen Hcnt Hnd Hlive Hnext Hfresh].
  destruct (enter_find st name h Hok Hfree Hroom (ha_name _ _ Hh)) as (Hobjs & Hin & _). fold p st' in Hobjs, Hin.
  pose proof (enter_hdr_ok h st Hok) as Hok'. fold p st' in Hok'.
  assert (∀ q, q ∈ used (hdrs st) → q ≠ p) as Hne.
  { intros q Hq ->. destruct (Hlive _ Hq) as [h0 E0]. apply elem_of_dom_2, Hfresh in E0. unfold p in *. lia. }
  assert (∀ q, q ∈ used (hdrs st') ↔ q = p ∨ q ∈ used (hdrs st)) as Hused.
  { unfold st', enter_hdr. cbn [nhdrs hdrs].
    replace (if nhdrs st =? 0 then replicate MAX_HDRS 0 else hdrs st) with (hdrs st).
    2:{ destruct (Z.eqb_spec (nhdrs st) 0) as [E|]; [|done]. rewrite <-Hlen. apply used_zero, length_zero_iff_nil. lia. }
    rewrite <-Hlen in Hroom. destruct (first_free_some _ Hroom) as [i E]. rewrite E. apply first_free_spec in E as (l1 & l2 & El & <-).
    rewrite El, insert_app_r_alt, Nat.sub_diag by lia. cbn [hdrs set_table list_insert insert]. intros q. rewrite !used_app, !used_cons.
    destruct (decide (p = 0)); [unfold p in *; lia|]. rewrite decide_True by done. rewrite !elem_of_app, elem_of_cons. tauto. }
  split; [split|split].
  - done.
  - split; [done|]. exists h. rewrite Hobjs, lookup_insert_eq. split; [done|]. split; [done|]. split; [|done]. unfold st', enter_hdr. cbn [nhdrs hdrs]. by case_match.
  - intros q Hq Hqp. apply Hused in Hq as [->|Hq]; [done|]. rewrite Hobjs, lookup_insert_ne by done. by apply Hfree.
  - unfold p. lia.
  - intros q h0 Hq E _. rewrite Hused, Hobjs, lookup_insert_ne by (intros ->; by apply (Hne q)). by split; [right|].
  - unfold st', enter_hdr. cbn [nhdrs hdrs]. by case_match.
Qed.

Lemma open_run md fcd st fo b : store st fo b → mem_block fcd → next_hdr st < 2 ^ 32 →
  ∃ st' p om, memfh_cbl md OP_OPEN_IO fcd name st = (st', inr (opened fcd om p)) ∧ program (opened fcd om p) p ∧
    in_session st' p (mk_mfile (default [] fo) None b) ∧ others_kept st st' ∧ next_hdr st' <= next_hdr st + 1.
Proof.
  intros Hst [(rest & Hkeys) (l & El & Hl0 & Hln) Hkey Hkl] H32.
  change (memfh_cbl md OP_OPEN_IO fcd name) with (memfh_cbl_open_io fcd name). unfold memfh_cbl_open_io.
  rewrite (bind_ok _ _ _ _ _ (gets_run id st)). unfold id.
  assert (∀ p om, om ≠ 128 → 0 < p < 2 ^ 32 → program (opened fcd om p) p) as Hprog.
  { intros p om Ho Hp. split; [split; [done|apply getint_opened; lia]|done]. }
  destruct fo as [f|]; cbn [store default] in *.
  - destruct Hst as [p Hs]. rewrite (find_name_at _ _ _ Hs). erewrite bind_ok by done.
    exists st, p, 1. split; [done|]. split; [apply Hprog; [done|apply Hs]|]. split; [done|]. split; [done|lia].
  - destruct Hst as (Hok & Hfree & Hroom & <-). rewrite find_name_free by done. erewrite bind_ok by done.
    cbv iota. rewrite (memfh_cbl_open_output_run _ _ _ _ _ El Hl0 Hkeys), Hln.
    destruct (created_session st (memfh_open name n (comps :: rest)) Hok Hfree Hroom H32) as (Hs & Hk & Hn).
    { split; [done|done|apply memfh_open_file|by apply capacity_room]. }
    eexists _, _, 2. split; [done|]. split; [apply Hprog; [done|apply Hs]|]. split; [done|]. split; [done|]. rewrite Hn. lia.
Qed.

(** *** The close *)

(** In mode F the file is freed. *)
Lemma dropped_store st p m i h : in_session st p m → find_hdr (hdrs st) p = Some i →
  store (drop_hdr i p (set_obj p h st)) None (m_start m) ∧ others_kept st (drop_hdr i p (set_obj p h st)).
Proof.
  intros [Hok [Hin (h0 & Eh & [Hname _ _ _] & Hflag & _)] Hoth Hptr] Hi. pose proof Hok as [Hlen Hcnt Hnd Hlive Hnext Hfresh].
  pose proof (find_hdr_spec _ _ _ Hi) as (l1 & l2 & El & <-).
  assert (cbl_ok (set_obj p h st)) as Hok1.
  { eapply (proj1 (on_hdr_ok p (modify (λ _, h)) st _ _ (on_hdr_run _ _ _ _ _ _ Eh (modify_run _ _)) Hok)). }
  assert (hdrs (drop_hdr (length l1) p (set_obj p h st)) = l1 ++ 0 :: l2) as Eh'.
  { unfold drop_hdr. cbn [hdrs set_obj]. by rewrite El, insert_app_r_alt, Nat.sub_diag by lia. }
  rewrite El, used_app, used_cons in Hnd. destruct (decide (p = 0)); [lia|]. rewrite <-Permutation_middle in Hnd.
  apply NoDup_cons in Hnd as [Hni _].
  assert (∀ q, q ∈ used (l1 ++ 0 :: l2) ↔ q ∈ used (hdrs st) ∧ q ≠ p) as Hused.
  { intros q. rewrite El, !used_app, !used_cons, decide_True, decide_False by done. rewrite !elem_of_app, elem_of_cons. split; [|tauto].
    intros Hq. split; [tauto|]. intros ->. by apply Hni, elem_of_app. }
  unfold store. rewrite Eh'. split; [split; [|split; [|split; [|exact Hflag]]]|].
  - apply drop_hdr_ok; [done|lia|exact Hi].
  - intros q Hq. rewrite Eh' in Hq. apply Hused in Hq as [Hq Hne]. destruct (Hoth q Hq Hne) as (hq & Eq & Hnq).
    exists hq. cbn [objs drop_hdr set_obj]. by rewrite lookup_delete_ne, lookup_insert_ne by done.
  - rewrite El, length_app in Hlen. cbn [length] in Hlen. rewrite used_app, used_cons, decide_True, length_app by done. unfold used.
    pose proof (length_filter (λ p, p ≠ 0) l1). pose proof (length_filter (λ p, p ≠ 0) l2). lia.
  - intros q hq Hq Ehq Hnq. assert (q ≠ p) as Hne by (intros ->; congruence). rewrite Eh'. split; [by apply Hused|].
    cbn [objs drop_hdr set_obj]. by rewrite lookup_delete_ne, lookup_insert_ne by done.
Qed.

(** What is left of a file after a session in mode [md]. *)
Definition left_by (md : Z) (f : file) : option file := if md =? ch "F" then None else Some f.

Lemma close_run md fcd st p m : program fcd p → in_session st p m →
  ∃ st', memfh_cbl md OP_CLOSE fcd name st = (st', inr (set_open_mode 128 (set_status ST_OK fcd))) ∧
    store st' (left_by md (m_recs m)) (m_start m) ∧ others_kept st st' ∧ next_hdr st' = next_hdr st.
Proof.
  intros Hp Hs. change (memfh_cbl md OP_CLOSE fcd name) with (memfh_cbl_close fcd (md =? ch "F")). unfold memfh_cbl_close, left_by.
  rewrite (not_closed _ _ _ _ Hp). cbv zeta. destruct (md =? ch "F"); cbn [negb]; cbv iota.
  - rewrite (program_id _ _ Hp). pose proof Hs as [_ [Hin (h & Eh & _)] _ Hptr].
    rewrite (bind_ok _ _ _ _ _ (gets_run id st)). unfold id. destruct (find_hdr_some _ _ Hin) as [i Hi]. rewrite Hi.
    rewrite (proj2 (Z.eqb_neq p 0)) by lia. rewrite (bind_ok _ _ _ _ _ (on_hdr_run _ _ _ _ _ _ Eh (modify_run memfh_close h))).
    rewrite (bind_ok _ _ _ _ _ (modify_run _ _)). destruct (dropped_store st p m i (memfh_close h) Hs Hi) as [H1 H2].
    eexists. split; [done|]. by split; [|split].
  - exists st. split; [done|]. split; [|done]. destruct Hs as [Hok [Hin (h & Eh & Hh & Hflag & _)] Hoth Hptr].
    exists p. split; [done| |done|done]. split; [done|]. exists h. by split_and!.
Qed.

End session.
