(* ===== verification/System.v ===== *)
(** The whole file handler: the dispatcher of src/pqfh.c over the operations on tables, the
    memory files, the JSON files and the ISAM file handler, with one state. *)

From stdpp Require Import prelude gmap strings.
From S2P Require Import Prelude Fhtypes Fcd Table Kdb Libpq Meta DbRead DbWrite Command JsonFile MemfhCbl Pqfh.
Local Open Scope Z_scope.

(** ** The state *)

(** The database side with the ISAM files, the heap of JSON documents, the memory files. *)
Record parts (D W : Type) := mk_parts { y_ms : mst D W; y_json : jheap; y_mem : cbl_state }.
Arguments mk_parts {D W}.
Arguments y_ms {D W}.
Arguments y_json {D W}.
Arguments y_mem {D W}.

(** The globals of src/pqfh.c that the operations share: they are the same variables. *)
Definition push (g : globals) (d : globals_db) : globals_db :=
  set_d_mode (g_mode g) (set_d_table_mode (g_table_mode g) (set_d_lock (g_locked g) (set_d_lock_manual (g_lock_manual g)
    (set_d_force_partial (g_force_partial g) (set_d_fatal (g_fatal g) d))))).
Definition pull (d : globals_db) (g : globals) : globals :=
  mk_gl (d_mode d) (d_table_mode d) (g_stlog g) (d_force_partial d) (d_lock_manual d) (g_conn g) (d_fatal d) (g_replica g) (d_lock d).

Definition put_conn (b : bool) (g : globals) : globals :=
  mk_gl (g_mode g) (g_table_mode g) (g_stlog g) (g_force_partial g) (g_lock_manual g) b (g_fatal g) (g_replica g) (g_locked g).

Section system.
Context {D W : Type} `{!Libpq D, !DbCalls D, !Extfh W}.

(** The environment; the file [.pqfh]; whether the connection can be made; the texts of the
    JSON files; the time of the call; the fuel of the catalog queries. *)
Context (env : env_t) (config : option bytes) (connects log_ok : bool) (text_of_file : bytes → option bytes) (ts : bytes) (fuel : nat).
Notation st := (sys (parts D W)).

Definition with_db (g : globals) (w : parts D W) : mst D W :=
  let m := y_ms w in
  let d := m_db m in
  mk_ms (mk_dbs (conn d) (push g (gdb d)) (tabs d) (tabs_brk d)) (m_isam m) (m_fcd01 m) (m_fcd02 m) (m_replica m).

Definition on_ms {A} (m : M (mst D W) A) : M st A := λ s,
  let (x, r) := m (with_db (gl s) (world s)) in
  (mk_sys (pull (gdb (m_db x)) (gl s)) (mk_parts x (y_json (world s)) (y_mem (world s))), r).
Definition on_dbs {A} (m : M (dbs D) A) : M st A := on_ms (on_db m).
Definition on_json {A} (m : M jheap A) : M st A := λ s,
  let (j, r) := m (y_json (world s)) in (mk_sys (gl s) (mk_parts (y_ms (world s)) j (y_mem (world s))), r).
Definition on_mem {A} (m : M cbl_state A) : M st A := λ s,
  let (c, r) := m (y_mem (world s)) in (mk_sys (gl s) (mk_parts (y_ms (world s)) (y_json (world s)) c), r).

(** src/pqfh.c:704-741 pqfh (the connection): the connection of the replica is part of the
    interface [DbCalls]. *)
Definition connect_db : M st unit :=
  if negb connects then stop Exit
  else
    res ← on_dbs (pq (PQexec (bs "set client_encoding to 'latin1'")));
    if negb (is_command_ok res) then stop Exit
    else
      res ← on_dbs (pq (PQexec (bs "BEGIN")));
      if negb (is_command_ok res) then stop Exit
      else modify (λ s, mk_sys (put_conn true (gl s)) (world s)).

(** src/pqfh.c:185-206 unlock : the advisory lock is never taken. *)
Definition unlock (fcd : fcd_t) : M (dbs D) fcd_t :=
  t ← tab_at (getint (file_id fcd));
  pq (PQexec (bs "SELECT pg_advisory_unlock(" ++ fmt_d (t_oid t) ++ bs ", 0)"));;
  setd (λ g, set_d_pending (d_pending g + 1) g);;
  mret fcd.

(** The handlers of the dispatcher are the operations of the other files. *)
#[global] Instance system : Handlers (parts D W) := {|
  h_pqfh_file := λ _, config;
  EXTFH := λ op fcd, on_ms (on_files (extfh op fcd));
  h_json := λ filename op fcd, on_json (op_json text_of_file filename op fcd);
  h_memfh := λ md op fcd filename, on_mem (memfh_cbl md op fcd filename);
  h_connect := connect_db;
  h_commit := on_dbs pqfh_commit;
  h_replica_commit := mret tt;
  h_open := λ fcd op, on_ms (op_open env fuel ts fcd op);
  h_close := λ fcd, on_dbs (op_close fcd);
  h_start := λ fcd op, on_dbs (op_start log_ok fcd op);
  h_next_prev := λ fcd dir, on_dbs (op_next_prev fcd dir);
  h_read_random := λ fcd with_lock, on_dbs (op_read_random log_ok fcd);
  h_unlock := λ fcd, on_dbs (unlock fcd);
  h_rewrite := λ fcd, on_dbs (op_rewrite log_ok fcd);
  h_write := λ fcd, on_dbs (op_write log_ok fcd);
  h_delete := λ fcd, on_dbs (op_delete log_ok fcd);
  h_delete_file := λ fcd, on_ms (op_delete_file env fuel ts fcd);
|}.

End system.
