(* ===== verification/SystemSpec.v ===== *)
(** What the whole handler guarantees: in mode B the calls of the dispatcher (src/pqfh.c)
    on an open table behave as an indexed file, and touch nothing else. *)

From stdpp Require Import prelude gmap strings.
From S2P Require Import Prelude Fhtypes Fcd Table Kdb Libpq Meta DbRead DbWrite Sql DbRows DbSession DbSpec MetaSpec JsonFile MemfhCbl Pqfh PqfhSpec System.
Local Open Scope Z_scope.

(** ** A call in mode B *)

Section mode_b.
Context {W : Type} `{!Handlers W} (n : nat).

(** Only the operation on the database runs, with the mutex held. *)
Lemma stages_b op filename fcd (s s2 : sys W) fcd2 : g_fatal (gl s) = false → g_locked (gl s) = false → isam fcd ≠ ch "S" →
  do_op op None n fcd (held (chosen "B" s)) = (s2, inr fcd2) →
  stages n op filename fcd (chosen "B" s) = (mk_sys (put_locked false (gl s2)) (world s2), inr fcd2).
Proof.
  intros Hf Hl Hi Hrun. destruct (chosen_flags "B" s) as (Hm & Hf' & Hl' & _). unfold stages.
  erewrite bind_ok by (apply (isam_stage_skip "B"); auto). cbv beta iota.
  erewrite bind_ok; last first.
  { unfold mode_a_stage. rewrite (bind_ok _ _ _ _ _ (is_mode_run _ _)), Hm. done. }
  cbv beta iota. apply bracket_run; [by rewrite Hf'|by rewrite Hl'|exact Hrun].
Qed.

Lemma call_b op fcd (s : sys W) filename s2 fcd2 : call n "B" fcd s filename → plain_op op = true →
  do_op op None n fcd (held (chosen "B" s)) = (s2, inr fcd2) →
  pqfh op fcd s = (mk_sys (put_locked false (gl s2)) (world s2), inr fcd2).
Proof.
  intros Hc Hop Hrun. pose proof Hc as [_ _ _ _ Hi _ Hf Hl _ _ _ _].
  rewrite (pqfh_prologue n "B" op fcd s filename) by auto. by apply stages_b.
Qed.

(** An open in the mode of the file [.pqfh]: the control block of a closed file gives none. *)
Definition opening (fcd : fcd_t) : fcd_t := set_isam 0 (set_mode 0 fcd).

Lemma is_open_cases op : is_open op = true → op = OP_OPEN_INPUT ∨ op = OP_OPEN_OUTPUT ∨ op = OP_OPEN_EXTEND ∨ op = OP_OPEN_IO.
Proof. unfold is_open. rewrite !orb_true_iff, !Z.eqb_eq. tauto. Qed.

Lemma open_chosen op fcd (s : sys W) : is_open op = true → open_mode fcd = 128 → g_table_mode (gl s) = 0 →
  call_mode (opening fcd) s = ch "B" →
  choose_mode op fcd (mk_sys (get_mode (h_pqfh_file (world s)) (gl s)) (world s)) = (chosen "B" s, inr (opening fcd)).
Proof.
  intros Hops%is_open_cases Ho Ht Hm. unfold choose_mode. rewrite (bind_ok (get_g g_table_mode) _ _ _ _ eq_refl). cbn [gl]. rewrite Ho.
  assert (g_table_mode (get_mode (h_pqfh_file (world s)) (gl s)) = 0) as ->.
  { unfold get_mode. destruct (h_pqfh_file _); [|done]. by repeat case_match. }
  assert ((OP_OPEN_INPUT <=? op) && (op <=? OP_OPEN_EXTEND) && (128 =? 128) = true) as -> by (by destruct Hops as [->|[->|[->| ->]]]).
  apply (mode_chosen "B"); [tauto|done].
Qed.

Lemma call_open op fcd (s : sys W) filename s2 fcd2 : is_open op = true → open_mode fcd = 128 → g_table_mode (gl s) = 0 →
  call_name fcd = Some (fcd, filename) → call n "B" (opening fcd) s filename →
  do_op op None n (opening fcd) (held (chosen "B" s)) = (s2, inr fcd2) →
  pqfh op fcd s = (mk_sys (put_locked false (gl s2)) (world s2), inr fcd2).
Proof.
  intros Hop Ho Ht Hname [_ Hj _ Hm Hi Hc Hf Hl _ Hlen _ _] Hrun.
  rewrite (pqfh_chosen n "B" op fcd (opening fcd) s filename); try done; try tauto.
  - by apply stages_b.
  - by destruct (is_open_cases _ Hop) as [->|[->|[->| ->]]].
  - left. done.
  - by apply open_chosen.
Qed.

(** The first open of a program is that of the connected state. *)
Lemma first_open op fcd (s s' : sys W) filename : is_open op = true → open_mode fcd = 128 → call_name fcd = Some (fcd, filename) →
  memeq filename (bs "JSON:") 5 = false → Z.to_nat (s16 (getshort (rec_len fcd))) = n →
  g_table_mode (gl s) = 0 → g_table_mode (gl s') = 0 → call_mode (opening fcd) s = ch "B" → call_mode (opening fcd) s' = ch "B" →
  g_conn (gl s) = false → g_conn (gl s') = true → h_connect (chosen "B" s) = (chosen "B" s', inr tt) → pqfh op fcd s = pqfh op fcd s'.
Proof.
  intros Hop Ho Hname Hj Hlen Ht Ht' Hm Hm' Hc Hc' Hcon.
  assert (op ≠ OP_COMMIT) as Hcom by (by destruct (is_open_cases _ Hop) as [->|[->|[->| ->]]]).
  rewrite (pqfh_entry n "B" op fcd (opening fcd) s filename), (pqfh_entry n "B" op fcd (opening fcd) s' filename); try done; try tauto;
    try (by left); try by apply open_chosen. rewrite Hc, Hc'. exact (bind_ok _ _ _ _ _ Hcon).
Qed.

(** The open and the close in mode B are those of the table. *)
Lemma do_open_b op fcd (s s2 : sys W) f : is_open op = true → g_mode (gl s) = ch "B" → g_mode (gl s2) = ch "B" → isam f ≠ ch "S" →
  h_open fcd op s = (s2, inr (f, false)) → do_op op None n fcd s = (s2, inr f).
Proof.
  intros Hop Hm Hm2 Hi H. unfold do_op. rewrite Hop. unfold do_open.
  rewrite (bind_ok _ _ _ _ _ (is_mode_run _ _)), Hm. change (ch "B" =? ch "W") with false. rewrite andb_false_r. cbv iota zeta.
  rewrite (bind_ok _ _ _ _ _ H). cbn [fst snd].
  rewrite (bind_ok _ _ _ _ _ (is_mode_run _ _)), Hm2. change (ch "B" =? ch "W") with false. cbv iota.
  rewrite (proj2 (Z.eqb_neq _ _) Hi). by rewrite (bind_ok _ _ _ _ _ (is_mode_run _ _)), Hm2.
Qed.

Lemma do_close_b fcd (s s2 : sys W) f : g_mode (gl s) = ch "B" → g_mode (gl s2) = ch "B" →
  h_close fcd s = (s2, inr (f, false)) → do_op OP_CLOSE None n fcd s = (s2, inr f).
Proof.
  intros Hm Hm2 H. change (do_op OP_CLOSE None n fcd) with (do_close OP_CLOSE (take 2 (status fcd)) (open_mode fcd) fcd). unfold do_close.
  rewrite (bind_ok _ _ _ _ _ (is_mode_run _ _)), Hm. change (ch "B" =? ch "W") with false. cbv iota zeta.
  rewrite (bind_ok _ _ _ _ _ H). cbn [fst snd].
  rewrite !(bind_ok _ _ _ _ _ (is_mode_run _ _)), Hm2. change (ch "B" =? ch "W") with false. cbv iota.
  by rewrite (bind_ok _ _ _ _ _ (is_mode_run _ _)), Hm2.
Qed.

(** What an update leaves to the dispatcher in mode B: nothing. *)
Lemma replica_end_run fcd (s : sys W) : g_replica (gl s) = false → replica_end fcd s = (s, inr fcd).
Proof. intros H. unfold replica_end. by rewrite (bind_ok (get_g g_replica) _ s _ _ eq_refl), H. Qed.

Lemma do_write_b st fcd (s s2 : sys W) f b : g_mode (gl s2) = ch "B" → g_replica (gl s2) = false →
  h_write fcd s = (s2, inr (f, b)) → do_write st fcd s = (s2, inr f).
Proof.
  intros Hm Hr H. unfold do_write. rewrite (bind_ok _ _ _ _ _ H). cbn [fst snd].
  rewrite (bind_ok _ _ _ _ _ (is_mode_run _ _)), Hm. change (ch "B" =? ch "W") with false. cbv iota. destruct b; [done|].
  rewrite (bind_ok _ _ _ _ _ (is_mode_run _ _)), Hm. by apply replica_end_run.
Qed.

Lemma do_rewrite_b op st undo fcd (s s2 : sys W) f b : g_mode (gl s2) = ch "B" → g_replica (gl s2) = false →
  h_rewrite fcd s = (s2, inr (f, b)) → do_rewrite op st undo n fcd s = (s2, inr f).
Proof.
  intros Hm Hr H. unfold do_rewrite. rewrite (bind_ok _ _ _ _ _ H). cbn [fst snd].
  rewrite !(bind_ok _ _ _ _ _ (is_mode_run _ _)), Hm. change (ch "B" =? ch "W") with false. cbv iota.
  rewrite (bind_ok _ _ _ _ _ (is_mode_run _ _)), Hm. by apply replica_end_run.
Qed.

Lemma do_delete_b st fcd (s s2 : sys W) f : g_mode (gl s2) = ch "B" → g_replica (gl s2) = false →
  h_delete fcd s = (s2, inr f) → do_delete st n fcd s = (s2, inr f).
Proof.
  intros Hm Hr H. unfold do_delete. rewrite (bind_ok _ _ _ _ _ H).
  rewrite !(bind_ok _ _ _ _ _ (is_mode_run _ _)), Hm. change (ch "B" =? ch "W") with false. cbv iota.
  rewrite (bind_ok _ _ _ _ _ (is_mode_run _ _)), Hm. by apply replica_end_run.
Qed.

End mode_b.

(** ** The table behind the dispatcher *)

Section table.
Context {D W : Type} `{!Libpq D, !DbCalls D, !Extfh W}.
Context (env : env_t) (config : option bytes) (connects log_ok : bool) (text_of_file : bytes → option bytes) (fuel : nat).
Context {schema name : bytes} {cols : list column_t} {keys : list key_t}.
Context `{P : !PgTable D schema name cols keys} (ts : bytes).
Context (Hwf : file_wf (schema:=schema) (name:=name) (cols:=cols) (keys:=keys) ts).

#[local] Instance handlers : Handlers (parts D W) := system env config connects log_ok text_of_file ts fuel.
Notation st := (sys (parts D W)).
Notation frame := (frame (PgTable0:=P)).
Notation file_ok := (file_ok (P:=P) ts).
Notation cols_at := (cols_at (cols:=cols)).

(** The program's state as the operations see it. *)
Definition db_of (s : st) : dbs D := m_db (with_db (gl s) (world s)).

(** The state after an operation on the database side. *)
Definition put_db (s : st) (x : dbs D) : st :=
  let m := y_ms (world s) in
  mk_sys (pull (gdb x) (gl s)) (mk_parts (mk_ms x (m_isam m) (m_fcd01 m) (m_fcd02 m) (m_replica m)) (y_json (world s)) (y_mem (world s))).

Lemma on_dbs_run {A} (m : M (dbs D) A) (s : st) x r : m (db_of s) = (x, inr r) → on_dbs m s = (put_db s x, inr r).
Proof. intros H. unfold on_dbs, on_ms. by rewrite (on_db_run _ _ _ _ H). Qed.

(** An operation that keeps the shared globals leaves those of the dispatcher. *)
Lemma put_db_gl (s : st) a x : g_fatal (gl s) = false → frame a (db_of s) x → gl (put_db s x) = gl s.
Proof.
  intros Hf (_ & (_ & _ & G3 & G4 & G5) & _). unfold put_db, pull. cbn [gl].
  unfold shared, db_of, with_db, push in *. cbn in *. injection G4 as -> -> -> ->. rewrite G3, (G5 Hf). by destruct (gl s) as [? ? ? ? ? ? [] ? ?].
Qed.

(** The other parts of the program. *)
Definition others (s : st) : W * option fcd_t * option fcd_t * jheap * cbl_state :=
  let m := y_ms (world s) in (m_isam m, m_fcd01 m, m_fcd02 m, y_json (world s), y_mem (world s)).

(** The table at [a] is that of the file with records [recs]. *)
Definition table_ok (s : st) (a : Z) (recs : list bytes) : Prop := file_ok (m_db (y_ms (world s))) a recs.

Lemma file_ok_gdb (s : dbs D) g a recs : d_partial_weak g = d_partial_weak (gdb s) → d_erros g = d_erros (gdb s) →
  file_ok s a recs ↔ file_ok (mk_dbs (conn s) g (tabs s) (tabs_brk s)) a recs.
Proof. intros H1 H2. unfold DbSpec.file_ok, sess_ok. cbn [conn gdb tabs]. by rewrite H1, H2. Qed.

Lemma table_db (s : st) a recs : table_ok s a recs ↔ file_ok (db_of s) a recs.
Proof. apply file_ok_gdb; done. Qed.

Lemma table_put (s : st) x a recs : file_ok x a recs → table_ok (put_db s x) a recs.
Proof. done. Qed.

(** ** Requests through the dispatcher *)

(** The calls with a control block for the table at [a], in a state of the program. *)
Definition calls_sys (md : string) (fcd : fcd_t) (s : st) (a : Z) (filename : bytes) : Prop :=
  ∀ area, length area = cols_len cols →
    call (cols_len cols) md (set_rec area fcd) s filename ∧ call_ok (cols:=cols) (set_rec area fcd) a.

(** A request as a call of the dispatcher, with the file control block [fcd]. *)
Definition sys_perform (fcd : fcd_t) (q : request) : M st fcd_t :=
  match q with
  | RRead k area => pqfh OP_READ_RANDOM (set_key_id (putshort (Z.of_nat k)) (set_rec area fcd))
  | RWrite area => pqfh OP_WRITE (set_rec area fcd)
  | RRewrite area => pqfh OP_REWRITE (set_rec area fcd)
  | RDelete k area => pqfh OP_DELETE (set_key_id (putshort (Z.of_nat k)) (set_rec area fcd))
  end.

Lemma call_key n md fcd (s : st) filename k : call n md fcd s filename → call n md (set_key_id k fcd) s filename.
Proof.
  intros [C1 ? ? ? ? ? ? ? ? ? ? ?]. split; try done. revert C1. unfold call_name. cbn [file_name file_name_len set_key_id].
  destruct (sub_bytes _ _ _) as [f|]; [|done]. cbn [mbind option_bind]. case_match; [|done]. case_match; [|by intros [= <-]].
  intros E0. assert (set_file_name_len (putshort 256) fcd = fcd) as E by congruence. assert (take 256 f = filename) as -> by congruence.
  f_equal. f_equal. change (set_key_id k (set_file_name_len (putshort 256) fcd) = set_key_id k fcd). by rewrite E.
Qed.

(** The request in mode B is the operation on the table. *)
Lemma sys_perform_run fcd q (s : st) a filename x f : calls_sys "B" fcd s a filename → request_ok (cols:=cols) (keys:=keys) q →
  perform log_ok fcd q (db_of (held (chosen "B" s))) = (x, inr f) → frame a (db_of (held (chosen "B" s))) x →
  let s2 := put_db (held (chosen "B" s)) x in
  sys_perform fcd q s = (mk_sys (put_locked false (gl s2)) (world s2), inr f) ∧ gl s2 = gl (held (chosen "B" s)).
Proof.
  intros Hcall Hq Hrun Hfr. cbv zeta. set (s1 := held (chosen "B" s)) in *.
  assert (∀ area : bytes, length area = cols_len cols → g_fatal (gl s1) = false ∧ g_mode (gl s1) = ch "B" ∧ g_replica (gl s1) = false) as Hg.
  { intros area Ha. destruct (Hcall area Ha) as [[_ _ _ _ _ _ Hf _ Hr _ _ _] _].
    destruct (chosen_flags "B" s) as (Hm & Hf' & _ & Hr').
    change (g_fatal (gl (chosen "B" s)) = false ∧ g_mode (gl (chosen "B" s)) = ch "B" ∧ g_replica (gl (chosen "B" s)) = false).
    by rewrite Hf', Hr'. }
  destruct (Hg (replicate (cols_len cols) 0) ltac:(apply length_replicate)) as (Hf & Hm & Hr). pose proof (put_db_gl s1 a x Hf Hfr) as Hgl. split; [|exact Hgl].
  assert (∀ op fcd', plain_op op = true → call (cols_len cols) "B" fcd' s filename →
    do_op op None (cols_len cols) fcd' s1 = (put_db s1 x, inr f) →
    pqfh op fcd' s = (mk_sys (put_locked false (gl (put_db s1 x))) (world (put_db s1 x)), inr f)) as Hgo.
  { intros op fcd' Hop Hc Hdo. by eapply call_b. }
  pose proof Hm as Hm2. pose proof Hr as Hr2. rewrite <-Hgl in Hm2, Hr2.
  assert (ch "B" =? ch "W" = false) as HBW by done.
  destruct q as [k area|area|area|k area]; cbn [sys_perform perform request_ok] in *; (apply Hgo; [done| |]).
  - apply call_key, Hcall, Hq.
  - change (do_read OP_READ_RANDOM (set_key_id (putshort (Z.of_nat k)) (set_rec area fcd)) s1 = (put_db s1 x, inr f)).
    unfold do_read. rewrite (bind_ok _ _ _ _ _ (is_mode_run _ _)), Hm. by apply on_dbs_run.
  - apply Hcall, Hq.
  - destruct (op_write log_ok (set_rec area fcd) (db_of s1)) as [y [e|[g b]]] eqn:E; unfold mbind, M_bind in Hrun; rewrite E in Hrun; [done|].
    injection Hrun as -> ->. apply (do_write_b _ _ s1 _ _ b Hm2 Hr2), on_dbs_run, E.
  - apply Hcall, Hq.
  - destruct (op_rewrite log_ok (set_rec area fcd) (db_of s1)) as [y [e|[g b]]] eqn:E; unfold mbind, M_bind in Hrun; rewrite E in Hrun; [done|].
    injection Hrun as -> ->. apply (do_rewrite_b _ _ _ _ _ s1 _ _ b Hm2 Hr2), on_dbs_run, E.
  - apply call_key, Hcall, Hq.
  - by apply (do_delete_b _ _ _ s1 _ _ Hm2 Hr2), on_dbs_run.
Qed.

(** What the next call needs of the globals. *)
Definition flags (g : globals) : bool * bool * bool * bool := (g_conn g, g_fatal g, g_locked g, g_replica g).

Lemma call_mode_any fcd (s s' : st) : call_mode fcd s' = call_mode fcd s.
Proof. unfold call_mode, get_mode. cbn [h_pqfh_file system handlers]. by destruct config; repeat case_match. Qed.

Lemma calls_flags md fcd (s s' : st) a filename : flags (gl s') = flags (gl s) → calls_sys md fcd s a filename → calls_sys md fcd s' a filename.
Proof.
  intros E H area Ha. destruct (H area Ha) as [[? ? ? Hm ? ? ? ? ? ? ? ?] Hc]. split; [|done]. unfold flags in E.
  injection E as E1 E2 E3 E4. split; try congruence. rewrite <-Hm. apply call_mode_any.
Qed.

Lemma chosen_locked md (s : st) : g_locked (gl s) = false → flags (put_locked false (gl (held (chosen md s)))) = flags (gl s).
Proof.
  intros Hl. destruct (chosen_flags md s) as (_ & Hf & _ & Hr). pose proof (chosen_conn md s) as Hc. unfold flags.
  change ((g_conn (gl (chosen md s)), g_fatal (gl (chosen md s)), false, g_replica (gl (chosen md s))) = flags (gl s)).
  unfold flags. by rewrite Hc, Hf, Hr, Hl.
Qed.

(** The cursors and what the reads along them depend on. *)
Definition still (a : Z) (s s' : st) : Prop :=
  (∀ m, pg_cursor (conn (m_db (y_ms (world s')))) m = pg_cursor (conn (m_db (y_ms (world s)))) m) ∧
  ∃ t t', tabs (m_db (y_ms (world s))) !! a = Some t ∧ tabs (m_db (y_ms (world s'))) !! a = Some t' ∧ scan_same t t'.

Lemma still_refl a (s : st) recs : table_ok s a recs → still a s s.
Proof. intros [[t (Ht & _)] _]. split; [done|]. exists t, t. by split_and!. Qed.

Lemma still_trans a (s1 s2 s3 : st) : still a s1 s2 → still a s2 s3 → still a s1 s3.
Proof.
  intros (C1 & t1 & t2 & T1 & T2 & (A1 & A2 & A3 & A4)) (C2 & t2' & t3 & T2' & T3 & (B1 & B2 & B3 & B4)).
  assert (t2' = t2) as -> by congruence. split; [intros m; by rewrite C2|].
  exists t1, t3. split_and!; try congruence. split_and!; try congruence. auto.
Qed.

Lemma sys_step fcd q (s : st) a filename recs : table_ok s a recs → calls_sys "B" fcd s a filename →
  request_ok (cols:=cols) (keys:=keys) q → (∀ c, c ∈ pk_cols (cols:=cols) (keys:=keys) → is_num c = true → col_dec c = 0%nat) →
  ∃ s' f recs', sys_perform fcd q s = (s', inr f) ∧
    file_step (cols:=cols) (keys:=keys) recs q (status f) (record f) recs' ∧ table_ok s' a recs' ∧
    others s' = others s ∧ flags (gl s') = flags (gl s) ∧ still a s s'.
Proof.
  intros Hs Hcall Hq Hdec. set (s1 := held (chosen "B" s)).
  assert (file_ok (db_of s1) a recs) as Hs1 by (apply table_db; exact Hs).
  destruct (perform_run log_ok ts Hwf (db_of s1) a recs fcd q Hs1) as (x & f & recs' & E & Hstep & Hx & Hfr); [|done..|].
  { intros area Ha. by apply Hcall. }
  destruct (sys_perform_run fcd q s a filename x f Hcall Hq E Hfr) as [Hrun Hg]. fold s1 in Hrun, Hg.
  eexists _, f, recs'. split; [exact Hrun|]. split; [done|]. split; [exact Hx|]. split; [done|]. split; [|by destruct Hfr as (Hc & _ & Ht)].
  cbn [gl]. rewrite Hg. apply chosen_locked. by destruct (Hcall (replicate (cols_len cols) 0) ltac:(apply length_replicate)) as [[] _].
Qed.

(** A session of calls: the status and the record area after each. *)
Fixpoint sys_perform_all (fcd : fcd_t) (qs : list request) : M st (list (bytes * bytes)) :=
  match qs with
  | [] => mret []
  | q :: qs' =>
      f ← sys_perform fcd q;
      outs ← sys_perform_all fcd qs';
      mret ((status f, record f) :: outs)
  end.

Lemma sys_perform_all_run (s : st) a filename recs fcd qs :
  table_ok s a recs → Forall (request_ok (cols:=cols) (keys:=keys)) qs → calls_sys "B" fcd s a filename →
  (∀ c, c ∈ pk_cols (cols:=cols) (keys:=keys) → is_num c = true → col_dec c = 0%nat) →
  ∃ s' outs recs', sys_perform_all fcd qs s = (s', inr outs) ∧ file_run (cols:=cols) (keys:=keys) recs qs outs recs' ∧
    table_ok s' a recs' ∧ others s' = others s ∧ flags (gl s') = flags (gl s) ∧ still a s s'.
Proof.
  intros Hs Hqs Hcall Hdec. revert s recs Hs Hcall. induction Hqs as [|q qs Hq _ IH]; intros s recs Hs Hcall.
  - exists s, [], recs. split; [done|]. split; [constructor|]. split_and!; try done. by eapply still_refl.
  - destruct (sys_step fcd q s a filename recs Hs Hcall Hq Hdec) as (s1 & f & recs1 & E1 & Hstep & Hs1 & Ho1 & Hf1 & Ht1).
    destruct (IH s1 recs1 Hs1) as (s2 & outs & recs2 & E2 & Hrun & Hs2 & Ho2 & Hf2 & Ht2); [by eapply calls_flags|].
    exists s2. eexists _, recs2. cbn [sys_perform_all]. rewrite (bind_ok _ _ _ _ _ E1), (bind_ok _ _ _ _ _ E2).
    split; [done|]. split; [by econstructor|]. split; [done|]. split; [congruence|]. split; [congruence|]. by eapply still_trans.
Qed.

(** ** The other stores *)

(** The state of a call once its mode is chosen. *)
Definition moded (s s2 : st) (op : Z) (fcd1 fcd2 : fcd_t) : Prop :=
  choose_mode op fcd1 (mk_sys (get_mode config (gl s)) (world s)) = (s2, inr fcd2).

Lemma moded_world (s s2 : st) op fcd1 fcd2 : moded s s2 op fcd1 fcd2 → world s2 = world s.
Proof.
  unfold moded, choose_mode. rewrite (bind_ok (get_g g_table_mode) _ _ _ _ eq_refl). cbv zeta.
  erewrite bind_ok by apply modify_run. intros Hm. destruct (_ && bool_decide _) in Hm.
  - erewrite bind_ok in Hm by apply modify_run. by injection Hm as <- _.
  - rewrite (bind_ok (mret ()) _ _ _ _ eq_refl) in Hm. by injection Hm as <- _.
Qed.

Lemma pull_push (g : globals) d : pull (push g d) g = g.
Proof. by destruct g. Qed.

(** A call for a JSON document is done by the JSON files. *)
Lemma json_part (s : st) op fcd fcd1 filename : call_name fcd = Some (fcd1, filename) → (5 < length filename)%nat → memeq filename (bs "JSON:") 5 = true →
  pqfh op fcd s = let (j, r) := op_json text_of_file (drop 5 filename) op fcd1 (y_json (world s)) in
    (mk_sys (get_mode config (gl s)) (mk_parts (y_ms (world s)) j (y_mem (world s))), r).
Proof.
  intros Hn Hl Hj. unfold pqfh. rewrite (bind_ok _ _ _ _ _ (gets_run _ s)). erewrite bind_ok by apply modify_run.
  rewrite Hn. erewrite bind_ok by done. cbv beta iota. by rewrite (proj2 (Nat.ltb_lt _ _) Hl), Hj.
Qed.

(** A call in the mode of the memory files is done by them. *)
Lemma mem_part (s s2 : st) op fcd fcd1 fcd2 filename : call_name fcd = Some (fcd1, filename) → memeq filename (bs "JSON:") 5 = false →
  moded s s2 op fcd1 fcd2 → g_mode (gl s2) = ch "M" ∨ g_mode (gl s2) = ch "F" →
  pqfh op fcd s = let (c, r) := memfh_cbl (g_mode (gl s2)) op fcd2 filename (y_mem (world s)) in
    (mk_sys (gl s2) (mk_parts (y_ms (world s)) (y_json (world s)) c), r).
Proof.
  intros Hn Hj Hm Hmd. pose proof (moded_world _ _ _ _ _ Hm) as Hw. unfold pqfh. rewrite (bind_ok _ _ _ _ _ (gets_run _ s)).
  erewrite bind_ok by apply modify_run. rewrite Hn. erewrite bind_ok by done. cbv beta iota. rewrite Hj, andb_false_r, (bind_ok _ _ _ _ _ Hm).
  rewrite (bind_ok (get_g g_mode) _ s2 _ _ eq_refl).
  assert ((g_mode (gl s2) =? ch "M") || (g_mode (gl s2) =? ch "F") = true) as -> by (by destruct Hmd as [->| ->]).
  cbn [h_memfh system handlers]. unfold on_mem. by rewrite Hw.
Qed.

End table.
