(* ===== verification/SystemDual.v ===== *)
(** Modes A and W on the whole handler: the ISAM file and the table of the database hold the same
    records, and the updates through the dispatcher keep them so. *)

From stdpp Require Import prelude gmap strings.
From S2P Require Import Prelude Fhtypes Fcd Table Kdb Libpq DbRead DbWrite Sql DbRows DbSession DbSpec JsonFile MemfhCbl Pqfh PqfhSpec System SystemSpec Meta Replicator Merge Cmp CmpIsam CmpSpec ChangeLog ChangeLogSpec.
Local Open Scope Z_scope.

(** What mode A relies on in the ISAM file handler, besides its updates: they leave the record
    area alone, and a read by the first key finds the record of the key in the area. *)
Class IsamKeyed (W : Type) `{!Extfh W, !CmpIsam.IsamFile W, !IsamUpdate W} := {
  isam_area op f w w' f' : op ∈ [OP_WRITE; OP_REWRITE; OP_DELETE] → extfh op f w = (w', inr f') → f' = set_status (status f') f;
  isam_read f w recs comps k : isam_io w (fname f) → isam_recs w (fname f) = Some recs → getshort (key_id f) = 0 →
    cmp_comps (kdb f) = Some comps → cmp_key comps (record f) = Some k →
    ∃ w', extfh OP_READ_RANDOM f w = (w', inr (match by_key comps recs !! k with
        Some r => set_status ST_OK (set_rec r f) | None => set_status ST_REC_NOT_FOUND f end)) ∧
      isam_io w' (fname f) ∧ (∀ m, isam_recs w' m = isam_recs w m);
}.

(** ** The records as a map *)

Section map.
Context {schema name : bytes} {cols : list column_t} {keys : list key_t}.
Context {D : Type} `{!Libpq D} `{P : !PgTable D schema name cols keys} (ts : bytes).
Context (Hwf : file_wf (schema:=schema) (name:=name) (cols:=cols) (keys:=keys) ts).
Context (comps : list (Z * Z)) (ixss : list (list nat)).
Context (Hlay : key_layout cols comps ixss) (Hpk : pk_ixs keys = mjoin ixss).

Notation pk_cols := (pk_cols (cols:=cols) (keys:=keys)).
Notation wf_rec := (wf_rec (cols:=cols) (keys:=keys)).
Notation kv := (kval comps).
Notation len := (cols_len cols).

Lemma pk_key_ok r : wf_rec r → key_ok pk_cols r.
Proof. destruct (pk_run ts Hwf) as (_ & _ & _ & _ & _ & _ & H). apply H. Qed.

(** An area and a record have the same key. *)
Lemma same_key area r : length area = len → key_ok pk_cols area → wf_rec r → kv r = kv area ↔ fields pk_cols r = fields pk_cols area.
Proof. intros Hl Hk Hr. apply (kval_key ts Hwf comps ixss Hlay Hpk); [apply Hr|done|by apply pk_key_ok|done]. Qed.

Lemma by_key_some recs k r : by_key comps recs !! k = Some r → r ∈ recs ∧ kv r = k.
Proof.
  rewrite by_key_lookup. intros H. assert (r ∈ filter (λ x, kv x = k) recs) as [? ?]%list_elem_of_filter; [|done].
  destruct (filter _ recs) as [|x l]; [done|]. injection H as ->. by left.
Qed.

Lemma by_key_none recs area : Forall wf_rec recs → length area = len → key_ok pk_cols area →
  by_key comps recs !! kv area = None ↔ ∀ r, r ∈ recs → fields pk_cols r ≠ fields pk_cols area.
Proof.
  intros Hrecs Hl Hk. rewrite Forall_forall in Hrecs. rewrite by_key_lookup. split.
  - intros H r Hr E. apply (same_key area r Hl Hk (Hrecs r Hr)) in E.
    assert (r ∈ filter (λ x, kv x = kv area) recs) as Hin by by apply list_elem_of_filter. by destruct (filter _ recs); [apply elem_of_nil in Hin|].
  - intros H. destruct (filter _ recs) as [|x l] eqn:E; [done|].
    assert (x ∈ filter (λ x, kv x = kv area) recs) as [Hx Hin]%list_elem_of_filter by (rewrite E; by left).
    apply (same_key area x Hl Hk (Hrecs x Hin)) in Hx. by apply H in Hx.
Qed.

Lemma by_key_replaced recs r : Forall wf_rec recs → wf_rec r → is_Some (by_key comps recs !! kv r) →
  by_key comps (replaced (cols:=cols) (keys:=keys) r recs) = <[kv r:=r]> (by_key comps recs).
Proof.
  intros Hrecs Hr Hsome. apply map_eq. intros k. destruct (decide (k = kv r)) as [->|Hk].
  - rewrite lookup_insert_eq. rewrite by_key_lookup in Hsome. rewrite by_key_lookup. unfold replaced. induction Hrecs as [|x recs Hx _ IH]; [by destruct Hsome|].
    cbn [fmap list_fmap] in *. rewrite filter_cons in Hsome. rewrite filter_cons.
    pose proof (same_key r x (wr_len _ Hr) (pk_key_ok r Hr) Hx) as Hsame. destruct (decide (fields pk_cols x = fields pk_cols r)) as [E|E].
    + by rewrite decide_True.
    + rewrite decide_False in Hsome by tauto. rewrite decide_False by tauto. by apply IH.
  - rewrite lookup_insert_ne, !by_key_lookup by congruence. f_equal. clear Hsome. unfold replaced. induction Hrecs as [|x recs Hx _ IH]; [done|].
    cbn [fmap list_fmap]. rewrite !filter_cons, IH.
    pose proof (same_key r x (wr_len _ Hr) (pk_key_ok r Hr) Hx) as Hsame. destruct (decide (fields pk_cols x = fields pk_cols r)) as [E|E]; [|done].
    rewrite decide_False by congruence. rewrite decide_False; [done|]. intros <-. apply Hk, Hsame, E.
Qed.

Lemma by_key_removed recs r : Forall wf_rec recs → wf_rec r → 
  by_key comps (removed (cols:=cols) (keys:=keys) r recs) = delete (kv r) (by_key comps recs).
Proof.
  intros Hrecs Hr. apply map_eq. intros k. destruct (decide (k = kv r)) as [->|Hk].
  - rewrite lookup_delete_eq. unfold removed. rewrite by_key_lookup. induction Hrecs as [|x recs Hx _ IH]; [done|].
    pose proof (same_key r x (wr_len _ Hr) (pk_key_ok r Hr) Hx) as Hsame. rewrite filter_cons. destruct (decide _) as [E|E]; [|done].
    rewrite filter_cons, decide_False by tauto. done.
  - rewrite lookup_delete_ne, !by_key_lookup by congruence. f_equal. unfold removed. induction Hrecs as [|x recs Hx _ IH]; [done|].
    pose proof (same_key r x (wr_len _ Hr) (pk_key_ok r Hr) Hx) as Hsame. rewrite !(filter_cons _ x recs). destruct (decide (fields pk_cols x ≠ _)) as [E|E].
    + rewrite filter_cons. by rewrite IH.
    + rewrite decide_False; [done|]. intros <-. apply Hk. apply Hsame. destruct (decide (fields pk_cols x = fields pk_cols r)); tauto.
Qed.

End map.

(** ** The updates of the database in mode A, when it accepts them *)

Section mode_a.
Context {W : Type} `{!Handlers W} (n : nat).

Lemma do_write_done st fcd (s s2 : sys W) f : g_mode (gl s2) = ch "A" → g_replica (gl s2) = false → st_ok f = true →
  h_write fcd s = (s2, inr (f, false)) → do_write st fcd s = (s2, inr f).
Proof.
  intros Hm Hr Hok H. unfold do_write. rewrite (bind_ok _ _ _ _ _ H). cbn [fst snd].
  rewrite (bind_ok _ _ _ _ _ (is_mode_run _ _)), Hm. change (ch "A" =? ch "W") with false. cbv iota.
  rewrite (bind_ok _ _ _ _ _ (is_mode_run _ _)), Hm, Hok. change (ch "A" =? ch "B") with false. by apply replica_end_run.
Qed.

Lemma do_rewrite_done op st undo fcd (s s2 : sys W) f : g_mode (gl s2) = ch "A" → g_replica (gl s2) = false → st_ok f = true →
  h_rewrite fcd s = (s2, inr (f, true)) → do_rewrite op st undo n fcd s = (s2, inr f).
Proof.
  intros Hm Hr Hok H. unfold do_rewrite. rewrite (bind_ok _ _ _ _ _ H). cbn [fst snd].
  rewrite !(bind_ok _ _ _ _ _ (is_mode_run _ _)), Hm. change (ch "A" =? ch "W") with false. cbv iota.
  rewrite (bind_ok _ _ _ _ _ (is_mode_run _ _)), Hm, Hok. change (ch "A" =? ch "B") with false. by apply replica_end_run.
Qed.

Lemma do_delete_done st fcd (s s2 : sys W) f : g_mode (gl s2) = ch "A" → g_replica (gl s2) = false → st_ok f = true →
  h_delete fcd s = (s2, inr f) → do_delete st n fcd s = (s2, inr f).
Proof.
  intros Hm Hr Hok H. unfold do_delete. rewrite (bind_ok _ _ _ _ _ H).
  rewrite !(bind_ok _ _ _ _ _ (is_mode_run _ _)), Hm. change (ch "A" =? ch "W") with false. cbv iota.
  rewrite (bind_ok _ _ _ _ _ (is_mode_run _ _)), Hm, Hok. change (ch "A" =? ch "B") with false. by apply replica_end_run.
Qed.

(** The stages of an update: the ISAM file, then the database unless it ended there. *)
Lemma stages_a op filename fcd (s s1 : sys W) f undo fin : g_mode (gl s) = ch "A" → isam fcd ≠ ch "S" →
  mode_a_stage op n filename fcd s = (s1, inr (f, undo, fin)) →
  stages n op filename fcd s = (if fin : bool then mret f else bracket n op undo f) s1.
Proof.
  intros Hm Hi H. unfold stages. erewrite bind_ok by (apply (isam_stage_skip "A"); auto). cbv beta iota.
  by rewrite (bind_ok _ _ _ _ _ H).
Qed.

Lemma mode_a_guard op filename fcd (s : sys W) : g_mode (gl s) = ch "A" → isam fcd ≠ ch "S" → not_pqfh filename = true →
  op = OP_WRITE ∨ op = OP_REWRITE ∨ op = OP_DELETE →
  (g_mode (gl s) =? ch "A") && negb (isam fcd =? ch "S") && not_pqfh filename &&
    ((op =? OP_WRITE) || (op =? OP_REWRITE) || (op =? OP_DELETE)) = true.
Proof. intros -> Hi -> Hop. rewrite (proj2 (Z.eqb_neq _ _) Hi). by destruct Hop as [->|[->| ->]]. Qed.

Lemma stage_write filename fcd (s s1 : sys W) f : g_mode (gl s) = ch "A" → isam fcd ≠ ch "S" → not_pqfh filename = true →
  EXTFH OP_WRITE fcd s = (s1, inr f) → mode_a_stage OP_WRITE n filename fcd s = (s1, inr (f, None, negb (st_ok f))).
Proof.
  intros Hm Hi Hpq E. unfold mode_a_stage. rewrite (bind_ok _ _ _ _ _ (is_mode_run _ _)), mode_a_guard by auto.
  change (OP_WRITE =? OP_WRITE) with true. cbv iota. erewrite bind_ok by done. cbv beta iota. by rewrite (bind_ok _ _ _ _ _ E).
Qed.

(** A rewrite or a delete of a key the file has not: the record area is put back. *)
Lemma stage_missing op filename fcd (s s1 : sys W) st : op = OP_REWRITE ∨ op = OP_DELETE → g_mode (gl s) = ch "A" → isam fcd ≠ ch "S" →
  not_pqfh filename = true → length (record fcd) = n → st_ok (set_status st fcd) = false →
  EXTFH OP_READ_RANDOM fcd s = (s1, inr (set_status st fcd)) →
  mode_a_stage op n filename fcd s = (s1, inr (set_status st fcd, None, true)).
Proof.
  intros Hop Hm Hi Hpq Hl Hst E. unfold mode_a_stage. rewrite (bind_ok _ _ _ _ _ (is_mode_run _ _)), mode_a_guard by (auto; tauto).
  assert ((op =? OP_WRITE) = false) as -> by (by destruct Hop as [->| ->]).
  erewrite bind_ok; last first.
  { rewrite (bind_ok _ _ _ _ _ (save_record_run n fcd s ltac:(lia))), (bind_ok _ _ _ _ _ E), Hst. cbn [negb].
    erewrite bind_ok by (apply (put_record_run n); cbn [record set_status]; unfold rec_of; rewrite ?length_take; lia). reflexivity. }
  cbv beta iota. rewrite take_ge, blit_full by (cbn [record set_status]; unfold rec_of; rewrite ?length_take; lia).
  unfold rec_of. rewrite take_ge by lia. by destruct fcd.
Qed.

(** One of a key it has: its record is kept aside, then the file takes the update. *)
Lemma stage_found op filename fcd (s s1 s2 : sys W) r st : op = OP_REWRITE ∨ op = OP_DELETE → g_mode (gl s) = ch "A" → isam fcd ≠ ch "S" →
  not_pqfh filename = true → length (record fcd) = n → length r = n →
  EXTFH OP_READ_RANDOM fcd s = (s1, inr (set_status ST_OK (set_rec r fcd))) →
  EXTFH op (set_status ST_OK fcd) s1 = (s2, inr (set_status st fcd)) →
  mode_a_stage op n filename fcd s = (s2, inr (set_status st fcd, Some r, negb (st_ok (set_status st fcd)))).
Proof.
  intros Hop Hm Hi Hpq Hl Hr E1 E2. unfold mode_a_stage. rewrite (bind_ok _ _ _ _ _ (is_mode_run _ _)), mode_a_guard by (auto; tauto).
  assert ((op =? OP_WRITE) = false) as -> by (by destruct Hop as [->| ->]).
  assert (rec_of n fcd = record fcd) as Hrec by (unfold rec_of; by rewrite take_ge by lia).
  erewrite bind_ok; last first.
  { rewrite (bind_ok _ _ _ _ _ (save_record_run n fcd s ltac:(lia))), (bind_ok _ _ _ _ _ E1).
    change (st_ok (set_status ST_OK (set_rec r fcd))) with true. cbn [negb].
    erewrite bind_ok by (apply save_record_run; cbn [record set_status set_rec]; lia).
    erewrite bind_ok by (apply (put_record_run n); cbn [record set_status set_rec]; rewrite ?Hrec; lia). reflexivity. }
  cbv beta iota. rewrite Hrec. cbn [record set_status set_rec]. rewrite (take_ge (record fcd)), blit_full by lia.
  unfold rec_of. cbn [record set_status set_rec]. rewrite take_ge by lia.
  replace (set_rec (record fcd) (set_status ST_OK (set_rec r fcd))) with (set_status ST_OK fcd) by (by destruct fcd).
  by rewrite (bind_ok _ _ _ _ _ E2).
Qed.

(** In mode W the ISAM file decides: the operation on the database follows when it accepts. *)
Lemma stages_w op filename fcd (s s1 : sys W) f : EXTFH op fcd s = (s1, inr f) → g_mode (gl s) = ch "W" → g_mode (gl s1) = ch "W" → isam f ≠ ch "S" →
  memeq filename (bs "pqfh") 4 = false → op ≠ OP_UNLOCK →
  stages n op filename fcd s = (if memeq (status f) ST_OK 1 then bracket n op None f else mret f) s1.
Proof.
  intros E Hm Hm1 Hi Hpq Hop. unfold stages.
  assert (isam_stage op 0 filename fcd s = (s1, inr (f, negb (memeq (status f) ST_OK 1)))) as Est.
  { unfold isam_stage. rewrite (bind_ok _ _ _ _ _ (is_mode_run "I" s)), (bind_ok _ _ _ _ _ (is_mode_run "W" s)), Hm, Hpq.
    change (ch "W" =? ch "I") with false. change (ch "W" =? ch "W") with true. cbn [orb andb negb].
    rewrite (bind_ok _ _ _ _ _ E), (proj2 (Z.eqb_neq _ _) Hop). erewrite (bind_ok (mret ())) by done.
    rewrite (bind_ok _ _ _ _ _ (is_mode_run _ _)), Hm1. change (ch "W" =? ch "W") with true. cbn [negb].
    rewrite (proj2 (Z.eqb_neq _ _) Hi). by destruct (memeq (status f) ST_OK 1). }
  rewrite (bind_ok _ _ _ _ _ Est). cbv beta iota. destruct (memeq (status f) ST_OK 1); cbn [negb]; [|done].
  erewrite bind_ok; last first. { unfold mode_a_stage. rewrite (bind_ok _ _ _ _ _ (is_mode_run _ _)), Hm1. reflexivity. } done.
Qed.

Lemma do_write_w st fcd (s s2 : sys W) f b : g_mode (gl s2) = ch "W" →
  h_write fcd s = (s2, inr (f, b)) → do_write st fcd s = (s2, inr (set_status st f)).
Proof.
  intros Hm H. unfold do_write. rewrite (bind_ok _ _ _ _ _ H). cbn [fst snd]. by rewrite (bind_ok _ _ _ _ _ (is_mode_run _ _)), Hm.
Qed.

Lemma do_rewrite_w op st fcd (s s2 : sys W) f b : g_mode (gl s2) = ch "W" →
  h_rewrite fcd s = (s2, inr (f, b)) → do_rewrite op st None n fcd s = (s2, inr (set_status st f)).
Proof.
  intros Hm H. unfold do_rewrite. rewrite (bind_ok _ _ _ _ _ H). cbn [fst snd]. by rewrite (bind_ok _ _ _ _ _ (is_mode_run _ _)), Hm.
Qed.

Lemma do_delete_w st fcd (s s2 : sys W) f : g_mode (gl s2) = ch "W" →
  h_delete fcd s = (s2, inr f) → do_delete st n fcd s = (s2, inr (set_status st f)).
Proof. intros Hm H. unfold do_delete. rewrite (bind_ok _ _ _ _ _ H). by rewrite (bind_ok _ _ _ _ _ (is_mode_run _ _)), Hm. Qed.

End mode_a.

(** ** Both stores *)

Section dual.
Context {D W : Type} `{!Libpq D, !DbCalls D, !Extfh W, !CmpIsam.IsamFile W, !IsamUpdate W, !IsamKeyed W}.
Context (env : env_t) (config : option bytes) (connects log_ok : bool) (text_of_file : bytes → option bytes) (fuel : nat).
Context {schema name : bytes} {cols : list column_t} {keys : list key_t}.
Context `{P : !PgTable D schema name cols keys} (ts : bytes).
Context (Hwf : file_wf (schema:=schema) (name:=name) (cols:=cols) (keys:=keys) ts).
Context (comps : list (Z * Z)) (ixss : list (list nat)).
Context (Hlay : key_layout cols comps ixss) (Hpk : pk_ixs keys = mjoin ixss).
Context (Hdec : ∀ c, c ∈ pk_cols (cols:=cols) (keys:=keys) → is_num c = true → col_dec c = 0%nat).

#[local] Instance handlers_a : Handlers (parts D W) := system env config connects log_ok text_of_file ts fuel.
Notation st := (sys (parts D W)).
Notation frame := (frame (PgTable0:=P)).
Notation file_ok := (file_ok (P:=P) ts).
Notation table_ok := (table_ok (P:=P) (W:=W) ts).
Notation pk_cols := (pk_cols (cols:=cols) (keys:=keys)).
Notation wf_rec := (wf_rec (cols:=cols) (keys:=keys)).
Notation kv := (kval comps).
Notation len := (cols_len cols).
Notation isam_at s := (m_isam (y_ms (world s))).
Context (m : bytes).

(** The ISAM file [m], open for updates, has the records of a map. *)
Definition isam_has (w : W) (recs : recmap) : Prop :=
  isam_io w m ∧ ∃ irecs, isam_recs w m = Some irecs ∧ by_key comps irecs = recs.

Definition put_isam (x : st) (w : W) : st :=
  let d := with_db (gl x) (world x) in
  mk_sys (gl x) (mk_parts (mk_ms (m_db d) w (m_fcd01 d) (m_fcd02 d) (m_replica d)) (y_json (world x)) (y_mem (world x))).

Lemma ext_run op f (x : st) w' f' : extfh op f (isam_at x) = (w', inr f') → EXTFH op f x = (put_isam x w', inr f').
Proof.
  intros E. change (EXTFH op f x) with (on_ms (on_files (extfh op f)) x). unfold on_ms, on_files.
  change (m_isam (with_db (gl x) (world x))) with (isam_at x). rewrite E. cbn [m_db].
  change (gdb (m_db (with_db (gl x) (world x)))) with (push (gl x) (gdb (m_db (y_ms (world x))))). by rewrite pull_push.
Qed.

(** The control block names the file and its key. *)
Record isam_call (f : fcd_t) : Prop := {
  ic_name : fname f = m;
  ic_comps : cmp_comps (kdb f) = Some comps;
  ic_key : getshort (key_id f) = 0;
  ic_rec : length (record f) = len;
}.

Lemma area_key f : isam_call f → cmp_key comps (record f) = Some (kv (record f)).
Proof. intros [_ _ _ Hr]. destruct (cmp_key_run _ _ (record f) (key_in comps ixss Hlay) Hr) as [E _]. unfold kval. by rewrite E. Qed.

Lemma update_run op f (x : st) recs : op ∈ [OP_WRITE; OP_REWRITE; OP_DELETE] → isam_call f → isam_has (isam_at x) recs →
  let r := isam_apply op (kv (record f)) (record f) recs in
  ∃ w', EXTFH op f x = (put_isam x w', inr (set_status (if snd r then ST_OK else if op =? OP_WRITE then ST_DUPL_KEY else ST_REC_NOT_FOUND) f)) ∧
    isam_has w' (fst r).
Proof.
  intros Hop Hc (Hio & irecs & Hr & Hm) r. pose proof (area_key f Hc) as Hk. destruct Hc as [Hn Hcomps _ _]. subst recs.
  rewrite <-Hn in Hio, Hr. destruct (isam_update op f _ irecs comps _ Hop Hio Hr Hcomps Hk) as (w' & f' & irecs' & E & _ & _ & Hio' & Hr' & Hm' & Hst & _).
  exists w'. split; [|by rewrite Hn in *; split; [|exists irecs']]. rewrite (ext_run _ _ _ _ _ E). do 2 f_equal.
  rewrite (isam_area _ _ _ _ _ Hop E). by rewrite Hst.
Qed.

Lemma read_run f (x : st) recs : isam_call f → isam_has (isam_at x) recs →
  ∃ w', EXTFH OP_READ_RANDOM f x = (put_isam x w', inr (match recs !! kv (record f) with
      Some r => set_status ST_OK (set_rec r f) | None => set_status ST_REC_NOT_FOUND f end)) ∧ isam_has w' recs.
Proof.
  intros Hc (Hio & irecs & Hr & Hm). pose proof (area_key f Hc) as Hk. destruct Hc as [Hn Hcomps Hid _]. subst recs.
  rewrite <-Hn in Hio, Hr. destruct (isam_read f _ irecs comps _ Hio Hr Hid Hcomps Hk) as (w' & E & Hio' & Hr').
  exists w'. split; [by apply ext_run|]. rewrite Hn in *. split; [done|]. exists irecs. by rewrite Hr'.
Qed.

(** The two stores hold the records [recs]. *)
Definition dual_ok (s : st) (a : Z) (recs : list bytes) : Prop := table_ok s a recs ∧ isam_has (isam_at s) (by_key comps recs).

(** The parts no update touches. *)
Definition aside (s : st) : jheap * cbl_state := (y_json (world s), y_mem (world s)).

(** The operation on the database, after the stage of the ISAM file. *)
Lemma bracket_db op undo f (x1 : st) a x f2 : g_fatal (gl x1) = false → g_locked (gl x1) = false →
  do_op op undo len f (held x1) = (put_db (held x1) x, inr f2) → frame a (SystemSpec.db_of (held x1)) x →
  ∃ s', bracket len op undo f x1 = (s', inr f2) ∧ gl s' = put_locked false (gl x1) ∧ aside s' = aside x1 ∧ isam_at s' = isam_at x1 ∧
    m_db (y_ms (world s')) = x.
Proof.
  intros Hf Hl Hdo Hfr. eexists. split; [by apply bracket_run|]. cbn [gl]. rewrite (put_db_gl (held x1) a x Hf Hfr). by split_and!.
Qed.

Lemma put_isam_table (x : st) w a recs : table_ok x a recs → table_ok (put_isam x w) a recs.
Proof. intros Ht. exact (proj1 (table_db (P:=P) ts x a recs) Ht). Qed.

Lemma held_table (x : st) a recs : table_ok x a recs → file_ok (SystemSpec.db_of (held x)) a recs.
Proof. intros Ht. exact (proj1 (table_db (P:=P) ts (held x) a recs) Ht). Qed.

Lemma chosen_flags_same md (s : st) : flags (gl (chosen md s)) = flags (gl s).
Proof. destruct (chosen_flags md s) as (_ & Hf & Hl & Hr). unfold flags. by rewrite chosen_conn, Hf, Hl, Hr. Qed.

Lemma unlocked_flags (g : globals) : g_locked g = false → flags (put_locked false g) = flags g.
Proof. unfold flags. by intros <-. Qed.

(** ** The updates *)

(** What the two stores answer: as the file of the table, but a duplicate key is answered by the
    ISAM file, which leaves the record area as it was. *)
Inductive dual_step (recs : list bytes) : request → bytes → bytes → list bytes → Prop :=
  | dual_file q st area recs' : file_step (cols:=cols) (keys:=keys) recs q st area recs' → (∀ r, q = RWrite r → st = ST_OK) →
      dual_step recs q st area recs'
  | dual_dup area r : r ∈ recs → fields pk_cols r = fields pk_cols area → dual_step recs (RWrite area) ST_DUPL_KEY area recs.

(** The result of a request in a state. *)
Definition dual_result (q : request) (recs : list bytes) (s : st) (a : Z) (res : st * (fault + fcd_t)) : Prop :=
  ∃ s' f recs', res = (s', inr f) ∧ dual_step recs q (status f) (record f) recs' ∧ dual_ok s' a recs' ∧
    aside s' = aside s ∧ flags (gl s') = flags (gl s).

Lemma recs_wf (s : st) a recs : dual_ok s a recs → Forall wf_rec recs.
Proof. intros [[_ (_ & Hw & _)] _]. exact Hw. Qed.

(** The file control block of a call in a mode, with its ISAM file. *)
Record dual_call (md : string) (s : st) (a : Z) (filename : bytes) (fcd : fcd_t) : Prop := {
  dc_call : call len md fcd s filename;
  dc_ok : call_ok (cols:=cols) fcd a;
  dc_isam : isam_call fcd;
}.

(** The database has its turn once the ISAM file is done. *)
Lemma after_isam md (s x1 : st) op undo f a recs recs' x f2 : g_fatal (gl s) = false → g_locked (gl s) = false → g_replica (gl s) = false →
  gl x1 = gl (chosen md s) → aside x1 = aside s → isam_has (isam_at x1) (by_key comps recs') →
  table_ok x1 a recs → frame a (SystemSpec.db_of (held x1)) x → file_ok x a recs' →
  (g_mode (gl (put_db (held x1) x)) = ch md → g_replica (gl (put_db (held x1) x)) = false →
    do_op op undo len f (held x1) = (put_db (held x1) x, inr f2)) →
  ∃ s', bracket len op undo f x1 = (s', inr f2) ∧ dual_ok s' a recs' ∧ aside s' = aside s ∧ flags (gl s') = flags (gl s).
Proof.
  intros Hfatal Hlock Hrep Hg Ha Hi Ht Hfr Hx Hdo. destruct (chosen_flags md s) as (Hm & Hf & Hl & Hr).
  assert (gl (put_db (held x1) x) = put_locked true (gl (chosen md s))) as Hgl.
  { rewrite (put_db_gl (P:=P) (held x1) a x); [cbn [gl held]; by rewrite Hg| |done]. cbn [gl held]. by rewrite Hg, <-Hfatal. }
  rewrite Hgl in Hdo. destruct (bracket_db op undo f x1 a x f2) as (s' & Eb & Hg' & Ha' & Hi2 & Hd'); [by rewrite Hg, Hf|by rewrite Hg, Hl| |done|].
  { apply Hdo; [exact Hm|]. transitivity (g_replica (gl (chosen md s))); [done|by rewrite Hr]. }
  exists s'. split; [done|]. split; [split|split].
  - unfold SystemSpec.table_ok. by rewrite Hd'.
  - by rewrite Hi2.
  - by rewrite Ha'.
  - rewrite Hg', Hg, unlocked_flags by by rewrite Hl. apply chosen_flags_same.
Qed.

(** A call the ISAM file ends. *)
Lemma ended md (s : st) a recs w' : dual_ok s a recs → isam_has w' (by_key comps recs) →
  let s' := put_isam (chosen md s) w' in dual_ok s' a recs ∧ aside s' = aside s ∧ flags (gl s') = flags (gl s).
Proof. intros [Ht _] Hi'. split; [split; [by apply put_isam_table|done]|]. split; [done|apply chosen_flags_same]. Qed.

Lemma both_write (s : st) a filename recs fcd : dual_ok s a recs → dual_call "A" s a filename fcd → wf_rec (record fcd) →
  dual_result (RWrite (record fcd)) recs s a (pqfh OP_WRITE fcd s).
Proof.
  intros Hs [Hc Hcall Hic] Hrec. pose proof (recs_wf _ _ _ Hs) as Hw. pose proof Hs as [Ht Hi].
  pose proof Hc as [_ _ [Hpq _] _ His _ Hfatal Hlock Hrep _ _ _]. destruct (chosen_flags "A" s) as (Hm & _).
  rewrite (pqfh_prologue len "A" OP_WRITE fcd s filename) by auto.
  destruct (update_run OP_WRITE fcd (chosen "A" s) (by_key comps recs)) as (w' & E & Hi'); [by left|done|exact Hi|].
  rewrite (stages_a len _ _ _ _ _ _ _ _ Hm His (stage_write len filename _ _ _ _ Hm His Hpq E)).
  pose proof (by_key_none ts Hwf comps ixss Hlay Hpk recs (record fcd) Hw (wr_len _ Hrec) (pk_key_ok ts Hwf _ Hrec)) as Hnone.
  unfold isam_apply in *. destruct (by_key comps recs !! kv (record fcd)) as [r|] eqn:Ek; cbn in Hi' |- *.
  - change (st_ok (set_status ST_DUPL_KEY fcd)) with false. cbn [negb]. eexists _, _, recs. split; [done|]. split; [|by apply ended].
    destruct (by_key_some comps recs _ _ Ek) as [Hin Hkv]. cbn [status record set_status]. apply (dual_dup _ _ r); [done|].
    rewrite Forall_forall in Hw. apply (same_key ts Hwf comps ixss Hlay Hpk); [apply Hrec|by apply (pk_key_ok ts Hwf)|by apply Hw|done].
  - change (st_ok (set_status ST_OK fcd)) with true. cbn [negb].
    assert (call_ok (cols:=cols) (set_status ST_OK fcd) a) as Hcall' by (by destruct Hcall).
    destruct (op_write_run log_ok ts Hwf (SystemSpec.db_of (held (put_isam (chosen "A" s) w'))) a recs (set_status ST_OK fcd)) as (x & f & Ew & Hfr & Hcase);
      [by apply held_table, put_isam_table|done|done|].
    destruct Hcase as [(r & Hin & Hsame & _)|(_ & -> & Hok)]; [by apply (proj1 Hnone eq_refl r) in Hin|].
    destruct (after_isam "A" s (put_isam (chosen "A" s) w') OP_WRITE None (set_status ST_OK fcd) a recs (record fcd :: recs) x
      (answer ST_OK (record fcd) (set_status ST_OK fcd))) as (s' & Eb & Hs'); try done.
    { intros Hm2 Hr2. apply do_write_done; [done..|]. by apply on_dbs_run. }
    exists s'. eexists _, _. split; [exact Eb|]. split; [|exact Hs']. apply dual_file; [|done]. apply step_write. by apply Hnone.
Qed.

(** A rewrite or a delete of a key the ISAM file has: the database follows, with the record it
    had kept aside. *)
Lemma isam_updated op (s : st) a filename recs fcd r : op = OP_REWRITE ∨ op = OP_DELETE → dual_ok s a recs → dual_call "A" s a filename fcd →
  by_key comps recs !! kv (record fcd) = Some r → length r = len →
  ∃ x1, pqfh op fcd s = bracket len op (Some r) (set_status ST_OK fcd) x1 ∧
    gl x1 = gl (chosen "A" s) ∧ aside x1 = aside s ∧ table_ok x1 a recs ∧
    isam_has (isam_at x1) (fst (isam_apply op (kv (record fcd)) (record fcd) (by_key comps recs))).
Proof.
  intros Hop [Ht Hi] [Hc Hcall Hic] Ek Hr. pose proof Hc as [_ _ [Hpq _] _ His _ _ _ _ _ _ _]. destruct (chosen_flags "A" s) as (Hm & _).
  rewrite (pqfh_prologue len "A" op fcd s filename) by first [done|by left|by destruct Hop as [->| ->]].
  destruct (read_run fcd (chosen "A" s) (by_key comps recs) Hic Hi) as (w1 & E1 & Hi1). rewrite Ek in E1.
  assert (isam_call (set_status ST_OK fcd)) as Hic' by (by destruct Hic).
  destruct (update_run op (set_status ST_OK fcd) (put_isam (chosen "A" s) w1) (by_key comps recs)) as (w2 & E2 & Hi2);
    [destruct Hop as [->| ->]; set_solver|done|exact Hi1|].
  cbn [record set_status] in E2, Hi2. assert (snd (isam_apply op (kv (record fcd)) (record fcd) (by_key comps recs)) = true) as Eok.
  { unfold isam_apply. rewrite Ek. by destruct Hop as [->| ->]. }
  rewrite Eok in E2.
  pose proof (stage_found len op filename fcd _ _ _ r ST_OK Hop Hm His Hpq (ic_rec _ Hic) Hr E1 E2) as Est.
  exists (put_isam (put_isam (chosen "A" s) w1) w2). split; [exact (stages_a len _ _ _ _ _ _ _ _ Hm His Est)|].
  split; [done|]. split; [done|]. split; [|done]. by do 2 apply put_isam_table.
Qed.

(** One of a key it has not: the call ends there. *)
Lemma isam_missing op (s : st) a filename recs fcd : op = OP_REWRITE ∨ op = OP_DELETE → dual_ok s a recs → dual_call "A" s a filename fcd →
  by_key comps recs !! kv (record fcd) = None →
  ∃ w', pqfh op fcd s = (put_isam (chosen "A" s) w', inr (set_status ST_REC_NOT_FOUND fcd)) ∧ isam_has w' (by_key comps recs).
Proof.
  intros Hop [Ht Hi] [Hc Hcall Hic] Ek. pose proof Hc as [_ _ [Hpq _] _ His _ _ _ _ _ _ _]. destruct (chosen_flags "A" s) as (Hm & _).
  rewrite (pqfh_prologue len "A" op fcd s filename) by first [done|by left|by destruct Hop as [->| ->]].
  destruct (read_run fcd (chosen "A" s) (by_key comps recs) Hic Hi) as (w1 & E1 & Hi1). rewrite Ek in E1. exists w1. split; [|done].
  exact (stages_a len _ _ _ _ _ _ _ _ Hm His (stage_missing len op filename fcd _ _ ST_REC_NOT_FOUND Hop Hm His Hpq (ic_rec _ Hic) eq_refl E1)).
Qed.

(** The key of the area is that of a record, or of none. *)
Lemma by_key_cases (s : st) a recs area : dual_ok s a recs → length area = len → key_ok pk_cols area →
  (∃ r, by_key comps recs !! kv area = Some r ∧ r ∈ recs ∧ fields pk_cols r = fields pk_cols area ∧ length r = len) ∨
  (by_key comps recs !! kv area = None ∧ fields pk_cols area ∉ fields pk_cols <$> recs).
Proof.
  intros Hs Hl Hk. pose proof (recs_wf _ _ _ Hs) as Hw. pose proof (by_key_none ts Hwf comps ixss Hlay Hpk recs area Hw Hl Hk) as Hnone.
  rewrite Forall_forall in Hw. destruct (by_key comps recs !! kv area) as [r|] eqn:Ek.
  - left. exists r. destruct (by_key_some comps recs _ _ Ek) as [Hin Hkv]. split_and!; [done..| |apply Hw, Hin].
    apply (same_key ts Hwf comps ixss Hlay Hpk); [done|done|by apply Hw|done].
  - right. split; [done|]. intros (r & Er & Hin)%list_elem_of_fmap. by apply (proj1 Hnone eq_refl r).
Qed.

Lemma both_rewrite (s : st) a filename recs fcd : dual_ok s a recs → dual_call "A" s a filename fcd → wf_rec (record fcd) →
  dual_result (RRewrite (record fcd)) recs s a (pqfh OP_REWRITE fcd s).
Proof.
  intros Hs Hd Hrec. pose proof Hd as [Hc Hcall Hic]. pose proof Hc as [_ _ _ _ _ _ Hfatal Hlock Hrep _ _ _].
  destruct (by_key_cases s a recs (record fcd) Hs) as [(r & Ek & Hin & Hsame & Hr)|[Ek Hno]]; [apply Hrec|by apply (pk_key_ok ts Hwf)| |].
  - destruct (isam_updated OP_REWRITE s a filename recs fcd r) as (x1 & -> & Hg & Ha & Ht & Hi); [by left|done..|].
    unfold isam_apply in Hi. rewrite Ek in Hi. change (OP_REWRITE =? OP_WRITE) with false in Hi. change (OP_REWRITE =? OP_REWRITE) with true in Hi.
    assert (call_ok (cols:=cols) (set_status ST_OK fcd) a) as Hcall' by (by destruct Hcall).
    destruct (op_rewrite_run log_ok ts Hwf (SystemSpec.db_of (held x1)) a recs (set_status ST_OK fcd)) as (x & f & Ew & -> & Hok & Hfr);
      [by apply held_table|done..|].
    assert (fields pk_cols (record fcd) ∈ fields pk_cols <$> recs) as Hex by (rewrite <-Hsame; by apply list_elem_of_fmap_2).
    cbn [record set_status] in Ew, Hok. rewrite bool_decide_true in Ew by done.
    destruct (after_isam "A" s x1 OP_REWRITE (Some r) (set_status ST_OK fcd) a recs (replaced (cols:=cols) (keys:=keys) (record fcd) recs) x
      (answer ST_OK (record fcd) (set_status ST_OK fcd))) as (s' & Eb & Hs'); try done.
    { rewrite (by_key_replaced ts Hwf comps ixss Hlay Hpk); [exact Hi|by eapply recs_wf|done|by eexists]. }
    { intros Hm2 Hr2. apply do_rewrite_done; [done..|]. by apply on_dbs_run. }
    exists s'. eexists _, _. split; [exact Eb|]. split; [|exact Hs']. apply dual_file; [|done]. by apply step_rewrite.
  - destruct (isam_missing OP_REWRITE s a filename recs fcd) as (w' & -> & Hi'); [by left|done..|].
    eexists _, _, recs. split; [done|]. split; [|by apply ended]. apply dual_file; [|done]. by apply step_rewrite_none.
Qed.

(** The primary key is the first. *)
Lemma key_0 : key_of_nat (cols:=cols) (keys:=keys) 0 = pk_cols ∧ (0 < length keys)%nat.
Proof.
  destruct (pk_run ts Hwf) as (key & Hk & _ & Hp & _). split; [|by eapply lookup_lt_Some].
  by rewrite (key_of_lookup _ _ Hk), Hp.
Qed.

Lemma both_delete (s : st) a filename recs fcd : dual_ok s a recs → dual_call "A" s a filename fcd → key_ok pk_cols (record fcd) →
  dual_result (RDelete 0 (record fcd)) recs s a (pqfh OP_DELETE fcd s).
Proof.
  intros Hs Hd Hkey. pose proof Hd as [Hc Hcall Hic]. pose proof Hc as [_ _ _ _ _ _ Hfatal Hlock Hrep _ _ _].
  destruct key_0 as [Hk0 _]. destruct (pk_run ts Hwf) as (key & Hk & _ & Hp & _).
  destruct (by_key_cases s a recs (record fcd) Hs) as [(r & Ek & Hin & Hsame & Hr)|[Ek Hno]]; [apply Hic|done| |].
  - destruct (isam_updated OP_DELETE s a filename recs fcd r) as (x1 & -> & Hg & Ha & Ht & Hi); [by right|done..|].
    unfold isam_apply in Hi. rewrite Ek in Hi. change (OP_DELETE =? OP_WRITE) with false in Hi. change (OP_DELETE =? OP_REWRITE) with false in Hi.
    assert (call_ok (cols:=cols) (set_status ST_OK fcd) a) as Hcall' by (by destruct Hcall).
    destruct (op_delete_run log_ok ts Hwf (SystemSpec.db_of (held x1)) a 0 key recs (set_status ST_OK fcd)) as (x & o & Ew & Hfo & Hok & Hfr);
      [by apply held_table|done|apply Hic|done|by rewrite <-Hp|].
    rewrite <-Hp in Hfo. cbn [record set_status] in Hfo. destruct o as [r2|]; [|by apply Hfo in Hin].
    destruct Hfo as [Hin2 Hsame2]. pose proof (recs_wf _ _ _ Hs) as Hw.
    assert (wf_rec r2) as Hr2w by (by rewrite Forall_forall in Hw; apply Hw).
    destruct (after_isam "A" s x1 OP_DELETE (Some r) (set_status ST_OK fcd) a recs (removed (cols:=cols) (keys:=keys) r2 recs) x
      (set_status ST_OK (set_rec r2 (set_status ST_OK fcd)))) as (s' & Eb & Hs'); try done.
    { rewrite (by_key_removed ts Hwf comps ixss Hlay Hpk) by done.
      rewrite (proj2 (same_key ts Hwf comps ixss Hlay Hpk (record fcd) r2 (ic_rec _ Hic) Hkey Hr2w) Hsame2). exact Hi. }
    { intros Hm2 Hr2. apply do_delete_done; [done..|]. by apply on_dbs_run. }
    exists s'. eexists _, _. split; [exact Eb|]. split; [|exact Hs']. apply dual_file; [|done]. apply step_delete; [done|]. by rewrite Hk0.
  - destruct (isam_missing OP_DELETE s a filename recs fcd) as (w' & -> & Hi'); [by right|done..|].
    eexists _, _, recs. split; [done|]. split; [|by apply ended]. apply dual_file; [|done].
    apply step_delete_none. rewrite Hk0. cbn [record set_status]. intros r Hin E. apply Hno. rewrite <-E. by apply list_elem_of_fmap_2.
Qed.

(** Reads are the database's. *)
Lemma both_read (s : st) a filename recs fcd k key : dual_ok s a recs → call len "A" fcd s filename → call_ok (cols:=cols) fcd a →
  getshort (key_id fcd) = Z.of_nat k → keys !! k = Some key → key_ok (cols_at (cols:=cols) (k_columns key)) (record fcd) →
  dual_result (RRead k (record fcd)) recs s a (pqfh OP_READ_RANDOM fcd s).
Proof.
  intros Hs Hc Hcall Hid Hk Hkey. pose proof Hc as [_ _ _ _ His _ Hfatal Hlock Hrep _ _ _]. destruct (chosen_flags "A" s) as (Hm & _).
  rewrite (pqfh_prologue len "A" OP_READ_RANDOM fcd s filename) by first [done|by left].
  assert (mode_a_stage OP_READ_RANDOM len filename fcd (chosen "A" s) = (chosen "A" s, inr (fcd, None, false))) as Est.
  { unfold mode_a_stage. rewrite (bind_ok _ _ _ _ _ (is_mode_run _ _)). change (OP_READ_RANDOM =? OP_WRITE) with false.
    change (OP_READ_RANDOM =? OP_REWRITE) with false. change (OP_READ_RANDOM =? OP_DELETE) with false. by rewrite andb_false_r. }
  rewrite (stages_a len _ _ _ _ _ _ _ _ Hm His Est). pose proof Hs as [Ht Hi].
  assert (file_ok (SystemSpec.db_of (held (chosen "A" s))) a recs) as Hf0 by (apply held_table; exact Ht). destruct Hf0 as [[t Hsess] Hrows].
  destruct (op_read_random_run log_ok ts Hwf _ a t k key recs fcd Hsess Hrows Hcall Hid Hk Hkey) as (x & t' & o & E & Hsess' & Hr' & Hf & Hfr).
  set (f2 := match o with Some r => set_status ST_OK (set_rec r fcd) | None => set_status ST_REC_NOT_FOUND fcd end) in E.
  destruct (after_isam "A" s (chosen "A" s) OP_READ_RANDOM None fcd a recs recs x f2) as (s' & Eb & Hs'); [done..|exact Hi|exact Ht|exact Hfr| | |].
  { split; [by exists t'|]. destruct Hrows. split; [by rewrite Hr'|done]. }
  { intros _ _. change (do_read OP_READ_RANDOM fcd (held (chosen "A" s)) = (put_db (held (chosen "A" s)) x, inr f2)).
    unfold do_read. rewrite (bind_ok _ _ _ _ _ (is_mode_run _ _)). change (g_mode (gl (held (chosen "A" s)))) with (g_mode (gl (chosen "A" s))).
    rewrite Hm. by apply on_dbs_run. }
  exists s', f2, recs. split; [exact Eb|]. split; [|exact Hs']. subst f2. apply dual_file; [|done].
  destruct o as [r|]; [apply step_read|apply step_read_none]; rewrite ?(key_of_lookup _ _ Hk); by try apply Hf.
Qed.

(** ** Mode W *)

(** An update: the ISAM file takes it and the database has its turn, or the call ends there. *)
Lemma w_update op (s : st) a filename recs fcd : op ∈ [OP_WRITE; OP_REWRITE; OP_DELETE] → dual_ok s a recs → dual_call "W" s a filename fcd →
  let r := isam_apply op (kv (record fcd)) (record fcd) (by_key comps recs) in
  ∃ w', isam_has w' (fst r) ∧ pqfh op fcd s = (if snd r : bool then bracket len op None (set_status ST_OK fcd)
    else mret (set_status (if op =? OP_WRITE then ST_DUPL_KEY else ST_REC_NOT_FOUND) fcd)) (put_isam (chosen "W" s) w').
Proof.
  intros Hop [Ht Hi] [Hc Hcall Hic] r. pose proof Hc as [_ _ [_ Hpq] _ His _ _ _ _ _ _ _]. destruct (chosen_flags "W" s) as (Hm & _).
  destruct (update_run op fcd (chosen "W" s) (by_key comps recs) Hop Hic Hi) as (w' & E & Hi'). fold r in E, Hi'.
  exists w'. split; [done|]. rewrite !elem_of_cons, elem_of_nil in Hop.
  assert (plain_op op = true ∧ op ≠ OP_UNLOCK) as [Hpl Hun] by (by destruct Hop as [->|[->|[->|[]]]]).
  rewrite (pqfh_prologue len "W" op fcd s filename) by first [done|tauto]. etrans; [apply (stages_w len _ _ _ _ _ _ E Hm Hm His Hpq Hun)|].
  destruct (snd r); [done|]. by destruct (op =? OP_WRITE).
Qed.

Lemma both_write_w (s : st) a filename recs fcd : dual_ok s a recs → dual_call "W" s a filename fcd → wf_rec (record fcd) →
  dual_result (RWrite (record fcd)) recs s a (pqfh OP_WRITE fcd s).
Proof.
  intros Hs Hd Hrec. pose proof Hd as [Hc Hcall Hic]. pose proof Hs as [Ht _]. pose proof Hc as [_ _ _ _ _ _ Hfatal Hlock Hrep _ _ _].
  destruct (w_update OP_WRITE s a filename recs fcd ltac:(by left) Hs Hd) as (w' & Hi' & ->). unfold isam_apply in *.
  change (OP_WRITE =? OP_WRITE) with true in *.
  destruct (by_key_cases s a recs (record fcd) Hs) as [(r & Ek & Hin & Hsame & Hr)|[Ek Hno]]; [apply Hrec|by apply (pk_key_ok ts Hwf)|..];
    rewrite Ek in *; cbn [fst snd] in *; cbv iota in *.
  - eexists _, _, recs. split; [done|]. split; [|by apply (ended "W")]. by apply (dual_dup _ _ r).
  - assert (∀ r, r ∈ recs → fields pk_cols r ≠ fields pk_cols (record fcd)) as Hnone.
    { intros r Hin E. apply Hno. rewrite <-E. by apply list_elem_of_fmap_2. }
    assert (call_ok (cols:=cols) (set_status ST_OK fcd) a) as Hcall' by (by destruct Hcall).
    destruct (op_write_run log_ok ts Hwf (SystemSpec.db_of (held (put_isam (chosen "W" s) w'))) a recs (set_status ST_OK fcd)) as (x & f & Ew & Hfr & Hcase);
      [by apply held_table, put_isam_table|done|done|].
    destruct Hcase as [(r & Hin & Hsame & _)|(_ & -> & Hok)]; [by apply (Hnone r) in Hin|].
    destruct (after_isam "W" s (put_isam (chosen "W" s) w') OP_WRITE None (set_status ST_OK fcd) a recs (record fcd :: recs) x
      (set_status ST_OK (answer ST_OK (record fcd) (set_status ST_OK fcd)))) as (s' & Eb & Hs'); try done.
    { intros Hm2 _. eapply do_write_w; [done|]. by apply on_dbs_run. }
    exists s'. eexists _, _. split; [exact Eb|]. split; [|exact Hs']. apply dual_file; [|done]. by apply step_write.
Qed.

Lemma both_rewrite_w (s : st) a filename recs fcd : dual_ok s a recs → dual_call "W" s a filename fcd → wf_rec (record fcd) →
  dual_result (RRewrite (record fcd)) recs s a (pqfh OP_REWRITE fcd s).
Proof.
  intros Hs Hd Hrec. pose proof Hd as [Hc Hcall Hic]. pose proof Hs as [Ht _]. pose proof Hc as [_ _ _ _ _ _ Hfatal Hlock Hrep _ _ _].
  destruct (w_update OP_REWRITE s a filename recs fcd ltac:(right; by left) Hs Hd) as (w' & Hi' & ->). unfold isam_apply in *.
  change (OP_REWRITE =? OP_WRITE) with false in *. change (OP_REWRITE =? OP_REWRITE) with true in *.
  destruct (by_key_cases s a recs (record fcd) Hs) as [(r & Ek & Hin & Hsame & Hr)|[Ek Hno]]; [apply Hrec|by apply (pk_key_ok ts Hwf)|..];
    rewrite Ek in *; cbn [fst snd] in *; cbv iota in *.
  - assert (call_ok (cols:=cols) (set_status ST_OK fcd) a) as Hcall' by (by destruct Hcall).
    destruct (op_rewrite_run log_ok ts Hwf (SystemSpec.db_of (held (put_isam (chosen "W" s) w'))) a recs (set_status ST_OK fcd)) as (x & f & Ew & -> & Hok & Hfr);
      [by apply held_table, put_isam_table|done..|].
    assert (fields pk_cols (record fcd) ∈ fields pk_cols <$> recs) as Hex by (rewrite <-Hsame; by apply list_elem_of_fmap_2).
    cbn [record set_status] in Ew, Hok. rewrite bool_decide_true in Ew by done.
    destruct (after_isam "W" s (put_isam (chosen "W" s) w') OP_REWRITE None (set_status ST_OK fcd) a recs (replaced (cols:=cols) (keys:=keys) (record fcd) recs) x
      (set_status ST_OK (answer ST_OK (record fcd) (set_status ST_OK fcd)))) as (s' & Eb & Hs'); try done.
    { rewrite (by_key_replaced ts Hwf comps ixss Hlay Hpk); [exact Hi'|by eapply recs_wf|done|by eexists]. }
    { intros Hm2 _. eapply do_rewrite_w; [done|]. by apply on_dbs_run. }
    exists s'. eexists _, _. split; [exact Eb|]. split; [|exact Hs']. apply dual_file; [|done]. by apply step_rewrite.
  - eexists _, _, recs. split; [done|]. split; [|by apply (ended "W")]. apply dual_file; [|done]. by apply step_rewrite_none.
Qed.

Lemma both_delete_w (s : st) a filename recs fcd : dual_ok s a recs → dual_call "W" s a filename fcd → key_ok pk_cols (record fcd) →
  dual_result (RDelete 0 (record fcd)) recs s a (pqfh OP_DELETE fcd s).
Proof.
  intros Hs Hd Hkey. pose proof Hd as [Hc Hcall Hic]. pose proof Hs as [Ht _]. pose proof Hc as [_ _ _ _ _ _ Hfatal Hlock Hrep _ _ _].
  destruct key_0 as [Hk0 _]. destruct (pk_run ts Hwf) as (key & Hk & _ & Hp & _).
  destruct (w_update OP_DELETE s a filename recs fcd ltac:(right; right; by left) Hs Hd) as (w' & Hi' & ->). unfold isam_apply in *.
  change (OP_DELETE =? OP_WRITE) with false in *. change (OP_DELETE =? OP_REWRITE) with false in *.
  destruct (by_key_cases s a recs (record fcd) Hs) as [(r & Ek & Hin & Hsame & Hr)|[Ek Hno]]; [apply Hic|done|..];
    rewrite Ek in *; cbn [fst snd] in *; cbv iota in *.
  - assert (call_ok (cols:=cols) (set_status ST_OK fcd) a) as Hcall' by (by destruct Hcall).
    destruct (op_delete_run log_ok ts Hwf (SystemSpec.db_of (held (put_isam (chosen "W" s) w'))) a 0 key recs (set_status ST_OK fcd)) as (x & o & Ew & Hfo & Hok & Hfr);
      [by apply held_table, put_isam_table|done|apply Hic|done|by rewrite <-Hp|].
    rewrite <-Hp in Hfo. cbn [record set_status] in Hfo. destruct o as [r2|]; [|by apply Hfo in Hin].
    destruct Hfo as [Hin2 Hsame2]. pose proof (recs_wf _ _ _ Hs) as Hw.
    assert (wf_rec r2) as Hr2w by (by rewrite Forall_forall in Hw; apply Hw).
    destruct (after_isam "W" s (put_isam (chosen "W" s) w') OP_DELETE None (set_status ST_OK fcd) a recs (removed (cols:=cols) (keys:=keys) r2 recs) x
      (set_status ST_OK (set_status ST_OK (set_rec r2 (set_status ST_OK fcd))))) as (s' & Eb & Hs'); try done.
    { rewrite (by_key_removed ts Hwf comps ixss Hlay Hpk) by done.
      rewrite (proj2 (same_key ts Hwf comps ixss Hlay Hpk (record fcd) r2 (ic_rec _ Hic) Hkey Hr2w) Hsame2). exact Hi'. }
    { intros Hm2 _. apply do_delete_w; [done|]. by apply on_dbs_run. }
    exists s'. eexists _, _. split; [exact Eb|]. split; [|exact Hs']. apply dual_file; [|done]. apply step_delete; [done|]. by rewrite Hk0.
  - eexists _, _, recs. split; [done|]. split; [|by apply (ended "W")]. apply dual_file; [|done].
    apply step_delete_none. rewrite Hk0. cbn [record set_status]. intros r Hin E. apply Hno. rewrite <-E. by apply list_elem_of_fmap_2.
Qed.

(** Reads are the ISAM file's: the database has no turn. *)
Lemma both_read_w (s : st) a filename recs fcd : dual_ok s a recs → dual_call "W" s a filename fcd → key_ok pk_cols (record fcd) →
  dual_result (RRead 0 (record fcd)) recs s a (pqfh OP_READ_RANDOM fcd s).
Proof.
  intros Hs [Hc Hcall Hic] Hkey. pose proof Hs as [Ht Hi]. destruct key_0 as [Hk0 _].
  pose proof Hc as [_ _ [_ Hpq] _ His _ Hfatal Hlock _ _ _ _]. destruct (chosen_flags "W" s) as (Hm & Hf & Hl & _).
  destruct (read_run fcd (chosen "W" s) (by_key comps recs) Hic Hi) as (w' & E & Hi').
  rewrite (pqfh_prologue len "W" OP_READ_RANDOM fcd s filename) by first [done|tauto].
  destruct (by_key_cases s a recs (record fcd) Hs) as [(r & Ek & Hin & Hsame & Hr)|[Ek Hno]]; [apply Hic|done|..]; rewrite Ek in E.
  - set (f := set_status ST_OK (set_rec r fcd)) in *. set (x1 := put_isam (chosen "W" s) w').
    assert (bracket len OP_READ_RANDOM None f x1 = (mk_sys (put_locked false (gl (held x1))) (world x1), inr f)) as Eb.
    { apply (bracket_run len OP_READ_RANDOM None f x1 (held x1) f); [by etrans|by etrans|].
      change (do_read OP_READ_RANDOM f (held x1) = (held x1, inr f)). unfold do_read. rewrite (bind_ok _ _ _ _ _ (is_mode_run _ _)).
      change (g_mode (gl (held x1))) with (g_mode (gl (chosen "W" s))). by rewrite Hm. }
    eexists _, f, recs. split; [etrans; [exact (stages_w len _ _ _ _ _ _ E Hm Hm His Hpq ltac:(done))|exact Eb]|].
    split; [apply dual_file; [|done]; apply step_read; [done|by rewrite Hk0]|]. split; [split; [by apply put_isam_table|done]|]. split; [done|].
    change (flags (put_locked false (gl (held (chosen "W" s)))) = flags (gl s)). by apply chosen_locked.
  - eexists _, _, recs. split; [exact (stages_w len _ _ _ _ _ _ E Hm Hm His Hpq ltac:(done))|].
    split; [|by apply (ended "W")]. apply dual_file; [|done]. apply step_read_none. rewrite Hk0. intros r Hin E2. apply Hno. cbn [record set_status] in E2.
    rewrite <-E2. by apply list_elem_of_fmap_2.
Qed.

(** ** Sessions *)

Notation calls_sys := (calls_sys (cols:=cols) env config connects log_ok text_of_file fuel ts).
Notation sys_perform := (sys_perform env config connects log_ok text_of_file fuel ts).

(** The requests of a program in these modes: deletes give the first key, and reads too in mode W. *)
Definition dual_request (md : string) (q : request) : Prop :=
  request_ok (cols:=cols) (keys:=keys) q ∧
  match q with RDelete k _ => k = 0%nat | RRead k _ => md = "W"%string → k = 0%nat | _ => True end.

(** The control block of the session: its first key, and the ISAM file. *)
Definition dual_fcd (fcd : fcd_t) : Prop := fname fcd = m ∧ cmp_comps (kdb fcd) = Some comps ∧ getshort (key_id fcd) = 0.

Lemma dual_one md fcd q (s : st) a filename recs : md = "A"%string ∨ md = "W"%string → dual_ok s a recs → calls_sys md fcd s a filename →
  dual_fcd fcd → dual_request md q → dual_result q recs s a (sys_perform fcd q s).
Proof.
  intros Hmd Hs Hcall (Hn & Hcomps & Hid) [Hq Hdel].
  assert (∀ area, length area = len → dual_call md s a filename (set_key_id (putshort (Z.of_nat 0)) (set_rec area fcd))) as Hk0.
  { intros area Ha. destruct (Hcall area Ha) as [Hc Ho]. split; [by apply call_key|by destruct Ho|by split]. }
  assert (∀ area, length area = len → dual_call md s a filename (set_rec area fcd)) as Hc0.
  { intros area Ha. destruct (Hcall area Ha) as [Hc Ho]. by split; [| |split]. }
  destruct key_0 as [E0 _]. destruct q as [k area|area|area|k area]; cbn [SystemSpec.sys_perform request_ok] in *.
  - destruct Hq as (Hk & Ha & Hkey). destruct Hmd as [->| ->].
    + destruct (lookup_lt_is_Some_2 keys k Hk) as [key E]. rewrite (key_of_lookup _ _ E) in Hkey. destruct (Hcall area Ha) as [Hc Ho].
      apply (both_read s a filename recs (set_key_id (putshort (Z.of_nat k)) (set_rec area fcd)) k key);
        [done|by apply call_key|by destruct Ho|by apply (short_key ts Hwf)|done..].
    + rewrite (Hdel eq_refl) in *. rewrite E0 in Hkey.
      apply (both_read_w s a filename recs (set_key_id (putshort (Z.of_nat 0)) (set_rec area fcd))); [done| |done]. by apply Hk0.
  - assert (dual_call md s a filename (set_rec area fcd)) as Hc by apply Hc0, Hq.
    destruct Hmd as [->| ->]; [by apply (both_write s a filename recs (set_rec area fcd))|by apply (both_write_w s a filename recs (set_rec area fcd))].
  - assert (dual_call md s a filename (set_rec area fcd)) as Hc by apply Hc0, Hq.
    destruct Hmd as [->| ->]; [by apply (both_rewrite s a filename recs (set_rec area fcd))|by apply (both_rewrite_w s a filename recs (set_rec area fcd))].
  - destruct Hq as (Hk & Ha & Hkey). rewrite Hdel, E0 in *. pose proof (Hk0 area Ha) as Hc.
    destruct Hmd as [->| ->]; [by apply (both_delete s a filename recs _ Hs Hc)|by apply (both_delete_w s a filename recs _ Hs Hc)].
Qed.

(** A session of requests, from the records the stores hold to those after it. *)
Inductive dual_run : list bytes → list request → list (bytes * bytes) → list bytes → Prop :=
  | dual_nil recs : dual_run recs [] [] recs
  | dual_cons recs recs1 recs2 q st area qs outs : dual_step recs q st area recs1 → dual_run recs1 qs outs recs2 →
      dual_run recs (q :: qs) ((st, area) :: outs) recs2.

(** C5: In modes A and W every session of requests through the dispatcher - writes, rewrites, deletes
    by the first key, reads by any key (by the first in mode W, where the ISAM file answers them) -
    keeps the ISAM file and the table of the database with the same records; it answers as a
    file with these records, a duplicate key leaving the record area as it was; no update is undone
    or lost, and the JSON documents, the memory files and the flags of the dispatcher stay as
    they were. *)
Theorem system_dual md (s : st) a filename recs fcd qs : md = "A"%string ∨ md = "W"%string → dual_ok s a recs → Forall (dual_request md) qs →
  calls_sys md fcd s a filename → dual_fcd fcd →
  ∃ s' outs recs', sys_perform_all env config connects log_ok text_of_file fuel ts fcd qs s = (s', inr outs) ∧ dual_run recs qs outs recs' ∧
    dual_ok s' a recs' ∧ aside s' = aside s ∧ flags (gl s') = flags (gl s).
Proof.
  intros Hmd Hs Hqs Hcall Hfcd. revert s recs Hs Hcall. induction Hqs as [|q qs Hq _ IH]; intros s recs Hs Hcall.
  - exists s, [], recs. split; [done|]. split; [constructor|]. by split_and!.
  - destruct (dual_one md fcd q s a filename recs Hmd Hs Hcall Hfcd Hq) as (s1 & f & recs1 & E1 & Hstep & Hs1 & Ha1 & Hf1).
    destruct (IH s1 recs1 Hs1) as (s2 & outs & recs2 & E2 & Hrun & Hs2 & Ha2 & Hf2); [by eapply calls_flags|].
    exists s2. eexists _, recs2. cbn [sys_perform_all]. rewrite (bind_ok _ _ _ _ _ E1), (bind_ok _ _ _ _ _ E2).
    split; [done|]. split; [by econstructor|]. split; [done|]. split; congruence.
Qed.

End dual.
