(* ===== verification/SystemConnect.v ===== *)
(** The first call of a program connects to the database (src/pqfh.c pqfh): the encoding is set, a
    transaction begins, and nothing of the tables changes. *)

From stdpp Require Import prelude gmap strings.
From S2P Require Import Prelude Fhtypes Fcd Table Kdb Libpq DbRead DbWrite Sql DbRows DbSession DbSpec Cursor CursorSpec CursorScan JsonFile MemfhCbl Pqfh PqfhSpec System SystemSpec CmpIsam Meta MetaSpec MetaOpen.
Local Open Scope Z_scope.

(** The commands of a new connection: they are accepted and leave the tables, the statements,
    the cursors and the catalog. *)
Class PgConnect (D : Type) `{!Libpq D} {schema name : bytes} {cols : list column_t} {keys : list key_t}
    {P : PgTable D schema name cols keys} (Q : PgCatalog D P) := {
  pg_setup d q : q ∈ [bs "set client_encoding to 'latin1'"; bs "BEGIN"] →
    ∃ d', PQexec q d = (d', mk_res PGRES_COMMAND_OK []) ∧ cat_kept (P:=P) pg_catalog [] d d';
}.

Section connect.
Context {D W : Type} `{!Libpq D, !DbCalls D, !Extfh W, !CmpIsam.IsamFile W}.
Context (env : env_t) (config : option bytes) (connects log_ok : bool) (text_of_file : bytes → option bytes) (fuel : nat).
Context {schema name : bytes} {cols : list column_t} {keys : list key_t}.
Context `{P : !PgTable D schema name cols keys} `{Q : !PgCatalog D P} `{R : !PgConnect D Q} (ts : bytes).

#[local] Instance handlers_c : Handlers (parts D W) := system env config connects log_ok text_of_file ts fuel.
Notation st := (sys (parts D W)).
Notation db_at s := (m_db (y_ms (world s))).
Notation kept := (cat_kept (P:=P) pg_catalog []).
Notation open_call := (open_call (P:=P) (Q:=Q) env fuel ts).

(** The state with the connection [d] and the globals [g] shared. *)
Definition linked (g : globals) (d : D) (w : parts D W) : parts D W :=
  let m := y_ms w in
  mk_parts (mk_ms (mk_dbs d (push g (gdb (m_db m))) (tabs (m_db m)) (tabs_brk (m_db m))) (m_isam m) (m_fcd01 m) (m_fcd02 m) (m_replica m))
    (y_json w) (y_mem w).

Lemma pull_push_same g d : pull (push g d) g = g.
Proof. by destruct g. Qed.

Lemma linked_linked g d d' w : linked g d' (linked g d w) = linked g d' w.
Proof. destruct g, w as [[[? [] ? ?] ? ? ? ?] ? ?]. reflexivity. Qed.

Lemma exec_linked q (s : st) : q ∈ [bs "set client_encoding to 'latin1'"; bs "BEGIN"] →
  ∃ d, on_dbs (pq (PQexec q)) s = (mk_sys (gl s) (linked (gl s) d (world s)), inr (mk_res PGRES_COMMAND_OK [])) ∧ kept (conn (db_at s)) d.
Proof.
  intros Hq. destruct (pg_setup (conn (db_at s)) q Hq) as (d & E & K). exists d. split; [|exact K].
  assert (on_db (pq (PQexec q)) (with_db (gl s) (world s)) =
    (y_ms (linked (gl s) d (world s)), inr (mk_res PGRES_COMMAND_OK []))) as E1.
  { unfold on_db, pq. cbn [with_db m_db conn]. rewrite E. done. }
  unfold on_dbs, on_ms. rewrite E1. cbn [gdb m_db y_ms linked]. by rewrite pull_push_same.
Qed.

Lemma connect_run (s : st) : connects = true → ∃ d,
  connect_db connects s = (mk_sys (put_conn true (gl s)) (linked (gl s) d (world s)), inr tt) ∧ kept (conn (db_at s)) d.
Proof.
  intros ->. unfold connect_db. cbn [negb].
  destruct (exec_linked (bs "set client_encoding to 'latin1'") s ltac:(by left)) as (d1 & E1 & K1).
  rewrite (bind_ok _ _ _ _ _ E1). change (is_command_ok (mk_res PGRES_COMMAND_OK [])) with true. cbn [negb]. cbv iota.
  destruct (exec_linked (bs "BEGIN") (mk_sys (gl s) (linked (gl s) d1 (world s))) ltac:(right; by left)) as (d2 & E2 & K2).
  rewrite (bind_ok _ _ _ _ _ E2). change (is_command_ok (mk_res PGRES_COMMAND_OK [])) with true. cbn [negb]. cbv iota.
  exists d2. split; [|by eapply cat_kept_trans]. rewrite modify_run. cbn [gl world]. by rewrite linked_linked.
Qed.

(** ** The open *)

(** An open relies on the tables of the server, not on the shared globals. *)
Lemma open_call_db (s : st) fcd opcode recs1 recs2 cs : open_call (y_ms (world s)) fcd opcode recs1 recs2 cs →
  open_call (with_db (gl s) (world s)) fcd opcode recs1 recs2 cs.
Proof. intros [? ? ? ? ? ? ? [[] ? ? ? ? ? ? ?] ? ? ? ? ? ? ? ?]. by split. Qed.

Lemma open_call_linked (w : parts D W) g d fcd opcode recs1 recs2 cs : kept (conn (m_db (y_ms w))) d →
  open_call (y_ms w) fcd opcode recs1 recs2 cs → open_call (y_ms (linked g d w)) fcd opcode recs1 recs2 cs.
Proof.
  intros [K1 K2 K3 K4] [? ? ? ? ? ? ? [[] ? ? ? Hcat ? ? ?] ? ? ? ? Hfree Hcur ? ?].
  split; try done.
  - split; try done.
    + destruct Hcat as [? ? ? Hl]. split; cbn [linked y_ms m_db conn]; rewrite ?K4; try done. intros c Hc. rewrite K3; [by apply Hl|apply not_elem_of_nil].
    + cbn [linked y_ms m_db conn]. unfold cat_schema in *. by rewrite K4.
  - cbn [linked y_ms m_db conn]. unfold cat_schema in *. by rewrite K4.
  - intros suffix. apply (K2 _), Hfree.
  - cbn [linked y_ms m_db conn]. rewrite K3; [done|apply not_elem_of_nil].
Qed.

(** The state after the connection. *)
Definition connected (d : D) (s : st) : st := mk_sys (put_conn true (gl s)) (linked (gl (chosen "B" s)) d (world s)).

Lemma put_conn_mode b (g : globals) : get_mode config (put_conn b g) = put_conn b (get_mode config g).
Proof. unfold get_mode. destruct config; [|done]. by repeat case_match. Qed.

Lemma connected_run (s : st) : connects = true → ∃ d,
  h_connect (chosen "B" s) = (chosen "B" (connected d s), inr tt) ∧ kept (conn (db_at s)) d.
Proof.
  intros Hc. destruct (connect_run (chosen "B" s) Hc) as (d & E & K). exists d. split; [|exact K]. etrans; [exact E|].
  unfold chosen. cbn [connected gl world h_pqfh_file handlers_c system]. by rewrite put_conn_mode.
Qed.

(** The first open of a program connects, and goes on as the open of the connected state. *)
Lemma first_call (s : st) opcode fcd : connects = true → g_conn (gl s) = false → is_open opcode = true → open_mode fcd = 128 →
  call_name fcd = Some (fcd, fname fcd) → memeq (fname fcd) (bs "JSON:") 5 = false → g_table_mode (gl s) = 0 →
  g_mode (get_mode config (gl s)) = ch "B" →
  ∃ d, pqfh opcode fcd s = pqfh opcode fcd (connected d s) ∧ kept (conn (db_at s)) d.
Proof.
  intros Hcs Hc Hop Ho Hn Hj Ht Hm. destruct (connected_run s Hcs) as (d & E & K). exists d. split; [|exact K].
  apply (first_open (Z.to_nat (s16 (getshort (rec_len fcd)))) opcode fcd s (connected d s) (fname fcd)); try done.
  change (g_mode (get_mode config (put_conn true (gl s))) = ch "B"). by rewrite put_conn_mode.
Qed.

End connect.
