(* ===== verification/SystemSession.v ===== *)
(** A whole session in mode B through the dispatcher: the open, the requests, the close. *)

From stdpp Require Import prelude gmap strings.
From S2P Require Import Prelude Fhtypes Fcd Table Kdb Libpq DbRead DbWrite Sql DbRows DbSession DbSpec Cursor CursorSpec CursorScan JsonFile MemfhCbl Pqfh PqfhSpec System SystemSpec CmpIsam Meta MetaSpec MetaOpen MetaClose SystemConnect.
Local Open Scope Z_scope.

(** A short name is copied whole. *)
Lemma call_name_short fcd : 0 <= getshort (file_name_len fcd) <= 256 ∧ getshort (file_name_len fcd) <= Z.of_nat (length (file_name fcd)) →
  call_name fcd = Some (fcd, fname fcd).
Proof.
  intros [[H1 H2] H3]. unfold call_name, s16, u16. rewrite Z.mod_small by lia. rewrite (proj2 (Z.ltb_lt _ _)) by lia.
  unfold sub_bytes. rewrite !(proj2 (Z.leb_le _ _)) by lia. cbn [andb mbind option_bind].
  by rewrite (proj2 (Z.ltb_ge _ _)) by lia.
Qed.

Section session.
Context {D W : Type} `{!Libpq D, !DbCalls D, !Extfh W, !CmpIsam.IsamFile W}.
Context (env : env_t) (config : option bytes) (connects log_ok : bool) (text_of_file : bytes → option bytes) (fuel : nat).
Context {schema name : bytes} {cols : list column_t} {keys : list key_t}.
Context `{P : !PgTable D schema name cols keys} `{C : !PgCursor D schema name cols keys} `{Q : !PgCatalog D P} `{R : !PgConnect D Q} (ts : bytes).
Context (Hwf : file_wf (schema:=schema) (name:=name) (cols:=cols) (keys:=keys) ts).
Context (Hword : 32 ∉ name ∧ 32 ∉ ts).

#[local] Instance handlers' : Handlers (parts D W) := system env config connects log_ok text_of_file ts fuel.
Notation st := (sys (parts D W)).
Notation open_call := (open_call (P:=P) (Q:=Q) env fuel ts).
Notation table_ok := (table_ok (P:=P) (W:=W) ts).
Notation calls_sys := (calls_sys (cols:=cols) env config connects log_ok text_of_file fuel ts "B").

(** ** The open *)

(** The state after an operation on the database and the files. *)
Definition put_ms (s : st) (x : mst D W) : st :=
  mk_sys (pull (gdb (m_db x)) (gl s)) (mk_parts x (y_json (world s)) (y_mem (world s))).

Lemma on_ms_run {A} (m : M (mst D W) A) (s : st) x r : m (with_db (gl s) (world s)) = (x, inr r) → on_ms m s = (put_ms s x, inr r).
Proof. intros E. unfold on_ms. by rewrite E. Qed.

Lemma pull_same d d' (g : globals) : g_fatal g = false → gdb_same (push g d) d' → pull d' g = g.
Proof.
  intros Hf (_ & _ & G3 & G4 & G5). unfold pull, shared, push in *. cbn in *. injection G4 as -> -> -> ->.
  rewrite G3, (G5 Hf). by destruct g as [? ? ? ? ? ? [] ? ?].
Qed.

Lemma pull_weak d d' l (g : globals) : d' = set_d_weak l (push g d) → pull d' g = g.
Proof. intros ->. by destruct g. Qed.

(** A program that may open the file: nothing is open, mode B is set. *)
Record session_call (s : st) (fcd : fcd_t) (opcode : Z) (recs1 recs2 : list bytes) (cs : list column_t) : Prop := {
  sc_open : open_call (y_ms (world s)) (opening fcd) opcode recs1 recs2 cs;
  sc_name : memeq (fname fcd) (bs "JSON:") 5 = false ∧ not_pqfh (fname fcd) = true ∧ memeq (fname fcd) (bs "pqfh") 4 = false;
  sc_mode : g_mode (get_mode config (gl s)) = ch "B";
  sc_table_mode : g_table_mode (gl s) = 0;
  sc_flags : flags (gl s) = (true, false, false, false);
  sc_rec : length (record fcd) = cols_len cols;
  sc_status : length (status fcd) = 2%nat;
  sc_len : Z.of_nat (cols_len cols) < 2 ^ 15;
}.

(** A control block with the mode of the file [.pqfh] makes calls in mode B. *)
Lemma session_calls (s s' : st) fcd opcode recs1 recs2 cs f : session_call s fcd opcode recs1 recs2 cs →
  flags (gl s') = flags (gl s) → mode f = 0 → isam f = 0 → file_name f = file_name fcd → file_name_len f = file_name_len fcd →
  rec_len f = rec_len fcd → (cols_len cols ≤ length (record f))%nat → length (status f) = 2%nat →
  call (cols_len cols) "B" f s' (fname fcd).
Proof.
  intros [Ho (N1 & N2 & N3) Hm _ Hfl _ _ Hl] Hf Hm0 Hi0 E1 E2 E3 Hr Hst. rewrite Hfl in Hf. injection Hf as F1 F2 F3 F4.
  split; try done.
  - assert (fname fcd = fname f) as -> by (unfold fname; by rewrite E1, E2). apply call_name_short. rewrite E1, E2. apply (oc_fnlen _ _ _ _ _ _ _ _ _ Ho).
  - unfold call_mode. rewrite Hm0. change (0 =? 0) with true. cbv iota. rewrite <-Hm. unfold get_mode. cbn [h_pqfh_file handlers' system].
    by destruct config; repeat case_match.
  - by rewrite Hi0.
  - rewrite E3. change (rec_len fcd) with (rec_len (opening fcd)). rewrite (oc_reclen _ _ _ _ _ _ _ _ _ Ho).
    unfold s16, u16. rewrite Z.mod_small by lia. rewrite (proj2 (Z.ltb_lt _ _)) by lia. apply Nat2Z.id.
Qed.

(** The JSON documents and the memory files. *)
Definition apart (s : st) : jheap * cbl_state := (y_json (world s), y_mem (world s)).
Notation db_at s := (m_db (y_ms (world s))).

(** No cursor is open on the table at [a]. *)
Definition no_cursor (s : st) (a : Z) : Prop :=
  (∃ t, tabs (db_at s) !! a = Some t ∧ t_cursor t = false) ∧ pg_cursor (conn (db_at s)) (cname (name:=name) ts) = None.

(** A table that was not read since its open: what the starts depend on. *)
Definition just_opened (s s' : st) (a : Z) : Prop :=
  (∃ t, sess_ok (PgTable0:=P) ts (db_at s') a t ∧ t_cursor t = false ∧ t_partial_key t = d_ncomps (gdb (db_at s)) ∧
    t_restart t = 0 ∧ t_key_next t = -1 ∧ t_key_prev t = -1) ∧
  gdb_same (push (gl (held (chosen "B" s))) (gdb (db_at s))) (gdb (db_at s')) ∧
  gl s' = put_locked false (gl (held (chosen "B" s))).

Lemma sys_open_run (s : st) fcd opcode recs1 recs2 cs recs : session_call s fcd opcode recs1 recs2 cs →
  rows_ok (P:=P) (conn (db_at s)) recs → let a := tabs_brk (db_at s) in let f := opened (opening fcd) opcode a in
  ∃ s', pqfh opcode fcd s = (s', inr f) ∧ calls_sys f s' a (fname fcd) ∧ table_ok s' a (kept_rows opcode recs) ∧
    no_cursor s' a ∧ apart s' = apart s ∧ flags (gl s') = flags (gl s) ∧ just_opened s s' a.
Proof.
  intros Hc Hrows a f. pose proof Hc as [Ho (N1 & N2 & N3) Hm Ht Hfl Hrec Hst Hl].
  pose proof Hfl as Hfl'. injection Hfl' as F1 F2 F3 F4. set (s1 := held (chosen "B" s)).
  destruct (chosen_flags "B" s) as (Hg1 & Hg2 & _).
  assert (open_call (with_db (gl s1) (world s1)) (opening fcd) opcode recs1 recs2 cs) as Ho1 by (by apply open_call_db).
  destruct (op_open_run _ _ _ _ _ _ _ _ _ Ho1) as (x & t & E & Hs & Hcur & Hpk & Hre & Hkn & Hkp & Hr & Hpc & Hgdb & _).
  change (tabs_brk (m_db (with_db (gl s1) (world s1)))) with a in E, Hs. fold f in E.
  assert (gl (put_ms s1 x) = gl s1) as Hgl.
  { apply (pull_same (gdb (m_db (y_ms (world s1))))); [|exact Hgdb]. change (g_fatal (gl (chosen "B" s)) = false). by rewrite Hg2. }
  assert (is_open opcode = true) as Hop.
  { pose proof (oc_op _ _ _ _ _ _ _ _ _ Ho) as H1. rewrite !elem_of_cons, elem_of_nil in H1. by destruct H1 as [->|[->|[->|[->|[]]]]]. }
  assert (flags (put_locked false (gl (put_ms s1 x))) = flags (gl s)) as Hf2 by (rewrite Hgl; by apply chosen_locked).
  exists (mk_sys (put_locked false (gl (put_ms s1 x))) (world (put_ms s1 x))). split; [|split; [|split; [|split; [|split; [done|split; [done|]]]]]].
  - apply (call_open (cols_len cols) opcode fcd s (fname fcd)); try done.
    + apply (oc_closed _ _ _ _ _ _ _ _ _ Ho).
    + apply call_name_short, (oc_fnlen _ _ _ _ _ _ _ _ _ Ho).
    + eapply session_calls; try done. cbn [record opening set_isam set_mode]. lia.
    + apply do_open_b; [done|exact Hg1|by rewrite Hgl|done|]. apply on_ms_run, E.
  - intros area Ha. split; [|by eapply (opened_call (P:=P) (Q:=Q) env fuel ts)]. eapply session_calls; try done. cbn [record set_rec]. lia.
  - split; [by exists t|]. by eapply kept_rows_ok.
  - split; [exists t; split; [apply Hs|done]|done].
  - split; [by exists t|]. split; [exact Hgdb|]. cbn [gl]. by rewrite Hgl.
Qed.

(** ** The close *)

Lemma no_cursor_still a (s s' : st) : still (P:=P) a s s' → no_cursor s a → no_cursor s' a.
Proof.
  intros (Hc & t & t' & T1 & T2 & (_ & S2 & _)) [(t0 & T0 & Hcur) Hn]. split; [|by rewrite Hc].
  exists t'. split; [done|]. assert (t0 = t) as -> by congruence. congruence.
Qed.

(** A close of the table, with its cursor open or not. *)
Lemma sys_close_any (s : st) fcd a filename t recs : sess_ok (PgTable0:=P) ts (db_at s) a t → cursor_ok ts (conn (db_at s)) t →
  rows_ok (P:=P) (conn (db_at s)) recs → close_call fcd a → name ≠ bs "pqfh" → call (cols_len cols) "B" fcd s filename →
  ∃ s', pqfh OP_CLOSE fcd s = (s', inr (set_status ST_OK (set_open_mode ST_OPEN_CLOSED fcd))) ∧
    tabs (db_at s') !! a = None ∧ rows_ok (P:=P) (conn (db_at s')) recs ∧ apart s' = apart s ∧ flags (gl s') = flags (gl s) ∧
    (∀ suffix, suffix ∈ bs "ins" :: bs "upd" :: bs "del" :: ((λ k, fmt_d (Z.of_nat k)) <$> seq 0 (length keys)) →
      pg_free (conn (db_at s')) (sname (name:=name) ts suffix)).
Proof.
  intros Hs Hck Hrows Hcl Hn Hc. set (s1 := held (chosen "B" s)). destruct (chosen_flags "B" s) as (Hg1 & _).
  assert (sess_ok (PgTable0:=P) ts (SystemSpec.db_of s1) a t) as Hs1 by (destruct Hs as (? & ? & ? & ?); by split_and!).
  destruct (op_close_run ts Hwf Hword (SystemSpec.db_of s1) fcd a t Hcl Hs1 Hck Hn) as (x & E & Hdel & _ & Hfree & _ & _ & Hr & Hg).
  assert (gl (put_db s1 x) = gl s1) as Hgl by (eapply pull_weak, Hg).
  exists (mk_sys (put_locked false (gl (put_db s1 x))) (world (put_db s1 x))).
  split; [|split; [exact Hdel|split; [|split; [done|split; [|exact Hfree]]]]].
  - eapply call_b; [exact Hc|done|]. apply do_close_b; [exact Hg1|by rewrite Hgl|]. by apply on_dbs_run.
  - destruct Hrows as [Hp Hrest]. split; [|exact Hrest]. change (pg_rows (conn x) ≡ₚ row_img <$> recs). by rewrite Hr.
  - rewrite Hgl. apply chosen_locked, Hc.
Qed.

Lemma sys_close_run (s : st) fcd a filename recs : table_ok s a recs → no_cursor s a → close_call fcd a → name ≠ bs "pqfh" →
  call (cols_len cols) "B" fcd s filename →
  ∃ s', pqfh OP_CLOSE fcd s = (s', inr (set_status ST_OK (set_open_mode ST_OPEN_CLOSED fcd))) ∧
    tabs (db_at s') !! a = None ∧ rows_ok (P:=P) (conn (db_at s')) recs ∧ apart s' = apart s ∧ flags (gl s') = flags (gl s) ∧
    (∀ suffix, suffix ∈ bs "ins" :: bs "upd" :: bs "del" :: ((λ k, fmt_d (Z.of_nat k)) <$> seq 0 (length keys)) →
      pg_free (conn (db_at s')) (sname (name:=name) ts suffix)).
Proof.
  intros [[t Hs] Hrows] [(t' & Ta & Hcur) Hpc]. assert (t' = t) as -> by (pose proof (proj1 Hs); congruence).
  apply (sys_close_any s fcd a filename t recs Hs); [|done]. unfold cursor_ok. by rewrite Hcur.
Qed.

(** ** The session *)

(** A program whose first call this may be: the call connects, or one before it did. *)
Record program_call (s : st) (fcd : fcd_t) (opcode : Z) (recs1 recs2 : list bytes) (cs : list column_t) : Prop := {
  pc_session : session_call (mk_sys (put_conn true (gl s)) (world s)) fcd opcode recs1 recs2 cs;
  pc_connects : g_conn (gl s) = true ∨ connects = true;
}.

(** What stays between the first call and the state it goes on from. *)
Record joined (s s0 : st) : Prop := {
  jn_gl : gl s0 = put_conn true (gl s);
  jn_rows : pg_rows (conn (db_at s0)) = pg_rows (conn (db_at s));
  jn_tabs : tabs_brk (db_at s0) = tabs_brk (db_at s);
  jn_weak : d_weak (gdb (db_at s0)) = d_weak (gdb (db_at s)) ∧ d_ncomps (gdb (db_at s0)) = d_ncomps (gdb (db_at s));
  jn_apart : apart s0 = apart s;
}.

Lemma joined_rows s s0 recs : joined s s0 → rows_ok (P:=P) (conn (db_at s)) recs → rows_ok (P:=P) (conn (db_at s0)) recs.
Proof. intros [_ Hr _ _ _] Hrows. unfold DbSpec.rows_ok in *. by rewrite Hr. Qed.

Lemma program_joined (s : st) fcd opcode recs1 recs2 cs : program_call s fcd opcode recs1 recs2 cs →
  ∃ s0, session_call s0 fcd opcode recs1 recs2 cs ∧ pqfh opcode fcd s = pqfh opcode fcd s0 ∧ joined s s0.
Proof.
  intros [Hc Hcon]. pose proof Hc as [Ho (N1 & N2 & N3) Hm Ht Hfl Hrec Hst Hl]. destruct (g_conn (gl s)) eqn:E.
  - assert (mk_sys (put_conn true (gl s)) (world s) = s) as Es by (destruct s as [[] w]; cbn in E; by subst).
    exists s. rewrite Es in Hc. split; [done|]. split; [done|]. split; try done. rewrite <-Es at 1. done.
  - destruct Hcon as [|Hcon]; [done|]. change (g_mode (get_mode config (put_conn true (gl s))) = ch "B") in Hm. rewrite put_conn_mode in Hm.
    assert (is_open opcode = true) as Hop.
    { pose proof (oc_op _ _ _ _ _ _ _ _ _ Ho) as H1. rewrite !elem_of_cons, elem_of_nil in H1. by destruct H1 as [->|[->|[->|[->|[]]]]]. }
    destruct (first_call env config connects log_ok text_of_file fuel ts s opcode fcd Hcon E Hop) as (d & Ed & K); try done.
    { apply (oc_closed _ _ _ _ _ _ _ _ _ Ho). }
    { apply call_name_short, (oc_fnlen _ _ _ _ _ _ _ _ _ Ho). }
    exists (connected env config connects log_ok text_of_file fuel ts d s). split; [|split; [exact Ed|]].
    + split; try done; [by apply (open_call_linked env fuel ts)|]. change (g_mode (get_mode config (put_conn true (gl s))) = ch "B"). by rewrite put_conn_mode.
    + split; try done. apply (ck_rows _ _ _ _ K).
Qed.

Notation sys_perform_all := (sys_perform_all env config connects log_ok text_of_file fuel ts).

(** The open, the requests and the close: the statuses of the first and the last, and what
    each request answers. *)
Definition sys_session (fcd : fcd_t) (opcode : Z) (qs : list request) : M st (bytes * list (bytes * bytes) * bytes) :=
  f ← pqfh opcode fcd;
  outs ← sys_perform_all f qs;
  h ← pqfh OP_CLOSE f;
  mret (status f, outs, status h).

(** From the connected state. *)
Lemma session_run (s : st) fcd opcode recs1 recs2 cs recs qs : session_call s fcd opcode recs1 recs2 cs →
  rows_ok (P:=P) (conn (db_at s)) recs → Forall (request_ok (cols:=cols) (keys:=keys)) qs →
  (∀ c, c ∈ pk_cols (cols:=cols) (keys:=keys) → is_num c = true → col_dec c = 0%nat) →
  ∃ s' outs recs', sys_session fcd opcode qs s = (s', inr (ST_OK, outs, ST_OK)) ∧
    file_run (cols:=cols) (keys:=keys) (kept_rows opcode recs) qs outs recs' ∧
    rows_ok (P:=P) (conn (db_at s')) recs' ∧ tabs (db_at s') !! tabs_brk (db_at s) = None ∧
    (∀ suffix, suffix ∈ bs "ins" :: bs "upd" :: bs "del" :: ((λ k, fmt_d (Z.of_nat k)) <$> seq 0 (length keys)) →
      pg_free (conn (db_at s')) (sname (name:=name) ts suffix)) ∧
    apart s' = apart s ∧ flags (gl s') = flags (gl s).
Proof.
  intros Hc Hrows Hqs Hdec. pose proof (sc_open _ _ _ _ _ _ Hc) as Ho.
  destruct (sys_open_run s fcd opcode recs1 recs2 cs recs Hc Hrows) as (s1 & E1 & Hcalls & Ht1 & Hn1 & Ha1 & Hf1 & _).
  set (a := tabs_brk (db_at s)) in *. set (f := opened (opening fcd) opcode a) in *.
  destruct (sys_perform_all_run env config connects log_ok text_of_file fuel ts Hwf s1 a (fname fcd) _ f qs Ht1 Hqs Hcalls Hdec)
    as (s2 & outs & recs' & E2 & Hrun & Ht2 & Ho2 & Hf2 & Hst).
  destruct (sys_close_run s2 f a (fname fcd) recs' Ht2 (no_cursor_still _ _ _ Hst Hn1)) as (s3 & E3 & Hdel & Hr3 & Ha3 & Hf3 & Hfree).
  - split; [apply opened_mode, Ho|apply opened_file, (oc_brk _ _ _ _ _ _ _ _ _ Ho)|done|apply (oc_fnlen _ _ _ _ _ _ _ _ _ Ho)].
  - apply (oc_pqfh _ _ _ _ _ _ _ _ _ Ho).
  - eapply session_calls; try done; [congruence|]. change (record f) with (record fcd). rewrite (sc_rec _ _ _ _ _ _ Hc). done.
  - exists s3, outs, recs'. split; [|split; [done|split; [done|split; [done|split; [done|split; [|congruence]]]]]].
    + unfold sys_session. rewrite (bind_ok _ _ _ _ _ E1), (bind_ok _ _ _ _ _ E2), (bind_ok _ _ _ _ _ E3). done.
    + rewrite Ha3, <-Ha1. unfold apart. injection Ho2 as _ _ _ -> ->. done.
Qed.

(** C4: A session of the whole handler in mode B - a call of the dispatcher to open a table the
    dictionary and the catalog know, which connects to the database when it is the first, any sequence of reads, writes, rewrites and deletes, and
    the close - answers 00 to the open and the close and to the requests what an indexed file
    with the rows of the table answers (none after an open for output); it ends with the rows
    of that file in the table, the table freed and its statements forgotten by the server, the
    mutex free, and the JSON documents and the memory files as they were. *)
Theorem system_session (s : st) fcd opcode recs1 recs2 cs recs qs : program_call s fcd opcode recs1 recs2 cs →
  rows_ok (P:=P) (conn (db_at s)) recs → Forall (request_ok (cols:=cols) (keys:=keys)) qs →
  (∀ c, c ∈ pk_cols (cols:=cols) (keys:=keys) → is_num c = true → col_dec c = 0%nat) →
  ∃ s' outs recs', sys_session fcd opcode qs s = (s', inr (ST_OK, outs, ST_OK)) ∧
    file_run (cols:=cols) (keys:=keys) (kept_rows opcode recs) qs outs recs' ∧
    rows_ok (P:=P) (conn (db_at s')) recs' ∧ tabs (db_at s') !! tabs_brk (db_at s) = None ∧
    (∀ suffix, suffix ∈ bs "ins" :: bs "upd" :: bs "del" :: ((λ k, fmt_d (Z.of_nat k)) <$> seq 0 (length keys)) →
      pg_free (conn (db_at s')) (sname (name:=name) ts suffix)) ∧
    apart s' = apart s ∧ flags (gl s') = (true, false, false, false).
Proof.
  intros Hp Hrows Hqs Hdec. destruct (program_joined s fcd opcode recs1 recs2 cs Hp) as (s0 & Hc & E & Hj).
  destruct (session_run s0 fcd opcode recs1 recs2 cs recs qs Hc (joined_rows _ _ _ Hj Hrows) Hqs Hdec)
    as (s' & outs & recs' & E' & H1 & H2 & H3 & H4 & H5 & H6). rewrite (jn_tabs _ _ Hj) in H3. rewrite (jn_apart _ _ Hj) in H5.
  exists s', outs, recs'. rewrite <-(sc_flags _ _ _ _ _ _ Hc). split; [|done]. etrans; [apply (bind_same _ _ _ _ E)|exact E'].
Qed.

End session.
