(* ===== verification/SystemScan.v ===== *)
(** A start and the reads after it through the whole handler: a program in mode B opens a table, starts
    on a key, reads to the end and closes (the dispatcher of src/pqfh.c over src/op_start.c and
    src/op_next_prev.c). *)

From stdpp Require Import prelude gmap strings.
From S2P Require Import Prelude Fhtypes Fcd Table Kdb Libpq DbRead DbWrite Sql DbRows DbSession DbSpec Cursor CursorSpec CursorScan JsonFile MemfhCbl Pqfh PqfhSpec System SystemSpec CmpIsam Meta MetaSpec MetaOpen MetaClose SystemConnect SystemSession.
Local Open Scope Z_scope.

(** The operation of the key for a start. *)
Definition start_text (op : Z) : bytes :=
  if op =? OP_START_GT then bs ">" else if op =? OP_START_GE then bs ">=" else if op =? OP_START_LT then bs "<"
  else if op =? OP_START_LE then bs "<=" else bs "=".
Definition start_codes : list Z := [OP_START_GT; OP_START_GE; OP_START_LT; OP_START_LE; OP_START_EQ].
Definition read_dir (op : Z) : Z := if op =? OP_READ_NEXT then ch "n" else ch "p".
Definition read_codes : list Z := [OP_READ_NEXT; OP_READ_PREVIOUS].

Lemma codes_cases op : op ∈ start_codes ++ read_codes → op = OP_START_GT ∨ op = OP_START_GE ∨ op = OP_START_LT ∨ op = OP_START_LE ∨
  op = OP_START_EQ ∨ op = OP_READ_NEXT ∨ op = OP_READ_PREVIOUS.
Proof. unfold start_codes, read_codes. rewrite elem_of_app, !elem_of_cons, !elem_of_nil. tauto. Qed.

Lemma read_not_start op : op ∈ read_codes → bool_decide (op ∈ start_codes) = false.
Proof. unfold read_codes. rewrite !elem_of_cons, elem_of_nil. by intros [->|[->|[]]]. Qed.

Section scan.
Context {D W : Type} `{!Libpq D, !DbCalls D, !Extfh W, !CmpIsam.IsamFile W}.
Context (env : env_t) (config : option bytes) (connects log_ok : bool) (text_of_file : bytes → option bytes) (fuel : nat).
Context {schema name : bytes} {cols : list column_t} {keys : list key_t}.
Context `{P : !PgTable D schema name cols keys} `{C : !PgCursor D schema name cols keys} `{Q : !PgCatalog D P} `{R : !PgConnect D Q} (ts : bytes).
Context (Hwf : file_wf (schema:=schema) (name:=name) (cols:=cols) (keys:=keys) ts).
Context (Hword : 32 ∉ name ∧ 32 ∉ ts).

#[local] Instance handlers_s : Handlers (parts D W) := system env config connects log_ok text_of_file ts fuel.
Notation st := (sys (parts D W)).
Notation db_at s := (m_db (y_ms (world s))).
Notation cols_at := (cols_at (cols:=cols)).
Notation at_rest := (at_rest (P:=P) ts).
Notation scan_of := (scan_of (schema:=schema) (name:=name) (cols:=cols) (keys:=keys)).

(** The reads of a program, up to one that does not succeed: the records, and the control block. *)
Fixpoint sys_reads (fuel : nat) (op : Z) (fcd : fcd_t) : M st (list bytes * fcd_t) :=
  match fuel with
  | O => stop NoFuel
  | S fuel' =>
      f ← pqfh op fcd;
      if is_ok f then r ← sys_reads fuel' op f; mret (record f :: fst r, snd r)
      else mret ([], f)
  end.

(** The open, the start on the key [k] with the record area [area], the reads, the close. *)
Definition scan_session (n : nat) (fcd : fcd_t) (opcode sop : Z) (k : nat) (area : bytes) (rop : Z) : M st (list bytes * list bytes) :=
  f ← pqfh opcode fcd;
  g ← pqfh sop (set_key_id (putshort (Z.of_nat k)) (set_rec area f));
  r ← (if is_ok g then sys_reads n rop g else mret ([], g));
  h ← pqfh OP_CLOSE (snd r);
  mret (fst r, [status f; status g; status (snd r); status h]).

(** ** One call *)

Lemma at_rest_db (s : st) b a t rest : at_rest b (db_at s) a t rest ↔ at_rest b (db_of s) a t rest.
Proof.
  split; intros [Hs ? ? ? ? ?]; split; try done; by (destruct Hs as (? & ? & ? & ?); split_and!).
Qed.

(** A call that leaves the globals of the database, but for the flag of the start, leaves those of the
    dispatcher. *)
Lemma put_db_read (s : st) x : gdb x = gdb (db_of s) ∨ gdb x = set_d_eof_start false (gdb (db_of s)) → gl (put_db s x) = gl s.
Proof. intros [E|E]; unfold put_db; cbn [gl]; rewrite E; change (gdb (db_of s)) with (push (gl s) (gdb (db_at s))); by destruct (gl s). Qed.

(** The state after a call of the dispatcher in mode B that ends with the database [x]. *)
Definition after (s : st) (x : dbs D) : st :=
  let s2 := put_db (held (chosen "B" s)) x in mk_sys (put_locked false (gl s2)) (world s2).

Lemma after_flags s x : g_locked (gl s) = false →
  gdb x = gdb (db_of (held (chosen "B" s))) ∨ gdb x = set_d_eof_start false (gdb (db_of (held (chosen "B" s)))) →
  flags (gl (after s x)) = flags (gl s).
Proof. intros Hl Hg. unfold after. cbn [gl]. rewrite (put_db_read _ _ Hg). by apply chosen_locked. Qed.

Lemma read_call op fcd (s : st) filename x f : call (cols_len cols) "B" fcd s filename → op ∈ start_codes ++ read_codes →
  (if bool_decide (op ∈ start_codes) then op_start log_ok fcd (start_text op) else op_next_prev fcd (read_dir op)) (db_of (held (chosen "B" s))) = (x, inr f) →
  pqfh op fcd s = (after s x, inr f).
Proof.
  intros Hc Hop%codes_cases E. destruct (chosen_flags "B" s) as (Hm & _). set (s1 := held (chosen "B" s)) in *.
  assert (g_mode (gl s1) = ch "B") as Hm1 by exact Hm.
  apply (call_b (cols_len cols) op fcd s filename _ _ Hc); [by destruct Hop as [->|[->|[->|[->|[->|[->| ->]]]]]]|]. fold s1.
  assert (do_op op None (cols_len cols) fcd s1 = do_read op fcd s1) as -> by (by destruct Hop as [->|[->|[->|[->|[->|[->| ->]]]]]]).
  unfold do_read. rewrite (bind_ok _ _ _ _ _ (is_mode_run _ _)), Hm1. change (ch "B" =? ch "W") with false. cbv iota.
  destruct Hop as [->|[->|[->|[->|[->|[->| ->]]]]]]; by apply on_dbs_run.
Qed.

(** *** The reads *)

(** The control block of the program: that of the open file, with the key of the start. *)
Record like (s0 : st) (fcd0 : fcd_t) (a : Z) (k : nat) (f : fcd_t) : Prop := {
  lk_call : call_ok (cols:=cols) f a;
  lk_mode : mode f = 0 ∧ isam f = 0;
  lk_name : file_name f = file_name fcd0 ∧ file_name_len f = file_name_len fcd0 ∧ rec_len f = rec_len fcd0;
  lk_status : length (status f) = 2%nat;
  lk_sign : sign f = ch "P";
  lk_key : getshort (key_id f) = Z.of_nat k;
}.

Lemma like_calls s0 fcd0 a k f opcode recs1 recs2 cs s : session_call (P:=P) (Q:=Q) env config fuel ts s0 fcd0 opcode recs1 recs2 cs →
  flags (gl s) = flags (gl s0) → like s0 fcd0 a k f → call (cols_len cols) "B" f s (fname fcd0).
Proof.
  intros Hc Hf [Hk (M1 & M2) (N1 & N2 & N3) Hs _ _]. eapply session_calls; try done. destruct Hk; lia.
Qed.

Lemma like_answer s0 fcd0 a k f stt r : like s0 fcd0 a k f → length stt = 2%nat → length r = cols_len cols → like s0 fcd0 a k (set_status stt (set_rec r f)).
Proof. intros [[] ? ? ? ? ?] Hs Hr. by split. Qed.

Lemma like_status s0 fcd0 a k f stt : like s0 fcd0 a k f → length stt = 2%nat → like s0 fcd0 a k (set_status stt f).
Proof. intros [[] ? ? ? ? ?] Hs. by split. Qed.

Lemma sys_reads_run s0 fcd0 opcode recs1 recs2 cs a k key rop : session_call (P:=P) (Q:=Q) env config fuel ts s0 fcd0 opcode recs1 recs2 cs →
  rop ∈ read_codes → keys !! k = Some key → ∀ rest (s : st) t f n, flags (gl s) = flags (gl s0) → like s0 fcd0 a k f →
  at_rest false (db_at s) a t rest → (length rest < n)%nat →
  ∃ s' g t', sys_reads n rop f s = (s', inr (rest, g)) ∧ status g = ST_EOF ∧ like s0 fcd0 a k g ∧ at_rest false (db_at s') a t' [] ∧
    t_cursor t' = t_cursor t ∧ pg_rows (conn (db_at s')) = pg_rows (conn (db_at s)) ∧ apart s' = apart s ∧ flags (gl s') = flags (gl s).
Proof.
  intros Hc Hop Hk. assert (is_dir (read_dir rop)) as Hdir.
  { unfold read_codes in Hop. rewrite !elem_of_cons, elem_of_nil in Hop. destruct Hop as [->|[->|[]]]; [by left|by right]. }
  pose proof (read_not_start _ Hop) as Hns.
  induction rest as [|r rest IH]; intros s t f n Hf Hlk Hat Hn; (destruct n as [|n]; [cbn in Hn; lia|]); cbn [sys_reads];
    pose proof (proj1 (at_rest_db (held (chosen "B" s)) _ _ _ _) Hat) as Hat';
    destruct (op_next_prev_run ts Hwf Hword _ a t _ (read_dir rop) f k key Hat' (lk_call _ _ _ _ _ Hlk) (lk_key _ _ _ _ _ Hlk) Hk Hdir)
      as (x & t' & E & Hat2 & Hcur & Hr & Hg);
    (assert (pqfh rop f s = (after s x, inr _)) as Ec by
      (eapply read_call; [by eapply like_calls|apply elem_of_app; by right|rewrite Hns; exact E]));
    rewrite (bind_ok _ _ _ _ _ Ec);
    pose proof (after_flags s x ltac:(by injection Hf as _ _ -> _; injection (sc_flags _ _ _ _ _ _ _ _ _ _ Hc)) (or_introl Hg)) as Hfl.
  - change (is_ok (set_status ST_EOF f)) with false. cbv iota. exists (after s x), (set_status ST_EOF f), t'. split; [done|]. split; [done|].
    split; [by apply like_status|by split_and!].
  - change (is_ok (set_status ST_OK (set_rec r f))) with true. cbv iota. pose proof (ar_wf _ _ _ _ _ _ Hat) as [Hwr _]%Forall_cons.
    destruct (IH (after s x) t' (set_status ST_OK (set_rec r f)) n) as (s' & g & t2 & E2 & Hs2 & Hlk2 & Hat3 & Hc2 & Hr2 & Ha2 & Hf2); [congruence|..].
    + by apply like_answer; [|..|apply (wr_len _ Hwr)].
    + exact Hat2.
    + cbn in Hn. lia.
    + exists s', g, t2. rewrite (bind_ok _ _ _ _ _ E2). cbn [fst snd record set_status set_rec]. split; [done|]. split; [done|]. split; [done|].
      split; [done|]. split; [congruence|]. split; [by rewrite Hr2|]. split; [by rewrite Ha2|congruence].
Qed.

(** *** The start *)

Lemma force_kept b m g : g_force_partial (get_mode config g) = false →
  g_force_partial (get_mode config (put_locked b (put_mode m (put_table_mode 0 (get_mode config g))))) = false.
Proof. unfold get_mode. destruct config as [text|]; [|done]. repeat case_match; cbn in *; congruence. Qed.

(** After the open a start on any key is one on a table not read yet. *)
Lemma opened_start (s0 s : st) a : just_opened (P:=P) env config connects log_ok text_of_file fuel ts s0 s a → name ∉ d_weak (gdb (db_at s0)) →
  pg_cursor (conn (db_at s)) (cname (name:=name) ts) = None →
  g_force_partial (get_mode config (gl s0)) = false → d_ncomps (gdb (db_at s0)) = 0%nat →
  ∃ t, can_start (P:=P) ts (db_of (held (chosen "B" s))) a t ∧ ∀ op k area, fresh_start t op k (default [] (cols_at ∘ k_columns <$> keys !! k)) area.
Proof.
  intros ((t & Hs & Hcur & Hpk & Hre & Hkn & Hkp) & (_ & G2 & _) & Hgl) Hweak Hpc Hforce Hnc. exists t. split.
  - split.
    + by destruct Hs as (? & ? & ? & ?); split_and!.
    + unfold cursor_ok. by rewrite Hcur.
    + change (name ∉ d_weak (gdb (db_at s))). by rewrite G2.
    + change (g_force_partial (get_mode config (gl s)) = false). rewrite Hgl. by apply (force_kept false (ch "B")).
    + by rewrite Hpk.
  - intros op k area. split; [done|]. unfold same_start. rewrite Hkn, Hkp.
    assert ((Z.of_nat k =? -1) = false) as -> by (apply Z.eqb_neq; lia). by rewrite !andb_false_r.
Qed.

(** A program that may open the table, start on a key and read. *)
Record scan_call (s : st) (fcd : fcd_t) (opcode : Z) (recs1 recs2 : list bytes) (cs : list column_t) (recs : list bytes)
    (sop : Z) (k : nat) (key : key_t) (area : bytes) (rop : Z) : Prop := {
  nc_session : session_call (P:=P) (Q:=Q) env config fuel ts s fcd opcode recs1 recs2 cs;
  nc_rows : rows_ok (P:=P) (conn (db_at s)) recs;
  nc_key : keys !! k = Some key;
  nc_start : sop ∈ start_codes;
  nc_read : rop ∈ read_codes;
  nc_area : length area = cols_len cols ∧ start_area (cols_at (k_columns key)) area;
  nc_fits : start_fits (schema:=schema) (cols:=cols) key;
  nc_weak : name ∉ d_weak (gdb (db_at s));
  nc_force : g_force_partial (get_mode config (gl s)) = false;
  nc_ncomps : d_ncomps (gdb (db_at s)) = 0%nat;
}.

Lemma start_text_op op : op ∈ start_codes → start_text op ∈ start_ops.
Proof. unfold start_codes. rewrite !elem_of_cons, elem_of_nil. intros [->|[->|[->|[->|[->|[]]]]]]; by apply (bool_decide_unpack _). Qed.

(** The control block of the open, with the key and the area of the start. *)
Definition started (k : nat) (area : bytes) (f : fcd_t) : fcd_t := set_key_id (putshort (Z.of_nat k)) (set_rec area f).

Lemma opened_like s fcd opcode recs1 recs2 cs k key area : session_call (P:=P) (Q:=Q) env config fuel ts s fcd opcode recs1 recs2 cs →
  keys !! k = Some key → length area = cols_len cols →
  like s fcd (tabs_brk (db_at s)) k (started k area (opened (opening fcd) opcode (tabs_brk (db_at s)))).
Proof.
  intros Hc Hk Ha. pose proof (sc_open _ _ _ _ _ _ _ _ _ _ Hc) as Ho. pose proof (opened_call (P:=P) (Q:=Q) env fuel ts _ _ _ _ _ _ area Ho Ha) as [].
  split; try done. destruct (keys_bound ts Hwf _ _ Hk) as [Hb _].
  change (getshort (putshort (Z.of_nat k)) = Z.of_nat k). pose proof (getshort_putshort (Z.of_nat k) [] ltac:(unfold MAX_KEYS in Hb; lia)) as E. by rewrite app_nil_r in E.
Qed.

(** The start: the first record of the scan in the area, or 23. *)
Lemma sys_start_run (s0 s : st) fcd opcode recs1 recs2 cs recs recs0 sop k key area rop f : let a := tabs_brk (db_at s0) in
  scan_call s0 fcd opcode recs1 recs2 cs recs0 sop k key area rop → f = started k area (opened (opening fcd) opcode a) →
  just_opened (P:=P) env config connects log_ok text_of_file fuel ts s0 s a → no_cursor (P:=P) ts s a →
  rows_ok (P:=P) (conn (db_at s)) recs → flags (gl s) = flags (gl s0) →
  ∃ s' g t out, pqfh sop f s = (s', inr g) ∧ like s0 fcd a k g ∧ scan_of (start_text sop) (cols_at (k_columns key)) area recs out ∧
    match out with [] => status g = ST_REC_NOT_FOUND | r :: _ => status g = ST_OK ∧ record g = r end ∧
    at_rest (bool_decide (out ≠ [])) (db_at s') a t (tail out) ∧ t_cursor t = true ∧
    pg_rows (conn (db_at s')) = pg_rows (conn (db_at s)) ∧ apart s' = apart s ∧ flags (gl s') = flags (gl s).
Proof.
  intros a Hn -> Hj [_ Hpc] Hrows Hf. pose proof (nc_session _ _ _ _ _ _ _ _ _ _ _ _ Hn) as Hc. pose proof (nc_key _ _ _ _ _ _ _ _ _ _ _ _ Hn) as Hk.
  pose proof (nc_area _ _ _ _ _ _ _ _ _ _ _ _ Hn) as [Hl Harea]. pose proof (nc_start _ _ _ _ _ _ _ _ _ _ _ _ Hn) as Hop.
  pose proof (opened_like _ _ _ _ _ _ _ _ _ Hc Hk Hl) as Hlk. fold a in Hlk. set (f := started _ _ _) in *.
  destruct (opened_start s0 s a Hj (nc_weak _ _ _ _ _ _ _ _ _ _ _ _ Hn) Hpc (nc_force _ _ _ _ _ _ _ _ _ _ _ _ Hn) (nc_ncomps _ _ _ _ _ _ _ _ _ _ _ _ Hn))
    as (t & Hcan & Hfresh).
  specialize (Hfresh (start_text sop) k area). rewrite Hk in Hfresh. cbn [fmap option_fmap option_map default] in Hfresh.
  destruct (op_start_run log_ok ts Hwf Hword _ a t k key f (start_text sop) recs Hcan Hrows (lk_call _ _ _ _ _ Hlk) (lk_key _ _ _ _ _ Hlk) Hk
    (start_text_op _ Hop) (nc_fits _ _ _ _ _ _ _ _ _ _ _ _ Hn) Harea Hfresh) as (x & t' & out & E & Hat & Hscan & Hcur & Hr & Hg).
  exists (after s x), (match out with [] => set_status ST_REC_NOT_FOUND (set_status ST_EOF f) | r :: _ => set_status ST_OK (set_rec r f) end), t', out. split; [|split; [|split; [exact Hscan|split; [by destruct out|split; [exact Hat|split; [done|split; [exact Hr|split; [done|]]]]]]]].
  - eapply read_call; [by eapply like_calls|apply elem_of_app; by left|]. rewrite bool_decide_true by done. exact E.
  - pose proof (scan_wf _ _ _ _ _ (proj1 (proj2 Hrows)) Hscan) as Hw. destruct out as [|r out]. { by apply like_status; [apply like_status|]. }
    apply like_answer; [done..|]. apply Forall_cons in Hw as [Hw _]. apply (wr_len _ Hw).
  - apply after_flags; [|by right]. pose proof (sc_flags _ _ _ _ _ _ _ _ _ _ Hc) as Hfl. rewrite <-Hf in Hfl. by injection Hfl.
Qed.

(** The reads after it: the record of the start, the others, the end. *)
Lemma sys_reads_first s0 fcd0 opcode recs1 recs2 cs a k key rop r rest (s : st) t f n :
  session_call (P:=P) (Q:=Q) env config fuel ts s0 fcd0 opcode recs1 recs2 cs → rop ∈ read_codes → keys !! k = Some key →
  flags (gl s) = flags (gl s0) → like s0 fcd0 a k f → record f = r → at_rest true (db_at s) a t rest → (S (length rest) < n)%nat →
  ∃ s' g t', sys_reads n rop f s = (s', inr (r :: rest, g)) ∧ status g = ST_EOF ∧ like s0 fcd0 a k g ∧ at_rest false (db_at s') a t' [] ∧
    t_cursor t' = t_cursor t ∧ pg_rows (conn (db_at s')) = pg_rows (conn (db_at s)) ∧ apart s' = apart s ∧ flags (gl s') = flags (gl s).
Proof.
  intros Hc Hop Hk Hf Hlk Hrec Hat Hn. destruct n as [|n]; [lia|]. cbn [sys_reads].
  pose proof (proj1 (at_rest_db (held (chosen "B" s)) _ _ _ _) Hat) as Hat'.
  destruct (read_first_run ts _ a t rest (read_dir rop) f Hat' (lk_call _ _ _ _ _ Hlk)) as (x & t1 & E & Hat2 & Hcur & Hr & Hg).
  assert (pqfh rop f s = (after s x, inr (set_status ST_OK f))) as Ec.
  { eapply read_call; [by eapply like_calls|apply elem_of_app; by right|]. by rewrite read_not_start. }
  rewrite (bind_ok _ _ _ _ _ Ec). change (is_ok (set_status ST_OK f)) with true. cbv iota.
  assert (flags (gl (after s x)) = flags (gl s)) as Hfl.
  { apply after_flags; [|by left]. pose proof (sc_flags _ _ _ _ _ _ _ _ _ _ Hc) as Hfl. rewrite <-Hf in Hfl. by injection Hfl. }
  destruct (sys_reads_run s0 fcd0 opcode recs1 recs2 cs a k key rop Hc Hop Hk rest (after s x) t1 (set_status ST_OK f) n)
    as (s' & g & t2 & E2 & Hs2 & Hlk2 & Hat3 & Hc2 & Hr2 & Ha2 & Hf2).
  - by rewrite Hfl.
  - by apply like_status.
  - exact Hat2.
  - lia.
  - exists s', g, t2. rewrite (bind_ok _ _ _ _ _ E2). cbn [fst snd record set_status]. rewrite Hrec.
    split_and!; try done; first [congruence|by rewrite Hr2].
Qed.

(** The close after the start, with its cursor open. *)
Lemma sys_close_scan s0 fcd0 opcode recs1 recs2 cs a k b rest (s : st) t f recs :
  session_call (P:=P) (Q:=Q) env config fuel ts s0 fcd0 opcode recs1 recs2 cs → flags (gl s) = flags (gl s0) → like s0 fcd0 a k f →
  at_rest b (db_at s) a t rest → t_cursor t = true → rows_ok (P:=P) (conn (db_at s)) recs →
  ∃ s' g, pqfh OP_CLOSE f s = (s', inr g) ∧ status g = ST_OK ∧ tabs (db_at s') !! a = None ∧
    rows_ok (P:=P) (conn (db_at s')) recs ∧ apart s' = apart s ∧ flags (gl s') = flags (gl s).
Proof.
  intros Hc Hf Hlk [Hs Hpc _ _ _ _] Hcur Hrows. pose proof (sc_open _ _ _ _ _ _ _ _ _ _ Hc) as Ho.
  destruct (sys_close_any env config connects log_ok text_of_file fuel ts Hwf Hword s f a (fname fcd0) t recs Hs) as (s' & E & Hd & Hr & Ha & Hfl & _).
  - unfold cursor_ok. rewrite Hcur. by eexists.
  - done.
  - destruct Hlk as [[] _ (N1 & N2 & _) _ Hsg _]. split; try done. rewrite N1, N2. apply (oc_fnlen _ _ _ _ _ _ _ _ _ Ho).
  - apply (oc_pqfh _ _ _ _ _ _ _ _ _ Ho).
  - by eapply like_calls.
  - by eexists s', _.
Qed.

(** From the connected state. *)
Lemma scan_run (s : st) fcd opcode recs1 recs2 cs recs sop k key area rop n :
  scan_call s fcd opcode recs1 recs2 cs recs sop k key area rop → (length recs + 1 < n)%nat →
  ∃ s' out, scan_session n fcd opcode sop k area rop s =
      (s', inr (out, match out with [] => [ST_OK; ST_REC_NOT_FOUND; ST_REC_NOT_FOUND; ST_OK] | _ => [ST_OK; ST_OK; ST_EOF; ST_OK] end)) ∧
    scan_of (start_text sop) (cols_at (k_columns key)) area (kept_rows opcode recs) out ∧
    (sop = OP_START_EQ → key_ok (cols_at (k_columns key)) area →
      ∀ r, r ∈ out ↔ r ∈ kept_rows opcode recs ∧ fields (cols_at (k_columns key)) r = fields (cols_at (k_columns key)) area) ∧
    rows_ok (P:=P) (conn (db_at s')) (kept_rows opcode recs) ∧ tabs (db_at s') !! tabs_brk (db_at s) = None ∧
    apart s' = apart s ∧ flags (gl s') = flags (gl s).
Proof.
  intros Hn Hlen. pose proof Hn as [Hc Hrows Hk Hsop Hrop [Ha _] _ _ _ _].
  destruct (sys_open_run env config connects log_ok text_of_file fuel ts s fcd opcode recs1 recs2 cs recs Hc Hrows)
    as (s1 & E1 & _ & [_ Hr1] & Hno & Ha1 & Hf1 & Hj).
  set (a := tabs_brk (db_at s)) in *. set (f := MetaOpen.opened (opening fcd) opcode a) in *.
  destruct (sys_start_run s s1 fcd opcode recs1 recs2 cs (kept_rows opcode recs) recs sop k key area rop (started k area f) Hn eq_refl Hj Hno Hr1 Hf1)
    as (s2 & g & t & out & E2 & Hlk & Hscan & Hst & Hat & Hcur & Hr2 & Ha2 & Hf2).
  assert (∃ s3 g3 b t3 rest, (if is_ok g then sys_reads n rop g else mret ([], g)) s2 = (s3, inr (out, g3)) ∧
    status g3 = (match out with [] => ST_REC_NOT_FOUND | _ => ST_EOF end) ∧ like s fcd a k g3 ∧ at_rest b (db_at s3) a t3 rest ∧
    t_cursor t3 = true ∧ pg_rows (conn (db_at s3)) = pg_rows (conn (db_at s2)) ∧ apart s3 = apart s2 ∧ flags (gl s3) = flags (gl s2))
    as (s3 & g3 & b & t3 & rest & E3 & Hst3 & Hlk3 & Hat3 & Hcur3 & Hr3 & Ha3 & Hf3).
  { unfold is_ok. destruct out as [|r rest].
    - rewrite Hst. change (memeq ST_REC_NOT_FOUND ST_OK 2) with false. rewrite bool_decide_false in Hat by (intros Hx; by apply Hx).
      by exists s2, g, false, t, [].
    - destruct Hst as [Hst Hrec]. rewrite Hst. change (memeq ST_OK ST_OK 2) with true. cbv iota. rewrite bool_decide_true in Hat by done.
      destruct (sys_reads_first s fcd opcode recs1 recs2 cs a k key rop r rest s2 t g n Hc Hrop Hk) as (s3 & g3 & t3 & E3 & ? & ? & ? & ? & ? & ? & ?);
        try done; [congruence| |by exists s3, g3, false, t3, []; split_and!; [..|congruence| | |]].
      destruct Hscan as [Hp _]. apply Permutation_length in Hp. cbn [length] in Hp.
      pose proof (length_filter (starts (start_text sop) (cols_at (k_columns key)) area) (kept_rows opcode recs)).
      assert (length (kept_rows opcode recs) ≤ length recs)%nat by (unfold kept_rows; destruct (_ =? _); cbn; lia). cbn [tail]. lia. }
  destruct (sys_close_scan s fcd opcode recs1 recs2 cs a k b rest s3 t3 g3 (kept_rows opcode recs)) as (s4 & h & E4 & Hst4 & Hd & Hr4 & Ha4 & Hf4);
    try done; [congruence|unfold DbSpec.rows_ok in *; by rewrite Hr3, Hr2|].
  exists s4, out. split; [|split; [done|split; [|split; [done|split; [done|split; congruence]]]]].
  - unfold scan_session. rewrite (bind_ok _ _ _ _ _ E1). fold (started k area f). rewrite (bind_ok _ _ _ _ _ E2), (bind_ok _ _ _ _ _ E3).
    cbn [fst snd]. rewrite (bind_ok _ _ _ _ _ E4), Hst3, Hst4. change (status f) with ST_OK. destruct out; [by rewrite Hst|by rewrite (proj1 Hst)].
  - intros ->. exact (scan_equal ts Hwf k key area (kept_rows opcode recs) out Hk (proj1 (proj2 Hr1)) Hscan).
Qed.

(** The same of a program whose first call the open may be. *)
Record scan_program (s : st) (fcd : fcd_t) (opcode : Z) (recs1 recs2 : list bytes) (cs : list column_t) (recs : list bytes)
    (sop : Z) (k : nat) (key : key_t) (area : bytes) (rop : Z) : Prop := {
  np_call : scan_call (mk_sys (put_conn true (gl s)) (world s)) fcd opcode recs1 recs2 cs recs sop k key area rop;
  np_connects : g_conn (gl s) = true ∨ connects = true;
}.

(** C3: A program in mode B that opens a table through the dispatcher (connecting with that
    call when it is the first), starts on any of its keys, reads in either direction until a read does not succeed and closes gets exactly the
    records of the file whose key satisfies the start (greater, not less, less, not greater or
    equal to the key in the record area, column by column), each once and in the order of
    the key, descending for a start below; an equal start with a well-formed key gets those
    with the fields of the key.  The start answers 00 and the last read the end of the file,
    or, with no such record, the start answers 23; the open and the close answer 00.  The rows
    stay as the open left them, the table is freed, the mutex is free, and the JSON documents
    and the memory files are as they were. *)
Theorem system_scan (s : st) fcd opcode recs1 recs2 cs recs sop k key area rop n :
  scan_program s fcd opcode recs1 recs2 cs recs sop k key area rop → (length recs + 1 < n)%nat →
  ∃ s' out, scan_session n fcd opcode sop k area rop s =
      (s', inr (out, match out with [] => [ST_OK; ST_REC_NOT_FOUND; ST_REC_NOT_FOUND; ST_OK] | _ => [ST_OK; ST_OK; ST_EOF; ST_OK] end)) ∧
    scan_of (start_text sop) (cols_at (k_columns key)) area (kept_rows opcode recs) out ∧
    (sop = OP_START_EQ → key_ok (cols_at (k_columns key)) area →
      ∀ r, r ∈ out ↔ r ∈ kept_rows opcode recs ∧ fields (cols_at (k_columns key)) r = fields (cols_at (k_columns key)) area) ∧
    rows_ok (P:=P) (conn (db_at s')) (kept_rows opcode recs) ∧ tabs (db_at s') !! tabs_brk (db_at s) = None ∧
    apart s' = apart s ∧ flags (gl s') = (true, false, false, false).
Proof.
  intros [Hn Hcon] Hlen. pose proof Hn as [Hc Hrows Hk Hsop Hrop Harea Hfit Hweak Hforce Hncomps].
  destruct (program_joined env config connects log_ok text_of_file fuel ts s fcd opcode recs1 recs2 cs) as (s0 & Hc0 & E & Hj); [by split|].
  assert (scan_call s0 fcd opcode recs1 recs2 cs recs sop k key area rop) as Hn0.
  { destruct (jn_weak _ _ Hj) as [W1 W2]. split; try done; [by apply (joined_rows s)|by rewrite W1|by rewrite (jn_gl _ _ Hj)|by rewrite W2]. }
  destruct (scan_run s0 fcd opcode recs1 recs2 cs recs sop k key area rop n Hn0 Hlen) as (s' & out & E' & H1 & H2 & H3 & H4 & H5 & H6).
  rewrite (jn_tabs _ _ Hj) in H4. rewrite (jn_apart _ _ Hj) in H5.
  exists s', out. rewrite <-(sc_flags _ _ _ _ _ _ _ _ _ _ Hc0). split; [|done]. etrans; [apply (bind_same _ _ _ _ E)|exact E'].
Qed.

End scan.
