(* ===== verification/SystemMemory.v ===== *)
(** Sessions of programs on a file in memory through the whole handler: modes M and F of the
    dispatcher (src/pqfh.c) over the memory files (src/memfh_cbl.c). *)

From stdpp Require Import prelude gmap strings.
From S2P Require Import Prelude Fhtypes Fcd Libpq DbRead DbWrite Cmp CmpIsam MemfhIdx MemfhInv MemfhWrite Memfh MemfhFile MemfhCbl MemfhSession JsonFile Meta Pqfh PqfhSpec System SystemSpec SystemSession.
Local Open Scope Z_scope.

(** ** The life of a file *)

Section life.
Context (comps : keydef) (n : nat) (md : Z).

(** Sessions one after the other, from the file there was and the flag of START to those that are
    left: each opens it - a new one when there is none - and closes it, with status 00; or one of them
    ends the process. *)
Inductive mem_life : option file * bool → list (list mem_req) → list (bytes * list (bytes * bytes) * bytes) → option (option file * bool) → Prop :=
  | ml_nil x : mem_life x [] [] (Some x)
  | ml_stop fo b qs qss outs : mem_run comps n (mk_mfile (default [] fo) None b) qs outs None → mem_life (fo, b) (qs :: qss) [] None
  | ml_cons fo b qs qss outs res m o : mem_run comps n (mk_mfile (default [] fo) None b) qs outs (Some m) →
      mem_life (left_by md (m_recs m), m_start m) qss res o →
      mem_life (fo, b) (qs :: qss) (if o is Some _ then (ST_OK, outs, ST_OK) :: res else []) o.

(** Programs whose requests are those the operations are defined on. *)
Fixpoint safe_life (fo : option file) (b : bool) (qss : list (list mem_req)) : Prop :=
  match qss with
  | [] => True
  | qs :: qss' => safe comps n (mk_mfile (default [] fo) None b) qs ∧
      ∀ outs m, mem_run comps n (mk_mfile (default [] fo) None b) qs outs (Some m) → safe_life (left_by md (m_recs m)) (m_start m) qss'
  end.
End life.

(** ** Through the dispatcher *)

Section memory.
Context {D W : Type} `{!Libpq D, !DbCalls D, !Extfh W}.
Context (env : env_t) (config : option bytes) (connects log_ok : bool) (text_of_file : bytes → option bytes) (fuel : nat) (ts : bytes).
#[local] Instance handlers_m : Handlers (parts D W) := system env config connects log_ok text_of_file ts fuel.
Notation st := (sys (parts D W)).
Context (comps : keydef) (n : nat) (name : bytes) (md : Z).

(** The mode of the file [.pqfh] is one of the memory files, and no mode is left for the table. *)
Definition mem_ready (s : st) : Prop := g_mode (get_mode config (gl s)) = md ∧ g_table_mode (gl s) = 0.

(** The state after a call. *)
Definition put_mem (s : st) (c : cbl_state) : st :=
  mk_sys (put_table_mode 0 (get_mode config (gl s))) (mk_parts (y_ms (world s)) (y_json (world s)) c).

(** A control block for the file: its name is not that of a JSON document. *)
Record mem_name (fcd : fcd_t) : Prop := {
  mn_len : 0 <= getshort (file_name_len fcd) <= 256 ∧ getshort (file_name_len fcd) <= Z.of_nat (length (file_name fcd));
  mn_name : fname fcd = name;
  mn_json : memeq name (bs "JSON:") 5 = false;
}.

Lemma mem_ready_put s c : mem_ready s → mem_ready (put_mem s c).
Proof. intros [H1 H2]. split; [|done]. rewrite <-H1. unfold put_mem, get_mode. cbn [gl]. by destruct config; repeat case_match. Qed.

Lemma mem_call op fcd fcd2 s c r : md = ch "M" ∨ md = ch "F" → mem_ready s → mem_name fcd →
  fcd2 = (if (OP_OPEN_INPUT <=? op) && (op <=? OP_OPEN_EXTEND) && (open_mode fcd =? 128) then opening fcd else fcd) → mode fcd2 = 0 →
  memfh_cbl md op fcd2 name (y_mem (world s)) = (c, r) → pqfh op fcd s = (put_mem s c, r).
Proof.
  intros Hmd [Hm Ht] [Hlen Hname Hj] Hf Hm0 E. pose proof (call_name_short fcd Hlen) as Hc. rewrite Hname in Hc.
  assert (g_table_mode (get_mode config (gl s)) = 0) as Ht2 by (unfold get_mode; destruct config; [|done]; by repeat case_match).
  assert (moded config s (mk_sys (put_table_mode 0 (get_mode config (gl s))) (world s)) op fcd fcd2) as Hmo.
  { unfold moded, choose_mode. rewrite (bind_ok (get_g g_table_mode) _ _ _ _ eq_refl). cbn [gl]. rewrite Ht2. cbv zeta.
    fold (opening fcd). rewrite <-Hf. erewrite bind_ok by apply modify_run. rewrite Hm0. change (negb (0 =? 0)) with false. cbn [andb]. done. }
  pose proof (mem_part env config connects log_ok text_of_file fuel ts s _ op fcd fcd fcd2 name Hc Hj Hmo) as P.
  cbn [gl] in P. change (g_mode (put_table_mode 0 (get_mode config (gl s)))) with (g_mode (get_mode config (gl s))) in P.
  rewrite Hm, E in P. by apply P.
Qed.

(** The requests of a program through the dispatcher. *)
Fixpoint sys_mem_perform (fcd : fcd_t) (qs : list mem_req) : M st (list (bytes * bytes)) :=
  match qs with
  | [] => mret []
  | q :: qs' =>
      f ← pqfh (op_of q) (set_rec (area_of q) fcd);
      outs ← sys_mem_perform fcd qs';
      mret ((status f, record f) :: outs)
  end.

(** The open, the requests and the close. *)
Definition mem_session (fcd : fcd_t) (qs : list mem_req) : M st (bytes * list (bytes * bytes) * bytes) :=
  f ← pqfh OP_OPEN_IO fcd;
  outs ← sys_mem_perform f qs;
  g ← pqfh OP_CLOSE f;
  mret (status f, outs, status g).

Fixpoint mem_sessions (fcd : fcd_t) (qss : list (list mem_req)) : M st (list (bytes * list (bytes * bytes) * bytes)) :=
  match qss with
  | [] => mret []
  | qs :: qss' =>
      out ← mem_session fcd qs;
      outs ← mem_sessions fcd qss';
      mret (out :: outs)
  end.

Lemma op_of_plain q : (OP_OPEN_INPUT <=? op_of q) && (op_of q <=? OP_OPEN_EXTEND) = false.
Proof. by destruct q. Qed.

Lemma sys_mem_run fcd qs : md = ch "M" ∨ md = ch "F" → mem_name fcd → mode fcd = 0 → ∀ s c r, mem_ready s →
  cbl_perform name md fcd qs (y_mem (world s)) = (c, r) →
  ∃ s', sys_mem_perform fcd qs s = (s', r) ∧ mem_ready s' ∧ y_mem (world s') = c ∧ y_ms (world s') = y_ms (world s) ∧ y_json (world s') = y_json (world s).
Proof.
  intros Hmd Hn H0. induction qs as [|q qs IH]; intros s c r Hs E; cbn [cbl_perform sys_mem_perform] in *.
  - injection E as <- <-. by exists s.
  - assert (mem_name (set_rec (area_of q) fcd)) as Hn' by (by destruct Hn).
    destruct (memfh_cbl md (op_of q) (set_rec (area_of q) fcd) name (y_mem (world s))) as [c1 r1] eqn:E1.
    pose proof (mem_call (op_of q) (set_rec (area_of q) fcd) _ s c1 r1 Hmd Hs Hn' eq_refl) as Ec. rewrite op_of_plain in Ec.
    specialize (Ec H0 E1). destruct r1 as [e|f].
    + rewrite (bind_err _ _ _ _ _ E1) in E. injection E as <- <-. exists (put_mem s c1). rewrite (bind_err _ _ _ _ _ Ec).
      split; [done|]. by split; [apply mem_ready_put|].
    + rewrite (bind_ok _ _ _ _ _ E1) in E. destruct (cbl_perform name md fcd qs c1) as [c2 r2] eqn:E2.
      destruct (IH (put_mem s c1) c2 r2 (mem_ready_put s c1 Hs) E2) as (s' & Er & Hs' & Hc & H1 & H2).
      exists s'. rewrite (bind_ok _ _ _ _ _ Ec). unfold mbind, M_bind in *. rewrite E2 in E. rewrite Er.
      by destruct r2; injection E as <- <-.
Qed.

(** ** The sessions *)

Notation others_kept := (others_kept name).
Notation store := (store comps n name).

(** The program waits for the next session. *)
Definition life_at (s : st) (fo : option file) (b : bool) (k : nat) : Prop :=
  mem_ready s ∧ store (y_mem (world s)) fo b ∧ next_hdr (y_mem (world s)) + Z.of_nat k <= 2 ^ 32.

(** The other stores, and the other files in memory. *)
Definition stores_kept (s s' : st) : Prop := y_ms (world s') = y_ms (world s) ∧ y_json (world s') = y_json (world s).
Definition rest_kept (s s' : st) : Prop := stores_kept s s' ∧ others_kept (y_mem (world s)) (y_mem (world s')).

Lemma mem_session_run fcd s fo b qs k : md = ch "M" ∨ md = ch "F" → mem_name fcd → open_mode fcd = 128 → mem_block comps n fcd →
  life_at s fo b (S k) → safe comps n (mk_mfile (default [] fo) None b) qs →
  ∃ s' outs o, mem_run comps n (mk_mfile (default [] fo) None b) qs outs o ∧ stores_kept s s' ∧ match o with
    | Some m => mem_session fcd qs s = (s', inr (ST_OK, outs, ST_OK)) ∧ life_at s' (left_by md (m_recs m)) (m_start m) k ∧ rest_kept s s'
    | None => mem_session fcd qs s = (s', inl Exit) end.
Proof.
  intros Hmd Hn H128 Hb (Hs & Hst & Hk) Hsafe.
  assert (mem_block comps n (opening fcd)) as Hb' by (by destruct Hb).
  destruct (open_run comps n name md (opening fcd) _ fo b Hst Hb') as (c1 & p & om & E1 & Hp & Hin & Hk1 & Hn1); [lia|].
  set (f := opened (opening fcd) om p) in *.
  assert (pqfh OP_OPEN_IO fcd s = (put_mem s c1, inr f)) as F1.
  { apply (mem_call OP_OPEN_IO fcd (opening fcd)); try done. by rewrite H128. }
  assert (mem_name f) as Hnf by (by destruct Hn).
  destruct (mem_perform_run comps n name md f p qs Hp c1 _ Hin Hsafe) as (c2 & outs & [m|] & Hrun & H2).
  - destruct H2 as (E2 & Hin2 & Hk2 & Hn2).
    destruct (sys_mem_run f qs Hmd Hnf eq_refl (put_mem s c1) c2 (inr outs) (mem_ready_put s c1 Hs) E2) as (s2 & F2 & Hs2 & Hc2 & Hm2 & Hj2).
    destruct (close_run comps n name md f c2 p m Hp Hin2) as (c3 & E3 & Hst3 & Hk3 & Hn3).
    assert (pqfh OP_CLOSE f s2 = (put_mem s2 c3, inr (set_open_mode 128 (set_status ST_OK f)))) as F3.
    { apply (mem_call OP_CLOSE f f); try done. by rewrite Hc2. }
    assert (stores_kept s (put_mem s2 c3)) as Hsk by done.
    exists (put_mem s2 c3), outs, (Some m). split; [done|]. split; [done|]. split; [|split].
    + unfold mem_session. by rewrite (bind_ok _ _ _ _ _ F1), (bind_ok _ _ _ _ _ F2), (bind_ok _ _ _ _ _ F3).
    + split; [by apply mem_ready_put|]. split; [done|]. cbn [put_mem world y_mem]. lia.
    + split; [done|]. cbn [put_mem world y_mem]. intros q h Hq Hh Hne.
      destruct (Hk1 q h Hq Hh Hne) as [Q1 O1]. destruct (Hk2 q h Q1 O1 Hne) as [Q2 O2]. by apply Hk3.
  - destruct (sys_mem_run f qs Hmd Hnf eq_refl (put_mem s c1) c2 (inl Exit) (mem_ready_put s c1 Hs) H2) as (s2 & F2 & _ & _ & Hm2 & Hj2).
    exists s2, outs, None. split; [done|]. split; [done|]. unfold mem_session. by rewrite (bind_ok _ _ _ _ _ F1), (bind_err _ _ _ _ _ F2).
Qed.


End memory.
