(* ===== verification/SystemJson.v ===== *)
(** Sessions on a JSON document through the whole handler: the calls of the dispatcher (src/pqfh.c)
    for a file named [JSON:...], over the operations of src/op_json.c. *)

From stdpp Require Import prelude gmap strings.
From S2P Require Import Prelude Fhtypes Fcd Libpq DbRead DbWrite Cmp CmpIsam Json JsonFile MemfhCbl Meta Pqfh PqfhSpec System SystemSpec SystemSession.
Local Open Scope Z_scope.

(** ** A document as the program sees it *)

(** A START on the path in the record area, a READ NEXT. *)
Inductive json_req := JStart (area : bytes) | JNext (area : bytes).

Definition json_area (q : json_req) : bytes := match q with JStart a | JNext a => a end.
Definition json_op (q : json_req) : Z := match q with JStart _ => OP_START_EQ | JNext _ => OP_READ_NEXT end.

(** What a request answers - status and record area - from the place of the program in the
    document, an element and the number of its children read, and the place after it.  None when
    the area is too short for what it has to hold. *)
Definition json_answer (fcd : fcd_t) (tree : jelement) (pos : jelement * nat) (q : json_req) : option (bytes * bytes * (jelement * nat)) :=
  match q with
  | JStart area =>
      keys ← path_of (set_rec area fcd);
      Some (match find_path keys tree with
            | Some e => (ST_OK, area, (e, 0%nat))
            | None => (ST_REC_NOT_FOUND, area, pos)
            end)
  | JNext area =>
      match je_children (fst pos) !! snd pos with
      | Some c => if Z.of_nat (snd pos) + 1 <? 2 ^ 15 then rec ← deliver_el c area; Some (ST_OK, rec, (fst pos, S (snd pos))) else None
      | None => Some (ST_EOF, area, pos)
      end
  end.

Fixpoint json_answers (fcd : fcd_t) (tree : jelement) (pos : jelement * nat) (qs : list json_req) : option (list (bytes * bytes)) :=
  match qs with
  | [] => Some []
  | q :: qs' =>
      a ← json_answer fcd tree pos q;
      l ← json_answers fcd tree (snd a) qs';
      Some (fst a :: l)
  end.

(** ** One request *)

(** The fields of the control block the calls look at and never write. *)
Definition same_call (f g : fcd_t) : Prop :=
  json_root f = json_root g ∧ rec_len f = rec_len g ∧ file_name f = file_name g ∧ file_name_len f = file_name_len g.

Lemma start_same f g h h' : json_start f h = (h', inr g) → same_call g f.
Proof.
  unfold json_start. intros E. apply bind_inv in E as (h1 & [] & _ & E). apply bind_inv in E as (h2 & rec & _ & E).
  apply bind_inv in E as (h3 & found & _ & E). injection E as _ <-. by destruct found.
Qed.

Lemma next_same f g h h' : json_next f h = (h', inr g) → same_call g f.
Proof.
  unfold json_next. intros E. apply bind_inv in E as (h1 & parent & _ & E). cbv zeta in E.
  destruct (if ptr_index (json_ptr f) <? 0 then None else jn_children parent !! Z.to_nat (ptr_index (json_ptr f))) as [a|]; [|by injection E as _ <-].
  apply bind_inv in E as (h2 & nd & _ & E). apply bind_inv in E as (h3 & rec & _ & E). by injection E as _ <-.
Qed.

Lemma open_same files name f g h h' : json_open files name f h = (h', inr g) → file_name g = file_name f ∧ file_name_len g = file_name_len f.
Proof.
  unfold json_open. destruct (files name) as [text|]; [|by intros [= <- <-]]. destruct (parse text) as [e|[[] tree]]; [done| |by intros [= <- <-]].
  intros (h1 & root & _ & E)%bind_inv. by injection E as _ <-.
Qed.

Section requests.
Context (files : bytes → option bytes) (filename : bytes) (tree : jelement).

(** The program is in the open document, at a child of an element or past the last. *)
Definition in_document (h : jheap) (fcd : fcd_t) (pos : jelement * nat) : Prop :=
  repr (jnodes h) tree (getint (json_root fcd)) ∧ at_child h (fst pos) (snd pos) fcd ∧ (snd pos ≤ length (je_children (fst pos)))%nat.

Lemma request_answer h fcd0 fcd pos q st area pos' : in_document h fcd pos → rec_len fcd = rec_len fcd0 →
  json_answer fcd0 tree pos q = Some (st, area, pos') →
  ∃ f, op_json files filename (json_op q) (set_rec (json_area q) fcd) h = (h, inr f) ∧ status f = st ∧ record f = area ∧
    in_document h f pos' ∧ same_call f fcd.
Proof.
  intros (Hroot & Hat & Hi) Hl Ha. destruct q as [a|a]; cbn [json_op json_area json_answer] in *.
  - change (op_json files filename OP_START_EQ ?f) with (json_start f).
    destruct (path_of (set_rec a fcd0)) as [keys|] eqn:Ek; [|done]. cbn [mbind option_bind] in Ha.
    assert (path_of (set_rec a fcd) = Some keys) as Ek' by (rewrite <-Ek; unfold path_of; cbn [rec_len record set_rec]; by rewrite Hl).
    destruct (json_start_run h tree (set_rec a fcd) keys (proj1 Hat) Hroot Ek') as (f & E & Hr & Hm). pose proof (start_same _ _ _ _ E) as Hsame.
    exists f. split; [exact E|]. destruct (find_path keys tree) as [e|]; injection Ha as <- <- <-.
    + destruct Hm as [Hs Hf]. split; [done|]. split; [exact Hr|]. split; [|done]. split; [by rewrite (proj1 Hsame)|]. by split; [|cbn; lia].
    + subst f. split; [done|]. split; [done|]. by split.
  - change (op_json files filename OP_READ_NEXT ?f) with (json_next f). destruct pos as [e i]. cbn [fst snd] in *.
    assert (at_child h e i (set_rec a fcd)) as Hat' by done. destruct (je_children e !! i) as [c|] eqn:Ec.
    + destruct (Z.ltb_spec (Z.of_nat i + 1) (2 ^ 15)); [|done]. destruct (deliver_el c a) as [rec|] eqn:Ed; [|done]. injection Ha as <- <- <-.
      destruct (json_next_child h e i c rec (set_rec a fcd) Hat' Ec ltac:(lia) Ed) as (f & E & Hf & Hr & Hs).
      pose proof (next_same _ _ _ _ E) as Hsame. exists f. split; [exact E|]. split; [done|]. split; [done|]. split; [|done].
      split; [by rewrite (proj1 Hsame)|]. split; [done|]. cbn. apply lookup_lt_Some in Ec. lia.
    + injection Ha as <- <- <-. apply lookup_ge_None_1 in Ec. assert (i = length (je_children e)) as -> by lia.
      eexists. split; [exact (json_next_eof h e (set_rec a fcd) Hat')|]. split; [done|]. split; [done|]. by split.
Qed.

End requests.

(** ** Through the dispatcher *)

Section json.
Context {D W : Type} `{!Libpq D, !DbCalls D, !Extfh W}.
Context (env : env_t) (config : option bytes) (connects log_ok : bool) (text_of_file : bytes → option bytes) (fuel : nat) (ts : bytes).
#[local] Instance handlers_j : Handlers (parts D W) := system env config connects log_ok text_of_file ts fuel.
Notation st := (sys (parts D W)).
Context (filename : bytes).

(** A control block for the document. *)
Record json_name (fcd : fcd_t) : Prop := {
  jn_len : 0 <= getshort (file_name_len fcd) <= 256 ∧ getshort (file_name_len fcd) <= Z.of_nat (length (file_name fcd));
  jn_fname : fname fcd = bs "JSON:" ++ filename;
  jn_named : filename ≠ [];
}.

Lemma json_name_eq f g : file_name f = file_name g → file_name_len f = file_name_len g → json_name g → json_name f.
Proof. intros H1 H2 [? ? ?]. by split; rewrite ?H2, ?H1; unfold fname in *; rewrite ?H1, ?H2. Qed.

Lemma json_name_same f g : same_call f g → json_name g → json_name f.
Proof. intros (_ & _ & H1 & H2). by apply json_name_eq. Qed.

(** The state after a call. *)
Definition put_json (s : st) (h : jheap) : st :=
  mk_sys (get_mode config (gl s)) (mk_parts (y_ms (world s)) h (y_mem (world s))).

Lemma json_call op fcd s : json_name fcd →
  pqfh op fcd s = let (j, r) := op_json text_of_file filename op fcd (y_json (world s)) in (put_json s j, r).
Proof.
  intros [Hlen Hf Hne]. pose proof (call_name_short fcd Hlen) as Hc. rewrite Hf in Hc.
  assert (5 < length (bs "JSON:" ++ filename))%nat as Hl by (rewrite length_app; destruct filename; [done|]; cbn; lia).
  exact (json_part env config connects log_ok text_of_file fuel ts s op fcd fcd (bs "JSON:" ++ filename) Hc Hl eq_refl).
Qed.

(** The requests of a program: each call is made with the control block the one before gave back. *)
Fixpoint json_perform (fcd : fcd_t) (qs : list json_req) : M st (list (bytes * bytes) * fcd_t) :=
  match qs with
  | [] => mret ([], fcd)
  | q :: qs' =>
      f ← pqfh (json_op q) (set_rec (json_area q) fcd);
      l ← json_perform f qs';
      mret ((status f, record f) :: fst l, snd l)
  end.

(** The open, the requests and the close. *)
Definition json_session (fcd : fcd_t) (qs : list json_req) : M st (bytes * list (bytes * bytes) * bytes) :=
  f ← pqfh OP_OPEN_INPUT fcd;
  l ← json_perform f qs;
  g ← pqfh OP_CLOSE (snd l);
  mret (status f, fst l, status g).

Lemma json_perform_run tree h fcd0 qs : ∀ s fcd pos outs, y_json (world s) = h → in_document tree h fcd pos → rec_len fcd = rec_len fcd0 → json_name fcd →
  json_answers fcd0 tree pos qs = Some outs →
  ∃ s' f, json_perform fcd qs s = (s', inr (outs, f)) ∧ status f = default (status fcd) (fst <$> last outs) ∧
    repr (jnodes h) tree (getint (json_root f)) ∧ json_root f = json_root fcd ∧ json_name f ∧
    y_json (world s') = h ∧ y_ms (world s') = y_ms (world s) ∧ y_mem (world s') = y_mem (world s).
Proof.
  induction qs as [|q qs IH]; intros s fcd pos outs Hh Hd Hl Hn Ha; cbn [json_answers json_perform] in *.
  - injection Ha as <-. exists s, fcd. by split_and!; [done|done|apply Hd|..].
  - destruct (json_answer fcd0 tree pos q) as [[[stt area] pos']|] eqn:Eq; [|done]. cbn [mbind option_bind snd fst] in Ha.
    destruct (json_answers fcd0 tree pos' qs) as [l|] eqn:El; [|done]. injection Ha as <-.
    destruct (request_answer text_of_file filename tree h fcd0 fcd pos q stt area pos' Hd Hl Eq) as (f & E & Hs & Hr & Hd' & Hsame).
    assert (json_name (set_rec (json_area q) fcd)) as Hn' by (by apply (json_name_same _ fcd)).
    pose proof (json_call (json_op q) (set_rec (json_area q) fcd) s Hn') as Ec. rewrite Hh, E in Ec.
    destruct (IH (put_json s h) f pos' l eq_refl Hd' ltac:(by rewrite (proj1 (proj2 Hsame))) (json_name_same _ _ Hsame Hn) El)
      as (s' & g & Er & Hsg & Hroot & Hjr & Hng & H1 & H2 & H3).
    exists s', g. rewrite (bind_ok _ _ _ _ _ Ec), (bind_ok _ _ _ _ _ Er), Hs, Hr. split; [done|].
    split; [|split; [done|split; [by rewrite Hjr, (proj1 Hsame)|done]]]. rewrite Hsg, Hs. rewrite last_cons. by destruct (last l).
Qed.

(** C11: A session on a JSON document through the dispatcher - the open, any sequence of starts on paths of
    names and reads of the next child, and the close: the open answers 00 and every request what the
    document answers - a start goes to the first element of the path, with status 23 and no move when
    there is none; a read gives the next child of the place, or status 10. The close answers the
    status of the last request. The documents of other programs, the database, the ISAM files and
    the files in memory stay as they were. *)
Theorem system_json s fcd text tree qs outs : json_name fcd → length (json_ptr fcd) = 8%nat → text_of_file (cut filename 32) = Some text →
  parse text = inr (true, tree) → jheap_ok (y_json (world s)) → brk (y_json (world s)) + je_size tree <= 2 ^ 32 →
  json_answers fcd tree (tree, 0%nat) qs = Some outs →
  ∃ s', json_session fcd qs s = (s', inr (ST_OK, outs, default ST_OK (fst <$> last outs))) ∧
    jnodes (y_json (world s)) ⊆ jnodes (y_json (world s')) ∧ y_ms (world s') = y_ms (world s) ∧ y_mem (world s') = y_mem (world s).
Proof.
  intros Hn Hp Hf Hpt Hh Hb Ha.
  destruct (json_open_run text_of_file (y_json (world s)) (cut filename 32) fcd text tree Hf Hpt Hh Hb Hp)
    as (h & f & E1 & Hs1 & Hr1 & Hl1 & HR & Hat & Hok & Hsub & Hroot).
  pose proof (json_call OP_OPEN_INPUT fcd s Hn) as F1. change (op_json text_of_file filename OP_OPEN_INPUT fcd) with (json_open text_of_file (cut filename 32) fcd) in F1.
  rewrite E1 in F1. destruct (open_same _ _ _ _ _ _ E1) as [N1 N2].
  assert (json_name f) as Hnf by (by apply (json_name_eq f fcd)).
  destruct (json_perform_run tree h fcd qs (put_json s h) f (tree, 0%nat) outs eq_refl) as (s2 & g & E2 & Hsg & HRg & Hjr & Hng & H1 & H2 & H3);
    [by split; [|split; [|cbn; lia]]|done|done|done|].
  pose proof (json_call OP_CLOSE g s2 Hng) as F3. change (op_json text_of_file filename OP_CLOSE g) with (json_close g) in F3. rewrite H1 in F3.
  unfold json_close in F3. destruct (repr_get _ _ _ HRg) as (Hpos & l & Hget & _). rewrite (proj2 (Z.eqb_neq (getint (json_root g)) 0)) in F3 by lia.
  rewrite (bind_ok _ _ h (mk_jheap (delete (getint (json_root g)) (jnodes h)) (brk h)) tt) in F3 by (by rewrite (bind_ok _ _ _ _ _ Hget)).
  eexists. split; [unfold json_session; rewrite (bind_ok _ _ _ _ _ F1), (bind_ok _ _ _ _ _ E2); cbn [fst snd]; rewrite (bind_ok _ _ _ _ _ F3), Hs1, Hsg, Hs1; done|].
  split; [|by split]. cbn [put_json world y_json jnodes]. rewrite Hjr, Hroot. apply map_subseteq_spec. intros a x Hx.
  rewrite lookup_delete_ne; [by eapply lookup_weaken|]. intros <-. destruct Hh as [_ Hfresh]. specialize (Hfresh _ (ex_intro _ _ Hx)). lia.
Qed.

End json.
