(* ===== verification/SystemServer.v ===== *)
(** A session of the whole handler on the server of DbServer, with the files in memory and
    no JSON document and no memory file. *)

From stdpp Require Import prelude gmap strings.
From S2P Require Import Prelude Fhtypes Fcd Table Kdb Libpq DbRead DbWrite Sql DbRows DbSession DbSpec Cursor CursorSpec CursorScan DbServer CursorServer JsonFile Memfh MemfhCbl Pqfh PqfhSpec System SystemSpec SystemDual SystemConnect SystemSession SystemScan Meta Merge Cmp CmpIsam CmpSpec CmpServer ChangeLogSpec ChangeLogServer MetaSpec MetaOpen MetaServer CommandServer.
Local Open Scope Z_scope.

#[local] Existing Instance mem_extfh.
#[local] Existing Instance mem_isam.
#[local] Existing Instance mem_update.
#[local] Existing Instance ex_calls.
#[local] Existing Instance cx_libpq.
#[local] Existing Instance cx_table.
#[local] Existing Instance cx_cursor.
#[local] Existing Instance cx_catalog.

#[local] Instance cx_connect : PgConnect server cx_catalog.
Proof.
  split. intros d q Hq. exists d. rewrite !elem_of_cons, elem_of_nil in Hq. by destruct Hq as [->|[->|[]]].
Defined.

(** Before any call, not connected; a file [.pqfh] that says B. *)
Definition ex_globals : globals := mk_gl (ch "I") 0 [] false false false false false false.
Definition ex_system : sys (parts server isam_mem) := mk_sys ex_globals (mk_parts ex_db_state (mk_jheap ∅ 1) cbl_init).
Definition ex_config : option bytes := Some (bs "B").
Definition ex_texts_of_files (name : bytes) : option bytes := None.

Notation ex_sys_session := (sys_session ex_env ex_config true true ex_texts_of_files 9 ex_ts).

(** The session, evaluated. *)
Example ex_sys_session_io : snd (ex_sys_session ex_open_fcd OP_OPEN_IO ex_requests ex_system) =
  inr (ST_OK,
    [(ST_DUPL_KEY, bs "007Bia "); (ST_DUPL_KEY, bs "007Bia "); (ST_OK, bs "002Ana "); (ST_OK, bs "007Eva ");
     (ST_OK, bs "007Eva "); (ST_REC_NOT_FOUND, bs "007    ")], ST_OK).
Proof. by vm_compute. Qed.

(** The same system once connected. *)
Definition ex_online : sys (parts server isam_mem) := mk_sys (put_conn true ex_globals) (world ex_system).

Lemma ex_session_call : session_call (P:=cx_table) (Q:=cx_catalog) ex_env ex_config 9 ex_ts ex_online ex_open_fcd OP_OPEN_IO ex_dict []
  [mk_col (bs "codigo") (ch "n") 3 0 0 false 0; mk_col (bs "nome") (ch "s") 4 0 3 false 0].
Proof. split; try done. exact ex_open_call. Qed.

Lemma ex_program_call : program_call (P:=cx_table) (Q:=cx_catalog) ex_env ex_config true 9 ex_ts ex_system ex_open_fcd OP_OPEN_IO ex_dict []
  [mk_col (bs "codigo") (ch "n") 3 0 0 false 0; mk_col (bs "nome") (ch "s") 4 0 3 false 0].
Proof. split; [exact ex_session_call|by right]. Qed.

Lemma system_session_witness : ∃ s' outs recs', ex_sys_session ex_open_fcd OP_OPEN_IO ex_requests ex_system = (s', inr (ST_OK, outs, ST_OK)) ∧
  file_run (cols:=ex_tcols) (keys:=ex_tkeys) ex_records ex_requests outs recs' ∧
  rows_ok (P:=cx_table) (conn (m_db (y_ms (world s')))) recs' ∧ flags (gl s') = (true, false, false, false).
Proof.
  destruct (system_session (P:=cx_table) (C:=cx_cursor) (Q:=cx_catalog) (R:=cx_connect) ex_env ex_config true true ex_texts_of_files 9 ex_ts ex_file_wf ex_words
    ex_system ex_open_fcd OP_OPEN_IO ex_dict [] _ ex_records ex_requests ex_program_call) as (s' & outs & recs' & E & Hrun & Hrows & _ & _ & _ & Hf).
  - exact ex_rows.
  - exact ex_requests_ok.
  - exact ex_pk_whole.
  - exists s', outs, recs'. split; [exact E|]. split; [exact Hrun|]. split; [exact Hrows|exact Hf].
Defined.

(** A start above the code 002 and the reads after it; and a start on the names not above Bia,
    which descends. *)
Abbreviation ex_scan_session := (scan_session ex_env ex_config true true ex_texts_of_files 9 ex_ts 9).

Example ex_sys_scan : snd (ex_scan_session ex_open_fcd OP_OPEN_IO OP_START_GT 0 (bs "002    ") OP_READ_NEXT ex_system) =
  inr ([bs "005Ana "; bs "007Bia "], [ST_OK; ST_OK; ST_EOF; ST_OK]).
Proof. by vm_compute. Qed.

Example ex_sys_scan_down : snd (ex_scan_session ex_open_fcd OP_OPEN_IO OP_START_LE 1 (bs "000Bia ") OP_READ_PREVIOUS ex_system) =
  inr ([bs "007Bia "; bs "005Ana "; bs "002Ana "], [ST_OK; ST_OK; ST_EOF; ST_OK]).
Proof. by vm_compute. Qed.

Example ex_sys_scan_none : snd (ex_scan_session ex_open_fcd OP_OPEN_IO OP_START_EQ 1 (bs "000Eva ") OP_READ_NEXT ex_system) =
  inr ([], [ST_OK; ST_REC_NOT_FOUND; ST_REC_NOT_FOUND; ST_OK]).
Proof. by vm_compute. Qed.

Lemma ex_scan_program : scan_program (P:=cx_table) (Q:=cx_catalog) ex_env ex_config true 9 ex_ts ex_system ex_open_fcd OP_OPEN_IO ex_dict []
  [mk_col (bs "codigo") (ch "n") 3 0 0 false 0; mk_col (bs "nome") (ch "s") 4 0 3 false 0] ex_records
  OP_START_GT 0 (mk_key 0 3 1 [0%nat]) (bs "002    ") OP_READ_NEXT.
Proof.
  split; [|by right]. split; try done; [exact ex_session_call|exact ex_rows|by left|by left|split; [done|exact ex_code_area]|exact ex_code_fits|apply not_elem_of_nil].
Qed.

Lemma system_scan_witness : ∃ s' out, ex_scan_session ex_open_fcd OP_OPEN_IO OP_START_GT 0 (bs "002    ") OP_READ_NEXT ex_system =
    (s', inr (out, [ST_OK; ST_OK; ST_EOF; ST_OK])) ∧
  scan_of (C:=cx_cursor) (bs ">") (cols_at (cols:=ex_tcols) [0%nat]) (bs "002    ") ex_records out ∧
  rows_ok (P:=cx_table) (conn (m_db (y_ms (world s')))) ex_records ∧ flags (gl s') = (true, false, false, false).
Proof.
  destruct (system_scan (P:=cx_table) (C:=cx_cursor) (Q:=cx_catalog) (R:=cx_connect) ex_env ex_config true true ex_texts_of_files 9 ex_ts ex_file_wf ex_words
    ex_system ex_open_fcd OP_OPEN_IO ex_dict [] _ ex_records OP_START_GT 0 _ (bs "002    ") OP_READ_NEXT 9 ex_scan_program) as (s' & out & E & Hscan & _ & Hrows & _ & _ & Hf).
  - simpl. lia.
  - exists s', out. split; [|split; [exact Hscan|split; [exact Hrows|exact Hf]]].
    destruct out as [|r out]; [|exact E]. exfalso. pose proof (f_equal snd E) as E2. rewrite ex_sys_scan in E2. done.
Defined.

(** ** Mode A *)

#[local] Instance mem_keyed : IsamKeyed isam_mem.
Proof.
  split.
  - intros op f w w' f' Hop E. cbn [extfh mem_extfh] in E. unfold im_call in E. rewrite !elem_of_cons, elem_of_nil in Hop.
    destruct Hop as [->|[->|[->|[]]]]; cbn in E; (destruct (im_update _ f w) as [[w2 ok]|]; injection E as _ <-; done).
  - intros f w recs comps k Hio Hr _ Hc Hk. exists w. split; [|done]. cbn [extfh mem_extfh isam_recs mem_isam] in *.
    change (im_call OP_READ_RANDOM f w) with (match im_find f w with
      Some r => (w, inr (A:=fault) (set_status ST_OK (set_rec r f))) | None => (w, inr (set_status ST_REC_NOT_FOUND f)) end).
    unfold im_find. rewrite Hr. cbn [mbind option_bind]. rewrite Hc. cbn [mbind option_bind]. rewrite Hk. cbn [mbind option_bind].
    rewrite by_key_lookup. by destruct (head _).
Qed.

(** The table and the ISAM file open, with the same records. *)
Definition ex_dual_isams : list bytes := [bs "002Ana "; bs "005Ana "; bs "007Bia "].
Definition ex_dual_isam : isam_mem := mk_im {[ ex_file := ex_dual_isams ]} {[ ex_file := [] ]}.
Definition ex_dual_system : sys (parts server isam_mem) :=
  mk_sys (put_conn true ex_globals) (mk_parts (mk_ms ex_used_state ex_dual_isam None None None) (mk_jheap ∅ 1) cbl_init).
Definition ex_dual_config : option bytes := Some (bs "A").
Definition ex_dual_fcd : fcd_t := set_mode 0 ex_cmp_fcd.
Definition ex_dual_requests : list request :=
  [RWrite (bs "007Eva "); RWrite (bs "004Leo "); RRewrite (bs "002Eva "); RDelete 0 (bs "005    "); RRewrite (bs "009Leo "); RRead 1 (bs "000Bia ")].

Notation ex_dual_all := (sys_perform_all ex_env ex_dual_config true true ex_texts_of_files 9 ex_ts).

Example ex_dual_run : snd (ex_dual_all ex_dual_fcd ex_dual_requests ex_dual_system) =
  inr [(ST_DUPL_KEY, bs "007Eva "); (ST_OK, bs "004Leo "); (ST_OK, bs "002Eva "); (ST_OK, bs "005Ana "); (ST_REC_NOT_FOUND, bs "009Leo ");
    (ST_OK, bs "007Bia ")].
Proof. by vm_compute. Qed.

(** In mode W the ISAM file answers, the same. *)
Example ex_w_run : snd (sys_perform_all ex_env (Some (bs "W")) true true ex_texts_of_files 9 ex_ts ex_dual_fcd (take 5 ex_dual_requests) ex_dual_system) =
  inr [(ST_DUPL_KEY, bs "007Eva "); (ST_OK, bs "004Leo "); (ST_OK, bs "002Eva "); (ST_OK, bs "005Ana "); (ST_REC_NOT_FOUND, bs "009Leo ")].
Proof. by vm_compute. Qed.

Lemma ex_dual_requests_ok : Forall (dual_request (cols:=ex_tcols) (keys:=ex_tkeys) "A") ex_dual_requests.
Proof.
  unfold ex_dual_requests. repeat (apply Forall_cons; split); [..|constructor]; (split; [|done]).
  - by apply (ex_write 48 48 55 (bs "Eva ")).
  - by apply (ex_write 48 48 52 (bs "Leo ")).
  - by apply (ex_write 48 48 50 (bs "Eva ")).
  - apply (ex_read 48 48 53 (bs "    ") 0); first [done|lia].
  - by apply (ex_write 48 48 57 (bs "Leo ")).
  - apply (ex_read 48 48 48 (bs "Bia ") 1); first [done|lia].
Qed.

Lemma ex_dual_ok : dual_ok (P:=cx_table) ex_ts ex_comps ex_file ex_dual_system 64 ex_records.
Proof.
  split; [exact ex_load_file|]. split; [by eexists|]. exists ex_dual_isams. split; [done|]. by vm_compute.
Qed.

Lemma ex_dual_calls : calls_sys (cols:=ex_tcols) ex_env ex_dual_config true true ex_texts_of_files 9 ex_ts "A" ex_dual_fcd ex_dual_system 64 ex_file.
Proof. intros area Ha. split; split; try done. change (cols_len ex_tcols ≤ length area)%nat. lia. Qed.

Lemma system_dual_witness : ∃ s' outs recs', ex_dual_all ex_dual_fcd ex_dual_requests ex_dual_system = (s', inr outs) ∧
  dual_run (cols:=ex_tcols) (keys:=ex_tkeys) ex_records ex_dual_requests outs recs' ∧
  dual_ok (P:=cx_table) ex_ts ex_comps ex_file s' 64 recs'.
Proof.
  destruct (system_dual (P:=cx_table) ex_env ex_dual_config true true ex_texts_of_files 9 ex_ts ex_file_wf ex_comps [[0%nat]] ex_layout eq_refl ex_pk_whole
    ex_file "A" ex_dual_system 64 ex_file ex_records ex_dual_fcd ex_dual_requests) as (s' & outs & recs' & E & Hrun & Hok & _).
  - by left.
  - exact ex_dual_ok.
  - exact ex_dual_requests_ok.
  - exact ex_dual_calls.
  - by split.
  - exists s', outs, recs'. split; [exact E|]. split; [exact Hrun|exact Hok].
Defined.
