(* ===== verification/MemoryServer.v ===== *)
(** Sessions of programs on files in memory and on a JSON document through the whole handler, evaluated. *)

From stdpp Require Import prelude gmap strings.
From S2P Require Import Prelude Fhtypes Fcd Libpq Cmp CmpIsam CmpServer DbWrite MemfhIdx MemfhInv MemfhWrite Memfh MemfhFile MemfhCbl MemfhSession JsonFile Meta MetaServer CommandServer DbServer CursorServer ChangeLogServer Pqfh System SystemSpec SystemSession SystemServer SystemMemory Json SystemJson.
Local Open Scope Z_scope.

#[local] Existing Instance mem_extfh.
#[local] Existing Instance mem_isam.
#[local] Existing Instance ex_calls.
#[local] Existing Instance cx_libpq.

(** The file [.pqfh] says M; the handler has no file in memory yet. *)
Definition ex_memory : sys (parts server isam_mem) :=
  mk_sys (mk_gl (ch "I") 0 [] false false true false false false) (mk_parts ex_db_state (mk_jheap ∅ 1) cbl_init).
Abbreviation ex_mem_sessions := (mem_sessions ex_env (Some (bs "M")) true true ex_texts_of_files 9 ex_ts).

(** Two programs: the first one writes two records and reads the file in order; the second one
    finds them, reads on from one, changes it and tries to delete it. *)
Definition ex_programs : list (list mem_req) :=
  [[QWrite (bs "k2aa"); QWrite (bs "k1bb"); QStart (bs "...."); QNext (bs "k1bb"); QNext (bs "k1bb"); QNext (bs "k2aa")];
   [QRead (bs "k1.."); QNext (bs "k1bb"); QRewrite (bs "k1cc"); QDelete (bs "k1.."); QRead (bs "k1.."); QRead (bs "k3..")]].

Example ex_mem_io : snd (ex_mem_sessions (MemfhCbl.ex_fcd (bs "....")) ex_programs ex_memory) =
  inr [(ST_OK, [(ST_OK, bs "k2aa"); (ST_OK, bs "k1bb"); (ST_OK, bs "k1bb"); (ST_OK, bs "k1bb"); (ST_OK, bs "k2aa"); (ST_EOF, bs "k2aa")], ST_OK);
       (ST_OK, [(ST_OK, bs "k1bb"); (ST_OK, bs "k2aa"); (ST_OK, bs "k1cc"); (ST_OK, bs "k1.."); (ST_OK, bs "k1cc"); (ST_REC_NOT_FOUND, bs "k3..")], ST_OK)].
Proof. by vm_compute. Qed.

(** A third one that writes a key the file has stops. *)
Example ex_mem_stop : snd (ex_mem_sessions (MemfhCbl.ex_fcd (bs "....")) (ex_programs ++ [[QWrite (bs "k2dd")]]) ex_memory) = inl Exit.
Proof. by vm_compute. Qed.

(** What a request of a concrete session may answer. *)
Ltac known_key H := vm_compute in H; injection H as <-.
Ltac step_answer Hs := inversion Hs; clear Hs; subst;
  try match goal with H : key_of _ _ = Some _ |- _ => known_key H end;
  try match goal with
  | H : file_get _ _ = Some _ |- _ => vm_compute in H; first [discriminate H|injection H as <-]
  | H : file_get _ _ = None |- _ => vm_compute in H; first [discriminate H|clear H]
  | H : _ = [] ∨ lower_ix _ _ ≠ _ |- _ => by destruct H as [H|H]; [discriminate H|destruct H]
  | H : _ !! S _ = Some _ |- _ => vm_compute in H; first [discriminate H|injection H as <- <-]
  | H : _ !! S _ = None |- _ => vm_compute in H; first [discriminate H|clear H]
  | H : (?a ≤ lower_ix _ _)%nat |- _ => assert (a = 0%nat) as -> by (vm_compute in H; lia); clear H
  end.

(** A request is allowed, then the ones after any answer. *)
Ltac safe_step tac := cbn [safe]; split; [split; [vm_compute; lia|tac]|intros _ ? ? ? Hs; step_answer Hs].
Ltac run_answers := repeat match goal with
  | H : mem_run _ _ _ _ _ _ |- _ => inversion H as [|? ? ? Hst|? ? ? ? ? ? ? ? _ Hs ?]; clear H; subst; [try (vm_compute in Hst; discriminate Hst)..|]; try step_answer Hs
  end.

Ltac new_record := split; [by eexists; vm_compute|apply MemfhFile.ex_capacity; apply Nat.ltb_lt; by vm_compute].

Lemma ex_programs_safe : safe_life MemfhFile.ex_comps 4 (ch "M") None false ex_programs.
Proof.
  split.
  - safe_step new_record. safe_step new_record. safe_step ltac:(by eexists; vm_compute).
    safe_step ltac:(by left). do 2 safe_step ltac:(by right; eexists). done.
  - intros outs m Hrun. run_answers. split; [|done].
    safe_step ltac:(by eexists; vm_compute). safe_step ltac:(by right; eexists).
    safe_step ltac:(by eexists; vm_compute).
    safe_step done. do 2 safe_step ltac:(by eexists; vm_compute). done.
Qed.


(** ** A JSON document *)

Definition ex_json_system : sys (parts server isam_mem) :=
  mk_sys (mk_gl (ch "I") 0 [] false false true false false false) (mk_parts ex_db_state JsonFile.ex_heap cbl_init).
Abbreviation ex_json_session := (json_session ex_env (Some (bs "B")) true true JsonFile.ex_files 9 ex_ts).
Definition ex_json_fcd : fcd_t := set_file_name_len (putshort 13) (JsonFile.ex_fcd "").
Definition ex_area (s : string) : bytes := bs s ++ replicate (450 - length (bs s)) 32.

(** A path that is not there, then one that is: its children, and the end. *)
Definition ex_json_requests : list json_req :=
  [JStart (ex_area "item"); JStart (ex_area "items"); JNext (ex_area ""); JNext (ex_area ""); JNext (ex_area "")].

Lemma system_json_witness : ∃ s' outs st, ex_json_session ex_json_fcd ex_json_requests ex_json_system = (s', inr (ST_OK, outs, st)) ∧
  fst <$> outs = [ST_REC_NOT_FOUND; ST_OK; ST_OK; ST_OK; ST_EOF] ∧ y_ms (world s') = y_ms (world ex_json_system).
Proof.
  edestruct (system_json ex_env (Some (bs "B")) true true JsonFile.ex_files 9 ex_ts (bs "doc.json") ex_json_system ex_json_fcd JsonFile.ex_text
    (JE None TP_OBJECT None Json.ex_doc) ex_json_requests) as (s' & E & _ & Hm & _).
  - split; [split; by vm_compute|by vm_compute|done].
  - done.
  - done.
  - by vm_compute.
  - apply JsonFile.ex_heap_ok.
  - done.
  - by vm_compute.
  - exists s'. do 2 eexists. split; [exact E|]. by split.
Defined.
